(* ===== verification/_CoqProject ===== *)
-Q . S2P
Prelude.v
Effects.v
Rows.v
Exceptions.v
DateTime.v
Sha256.v
Canonical.v
Json.v
LedgerTypes.v
LedgerStore.v
HashChain.v
LedgerService.v
LedgerCommit.v
ChainInvariant.v
JournalCommit.v
LedgerInvariant.v
LedgerOps.v
LedgerHistory.v
Demo.v
LedgerBooks.v
LedgerLiveness.v
LedgerPosting.v
LedgerHolds.v
LedgerVerify.v
LedgerTamper.v
LedgerDba.v
LedgerEvents.v
Outbox.v
OutboxFacts.v
Fsm.v
PaymentStates.v
KernelStates.v
Money.v
Fees.v
WindowMath.v
Calendar.v
Settlement.v
SettlementEngine.v
SettlementMoves.v
SettlementTables.v
SettlementBooks.v
SettlementControls.v
SettlementRelease.v
SettlementStaging.v
SettlementConfirm.v
SettlementHandoff.v
Tcsa.v
Recon.v
SettlementDemo.v
ReconFacts.v
KernelModels.v
Preflight.v
Sdk.v
Orchestrator.v
Chart.v
KernelMachine.v
KernelMoves.v
KernelSteps.v
KernelSafety.v
KernelRefunds.v
KernelAttempts.v
KernelBooks.v
KernelDemo.v
Position.v
PositionFacts.v
PositionRuns.v
Breaker.v
Registry.v
RegistryFacts.v
Runner.v
RunnerFacts.v
RunnerRetries.v
RunnerDemo.v
QrTlv.v
QrCrc.v
QrText.v
RateLimit.v
QrAmount.v
QrCodec.v
QrRoundtrip.v
