(* ===== verification/Prelude.v ===== *)
(** * bdpay: a verification library

    bdpay is a payments platform for Bangladesh, written in Python.  A merchant
    creates a payment intent; the kernel checks limits and licence, picks a
    connector and sends an instruction to a payment rail; what the rail answers
    moves the intent, its attempts and its refunds along declared state machines;
    money is booked in a double-entry ledger whose rows are sealed in a hash
    chain; the settlement engine batches what merchants are owed, stages the float
    and pays it out through the sponsor bank, behind a gate that looks whether the
    trust account covers what is owed; reconciliation compares the bank's files
    with the payouts; events leave through an outbox.  Around this core stand the
    fee rules, participant positions with net debit caps, window netting, the
    circuit breaker of each connector, the bank calendar, the rate limiter of the
    gateway and the codec of QR payloads.  Paths below are relative to src/bdpay/.

    ** How the code is modelled

    Python functions are functions, with the source's names.  A call that can
    raise returns [res exn A] (below); a call that changes a store takes it and
    returns it, and what was written before an exception stays written unless the
    code discards it ([transaction] of the ledger store does).  Integers are [Z],
    as Python's are unbounded; strings are byte strings; dictionaries are finite
    maps, or lists of rows where the insertion order can be observed.  A reading
    of the clock is an argument.  Definitions compute: the witnesses evaluate them.

    What the sources only call is an interface, a type class with the laws the
    code relies on: [HashFn] (SHA-256; Sha256.v has an executable instance),
    [CheckpointSigner] (Ed25519), [Redactor] (platform/pii.py), [EventPublisher]
    (the message broker), [RateLimitStore] (in memory or Redis), [UnicodeData]
    (the character database), [DhakaTz] and [HostTz] (time zone data).  The answers of rails
    and of the compliance ports are inputs of every call, so the theorems hold
    for all of them.

    ** Files

    Prelude.v, Effects.v, Rows.v, Exceptions.v, DateTime.v: results, stateful calls
    and a small logic for what every run of one keeps, lists of rows with a key,
    exceptions, [datetime].

    Ledger (ledger/service.py, memory_store.py, hash_chain.py, payloads.py,
    types.py; platform/canonical.py, ids.py).
    - Sha256.v, Canonical.v, Json.v: SHA-256, canonical JSON and content-addressed
      ids; canonical texts determine their values and are read back as them.
    - LedgerTypes.v, LedgerStore.v, HashChain.v, LedgerService.v: rows, the store
      with its staged transaction, preimages, and every operation of the service.
    - LedgerCommit.v, ChainInvariant.v, JournalCommit.v, LedgerInvariant.v,
      LedgerOps.v, LedgerHistory.v: the invariant, kept by every operation, and
      that history is append-only.  Demo.v: the ledger of the witnesses.
    - LedgerBooks.v, LedgerLiveness.v, LedgerPosting.v, LedgerHolds.v,
      LedgerEvents.v: the books balance in every reachable state, balances are the
      sums of their postings, posting succeeds exactly when it should and does
      exactly what the spec says, holds reserve and release, events are sealed.
    - LedgerVerify.v, LedgerTamper.v, LedgerDba.v: every reachable chain verifies;
      two verified chains with the same tip are equal unless SHA-256 collides;
      changes made behind the service's back are found by the deep check.

    Outbox.v, OutboxFacts.v (platform/outbox.py): the queue loses nothing, drains
    in order, and with the idempotent consumer each published event is handled
    once.

    Kernel.
    - Fsm.v, PaymentStates.v, KernelStates.v (kernel/fsm.py, payment_states.py and
      the other tables): the table engine and the tables row by row.
    - Money.v, Fees.v, Calendar.v (platform/money.py, ledger/settlement/fees.py,
      platform/scheduler.py, ledger/calendar_ext.py).
    - KernelModels.v, Preflight.v, Orchestrator.v (kernel/models.py,
      repository.py, preflight.py, routing.py, orchestrator.py and the port
      adapters of app.py): the whole orchestrator over the composition built for
      a memory:// database.  A coroutine that awaits the connector is suspended
      as a value and resumed by any answer, in any order.
    - KernelMachine.v: histories of such calls and answers, interleaved with other
      users of the ledger.
      KernelMoves.v: every move of a record is a rule of its table and the ledger
      moves only by its own operations.  KernelSteps.v: the steps one by one.
      KernelSafety.v, KernelRefunds.v, KernelAttempts.v, KernelBooks.v: no
      instruction reaches a rail without the licence, refunds never exceed the
      payment, one attempt is live at a time, a payment that succeeded is in the
      books.  KernelDemo.v: the kernel of the witnesses.

    Settlement (ledger/settlement/types.py, store.py, beftn.py, engine.py).
    - Settlement.v: the two transition tables, rows, the in-memory store with its
      column white lists, the bank's file.  SettlementEngine.v: the whole engine
      over that store and the ledger, which share no transaction, so that a call
      that raises half way leaves what it wrote.
    - SettlementMoves.v: histories of calls, and the moves of one call.
      SettlementTables.v: every call follows the tables and uses the ledger by its
      own operations.  SettlementBooks.v: a batch's totals are its members'.
    - SettlementControls.v, SettlementRelease.v, SettlementStaging.v: dispatch needs
      the trust-account gate and, over the threshold, a second approval; an
      assignment releases exactly what is due; every member has its float staged.
    - SettlementHandoff.v, SettlementConfirm.v: the file says what is paid; a
      confirmation settles the members and clears the merchants' balances;
      recovery finishes what a crash cut short.
    - Tcsa.v (ledger/tcsa.py): the trust-account monitor, its snapshots and the
      dispatch gate, with the settlement engine behind it: a batch leaves only if
      a fresh snapshot found the trust account covered.
    - SettlementDemo.v: a settlement run for the witnesses, and the runs behind five
      findings.

    Reconciliation (ledger/reconciliation/types.py, store.py, engine.py).
    - Recon.v: tables, rows, the in-memory store, the match cascade, ingestion, the
      retry of timing gaps, the exception queue and its resolutions.
    - ReconFacts.v: histories of these calls with the settlement engine beside them.
      A match is exact or a person's; an adjustment is approved and in the books;
      no line of a file is lost and reading it again changes nothing; the tables
      are followed.  At its end a run for the witnesses and for three findings.

    Chart.v (ledger/chart.py): the chart of accounts, and that the accounts the
    kernel posts to are in it.

    Position.v, PositionFacts.v, PositionRuns.v (ledger/position.py and the trigger
    of db/migrations/0102_netting.sql): no position goes below its cap, positions
    are the sums of the movements of their participant, and on which debits the
    service and the trigger agree.  WindowMath.v (ledger/replay/window_math.py):
    what participants pay is what they receive.  Breaker.v
    (connectors/breaker.py): no submission on a suspect rail.  RateLimit.v
    (gateway/ratelimit.py).  QrTlv.v, QrCrc.v, QrText.v, QrAmount.v, QrCodec.v,
    QrRoundtrip.v (qr/): encoding and decoding are inverse, and what is accepted
    is well formed.

    Connectors.
    - Sdk.v (connectors/sdk.py): instructions and results.
    - Registry.v, RegistryFacts.v (connectors/registry.py): the catalogue with its
      mode machine; registrations are well formed, the log of mode changes is a
      walk of the declared steps, production needs an approved promotion, the
      credential sweep fails closed.
    - Runner.v, RunnerFacts.v, RunnerRetries.v (connectors/runner.py,
      idempotency.py, stores.py): dispatch, retries, polls and reversals as
      coroutines that stop at their awaits and interleave freely; no adapter is
      called that must not be, a recorded outcome is final, every call ends, and
      a timed-out payment is asked about before it is sent again.  RunnerDemo.v:
      witnesses and the runs behind two findings.

    ** Bounds and fuel

    The TLV reader takes the length of its input as fuel: each object consumes
    bytes ([walk_complete]).  The search for a working day takes
    [7 * (holidays + 1)] steps: a longer idle run would need more holidays than
    the calendar has ([no_idle_run]).  Decimal arithmetic rounds to the 50 digits
    of the code's context; its exponent limits are not modelled.  Loops over
    stored rows are structural.

    ** Not modelled

    The relational stores (SQL), the HTTP gateway and the wiring of app.py, the
    adapters of single rails and their simulators, the card vault, compliance
    reporting, the normalisation of raw file lines, and the services around
    onboarding, disbursement, subscriptions, offers and netting: of the last group
    the state machines and the arithmetic are here.  The rollback of a database
    transaction in the middle of an operation of the orchestrator is not modelled:
    the composition modelled has none. *)
From Stdlib Require Export Ascii.
From stdpp Require Export base gmap strings list pretty fin_maps sorting.
From Stdlib Require Export ZArith Lia.

(** * Results: a Python call either returns a value or raises *)

Inductive res (E A : Type) : Type :=
| Ok (a : A)
| Err (e : E).
Arguments Ok {E A} _.
Arguments Err {E A} _.

Definition rbind {E A B} (c : res E A) (k : A -> res E B) : res E B :=
  match c with Ok a => k a | Err e => Err e end.

Definition is_ok {E A} (c : res E A) : bool :=
  match c with Ok _ => true | Err _ => false end.

Declare Scope bdpay_scope.
Delimit Scope bdpay_scope with bdpay.

(** [let* x := c in k]: run [c], then [k] on its value; an exception
    propagates. *)
Notation "'let*' x ':=' c 'in' k" := (rbind c (fun x => k))
  (at level 10, x pattern, c at level 100, k at level 200) : bdpay_scope.

(** [raise e when b else k]: Python's [if b: raise e] followed by [k]. *)
Notation "'raise' e 'when' b 'else' k" := (if (b : bool) then Err e else k)
  (at level 10, e at level 100, b at level 100, k at level 200) : bdpay_scope.

Open Scope bdpay_scope.

#[global] Instance res_eq_dec {E A} `{EqDecision E} `{EqDecision A} :
  EqDecision (res E A).
Proof. solve_decision. Defined.

(** [mapM]-like loop: the first failure aborts. *)
Fixpoint rmap {E A B} (f : A -> res E B) (l : list A) : res E (list B) :=
  match l with
  | [] => Ok []
  | x :: r => let* y := f x in let* ys := rmap f r in Ok (y :: ys)
  end.

(** A [for] loop threading a state. *)
Fixpoint rfold {E S A} (f : S -> A -> res E S) (s : S) (l : list A) : res E S :=
  match l with
  | [] => Ok s
  | x :: r => let* s' := f s x in rfold f s' r
  end.

(** * Stateful calls: what was written before an exception stays written *)

Definition eff (S E A : Type) : Type := S -> res E A * S.

Definition ebind {S E A B} (c : eff S E A) (k : A -> eff S E B) : eff S E B := fun s =>
  match c s with (Ok a, s') => k a s' | (Err e, s') => (Err e, s') end.
Definition eret {S E A} (a : A) : eff S E A := fun s => (Ok a, s).
Definition elift {S E A} (c : res E A) : eff S E A := fun s => (c, s).
Definition eget {S E} : eff S E S := fun s => (Ok s, s).
Definition eput {S E} (s : S) : eff S E unit := fun _ => (Ok tt, s).

Lemma ebind_eq {S E A B} (c : eff S E A) (k : A -> eff S E B) s :
  ebind c k s = match c s with (Ok a, s') => k a s' | (Err e, s') => (Err e, s') end.
Proof. reflexivity. Qed.
Lemma elift_Ok {S E A} (c : res E A) (s s' : S) a : elift c s = (Ok a, s') -> c = Ok a /\ s = s'.
Proof. by intros [= -> ->]. Qed.
Lemma elift_Err {S E A} (c : res E A) (s s' : S) e : elift c s = (Err e, s') -> c = Err e /\ s = s'.
Proof. by intros [= -> ->]. Qed.

(** [do* x := c in k]: run [c], then [k] on its value in the state it leaves. *)
Notation "'do*' x ':=' c 'in' k" := (ebind c (fun x => k))
  (at level 10, x pattern, c at level 100, k at level 200) : bdpay_scope.

(** [refuse e when b else k]: [if b: raise e] followed by the stateful [k]. *)
Notation "'refuse' e 'when' b 'else' k" := (if (b : bool) then elift (Err e) else k)
  (at level 10, e at level 100, b at level 100, k at level 200) : bdpay_scope.

(** * Tactics *)

(** [lia] reasons about division and remainder. *)
Ltac Zify.zify_post_hook ::= Z.to_euclidean_division_equations.

(** Invert a hypothesis [H : c = Ok v] through binds and guards. *)
Ltac res_step :=
  match goal with
  | H : Err _ = Ok _ |- _ => discriminate H
  | H : Ok _ = Err _ |- _ => discriminate H
  | H : Ok _ = Ok _ |- _ => injection H as H
  | H : Err _ = Err _ |- _ => injection H as H
  | H : rbind ?c _ = Ok _ |- _ =>
      let E := fresh "E" in destruct c eqn:E; cbn [rbind] in H
  | H : (let '(_, _) := ?p in _) = Ok _ |- _ => destruct p
  | H : (if ?b then Err _ else _) = Ok _ |- _ =>
      let E := fresh "G" in destruct b eqn:E; [discriminate H |]
  | H : (if ?b then _ else Err _) = Ok _ |- _ =>
      let E := fresh "G" in destruct b eqn:E; [| discriminate H]
  end.
Ltac inv_res := repeat (res_step; simplify_eq).

(** Invert one step of a stateful call. *)
Ltac eff_step :=
  match goal with
  | H : ebind ?c _ ?s = _ |- _ =>
      let E := fresh "E" in
      rewrite ebind_eq in H; destruct (c s) as [[?|?] ?] eqn:E; cbv beta iota in H
  | H : (Err _, _) = (_, _) |- _ => first [discriminate H | injection H as <- <-]
  | H : eget _ = (Ok _, _) |- _ => injection H as <- <-
  | H : eget _ = (Err _, _) |- _ => discriminate H
  | H : elift ?c _ = (Ok _, _) |- _ => apply elift_Ok in H as [H <-]
  | H : elift ?c _ = (Err _, _) |- _ => apply elift_Err in H as [H <-]
  | H : eret _ _ = _ |- _ => first [discriminate H | injection H as <- <-]
  | H : (if ?b then elift (Err _) else _) _ = _ |- _ =>
      let G := fresh "G" in destruct b eqn:G; [first [discriminate H | injection H as <- <-]|]
  end.
Ltac inv_eff := repeat eff_step.

(** Turn boolean facts into propositions. *)
Ltac bool_prop :=
  repeat match goal with
  | H : (_ || _)%bool = false |- _ => apply orb_false_iff in H; destruct H
  | H : (_ && _)%bool = true |- _ => apply andb_true_iff in H; destruct H
  | H : negb _ = true |- _ => apply negb_true_iff in H
  | H : negb _ = false |- _ => apply negb_false_iff in H
  | H : bool_decide _ = true |- _ => apply bool_decide_eq_true in H
  | H : bool_decide _ = false |- _ => apply bool_decide_eq_false in H
  | H : String.eqb _ _ = true |- _ => apply String.eqb_eq in H
  | H : String.eqb _ _ = false |- _ => apply String.eqb_neq in H
  | H : (_ <=? _)%Z = true |- _ => apply Z.leb_le in H
  | H : (_ <=? _)%Z = false |- _ => apply Z.leb_gt in H
  | H : (_ <? _)%Z = true |- _ => apply Z.ltb_lt in H
  | H : (_ <? _)%Z = false |- _ => apply Z.ltb_ge in H
  | H : (_ =? _)%Z = true |- _ => apply Z.eqb_eq in H
  | H : (_ =? _)%Z = false |- _ => apply Z.eqb_neq in H
  end.

(** Evaluate the closed decisions of the goal. *)
Ltac eval_decisions :=
  repeat match goal with
  | |- context [bool_decide ?P] =>
      let b := eval vm_compute in (bool_decide P) in
      match b with true => idtac | false => idtac end;
      change (bool_decide P) with b; cbv iota
  end.

(** * Strings

    A Python [str] is modelled by the bytes of its UTF-8 encoding, a Rocq
    [string].  Code-point order of Python strings is byte order of their UTF-8
    encodings, so comparison and sorting agree. *)

Fixpoint all_chars (p : Ascii.ascii -> bool) (s : string) : bool :=
  match s with
  | EmptyString => true
  | String c r => p c && all_chars p r
  end.

Definition is_digit (c : Ascii.ascii) : bool :=
  let n := Ascii.N_of_ascii c in ((48 <=? n) && (n <=? 57))%N.

Definition is_hex (c : Ascii.ascii) : bool :=
  let n := Ascii.N_of_ascii c in
  (is_digit c || ((97 <=? n) && (n <=? 102)))%N.

(** The double quote, which Rocq's string syntax cannot hold. *)
Definition dquote : string := String (Ascii.ascii_of_N 34) EmptyString.

(** Python's [bool(s)] on a [str]. *)
Definition truthy (s : string) : bool :=
  match s with EmptyString => false | _ => true end.

(** [str(n)] for a Python [int]. *)
Definition str_Z (z : Z) : string := pretty z.

Fixpoint zeros (n : nat) : string :=
  match n with O => EmptyString | S m => String "0"%char (zeros m) end.

(** [f"{n:0wd}"] for a non-negative [n]. *)
Definition zpad (w : nat) (n : Z) : string :=
  let s := str_Z n in zeros (w - String.length s) +:+ s.

(** [int(s)] for a string of ASCII digits. *)
Fixpoint digits_val (acc : Z) (s : string) : Z :=
  match s with
  | EmptyString => acc
  | String c r => digits_val (10 * acc + (Z.of_N (Ascii.N_of_ascii c) - 48)) r
  end.

Definition int_of_digits (s : string) : Z := digits_val 0 s.

(** [s[:n]] *)
Fixpoint str_take (n : nat) (s : string) : string :=
  match n, s with
  | S m, String c r => String c (str_take m r)
  | _, _ => EmptyString
  end.

Fixpoint str_drop (n : nat) (s : string) : string :=
  match n, s with
  | S m, String _ r => str_drop m r
  | _, _ => s
  end.

(** [s in l] *)
Definition str_in (s : string) (l : list string) : bool := bool_decide (s ∈ l).

#[global] Arguments String.append : simpl nomatch.

(** * Code points of a UTF-8 text *)

Definition byte_in (lo hi : N) (c : Ascii.ascii) : bool :=
  let n := Ascii.N_of_ascii c in ((lo <=? n) && (n <=? hi))%N.
Definition cont : Ascii.ascii -> bool := byte_in 128 191.

(** Bytes that continue a code point join the chunk before them. *)
Fixpoint chars (s : string) : list string :=
  match s with
  | EmptyString => []
  | String c r =>
      match chars r with
      | String d t :: rest =>
          if cont d then String c (String d t) :: rest else String c "" :: String d t :: rest
      | rest => String c "" :: rest
      end
  end.

(** ["".join(l)] *)
Fixpoint unchars (l : list string) : string :=
  match l with [] => "" | c :: r => c +:+ unchars r end.

Definition py_len (s : string) : nat := length (chars s).

Section Strings.
Implicit Types (s a b : string) (c : Ascii.ascii).

Lemma str_app_assoc a b s : (a +:+ b) +:+ s = a +:+ (b +:+ s).
Proof. induction a; simpl; congruence. Qed.

Lemma str_app_nil a : a +:+ "" = a.
Proof. induction a; simpl; congruence. Qed.

Lemma str_length_app a b :
  String.length (a +:+ b) = (String.length a + String.length b)%nat.
Proof. induction a; simpl; congruence. Qed.

(** Two concatenations with equally long heads agree piecewise. *)
Lemma str_app_inj_len a b s t :
  String.length a = String.length b -> a +:+ s = b +:+ t -> a = b /\ s = t.
Proof.
  revert b; induction a as [|x a IH]; intros [|y b] Hl He; simplify_eq/=; auto.
  destruct (IH b) as [-> ->]; auto.
Qed.

Lemma all_chars_app p a b : all_chars p (a +:+ b) = all_chars p a && all_chars p b.
Proof. induction a; simpl; [done|]. rewrite IHa. by rewrite andb_assoc. Qed.

Lemma all_chars_impl (p q : Ascii.ascii -> bool) s :
  (forall c, p c = true -> q c = true) ->
  all_chars p s = true -> all_chars q s = true.
Proof.
  intros Hpq; induction s; simpl; [done|].
  rewrite !andb_true_iff. intros [??]; auto.
Qed.

(** A separator absent from the heads splits a concatenation uniquely. *)
Lemma str_sep_inj (p : Ascii.ascii -> bool) c a b s t :
  p c = false -> all_chars p a = true -> all_chars p b = true ->
  a +:+ String c s = b +:+ String c t -> a = b /\ s = t.
Proof.
  intros Hc. revert b; induction a as [|x a IH]; intros [|y b] Ha Hb He;
    simplify_eq/=; auto; bool_prop; try congruence.
  destruct (IH b) as [-> ->]; auto.
Qed.
End Strings.

Lemma pretty_N_go_digits x s :
  all_chars is_digit s = true -> all_chars is_digit (pretty_N_go x s) = true.
Proof.
  revert s. induction (N.lt_wf_0 x) as [x _ IH]; intros s Hs.
  assert (x = 0 ∨ 0 < x)%N as [->|?] by lia; [by rewrite pretty_N_go_0|].
  rewrite pretty_N_go_step by done. apply IH; [by apply N.div_lt|].
  simpl. rewrite Hs, andb_true_r. unfold pretty_N_char. by repeat case_match.
Qed.

Lemma str_Z_digits z : (0 <= z)%Z -> all_chars is_digit (str_Z z) = true.
Proof.
  destruct z as [|p|p]; [done| |lia]. intros _. unfold str_Z, pretty, pretty_Z.
  unfold pretty, pretty_positive, pretty, pretty_N. case_decide; [done|].
  by apply pretty_N_go_digits.
Qed.

#[global] Instance str_Z_inj : Inj (=) (=) str_Z.
Proof. unfold str_Z. apply _. Qed.

Lemma pretty_N_go_length x s :
  (String.length s <= String.length (pretty_N_go x s))%nat.
Proof.
  revert s. induction (N.lt_wf_0 x) as [x _ IH]; intros s.
  assert (x = 0 ∨ 0 < x)%N as [->|?] by lia; [by rewrite pretty_N_go_0|].
  rewrite pretty_N_go_step by done.
  etrans; [|apply IH; by apply N.div_lt]. simpl; lia.
Qed.

Lemma str_Z_nonempty z : (0 < String.length (str_Z z))%nat.
Proof.
  destruct z as [|p|p]; cbn; try lia.
  unfold pretty, pretty_positive, pretty, pretty_N. case_decide; [done|].
  rewrite pretty_N_go_step by lia.
  pose proof (pretty_N_go_length (N.pos p `div` 10)
    (String (pretty_N_char (N.pos p `mod` 10)) "")). simpl in *. lia.
Qed.

Lemma digit_char_val x :
  (x < 10)%N -> (Z.of_N (Ascii.N_of_ascii (pretty_N_char x)) - 48 = Z.of_N x)%Z.
Proof.
  intros Hx. destruct x as [|p]; [done|].
  do 4 (destruct p as [p|p|]; try done; try lia).
Qed.

Lemma digits_val_pretty_go x s :
  digits_val 0 (pretty_N_go x s) = digits_val (Z.of_N x) s.
Proof.
  revert s. induction (N.lt_wf_0 x) as [x _ IH]; intros s.
  assert (x = 0 ∨ 0 < x)%N as [->|?] by lia; [by rewrite pretty_N_go_0|].
  rewrite pretty_N_go_step, IH by (done || by apply N.div_lt).
  cbn [digits_val]. f_equal.
  rewrite digit_char_val by (by apply N.mod_lt).
  pose proof (N.div_mod x 10). lia.
Qed.

(** Parsing back what [str] printed. *)
Lemma int_of_digits_str_Z z : (0 <= z)%Z -> int_of_digits (str_Z z) = z.
Proof.
  destruct z as [|p|p]; [done| |lia]. intros _.
  unfold int_of_digits, str_Z, pretty, pretty_Z.
  unfold pretty, pretty_positive, pretty, pretty_N. case_decide; [done|].
  by rewrite digits_val_pretty_go.
Qed.

Lemma digits_val_zeros n s : digits_val 0 (zeros n +:+ s) = digits_val 0 s.
Proof. induction n; simpl; auto. Qed.

Lemma int_of_digits_zpad w z : (0 <= z)%Z -> int_of_digits (zpad w z) = z.
Proof.
  intros. unfold int_of_digits, zpad. rewrite digits_val_zeros.
  by apply int_of_digits_str_Z.
Qed.

Lemma zpad_inj w x y : (0 <= x)%Z -> (0 <= y)%Z -> zpad w x = zpad w y -> x = y.
Proof.
  intros Hx Hy He. apply (f_equal int_of_digits) in He.
  by rewrite !int_of_digits_zpad in He.
Qed.

Lemma zeros_digits n : all_chars is_digit (zeros n) = true.
Proof. induction n; simpl; auto. Qed.

Lemma zpad_digits w z : (0 <= z)%Z -> all_chars is_digit (zpad w z) = true.
Proof.
  intros. unfold zpad. by rewrite all_chars_app, zeros_digits, str_Z_digits.
Qed.

Lemma zeros_length n : String.length (zeros n) = n.
Proof. induction n; simpl; auto. Qed.

Lemma pretty_N_go_length_le x s w :
  (x < 10 ^ N.of_nat w)%N ->
  (String.length (pretty_N_go x s) <= w + String.length s)%nat.
Proof.
  revert x s. induction w as [|w IH]; intros x s Hx.
  { assert (x = 0)%N as -> by (simpl in Hx; lia). by rewrite pretty_N_go_0. }
  assert (x = 0 ∨ 0 < x)%N as [->|?] by lia; [rewrite pretty_N_go_0; lia|].
  rewrite pretty_N_go_step by done. etrans; [apply IH|simpl; lia].
  apply N.Div0.div_lt_upper_bound.
  replace (10 * 10 ^ N.of_nat w)%N with (10 ^ N.of_nat (S w))%N; [done|].
  by rewrite Nat2N.inj_succ, N.pow_succ_r'.
Qed.

Lemma str_Z_length_le z w :
  (0 <= z < 10 ^ Z.of_nat w)%Z -> (0 < w)%nat -> (String.length (str_Z z) <= w)%nat.
Proof.
  destruct z as [|p|p]; [cbn; lia| |lia]. intros [_ Hz] _.
  unfold str_Z, pretty, pretty_Z, pretty, pretty_positive, pretty, pretty_N.
  case_decide; [done|]. etrans; [apply (pretty_N_go_length_le _ _ w)|simpl; lia].
  apply N2Z.inj_lt. rewrite N2Z.inj_pow, nat_N_Z. exact Hz.
Qed.

Lemma zpad_length w z :
  (0 <= z < 10 ^ Z.of_nat w)%Z -> (0 < w)%nat -> String.length (zpad w z) = w.
Proof.
  intros. unfold zpad. rewrite str_length_app, zeros_length.
  pose proof (str_Z_length_le z w). lia.
Qed.

(** Fixed-width decimal fields followed by anything are read back uniquely. *)
Lemma zpad_app_inj w x y s t :
  (0 <= x < 10 ^ Z.of_nat w)%Z -> (0 <= y < 10 ^ Z.of_nat w)%Z -> (0 < w)%nat ->
  zpad w x +:+ s = zpad w y +:+ t -> x = y /\ s = t.
Proof.
  intros Hx Hy Hw He. apply str_app_inj_len in He as [He ->].
  - split; [|done]. eapply zpad_inj; [..|exact He]; lia.
  - by rewrite !zpad_length.
Qed.

Lemma str_drop_app a b : str_drop (String.length a) (a +:+ b) = b.
Proof. induction a; simpl; auto. Qed.

Lemma str_take_app a b : str_take (String.length a) (a +:+ b) = a.
Proof. induction a; simpl; [by destruct b|]. by f_equal. Qed.

Lemma str_take_length n s :
  (n <= String.length s)%nat -> String.length (str_take n s) = n.
Proof.
  revert s. induction n as [|n IH]; intros [|c s] Hl; simpl in *; [done..|lia|].
  f_equal. apply IH. lia.
Qed.

Lemma str_take_chars p n s : all_chars p s = true -> all_chars p (str_take n s) = true.
Proof.
  revert s. induction n as [|n IH]; intros [|c s] Hs; simpl in *; [done..|].
  bool_prop. rewrite H, IH by done. done.
Qed.

Lemma str_take_drop n s : str_take n s +:+ str_drop n s = s.
Proof.
  revert s. induction n as [|n IH]; intros [|c s]; simpl; try done. by rewrite IH.
Qed.

Lemma str_drop_length n s : String.length (str_drop n s) = (String.length s - n)%nat.
Proof. revert s. induction n as [|n IH]; intros [|c s]; simpl; auto. Qed.

Lemma str_drop_drop n m s : str_drop n (str_drop m s) = str_drop (m + n) s.
Proof.
  revert s. induction m as [|m IH]; intros [|c s]; simpl; rewrite ?IH; try done; by destruct n.
Qed.

Lemma str_take_add n m s : str_take (n + m) s = str_take n s +:+ str_take m (str_drop n s).
Proof. revert s. induction n as [|n IH]; intros [|c s]; simpl; rewrite ?IH; try done; by destruct m. Qed.

Lemma str_take_app_ge n a b :
  (String.length a <= n)%nat -> str_take n (a +:+ b) = a +:+ str_take (n - String.length a) b.
Proof.
  revert n. induction a as [|c a IH]; intros n Hn; simpl in *; [by rewrite Nat.sub_0_r|].
  destruct n as [|n]; [lia|]. simpl. rewrite IH by lia. done.
Qed.

Lemma str_drop_app_ge n a b :
  (String.length a <= n)%nat -> str_drop n (a +:+ b) = str_drop (n - String.length a) b.
Proof.
  revert n. induction a as [|c a IH]; intros n Hn; simpl in *; [by rewrite Nat.sub_0_r|].
  destruct n as [|n]; [lia|]. simpl. apply IH. lia.
Qed.

Lemma str_take_app_le n a b :
  (n <= String.length a)%nat -> str_take n (a +:+ b) = str_take n a.
Proof.
  revert n. induction a as [|c a IH]; intros [|n] Hn; simpl in *; [by destruct b|lia|done|].
  rewrite IH by lia. done.
Qed.

(** * Sorting

    Python's [sorted(l, key=...)] is stable; [sort_by] is the stable insertion
    sort for a total order on keys. *)
Section Sort.
Context {A K : Type} (le : K -> K -> Prop) `{!RelDecision le} (key : A -> K).

Fixpoint sort_insert (x : A) (l : list A) : list A :=
  match l with
  | [] => [x]
  | y :: r => if decide (le (key x) (key y)) then x :: l else y :: sort_insert x r
  end.

Fixpoint sort_by (l : list A) : list A :=
  match l with [] => [] | x :: r => sort_insert x (sort_by r) end.

Lemma sort_insert_perm x l : sort_insert x l ≡ₚ x :: l.
Proof.
  induction l as [|y r IH]; simpl; [done|]. case_decide; [done|].
  rewrite IH. by apply Permutation_swap.
Qed.

Lemma sort_by_perm l : sort_by l ≡ₚ l.
Proof. induction l as [|x r IH]; simpl; [done|]. by rewrite sort_insert_perm, IH. Qed.

Context `{!Transitive le} `{!Total le} `{!AntiSymm (=) le}.

Let kle (x y : A) : Prop := le (key x) (key y).

Lemma sort_insert_sorted x l : StronglySorted kle l -> StronglySorted kle (sort_insert x l).
Proof.
  induction 1 as [|y r Hr IH Hall]; simpl; [by repeat constructor|].
  case_decide as Hxy.
  - constructor; [by constructor|]. constructor; [done|].
    eapply Forall_impl; [exact Hall|]. intros z Hz. unfold kle in *. by etrans.
  - constructor; [done|]. rewrite sort_insert_perm. constructor; [|done].
    destruct (total le (key x) (key y)); [done|]. by unfold kle.
Qed.

Lemma sort_by_sorted l : StronglySorted kle (sort_by l).
Proof. induction l; simpl; [constructor|]. by apply sort_insert_sorted. Qed.

(** Sorted lists with distinct keys are determined by their elements. *)
Lemma sorted_unique l1 l2 :
  StronglySorted kle l1 -> StronglySorted kle l2 -> NoDup (key <$> l1) ->
  l1 ≡ₚ l2 -> l1 = l2.
Proof.
  intros H1. revert l2. induction H1 as [|x r1 _ IH Hx]; intros l2 H2 Hnd Hp.
  { apply Permutation_nil_l in Hp. by subst. }
  destruct H2 as [|y r2 H2 Hy]; [by apply Permutation_nil_r in Hp|].
  assert (x = y) as ->.
  { assert (Hxin : x ∈ y :: r2) by (rewrite <- Hp; left).
    assert (Hyin : y ∈ x :: r1) by (rewrite Hp; left).
    apply elem_of_cons in Hxin as [->|Hxin]; [done|].
    apply elem_of_cons in Hyin as [->|Hyin]; [done|].
    rewrite Forall_forall in Hx, Hy.
    assert (key x = key y) as Hk.
    { apply (anti_symm le); [by apply Hx|by apply Hy]. }
    simpl in Hnd. apply NoDup_cons in Hnd as [Hnin _].
    exfalso. apply Hnin. rewrite Hk. by apply list_elem_of_fmap_2. }
  f_equal. apply IH; [done| |by apply Permutation_cons_inv in Hp].
  simpl in Hnd. by apply NoDup_cons in Hnd as [_ ?].
Qed.

Lemma sort_by_perm_eq l1 l2 :
  NoDup (key <$> l1) -> l1 ≡ₚ l2 -> sort_by l1 = sort_by l2.
Proof.
  intros Hnd Hp. apply sorted_unique; auto using sort_by_sorted.
  - by rewrite sort_by_perm.
  - by rewrite !sort_by_perm.
Qed.

Lemma sort_by_id l : StronglySorted kle l -> sort_by l = l.
Proof.
  induction 1 as [|x r _ IH Hx]; simpl; [done|]. rewrite IH.
  destruct r as [|y r]; simpl; [done|]. rewrite decide_True; [done|].
  by apply Forall_cons in Hx as [? _].
Qed.
End Sort.

(** Sorting commutes with filtering. *)
Section SortFilter.
Context {A K : Type} (le : K -> K -> Prop) `{!RelDecision le} `{!Transitive le} `{!Total le} `{!AntiSymm (=) le}
  (key : A -> K).

Lemma sort_insert_filter f x l :
  StronglySorted (fun a b => le (key a) (key b)) l ->
  List.filter f (sort_insert le key x l) =
  if f x then sort_insert le key x (List.filter f l) else List.filter f l.
Proof.
  induction 1 as [|y r Hr IH Hall]; cbn; [by destruct (f x)|]. case_decide as Hxy; cbn.
  - destruct (f x) eqn:Hx, (f y) eqn:Hy; cbn; try done; [by rewrite decide_True|].
    destruct (List.filter f r) as [|z r'] eqn:Hf; [done|]. cbn. rewrite decide_True; [done|].
    transitivity (key y); [done|]. rewrite Forall_forall in Hall. apply Hall, list_elem_of_In.
    eapply (proj1 (List.filter_In f z r)). rewrite Hf. by left.
  - rewrite IH. destruct (f x) eqn:Hx, (f y) eqn:Hy; cbn; try done. by rewrite decide_False.
Qed.

Lemma sort_by_filter f l : sort_by le key (List.filter f l) = List.filter f (sort_by le key l).
Proof.
  induction l as [|x l IH]; [done|]. cbn [sort_by]. rewrite sort_insert_filter by (apply sort_by_sorted; done || apply _).
  cbn. destruct (f x); cbn [sort_by]; by rewrite IH.
Qed.
End SortFilter.

(** Sorting commutes with a map that keeps the keys. *)
Lemma sort_by_fmap {A B K} (le : K -> K -> Prop) `{!RelDecision le}
    (ka : A -> K) (kb : B -> K) (f : A -> B) l :
  (forall a, kb (f a) = ka a) -> sort_by le kb (f <$> l) = f <$> sort_by le ka l.
Proof.
  intros Hk. induction l as [|x r IH]; csimpl; [done|]. rewrite IH. clear IH.
  induction (sort_by le ka r) as [|y s IH]; csimpl; [done|]. rewrite !Hk.
  case_decide; csimpl; [done|]. by rewrite IH.
Qed.

(** [sorted] of strings. *)
Definition sorted_strings (l : list string) : list string :=
  sort_by String.le id l.

Lemma elem_of_sorted (x : string) l : x ∈ sorted_strings l <-> x ∈ l.
Proof. unfold sorted_strings. by rewrite sort_by_perm. Qed.

Lemma sorted_strings_perm l l' : NoDup l -> l ≡ₚ l' -> sorted_strings l = sorted_strings l'.
Proof. intros Hnd Hp. apply sort_by_perm_eq; [apply _..| |done]. by rewrite list_fmap_id. Qed.

(** * Filters *)

Lemma lfilter_true {A} (f : A -> bool) (l : list A) : (forall x, x ∈ l -> f x = true) -> List.filter f l = l.
Proof.
  induction l as [|x l IH]; intros Hf; [done|]. cbn. rewrite Hf by (by left). f_equal. apply IH. intros. apply Hf. by right.
Qed.

Lemma lfilter_false {A} (f : A -> bool) (l : list A) : (forall x, x ∈ l -> f x = false) -> List.filter f l = [].
Proof.
  induction l as [|x l IH]; intros Hf; [done|]. cbn. rewrite Hf by (by left). apply IH. intros. apply Hf. by right.
Qed.

Section Filters.
Context {A : Type} (P : A -> Prop) `{!forall x, Decision (P x)}.

Lemma filter_none (l : list A) : (forall x, x ∈ l -> ~ P x) -> filter P l = [].
Proof.
  induction l as [|x l IH]; intros Hn; [done|]. rewrite filter_cons.
  rewrite decide_False by (apply Hn; by left). apply IH. intros. apply Hn. by right.
Qed.

Lemma filter_every (l : list A) : (forall x, x ∈ l -> P x) -> filter P l = l.
Proof.
  induction l as [|x l IH]; intros Hn; [done|]. rewrite filter_cons.
  rewrite decide_True by (apply Hn; by left). f_equal. apply IH. intros. apply Hn. by right.
Qed.
End Filters.

Lemma length_omap_le {A B} (f : A -> option B) (l : list A) :
  (length (omap f l) <= length l)%nat.
Proof. induction l as [|x l IH]; csimpl; [done|]. destruct (f x); simpl; lia. Qed.

(** * Sums *)

Definition sumZ {A} (f : A -> Z) (l : list A) : Z :=
  foldr (fun x acc => (f x + acc)%Z) 0%Z l.

(** The sum of [f] over the values of a map. *)
Definition msum {K A} `{Countable K} (f : A -> Z) (m : gmap K A) : Z :=
  sumZ f (map_to_list m).*2.

Section Sums.
Context {A : Type}.
Implicit Types (f g : A -> Z) (l : list A).

Lemma sumZ_app f l1 l2 : sumZ f (l1 ++ l2) = (sumZ f l1 + sumZ f l2)%Z.
Proof. induction l1; simpl; lia. Qed.

Lemma sumZ_add f g l : sumZ (fun x => (f x + g x)%Z) l = (sumZ f l + sumZ g l)%Z.
Proof. induction l; simpl; lia. Qed.

Lemma sumZ_sub f g l : sumZ (fun x => (f x - g x)%Z) l = (sumZ f l - sumZ g l)%Z.
Proof. induction l; simpl; lia. Qed.

Lemma sumZ_ext f g l : (forall x, x ∈ l -> f x = g x) -> sumZ f l = sumZ g l.
Proof.
  induction l as [|x l IH]; intros Hfg; simpl; [done|].
  rewrite (Hfg x), IH; [done| |by left]. intros y Hy. apply Hfg. by right.
Qed.

#[global] Instance sumZ_perm f : Proper ((≡ₚ) ==> (=)) (sumZ f).
Proof. induction 1; simpl; lia. Qed.

Lemma sumZ_nonneg f l : (forall x, x ∈ l -> (0 <= f x)%Z) -> (0 <= sumZ f l)%Z.
Proof.
  induction l as [|x l IH]; intros Hf; simpl; [lia|].
  pose proof (Hf x ltac:(by left)).
  assert (0 <= sumZ f l)%Z by (apply IH; intros; apply Hf; by right). lia.
Qed.

Lemma sumZ_filter_split (P : A -> Prop) `{!forall x, Decision (P x)} f l :
  sumZ f l = (sumZ f (filter P l) + sumZ f (filter (fun x => ~ P x) l))%Z.
Proof.
  induction l as [|x l IH]; simpl; [done|]. rewrite !filter_cons.
  repeat case_decide; simpl; try done; lia.
Qed.
End Sums.

Lemma sumZ_zero {A} (f : A -> Z) l : (forall x, x ∈ l -> f x = 0%Z) -> sumZ f l = 0%Z.
Proof.
  induction l as [|x l IH]; intros Hf; simpl; [done|].
  rewrite (Hf x), IH; [done| |by left]. intros y Hy. apply Hf. by right.
Qed.

Section SumSwap.
Context {A B : Type}.

Lemma sumZ_scale (c : Z) (f : A -> Z) l : (c * sumZ f l)%Z = sumZ (fun x => c * f x)%Z l.
Proof. induction l; simpl; lia. Qed.

Lemma sumZ_fmap (f : B -> Z) (g : A -> B) l : sumZ f (g <$> l) = sumZ (fun x => f (g x)) l.
Proof. induction l as [|x l IH]; csimpl; [done|]. by rewrite IH. Qed.

Lemma sumZ_swap (f : A -> B -> Z) la lb :
  sumZ (fun a => sumZ (f a) lb) la = sumZ (fun b => sumZ (fun a => f a b) la) lb.
Proof.
  induction la as [|a la IH]; simpl.
  - symmetry. by apply sumZ_zero.
  - rewrite IH, <- sumZ_add. done.
Qed.

(** A sum over a list with one non-zero element. *)
Lemma sumZ_single (f : A -> Z) l x :
  NoDup l -> x ∈ l -> (forall y, y ∈ l -> y <> x -> f y = 0%Z) -> sumZ f l = f x.
Proof.
  induction l as [|y l IH]; intros Hnd Hin Hz; [by apply not_elem_of_nil in Hin|].
  apply NoDup_cons in Hnd as [Hnin Hnd]. simpl. apply elem_of_cons in Hin as [->|Hin].
  - rewrite (sumZ_zero f l); [lia|]. intros z Hzl. apply Hz; [by right|]. congruence.
  - rewrite (Hz y), IH; [lia|done|done| |by left|congruence].
    intros z Hzl. apply Hz. by right.
Qed.

Lemma sumZ_filter_if (P : A -> Prop) `{!forall x, Decision (P x)} (f : A -> Z) l :
  sumZ f (filter P l) = sumZ (fun x => if decide (P x) then f x else 0%Z) l.
Proof.
  induction l as [|x l IH]; simpl; [done|]. rewrite filter_cons.
  case_decide; simpl; by rewrite IH.
Qed.
End SumSwap.

Section MapSums.
Context {K A : Type} `{Countable K}.
Implicit Types (f : A -> Z) (m : gmap K A).

Lemma map_to_list_insert_snd k (x : A) m :
  m !! k = None -> (map_to_list (<[k := x]> m)).*2 ≡ₚ x :: (map_to_list m).*2.
Proof. intros. by rewrite map_to_list_insert by done. Qed.

Lemma msum_empty f : msum f (∅ : gmap K A) = 0%Z.
Proof. unfold msum. by rewrite map_to_list_empty. Qed.

Lemma msum_insert f m k x :
  m !! k = None -> msum f (<[k := x]> m) = (f x + msum f m)%Z.
Proof. intros. unfold msum. by rewrite map_to_list_insert_snd. Qed.

Lemma elem_of_map_values m x : x ∈ (map_to_list m).*2 <-> exists k, m !! k = Some x.
Proof.
  rewrite list_elem_of_fmap. split.
  - intros ([k y] & -> & Hin). exists k. by apply elem_of_map_to_list in Hin.
  - intros [k Hk]. exists (k, x). split; [done|]. by apply elem_of_map_to_list.
Qed.
End MapSums.
