(* ===== verification/Effects.v ===== *)
(** A small logic for stateful calls.

    [within R c]: every run of [c], also one that raises, is an [R]-move of the
    state.  For a preorder [R] the judgement is closed under sequencing, so an
    operation is proved from its primitives alone.  [from s R c] is the same at
    one state, for the steps that depend on what was read. *)
From S2P Require Import Prelude.

Section Judgements.
Context {S E : Type}.
Implicit Types (R : S -> S -> Prop).

Definition within R {A} (c : eff S E A) : Prop := forall s, R s (c s).2.

(** What every returned value satisfies. *)
Definition yields {A} (c : eff S E A) (Q : A -> Prop) : Prop := forall s a s', c s = (Ok a, s') -> Q a.

Definition from (s : S) R {A} (c : eff S E A) : Prop := R s (c s).2.

(** Keeping a property of the state is a preorder. *)
Definition keeps (J : S -> Prop) (s s' : S) : Prop := J s -> J s'.

Lemma yields_bind {A B} (c : eff S E A) (k : A -> eff S E B) Q :
  (forall a, yields (k a) Q) -> yields (ebind c k) Q.
Proof. intros Hk s a s' Hc. inv_eff. by eapply Hk. Qed.
End Judgements.

#[export] Instance keeps_preorder {S} (J : S -> Prop) : PreOrder (keeps J).
Proof. split; unfold keeps; auto. Qed.

Section Within.
Context {S E : Type} (R : S -> S -> Prop) `{!PreOrder R}.

Lemma within_bind {A B} (c : eff S E A) (k : A -> eff S E B) :
  within R c -> (forall a, within R (k a)) -> within R (ebind c k).
Proof.
  intros Hc Hk s. rewrite ebind_eq. specialize (Hc s). destruct (c s) as [[a|e] s']; [|done].
  etrans; [exact Hc|apply Hk].
Qed.

Lemma within_bind_yields {A B} (Q : A -> Prop) (c : eff S E A) (k : A -> eff S E B) :
  within R c -> yields c Q -> (forall a, Q a -> within R (k a)) -> within R (ebind c k).
Proof.
  intros Hc Hq Hk s. rewrite ebind_eq. specialize (Hc s). destruct (c s) as [[a|e] s'] eqn:Hcs; [|done].
  etrans; [exact Hc|]. eapply Hk, Hq, Hcs.
Qed.

(** After a pure step its value is known. *)
Lemma within_bind_lift {A B} (c : res E A) (k : A -> eff S E B) :
  (forall a, c = Ok a -> within R (k a)) -> within R (ebind (elift c) k).
Proof. intros Hk s. rewrite ebind_eq. unfold elift. destruct c; [by apply Hk|reflexivity]. Qed.

Lemma within_ret {A} (a : A) : within (E := E) R (eret a).
Proof. intros s. reflexivity. Qed.
Lemma within_lift {A} (c : res E A) : within R (elift c).
Proof. intros s. reflexivity. Qed.
Lemma within_get : within (E := E) R eget.
Proof. intros s. reflexivity. Qed.

Lemma within_weaken (R' : S -> S -> Prop) {A} (c : eff S E A) :
  (forall s s', R' s s' -> R s s') -> within R' c -> within R c.
Proof. intros Hi Hc s. apply Hi, Hc. Qed.

Lemma within_from {A} (c : eff S E A) : (forall s, from s R c) -> within R c.
Proof. done. Qed.
Lemma from_within {A} (c : eff S E A) s : within R c -> from s R c.
Proof. intros Hc. apply Hc. Qed.

Lemma from_bind {A B} (c : eff S E A) (k : A -> eff S E B) s :
  from s R c -> (forall a s', c s = (Ok a, s') -> from s' R (k a)) -> from s R (ebind c k).
Proof.
  unfold from. intros Hc Hk. rewrite ebind_eq. destruct (c s) as [[a|e] s']; [|done].
  etrans; [exact Hc|by apply Hk].
Qed.

Lemma from_bind_lift {A B} (c : res E A) (k : A -> eff S E B) s :
  (forall a, c = Ok a -> from s R (k a)) -> from s R (ebind (elift c) k).
Proof. unfold from. intros Hk. rewrite ebind_eq. unfold elift. destruct c; [by apply Hk|reflexivity]. Qed.
End Within.

Section From.
Context {S E : Type} (R : S -> S -> Prop).

Lemma from_bind_assoc {A B C} (c : eff S E A) (k : A -> eff S E B) (k' : B -> eff S E C) s :
  from s R (ebind c (fun a => ebind (k a) k')) -> from s R (ebind (ebind c k) k').
Proof. unfold from. rewrite !ebind_eq. by destruct (c s) as [[a|e] s']. Qed.

Lemma from_bind_ret {A B} (a : A) (k : A -> eff S E B) s : from s R (k a) -> from s R (ebind (eret a) k).
Proof. done. Qed.
End From.
