(* ===== verification/Rows.v ===== *)
(** Python dictionaries whose order matters, as lists of rows in insertion order:
    each row holds its own key, and an update keeps the row's place. *)
From S2P Require Import Prelude.

(** [d[key] = row] for a key that is present. *)
Definition replace_row {A} (key : A -> string) (k : string) (f : A -> A) (l : list A) : list A :=
  (fun r => if String.eqb (key r) k then f r else r) <$> l.

Section Rows.
Context {A : Type}.
Implicit Types (l : list A) (q : A -> bool).

Lemma find_Some q l x : List.find q l = Some x -> x ∈ l /\ q x = true.
Proof. intros [Hin Hq]%List.find_some. split; [by apply list_elem_of_In|done]. Qed.

Lemma find_None q l : List.find q l = None -> forall x, x ∈ l -> q x = false.
Proof. intros Hf x Hx. eapply List.find_none; [done|]. by apply list_elem_of_In. Qed.

Lemma find_fmap q (g : A -> A) l :
  (forall x, q (g x) = q x) -> List.find q (g <$> l) = g <$> List.find q l.
Proof.
  intros Hg. induction l as [|x l IH]; [done|]. cbn. rewrite Hg. by destruct (q x).
Qed.

Lemma find_snoc q l x :
  List.find q (l ++ [x]) = match List.find q l with Some y => Some y | None => if q x then Some x else None end.
Proof. induction l as [|y l IH]; [done|]. cbn. by destruct (q y). Qed.

Lemma not_existsb q l : List.existsb q l = false -> forall x, x ∈ l -> q x = false.
Proof.
  intros He x Hx. destruct (q x) eqn:Hq; [|done]. rewrite <- He. symmetry. apply List.existsb_exists.
  exists x. split; [by apply list_elem_of_In|done].
Qed.

Lemma fmap_replace_row {B} (h : A -> B) key k f l :
  (forall x, h (f x) = h x) -> h <$> replace_row key k f l = h <$> l.
Proof.
  intros Hf. unfold replace_row. rewrite <- list_fmap_compose. apply list_fmap_ext.
  intros _ x _. cbn. by destruct (String.eqb _ _).
Qed.

Lemma Forall_replace_row (P : A -> Prop) key k f l :
  Forall P l -> (forall x, P x -> key x = k -> P (f x)) -> Forall P (replace_row key k f l).
Proof.
  intros Hl Hf. unfold replace_row. rewrite Forall_fmap. eapply Forall_impl; [exact Hl|].
  intros x Hx. cbn. destruct (String.eqb_spec (key x) k); auto.
Qed.

Lemma NoDup_fmap_eq {B} (h : A -> B) l x y : NoDup (h <$> l) -> x ∈ l -> y ∈ l -> h x = h y -> x = y.
Proof.
  induction l as [|z l IH]; [by intros _ ?%not_elem_of_nil|]. csimpl.
  rewrite NoDup_cons, !elem_of_cons. intros [Hz Hl] [->|Hx] [->|Hy] He; try done.
  - exfalso. apply Hz. rewrite He. by apply list_elem_of_fmap_2.
  - exfalso. apply Hz. rewrite <- He. by apply list_elem_of_fmap_2.
  - by apply IH.
Qed.

Lemma NoDup_fmap_snoc {B} (h : A -> B) l x :
  NoDup (h <$> l) -> (forall y, y ∈ l -> h y <> h x) -> NoDup (h <$> (l ++ [x])).
Proof.
  intros Hn Hx. rewrite fmap_app. apply NoDup_app. split_and!; [done| |apply NoDup_singleton].
  intros b (y & -> & Hy)%list_elem_of_fmap Hb%list_elem_of_singleton. by apply (Hx y).
Qed.
End Rows.


Section Update.
Context {A : Type} (key : A -> string).
Implicit Types (l : list A).

Definition has_key (k : string) (r : A) : bool := String.eqb (key r) k.

Lemma has_key_iff k r : has_key k r = true <-> key r = k.
Proof. apply String.eqb_eq. Qed.

(** The row of a key. *)
Lemma find_key l k r : NoDup (key <$> l) -> List.find (has_key k) l = Some r <-> r ∈ l /\ key r = k.
Proof.
  intros Hnd. split; [intros [Hin Hk]%find_Some; split; [done|by apply has_key_iff]|].
  intros [Hin Hk]. destruct (List.find (has_key k) l) as [r'|] eqn:Hf.
  - apply find_Some in Hf as [Hin' Hk'%has_key_iff]. f_equal. eapply (NoDup_fmap_eq key); [done..|congruence].
  - eapply find_None in Hf; [|exact Hin]. apply not_true_iff_false in Hf. by rewrite has_key_iff in Hf.
Qed.

Lemma replace_row_keys k f l : (forall x, key (f x) = key x) -> key <$> replace_row key k f l = key <$> l.
Proof. apply fmap_replace_row. Qed.

Lemma find_replace_row k k' f l :
  (forall x, key (f x) = key x) ->
  List.find (has_key k') (replace_row key k f l) =
  (if String.eqb k k' then f else id) <$> List.find (has_key k') l.
Proof.
  intros Hf. induction l as [|x l IH]; [by destruct (String.eqb k k')|].
  unfold replace_row in *. csimpl. unfold has_key at 1.
  assert (Hk : key (if String.eqb (key x) k then f x else x) = key x) by (destruct (String.eqb (key x) k); [apply Hf|done]).
  rewrite Hk. unfold has_key at 2. destruct (String.eqb_spec (key x) k') as [He|He]; [|exact IH].
  cbn. f_equal. destruct (String.eqb_spec (key x) k), (String.eqb_spec k k'); first [done|congruence].
Qed.

(** Overwriting the row of a key. *)
Lemma find_put r k l :
  List.find (has_key k) (replace_row key (key r) (fun _ => r) l) =
  (if String.eqb (key r) k then fun _ => r else id) <$> List.find (has_key k) l.
Proof.
  unfold replace_row, has_key. induction l as [|x l IH]; [by destruct (String.eqb _ k)|]. csimpl.
  destruct (String.eqb_spec (key x) (key r)) as [He|He].
  - destruct (String.eqb_spec (key r) k), (String.eqb_spec (key x) k); first [done|congruence].
  - destruct (String.eqb_spec (key x) k) as [Hk|?]; [|exact IH].
    destruct (String.eqb_spec (key r) k); first [done|congruence].
Qed.

Lemma put_keys r l : key <$> replace_row key (key r) (fun _ => r) l = key <$> l.
Proof.
  unfold replace_row. rewrite <- list_fmap_compose. apply list_fmap_ext. intros _ x _. cbn.
  by destruct (String.eqb_spec (key x) (key r)).
Qed.

Lemma Forall_put (P : A -> Prop) r l : Forall P l -> P r -> Forall P (replace_row key (key r) (fun _ => r) l).
Proof. intros Hl Hr. by apply Forall_replace_row. Qed.

Lemma elem_of_replace_row k f l x :
  x ∈ replace_row key k f l <-> exists y, y ∈ l /\ x = if String.eqb (key y) k then f y else y.
Proof.
  unfold replace_row. rewrite list_elem_of_fmap. split; intros (y & ? & ?); exists y; done.
Qed.
End Update.
