(* ===== verification/Exceptions.v ===== *)
(** The exceptions the modelled code raises, as one type, so that calls that
    cross components compose.  Messages are kept only where the code inspects
    or the caller reads them: [vmsg] lists the raise sites of
    [LedgerValidationError]. *)
From S2P Require Import Prelude.

(** Raise sites of [LedgerValidationError] in src/bdpay/ledger/service.py. *)
Inductive vmsg : Type :=
| UnknownAccountType (s : string)
| UnknownAccountSubtype (s : string)
| UnknownOwnerType (s : string)
| AccountCurrencyNotBdt
| AccountAlreadyExists (account_id : string)
| HoldFieldsRequired
| BadHoldOutcome
| UnknownHold (hold_id : string)
| HoldNotOpen (hold_id status outcome : string)
| UnknownAuditEventType (s : string)
| UnknownActorType (s : string)
| FieldRequired (name : string)
| AuditPayloadNotDict
| AuditEventDiffers (event_id field : string)
| UnknownTopic (s : string)
| BadEventType (s : string)
| OutboxEventDiffers (event_id field : string)
| NaiveClock
| UnknownReferenceType (s : string)
| UnknownEntryType (s : string)
| TooFewPostings
| BadSide (s : string)
| PostingCurrencyNotBdt (s : string)
| BadCheckpointInterval.

Inductive exn : Type :=
| HashChainError
| CanonicalError
| IdPrefixError
| TypeError
| OverflowError
| AssertionError
| InvalidOperation
| MoneyError
| FeeRuleError
| LedgerImbalanceError (debit credit : Z)
| LedgerDuplicateError (idempotency_key existing_entry_id : string)
| LedgerDuplicateEventError (event_id : string)
| LedgerAccountNotFoundError (account_id : string)
| LedgerAmountError
| LedgerValidationError (m : vmsg)
| TrialBalanceViolationError (total_debit_minor total_credit_minor : Z)
| LedgerWriteGateEngagedError (reason : option string)
| MemoryConstraintError (constraint : string)
| ReplayError
| KeyError.

#[export] Instance vmsg_eq_dec : EqDecision vmsg.
Proof. solve_decision. Defined.
#[export] Instance exn_eq_dec : EqDecision exn.
Proof. solve_decision. Defined.

(** [type(exc).__name__] *)
Definition exn_name (e : exn) : string :=
  match e with
  | HashChainError => "HashChainError"
  | CanonicalError => "CanonicalError"
  | InvalidOperation => "InvalidOperation"
  | IdPrefixError => "IdPrefixError"
  | TypeError => "TypeError"
  | OverflowError => "OverflowError"
  | AssertionError => "AssertionError"
  | MoneyError => "MoneyError"
  | FeeRuleError => "FeeRuleError"
  | LedgerImbalanceError _ _ => "LedgerImbalanceError"
  | LedgerDuplicateError _ _ => "LedgerDuplicateError"
  | LedgerDuplicateEventError _ => "LedgerDuplicateEventError"
  | LedgerAccountNotFoundError _ => "LedgerAccountNotFoundError"
  | LedgerAmountError => "LedgerAmountError"
  | LedgerValidationError _ => "LedgerValidationError"
  | TrialBalanceViolationError _ _ => "TrialBalanceViolationError"
  | LedgerWriteGateEngagedError _ => "LedgerWriteGateEngagedError"
  | MemoryConstraintError _ => "MemoryConstraintError"
  | ReplayError => "ReplayError"
  | KeyError => "KeyError"
  end.
