(* ===== verification/DateTime.v ===== *)
(** Timestamps: Python's [datetime] as the code uses it, and the canonical
    millisecond form of [to_canonical_ts] / [_format_datetime]
    (src/bdpay/ledger/hash_chain.py, src/bdpay/platform/canonical.py).

    An instant is the number of microseconds since 0001-01-01T00:00:00 UTC
    with the flag that says whether the value carries a time zone; the calendar
    fields are computed by CPython's [_ord2ymd]. *)
From S2P Require Import Prelude Exceptions.
Open Scope Z_scope.

Record datetime : Type := mk_datetime { tz_aware : bool; micros : Z }.

#[export] Instance datetime_eq_dec : EqDecision datetime.
Proof. solve_decision. Defined.

Definition micros_per_day : Z := 86400000000.

(** [datetime.max] is the last microsecond of year 9999. *)
Definition micros_limit : Z := 3652059 * micros_per_day.

Definition dt_valid (d : datetime) : Prop := 0 <= micros d < micros_limit.

(** [d + timedelta(days=n)], which raises past year 9999. *)
Definition dt_add_days (d : datetime) (n : Z) : res exn datetime :=
  let m := micros d + n * micros_per_day in
  raise OverflowError when (negb ((0 <=? m) && (m <? micros_limit))) else
  Ok (mk_datetime (tz_aware d) m).

Definition dt_leb (a b : datetime) : bool := micros a <=? micros b.
Definition dt_ltb (a b : datetime) : bool := micros a <? micros b.

(** * The proleptic Gregorian calendar (CPython [_ord2ymd], [_ymd2ord]) *)

Definition days_before_month (m : Z) : Z :=
  match m with
  | 1 => 0 | 2 => 31 | 3 => 59 | 4 => 90 | 5 => 120 | 6 => 151 | 7 => 181
  | 8 => 212 | 9 => 243 | 10 => 273 | 11 => 304 | 12 => 334 | _ => 365
  end.

Definition leap_day (leap : bool) (m : Z) : Z :=
  if (2 <? m) && leap then 1 else 0.

Definition days_in_month (leap : bool) (m : Z) : Z :=
  match m with
  | 2 => if leap then 29 else 28
  | 4 | 6 | 9 | 11 => 30
  | _ => 31
  end.

(** Month and day of the 0-based day [n] of a year. *)
Definition month_day (leap : bool) (n : Z) : Z * Z :=
  let month := Z.shiftr (n + 50) 5 in
  let preceding := days_before_month month + leap_day leap month in
  if n <? preceding then
    let month' := month - 1 in
    let preceding' := preceding - days_in_month leap month' in
    (month', n - preceding' + 1)
  else (month, n - preceding + 1).

(** Year, month and day of the 0-based ordinal [n0]. *)
Definition ord2ymd (n0 : Z) : Z * Z * Z :=
  let n400 := n0 / 146097 in let n := n0 mod 146097 in
  let n100 := n / 36524 in let n := n mod 36524 in
  let n4 := n / 1461 in let n := n mod 1461 in
  let n1 := n / 365 in let n := n mod 365 in
  let year := n400 * 400 + 1 + n100 * 100 + n4 * 4 + n1 in
  if (n1 =? 4) || (n100 =? 4) then (year - 1, 12, 31)
  else
    let leap := (n1 =? 3) && (negb (n4 =? 24) || (n100 =? 3)) in
    let '(m, d) := month_day leap n in (year, m, d).

Definition is_leap (y : Z) : bool :=
  (y mod 4 =? 0) && (negb (y mod 100 =? 0) || (y mod 400 =? 0)).

Definition days_before_year (y : Z) : Z :=
  let y := y - 1 in y * 365 + y / 4 - y / 100 + y / 400.

Definition ymd2ord (ymd : Z * Z * Z) : Z :=
  let '(y, m, d) := ymd in
  days_before_year y + days_before_month m + leap_day (is_leap y) m + d - 1.

(** The date as [YYYY-MM-DD]. *)
Definition iso_date (ymd : Z * Z * Z) : string :=
  let '(y, m, d) := ymd in
  zpad 4 y +:+ "-" +:+ zpad 2 m +:+ "-" +:+ zpad 2 d.

(** The time of day, from the microseconds since midnight, as
    [HH:MM:SS.mmm]. *)
Definition iso_time (us : Z) : string :=
  let secs := us / 1000000 in
  zpad 2 (secs / 3600) +:+ ":" +:+ zpad 2 (secs mod 3600 / 60) +:+ ":" +:+
  zpad 2 (secs mod 60) +:+ "." +:+ zpad 3 (us mod 1000000 / 1000).

(** [to_canonical_ts]: UTC ISO-8601 with milliseconds and a [Z] suffix; a naive
    value is refused. *)
Definition to_canonical_ts (d : datetime) : res exn string :=
  raise HashChainError when (negb (tz_aware d)) else
  Ok (iso_date (ord2ymd (micros d / micros_per_day)) +:+ "T" +:+
      iso_time (micros d mod micros_per_day) +:+ "Z").

(** [_format_datetime] of canonical.py: the same text, another exception. *)
Definition format_datetime (d : datetime) : res exn string :=
  raise CanonicalError when (negb (tz_aware d)) else
  Ok (iso_date (ord2ymd (micros d / micros_per_day)) +:+ "T" +:+
      iso_time (micros d mod micros_per_day) +:+ "Z").

Example ts_epoch :
  to_canonical_ts (mk_datetime true 63918000300007000) = Ok "2026-06-25T16:05:00.007Z".
Proof. vm_compute. reflexivity. Qed.

(** * Facts *)

Section Calendar.
(** The month table agrees with the month lengths: checked on all the days
    of a common and of a leap year. *)
Definition month_day_ok (leap : bool) (n : Z) : bool :=
  let '(m, d) := month_day leap n in
  (1 <=? m) && (m <=? 12) && (1 <=? d) && (d <=? 31) &&
  (days_before_month m + leap_day leap m + d - 1 =? n).

Lemma month_day_all :
  forallb (month_day_ok false) (Z.of_nat <$> seq 0 365) = true /\
  forallb (month_day_ok true) (Z.of_nat <$> seq 0 366) = true.
Proof. vm_compute. done. Qed.

Lemma month_day_spec leap n :
  0 <= n < 365 + Z.b2z leap -> month_day_ok leap n = true.
Proof.
  intros Hn. destruct month_day_all as [Hf Ht].
  rewrite forallb_forall in Hf, Ht.
  destruct leap; [apply Ht|apply Hf]; apply list_elem_of_In, list_elem_of_fmap;
    exists (Z.to_nat n); (split; [lia|]); apply elem_of_seq; simpl in *; lia.
Qed.

Lemma leap_of_cycles a b c e :
  0 <= a -> 0 <= b <= 3 -> 0 <= c <= 24 -> 0 <= e <= 3 ->
  is_leap (a * 400 + 1 + b * 100 + c * 4 + e) =
  (e =? 3) && (negb (c =? 24) || (b =? 3)).
Proof.
  intros. unfold is_leap.
  set (y := a * 400 + 1 + b * 100 + c * 4 + e).
  assert (y mod 4 = (e + 1) mod 4) as ->.
  { unfold y. replace (a * 400 + 1 + b * 100 + c * 4 + e)
      with (e + 1 + (100 * a + 25 * b + c) * 4) by lia. apply Z.mod_add. lia. }
  assert (y mod 100 = (c * 4 + e + 1) mod 100) as ->.
  { unfold y. replace (a * 400 + 1 + b * 100 + c * 4 + e)
      with (c * 4 + e + 1 + (4 * a + b) * 100) by lia. apply Z.mod_add. lia. }
  assert (y mod 400 = (b * 100 + c * 4 + e + 1) mod 400) as ->.
  { unfold y. replace (a * 400 + 1 + b * 100 + c * 4 + e)
      with (b * 100 + c * 4 + e + 1 + a * 400) by lia. apply Z.mod_add. lia. }
  assert (Hsmall : forall v w, 0 < w -> 0 < v <= w -> (v mod w = 0 <-> v = w)).
  { intros v w Hw Hv. destruct (decide (v = w)) as [->|Hne].
    - by rewrite Z.mod_same by lia.
    - rewrite Z.mod_small by lia. lia. }
  apply eq_true_iff_eq.
  rewrite !andb_true_iff, !orb_true_iff, !negb_true_iff, !Z.eqb_eq, !Z.eqb_neq,
    !Hsmall by lia.
  lia.
Qed.

Lemma days_before_cycles a b c e :
  0 <= a -> 0 <= b <= 3 -> 0 <= c <= 24 -> 0 <= e <= 3 ->
  days_before_year (a * 400 + 1 + b * 100 + c * 4 + e) =
  a * 146097 + b * 36524 + c * 1461 + e * 365.
Proof.
  intros. unfold days_before_year. cbv zeta.
  replace (a * 400 + 1 + b * 100 + c * 4 + e - 1)
    with (a * 400 + b * 100 + c * 4 + e) by lia.
  rewrite <- (Z.div_unique (a * 400 + b * 100 + c * 4 + e) 4
    (100 * a + 25 * b + c) e) by lia.
  rewrite <- (Z.div_unique (a * 400 + b * 100 + c * 4 + e) 100
    (4 * a + b) (c * 4 + e)) by lia.
  rewrite <- (Z.div_unique (a * 400 + b * 100 + c * 4 + e) 400
    a (b * 100 + c * 4 + e)) by lia.
  lia.
Qed.

Definition ymd_fields_ok (ymd : Z * Z * Z) : Prop :=
  let '(y, m, d) := ymd in 1 <= m <= 12 /\ 1 <= d <= 31.

(** [ymd2ord] inverts [ord2ymd], whose month and day are in range. *)
Lemma ord2ymd_spec n :
  0 <= n -> ymd2ord (ord2ymd n) = n /\ ymd_fields_ok (ord2ymd n).
Proof.
  intros Hn. unfold ord2ymd. cbv zeta.
  set (a := n / 146097). set (n' := n mod 146097).
  set (b := n' / 36524). set (n'' := n' mod 36524).
  set (c := n'' / 1461). set (n3 := n'' mod 1461).
  set (e := n3 / 365). set (k := n3 mod 365).
  pose proof (Z.div_mod n 146097 ltac:(lia)) as D1. fold a n' in D1.
  pose proof (Z.div_mod n' 36524 ltac:(lia)) as D2. fold b n'' in D2.
  pose proof (Z.div_mod n'' 1461 ltac:(lia)) as D3. fold c n3 in D3.
  pose proof (Z.div_mod n3 365 ltac:(lia)) as D4. fold e k in D4.
  pose proof (Z.mod_pos_bound n 146097 ltac:(lia)) as B1. fold n' in B1.
  pose proof (Z.mod_pos_bound n' 36524 ltac:(lia)) as B2. fold n'' in B2.
  pose proof (Z.mod_pos_bound n'' 1461 ltac:(lia)) as B3. fold n3 in B3.
  pose proof (Z.mod_pos_bound n3 365 ltac:(lia)) as B4. fold k in B4.
  assert (Hsum : n = a * 146097 + b * 36524 + c * 1461 + e * 365 + k) by lia.
  assert (0 <= a /\ 0 <= b <= 4 /\ 0 <= c <= 24 /\ 0 <= e <= 4 /\ 0 <= k < 365)
    as (Ha & Hb & Hc & He & Hk) by lia.
  assert (b = 4 -> c = 0 /\ e = 0 /\ k = 0) as Hb4 by lia.
  assert (e = 4 -> k = 0) as He4 by lia.
  assert (e = 4 -> b <= 3) as Hb3 by lia.
  assert (c = 24 -> e = 4 -> b = 3) as Hc24 by lia.
  clear D1 D2 D3 D4 B1 B2 B3 B4. clearbody a b c e k. clear n' n'' n3.
  destruct (_ || _) eqn:G.
  - rewrite orb_true_iff, !Z.eqb_eq in G. split; [|simpl; lia].
    assert (exists b' c', a * 400 + 1 + b * 100 + c * 4 + e - 1 =
      a * 400 + 1 + b' * 100 + c' * 4 + 3 /\ 0 <= b' <= 3 /\ 0 <= c' <= 24 /\
      n = a * 146097 + b' * 36524 + c' * 1461 + 3 * 365 + 365 /\
      (c' <> 24 \/ b' = 3)) as (b' & c' & -> & Hb' & Hc' & Hn' & Hl).
    { destruct G as [G | G].
      - specialize (He4 G). specialize (Hb3 G). exists b, c. lia.
      - destruct (Hb4 G) as (? & ? & ?). exists 3, 24. lia. }
    unfold ymd2ord. rewrite leap_of_cycles, days_before_cycles by lia.
    assert ((negb (c' =? 24) || (b' =? 3)) = true) as ->.
    { rewrite orb_true_iff, negb_true_iff, Z.eqb_eq, Z.eqb_neq. lia. }
    change (days_before_month 12) with 334.
    change (leap_day _ 12) with 1. lia.
  - rewrite orb_false_iff, !Z.eqb_neq in G. destruct G as [G1 G2].
    set (leap := (e =? 3) && (negb (c =? 24) || (b =? 3))).
    pose proof (month_day_spec leap k) as Hmd. unfold month_day_ok in Hmd.
    destruct (month_day leap k) as [m d]. bool_prop.
    assert (0 <= k < 365 + Z.b2z leap) as Hk' by (destruct leap; simpl; lia).
    specialize (Hmd Hk'). bool_prop.
    split; [|simpl; lia]. unfold ymd2ord.
    rewrite leap_of_cycles, days_before_cycles by lia. fold leap. lia.
Qed.

Lemma ord2ymd_year n : 0 <= n < 3652059 -> 1 <= fst (fst (ord2ymd n)) <= 9999.
Proof.
  intros Hn. destruct (ord2ymd_spec n) as [Hinv Hf]; [lia|].
  destruct (ord2ymd n) as [[y m] d]. simpl in *.
  assert (0 <= days_before_month m + leap_day (is_leap y) m <= 335) as Hm.
  { unfold leap_day. assert (m = 1 \/ m = 2 \/ m = 3 \/ m = 4 \/ m = 5 \/ m = 6 \/
      m = 7 \/ m = 8 \/ m = 9 \/ m = 10 \/ m = 11 \/ m = 12) as Hm by lia.
    destruct (is_leap y);
    by repeat destruct Hm as [->|Hm]; [..|subst m]. }
  unfold days_before_year in Hinv. cbv zeta in Hinv.
  pose proof (Z.div_mod (y - 1) 4). pose proof (Z.mod_pos_bound (y - 1) 4).
  pose proof (Z.div_mod (y - 1) 100). pose proof (Z.mod_pos_bound (y - 1) 100).
  pose proof (Z.div_mod (y - 1) 400). pose proof (Z.mod_pos_bound (y - 1) 400).
  lia.
Qed.
End Calendar.

(** Strip a common leading literal from an equality of concatenations. *)
Ltac str_inj H :=
  cbn [String.append] in H; repeat (injection H as H); rewrite ?str_app_assoc in H.

Lemma iso_date_inj n1 n2 s t :
  0 <= n1 < 3652059 -> 0 <= n2 < 3652059 ->
  iso_date (ord2ymd n1) +:+ s = iso_date (ord2ymd n2) +:+ t -> n1 = n2 /\ s = t.
Proof.
  intros H1 H2.
  destruct (ord2ymd_spec n1) as [I1 F1]; [lia|].
  destruct (ord2ymd_spec n2) as [I2 F2]; [lia|].
  pose proof (ord2ymd_year n1 H1). pose proof (ord2ymd_year n2 H2).
  destruct (ord2ymd n1) as [[y1 m1] d1], (ord2ymd n2) as [[y2 m2] d2]. simpl in *.
  rewrite !str_app_assoc. intros He.
  apply zpad_app_inj in He as [-> He]; [|lia..]. str_inj He.
  apply zpad_app_inj in He as [-> He]; [|lia..]. str_inj He.
  apply zpad_app_inj in He as [-> ->]; [|lia..]. split; [|done]. congruence.
Qed.

Lemma iso_time_inj u1 u2 s t :
  0 <= u1 < micros_per_day -> 0 <= u2 < micros_per_day ->
  iso_time u1 +:+ s = iso_time u2 +:+ t -> u1 / 1000 = u2 / 1000 /\ s = t.
Proof.
  intros H1 H2. unfold iso_time, micros_per_day in *. cbv zeta.
  assert (Hf : forall u, 0 <= u < 86400000000 ->
    0 <= u / 1000000 / 3600 < 10 ^ Z.of_nat 2 /\
    0 <= u / 1000000 mod 3600 / 60 < 10 ^ Z.of_nat 2 /\
    0 <= u / 1000000 mod 60 < 10 ^ Z.of_nat 2 /\
    0 <= u mod 1000000 / 1000 < 10 ^ Z.of_nat 3).
  { intros u Hu. change (10 ^ Z.of_nat 2) with 100. change (10 ^ Z.of_nat 3) with 1000.
    repeat split; lia. }
  pose proof (Hf u1 H1) as (?&?&?&?). pose proof (Hf u2 H2) as (?&?&?&?). clear Hf.
  rewrite !str_app_assoc. intros He.
  apply zpad_app_inj in He as [Eh He]; [|done || lia..]. str_inj He.
  apply zpad_app_inj in He as [Em He]; [|done || lia..]. str_inj He.
  apply zpad_app_inj in He as [Es He]; [|done || lia..]. str_inj He.
  apply zpad_app_inj in He as [Ems ->]; [|done || lia..]. split; [|done].
  clear -Eh Em Es Ems H1 H2. lia.
Qed.

Lemma iso_time_ms u1 u2 : u1 / 1000 = u2 / 1000 -> iso_time u1 = iso_time u2.
Proof.
  intros He. unfold iso_time. cbv zeta.
  assert (u1 / 1000000 = u2 / 1000000) as -> by lia.
  assert (u1 mod 1000000 / 1000 = u2 mod 1000000 / 1000) as -> by lia. done.
Qed.

(** Two timestamps in range have the same canonical form exactly when they
    name the same millisecond. *)
Lemma to_canonical_ts_inj_iff d1 d2 s1 s2 :
  dt_valid d1 -> dt_valid d2 ->
  to_canonical_ts d1 = Ok s1 -> to_canonical_ts d2 = Ok s2 ->
  s1 = s2 <-> micros d1 / 1000 = micros d2 / 1000.
Proof.
  unfold dt_valid, micros_limit, to_canonical_ts. intros V1 V2 H1 H2. inv_res.
  unfold micros_per_day in *. split.
  - intros He. apply iso_date_inj in He as [Hd He]; [|lia..]. str_inj He.
    apply iso_time_inj in He as [Ht _]; [|unfold micros_per_day; lia..]. lia.
  - intros He.
    assert (micros d1 / 86400000000 = micros d2 / 86400000000) as -> by lia.
    assert (iso_time (micros d1 mod 86400000000) =
            iso_time (micros d2 mod 86400000000)) as ->; [|done].
    apply iso_time_ms. lia.
Qed.
