(* ===== verification/Sha256.v ===== *)
(** SHA-256, [hashlib.sha256(...).hexdigest()] of the Python standard library,
    as an executable function on byte strings, and the interface [HashFn]
    through which the other components use it: the digest is 64 lower-case
    hexadecimal characters.  Nothing else about the hash is assumed anywhere;
    statements about tampering and content addresses exhibit the colliding
    inputs instead. *)
From S2P Require Import Prelude.
Open Scope Z_scope.

(** What the ledger relies on of the hash function. *)
Class HashFn : Type := {
  sha256_hex : string -> string;
  sha256_hex_length : forall s, String.length (sha256_hex s) = 64%nat;
  sha256_hex_chars : forall s, all_chars is_hex (sha256_hex s) = true
}.

(** Two different inputs with the same digest. *)
Definition collision `{HashFn} (a b : string) : Prop :=
  a <> b /\ sha256_hex a = sha256_hex b.

Module Sha256.
Definition w32 (x : Z) : Z := Z.land x 0xffffffff.
Definition rotr (n x : Z) : Z := Z.lor (Z.shiftr x n) (w32 (Z.shiftl x (32 - n))).
Definition ch (x y z : Z) : Z := Z.lxor (Z.land x y) (Z.land (Z.lxor x 0xffffffff) z).
Definition maj (x y z : Z) : Z :=
  Z.lxor (Z.lxor (Z.land x y) (Z.land x z)) (Z.land y z).
Definition bsig0 (x : Z) : Z := Z.lxor (Z.lxor (rotr 2 x) (rotr 13 x)) (rotr 22 x).
Definition bsig1 (x : Z) : Z := Z.lxor (Z.lxor (rotr 6 x) (rotr 11 x)) (rotr 25 x).
Definition ssig0 (x : Z) : Z := Z.lxor (Z.lxor (rotr 7 x) (rotr 18 x)) (Z.shiftr x 3).
Definition ssig1 (x : Z) : Z := Z.lxor (Z.lxor (rotr 17 x) (rotr 19 x)) (Z.shiftr x 10).

(** The round constants are the first 32 bits of the fractional parts of the
    cube roots of the first 64 primes, the initial state those of the square
    roots of the first 8. *)
Definition is_prime (n : Z) : bool :=
  forallb (fun d => negb (n mod Z.of_nat d =? 0)) (seq 2 (Z.to_nat (Z.sqrt n) - 1)).
Definition primes : list Z := List.filter is_prime (Z.of_nat <$> seq 2 310).

(** [cbrt_bits n k x]: the integer cube root of [x], below [2^n], by bits. *)
Fixpoint cbrt_bits (n : nat) (acc x : Z) : Z :=
  match n with
  | O => acc
  | S m =>
      let t := acc + Z.shiftl 1 (Z.of_nat m) in
      cbrt_bits m (if t * t * t <=? x then t else acc) x
  end.

Definition K : list Z :=
  Eval vm_compute in (fun p => w32 (cbrt_bits 40 0 (Z.shiftl p 96))) <$> primes.

Record st := mk_st { sa : Z; sb : Z; sc : Z; sd : Z; se : Z; sf : Z; sg : Z; sh : Z }.

Definition root32 (i : nat) : Z := w32 (Z.sqrt (Z.shiftl (nth i primes 0) 64)).
Definition H0 : st :=
  Eval vm_compute in
  mk_st (root32 0) (root32 1) (root32 2) (root32 3) (root32 4) (root32 5) (root32 6)
        (root32 7).

Definition round (s : st) (kw : Z * Z) : st :=
  let '(k, w) := kw in
  let t1 := w32 (sh s + bsig1 (se s) + ch (se s) (sf s) (sg s) + k + w) in
  let t2 := w32 (bsig0 (sa s) + maj (sa s) (sb s) (sc s)) in
  mk_st (w32 (t1 + t2)) (sa s) (sb s) (sc s) (w32 (sd s + t1)) (se s) (sf s) (sg s).

(** The message schedule, newest word first. *)
Fixpoint schedule (n : nat) (w : list Z) : list Z :=
  match n with
  | O => w
  | S m =>
      let x := w32 (ssig1 (nth 1 w 0) + nth 6 w 0 + ssig0 (nth 14 w 0) + nth 15 w 0) in
      schedule m (x :: w)
  end.

Fixpoint be_words (n : nat) (bs : list Z) : list Z :=
  match n, bs with
  | S m, a :: b :: c :: d :: r =>
      Z.lor (Z.shiftl a 24) (Z.lor (Z.shiftl b 16) (Z.lor (Z.shiftl c 8) d))
        :: be_words m r
  | _, _ => []
  end.

Definition compress (s : st) (block : list Z) : st :=
  let w := rev (schedule 48 (rev (be_words 16 block))) in
  let s' := fold_left round (combine K w) s in
  mk_st (w32 (sa s + sa s')) (w32 (sb s + sb s')) (w32 (sc s + sc s'))
    (w32 (sd s + sd s')) (w32 (se s + se s')) (w32 (sf s + sf s'))
    (w32 (sg s + sg s')) (w32 (sh s + sh s')).

Fixpoint bytes_of (s : string) : list Z :=
  match s with
  | EmptyString => []
  | String c r => Z.of_N (N_of_ascii c) :: bytes_of r
  end.

Fixpoint be_bytes (n : nat) (x : Z) : list Z :=
  match n with
  | O => []
  | S m => Z.land (Z.shiftr x (8 * Z.of_nat m)) 255 :: be_bytes m x
  end.

Definition pad (bs : list Z) : list Z :=
  let l := Z.of_nat (length bs) in
  bs ++ 128 :: repeat 0 (Z.to_nat ((55 - l) mod 64)) ++ be_bytes 8 (8 * l).

Fixpoint blocks (fuel : nat) (s : st) (bs : list Z) : st :=
  match fuel, bs with
  | S f, _ :: _ => blocks f (compress s (firstn 64 bs)) (skipn 64 bs)
  | _, _ => s
  end.

Definition nibble (n : Z) : ascii :=
  match n with
  | 0 => "0" | 1 => "1" | 2 => "2" | 3 => "3" | 4 => "4" | 5 => "5" | 6 => "6"
  | 7 => "7" | 8 => "8" | 9 => "9" | 10 => "a" | 11 => "b" | 12 => "c"
  | 13 => "d" | 14 => "e" | _ => "f"
  end%char.

Fixpoint hex (n : nat) (x : Z) : string :=
  match n with
  | O => EmptyString
  | S m => String (nibble (Z.land (Z.shiftr x (4 * Z.of_nat m)) 15)) (hex m x)
  end.

Definition sha256 (s : string) : string :=
  let p := pad (bytes_of s) in
  let f := blocks (length p) H0 p in
  hex 8 (sa f) +:+ hex 8 (sb f) +:+ hex 8 (sc f) +:+ hex 8 (sd f) +:+
  hex 8 (se f) +:+ hex 8 (sf f) +:+ hex 8 (sg f) +:+ hex 8 (sh f).

Lemma hex_length n x : String.length (hex n x) = n.
Proof. induction n; simpl; auto. Qed.

Lemma hex_chars n x : all_chars is_hex (hex n x) = true.
Proof.
  induction n as [|n IH]; [done|]. cbn [hex all_chars]. rewrite IH, andb_true_r.
  unfold nibble. by repeat case_match.
Qed.

Lemma sha256_length s : String.length (sha256 s) = 64%nat.
Proof. unfold sha256. by rewrite !str_length_app, !hex_length. Qed.

Lemma sha256_chars s : all_chars is_hex (sha256 s) = true.
Proof. unfold sha256. by rewrite !all_chars_app, !hex_chars. Qed.

Definition sha256_fn : HashFn :=
  {| sha256_hex := sha256;
     sha256_hex_length := sha256_length;
     sha256_hex_chars := sha256_chars |}.

(** FIPS 180-4 vectors. *)
Example sha256_abc : sha256 "abc" =
  "ba7816bf8f01cfea414140de5dae2223b00361a396177a9cb410ff61f20015ad"%string.
Proof. vm_compute. reflexivity. Qed.

Example sha256_two_blocks :
  sha256 "abcdbcdecdefdefgefghfghighijhijkijkljklmklmnlmnomnopnopq" =
  "248d6a61d20638b8e5c026930c3e6039a33ce45964ff2167f6ecedd419db06c1"%string.
Proof. vm_compute. reflexivity. Qed.
End Sha256.
