(* ===== verification/Canonical.v ===== *)
(** Canonical JSON and content-addressed identifiers
    (src/bdpay/platform/canonical.py, src/bdpay/platform/ids.py,
    src/bdpay/ledger/ids_ext.py).

    [pyobj] is the Python object handed to [canonical_json]; [_write] is
    translated branch by branch.  A finite tree has no cycle, so the code's
    circular-reference guard never fires on it.  [json] is the abstract value
    that the text denotes: [write_norm] shows that the text is the print of the
    normal form, [print_inj] that the print is injective. *)
From S2P Require Import Prelude Exceptions DateTime Sha256.
Open Scope Z_scope.
Set Warnings "-register-all".

Inductive pykey : Type :=
| KStr (s : string)
| KEnum (value : string)     (* a str-subclass Enum member *)
| KEnumOther                 (* any other Enum member *)
| KOther.                    (* any other hashable *)

Inductive pyobj : Type :=
| PNone
| PBool (b : bool)
| PFloat
| PEnum (value : string)
| PEnumOther
| PStr (s : string)
| PInt (z : Z)
| PDecimal (finite : bool) (text : string)
| PDatetime (d : datetime)
| PSet
| PDict (items : list (pykey * pyobj))
| PList (items : list pyobj)
| POther.

(** * Text *)

(** [str.lower] on ASCII text; bytes above 127 are kept, where Python lowers other
    alphabets too.  The code applies it to the values of its enums and to the
    outcome of a hold, which are ASCII, and to a funding class that it looks up
    among "debit", "prepaid" and "credit": outside ASCII only the Kelvin sign lowers
    to an ASCII letter, and that is a k. *)
Definition lower_char (c : ascii) : ascii :=
  let n := N_of_ascii c in
  if ((65 <=? n) && (n <=? 90))%N then ascii_of_N (n + 32) else c.

Fixpoint lower (s : string) : string :=
  match s with
  | EmptyString => EmptyString
  | String c r => String (lower_char c) (lower r)
  end.

(** [json.dumps] with [ensure_ascii=False]: quotes, backslashes and control
    characters are escaped, everything else is raw. *)
Definition esc_char (c : ascii) : string :=
  let n := N_of_ascii c in
  if (n =? 34)%N then "\" +:+ dquote
  else if (n =? 92)%N then "\\"
  else if (n =? 10)%N then "\n"
  else if (n =? 13)%N then "\r"
  else if (n =? 9)%N then "\t"
  else if (n =? 12)%N then "\f"
  else if (n =? 8)%N then "\b"
  else if (n <? 32)%N then "\u00" +:+ Sha256.hex 2 (Z.of_N n)
  else String c EmptyString.

Fixpoint esc (s : string) : string :=
  match s with
  | EmptyString => EmptyString
  | String c r => esc_char c +:+ esc r
  end.

Definition _string (value : string) : string := dquote +:+ esc value +:+ dquote.

Definition _key_string (key : pykey) : res exn string :=
  match key with
  | KEnum v => Ok (lower v)
  | KEnumOther => Err CanonicalError
  | KStr s => Ok s
  | KOther => Err CanonicalError
  end.

(** [",".join(l)] *)
Fixpoint join (l : list string) : string :=
  match l with
  | [] => ""
  | [x] => x
  | x :: r => x +:+ "," +:+ join r
  end.

(** [sorted(items, key=lambda kv: kv[0])] *)
Definition sort_items {A} (l : list (string * A)) : list (string * A) :=
  sort_by String.le fst l.

(** Two neighbours with the same key. *)
Fixpoint adjacent_dup {A} (l : list (string * A)) : bool :=
  match l with
  | x :: r =>
      match r with y :: _ => bool_decide (x.1 = y.1) | [] => false end || adjacent_dup r
  | [] => false
  end.

Definition keyed {A} (kv : res exn string * A) : res exn (string * A) :=
  let* k := kv.1 in Ok (k, kv.2).

Definition member (kv : string * res exn string) : res exn string :=
  let* t := kv.2 in Ok (_string kv.1 +:+ ":" +:+ t).

Fixpoint _write (obj : pyobj) : res exn string :=
  match obj with
  | PNone => Ok "null"
  | PBool b => Ok (if b then "true" else "false")
  | PFloat => Err CanonicalError
  | PEnum v => Ok (_string (lower v))
  | PEnumOther => Err CanonicalError
  | PStr s => Ok (_string s)
  | PInt z => Ok (str_Z z)
  | PDecimal finite text => raise CanonicalError when (negb finite) else Ok (_string text)
  | PDatetime d => let* t := format_datetime d in Ok (dquote +:+ t +:+ dquote)
  | PSet => Err CanonicalError
  | PDict items =>
      let written := map (fun kv => (_key_string kv.1, _write kv.2)) items in
      let* kvs := rmap keyed written in
      let sorted := sort_items kvs in
      raise CanonicalError when (adjacent_dup sorted) else
      let* parts := rmap member sorted in
      Ok ("{" +:+ join parts +:+ "}")
  | PList items =>
      let* parts := rmap id (map _write items) in
      Ok ("[" +:+ join parts +:+ "]")
  | POther => Err CanonicalError
  end.

Definition canonical_json (obj : pyobj) : res exn string := _write obj.

(** * Identifiers *)

(** The prefix table of spec 00 section 3. *)
Definition PREFIXES : list string :=
  ["mrch"; "cust"; "part"; "pi"; "pa"; "rfnd"; "acct"; "je"; "post"; "chn"; "aud";
   "sbatch"; "swin"; "sinst"; "recon"; "rexc"; "posn"; "ndc"; "kyc"; "kyb"; "aml";
   "str"; "ctr"; "sanc"; "pack"; "cres"; "idem"; "obx"; "tcsa"; "appr"; "ins";
   "creg"; "cmode"; "chlth"; "cbrk"; "winb"; "simsc"; "certr"; "fcor"].

Definition HASH_LENGTH : nat := 24.

Definition LEDGER_INTERNAL_PREFIXES : list string := ["hold"; "lckp"; "rply"; "frule"].

Definition is_dict (o : pyobj) : bool := match o with PDict _ => true | _ => false end.

Section Ids.
Context `{HashFn}.

Definition sha256_canonical (obj : pyobj) : res exn string :=
  let* t := canonical_json obj in Ok (sha256_hex t).

Definition make_id (prefix : string) (payload : pyobj) : res exn string :=
  raise IdPrefixError when (negb (str_in prefix PREFIXES)) else
  raise TypeError when (negb (is_dict payload)) else
  let* h := sha256_canonical payload in
  Ok (prefix +:+ "_" +:+ str_take HASH_LENGTH h).

Definition make_ledger_id (prefix : string) (payload : pyobj) : res exn string :=
  if str_in prefix PREFIXES then make_id prefix payload
  else
    raise IdPrefixError when (negb (str_in prefix LEDGER_INTERNAL_PREFIXES)) else
    raise TypeError when (negb (is_dict payload)) else
    let* h := sha256_canonical payload in
    Ok (prefix +:+ "_" +:+ str_take HASH_LENGTH h).
End Ids.

(** A dictionary literal with string keys. *)
Definition dict (items : list (string * pyobj)) : pyobj :=
  PDict (map (fun kv => (KStr kv.1, kv.2)) items).

Definition POpt (o : option string) : pyobj :=
  match o with Some s => PStr s | None => PNone end.

Example canonical_ex :
  canonical_json (dict [("b", PInt (-7)); ("a", PList [PNone; PBool true; PStr "x"])])
  = Ok ("{" +:+ dquote +:+ "a" +:+ dquote +:+ ":[null,true," +:+ dquote +:+ "x"
        +:+ dquote +:+ "]," +:+ dquote +:+ "b" +:+ dquote +:+ ":-7}").
Proof. vm_compute. reflexivity. Qed.

(** * The denoted value *)

Inductive json : Type :=
| JNull
| JBool (b : bool)
| JInt (z : Z)
| JStr (s : string)
| JArr (l : list json)
| JObj (l : list (string * json)).

Fixpoint print (j : json) : string :=
  match j with
  | JNull => "null"
  | JBool b => if b then "true" else "false"
  | JInt z => str_Z z
  | JStr s => _string s
  | JArr l => "[" +:+ join (map print l) +:+ "]"
  | JObj l => "{" +:+ join (map (fun kv => _string kv.1 +:+ ":" +:+ print kv.2) l) +:+ "}"
  end.

Definition jmember (kv : string * res exn json) : res exn (string * json) :=
  let* j := kv.2 in Ok (kv.1, j).

(** The JSON value a Python object denotes, or the refusal. *)
Fixpoint norm (obj : pyobj) : res exn json :=
  match obj with
  | PNone => Ok JNull
  | PBool b => Ok (JBool b)
  | PEnum v => Ok (JStr (lower v))
  | PStr s => Ok (JStr s)
  | PInt z => Ok (JInt z)
  | PDecimal finite text => raise CanonicalError when (negb finite) else Ok (JStr text)
  | PDatetime d => let* t := format_datetime d in Ok (JStr t)
  | PDict items =>
      let* kvs := rmap keyed (map (fun kv => (_key_string kv.1, norm kv.2)) items) in
      let sorted := sort_items kvs in
      raise CanonicalError when (adjacent_dup sorted) else
      let* ms := rmap jmember sorted in Ok (JObj ms)
  | PList items => let* l := rmap id (map norm items) in Ok (JArr l)
  | PFloat | PEnumOther | PSet | POther => Err CanonicalError
  end.

Section PyInd.
Context (P : pyobj -> Prop).
Context (Hbase : forall o, match o with PDict _ | PList _ => True | _ => P o end).
Context (Hdict : forall l, Forall (fun kv => P kv.2) l -> P (PDict l)).
Context (Hlist : forall l, Forall P l -> P (PList l)).

Fixpoint pyobj_ind' (o : pyobj) : P o :=
  match o as o return P o with
  | PDict l => Hdict l ((fix go l : Forall (fun kv => P kv.2) l :=
      match l with
      | [] => Forall_nil_2 _
      | kv :: r => Forall_cons_2 _ kv r (pyobj_ind' kv.2) (go r)
      end) l)
  | PList l => Hlist l ((fix go l : Forall P l :=
      match l with
      | [] => Forall_nil_2 _
      | x :: r => Forall_cons_2 _ x r (pyobj_ind' x) (go r)
      end) l)
  | o => Hbase o
  end.
End PyInd.

Section JsonInd.
Context (P : json -> Prop).
Context (Hbase : forall j, match j with JArr _ | JObj _ => True | _ => P j end).
Context (Harr : forall l, Forall P l -> P (JArr l)).
Context (Hobj : forall l, Forall (fun kv => P kv.2) l -> P (JObj l)).

Fixpoint json_ind' (j : json) : P j :=
  match j as j return P j with
  | JArr l => Harr l ((fix go l : Forall P l :=
      match l with
      | [] => Forall_nil_2 _
      | x :: r => Forall_cons_2 _ x r (json_ind' x) (go r)
      end) l)
  | JObj l => Hobj l ((fix go l : Forall (fun kv => P kv.2) l :=
      match l with
      | [] => Forall_nil_2 _
      | kv :: r => Forall_cons_2 _ kv r (json_ind' kv.2) (go r)
      end) l)
  | j => Hbase j
  end.
End JsonInd.

Definition rlift {A B} (f : A -> B) (c : res exn A) : res exn B :=
  let* x := c in Ok (f x).

Lemma rmap_lift {A B C} (f : A -> res exn B) (g : A -> res exn C) (h : B -> C) l :
  Forall (fun a => g a = rlift h (f a)) l ->
  rmap g l = rlift (map h) (rmap f l).
Proof.
  induction 1 as [|a r Ha _ IH]; simpl; [done|]. rewrite Ha, IH.
  destruct (f a); simpl; [|done]. by destruct (rmap f r).
Qed.

Lemma rmap_fmap {A B C} (f : B -> res exn C) (h : A -> B) l :
  rmap f (h <$> l) = rmap (fun a => f (h a)) l.
Proof. induction l as [|a r IH]; csimpl; [done|]. by rewrite IH. Qed.

Definition on_snd {A B} (f : A -> B) (kv : string * A) : string * B := (kv.1, f kv.2).

Lemma sort_items_on_snd {A B} (f : A -> B) l :
  sort_items (on_snd f <$> l) = on_snd f <$> sort_items l.
Proof. by apply sort_by_fmap. Qed.

Lemma adjacent_dup_on_snd {A B} (f : A -> B) l :
  adjacent_dup (on_snd f <$> l) = adjacent_dup l.
Proof.
  induction l as [|x r IH]; csimpl; [done|]. rewrite IH. by destruct r.
Qed.

(** Characters that [json.dumps] leaves alone. *)
Definition plain (c : ascii) : bool :=
  let n := N_of_ascii c in (32 <=? n)%N && negb (n =? 34)%N && negb (n =? 92)%N.

Lemma ascii_bool_forall (p : ascii -> bool) :
  forallb p (ascii_of_N <$> (N.of_nat <$> seq 0 256)) = true -> forall c, p c = true.
Proof.
  intros Hall c. rewrite forallb_forall in Hall. apply Hall.
  rewrite <- (ascii_N_embedding c).
  apply list_elem_of_In, list_elem_of_fmap_2, list_elem_of_fmap.
  exists (N.to_nat (N_of_ascii c)). rewrite N2Nat.id. split; [done|].
  apply elem_of_seq. pose proof (N_ascii_bounded c). lia.
Qed.

Lemma esc_char_plain c : plain c = true -> esc_char c = String c "".
Proof.
  intros Hc. apply String.eqb_eq.
  assert (Hi : implb (plain c) (String.eqb (esc_char c) (String c "")) = true).
  { revert c Hc. intros c _. revert c. apply ascii_bool_forall. vm_compute. reflexivity. }
  by rewrite Hc in Hi.
Qed.

Lemma esc_plain s : all_chars plain s = true -> esc s = s.
Proof.
  induction s as [|c r IH]; simpl; [done|]. intros Hs. bool_prop.
  rewrite esc_char_plain, IH by done. done.
Qed.

Lemma digit_plain c : is_digit c = true -> plain c = true.
Proof.
  unfold is_digit, plain. intros Hc.
  apply andb_true_iff in Hc as [H1 H2]. apply N.leb_le in H1, H2.
  rewrite !andb_true_iff, !negb_true_iff, N.leb_le, !N.eqb_neq. lia.
Qed.

Lemma str_Z_plain z : all_chars plain (str_Z z) = true.
Proof.
  destruct (decide (0 <= z)) as [Hz|Hz].
  { apply (all_chars_impl is_digit); [apply digit_plain|by apply str_Z_digits]. }
  destruct z as [|p|p]; [lia..|]. unfold str_Z, pretty, pretty_Z.
  cbn [String.append all_chars]. rewrite andb_true_iff. split; [done|].
  apply (all_chars_impl is_digit); [apply digit_plain|]. apply (str_Z_digits (Z.pos p)). lia.
Qed.

Lemma zpad_plain w z : all_chars plain (zpad w z) = true.
Proof.
  unfold zpad. rewrite all_chars_app, str_Z_plain, andb_true_r.
  apply (all_chars_impl is_digit); [apply digit_plain|apply zeros_digits].
Qed.

Lemma format_datetime_plain d t : format_datetime d = Ok t -> all_chars plain t = true.
Proof.
  intros He. unfold format_datetime in He. inv_res.
  destruct (ord2ymd _) as [[y m] dd].
  unfold iso_date, iso_time. cbv zeta. rewrite !all_chars_app, !zpad_plain.
  cbn [all_chars]. by rewrite !all_chars_app, !zpad_plain.
Qed.

Lemma rlift_bind {A B C} (f : A -> B) (c : res exn A) (k : B -> res exn C) :
  rbind (rlift f c) k = rbind c (fun x => k (f x)).
Proof. by destruct c. Qed.

(** The text written for an object is the print of the value it denotes. *)
Lemma write_norm o : _write o = rlift print (norm o).
Proof.
  revert o. apply pyobj_ind'.
  - intros o; destruct o; try done; simpl.
    + by destruct finite.
    + destruct (format_datetime d) as [t|e] eqn:Ht; simpl; [|done].
      unfold _string. by rewrite (esc_plain t) by (by eapply format_datetime_plain).
  - intros l IH. cbn [_write norm]. cbv zeta.
    set (ks := rmap keyed (map (fun kv => (_key_string kv.1, norm kv.2)) l)).
    assert (Hk : rmap keyed (map (fun kv => (_key_string kv.1, _write kv.2)) l)
                 = rlift (fmap (on_snd (rlift print))) ks).
    { subst ks. rewrite (rmap_fmap keyed (fun kv => (_key_string kv.1, norm kv.2))).
      rewrite (rmap_fmap keyed (fun kv => (_key_string kv.1, _write kv.2))).
      apply rmap_lift. eapply Forall_impl; [exact IH|]. intros [k v] Hv. simpl in *.
      rewrite Hv. unfold keyed. simpl. by destruct (_key_string k). }
    rewrite Hk, rlift_bind. destruct ks as [kvs|e]; cbn [rbind rlift]; [|done].
    rewrite sort_items_on_snd, adjacent_dup_on_snd.
    destruct (adjacent_dup _); [done|].
    rewrite rmap_fmap, (rmap_lift jmember _ (fun kv => _string kv.1 +:+ ":" +:+ print kv.2)).
    2:{ apply Forall_true. intros [k v]. unfold member, jmember, on_snd. simpl.
        by destruct v. }
    by destruct (rmap jmember _).
  - intros l IH. cbn [_write norm].
    rewrite (rmap_fmap id _write), (rmap_fmap id norm).
    rewrite (rmap_lift norm _ print) by done. by destruct (rmap _ l).
Qed.

(** * Injectivity of the print *)

(** Read one escaped character back. *)
Definition unhex (c : ascii) : N :=
  let n := N_of_ascii c in if (n <=? 57)%N then (n - 48)%N else (n - 87)%N.

Definition unesc1 (s : string) : option (ascii * string) :=
  match s with
  | String c r =>
      if (N_of_ascii c =? 34)%N then None
      else if (N_of_ascii c =? 92)%N then
        match r with
        | String e r' =>
            match N_of_ascii e with
            | 34%N => Some (ascii_of_N 34, r')
            | 92%N => Some (ascii_of_N 92, r')
            | 110%N => Some (ascii_of_N 10, r')
            | 114%N => Some (ascii_of_N 13, r')
            | 116%N => Some (ascii_of_N 9, r')
            | 102%N => Some (ascii_of_N 12, r')
            | 98%N => Some (ascii_of_N 8, r')
            | 117%N =>
                match r' with
                | String _ (String _ (String x (String y r''))) =>
                    Some (ascii_of_N (16 * unhex x + unhex y), r'')
                | _ => None
                end
            | _ => None
            end
        | EmptyString => None
        end
      else Some (c, r)
  | EmptyString => None
  end.

Lemma unesc1_esc_char c r : unesc1 (esc_char c +:+ r) = Some (c, r).
Proof. by destruct c as [[] [] [] [] [] [] [] []]. Qed.

Lemma esc_inj s1 s2 r1 r2 :
  esc s1 +:+ dquote +:+ r1 = esc s2 +:+ dquote +:+ r2 -> s1 = s2 /\ r1 = r2.
Proof.
  assert (Hq : forall r, unesc1 (dquote +:+ r) = None) by done.
  revert s2. induction s1 as [|c1 s1 IH]; intros [|c2 s2] He;
    cbn [esc String.append] in He; rewrite ?str_app_assoc in He.
  - split; [done|]. cbn [String.append] in He. by injection He.
  - apply (f_equal unesc1) in He. rewrite unesc1_esc_char in He. by rewrite Hq in He.
  - apply (f_equal unesc1) in He. rewrite unesc1_esc_char in He. by rewrite Hq in He.
  - apply (f_equal unesc1) in He. rewrite !unesc1_esc_char in He.
    injection He as -> He. by destruct (IH _ He) as [-> ->].
Qed.

Lemma string_inj s1 s2 r1 r2 :
  _string s1 +:+ r1 = _string s2 +:+ r2 -> s1 = s2 /\ r1 = r2.
Proof.
  unfold _string. rewrite !str_app_assoc. intros He.
  apply esc_inj. cbn [String.append] in He |- *. by injection He.
Qed.

(** What may follow a value: nothing, or a character that is not a digit. *)
Definition rest_ok (r : string) : Prop :=
  match r with EmptyString => True | String c _ => is_digit c = false end.

Lemma digits_rest_inj a b r1 r2 :
  all_chars is_digit a = true -> all_chars is_digit b = true ->
  rest_ok r1 -> rest_ok r2 -> a +:+ r1 = b +:+ r2 -> a = b /\ r1 = r2.
Proof.
  revert b. induction a as [|x a IH]; intros [|y b] Ha Hb O1 O2 He; simplify_eq/=;
    bool_prop; simpl in *; try congruence; auto.
  destruct (IH b) as [-> ->]; auto.
Qed.

Lemma str_Z_neg p : str_Z (Z.neg p) = String "-"%char (str_Z (Z.pos p)).
Proof. done. Qed.

Lemma str_Z_head z : 0 <= z -> exists c r, str_Z z = String c r /\ is_digit c = true.
Proof.
  intros Hz. pose proof (str_Z_digits z Hz) as Hd. pose proof (str_Z_nonempty z) as Hn.
  destruct (str_Z z) as [|c r]; simpl in *; [lia|]. bool_prop. eauto.
Qed.

Lemma str_Z_rest_inj z1 z2 r1 r2 :
  rest_ok r1 -> rest_ok r2 -> str_Z z1 +:+ r1 = str_Z z2 +:+ r2 -> z1 = z2 /\ r1 = r2.
Proof.
  intros O1 O2 He.
  assert (Hneg : forall z p r r', 0 <= z -> str_Z z +:+ r = str_Z (Z.neg p) +:+ r' -> False).
  { intros z p r r' Hz Hs. destruct (str_Z_head z Hz) as (c & t & Hc & Hd).
    rewrite Hc, str_Z_neg in Hs. cbn [String.append] in Hs. injection Hs as -> _. done. }
  destruct (decide (0 <= z1)) as [H1|H1], (decide (0 <= z2)) as [H2|H2].
  - apply digits_rest_inj in He as [He ->]; auto using str_Z_digits.
    by apply (inj str_Z) in He.
  - destruct z2; try lia. by apply Hneg in He.
  - destruct z1; try lia. symmetry in He. by apply Hneg in He.
  - destruct z1 as [| |p1], z2 as [| |p2]; try lia. rewrite !str_Z_neg in He.
    cbn [String.append] in He. injection He as He.
    apply digits_rest_inj in He as [He ->]; auto.
    + change (str_Z (Z.pos p1) = str_Z (Z.pos p2)) in He.
      apply (inj str_Z) in He. split; [congruence|done].
    + apply (str_Z_digits (Z.pos p1)). lia.
    + apply (str_Z_digits (Z.pos p2)). lia.
Qed.

(** [f] prints values that can be read back in front of any [rest_ok] text. *)
Definition readable {A} (f : A -> string) (a : A) : Prop :=
  forall b r1 r2, rest_ok r1 -> rest_ok r2 -> f a +:+ r1 = f b +:+ r2 -> a = b /\ r1 = r2.

Definition head_not (c : ascii) (s : string) : Prop :=
  match s with EmptyString => False | String x _ => x <> c end.

Lemma head_not_app c s r r' : head_not c s -> s +:+ r <> String c r'.
Proof. destruct s; simpl; [done|]. congruence. Qed.

Lemma join_inj {A} (f : A -> string) (close : ascii) l1 :
  is_digit close = false -> close <> ","%char -> (forall a, head_not close (f a)) ->
  Forall (readable f) l1 ->
  forall l2 r1 r2,
    join (map f l1) +:+ String close r1 = join (map f l2) +:+ String close r2 ->
    l1 = l2 /\ r1 = r2.
Proof.
  intros Hd Hcomma Hh. induction 1 as [|a l1 Ha _ IH]; intros [|b l2] r1 r2 He.
  - split; [done|]. by injection He.
  - exfalso. cbn [map join] in He. symmetry in He.
    destruct (map f l2); rewrite ?str_app_assoc in He;
      by apply head_not_app in He.
  - exfalso. cbn [map join] in He.
    destruct (map f l1); rewrite ?str_app_assoc in He; by apply head_not_app in He.
  - destruct l1 as [|a' l1], l2 as [|b' l2]; cbn [map join] in He;
      rewrite ?str_app_assoc in He.
    + apply Ha in He as [-> He]; [|done..]. split; [done|]. by injection He.
    + apply Ha in He as [-> He]; [|done..]. cbn [String.append] in He. congruence.
    + apply Ha in He as [-> He]; [|done..]. cbn [String.append] in He. congruence.
    + apply Ha in He as [-> He]; [|done..]. cbn [String.append] in He.
      injection He as He. rewrite <- ?str_app_assoc in He.
      destruct (IH (b' :: l2) r1 r2) as [-> ->]; [|done].
      cbn [map join]. rewrite ?str_app_assoc in *. exact He.
Qed.

Lemma print_head j : head_not "]"%char (print j).
Proof.
  destruct j as [|[]|z|s|l|l]; try done. simpl.
  destruct (decide (0 <= z)) as [Hz|Hz].
  - destruct (str_Z_head z Hz) as (c & r & -> & Hc). simpl. by intros ->.
  - destruct z; try lia. by rewrite str_Z_neg.
Qed.

(** The first character of a printed value tells which kind of value it is. *)
Definition kind_of (s : string) : option nat :=
  match s with
  | EmptyString => None
  | String c _ =>
      if is_digit c || (Ascii.eqb c "-") then Some 3%nat
      else if Ascii.eqb c "n" then Some 0%nat
      else if Ascii.eqb c "t" then Some 1%nat
      else if Ascii.eqb c "f" then Some 2%nat
      else if Ascii.eqb c (ascii_of_N 34) then Some 4%nat
      else if Ascii.eqb c "[" then Some 5%nat else Some 6%nat
  end.

Definition json_kind (j : json) : nat :=
  match j with
  | JNull => 0 | JBool true => 1 | JBool false => 2 | JInt _ => 3 | JStr _ => 4
  | JArr _ => 5 | JObj _ => 6
  end%nat.

Lemma print_kind j r : kind_of (print j +:+ r) = Some (json_kind j).
Proof.
  destruct j as [|[]|z|s|l|l]; try done. simpl.
  destruct (decide (0 <= z)) as [Hz|Hz].
  - destruct (str_Z_head z Hz) as (c & t & -> & Hc). simpl. by rewrite Hc.
  - destruct z; try lia. by rewrite str_Z_neg.
Qed.

Lemma print_readable j : readable print j.
Proof.
  revert j. apply json_ind'.
  - intros j. destruct j as [|b|z|s|l|l]; try done;
      intros j' r1 r2 O1 O2 He; pose proof (f_equal kind_of He) as Hk;
      rewrite !print_kind in Hk; injection Hk as Hk; destruct j' as [|[]|z'|s'|l'|l'];
      try destruct b; try done.
    + by injection He.
    + by injection He.
    + by injection He.
    + simpl in He. apply str_Z_rest_inj in He as [-> ->]; done.
    + simpl in He. apply string_inj in He as [-> ->]; done.
  - intros l IH j' r1 r2 O1 O2 He. pose proof (f_equal kind_of He) as Hk.
    rewrite !print_kind in Hk. injection Hk as Hk. destruct j' as [|[]| | |l'|]; try done.
    cbn [print] in He. rewrite !str_app_assoc in He. cbn [String.append] in He.
    injection He as He. apply join_inj in He as [-> ->]; auto using print_head.
  - intros l IH j' r1 r2 O1 O2 He. pose proof (f_equal kind_of He) as Hk.
    rewrite !print_kind in Hk. injection Hk as Hk. destruct j' as [|[]| | | |l']; try done.
    cbn [print] in He. rewrite !str_app_assoc in He. cbn [String.append] in He.
    injection He as He.
    apply (join_inj (fun kv => _string kv.1 +:+ ":" +:+ print kv.2)) in He as [-> ->];
      [done..|].
    eapply Forall_impl; [exact IH|]. intros [k v] Hv [k' v'] t1 t2 P1 P2 Ht.
    cbn [fst snd] in *. rewrite !str_app_assoc in Ht.
    apply string_inj in Ht as [-> Ht]. cbn [String.append] in Ht. injection Ht as Ht.
    apply Hv in Ht as [-> ->]; done.
Qed.

Lemma print_inj j1 j2 : print j1 = print j2 -> j1 = j2.
Proof.
  intros He. destruct (print_readable j1 j2 "" "") as [-> _]; try done.
  by rewrite !str_app_nil.
Qed.

(** * Order of dictionary items *)

Lemma rmap_perm {A B} (f : A -> res exn B) l1 l2 :
  (forall a e, f a = Err e -> e = CanonicalError) ->
  l1 ≡ₚ l2 ->
  (exists k1 k2, rmap f l1 = Ok k1 /\ rmap f l2 = Ok k2 /\ k1 ≡ₚ k2) \/
  (rmap f l1 = Err CanonicalError /\ rmap f l2 = Err CanonicalError).
Proof.
  intros Hf. induction 1 as [|x l1 l2 _ IH|x y l|l1 l2 l3 _ IH1 _ IH2]; simpl.
  - left. by exists [], [].
  - destruct (f x) eqn:Ex; simpl; [|right; by rewrite (Hf _ _ Ex)].
    destruct IH as [(k1 & k2 & -> & -> & Hp)|[-> ->]]; simpl; [|by right].
    left. eexists _, _. split_and!; [done..|]. by f_equiv.
  - destruct (f y) eqn:Ey, (f x) eqn:Ex; simpl;
      rewrite ?(Hf _ _ Ey), ?(Hf _ _ Ex); auto.
    destruct (rmap f l) eqn:El; simpl.
    + left. eexists _, _. split_and!; [done..|]. apply Permutation_swap.
    + right. assert (e = CanonicalError) as ->; [|done].
      revert El. clear -Hf. revert e. induction l as [|z l IH]; intros e; simpl; [done|].
      destruct (f z) eqn:Ez; simpl; [|intros [= <-]; by apply Hf in Ez].
      destruct (rmap f l); simpl; [done|]. intros [= <-]. by eapply IH.
  - destruct IH1 as [(k1 & k2 & -> & E2 & Hp)|[-> E2]];
      destruct IH2 as [(k2' & k3 & E2' & -> & Hp')|[E2' ->]]; try congruence; auto.
    left. rewrite E2 in E2'. injection E2' as <-. eexists _, _. split_and!; [done..|].
    by etrans.
Qed.

Lemma adjacent_dup_false {A} (l : list (string * A)) :
  StronglySorted (fun x y => String.le x.1 y.1) l ->
  adjacent_dup l = false <-> NoDup l.*1.
Proof.
  induction 1 as [|x r Hs IH Hx]; csimpl; [split; [constructor|done]|].
  rewrite orb_false_iff, IH, NoDup_cons. split.
  - intros [Hn Hd]. split; [|done]. destruct r as [|y r]; [by apply not_elem_of_nil|].
    apply bool_decide_eq_false in Hn. intros Hin. apply Hn.
    apply Forall_cons in Hx as [Hxy _].
    apply list_elem_of_fmap in Hin as ([k v] & Hk & Hin). simpl in Hk.
    apply (anti_symm String.le); [done|]. rewrite Hk.
    apply elem_of_cons in Hin as [<-|Hin]; [done|].
    apply StronglySorted_inv in Hs as [_ Hall].
    rewrite Forall_forall in Hall. by apply (Hall _ Hin).
  - intros [Hnin Hd]. split; [|done]. destruct r as [|y r]; [done|].
    apply bool_decide_eq_false. intros He. apply Hnin. rewrite He. by left.
Qed.

Lemma sort_items_perm {A} (l1 l2 : list (string * A)) :
  l1 ≡ₚ l2 ->
  adjacent_dup (sort_items l1) = adjacent_dup (sort_items l2) /\
  (adjacent_dup (sort_items l1) = false -> sort_items l1 = sort_items l2).
Proof.
  intros Hp.
  assert (Hd : forall l : list (string * A),
    adjacent_dup (sort_items l) = false <-> NoDup l.*1).
  { intros l. rewrite adjacent_dup_false by (apply sort_by_sorted; apply _).
    unfold sort_items. by rewrite sort_by_perm. }
  split.
  - apply eq_true_iff_eq. rewrite <- !not_false_iff_true, !Hd. by rewrite Hp.
  - rewrite Hd. intros Hnd. by apply sort_by_perm_eq; [apply _..| |].
Qed.

Lemma canonical_key_error k e : _key_string k = Err e -> e = CanonicalError.
Proof. destruct k; simpl; congruence. Qed.

Lemma dict_perm l1 l2 : l1 ≡ₚ l2 -> _write (PDict l1) = _write (PDict l2).
Proof.
  intros Hp. cbn [_write]. cbv zeta.
  set (f := fun kv : pykey * pyobj => (_key_string kv.1, _write kv.2)).
  rewrite !(rmap_fmap keyed f).
  destruct (rmap_perm (fun kv => keyed (f kv)) l1 l2) as
    [(k1 & k2 & -> & -> & Hk)|[-> ->]]; [|done|cbn [rbind]|done].
  - intros [k v] e. unfold keyed, f. simpl.
    destruct (_key_string k) eqn:Ek; simpl; [done|]. intros [= <-].
    by eapply canonical_key_error.
  - destruct (sort_items_perm k1 k2 Hk) as [-> Hs].
    destruct (adjacent_dup (sort_items k2)) eqn:Hd; [done|]. by rewrite Hs.
Qed.

Lemma canonical_norm o s : canonical_json o = Ok s <-> exists j, norm o = Ok j /\ print j = s.
Proof.
  unfold canonical_json. rewrite write_norm. destruct (norm o) as [j|e]; simpl.
  - split; [intros [= <-]; eauto|]. intros (j' & [= <-] & <-). done.
  - split; [done|]. by intros (j' & ? & _).
Qed.

(** * Shape of identifiers *)

Section IdFacts.
Context `{HashFn}.

(** The 24-character digest inside an identifier. *)
Definition id_digest (text : string) : string := str_take HASH_LENGTH (sha256_hex text).

Lemma id_digest_length t : String.length (id_digest t) = 24%nat.
Proof. apply str_take_length. rewrite sha256_hex_length. unfold HASH_LENGTH. lia. Qed.

Lemma id_digest_chars t : all_chars is_hex (id_digest t) = true.
Proof. apply str_take_chars, sha256_hex_chars. Qed.

Lemma make_id_inv prefix payload i :
  make_id prefix payload = Ok i ->
  exists t, canonical_json payload = Ok t /\ i = prefix +:+ "_" +:+ id_digest t.
Proof.
  unfold make_id, sha256_canonical. intros He. inv_res. eexists. split; done.
Qed.

Lemma make_ledger_id_inv prefix payload i :
  make_ledger_id prefix payload = Ok i ->
  exists t, canonical_json payload = Ok t /\ i = prefix +:+ "_" +:+ id_digest t.
Proof.
  unfold make_ledger_id. case_match; [apply make_id_inv|].
  unfold sha256_canonical. intros He. inv_res. eexists. split; done.
Qed.
End IdFacts.

(** * Properties *)

(** C34: canonical JSON identifies the value: two Python objects with the same
    canonical text denote the same JSON value, whatever strings, keys and
    nesting they contain, so the content hash of a payload is a hash of the
    payload and of nothing coarser. *)
Theorem canonical_json_injective o1 o2 s :
  canonical_json o1 = Ok s -> canonical_json o2 = Ok s ->
  exists j, norm o1 = Ok j /\ norm o2 = Ok j.
Proof.
  intros (j1 & H1 & P1)%canonical_norm (j2 & H2 & P2)%canonical_norm.
  exists j1. split; [done|]. rewrite H2. f_equal. apply print_inj. congruence.
Qed.

Lemma canonical_json_injective_witness :
  exists j, norm (dict [("b", PInt 1); ("a", PEnum "X")]) = Ok j /\
            norm (dict [("a", PStr "x"); ("b", PInt 1)]) = Ok j.
Proof.
  eapply canonical_json_injective; vm_compute; reflexivity.
Defined.

(** The canonical text of a dictionary does not depend on the order in
    which its items were inserted, duplicate and refused keys included. *)
Theorem canonical_json_order_independent items items' :
  items ≡ₚ items' -> canonical_json (PDict items) = canonical_json (PDict items').
Proof. apply dict_perm. Qed.

Lemma canonical_json_order_independent_witness :
  canonical_json (PDict [(KStr "b", PInt 1); (KStr "a", PNone)]) =
  canonical_json (PDict [(KStr "a", PNone); (KStr "b", PInt 1)]).
Proof. apply canonical_json_order_independent, Permutation_swap. Defined.

Section IdProperties.
Context `{HashFn}.

(** Identifiers are content addresses: two payloads that mint the same
    identifier denote the same value, or else their canonical texts are
    different inputs whose SHA-256 digests share the 24-character prefix. *)
Theorem make_id_content prefix o1 o2 i :
  make_id prefix o1 = Ok i -> make_id prefix o2 = Ok i ->
  (exists j, norm o1 = Ok j /\ norm o2 = Ok j) \/
  (exists t1 t2, canonical_json o1 = Ok t1 /\ canonical_json o2 = Ok t2 /\
     t1 <> t2 /\ id_digest t1 = id_digest t2).
Proof.
  intros (t1 & H1 & ->)%make_id_inv (t2 & H2 & He)%make_id_inv.
  apply (inj (String.append prefix)) in He. injection He as He.
  destruct (decide (t1 = t2)) as [->|Hne].
  - left. apply canonical_norm in H1 as (j1 & N1 & P1), H2 as (j2 & N2 & P2).
    exists j1. split; [done|]. rewrite N2. f_equal. apply print_inj. congruence.
  - right. eauto 10.
Qed.
End IdProperties.

Lemma make_id_content_witness :
  (exists j, norm (dict [("k", PInt 1)]) = Ok j /\ norm (dict [("k", PInt 1)]) = Ok j) \/
  (exists t1 t2, canonical_json (dict [("k", PInt 1)]) = Ok t1 /\
     canonical_json (dict [("k", PInt 1)]) = Ok t2 /\
     t1 <> t2 /\ @id_digest Sha256.sha256_fn t1 = @id_digest Sha256.sha256_fn t2).
Proof.
  eapply (@make_id_content Sha256.sha256_fn "je"); vm_compute; reflexivity.
Defined.

#[global] Arguments canonical_json _ : simpl never.
#[global] Arguments sha256_canonical {_} _ : simpl never.
#[global] Arguments make_id {_} _ _ : simpl never.
#[global] Arguments make_ledger_id {_} _ _ : simpl never.
#[global] Arguments to_canonical_ts _ : simpl never.

(** * Values that [canonical_json] accepts *)

Fixpoint nodup_keys (l : list string) : bool :=
  match l with [] => true | k :: r => negb (str_in k r) && nodup_keys r end.

Lemma nodup_keys_spec l : nodup_keys l = true -> NoDup l.
Proof.
  induction l as [|k l IH]; simpl; intros Hn; [constructor|]. bool_prop.
  unfold str_in in *. bool_prop. constructor; auto.
Qed.

Definition key_of (k : pykey) : string := match k with KStr s => s | _ => "" end.
Definition is_KStr (k : pykey) : bool := match k with KStr _ => true | _ => false end.

Fixpoint writable (o : pyobj) : bool :=
  match o with
  | PNone | PBool _ | PStr _ | PInt _ => true
  | PDatetime d => tz_aware d
  | PList l => forallb writable l
  | PDict items =>
      forallb (fun kv => is_KStr kv.1 && writable kv.2) items &&
      nodup_keys (map (fun kv => key_of kv.1) items)
  | _ => false
  end.

Lemma rmap_total {E A B} (f : A -> res E B) l :
  (forall x, x ∈ l -> exists y, f x = Ok y) -> exists ys, rmap f l = Ok ys.
Proof.
  induction l as [|x l IH]; intros Hf; simpl; [eauto|].
  destruct (Hf x) as [y ->]; [by left|]. destruct IH as [ys ->]; [|simpl; eauto].
  intros z Hz. apply Hf. by right.
Qed.

Lemma rmap_keyed_KStr (l : list (pykey * pyobj)) :
  forallb (fun kv => is_KStr kv.1) l = true ->
  rmap keyed (map (fun kv => (_key_string kv.1, _write kv.2)) l) =
  Ok (map (fun kv => (key_of kv.1, _write kv.2)) l).
Proof.
  induction l as [|[k v] l IH]; intros Hk; simpl in *; [done|].
  bool_prop. destruct k; try done. unfold keyed at 1. simpl. by rewrite IH.
Qed.

Lemma writable_dict l :
  forallb (fun kv => is_KStr kv.1) l = true ->
  nodup_keys (map (fun kv => key_of kv.1) l) = true ->
  Forall (fun kv => exists t, _write kv.2 = Ok t) l -> exists t, _write (PDict l) = Ok t.
Proof.
  intros Hk Hn Hw. cbn [_write]. cbv zeta. rewrite rmap_keyed_KStr by done. cbn [rbind].
  set (kvs := map (fun kv => (key_of kv.1, _write kv.2)) l).
  assert (Hnd : NoDup (sort_items kvs).*1).
  { unfold sort_items. rewrite sort_by_perm. subst kvs.
    apply nodup_keys_spec in Hn. by rewrite <- list_fmap_compose. }
  rewrite (proj2 (adjacent_dup_false (sort_items kvs) (sort_by_sorted _ _ _)) Hnd).
  destruct (rmap_total member (sort_items kvs)) as [ys ->]; [|simpl; eauto].
  intros kv Hkv. unfold sort_items in Hkv. rewrite sort_by_perm in Hkv. subst kvs.
  apply list_elem_of_fmap in Hkv as (kv' & -> & Hin). rewrite Forall_forall in Hw.
  destruct (Hw kv' Hin) as [t Ht]. unfold member. simpl. rewrite Ht. simpl. eauto.
Qed.

Lemma writable_total o : writable o = true -> exists t, canonical_json o = Ok t.
Proof.
  unfold canonical_json. revert o.
  apply (pyobj_ind' (fun o => writable o = true -> exists t, _write o = Ok t)).
  - intros o. destruct o; cbn [writable _write]; try done; intros Hw; eauto. unfold format_datetime. rewrite Hw. cbn. eauto.
  - intros l IH Hw. cbn [writable] in Hw. bool_prop. rewrite forallb_forall in *.
    apply writable_dict; [|done|].
    + apply forallb_forall. intros kv Hkv. by apply H, andb_true_iff in Hkv as [? _].
    + rewrite Forall_forall in *. intros kv Hkv. apply IH; [done|].
      apply list_elem_of_In, H, andb_true_iff in Hkv as [_ ?]. done.
  - intros l IH Hw. cbn [writable _write] in *. rewrite forallb_forall in Hw.
    destruct (rmap_total id (map _write l)) as [ys ->]; [|simpl; eauto].
    intros x (o & -> & Ho)%list_elem_of_fmap. rewrite Forall_forall in IH.
    apply IH; [done|]. by apply Hw, list_elem_of_In.
Qed.

Section Ids.
Context `{HashFn}.

Lemma sha256_canonical_total o : writable o = true -> exists h, sha256_canonical o = Ok h.
Proof.
  intros [t Ht]%writable_total. unfold sha256_canonical. rewrite Ht. simpl. eauto.
Qed.

Lemma make_id_total prefix items :
  str_in prefix PREFIXES = true -> writable (dict items) = true ->
  exists id, make_id prefix (dict items) = Ok id.
Proof.
  intros Hp Hw. unfold make_id. rewrite Hp. simpl negb. cbv iota. cbn [is_dict dict negb].
  destruct (sha256_canonical_total _ Hw) as [h Hh]. unfold dict in *. rewrite Hh. simpl. eauto.
Qed.

Lemma make_ledger_id_total prefix items :
  str_in prefix (PREFIXES ++ LEDGER_INTERNAL_PREFIXES) = true -> writable (dict items) = true ->
  exists id, make_ledger_id prefix (dict items) = Ok id.
Proof.
  intros Hp Hw. unfold make_ledger_id. destruct (str_in prefix PREFIXES) eqn:Hin.
  { by apply make_id_total. }
  assert (str_in prefix LEDGER_INTERNAL_PREFIXES = true) as ->.
  { unfold str_in in *. bool_prop. apply bool_decide_eq_true.
    by apply elem_of_app in Hp as [?|?]. }
  cbn [is_dict dict negb].
  destruct (sha256_canonical_total _ Hw) as [h Hh]. unfold dict in *. rewrite Hh. simpl. eauto.
Qed.
End Ids.
