(* ===== verification/Json.v ===== *)
(** Reading canonical JSON back: [json.loads] of the standard library on the texts
    that [canonical_json] writes (no white space, integers, the escapes of
    [json.dumps]), and that reading inverts printing. *)
From S2P Require Import Prelude Exceptions DateTime Sha256 Canonical.
Open Scope Z_scope.

(** The characters of a string up to its closing quote. *)
Fixpoint read_chars (fuel : nat) (s : string) : option (string * string) :=
  match fuel with
  | O => None
  | S fuel =>
      match unesc1 s with
      | Some (c, r) => match read_chars fuel r with Some (t, r') => Some (String c t, r') | None => None end
      | None => match s with String q r => if (N_of_ascii q =? 34)%N then Some ("", r) else None | EmptyString => None end
      end
  end.

Definition read_string (s : string) : option (string * string) :=
  match s with
  | String q r => if (N_of_ascii q =? 34)%N then read_chars (S (String.length r)) r else None
  | EmptyString => None
  end.

(** The longest prefix of digits. *)
Fixpoint span_digits (s : string) : string * string :=
  match s with
  | String c r => if is_digit c then let (d, r') := span_digits r in (String c d, r') else ("", s)
  | EmptyString => ("", "")
  end.

Definition read_int (s : string) : option (Z * string) :=
  match s with
  | String "-" r => let (d, r') := span_digits r in if truthy d then Some (- int_of_digits d, r') else None
  | _ => let (d, r') := span_digits s in if truthy d then Some (int_of_digits d, r') else None
  end.

(** [s] without the prefix [p]. *)
Fixpoint expect (p s : string) : option string :=
  match p, s with
  | EmptyString, _ => Some s
  | String a p, String b s => if Ascii.eqb a b then expect p s else None
  | String _ _, EmptyString => None
  end.

Fixpoint read_value (fuel : nat) (s : string) : option (json * string) :=
  match fuel with
  | O => None
  | S fuel =>
      match s with
      | EmptyString => None
      | String c r =>
          if Ascii.eqb c "n" then match expect "ull" r with Some r' => Some (JNull, r') | None => None end
          else if Ascii.eqb c "t" then match expect "rue" r with Some r' => Some (JBool true, r') | None => None end
          else if Ascii.eqb c "f" then match expect "alse" r with Some r' => Some (JBool false, r') | None => None end
          else if (N_of_ascii c =? 34)%N then match read_string s with Some (t, r') => Some (JStr t, r') | None => None end
          else if Ascii.eqb c "[" then
            match expect "]" r with
            | Some r' => Some (JArr [], r')
            | None => match read_elements fuel r with Some (l, r') => Some (JArr l, r') | None => None end
            end
          else if Ascii.eqb c "{" then
            match expect "}" r with
            | Some r' => Some (JObj [], r')
            | None => match read_members fuel r with Some (l, r') => Some (JObj l, r') | None => None end
            end
          else match read_int s with Some (z, r') => Some (JInt z, r') | None => None end
      end
  end
with read_elements (fuel : nat) (s : string) : option (list json * string) :=
  match fuel with
  | O => None
  | S fuel =>
      match read_value fuel s with
      | Some (j, String c r) =>
          if Ascii.eqb c "]" then Some ([j], r)
          else if Ascii.eqb c "," then
            match read_elements fuel r with Some (l, r') => Some (j :: l, r') | None => None end
          else None
      | _ => None
      end
  end
with read_members (fuel : nat) (s : string) : option (list (string * json) * string) :=
  match fuel with
  | O => None
  | S fuel =>
      match read_string s with
      | Some (k, String c r) =>
          if Ascii.eqb c ":" then
            match read_value fuel r with
            | Some (j, String c r) =>
                if Ascii.eqb c "}" then Some ([(k, j)], r)
                else if Ascii.eqb c "," then
                  match read_members fuel r with Some (l, r') => Some ((k, j) :: l, r') | None => None end
                else None
            | _ => None
            end
          else None
      | _ => None
      end
  end.

Definition json_loads (s : string) : option json :=
  match read_value (2 * S (String.length s)) s with Some (j, EmptyString) => Some j | _ => None end.

(** * Reading inverts printing *)

Lemma esc_char_nonempty c : (1 <= String.length (esc_char c))%nat.
Proof. destruct c as [[] [] [] [] [] [] [] []]; vm_compute; repeat constructor. Qed.

Lemma read_chars_esc s : forall fuel r, (String.length (esc s) < fuel)%nat -> read_chars fuel (esc s +:+ dquote +:+ r) = Some (s, r).
Proof.
  induction s as [|c s IH]; intros [|fuel] r Hf; cbn [esc] in *; try (exfalso; lia); [done|].
  rewrite str_length_app in Hf. pose proof (esc_char_nonempty c). cbn [read_chars].
  rewrite str_app_assoc, unesc1_esc_char, IH by lia. done.
Qed.

Lemma read_string_string s r : read_string (_string s +:+ r) = Some (s, r).
Proof.
  unfold _string. rewrite !str_app_assoc.
  change (read_chars (S (String.length (esc s +:+ dquote +:+ r))) (esc s +:+ dquote +:+ r) = Some (s, r)).
  apply read_chars_esc. rewrite !str_length_app. lia.
Qed.

Lemma span_digits_app d r : all_chars is_digit d = true -> rest_ok r -> span_digits (d +:+ r) = (d, r).
Proof.
  induction d as [|c d IH]; cbn; intros Hd Hr.
  - destruct r as [|c r]; [done|]. cbn in *. by rewrite Hr.
  - bool_prop. rewrite H. by rewrite IH.
Qed.

Lemma read_int_str_Z z r : rest_ok r -> read_int (str_Z z +:+ r) = Some (z, r).
Proof.
  intros Hr. destruct (decide (0 <= z)) as [Hz|Hz].
  - destruct (str_Z_head z Hz) as (c & t & Hc & Hd). pose proof (span_digits_app (str_Z z) r (str_Z_digits z Hz) Hr) as Hs.
    pose proof (int_of_digits_str_Z z Hz) as Hi.
    assert (Hm : c <> "-"%char) by (by intros ->). unfold read_int. rewrite Hs, Hi. rewrite Hc. cbn [String.append truthy].
    destruct c as [[] [] [] [] [] [] [] []]; done.
  - destruct z as [| |p]; try lia. rewrite str_Z_neg. cbn [String.append read_int].
    rewrite span_digits_app by (try done; apply (str_Z_digits (Z.pos p)); lia).
    rewrite int_of_digits_str_Z by lia. destruct (str_Z_head (Z.pos p)) as (c & t & -> & _); [lia|]. done.
Qed.

Lemma print_length j : (1 <= String.length (print j))%nat.
Proof.
  destruct j as [|[]|z|s|l|l]; cbn [print]; try (unfold _string; rewrite str_length_app); try (cbn; lia).
  apply str_Z_nonempty.
Qed.

Lemma expect_not_head (c : ascii) s : head_not c s -> expect (String c "") s = None.
Proof. destruct s as [|x s]; cbn; [done|]. intros Hx. by destruct (Ascii.eqb_spec c x) as [->|]. Qed.

Lemma join_cons x y l : join (x :: y :: l) = x +:+ "," +:+ join (y :: l).
Proof. done. Qed.

Definition print_member (kv : string * json) : string := _string kv.1 +:+ ":" +:+ print kv.2.

Definition reads (j : json) : Prop := forall fuel r, rest_ok r -> (2 * String.length (print j) <= fuel)%nat ->
  read_value fuel (print j +:+ r) = Some (j, r).

Lemma read_elements_print r l j fuel : Forall reads (j :: l) ->
  (2 * String.length (join (map print (j :: l))) + 1 <= fuel)%nat ->
  read_elements fuel (join (map print (j :: l)) +:+ String "]" r) = Some (j :: l, r).
Proof.
  revert j fuel. induction l as [|j' l IHl]; intros j [|fuel] IH Hf; try (exfalso; lia); inversion IH as [|? ? Hj Hl]; subst.
  - cbn [map join] in *. cbn [read_elements]. rewrite Hj; [done|done|lia].
  - cbn [map] in Hf |- *. rewrite join_cons in Hf |- *. rewrite !str_app_assoc. cbn [String.append].
    rewrite !str_length_app in Hf. cbn [String.length] in Hf. cbn [read_elements]. rewrite Hj; [|done|lia].
    cbn [Ascii.eqb Bool.eqb]. change (print j' :: map print l) with (map print (j' :: l)) in *. by rewrite (IHl j' fuel Hl) by lia.
Qed.

Lemma read_members_print r l kv fuel : Forall (fun kv => reads kv.2) (kv :: l) ->
  (2 * String.length (join (map print_member (kv :: l))) + 1 <= fuel)%nat ->
  read_members fuel (join (map print_member (kv :: l)) +:+ String "}" r) = Some (kv :: l, r).
Proof.
  revert kv fuel. induction l as [|kv' l IHl]; intros [k j] [|fuel] IH Hf; try (exfalso; lia);
    inversion IH as [|? ? Hj Hl]; subst; cbn [snd] in Hj.
  - cbn [map join] in *. unfold print_member in Hf |- *. cbn [fst snd] in Hf |- *. rewrite !str_app_assoc.
    rewrite !str_length_app in Hf. cbn [String.append read_members]. rewrite read_string_string.
    cbn [Ascii.eqb Bool.eqb]. rewrite Hj; [done|done|lia].
  - cbn [map] in Hf |- *. rewrite join_cons in Hf |- *. unfold print_member at 1 in Hf. unfold print_member at 1.
    cbn [fst snd] in Hf |- *. rewrite !str_app_assoc. rewrite !str_length_app in Hf. cbn [String.append String.length read_members] in *.
    rewrite read_string_string. cbn [Ascii.eqb Bool.eqb]. rewrite Hj; [|done|lia].
    cbn [Ascii.eqb Bool.eqb]. change (print_member kv' :: map print_member l) with (map print_member (kv' :: l)) in *. by rewrite (IHl kv' fuel Hl) by lia.
Qed.

Lemma head_not_app_l c s r : head_not c s -> head_not c (s +:+ r).
Proof. by destruct s. Qed.

Lemma elements_head j l r : head_not "]"%char (join (map print (j :: l)) +:+ r).
Proof.
  apply head_not_app_l. cbn [map]. destruct l as [|j' l]; [apply print_head|]. cbn [map]. rewrite join_cons.
  apply head_not_app_l, print_head.
Qed.

Lemma members_head kv l r : head_not "}"%char (join (map print_member (kv :: l)) +:+ r).
Proof.
  apply head_not_app_l. cbn [map]. destruct l as [|kv' l]; [done|]. cbn [map]. rewrite join_cons. done.
Qed.

Lemma str_Z_start z : exists c t, str_Z z = String c t /\ (is_digit c || Ascii.eqb c "-") = true.
Proof.
  destruct (decide (0 <= z)) as [Hz|Hz].
  - destruct (str_Z_head z Hz) as (c & t & Hc & Hd). exists c, t. by rewrite Hd.
  - destruct z as [| |p]; try lia. rewrite str_Z_neg. eauto.
Qed.

(** A value read from the front of a text is the one printed there. *)
Lemma read_value_print j : reads j.
Proof.
  revert j. apply (json_ind' reads).
  - intros j. destruct j as [|[]|z|s|l|l]; try done; intros fuel r Hr Hf;
      (destruct fuel as [|fuel]; [exfalso; match goal with _ : context [print ?j] |- _ => pose proof (print_length j) end; lia|]); try done.
    + cbn [print] in *. pose proof (read_int_str_Z z r Hr) as Hi. cbn [read_value].
      destruct (str_Z_start z) as (c & t & Hc & Hk). rewrite Hc in *. cbn [String.append] in *. rewrite Hi.
      destruct c as [[] [] [] [] [] [] [] []]; done.
    + cbn [print]. pose proof (read_string_string s r) as Hs.
      change (match read_string (_string s +:+ r) with Some (t, r') => Some (JStr t, r') | None => None end = Some (JStr s, r)).
      by rewrite Hs.
  - intros l IH [|fuel] r Hr Hf; [exfalso; pose proof (print_length (JArr l)); lia|].
    cbn [print] in *. rewrite !str_length_app in Hf. cbn [String.length] in Hf. rewrite !str_app_assoc.
    cbn [String.append]. cbn [read_value Ascii.eqb Bool.eqb]. destruct l as [|j l]; [done|].
    rewrite expect_not_head; [|by apply elements_head]. rewrite read_elements_print; [done|done|lia].
  - intros l IH [|fuel] r Hr Hf; [exfalso; pose proof (print_length (JObj l)); lia|].
    cbn [print] in *. change (fun kv => _string kv.1 +:+ ":" +:+ print kv.2) with print_member in *.
    rewrite !str_length_app in Hf. cbn [String.length] in Hf. rewrite !str_app_assoc.
    cbn [String.append]. cbn [read_value Ascii.eqb Bool.eqb]. destruct l as [|kv l]; [done|].
    rewrite expect_not_head; [|by apply members_head]. rewrite read_members_print; [done|done|lia].
Qed.

(** [json.loads(canonical_json(v))] is the value [v] denotes. *)
Theorem loads_canonical v j t : norm v = Ok j -> canonical_json v = Ok t -> json_loads t = Some j.
Proof.
  unfold canonical_json. rewrite write_norm. intros -> [= <-]. unfold json_loads.
  pose proof (read_value_print j (2 * S (String.length (print j)))%nat "" I) as Hr. rewrite str_app_nil in Hr.
  rewrite Hr; [done|lia].
Qed.
