(* ===== verification/LedgerTypes.v ===== *)
(** The ledger's vocabularies, input specifications and stored rows
    (src/bdpay/ledger/types.py).  The run-time type checks of the dynamically
    typed source ([isinstance(x, int)] and the like) are the types here:
    amounts are [Z], flags are [bool], optional fields are [option]. *)
From S2P Require Import Prelude Exceptions DateTime Canonical.
Open Scope Z_scope.

(** * Vocabularies *)

Definition SIDES : list string :=
  ["DEBIT"; "CREDIT"].

Definition ACCOUNT_TYPES : list string :=
  ["ASSET"; "LIABILITY"; "EQUITY"; "INCOME"; "EXPENSE"].

Definition DEBIT_NORMAL_TYPES : list string :=
  ["ASSET"; "EXPENSE"].

Definition ACCOUNT_SUBTYPES : list string :=
  ["SPONSOR_BANK_TCSA"; "IN_TRANSIT"; "FEE_RECEIVABLE"; "SUSPENSE";
   "CONNECTOR_CLEARING"; "CUSTOMER_FLOAT"; "CUSTOMER_HOLD_RESERVE";
   "MERCHANT_SETTLEMENT"; "MERCHANT_HOLD_RESERVE"; "MERCHANT_ROLLING_RESERVE";
   "REFUND_RESERVE"; "PARTICIPANT_POSITION"; "NET_DEBIT_CAP"; "RETAINED_EARNINGS";
   "PAID_UP_CAPITAL"; "MDR_INCOME"; "SWITCHING_FEE_INCOME"; "INTERCHANGE_INCOME";
   "FLOAT_INTEREST_INCOME"; "OFFER_COMMISSION_INCOME"; "SPONSOR_BANK_FEE";
   "NETWORK_FEE"; "REFUND_EXPENSE"; "CONNECTIVITY_EXPENSE"; "OFFER_MARKETING_EXPENSE"].

Definition OWNER_TYPES : list string :=
  ["MERCHANT"; "CUSTOMER"; "PARTICIPANT"; "SYSTEM"].

Definition HOLD_STATUSES : list string :=
  ["OPEN"; "CAPTURED"; "VOIDED"; "EXPIRED"].

Definition ENTRY_TYPES : list string :=
  ["payment_authorized"; "payment_captured"; "payment_failed"; "payment_reversed";
   "refund_initiated"; "refund_settled"; "fee_collected"; "hold_opened";
   "hold_captured"; "hold_voided"; "hold_expired"; "rolling_reserve_withheld";
   "rolling_reserve_released"; "settlement_batch_open"; "settlement_batch_close";
   "settlement_confirmed"; "tcsa_balance_update"; "participant_debit_cap_set";
   "position_updated"; "suspense_entry"; "suspense_cleared"; "connector_clearing_in";
   "connector_clearing_out"; "adjustment_debit"; "adjustment_credit";
   "offer_commission_collected"; "offer_commission_reversed"; "offer_subsidy_granted";
   "offer_subsidy_reversed"; "disbursement_funded"; "disbursement_item_paid";
   "disbursement_item_returned"; "disbursement_failed_release";
   "settlement_batch_open_reversal"].

Definition REFERENCE_TYPES : list string :=
  ["PAYMENT"; "SETTLEMENT"; "REFUND"; "FEE"; "REVERSAL"; "ADJUSTMENT"; "TCSA"; "HOLD";
   "RESERVE"].

Definition AUDIT_EVENT_TYPES : list string :=
  ["PAYMENT_STATE_TRANSITION"; "PAYMENT_ATTEMPT_STATE_TRANSITION";
   "REFUND_STATE_TRANSITION"; "HOLD_OPENED"; "HOLD_CAPTURED"; "HOLD_VOIDED";
   "HOLD_EXPIRED"; "KYC_VERIFIED"; "KYC_TIER_ASSIGNED"; "KYC_REVIEW_TRIGGERED";
   "KYB_VERIFIED"; "MERCHANT_STATE_TRANSITION"; "MERCHANT_SUSPENDED";
   "MERCHANT_TERMINATED"; "RULE_ACTIVATED"; "RULE_DEACTIVATED"; "CONFIG_CHANGED";
   "APPROVAL_REQUESTED"; "APPROVAL_GRANTED"; "APPROVAL_DENIED"; "APPROVAL_EXECUTED";
   "SANCTIONS_HIT"; "SANCTIONS_CLEARED"; "AML_ALERT_RAISED"; "STR_FILED"; "CTR_FILED";
   "CONNECTOR_CALL"; "CONNECTOR_RESULT"; "CHAIN_VERIFY_STARTED";
   "CHAIN_VERIFY_COMPLETED"; "CHAIN_TAMPER_DETECTED"; "CHAIN_VERIFY_ERROR";
   "REPLAY_STARTED"; "REPLAY_COMPLETED"; "REPLAY_FAILED";
   "SETTLEMENT_BATCH_STATE_TRANSITION"; "TCSA_SHORTFALL_DETECTED";
   "POSITION_LIMIT_BREACHED"; "ARCHIVAL_STARTED"; "ARCHIVAL_COMPLETED";
   "OPERATOR_LOGIN"; "OPERATOR_ACTION"; "BB_INSPECTOR_ACCESS";
   "SETTLEMENT_INSTRUCTION_STATE_TRANSITION"; "RECONCILIATION_RECORD_STATE_TRANSITION";
   "RECONCILIATION_EXCEPTION_STATE_TRANSITION"; "SETTLEMENT_WINDOW_STATE_TRANSITION";
   "NDC_BREACH_BLOCKED"; "TCSA_SHORTFALL_RESOLVED"; "SANCTIONS_LIST_INGESTED";
   "SANCTIONS_SCREENING_COMPLETED"; "SANCTIONS_HIT_DETECTED";
   "SANCTIONS_HIT_STATE_TRANSITION"; "AML_ALERT_STATE_TRANSITION";
   "AML_PREFLIGHT_RULE_PACK_MISSING"; "MONITOR_EVALUATION_FAILED";
   "AML_MONITOR_RULE_PACK_MISSING"; "RULE_PACK_LOADED"; "RULE_PACK_ACTIVATED";
   "CAMLCO_EXPORT_STARTED"; "CAMLCO_EXPORT_COMPLETED"; "FACT_CORRECTION_VERIFIED";
   "DOSSIER_EXPORT_STARTED"; "DOSSIER_EXPORT_COMPLETED"; "DOSSIER_ASSEMBLY_STARTED";
   "DOSSIER_ASSEMBLY_COMPLETED"; "DOSSIER_ASSEMBLY_FAILED"; "FACT_CORRECTION_RECORDED";
   "FACT_CORRECTION_RETRACTED"; "QR_ISSUED"; "QR_SUSPEND"; "QR_REACTIVATE";
   "QR_REVOKE"; "QR_PAY_INITIATED"; "KYB_STATE_TRANSITION"; "KYB_DOCUMENT_UPLOADED";
   "KYB_UBO_ADDED"; "KYB_UBO_VERIFICATION"; "KYB_AGREEMENT_SIGNED";
   "PAYMENT_LINK_CREATED"; "PAYMENT_LINK_PAID"; "PAYMENT_LINK_EXPIRED";
   "PAYMENT_LINK_CANCELLED"; "SANDBOX_SIGNUP_CREATED"; "SANDBOX_SIGNUP_VERIFIED";
   "SANDBOX_SIGNUP_PROVISIONED"; "SANDBOX_SIGNUP_EXPIRED"; "SANDBOX_SIGNUP_REVOKED";
   "OFFER_STATE_TRANSITION"; "SUBSCRIPTION_STATE_TRANSITION";
   "SUBSCRIPTION_CYCLE_STATE_TRANSITION"; "DISBURSEMENT_BATCH_STATE_TRANSITION";
   "DISBURSEMENT_ITEM_STATE_TRANSITION"; "PARTICIPANT_APPLICATION_SUBMITTED";
   "PARTICIPANT_DOCS_REQUESTED"; "PARTICIPANT_DOCUMENT_UPLOADED";
   "PARTICIPANT_DOCUMENT_VERIFIED"; "PARTICIPANT_DOCUMENT_REJECTED";
   "PARTICIPANT_LICENSE_INVALID"; "PARTICIPANT_MOU_SIGNED";
   "PARTICIPANT_CONFORMANCE_STARTED"; "PARTICIPANT_CONFORMANCE_PASSED";
   "PARTICIPANT_CONFORMANCE_FAILED"; "PARTICIPANT_CONFORMANCE_EXHAUSTED";
   "PARTICIPANT_ACTIVATION_REQUESTED"; "PARTICIPANT_ACTIVATED";
   "PARTICIPANT_SUSPENDED"; "PARTICIPANT_REINSTATED"; "PARTICIPANT_TERMINATED";
   "PARTICIPANT_REJECTED"; "CONFORMANCE_RUN_EVIDENCE_MISMATCH";
   "CONFORMANCE_RUN_STARTED"; "CONFORMANCE_RUN_COMPLETED"; "NETTING_COMPLETED";
   "NETTING_INTEGRITY_FAILURE"; "WINDOW_PARTICIPANT_SUSPENDED"; "WINDOW_UNWOUND"].

Definition ACTOR_TYPES : list string :=
  ["OPERATOR"; "CUSTOMER"; "MERCHANT"; "SERVICE"; "BB_INSPECTOR"].

Definition PRODUCER : string := "ledger-service@1".
Definition CHECKPOINT_INTERVAL : Z := 1000.
Definition GENESIS_ENTRY_TYPE : string := "genesis".

(** * Input specifications *)

Record PostingSpec : Type := mk_PostingSpec {
  ps_account_id : string;
  ps_side : string;
  ps_amount_minor : Z;
  ps_currency : string
}.

(** [PostingSpec(account_id, side, amount)], with the default currency. *)
Definition posting (account_id side : string) (amount : Z) : PostingSpec :=
  mk_PostingSpec account_id side amount "BDT".

Record JournalEntrySpec : Type := mk_JournalEntrySpec {
  js_reference_id : string;
  js_reference_type : string;
  js_entry_type : string;
  js_description : string;
  js_produced_by : string;
  js_idempotency_key : string;
  js_postings : list PostingSpec
}.

Record AuditEventSpec : Type := mk_AuditEventSpec {
  as_event_type : string;
  as_actor_id : string;
  as_actor_type : string;
  as_subject_type : string;
  as_subject_id : string;
  as_from_state : option string;
  as_to_state : option string;
  as_payload : pyobj
}.

Record AccountSpec : Type := mk_AccountSpec {
  acs_account_type : string;
  acs_account_subtype : string;
  acs_owner_id : option string;
  acs_owner_type : option string;
  acs_parent_id : option string;
  acs_purpose_tag : option string;
  acs_is_system : bool;
  acs_currency : string
}.

(** * Stored rows *)

Record AccountRow : Type := mk_AccountRow {
  ac_account_id : string;
  ac_account_type : string;
  ac_account_subtype : string;
  ac_currency : string;
  ac_owner_id : option string;
  ac_owner_type : option string;
  ac_parent_id : option string;
  ac_purpose_tag : option string;
  ac_is_system : bool;
  ac_created_at : datetime;
  ac_closed_at : option datetime;
  ac_schema_version : Z
}.

Record JournalEntryRow : Type := mk_JournalEntryRow {
  je_entry_id : string;
  je_entry_index : Z;
  je_reference_id : string;
  je_reference_type : string;
  je_entry_type : string;
  je_description : string;
  je_produced_by : string;
  je_produced_at : datetime;
  je_idempotency_key : string;
  je_schema_version : Z
}.

Record PostingRow : Type := mk_PostingRow {
  po_posting_id : string;
  po_entry_id : string;
  po_account_id : string;
  po_side : string;
  po_amount_minor : Z;
  po_currency : string;
  po_produced_at : datetime;
  po_schema_version : Z
}.

Record AccountHoldRow : Type := mk_AccountHoldRow {
  h_hold_id : string;
  h_account_id : string;
  h_hold_reserve_account_id : string;
  h_source_account_id : string;
  h_reference_id : string;
  h_amount_minor : Z;
  h_hold_reason : string;
  h_status : string;
  h_hold_opened_at : datetime;
  h_hold_expires_at : datetime;
  h_hold_closed_at : option datetime;
  h_open_je_id : string;
  h_close_je_id : option string;
  h_schema_version : Z
}.

Record ChainEntryRow : Type := mk_ChainEntryRow {
  c_chain_domain : string;
  c_chain_index : Z;
  c_entry_type : string;
  c_payload_hash : string;
  c_payload_pointer : string;
  c_prev_chain_hash : string;
  c_amount_minor_sum : Z;
  c_chain_hash : string;
  c_is_checkpoint : bool;
  c_checkpoint_sequence_in_domain : option Z;
  c_checkpoint_sig : option string;
  c_checkpoint_public_key_b64 : option string;
  c_producer : string;
  c_produced_at : datetime;
  c_schema_version : Z
}.

Record CheckpointRow : Type := mk_CheckpointRow {
  cp_checkpoint_id : string;
  cp_chain_domain : string;
  cp_checkpoint_sequence_in_domain : Z;
  cp_chain_index_from : Z;
  cp_chain_index_to : Z;
  cp_chain_hash_at_checkpoint : string;
  cp_checkpoint_sig : string;
  cp_checkpoint_public_key_b64 : string;
  cp_entries_in_segment : Z;
  cp_signed_at : datetime;
  cp_schema_version : Z
}.

Record OutboxRow : Type := mk_OutboxRow {
  ob_event_id : string;
  ob_topic : string;
  ob_event_type : string;
  ob_subject_type : string;
  ob_subject_id : string;
  ob_payload_json : string;
  ob_producer : string;
  ob_occurred_at : datetime;
  ob_published : bool;
  ob_schema_version : Z
}.

Record AuditEventRow : Type := mk_AuditEventRow {
  au_event_id : string;
  au_entry_index : Z;
  au_event_type : string;
  au_actor_id : string;
  au_actor_type : string;
  au_subject_type : string;
  au_subject_id : string;
  au_from_state : option string;
  au_to_state : option string;
  au_payload_hash : string;
  au_payload_pointer : string;
  au_payload_json : string;
  au_prev_chain_hash : string;
  au_chain_hash : string;
  au_pii_redacted : bool;
  au_occurred_at : datetime;
  au_schema_version : Z
}.

(** * Results *)

Inductive verify_status : Type :=
| VERIFY_COMPLETED
| VERIFY_FAILED_BROKEN_CHAIN
| VERIFY_FAILED_INVALID_CHECKPOINT_SIG
| VERIFY_FAILED_ERROR.

#[export] Instance verify_status_eq_dec : EqDecision verify_status.
Proof. solve_decision. Defined.

Record ChainVerificationResult : Type := mk_ChainVerificationResult {
  v_status : verify_status;
  v_entries_checked : Z;
  v_first_broken_index : option Z;
  v_checkpoints_verified : Z;
  v_detail : option string
}.

(** [ChainVerificationResult.ok] *)
Definition v_ok (r : ChainVerificationResult) : bool :=
  bool_decide (v_status r = VERIFY_COMPLETED).

Record TrialBalance : Type := mk_TrialBalance {
  tb_total_debit_minor : Z;
  tb_total_credit_minor : Z
}.

(** [TrialBalance.balanced] *)
Definition tb_balanced (t : TrialBalance) : bool :=
  tb_total_debit_minor t =? tb_total_credit_minor t.

Record WriteGateState : Type := mk_WriteGateState {
  wg_engaged : bool;
  wg_reason : option string;
  wg_engaged_at : option datetime
}.

Record ChainTip : Type := mk_ChainTip {
  tip_chain_index : Z;
  tip_chain_hash : string
}.
