(* ===== verification/LedgerStore.v ===== *)
(** The in-memory ledger store and its staged transaction
    (src/bdpay/ledger/memory_store.py).

    Dictionaries are finite maps.  The staged postings keep their insertion
    order (a list with distinct ids, as [insert_posting] refuses duplicates),
    because the per-entry posting lists are built in that order on commit.
    [transaction] runs a body on a fresh staged unit of work; an exception in
    the body, or in the deferred balance check, discards it. *)
From S2P Require Import Prelude Exceptions DateTime Canonical LedgerTypes.
Open Scope Z_scope.

Record GateRow : Type := mk_GateRow {
  g_reason : string;
  g_engaged_at : datetime;
  g_cleared_at : option datetime
}.

Record Store : Type := mk_Store {
  s_accounts : gmap string AccountRow;
  s_journal : gmap string JournalEntryRow;
  s_journal_by_idem : gmap string string;
  s_postings : gmap string PostingRow;
  s_postings_by_entry : gmap string (list string);
  s_chains : gmap string (gmap Z ChainEntryRow);
  s_checkpoints : gmap string (list CheckpointRow);
  s_outbox : gmap string OutboxRow;
  s_audit : gmap string AuditEventRow;
  s_holds : gmap string AccountHoldRow;
  s_balances : gmap string Z;
  s_gate_rows : list GateRow;
  s_entry_index_seq : Z;
  s_audit_index_seq : Z
}.

(** [InMemoryLedgerStore()] *)
Definition empty_store : Store :=
  mk_Store ∅ ∅ ∅ ∅ ∅ ∅ ∅ ∅ ∅ ∅ ∅ [] 0 0.

Record MemTx : Type := mk_MemTx {
  t_accounts : gmap string AccountRow;
  t_journal : gmap string JournalEntryRow;
  t_journal_by_idem : gmap string string;
  t_postings : list PostingRow;
  t_chain : gmap (string * Z) ChainEntryRow;
  t_checkpoints : list CheckpointRow;
  t_outbox : gmap string OutboxRow;
  t_audit : gmap string AuditEventRow;
  t_holds : gmap string AccountHoldRow;
  t_gate_rows : list GateRow;
  t_next_entry_index : Z;
  t_next_audit_index : Z
}.

(** [_MemTx(store)] *)
Definition new_tx (s : Store) : MemTx :=
  mk_MemTx ∅ ∅ ∅ [] ∅ [] ∅ ∅ ∅ [] (s_entry_index_seq s + 1) (s_audit_index_seq s + 1).

(** [a.get(k) or b.get(k)] on rows, which are always truthy. *)
Definition staged_or {A} (a b : option A) : option A :=
  match a with Some x => Some x | None => b end.

(** [a.get(k) or b.get(k)] on strings: an empty staged value falls through. *)
Definition staged_or_str (a b : option string) : option string :=
  match a with Some x => if truthy x then Some x else b | None => b end.

(** [_chains.get(domain, {})] *)
Definition chain_of (s : Store) (domain : string) : gmap Z ChainEntryRow :=
  default ∅ (s_chains s !! domain).

(** [_checkpoints.get(domain, [])] *)
Definition checkpoints_of (s : Store) (domain : string) : list CheckpointRow :=
  default [] (s_checkpoints s !! domain).

(** [max] of a list of indices, if there is one. *)
Fixpoint zmax (l : list Z) : option Z :=
  match l with
  | [] => None
  | x :: r => match zmax r with Some y => Some (Z.max x y) | None => Some x end
  end.

Definition keys {A} (m : gmap Z A) : list Z := (map_to_list m).*1.

Definition _normal_balance_delta (account_type side : string) (amount_minor : Z) : Z :=
  if str_in account_type ["ASSET"; "EXPENSE"]
  then if bool_decide (side = "DEBIT") then amount_minor else - amount_minor
  else if bool_decide (side = "CREDIT") then amount_minor else - amount_minor.

(** * Reads of the transaction (staged first) *)

Section TxReads.
Context (s : Store) (tx : MemTx).

Definition tx_get_account (account_id : string) : option AccountRow :=
  staged_or (t_accounts tx !! account_id) (s_accounts s !! account_id).

Definition find_entry_id_by_idempotency_key (k : string) : option string :=
  staged_or_str (t_journal_by_idem tx !! k) (s_journal_by_idem s !! k).

Definition journal_entry_exists (entry_id : string) : bool :=
  bool_decide (is_Some (t_journal tx !! entry_id)) ||
  bool_decide (is_Some (s_journal s !! entry_id)).

Definition lock_chain_tip (domain : string) : option ChainTip :=
  let staged := (filter (fun k => k.1 = domain) (map_to_list (t_chain tx)).*1).*2 in
  let committed := chain_of s domain in
  let best_idx :=
    match zmax staged, zmax (keys committed) with
    | Some a, Some b => Some (Z.max a b)
    | Some a, None => Some a
    | None, b => b
    end in
  i ← best_idx;
  row ← staged_or (t_chain tx !! (domain, i)) (committed !! i);
  Some (mk_ChainTip (c_chain_index row) (c_chain_hash row)).

Fixpoint first_engaged (rows : list GateRow) : option GateRow :=
  match rows with
  | [] => None
  | r :: rest => match g_cleared_at r with None => Some r | Some _ => first_engaged rest end
  end.

Definition write_gate_state (st : Store) : WriteGateState :=
  match first_engaged (s_gate_rows st) with
  | Some r => mk_WriteGateState true (Some (g_reason r)) (Some (g_engaged_at r))
  | None => mk_WriteGateState false None None
  end.

Definition tx_write_gate_state : WriteGateState :=
  match first_engaged (t_gate_rows tx) with
  | Some r => mk_WriteGateState true (Some (g_reason r)) (Some (g_engaged_at r))
  | None => write_gate_state s
  end.

Definition tx_get_account_hold (hold_id : string) : option AccountHoldRow :=
  staged_or (t_holds tx !! hold_id) (s_holds s !! hold_id).

(** Is [(a.hold_opened_at, a.hold_id) < (b.hold_opened_at, b.hold_id)]? *)
Definition hold_before (a b : AccountHoldRow) : bool :=
  dt_ltb (h_hold_opened_at a) (h_hold_opened_at b) ||
  ((micros (h_hold_opened_at a) =? micros (h_hold_opened_at b)) &&
   String.ltb (h_hold_id a) (h_hold_id b)).

(** [min(rows, key=..., default=None)]: the first of the smallest. *)
Definition min_hold (rows : list AccountHoldRow) : option AccountHoldRow :=
  fold_left (fun best row =>
    match best with
    | None => Some row
    | Some b => if hold_before row b then Some row else Some b
    end) rows None.

Definition open_for (reference_id : string) (row : AccountHoldRow) : Prop :=
  h_reference_id row = reference_id /\ h_status row = "OPEN"%string.

#[global] Instance open_for_dec reference_id row : Decision (open_for reference_id row).
Proof. unfold open_for. apply _. Defined.

Definition get_open_account_hold_by_reference (reference_id : string) :
    option AccountHoldRow :=
  min_hold (filter (open_for reference_id)
    ((map_to_list (s_holds s)).*2 ++ (map_to_list (t_holds tx)).*2)).

Definition tx_get_balance (account_id : string) : Z :=
  match tx_get_account account_id with
  | None => 0
  | Some account =>
      fold_left (fun balance p =>
        if bool_decide (po_account_id p = account_id)
        then balance + _normal_balance_delta (ac_account_type account) (po_side p)
                         (po_amount_minor p)
        else balance) (t_postings tx) (default 0 (s_balances s !! account_id))
  end.
End TxReads.

(** * Mutations of the transaction *)

Section TxWrites.
Context (s : Store) (tx : MemTx).

Definition insert_account (row : AccountRow) : res exn MemTx :=
  raise (MemoryConstraintError "account_id")
    when (bool_decide (is_Some (tx_get_account s tx (ac_account_id row)))) else
  Ok (mk_MemTx (<[ac_account_id row := row]> (t_accounts tx)) (t_journal tx)
    (t_journal_by_idem tx) (t_postings tx) (t_chain tx) (t_checkpoints tx)
    (t_outbox tx) (t_audit tx) (t_holds tx) (t_gate_rows tx)
    (t_next_entry_index tx) (t_next_audit_index tx)).

(** The stored row carries the store-assigned index, which is returned. *)
Definition insert_journal_entry (row : JournalEntryRow) : res exn (Z * MemTx) :=
  raise (MemoryConstraintError "entry_id")
    when (journal_entry_exists s tx (je_entry_id row)) else
  raise (MemoryConstraintError "idempotency_key")
    when (bool_decide (is_Some
      (find_entry_id_by_idempotency_key s tx (je_idempotency_key row)))) else
  let entry_index := t_next_entry_index tx in
  let stored := mk_JournalEntryRow (je_entry_id row) entry_index (je_reference_id row)
    (je_reference_type row) (je_entry_type row) (je_description row)
    (je_produced_by row) (je_produced_at row) (je_idempotency_key row)
    (je_schema_version row) in
  Ok (entry_index,
    mk_MemTx (t_accounts tx) (<[je_entry_id row := stored]> (t_journal tx))
      (<[je_idempotency_key row := je_entry_id row]> (t_journal_by_idem tx))
      (t_postings tx) (t_chain tx) (t_checkpoints tx) (t_outbox tx) (t_audit tx)
      (t_holds tx) (t_gate_rows tx) (t_next_entry_index tx + 1)
      (t_next_audit_index tx)).

Definition posting_id_taken (id : string) : bool :=
  bool_decide (id ∈ po_posting_id <$> t_postings tx) ||
  bool_decide (is_Some (s_postings s !! id)).

Definition insert_posting (row : PostingRow) : res exn MemTx :=
  raise (MemoryConstraintError "posting_id")
    when (posting_id_taken (po_posting_id row)) else
  raise (MemoryConstraintError "postings_side_check")
    when (negb (str_in (po_side row) SIDES)) else
  raise (MemoryConstraintError "postings_amount_positive")
    when (po_amount_minor row <=? 0) else
  raise (MemoryConstraintError "postings_currency_check")
    when (negb (bool_decide (po_currency row = "BDT"))) else
  raise (MemoryConstraintError "FK account")
    when (negb (bool_decide (is_Some (tx_get_account s tx (po_account_id row))))) else
  raise (MemoryConstraintError "FK journal entry")
    when (negb (journal_entry_exists s tx (po_entry_id row))) else
  Ok (mk_MemTx (t_accounts tx) (t_journal tx) (t_journal_by_idem tx)
    (t_postings tx ++ [row]) (t_chain tx) (t_checkpoints tx) (t_outbox tx)
    (t_audit tx) (t_holds tx) (t_gate_rows tx) (t_next_entry_index tx)
    (t_next_audit_index tx)).

Definition insert_chain_entry (row : ChainEntryRow) : res exn MemTx :=
  let key := (c_chain_domain row, c_chain_index row) in
  raise (MemoryConstraintError "chain entry")
    when (bool_decide (is_Some (t_chain tx !! key)) ||
          bool_decide (is_Some (chain_of s (c_chain_domain row) !! c_chain_index row))) else
  raise (MemoryConstraintError "chain_domain_check")
    when (negb (str_in (c_chain_domain row) ["MONEY"; "AUDIT"])) else
  raise (MemoryConstraintError "checkpoint fields required")
    when (c_is_checkpoint row &&
          (bool_decide (c_checkpoint_sig row = None) ||
           bool_decide (c_checkpoint_public_key_b64 row = None) ||
           bool_decide (c_checkpoint_sequence_in_domain row = None))) else
  raise (MemoryConstraintError "checkpoint fields forbidden")
    when (negb (c_is_checkpoint row) &&
          (negb (bool_decide (c_checkpoint_sig row = None)) ||
           negb (bool_decide (c_checkpoint_public_key_b64 row = None)) ||
           negb (bool_decide (c_checkpoint_sequence_in_domain row = None)))) else
  Ok (mk_MemTx (t_accounts tx) (t_journal tx) (t_journal_by_idem tx) (t_postings tx)
    (<[key := row]> (t_chain tx)) (t_checkpoints tx) (t_outbox tx) (t_audit tx)
    (t_holds tx) (t_gate_rows tx) (t_next_entry_index tx) (t_next_audit_index tx)).

Definition insert_checkpoint (row : CheckpointRow) : res exn MemTx :=
  let existing := filter (fun c =>
    cp_chain_domain c = cp_chain_domain row /\
    cp_checkpoint_sequence_in_domain c = cp_checkpoint_sequence_in_domain row)
    (checkpoints_of s (cp_chain_domain row) ++ t_checkpoints tx) in
  raise (MemoryConstraintError "checkpoint sequence")
    when (negb (bool_decide (existing = []))) else
  raise (MemoryConstraintError "checkpoints_entries_positive")
    when (cp_entries_in_segment row <=? 0) else
  Ok (mk_MemTx (t_accounts tx) (t_journal tx) (t_journal_by_idem tx) (t_postings tx)
    (t_chain tx) (t_checkpoints tx ++ [row]) (t_outbox tx) (t_audit tx)
    (t_holds tx) (t_gate_rows tx) (t_next_entry_index tx) (t_next_audit_index tx)).

Definition insert_outbox (row : OutboxRow) : res exn MemTx :=
  raise (LedgerDuplicateEventError (ob_event_id row))
    when (bool_decide (is_Some (t_outbox tx !! ob_event_id row)) ||
          bool_decide (is_Some (s_outbox s !! ob_event_id row))) else
  Ok (mk_MemTx (t_accounts tx) (t_journal tx) (t_journal_by_idem tx) (t_postings tx)
    (t_chain tx) (t_checkpoints tx) (<[ob_event_id row := row]> (t_outbox tx))
    (t_audit tx) (t_holds tx) (t_gate_rows tx) (t_next_entry_index tx)
    (t_next_audit_index tx)).

(** [dataclasses.replace(row, entry_index=i)] *)
Definition audit_with_index (row : AuditEventRow) (i : Z) : AuditEventRow :=
  mk_AuditEventRow (au_event_id row) i (au_event_type row) (au_actor_id row)
    (au_actor_type row) (au_subject_type row) (au_subject_id row)
    (au_from_state row) (au_to_state row) (au_payload_hash row)
    (au_payload_pointer row) (au_payload_json row) (au_prev_chain_hash row)
    (au_chain_hash row) (au_pii_redacted row) (au_occurred_at row)
    (au_schema_version row).

Definition insert_audit_event (row : AuditEventRow) : res exn (Z * MemTx) :=
  raise (LedgerDuplicateEventError (au_event_id row))
    when (bool_decide (is_Some (t_audit tx !! au_event_id row)) ||
          bool_decide (is_Some (s_audit s !! au_event_id row))) else
  let entry_index := t_next_audit_index tx in
  Ok (entry_index,
    mk_MemTx (t_accounts tx) (t_journal tx) (t_journal_by_idem tx) (t_postings tx)
      (t_chain tx) (t_checkpoints tx) (t_outbox tx)
      (<[au_event_id row := audit_with_index row entry_index]> (t_audit tx))
      (t_holds tx) (t_gate_rows tx) (t_next_entry_index tx)
      (t_next_audit_index tx + 1)).

Definition set_hold (row : AccountHoldRow) : MemTx :=
  mk_MemTx (t_accounts tx) (t_journal tx) (t_journal_by_idem tx) (t_postings tx)
    (t_chain tx) (t_checkpoints tx) (t_outbox tx) (t_audit tx)
    (<[h_hold_id row := row]> (t_holds tx)) (t_gate_rows tx)
    (t_next_entry_index tx) (t_next_audit_index tx).

Definition account_absent (id : string) : bool :=
  bool_decide (tx_get_account s tx id = None).

Definition insert_account_hold (row : AccountHoldRow) : res exn MemTx :=
  raise (MemoryConstraintError "hold_id")
    when (bool_decide (is_Some (tx_get_account_hold s tx (h_hold_id row)))) else
  raise (MemoryConstraintError "FK hold account")
    when (account_absent (h_account_id row)) else
  raise (MemoryConstraintError "FK hold reserve")
    when (account_absent (h_hold_reserve_account_id row)) else
  raise (MemoryConstraintError "FK hold source")
    when (account_absent (h_source_account_id row)) else
  raise (MemoryConstraintError "FK open journal")
    when (negb (journal_entry_exists s tx (h_open_je_id row))) else
  raise (MemoryConstraintError "holds_status_check")
    when (negb (str_in (h_status row) HOLD_STATUSES)) else
  raise (MemoryConstraintError "holds_amount_positive")
    when (h_amount_minor row <=? 0) else
  Ok (set_hold row).

Definition update_account_hold (row : AccountHoldRow) : res exn MemTx :=
  raise (MemoryConstraintError "unknown hold_id")
    when (bool_decide (tx_get_account_hold s tx (h_hold_id row) = None)) else
  raise (MemoryConstraintError "holds_status_check")
    when (negb (str_in (h_status row) HOLD_STATUSES)) else
  raise (MemoryConstraintError "FK close journal")
    when (match h_close_je_id row with
          | Some je => negb (journal_entry_exists s tx je)
          | None => false
          end) else
  Ok (set_hold row).

Definition tx_engage_write_gate (reason : string) (engaged_at : datetime) : MemTx :=
  mk_MemTx (t_accounts tx) (t_journal tx) (t_journal_by_idem tx) (t_postings tx)
    (t_chain tx) (t_checkpoints tx) (t_outbox tx) (t_audit tx) (t_holds tx)
    (t_gate_rows tx ++ [mk_GateRow reason engaged_at None])
    (t_next_entry_index tx) (t_next_audit_index tx).
End TxWrites.

(** * Commit *)

Definition is_debit (p : PostingRow) : bool := bool_decide (po_side p = "DEBIT").

Definition debit_of (p : PostingRow) : Z := if is_debit p then po_amount_minor p else 0.
Definition credit_of (p : PostingRow) : Z := if is_debit p then 0 else po_amount_minor p.

Definition _all_postings_for_entry (s : Store) (tx : MemTx) (entry_id : string) :
    list PostingRow :=
  filter (fun p => po_entry_id p = entry_id)
    ((map_to_list (s_postings s)).*2 ++ t_postings tx).

Definition entry_balanced (s : Store) (tx : MemTx) (entry_id : string) : bool :=
  let ps := _all_postings_for_entry s tx entry_id in
  sumZ debit_of ps =? sumZ credit_of ps.

Definition _deferred_balance_check (s : Store) (tx : MemTx) : res exn unit :=
  raise (MemoryConstraintError "Ledger imbalance")
    when (negb (forallb (entry_balanced s tx) (po_entry_id <$> t_postings tx))) else
  Ok tt.

(** One committed posting: the row, the per-entry list and the balance. *)
Definition apply_posting (s : Store) (p : PostingRow) : res exn Store :=
  match s_accounts s !! po_account_id p with
  | None => Err KeyError
  | Some account =>
      let delta := _normal_balance_delta (ac_account_type account) (po_side p)
                     (po_amount_minor p) in
      Ok (mk_Store (s_accounts s) (s_journal s) (s_journal_by_idem s)
        (<[po_posting_id p := p]> (s_postings s))
        (<[po_entry_id p :=
             default [] (s_postings_by_entry s !! po_entry_id p) ++ [po_posting_id p]]>
           (s_postings_by_entry s))
        (s_chains s) (s_checkpoints s) (s_outbox s) (s_audit s) (s_holds s)
        (<[po_account_id p := default 0 (s_balances s !! po_account_id p) + delta]>
           (s_balances s))
        (s_gate_rows s) (s_entry_index_seq s) (s_audit_index_seq s))
  end.

Definition add_chain_row (m : gmap string (gmap Z ChainEntryRow))
    (kr : (string * Z) * ChainEntryRow) : gmap string (gmap Z ChainEntryRow) :=
  let '((domain, index), row) := kr in
  <[domain := <[index := row]> (default ∅ (m !! domain))]> m.

Definition add_checkpoint (m : gmap string (list CheckpointRow)) (c : CheckpointRow) :
    gmap string (list CheckpointRow) :=
  <[cp_chain_domain c := default [] (m !! cp_chain_domain c) ++ [c]]> m.

(** [dict.update]: the staged entries win. *)
Definition _apply (s : Store) (tx : MemTx) : res exn Store :=
  let s1 := mk_Store (t_accounts tx ∪ s_accounts s) (t_journal tx ∪ s_journal s)
    (t_journal_by_idem tx ∪ s_journal_by_idem s) (s_postings s) (s_postings_by_entry s)
    (s_chains s) (s_checkpoints s) (s_outbox s) (s_audit s) (s_holds s) (s_balances s)
    (s_gate_rows s) (s_entry_index_seq s) (s_audit_index_seq s) in
  let* s2 := rfold apply_posting s1 (t_postings tx) in
  Ok (mk_Store (s_accounts s2) (s_journal s2) (s_journal_by_idem s2) (s_postings s2)
    (s_postings_by_entry s2)
    (fold_left add_chain_row (map_to_list (t_chain tx)) (s_chains s2))
    (fold_left add_checkpoint (t_checkpoints tx) (s_checkpoints s2))
    (t_outbox tx ∪ s_outbox s2) (t_audit tx ∪ s_audit s2) (t_holds tx ∪ s_holds s2)
    (s_balances s2) (s_gate_rows s2 ++ t_gate_rows tx)
    (t_next_entry_index tx - 1) (t_next_audit_index tx - 1)).

(** The outcome of a service call: the value or exception, and the store it
    leaves. *)
Definition outcome (A : Type) : Type := (res exn A * Store)%type.

Definition transaction {A} (s : Store) (body : MemTx -> res exn (A * MemTx)) : outcome A :=
  match body (new_tx s) with
  | Err e => (Err e, s)
  | Ok (a, tx) =>
      match (let* _ := _deferred_balance_check s tx in _apply s tx) with
      | Err e => (Err e, s)
      | Ok s' => (Ok a, s')
      end
  end.

(** * Reads of the committed store *)

Section StoreReads.
Context (s : Store).

Definition get_account (account_id : string) : option AccountRow :=
  s_accounts s !! account_id.

Definition store_get_balance (account_id : string) : Z :=
  default 0 (s_balances s !! account_id).

Definition posting_delta (account_type account_id : string) (p : PostingRow) : Z :=
  if bool_decide (po_account_id p = account_id)
  then _normal_balance_delta account_type (po_side p) (po_amount_minor p) else 0.

Definition get_balance_as_of (account_id : string) (as_of : datetime) : Z :=
  match s_accounts s !! account_id with
  | None => 0
  | Some account =>
      sumZ (posting_delta (ac_account_type account) account_id)
        (filter (fun p => dt_leb (po_produced_at p) as_of = true)
           (map_to_list (s_postings s)).*2)
  end.

Definition sum_balance_by_subtype (account_subtype : string) : Z :=
  sumZ (fun a => default 0 (s_balances s !! ac_account_id a))
    (filter (fun a => ac_account_subtype a = account_subtype)
       (map_to_list (s_accounts s)).*2).

Definition trial_balance : TrialBalance :=
  let ps := (map_to_list (s_postings s)).*2 in
  mk_TrialBalance (sumZ debit_of ps) (sumZ credit_of ps).

Definition get_postings_for_entry (entry_id : string) : list PostingRow :=
  omap (fun pid => s_postings s !! pid) (default [] (s_postings_by_entry s !! entry_id)).

Definition count_journal_entries : Z := Z.of_nat (size (s_journal s)).

Definition index_in (from_index : Z) (to_index : option Z) (i : Z) : bool :=
  (from_index <=? i) && match to_index with Some t => i <=? t | None => true end.

Definition iter_chain (domain : string) (from_index : Z) (to_index : option Z) :
    list ChainEntryRow :=
  let indexes := sort_by Z.le id (filter (fun i => index_in from_index to_index i = true)
    (keys (chain_of s domain))) in
  omap (fun i => chain_of s domain !! i) indexes.

Definition get_chain_entry (domain : string) (i : Z) : option ChainEntryRow :=
  chain_of s domain !! i.

Definition max_chain_index (domain : string) : option Z := zmax (keys (chain_of s domain)).

Definition list_checkpoints (domain : string) : list CheckpointRow :=
  sort_by Z.le cp_checkpoint_sequence_in_domain (checkpoints_of s domain).

Definition store_get_open_hold (reference_id : string) : option AccountHoldRow :=
  min_hold (filter (open_for reference_id) (map_to_list (s_holds s)).*2).

Definition engage_write_gate (reason : string) (engaged_at : datetime) : Store :=
  mk_Store (s_accounts s) (s_journal s) (s_journal_by_idem s) (s_postings s)
    (s_postings_by_entry s) (s_chains s) (s_checkpoints s) (s_outbox s) (s_audit s)
    (s_holds s) (s_balances s) (s_gate_rows s ++ [mk_GateRow reason engaged_at None])
    (s_entry_index_seq s) (s_audit_index_seq s).

(** Newest first; the indices are distinct. *)
Definition list_journal_entries (limit offset : nat) : list JournalEntryRow :=
  take limit (drop offset (sort_by Z.le (fun r => - je_entry_index r)
    (map_to_list (s_journal s)).*2)).

Definition list_journal_entries_by_reference_and_type (reference_id entry_type : string) :
    list JournalEntryRow :=
  sort_by Z.le je_entry_index
    (filter (fun r => je_reference_id r = reference_id /\ je_entry_type r = entry_type)
       (map_to_list (s_journal s)).*2).

Definition has_outbox_event (event_type subject_id : string) : bool :=
  existsb (fun r => String.eqb (ob_event_type r) event_type &&
                    String.eqb (ob_subject_id r) subject_id) (map_to_list (s_outbox s)).*2.

Definition list_audit_events (subject_type subject_id : option string) :
    list AuditEventRow :=
  sort_by Z.le au_entry_index
    (filter (fun r => (subject_type = None \/ subject_type = Some (au_subject_type r)) /\
                      (subject_id = None \/ subject_id = Some (au_subject_id r)))
       (map_to_list (s_audit s)).*2).

Definition count_chain_entries (domain : string) : Z := Z.of_nat (size (chain_of s domain)).
End StoreReads.

(** * The DBA path: rows changed behind the service's back *)

Section Dba.
Context (s : Store).

Definition with_journal (j : gmap string JournalEntryRow) (idem : gmap string string) (seq : Z) :
    Store :=
  mk_Store (s_accounts s) j idem (s_postings s) (s_postings_by_entry s) (s_chains s)
    (s_checkpoints s) (s_outbox s) (s_audit s) (s_holds s) (s_balances s) (s_gate_rows s)
    seq (s_audit_index_seq s).

Definition with_posting_rows (ps : gmap string PostingRow) : Store :=
  mk_Store (s_accounts s) (s_journal s) (s_journal_by_idem s) ps (s_postings_by_entry s)
    (s_chains s) (s_checkpoints s) (s_outbox s) (s_audit s) (s_holds s) (s_balances s)
    (s_gate_rows s) (s_entry_index_seq s) (s_audit_index_seq s).

Definition with_chain_rows (cs : gmap string (gmap Z ChainEntryRow)) : Store :=
  mk_Store (s_accounts s) (s_journal s) (s_journal_by_idem s) (s_postings s)
    (s_postings_by_entry s) cs (s_checkpoints s) (s_outbox s) (s_audit s) (s_holds s)
    (s_balances s) (s_gate_rows s) (s_entry_index_seq s) (s_audit_index_seq s).

(** [changes] is what [dataclasses.replace] does to the row. *)
Definition dba_replace_chain_entry (domain : string) (i : Z)
    (changes : ChainEntryRow -> ChainEntryRow) : res exn Store :=
  match s_chains s !! domain with
  | None => Err KeyError
  | Some ch =>
      match ch !! i with
      | None => Err KeyError
      | Some row => Ok (with_chain_rows (<[domain := <[i := changes row]> ch]> (s_chains s)))
      end
  end.

Definition dba_delete_chain_entry (domain : string) (i : Z) : res exn Store :=
  match s_chains s !! domain with
  | None => Err KeyError
  | Some ch =>
      match ch !! i with
      | None => Err KeyError
      | Some _ => Ok (with_chain_rows (<[domain := delete i ch]> (s_chains s)))
      end
  end.

Definition dba_replace_posting (posting_id : string) (changes : PostingRow -> PostingRow) :
    res exn Store :=
  match s_postings s !! posting_id with
  | None => Err KeyError
  | Some row => Ok (with_posting_rows (<[posting_id := changes row]> (s_postings s)))
  end.

Definition dba_delete_posting (posting_id : string) : res exn Store :=
  match s_postings s !! posting_id with
  | None => Err KeyError
  | Some _ => Ok (with_posting_rows (delete posting_id (s_postings s)))
  end.

Definition dba_delete_journal_entry (entry_id : string) : res exn Store :=
  match s_journal s !! entry_id with
  | None => Err KeyError
  | Some _ => Ok (with_journal (delete entry_id (s_journal s)) (s_journal_by_idem s)
                    (s_entry_index_seq s))
  end.

Definition dba_replace_journal_entry (entry_id : string)
    (changes : JournalEntryRow -> JournalEntryRow) : res exn Store :=
  match s_journal s !! entry_id with
  | None => Err KeyError
  | Some row => Ok (with_journal (<[entry_id := changes row]> (s_journal s))
                      (s_journal_by_idem s) (s_entry_index_seq s))
  end.

(** [dataclasses.replace(row, entry_index=i)] *)
Definition entry_with_index (row : JournalEntryRow) (i : Z) : JournalEntryRow :=
  mk_JournalEntryRow (je_entry_id row) i (je_reference_id row) (je_reference_type row)
    (je_entry_type row) (je_description row) (je_produced_by row) (je_produced_at row)
    (je_idempotency_key row) (je_schema_version row).

Definition dba_insert_journal_entry (row : JournalEntryRow) : Store :=
  let seq := s_entry_index_seq s + 1 in
  with_journal (<[je_entry_id row := entry_with_index row seq]> (s_journal s))
    (<[je_idempotency_key row := je_entry_id row]> (s_journal_by_idem s)) seq.

Definition clear_gate (cleared_at : datetime) (r : GateRow) : GateRow :=
  match g_cleared_at r with
  | None => mk_GateRow (g_reason r) (g_engaged_at r) (Some cleared_at)
  | Some _ => r
  end.

Definition dba_clear_write_gate (cleared_at : datetime) : Store :=
  mk_Store (s_accounts s) (s_journal s) (s_journal_by_idem s) (s_postings s)
    (s_postings_by_entry s) (s_chains s) (s_checkpoints s) (s_outbox s) (s_audit s) (s_holds s)
    (s_balances s) (clear_gate cleared_at <$> s_gate_rows s) (s_entry_index_seq s)
    (s_audit_index_seq s).
End Dba.

(** [dataclasses.replace(row, amount_minor=x)] *)
Definition with_amount (x : Z) (p : PostingRow) : PostingRow :=
  mk_PostingRow (po_posting_id p) (po_entry_id p) (po_account_id p) (po_side p) x
    (po_currency p) (po_produced_at p) (po_schema_version p).
