(* ===== verification/HashChain.v ===== *)
(** The chain-hash preimage, the canonical payloads and the payload pointers
    (src/bdpay/ledger/hash_chain.py, src/bdpay/ledger/payloads.py), and the
    account-id resolver (src/bdpay/ledger/account_ids.py). *)
From S2P Require Import Prelude Exceptions DateTime Sha256 Canonical LedgerTypes.
Open Scope Z_scope.

(** * String helpers of the source *)

Definition startswith (p s : string) : bool := String.prefix p s.

Definition endswith (suffix s : string) : bool :=
  let l := String.length s in let k := String.length suffix in
  (k <=? l)%nat && String.eqb (str_drop (l - k) s) suffix.

(** [s.rsplit("/", 1)[-1]]: what follows the last slash. *)
Fixpoint last_segment_go (acc s : string) : string :=
  match s with
  | EmptyString => acc
  | String c r => if Ascii.eqb c "/"%char then last_segment_go r r else last_segment_go acc r
  end.
Definition last_segment (s : string) : string := last_segment_go s s.

(** * hash_chain.py *)

Definition GENESIS_PREV_HASH : string := zeros 64.
Definition CHAIN_DOMAINS : list string := ["MONEY"; "AUDIT"].

Section HashChain.
Context `{HashFn}.

(** The pipe-delimited preimage. *)
Definition preimage (prev_hash : string) (chain_index : Z)
    (chain_domain entry_type payload_hash payload_pointer : string)
    (amount_minor_sum : Z) (producer produced_at : string) : string :=
  prev_hash +:+ "|" +:+ str_Z chain_index +:+ "|" +:+ chain_domain +:+ "|" +:+
  entry_type +:+ "|" +:+ payload_hash +:+ "|" +:+ payload_pointer +:+ "|" +:+
  str_Z amount_minor_sum +:+ "|" +:+ producer +:+ "|" +:+ produced_at.

Definition compute_entry_hash (prev_hash : string) (chain_index : Z)
    (chain_domain entry_type payload_hash payload_pointer : string)
    (amount_minor_sum : Z) (producer produced_at : string) : res exn string :=
  raise HashChainError when (negb (str_in chain_domain CHAIN_DOMAINS)) else
  raise HashChainError when (negb (truthy payload_pointer)) else
  raise HashChainError
    when (negb (truthy prev_hash) || negb (String.length prev_hash =? 64)%nat) else
  raise HashChainError when (chain_index <? 0) else
  raise HashChainError when (amount_minor_sum <? 0) else
  raise HashChainError when (negb (endswith "Z" produced_at)) else
  Ok (sha256_hex (preimage prev_hash chain_index chain_domain entry_type payload_hash
        payload_pointer amount_minor_sum producer produced_at)).

(** * payloads.py *)

Definition posting_payload (p : PostingRow) : pyobj :=
  dict [("posting_id", PStr (po_posting_id p)); ("account_id", PStr (po_account_id p));
        ("side", PStr (po_side p)); ("amount_minor", PInt (po_amount_minor p));
        ("currency", PStr (po_currency p))].

Definition journal_entry_payload (entry : JournalEntryRow) (postings : list PostingRow) :
    res exn pyobj :=
  let* ts := to_canonical_ts (je_produced_at entry) in
  Ok (dict [("entry_id", PStr (je_entry_id entry));
            ("reference_id", PStr (je_reference_id entry));
            ("reference_type", PStr (je_reference_type entry));
            ("entry_type", PStr (je_entry_type entry));
            ("description", PStr (je_description entry));
            ("produced_by", PStr (je_produced_by entry));
            ("produced_at", PStr ts);
            ("idempotency_key", PStr (je_idempotency_key entry));
            ("schema_version", PInt (je_schema_version entry));
            ("postings", PList (posting_payload <$>
               sort_by String.le po_posting_id postings))]).

Definition journal_entry_payload_hash (entry : JournalEntryRow)
    (postings : list PostingRow) : res exn string :=
  let* payload := journal_entry_payload entry postings in sha256_canonical payload.

Definition LEDGER_POINTER_PREFIX : string := "s3://bd-pay-ledger".
Definition AUDIT_POINTER_PREFIX : string := "s3://bd-pay-audit".
Definition _POINTER_SUFFIX : string := ".json.enc".

(** [ts[i:j]] *)
Definition slice (i j : nat) (s : string) : string := str_take (j - i) (str_drop i s).

Definition _pointer_for (prefix entity_id : string) (at_ : datetime) : res exn string :=
  let* ts := to_canonical_ts at_ in
  Ok (prefix +:+ "/" +:+ slice 0 4 ts +:+ "/" +:+ slice 5 7 ts +:+ "/" +:+ slice 8 10 ts
      +:+ "/" +:+ entity_id +:+ _POINTER_SUFFIX).

Definition payload_pointer_for (entry_id : string) (produced_at : datetime) :
    res exn string :=
  _pointer_for LEDGER_POINTER_PREFIX entry_id produced_at.

Definition audit_payload_pointer_for (event_id : string) (occurred_at : datetime) :
    res exn string :=
  _pointer_for AUDIT_POINTER_PREFIX event_id occurred_at.

Definition entry_id_from_pointer (pointer : string) : option string :=
  if negb (startswith (LEDGER_POINTER_PREFIX +:+ "/") pointer) ||
     negb (endswith _POINTER_SUFFIX pointer)
  then None
  else
    let basename := last_segment pointer in
    let entry_id :=
      str_take (String.length basename - String.length _POINTER_SUFFIX) basename in
    if truthy entry_id then Some entry_id else None.

Definition audit_event_payload (row : AuditEventRow) : res exn pyobj :=
  let* ts := to_canonical_ts (au_occurred_at row) in
  Ok (dict [("event_id", PStr (au_event_id row));
            ("event_type", PStr (au_event_type row));
            ("actor_id", PStr (au_actor_id row));
            ("actor_type", PStr (au_actor_type row));
            ("subject_type", PStr (au_subject_type row));
            ("subject_id", PStr (au_subject_id row));
            ("from_state", POpt (au_from_state row));
            ("to_state", POpt (au_to_state row));
            ("payload_hash", PStr (au_payload_hash row));
            ("occurred_at", PStr ts);
            ("schema_version", PInt (au_schema_version row))]).

(** * account_ids.py *)

Definition account_id (account_subtype : string) (purpose_tag owner_id : option string)
    (currency : string) : res exn string :=
  make_id "acct"
    (dict [("owner_id", POpt owner_id); ("account_subtype", PStr account_subtype);
           ("currency", PStr currency); ("purpose_tag", POpt purpose_tag)]).

Definition system_account_id (account_subtype purpose_tag : string) : res exn string :=
  account_id account_subtype (Some purpose_tag) None "BDT".

Definition merchant_settlement_id (merchant_id : string) : res exn string :=
  account_id "MERCHANT_SETTLEMENT" (Some "settlement_main"%string) (Some merchant_id) "BDT".

Definition merchant_hold_reserve_id (merchant_id : string) : res exn string :=
  account_id "MERCHANT_HOLD_RESERVE" (Some "hold_reserve"%string) (Some merchant_id) "BDT".
End HashChain.

(** * Facts *)

Lemma startswith_app p s : startswith p (p +:+ s) = true.
Proof.
  unfold startswith. induction p as [|c p IH]; simpl; [by destruct s|].
  by destruct (ascii_dec c c).
Qed.

Lemma endswith_app a suffix : endswith suffix (a +:+ suffix) = true.
Proof.
  unfold endswith. rewrite str_length_app.
  replace (String.length a + String.length suffix - String.length suffix)%nat
    with (String.length a) by lia.
  rewrite str_drop_app, String.eqb_refl, andb_true_r. apply Nat.leb_le. lia.
Qed.

Definition not_slash (c : ascii) : bool := negb (Ascii.eqb c "/"%char).

Lemma last_segment_go_plain acc b :
  all_chars not_slash b = true -> last_segment_go acc b = acc.
Proof.
  revert acc. induction b as [|c b IH]; intros acc Hb; simpl in *; [done|].
  unfold not_slash at 1 in Hb. bool_prop. rewrite H. by apply IH.
Qed.

(** What follows the last slash. *)
Lemma last_segment_app a b :
  all_chars not_slash b = true -> last_segment (a +:+ "/" +:+ b) = b.
Proof.
  intros Hb. unfold last_segment. generalize (a +:+ "/" +:+ b) at 1.
  induction a as [|c a IH]; intros acc; simpl.
  - by apply last_segment_go_plain.
  - case_match; apply IH.
Qed.

Lemma hex_not_slash c : is_hex c = true -> not_slash c = true.
Proof.
  unfold not_slash. destruct (Ascii.eqb_spec c "/"); [by subst|done].
Qed.

Section Pointers.
Context `{HashFn}.

(** Reading back the entry id of a ledger pointer. *)
Lemma entry_id_of_pointer id t p :
  payload_pointer_for id t = Ok p -> truthy id = true -> all_chars not_slash id = true ->
  entry_id_from_pointer p = Some id.
Proof.
  unfold payload_pointer_for, _pointer_for. intros Hp Ht Hs. inv_res.
  unfold entry_id_from_pointer.
  set (pre := LEDGER_POINTER_PREFIX +:+ "/" +:+ slice 0 4 a +:+ "/" +:+ slice 5 7 a +:+ "/"
              +:+ slice 8 10 a).
  match goal with |- context [startswith _ ?q] =>
    assert (q = pre +:+ "/" +:+ (id +:+ _POINTER_SUFFIX)) as -> end.
  { subst pre. by rewrite !str_app_assoc. }
  assert (startswith (LEDGER_POINTER_PREFIX +:+ "/") (pre +:+ "/" +:+ id +:+ _POINTER_SUFFIX)
          = true) as ->.
  { subst pre. rewrite !str_app_assoc, <- (str_app_assoc LEDGER_POINTER_PREFIX).
    apply startswith_app. }
  replace (pre +:+ "/" +:+ id +:+ _POINTER_SUFFIX)
    with ((pre +:+ "/" +:+ id) +:+ _POINTER_SUFFIX) at 1 by (by rewrite !str_app_assoc).
  rewrite endswith_app. simpl negb. cbv iota beta. simpl orb. cbv iota.
  rewrite last_segment_app by (by rewrite all_chars_app, Hs).
  rewrite str_length_app, Nat.add_sub, str_take_app, Ht. done.
Qed.

Lemma make_id_no_slash prefix payload id :
  make_id prefix payload = Ok id -> truthy prefix = true -> all_chars not_slash prefix = true ->
  truthy id = true /\ all_chars not_slash id = true.
Proof.
  intros (t & _ & ->)%make_id_inv Hp Hs. split; [by destruct prefix|].
  rewrite !all_chars_app, Hs. simpl.
  eapply all_chars_impl; [apply hex_not_slash|apply id_digest_chars].
Qed.
End Pointers.
