(* ===== verification/LedgerService.v ===== *)
(** [LedgerService] (src/bdpay/ledger/service.py): the sole writer of the
    ledger.  Every public operation is a function of the store, its arguments
    and the clock reading, to an [outcome]: the returned value or the exception
    raised, with the store left behind.

    Parameters: the SHA-256 interface, the Ed25519 signer of the third-party
    [cryptography] package behind [CheckpointSigner], and [redact] of
    src/bdpay/platform/pii.py behind [Redactor]. *)
From S2P Require Import Prelude Exceptions DateTime Sha256 Canonical LedgerTypes LedgerStore HashChain.
Open Scope Z_scope.

(** [CheckpointSigner] / [verify_checkpoint]: signatures made by the signer are
    made with its public key and verify. *)
Class CheckpointSigner : Type := {
  sign : string -> string * string;
  public_key_b64 : string;
  verify_checkpoint : string -> string -> string -> bool;
  sign_public_key : forall h, (sign h).2 = public_key_b64;
  sign_verifies : forall h, verify_checkpoint h (sign h).1 (sign h).2 = true
}.

Class Redactor : Type := { redact : string -> string }.

Record LedgerCfg : Type := mk_LedgerCfg {
  cfg_producer : string;
  cfg_interval : Z;
  cfg_trusted_keys : list string
}.

Definition MONEY_DOMAIN : string := "MONEY".
Definition AUDIT_DOMAIN : string := "AUDIT".

Definition TOPICS : list string :=
  ["payment.events"; "settlement.events"; "aml.events"; "recon.events"; "kyc.events";
   "connector.events"; "qr.events"; "vault.events"; "platform.events";
   "notification.events"; "offer.events"].

(** Run a computation that does not touch the store; its exception leaves the
    store as it is. *)
Definition attempt {A B} (s : Store) (c : res exn A) (k : A -> outcome B) : outcome B :=
  match c with Ok a => k a | Err e => (Err e, s) end.
Notation "'try*' x ':=' c 'at' s 'in' k" := (attempt s c (fun x => k))
  (at level 10, x pattern, c at level 100, s at level 9, k at level 200) : bdpay_scope.

(** [a or b] on optional strings. *)
Definition or_str (a : option string) (b : string) : string :=
  match a with Some x => if truthy x then x else b | None => b end.

Definition str_contains (c : ascii) (s : string) : bool :=
  negb (all_chars (fun x => negb (Ascii.eqb x c)) s).

Section Service.
Context `{HashFn} `{CheckpointSigner} `{Redactor} (cfg : LedgerCfg).

(** [_GENESIS_PAYLOAD_HASH] *)
Definition _GENESIS_PAYLOAD_HASH : string := sha256_hex "genesis".

(** [LedgerService.__init__] *)
Definition make_cfg (producer : string) (checkpoint_interval : Z)
    (trusted_public_keys : option (list string)) : res exn LedgerCfg :=
  raise (LedgerValidationError BadCheckpointInterval) when (checkpoint_interval <=? 0) else
  Ok (mk_LedgerCfg producer checkpoint_interval
        (default [public_key_b64] trusted_public_keys)).

Definition _require_amount_minor (value : Z) : res exn Z :=
  raise LedgerAmountError when (value <=? 0) else Ok value.

Definition _now (clock : datetime) : res exn datetime :=
  raise (LedgerValidationError NaiveClock) when (negb (tz_aware clock)) else Ok clock.

(** * Validation *)

Definition validate_posting (acc : Z * Z) (p : PostingSpec) : res exn (Z * Z) :=
  raise (LedgerValidationError (BadSide (ps_side p)))
    when (negb (str_in (ps_side p) SIDES)) else
  raise (LedgerValidationError (FieldRequired "account_id"))
    when (negb (truthy (ps_account_id p))) else
  raise (LedgerValidationError (PostingCurrencyNotBdt (ps_currency p)))
    when (negb (bool_decide (ps_currency p = "BDT"%string))) else
  let* amount := _require_amount_minor (ps_amount_minor p) in
  Ok (if bool_decide (ps_side p = "DEBIT"%string)
      then (acc.1 + amount, acc.2) else (acc.1, acc.2 + amount)).

Definition _validate_entry_spec (spec : JournalEntrySpec) : res exn unit :=
  raise (LedgerValidationError (FieldRequired "reference_id"))
    when (negb (truthy (js_reference_id spec))) else
  raise (LedgerValidationError (UnknownReferenceType (js_reference_type spec)))
    when (negb (str_in (js_reference_type spec) REFERENCE_TYPES)) else
  raise (LedgerValidationError (UnknownEntryType (js_entry_type spec)))
    when (negb (str_in (js_entry_type spec) ENTRY_TYPES)) else
  raise (LedgerValidationError (FieldRequired "description"))
    when (negb (truthy (js_description spec))) else
  raise (LedgerValidationError (FieldRequired "produced_by"))
    when (negb (truthy (js_produced_by spec))) else
  raise (LedgerValidationError (FieldRequired "idempotency_key"))
    when (negb (truthy (js_idempotency_key spec))) else
  raise (LedgerValidationError TooFewPostings)
    when (length (js_postings spec) <? 2)%nat else
  let* dc := rfold validate_posting (0, 0) (js_postings spec) in
  raise (LedgerImbalanceError dc.1 dc.2) when (negb (dc.1 =? dc.2)) else
  Ok tt.

(** * Chain mechanics *)

Definition _insert_genesis (s : Store) (tx : MemTx) (chain_domain : string)
    (produced_at : datetime) : res exn (ChainEntryRow * MemTx) :=
  let payload_pointer := "genesis://bdpay/" +:+ chain_domain in
  let* ts := to_canonical_ts produced_at in
  let* chain_hash := compute_entry_hash GENESIS_PREV_HASH 0 chain_domain
    GENESIS_ENTRY_TYPE _GENESIS_PAYLOAD_HASH payload_pointer 0 (cfg_producer cfg) ts in
  let row := mk_ChainEntryRow chain_domain 0 GENESIS_ENTRY_TYPE _GENESIS_PAYLOAD_HASH
    payload_pointer GENESIS_PREV_HASH 0 chain_hash false None None None
    (cfg_producer cfg) produced_at 1 in
  let* tx := insert_chain_entry s tx row in
  Ok (row, tx).

(** The row for the next index, and its checkpoint row when the index is a
    multiple of the interval. *)
Definition _append_chain_entry (s : Store) (tx : MemTx) (chain_domain entry_type
    payload_hash payload_pointer : string) (amount_minor_sum : Z)
    (produced_at : datetime) : res exn ((Z * string * string) * MemTx) :=
  let* (prev_index, prev_hash, tx) :=
    match lock_chain_tip s tx chain_domain with
    | None =>
        let* (genesis, tx) := _insert_genesis s tx chain_domain produced_at in
        Ok (c_chain_index genesis, c_chain_hash genesis, tx)
    | Some tip => Ok (tip_chain_index tip, tip_chain_hash tip, tx)
    end in
  let next_index := prev_index + 1 in
  let* ts := to_canonical_ts produced_at in
  let* chain_hash := compute_entry_hash prev_hash next_index chain_domain entry_type
    payload_hash payload_pointer amount_minor_sum (cfg_producer cfg) ts in
  let is_checkpoint := next_index mod cfg_interval cfg =? 0 in
  let checkpoint_seq := next_index / cfg_interval cfg in
  let '(sig, pub) := sign chain_hash in
  let opt {A} (x : A) := if is_checkpoint then Some x else None in
  let* tx := insert_chain_entry s tx
    (mk_ChainEntryRow chain_domain next_index entry_type payload_hash payload_pointer
       prev_hash amount_minor_sum chain_hash is_checkpoint (opt checkpoint_seq)
       (opt sig) (opt pub) (cfg_producer cfg) produced_at 1) in
  let* tx :=
    if is_checkpoint then
      let* checkpoint_id := make_ledger_id "lckp"
        (dict [("chain_domain", PStr chain_domain);
               ("checkpoint_sequence_in_domain", PInt checkpoint_seq);
               ("chain_hash", PStr chain_hash)]) in
      insert_checkpoint s tx
        (mk_CheckpointRow checkpoint_id chain_domain checkpoint_seq
           (next_index - cfg_interval cfg + 1) next_index chain_hash sig pub
           (cfg_interval cfg) produced_at 1)
    else Ok tx in
  Ok ((next_index, chain_hash, prev_hash), tx).

(** [initialize_chain]: idempotently create the genesis row of a domain. *)
Definition initialize_chain (s : Store) (chain_domain : string) (clock : datetime) :
    outcome unit :=
  try* produced_at := _now clock at s in
  transaction s (fun tx =>
    match lock_chain_tip s tx chain_domain with
    | None => let* (_, tx) := _insert_genesis s tx chain_domain produced_at in Ok (tt, tx)
    | Some _ => Ok (tt, tx)
    end).

(** * Accounts *)

Definition create_account (s : Store) (spec : AccountSpec) (clock : datetime) :
    outcome string :=
  try* account_id :=
    (raise (LedgerValidationError (UnknownAccountType (acs_account_type spec)))
       when (negb (str_in (acs_account_type spec) ACCOUNT_TYPES)) else
     raise (LedgerValidationError (UnknownAccountSubtype (acs_account_subtype spec)))
       when (negb (str_in (acs_account_subtype spec) ACCOUNT_SUBTYPES)) else
     raise (LedgerValidationError (UnknownOwnerType (default "" (acs_owner_type spec))))
       when (match acs_owner_type spec with
             | Some t => negb (str_in t OWNER_TYPES) | None => false end) else
     raise (LedgerValidationError AccountCurrencyNotBdt)
       when (negb (bool_decide (acs_currency spec = "BDT"%string))) else
     HashChain.account_id (acs_account_subtype spec) (acs_purpose_tag spec)
       (acs_owner_id spec) (acs_currency spec)) at s in
  try* created_at := _now clock at s in
  transaction s (fun tx =>
    raise (LedgerValidationError (AccountAlreadyExists account_id))
      when (bool_decide (is_Some (tx_get_account s tx account_id))) else
    raise (LedgerAccountNotFoundError (default "" (acs_parent_id spec)))
      when (match acs_parent_id spec with
            | Some p => bool_decide (tx_get_account s tx p = None)
            | None => false end) else
    let* tx := insert_account s tx
      (mk_AccountRow account_id (acs_account_type spec) (acs_account_subtype spec)
         (acs_currency spec) (acs_owner_id spec) (acs_owner_type spec)
         (acs_parent_id spec) (acs_purpose_tag spec) (acs_is_system spec)
         created_at None 1) in
    Ok (account_id, tx)).

(** * The atomic bundle *)

Definition account_unusable (s : Store) (tx : MemTx) (account_id : string) : bool :=
  match tx_get_account s tx account_id with
  | None => true
  | Some a => match ac_closed_at a with Some _ => true | None => false end
  end.

(** Refuse an absent or closed account.  The source iterates over a set, so
    which of several unusable accounts the exception names is unspecified
    there; here it is the first. *)
Definition check_accounts (s : Store) (tx : MemTx) (ids : list string) : res exn unit :=
  rfold (fun _ a =>
    raise (LedgerAccountNotFoundError a) when (account_unusable s tx a) else Ok tt) tt ids.

Definition make_posting_row (entry_id : string) (produced_at : datetime)
    (ordinal : nat) (p : PostingSpec) : res exn PostingRow :=
  let* posting_id := make_id "post"
    (dict [("entry_id", PStr entry_id); ("account_id", PStr (ps_account_id p));
           ("side", PStr (ps_side p)); ("amount_minor", PInt (ps_amount_minor p));
           ("ordinal", PInt (Z.of_nat ordinal))]) in
  Ok (mk_PostingRow posting_id entry_id (ps_account_id p) (ps_side p)
        (ps_amount_minor p) (ps_currency p) produced_at 1).

(** [for ordinal, p in enumerate(spec.postings)]: insert one row each. *)
Fixpoint insert_postings (s : Store) (tx : MemTx) (entry_id : string)
    (produced_at : datetime) (ordinal : nat) (ps : list PostingSpec) :
    res exn (list PostingRow * MemTx) :=
  match ps with
  | [] => Ok ([], tx)
  | p :: rest =>
      let* row := make_posting_row entry_id produced_at ordinal p in
      let* tx := insert_posting s tx row in
      let* (rows, tx) := insert_postings s tx entry_id produced_at (S ordinal) rest in
      Ok (row :: rows, tx)
  end.

(** The event envelope of a posted journal entry. *)
Definition posted_envelope (event_id ts entry_id : string) (spec : JournalEntrySpec)
    (amount_minor_sum : Z) : pyobj :=
  dict [("event_id", PStr event_id); ("type", PStr "journal_entry.posted");
        ("occurred_at", PStr ts); ("subject_type", PStr "JournalEntry");
        ("subject_id", PStr entry_id); ("schema_version", PInt 1);
        ("producer", PStr (cfg_producer cfg));
        ("payload", dict [("entry_id", PStr entry_id);
           ("entry_type", PStr (js_entry_type spec));
           ("reference_id", PStr (js_reference_id spec));
           ("reference_type", PStr (js_reference_type spec));
           ("amount_minor_sum", PInt amount_minor_sum)])].

Definition _append_journal_entry (s : Store) (tx : MemTx) (spec : JournalEntrySpec)
    (produced_at : datetime) : res exn (string * MemTx) :=
  let* _ := _validate_entry_spec spec in
  let* entry_id := make_id "je"
    (dict [("reference_id", PStr (js_reference_id spec));
           ("entry_type", PStr (js_entry_type spec));
           ("idempotency_key", PStr (js_idempotency_key spec))]) in
  let gate := tx_write_gate_state s tx in
  raise (LedgerWriteGateEngagedError (wg_reason gate)) when (wg_engaged gate) else
  let* _ := match find_entry_id_by_idempotency_key s tx (js_idempotency_key spec) with
            | Some existing =>
                Err (LedgerDuplicateError (js_idempotency_key spec) existing)
            | None => Ok tt
            end in
  let* _ := check_accounts s tx (ps_account_id <$> js_postings spec) in
  let row (entry_index : Z) :=
    mk_JournalEntryRow entry_id entry_index (js_reference_id spec)
      (js_reference_type spec) (js_entry_type spec) (js_description spec)
      (js_produced_by spec) produced_at (js_idempotency_key spec) 1 in
  let* (entry_index, tx) := insert_journal_entry s tx (row 0) in
  let entry_row := row entry_index in
  let* (posting_rows, tx) :=
    insert_postings s tx entry_id produced_at 0 (js_postings spec) in
  let* payload_hash := journal_entry_payload_hash entry_row posting_rows in
  let* payload_pointer := payload_pointer_for entry_id produced_at in
  let amount_minor_sum := sumZ po_amount_minor posting_rows in
  let* (_, tx) := _append_chain_entry s tx MONEY_DOMAIN (js_entry_type spec)
    payload_hash payload_pointer amount_minor_sum produced_at in
  let* event_id := make_id "obx"
    (dict [("type", PStr "journal_entry.posted"); ("subject_id", PStr entry_id)]) in
  let* ts := to_canonical_ts produced_at in
  let* payload_json :=
    canonical_json (posted_envelope event_id ts entry_id spec amount_minor_sum) in
  let* tx := insert_outbox s tx
    (mk_OutboxRow event_id "payment.events" "journal_entry.posted" "JournalEntry"
       entry_id payload_json (cfg_producer cfg) produced_at false 1) in
  Ok (entry_id, tx).

Definition post_journal_entry (s : Store) (spec : JournalEntrySpec) (clock : datetime) :
    outcome string :=
  try* _ := _validate_entry_spec spec at s in
  try* produced_at := _now clock at s in
  transaction s (fun tx => _append_journal_entry s tx spec produced_at).

(** * Holds *)

Definition hold_open_spec (hold_id reference_id hold_reason source_id reserve_id : string)
    (amount : Z) : res exn JournalEntrySpec :=
  let* idempotency_key := make_id "je"
    (dict [("hold_id", PStr hold_id); ("reference_id", PStr reference_id);
           ("entry_type", PStr "hold_opened")]) in
  Ok (mk_JournalEntrySpec reference_id "HOLD" "hold_opened"
    ("hold opened: " +:+ hold_reason) (cfg_producer cfg) idempotency_key
    [posting source_id "DEBIT" amount; posting reserve_id "CREDIT" amount]).

Definition open_hold (s : Store) (account_id : string) (amount_minor : Z)
    (hold_reason reference_id : string) (source_account_id hold_reserve_account_id :
    option string) (hold_expires_at : option datetime) (clock : datetime) :
    outcome string :=
  try* amount := _require_amount_minor amount_minor at s in
  try* _ := (raise (LedgerValidationError HoldFieldsRequired)
    when (negb (truthy account_id) || negb (truthy reference_id) ||
          negb (truthy hold_reason)) else Ok tt) at s in
  let source_id := or_str source_account_id account_id in
  let reserve_id := or_str hold_reserve_account_id account_id in
  try* opened_at := _now clock at s in
  try* expires_at := (match hold_expires_at with
    | Some t => Ok t | None => dt_add_days opened_at 7 end) at s in
  try* ts := to_canonical_ts opened_at at s in
  try* hold_id := make_ledger_id "hold"
    (dict [("account_id", PStr account_id); ("reference_id", PStr reference_id);
           ("amount_minor", PInt amount); ("hold_opened_at", PStr ts)]) at s in
  transaction s (fun tx =>
    match get_open_account_hold_by_reference s tx reference_id with
    | Some existing => Ok (h_hold_id existing, tx)
    | None =>
        let* _ := check_accounts s tx [account_id; source_id; reserve_id] in
        let* spec := hold_open_spec hold_id reference_id hold_reason source_id
          reserve_id amount in
        let* (open_je_id, tx) := _append_journal_entry s tx spec opened_at in
        let* tx := insert_account_hold s tx
          (mk_AccountHoldRow hold_id account_id reserve_id source_id reference_id
             amount hold_reason "OPEN" opened_at expires_at None open_je_id None 1) in
        Ok (hold_id, tx)
    end).

(** [{"CAPTURED": "hold_captured", ...}[outcome]] *)
Definition hold_entry_type (outcome : string) : string :=
  if bool_decide (outcome = "CAPTURED"%string) then "hold_captured"
  else if bool_decide (outcome = "VOIDED"%string) then "hold_voided" else "hold_expired".

(** The postings that close a hold. *)
Definition release_postings (hold : AccountHoldRow) (outcome : string)
    (amount_minor : option Z) (capture_amount : Z) : res exn (list PostingSpec) :=
  if bool_decide (outcome = "CAPTURED"%string) then
    let unused_minor := h_amount_minor hold - capture_amount in
    Ok ([posting (h_hold_reserve_account_id hold) "DEBIT" (h_amount_minor hold);
         posting (h_account_id hold) "CREDIT" capture_amount] ++
        (if 0 <? unused_minor
         then [posting (h_source_account_id hold) "CREDIT" unused_minor] else []))
  else
    raise LedgerAmountError
      when (match amount_minor with
            | Some _ => negb (capture_amount =? h_amount_minor hold)
            | None => false end) else
    Ok [posting (h_hold_reserve_account_id hold) "DEBIT" (h_amount_minor hold);
        posting (h_source_account_id hold) "CREDIT" (h_amount_minor hold)].

(** [dataclasses.replace(hold, status=..., hold_closed_at=..., close_je_id=...)] *)
Definition close_hold (hold : AccountHoldRow) (status : string) (closed_at : datetime)
    (close_je_id : string) : AccountHoldRow :=
  mk_AccountHoldRow (h_hold_id hold) (h_account_id hold) (h_hold_reserve_account_id hold)
    (h_source_account_id hold) (h_reference_id hold) (h_amount_minor hold)
    (h_hold_reason hold) status (h_hold_opened_at hold) (h_hold_expires_at hold)
    (Some closed_at) (h_open_je_id hold) (Some close_je_id) (h_schema_version hold).

Definition release_hold (s : Store) (hold_id outcome : string)
    (amount_minor : option Z) (clock : datetime) : LedgerStore.outcome unit :=
  try* _ := (raise (LedgerValidationError BadHoldOutcome)
    when (negb (str_in outcome ["CAPTURED"; "VOIDED"; "EXPIRED"])) else Ok tt) at s in
  try* closed_at := _now clock at s in
  transaction s (fun tx =>
    match tx_get_account_hold s tx hold_id with
    | None => Err (LedgerValidationError (UnknownHold hold_id))
    | Some hold =>
        if negb (bool_decide (h_status hold = "OPEN"%string)) then
          if bool_decide (h_status hold = outcome) then Ok (tt, tx)
          else Err (LedgerValidationError (HoldNotOpen hold_id (h_status hold) outcome))
        else
          let* capture_amount := match amount_minor with
            | None => Ok (h_amount_minor hold)
            | Some a => _require_amount_minor a end in
          raise LedgerAmountError when (h_amount_minor hold <? capture_amount) else
          let entry_type := hold_entry_type outcome in
          let* postings := release_postings hold outcome amount_minor capture_amount in
          let* idempotency_key := make_id "je"
            (dict [("hold_id", PStr (h_hold_id hold)); ("entry_type", PStr entry_type);
                   ("amount_minor", PInt capture_amount)]) in
          let* (close_je_id, tx) := _append_journal_entry s tx
            (mk_JournalEntrySpec (h_reference_id hold) "HOLD" entry_type
               ("hold " +:+ lower outcome) (cfg_producer cfg) idempotency_key postings)
            closed_at in
          let* tx := update_account_hold s tx (close_hold hold outcome closed_at close_je_id) in
          Ok (tt, tx)
    end).

Definition get_open_hold_id (s : Store) (reference_id : string) : option string :=
  h_hold_id <$> store_get_open_hold s reference_id.

(** * Audit events *)

(** [_redact_payload]: strings are redacted unless their key names an opaque
    identifier.  (A string under a key that is not a [str] raises in the
    source; here it is redacted, and [canonical_json] then refuses the key.) *)
Definition is_opaque_identifier_key (key : string) : bool :=
  String.eqb key "idempotency_key" || endswith "_id" key || endswith "_ref" key.

Definition key_text (k : pykey) : option string :=
  match k with KStr t | KEnum t => Some t | KEnumOther | KOther => None end.

Fixpoint _redact_payload (key : option string) (value : pyobj) : pyobj :=
  match value with
  | PStr t | PEnum t =>
      if match key with Some k => is_opaque_identifier_key k | None => false end
      then value else PStr (redact t)
  | PDict items =>
      PDict (map (fun kv => (kv.1, _redact_payload (key_text kv.1) kv.2)) items)
  | PList items => PList (map (_redact_payload None) items)
  | other => other
  end.

Definition audit_event_id (actor_id ts : string) (spec : AuditEventSpec) : res exn string :=
  make_id "aud"
    (dict [("actor_id", PStr actor_id); ("subject_type", PStr (as_subject_type spec));
           ("subject_id", PStr (as_subject_id spec));
           ("event_type", PStr (as_event_type spec));
           ("from_state", PStr (default "" (as_from_state spec)));
           ("to_state", PStr (default "" (as_to_state spec)));
           ("occurred_at", PStr ts)]).

Definition _assert_audit_event_identity (existing : AuditEventRow) (spec : AuditEventSpec)
    (actor_id : string) (occurred_at : datetime) : res exn unit :=
  let differs f := LedgerValidationError (AuditEventDiffers (au_event_id existing) f) in
  raise (differs "event_type"%string)
    when (negb (String.eqb (au_event_type existing) (as_event_type spec))) else
  raise (differs "actor_id"%string)
    when (negb (String.eqb (au_actor_id existing) actor_id)) else
  raise (differs "actor_type"%string)
    when (negb (String.eqb (au_actor_type existing) (as_actor_type spec))) else
  raise (differs "subject_type"%string)
    when (negb (String.eqb (au_subject_type existing) (as_subject_type spec))) else
  raise (differs "subject_id"%string)
    when (negb (String.eqb (au_subject_id existing) (as_subject_id spec))) else
  raise (differs "from_state"%string)
    when (negb (String.eqb (default "" (au_from_state existing))
                  (default "" (as_from_state spec)))) else
  raise (differs "to_state"%string)
    when (negb (String.eqb (default "" (au_to_state existing))
                  (default "" (as_to_state spec)))) else
  let* a := to_canonical_ts (au_occurred_at existing) in
  let* b := to_canonical_ts occurred_at in
  raise (differs "occurred_at"%string) when (negb (String.eqb a b)) else
  Ok tt.

(** The checks made when the event id is already stored. *)
Definition audit_replay (existing : AuditEventRow) (spec : AuditEventSpec)
    (event_id actor_id payload_hash : string) (occurred_at : datetime) :
    res exn string :=
  let* _ := _assert_audit_event_identity existing spec actor_id occurred_at in
  raise (LedgerValidationError (AuditEventDiffers event_id "payload"))
    when (negb (String.eqb (au_payload_hash existing) payload_hash)) else
  Ok event_id.

Definition validate_audit_spec (spec : AuditEventSpec) : res exn unit :=
  raise (LedgerValidationError (UnknownAuditEventType (as_event_type spec)))
    when (negb (str_in (as_event_type spec) AUDIT_EVENT_TYPES)) else
  raise (LedgerValidationError (UnknownActorType (as_actor_type spec)))
    when (negb (str_in (as_actor_type spec) ACTOR_TYPES)) else
  raise (LedgerValidationError (FieldRequired "actor_id"))
    when (negb (truthy (as_actor_id spec))) else
  raise (LedgerValidationError (FieldRequired "subject_type"))
    when (negb (truthy (as_subject_type spec))) else
  raise (LedgerValidationError (FieldRequired "subject_id"))
    when (negb (truthy (as_subject_id spec))) else
  raise (LedgerValidationError AuditPayloadNotDict)
    when (negb (is_dict (as_payload spec))) else
  Ok tt.

(** [occurred_at or self._now()] *)
Definition at_or_now (occurred_at : option datetime) (clock : datetime) : res exn datetime :=
  match occurred_at with Some t => Ok t | None => _now clock end.

(** The body of the audit transaction: one AUDIT chain row, one event row. *)
Definition append_audit (s : Store) (tx : MemTx) (row : AuditEventRow)
    (occurred_at : datetime) : res exn (unit * MemTx) :=
  let* envelope := audit_event_payload row in
  let* envelope_hash := sha256_canonical envelope in
  let* (r, tx) := _append_chain_entry s tx AUDIT_DOMAIN (au_event_type row)
    envelope_hash (au_payload_pointer row) 0 occurred_at in
  let '(_, chain_hash, prev_hash) := r in
  let* (_, tx) := insert_audit_event s tx
    (mk_AuditEventRow (au_event_id row) (au_entry_index row) (au_event_type row)
       (au_actor_id row) (au_actor_type row) (au_subject_type row) (au_subject_id row)
       (au_from_state row) (au_to_state row) (au_payload_hash row)
       (au_payload_pointer row) (au_payload_json row) prev_hash chain_hash
       (au_pii_redacted row) (au_occurred_at row) (au_schema_version row)) in
  Ok (tt, tx).

Definition write_audit_event (s : Store) (spec : AuditEventSpec)
    (occurred_at : option datetime) (clock : datetime) : outcome string :=
  try* _ := validate_audit_spec spec at s in
  try* occurred_at := at_or_now occurred_at clock at s in
  let actor_id := redact (as_actor_id spec) in
  let redacted_payload := _redact_payload None (as_payload spec) in
  try* payload_hash := sha256_canonical redacted_payload at s in
  try* ts := to_canonical_ts occurred_at at s in
  try* event_id := audit_event_id actor_id ts spec at s in
  match s_audit s !! event_id with
  | Some existing =>
      (audit_replay existing spec event_id actor_id payload_hash occurred_at, s)
  | None =>
      try* payload_pointer := audit_payload_pointer_for event_id occurred_at at s in
      try* payload_json := canonical_json redacted_payload at s in
      match transaction s (fun tx => append_audit s tx
        (mk_AuditEventRow event_id 0 (as_event_type spec) actor_id (as_actor_type spec)
           (as_subject_type spec) (as_subject_id spec) (as_from_state spec)
           (as_to_state spec) payload_hash payload_pointer payload_json "" "" true
           occurred_at 1) occurred_at) with
      | (Ok _, s') => (Ok event_id, s')
      | (Err (LedgerDuplicateEventError _), s') =>
          match s_audit s' !! event_id with
          | None => (Err (LedgerValidationError (AuditEventDiffers event_id "payload")), s')
          | Some existing =>
              (audit_replay existing spec event_id actor_id payload_hash occurred_at, s')
          end
      | (Err e, s') => (Err e, s')
      end
  end.

Definition audit_event_exists (s : Store) (spec : AuditEventSpec)
    (occurred_at : option datetime) (clock : datetime) : res exn bool :=
  let* occurred_at := at_or_now occurred_at clock in
  let actor_id := redact (as_actor_id spec) in
  let* payload_hash := sha256_canonical (_redact_payload None (as_payload spec)) in
  let* ts := to_canonical_ts occurred_at in
  let* event_id := audit_event_id actor_id ts spec in
  Ok match s_audit s !! event_id with
     | Some existing => String.eqb (au_payload_hash existing) payload_hash
     | None => false
     end.

(** * Outbox events *)

Definition outbox_event_id (event_type subject_type subject_id ts payload_hash : string) :
    res exn string :=
  make_id "obx"
    (dict [("type", PStr event_type); ("subject_type", PStr subject_type);
           ("subject_id", PStr subject_id); ("occurred_at", PStr ts);
           ("payload_hash", PStr payload_hash)]).

(** The checks made when the event id is already stored. *)
Definition outbox_replay (existing : OutboxRow) (event_id envelope_json topic : string) :
    res exn string :=
  raise (LedgerValidationError (OutboxEventDiffers event_id "payload"))
    when (negb (String.eqb (ob_payload_json existing) envelope_json)) else
  raise (LedgerValidationError (OutboxEventDiffers event_id "topic"))
    when (negb (String.eqb (ob_topic existing) topic)) else
  Ok event_id.

Definition emit_event (s : Store) (event_type subject_type subject_id : string)
    (payload : pyobj) (topic : string) (producer : option string)
    (occurred_at : option datetime) (clock : datetime) : outcome string :=
  try* _ := (raise (LedgerValidationError (UnknownTopic topic))
      when (negb (str_in topic TOPICS)) else
    raise (LedgerValidationError (BadEventType event_type))
      when (negb (truthy event_type) || negb (str_contains "."%char event_type)) else
    Ok tt) at s in
  try* occurred_at := at_or_now occurred_at clock at s in
  let producer := or_str producer (cfg_producer cfg) in
  let redacted_payload := _redact_payload None payload in
  try* ts := to_canonical_ts occurred_at at s in
  try* payload_hash := sha256_canonical redacted_payload at s in
  try* event_id := outbox_event_id event_type subject_type subject_id ts payload_hash at s in
  try* envelope_json := canonical_json
    (dict [("event_id", PStr event_id); ("type", PStr event_type);
           ("occurred_at", PStr ts); ("subject_type", PStr subject_type);
           ("subject_id", PStr subject_id); ("schema_version", PInt 1);
           ("producer", PStr producer); ("payload", redacted_payload)]) at s in
  match s_outbox s !! event_id with
  | Some existing => (outbox_replay existing event_id envelope_json topic, s)
  | None =>
      match transaction s (fun tx =>
        let* tx := insert_outbox s tx
          (mk_OutboxRow event_id topic event_type subject_type subject_id envelope_json
             producer occurred_at false 1) in
        Ok (tt, tx)) with
      | (Ok _, s') => (Ok event_id, s')
      | (Err (LedgerDuplicateEventError _), s') =>
          match s_outbox s' !! event_id with
          | None => (Err (LedgerValidationError (OutboxEventDiffers event_id "payload")), s')
          | Some existing => (outbox_replay existing event_id envelope_json topic, s')
          end
      | (Err e, s') => (Err e, s')
      end
  end.

Definition outbox_event_exists (s : Store) (event_type subject_type subject_id : string)
    (payload : pyobj) (occurred_at : datetime) : res exn bool :=
  let* ts := to_canonical_ts occurred_at in
  let* payload_hash := sha256_canonical (_redact_payload None payload) in
  let* event_id := outbox_event_id event_type subject_type subject_id ts payload_hash in
  Ok (bool_decide (is_Some (s_outbox s !! event_id))).

(** * Balances *)

Definition get_balance (s : Store) (account_id : string) (as_of : option datetime) :
    res exn Z :=
  raise (LedgerAccountNotFoundError account_id)
    when (bool_decide (get_account s account_id = None)) else
  Ok match as_of with
     | None => store_get_balance s account_id
     | Some t => get_balance_as_of s account_id t
     end.

(** The gate is engaged before the exception is raised, so the store
    changes although the call fails. *)
Definition trial_balance_assertion (s : Store) (clock : datetime) : outcome unit :=
  let tb := trial_balance s in
  if negb (tb_balanced tb) then
    try* engaged_at := _now clock at s in
    (Err (TrialBalanceViolationError (tb_total_debit_minor tb) (tb_total_credit_minor tb)),
     engage_write_gate s
       ("trial balance violated: debit=" +:+ str_Z (tb_total_debit_minor tb) +:+
        " credit=" +:+ str_Z (tb_total_credit_minor tb)) engaged_at)
  else (Ok tt, s).

(** * verify_chain *)

Definition broken (index : option Z) (detail : string) (checked cps : Z) :
    ChainVerificationResult :=
  mk_ChainVerificationResult VERIFY_FAILED_BROKEN_CHAIN checked index cps (Some detail).

Definition bad_sig (index : Z) (detail : string) (checked cps : Z) :
    ChainVerificationResult :=
  mk_ChainVerificationResult VERIFY_FAILED_INVALID_CHECKPOINT_SIG checked (Some index) cps
    (Some detail).

(** [None] when the row's journal content is what the chain sealed, or else
    the reason. *)
Definition _deep_verify_money_row (s : Store) (row : ChainEntryRow) :
    res exn (option string) :=
  match entry_id_from_pointer (c_payload_pointer row) with
  | None => Ok (Some "payload_pointer is not a parseable ledger pointer")
  | Some entry_id =>
      match s_journal s !! entry_id with
      | None => Ok (Some ("journal entry " +:+ entry_id +:+
                  " referenced by the chain is missing (row deleted)"))
      | Some entry =>
          let postings := get_postings_for_entry s entry_id in
          if (length postings <? 2)%nat then
            Ok (Some ("journal entry " +:+ entry_id +:+ " has " +:+
                      str_Z (Z.of_nat (length postings)) +:+ " postings (rows deleted)"))
          else
          let debit := sumZ po_amount_minor
            (filter (fun p => po_side p = "DEBIT"%string) postings) in
          let credit := sumZ po_amount_minor
            (filter (fun p => po_side p = "CREDIT"%string) postings) in
          if negb (debit =? credit) then
            Ok (Some ("journal entry " +:+ entry_id +:+ " is imbalanced: debit=" +:+
                      str_Z debit +:+ " credit=" +:+ str_Z credit))
          else if negb (debit + credit =? c_amount_minor_sum row) then
            Ok (Some ("amount_minor_sum mismatch for " +:+ entry_id +:+ ": chain says " +:+
                      str_Z (c_amount_minor_sum row) +:+ ", postings sum to " +:+
                      str_Z (debit + credit) +:+ " (amounts mutated)"))
          else if negb (String.eqb (je_entry_type entry) (c_entry_type row)) then
            Ok (Some ("entry_type mismatch for " +:+ entry_id +:+ " (journal row mutated)"))
          else
          let* t1 := to_canonical_ts (je_produced_at entry) in
          let* t2 := to_canonical_ts (c_produced_at row) in
          if negb (String.eqb t1 t2) then
            Ok (Some ("produced_at mismatch for " +:+ entry_id +:+ " (journal row mutated)"))
          else
          let* recomputed := journal_entry_payload_hash entry postings in
          if negb (String.eqb recomputed (c_payload_hash row)) then
            Ok (Some ("payload_hash mismatch for " +:+ entry_id +:+
                      ": journal/posting content does not match the hash sealed into the chain"))
          else Ok None
      end
  end.

(** The signature checks of a checkpoint row: [None], or the early result. *)
Definition check_checkpoint_row (row : ChainEntryRow) (checked cps : Z) :
    option ChainVerificationResult :=
  match c_checkpoint_sig row, c_checkpoint_public_key_b64 row with
  | Some sig, Some pub =>
      if negb (str_in pub (cfg_trusted_keys cfg)) then
        Some (bad_sig (c_chain_index row)
          "checkpoint signed with an UNTRUSTED public key (forged checkpoint)" checked cps)
      else if negb (verify_checkpoint (c_chain_hash row) sig pub) then
        Some (bad_sig (c_chain_index row)
          "Ed25519 checkpoint signature verification failed" checked cps)
      else if negb (bool_decide (c_checkpoint_sequence_in_domain row =
                      Some (c_chain_index row / cfg_interval cfg))) then
        Some (broken (Some (c_chain_index row))
          "checkpoint_sequence_in_domain inconsistent with chain_index" checked cps)
      else None
  | _, _ => Some (bad_sig (c_chain_index row)
              "checkpoint row is missing signature or public key" checked cps)
  end.

(** The walk over the rows: an early result, or the counts reached. *)
Fixpoint verify_rows (s : Store) (chain_domain : string) (deep : bool)
    (rows : list ChainEntryRow) (expected_index : Z) (prev_hash : string)
    (checked cps : Z) : res exn (ChainVerificationResult + (Z * Z)) :=
  match rows with
  | [] => Ok (inr (checked, cps))
  | row :: rest =>
      if negb (c_chain_index row =? expected_index) then
        Ok (inl (broken (Some (c_chain_index row))
          ("chain gap: expected index " +:+ str_Z expected_index +:+ ", found " +:+
           str_Z (c_chain_index row) +:+ " (row deleted or reordered)") checked cps))
      else if negb (String.eqb (c_prev_chain_hash row) prev_hash) then
        Ok (inl (broken (Some (c_chain_index row))
          "prev_chain_hash does not match the preceding row's chain_hash" checked cps))
      else
      let* ts := to_canonical_ts (c_produced_at row) in
      let* expected_hash := compute_entry_hash prev_hash (c_chain_index row)
        (c_chain_domain row) (c_entry_type row) (c_payload_hash row)
        (c_payload_pointer row) (c_amount_minor_sum row) (c_producer row) ts in
      if negb (String.eqb expected_hash (c_chain_hash row)) then
        Ok (inl (broken (Some (c_chain_index row))
          "recomputed chain_hash does not match the stored chain_hash" checked cps))
      else
      let should_be_checkpoint :=
        (0 <? c_chain_index row) && (c_chain_index row mod cfg_interval cfg =? 0) in
      if negb (Bool.eqb should_be_checkpoint (c_is_checkpoint row)) then
        Ok (inl (broken (Some (c_chain_index row))
          "checkpoint placement violated (is_checkpoint flag tampered)" checked cps))
      else
      match (if c_is_checkpoint row then check_checkpoint_row row checked cps else None) with
      | Some r => Ok (inl r)
      | None =>
          let cps := if c_is_checkpoint row then cps + 1 else cps in
          let* detail :=
            if deep && String.eqb chain_domain MONEY_DOMAIN && (0 <? c_chain_index row)
            then _deep_verify_money_row s row else Ok None in
          match detail with
          | Some d => Ok (inl (broken (Some (c_chain_index row)) d checked cps))
          | None => verify_rows s chain_domain deep rest (expected_index + 1)
                      (c_chain_hash row) (checked + 1) cps
          end
      end
  end.

(** The cross-check of the signed summary rows. *)
Fixpoint verify_summaries (s : Store) (chain_domain : string) (cs : list CheckpointRow)
    (checked cps : Z) : option ChainVerificationResult :=
  match cs with
  | [] => None
  | cp :: rest =>
      if match max_chain_index s chain_domain with
         | None => true
         | Some max_index => max_index <? cp_chain_index_to cp
         end then
        Some (broken (Some (cp_chain_index_to cp))
          ("ledger_checkpoints references a chain index beyond the tip " +:+
           "(chain truncated below a signed checkpoint)") checked cps)
      else
      match get_chain_entry s chain_domain (cp_chain_index_to cp) with
      | None => Some (broken (Some (cp_chain_index_to cp))
          "checkpoint summary row has no matching checkpoint chain row" checked cps)
      | Some chain_row =>
          if negb (c_is_checkpoint chain_row) then
            Some (broken (Some (cp_chain_index_to cp))
              "checkpoint summary row has no matching checkpoint chain row" checked cps)
          else if negb (String.eqb (c_chain_hash chain_row) (cp_chain_hash_at_checkpoint cp)) ||
               negb (bool_decide (c_checkpoint_sig chain_row = Some (cp_checkpoint_sig cp))) then
            Some (broken (Some (cp_chain_index_to cp))
              "checkpoint summary row disagrees with the chain row (forged checkpoint)"
              checked cps)
          else if negb (str_in (cp_checkpoint_public_key_b64 cp) (cfg_trusted_keys cfg)) then
            Some (bad_sig (cp_chain_index_to cp)
              "checkpoint summary signed with an UNTRUSTED public key" checked cps)
          else if negb (verify_checkpoint (cp_chain_hash_at_checkpoint cp)
                          (cp_checkpoint_sig cp) (cp_checkpoint_public_key_b64 cp)) then
            Some (bad_sig (cp_chain_index_to cp)
              "checkpoint summary Ed25519 signature verification failed" checked cps)
          else verify_summaries s chain_domain rest checked cps
      end
  end.

Definition verify_completed (checked cps : Z) : ChainVerificationResult :=
  mk_ChainVerificationResult VERIFY_COMPLETED checked None cps None.

(** The empty range. *)
Definition verify_no_rows (s : Store) (chain_domain : string) (from_index : Z)
    (to_index : option Z) (deep : bool) : ChainVerificationResult :=
  match list_checkpoints s chain_domain, from_index =? 0 with
  | cp :: _, true =>
      broken (Some (cp_chain_index_to cp))
        "signed checkpoints exist but the chain is empty (chain truncated)" 0 0
  | _, _ =>
      match to_index with
      | Some t => broken (Some from_index)
          ("requested range [" +:+ str_Z from_index +:+ "," +:+ str_Z t +:+ "] is empty") 0 0
      | None =>
          if deep && String.eqb chain_domain MONEY_DOMAIN && (from_index =? 0) &&
             (0 <? count_journal_entries s)
          then broken (Some 0) (str_Z (count_journal_entries s) +:+
                 " journal entries exist but the chain is empty") 0 0
          else verify_completed 0 0
      end
  end.

Definition _verify_chain_inner (s : Store) (chain_domain : string) (from_index : Z)
    (to_index : option Z) (deep : bool) : res exn ChainVerificationResult :=
  let rows := iter_chain s chain_domain from_index to_index in
  let anchor :=
    if from_index =? 0 then Some GENESIS_PREV_HASH
    else c_chain_hash <$> get_chain_entry s chain_domain (from_index - 1) in
  match anchor with
  | None => Ok (broken (Some (from_index - 1)) "anchor row before from_index is missing" 0 0)
  | Some prev_hash =>
      if bool_decide (rows = []) then
        Ok (verify_no_rows s chain_domain from_index to_index deep)
      else
      let* w := verify_rows s chain_domain deep rows from_index prev_hash 0 0 in
      match w with
      | inl r => Ok r
      | inr (checked, cps) =>
          match verify_summaries s chain_domain (list_checkpoints s chain_domain) checked cps with
          | Some r => Ok r
          | None =>
              if deep && String.eqb chain_domain MONEY_DOMAIN && (from_index =? 0) &&
                 bool_decide (to_index = None) &&
                 negb (count_journal_entries s =? checked - 1) then
                Ok (broken None ("journal/chain count mismatch: " +:+
                      str_Z (count_journal_entries s) +:+ " journal entries vs " +:+
                      str_Z (checked - 1) +:+ " chain entries") checked cps)
              else Ok (verify_completed checked cps)
          end
      end
  end.

(** [verify_chain_status]: any exception becomes a failed status.  The detail
    keeps the exception's class name and not its message. *)
Definition verify_chain_status (s : Store) (chain_domain : string) (from_index : Z)
    (to_index : option Z) (deep : bool) : ChainVerificationResult :=
  match _verify_chain_inner s chain_domain from_index to_index deep with
  | Ok r => r
  | Err e => mk_ChainVerificationResult VERIFY_FAILED_ERROR 0 None 0 (Some (exn_name e))
  end.

(** [f"{x}"] of an [Optional]. *)
Definition py_opt (o : option string) : string := default "None" o.

Definition is_tamper (st : verify_status) : bool :=
  match st with
  | VERIFY_FAILED_BROKEN_CHAIN | VERIFY_FAILED_INVALID_CHECKPOINT_SIG => true
  | VERIFY_COMPLETED | VERIFY_FAILED_ERROR => false
  end.

(** [verify_chain]: the same result, engaging the write gate on tampering. *)
Definition verify_chain (s : Store) (chain_domain : string) (from_index : Z)
    (to_index : option Z) (deep : bool) (clock : datetime) :
    outcome ChainVerificationResult :=
  let result := verify_chain_status s chain_domain from_index to_index deep in
  if is_tamper (v_status result) then
    try* engaged_at := _now clock at s in
    (Ok result, engage_write_gate s
       ("CHAIN_TAMPER_DETECTED domain=" +:+ chain_domain +:+ " first_broken_index=" +:+
        py_opt (str_Z <$> v_first_broken_index result) +:+ " detail=" +:+
        py_opt (v_detail result)) engaged_at)
  else (Ok result, s).
End Service.
