(* ===== verification/LedgerCommit.v ===== *)
(** What a committed transaction does to the store: lemmas about [_apply],
    [_append_chain_entry] and [_append_journal_entry], used by the ledger
    invariant. *)
From S2P Require Import Prelude Exceptions DateTime Sha256 Canonical LedgerTypes LedgerStore HashChain LedgerService.
Open Scope Z_scope.

(** * Indices *)

Lemma zmax_None l : zmax l = None <-> l = [].
Proof. destruct l as [|x l]; simpl; [done|]. by destruct (zmax l). Qed.

Lemma zmax_Some l i : zmax l = Some i -> i ∈ l /\ forall j, j ∈ l -> j <= i.
Proof.
  revert i. induction l as [|x l IH]; intros i; simpl; [done|].
  destruct (zmax l) as [y|] eqn:Hy.
  - intros [= <-]. destruct (IH y eq_refl) as [Hin Hle]. split.
    + destruct (Z.max_spec x y) as [[_ ->]|[_ ->]]; [by right|by left].
    + intros j [->|Hj]%elem_of_cons; [lia|]. specialize (Hle j Hj). lia.
  - intros [= <-]. apply zmax_None in Hy as ->. split; [by left|].
    intros j ->%list_elem_of_singleton. lia.
Qed.

Lemma elem_of_keys {A} (m : gmap Z A) i : i ∈ keys m <-> is_Some (m !! i).
Proof.
  unfold keys. rewrite list_elem_of_fmap. split.
  - intros ([j x] & -> & Hin). exists x. by apply elem_of_map_to_list in Hin.
  - intros [x Hx]. exists (i, x). split; [done|]. by apply elem_of_map_to_list.
Qed.

(** A chain whose indices are exactly [0 .. n-1]. *)
Definition dense {A} (m : gmap Z A) (n : Z) : Prop :=
  0 <= n /\ forall i, is_Some (m !! i) <-> 0 <= i < n.

Lemma dense_zmax {A} (m : gmap Z A) n :
  dense m n -> zmax (keys m) = if n =? 0 then None else Some (n - 1).
Proof.
  intros [Hn Hd]. destruct (zmax (keys m)) as [i|] eqn:Hz.
  - apply zmax_Some in Hz as [Hin Hle]. apply elem_of_keys, Hd in Hin.
    assert (n - 1 <= i) by (apply Hle, elem_of_keys, Hd; lia).
    destruct (Z.eqb_spec n 0); [lia|]. f_equal. lia.
  - apply zmax_None in Hz. destruct (Z.eqb_spec n 0); [done|].
    assert (n - 1 ∈ keys m) as Hin by (apply elem_of_keys, Hd; lia).
    rewrite Hz in Hin. by apply not_elem_of_nil in Hin.
Qed.

Lemma dense_insert {A} (m : gmap Z A) n x : dense m n -> dense (<[n := x]> m) (n + 1).
Proof.
  intros [Hn Hd]. split; [lia|]. intros i. destruct (decide (i = n)) as [->|Hne].
  - rewrite lookup_insert_eq. split; [lia|eauto].
  - rewrite lookup_insert_ne by done. rewrite Hd. lia.
Qed.

Lemma dense_size {A} (m : gmap Z A) n : dense m n -> Z.of_nat (size m) = n.
Proof.
  intros [Hn Hd]. assert (dom m =@{gset Z} list_to_set (seqZ 0 n)) as Hdom.
  { apply set_eq. intros i. rewrite elem_of_dom, Hd, elem_of_list_to_set, elem_of_seqZ. lia. }
  rewrite <- size_dom, Hdom, size_list_to_set by apply NoDup_seqZ.
  rewrite length_seqZ. lia.
Qed.

(** * Committing chain rows *)

Lemma add_chain_rows_lookup l (m : gmap string (gmap Z ChainEntryRow)) d i :
  NoDup l.*1 ->
  default ∅ (fold_left add_chain_row l m !! d) !! i =
  staged_or ((list_to_map l : gmap (string * Z) ChainEntryRow) !! (d, i))
            (default ∅ (m !! d) !! i).
Proof.
  revert m. induction l as [|[[d' i'] r] l IH]; intros m Hnd; [done|].
  csimpl.
  apply NoDup_cons in Hnd as [Hnin Hnd]. rewrite IH by done. csimpl.
  destruct (decide ((d', i') = (d, i))) as [[= -> ->]|Hne].
  - rewrite lookup_insert_eq. rewrite (not_elem_of_list_to_map_1 l) by done.
    simpl. rewrite lookup_insert_eq. simpl. by rewrite lookup_insert_eq.
  - rewrite (lookup_insert_ne (list_to_map l)) by done. f_equal.
    destruct (decide (d' = d)) as [->|Hd].
    + rewrite lookup_insert_eq. simpl. rewrite lookup_insert_ne; [done|congruence].
    + by rewrite lookup_insert_ne.
Qed.

Lemma add_checkpoints_lookup l (m : gmap string (list CheckpointRow)) d :
  default [] (fold_left add_checkpoint l m !! d) =
  default [] (m !! d) ++ filter (fun c => cp_chain_domain c = d) l.
Proof.
  revert m. induction l as [|c l IH]; intros m; simpl; [by rewrite app_nil_r|].
  rewrite IH, filter_cons. unfold add_checkpoint. case_decide as Hd.
  - subst d. rewrite lookup_insert_eq. simpl. by rewrite <- app_assoc.
  - by rewrite lookup_insert_ne.
Qed.

(** * Committing postings *)

Definition delta_of (s : Store) (p : PostingRow) : Z :=
  match s_accounts s !! po_account_id p with
  | Some a => _normal_balance_delta (ac_account_type a) (po_side p) (po_amount_minor p)
  | None => 0
  end.

(** The balance change a posting makes to account [a]. *)
Definition delta_for (s : Store) (a : string) (p : PostingRow) : Z :=
  if bool_decide (po_account_id p = a) then delta_of s p else 0.

Lemma apply_posting_inv s p s' :
  apply_posting s p = Ok s' ->
  is_Some (s_accounts s !! po_account_id p) /\
  s' = mk_Store (s_accounts s) (s_journal s) (s_journal_by_idem s)
        (<[po_posting_id p := p]> (s_postings s))
        (<[po_entry_id p :=
             default [] (s_postings_by_entry s !! po_entry_id p) ++ [po_posting_id p]]>
           (s_postings_by_entry s))
        (s_chains s) (s_checkpoints s) (s_outbox s) (s_audit s) (s_holds s)
        (<[po_account_id p := default 0 (s_balances s !! po_account_id p) + delta_of s p]>
           (s_balances s))
        (s_gate_rows s) (s_entry_index_seq s) (s_audit_index_seq s).
Proof.
  unfold apply_posting, delta_of. destruct (s_accounts s !! _) eqn:Ha; [|done].
  intros [= <-]. split; [eauto|done].
Qed.

(** The rows [ps] of one entry [e], with fresh distinct ids, have been
    committed on top of [s]. *)
Record postings_committed (s : Store) (e : string) (ps : list PostingRow) (s' : Store) : Prop := {
  pc_accounts : s_accounts s' = s_accounts s;
  pc_journal : s_journal s' = s_journal s;
  pc_idem : s_journal_by_idem s' = s_journal_by_idem s;
  pc_chains : s_chains s' = s_chains s;
  pc_checkpoints : s_checkpoints s' = s_checkpoints s;
  pc_outbox : s_outbox s' = s_outbox s;
  pc_audit : s_audit s' = s_audit s;
  pc_holds : s_holds s' = s_holds s;
  pc_gates : s_gate_rows s' = s_gate_rows s;
  pc_new : forall p, p ∈ ps -> s_postings s' !! po_posting_id p = Some p;
  pc_old : forall k, k ∉ po_posting_id <$> ps -> s_postings s' !! k = s_postings s !! k;
  pc_sum : forall f, msum f (s_postings s') = msum f (s_postings s) + sumZ f ps;
  pc_entry : default [] (s_postings_by_entry s' !! e) =
    default [] (s_postings_by_entry s !! e) ++ (po_posting_id <$> ps);
  pc_other : forall e', e' <> e -> s_postings_by_entry s' !! e' = s_postings_by_entry s !! e';
  pc_balance : forall a, default 0 (s_balances s' !! a) =
    default 0 (s_balances s !! a) + sumZ (delta_for s a) ps
}.

Lemma rfold_apply_posting s e ps s' :
  rfold apply_posting s ps = Ok s' ->
  Forall (fun p => po_entry_id p = e) ps ->
  NoDup (po_posting_id <$> ps) ->
  (forall p, p ∈ ps -> s_postings s !! po_posting_id p = None) ->
  postings_committed s e ps s'.
Proof.
  revert s. induction ps as [|p ps IH]; intros s He Hent Hnd Hfresh; simpl in He.
  { injection He as <-.
    split; try done; simpl; intros; rewrite ?app_nil_r, ?Z.add_0_r; try done.
    by destruct (not_elem_of_nil p). }
  destruct (apply_posting s p) as [s1|] eqn:Ha; [|done]. cbn [rbind] in He.
  apply apply_posting_inv in Ha as [_ Hs1].
  apply Forall_cons in Hent as [Hp Hent]. csimpl in Hnd. apply NoDup_cons in Hnd as [Hnin Hnd].
  assert (Hf0 : s_postings s !! po_posting_id p = None) by (apply Hfresh; by left).
  assert (IH' : postings_committed s1 e ps s').
  { apply IH; [done..|]. intros q Hq. subst s1. simpl.
    rewrite lookup_insert_ne; [apply Hfresh; by right|].
    intros Heq. apply Hnin. rewrite Heq. by apply list_elem_of_fmap_2. }
  assert (Hdf : forall a q, delta_for s1 a q = delta_for s a q) by (by subst s1).
  destruct IH'. subst s1. simpl in *. split; try done.
  - intros q [->|Hq]%elem_of_cons; [|by apply pc_new0].
    by rewrite pc_old0, lookup_insert_eq.
  - intros k [Hk Hks]%not_elem_of_cons. by rewrite pc_old0, lookup_insert_ne by done.
  - intros f. rewrite pc_sum0, msum_insert by done. simpl. lia.
  - rewrite pc_entry0, Hp, lookup_insert_eq. simpl. by rewrite <- app_assoc.
  - intros e' Hne. rewrite pc_other0 by done. rewrite lookup_insert_ne; [done|congruence].
  - intros a. rewrite pc_balance0.
    rewrite (sumZ_ext (delta_for _ a) (delta_for s a) ps) by (intros; apply Hdf).
    simpl. unfold delta_for at 2. case_bool_decide as Ha.
    + subst a. rewrite lookup_insert_eq. simpl. lia.
    + rewrite lookup_insert_ne by done. simpl. lia.
Qed.

(** * The chains as a transaction sees them: committed rows under staged ones *)

Definition view_chain (s : Store) (tx : MemTx) (d : string) : gmap Z ChainEntryRow :=
  default ∅ (fold_left add_chain_row (map_to_list (t_chain tx)) (s_chains s) !! d).

Definition view_checkpoints (s : Store) (tx : MemTx) (d : string) : list CheckpointRow :=
  default [] (fold_left add_checkpoint (t_checkpoints tx) (s_checkpoints s) !! d).

Lemma view_chain_lookup s tx d i :
  view_chain s tx d !! i = staged_or (t_chain tx !! (d, i)) (chain_of s d !! i).
Proof.
  unfold view_chain, chain_of.
  rewrite add_chain_rows_lookup by apply NoDup_fst_map_to_list.
  by rewrite list_to_map_to_list.
Qed.

Lemma view_checkpoints_eq s tx d :
  view_checkpoints s tx d =
  checkpoints_of s d ++ filter (fun c => cp_chain_domain c = d) (t_checkpoints tx).
Proof. apply add_checkpoints_lookup. Qed.

Lemma view_chain_new s tx d : t_chain tx = ∅ -> view_chain s tx d = chain_of s d.
Proof. unfold view_chain. intros ->. by rewrite map_to_list_empty. Qed.

Lemma view_checkpoints_new s tx d :
  t_checkpoints tx = [] -> view_checkpoints s tx d = checkpoints_of s d.
Proof. unfold view_checkpoints. by intros ->. Qed.

Lemma zmax_app l1 l2 :
  zmax (l1 ++ l2) =
  match zmax l1, zmax l2 with
  | Some a, Some b => Some (Z.max a b)
  | Some a, None => Some a
  | None, b => b
  end.
Proof.
  induction l1 as [|x l1 IH]; simpl; [by destruct (zmax l2)|]. rewrite IH.
  destruct (zmax l1), (zmax l2); f_equal; lia.
Qed.

Lemma zmax_dense l n :
  0 <= n -> (forall i, i ∈ l <-> 0 <= i < n) ->
  zmax l = if n =? 0 then None else Some (n - 1).
Proof.
  intros Hn Hd. destruct (zmax l) as [i|] eqn:Hz.
  - apply zmax_Some in Hz as [Hin Hle]. apply Hd in Hin.
    assert (n - 1 <= i) by (apply Hle, Hd; lia).
    destruct (Z.eqb_spec n 0); [lia|]. f_equal. lia.
  - apply zmax_None in Hz as ->. destruct (Z.eqb_spec n 0); [done|].
    assert (n - 1 ∈ ([] : list Z)) as Hin by (apply Hd; lia).
    by apply not_elem_of_nil in Hin.
Qed.

Lemma elem_of_staged (m : gmap (string * Z) ChainEntryRow) d i :
  i ∈ (filter (fun k => k.1 = d) (map_to_list m).*1).*2 <-> is_Some (m !! (d, i)).
Proof.
  rewrite list_elem_of_fmap. split.
  - intros ([d' i'] & -> & [Hd Hin]%list_elem_of_filter). simpl in *. subst.
    apply list_elem_of_fmap in Hin as ([k r] & [= <-] & Hin).
    apply elem_of_map_to_list in Hin. eauto.
  - intros [r Hr]. exists (d, i). split; [done|]. apply list_elem_of_filter.
    split; [done|]. apply list_elem_of_fmap. exists ((d, i), r).
    split; [done|]. by apply elem_of_map_to_list.
Qed.

(** The locked tip is the last row of the dense view. *)
Lemma lock_chain_tip_view s tx d n :
  dense (view_chain s tx d) n ->
  lock_chain_tip s tx d =
  if n =? 0 then None
  else r ← view_chain s tx d !! (n - 1); Some (mk_ChainTip (c_chain_index r) (c_chain_hash r)).
Proof.
  intros [Hn Hd]. unfold lock_chain_tip. rewrite <- zmax_app.
  rewrite (zmax_dense _ n Hn).
  - destruct (n =? 0); [done|]. simpl. by rewrite view_chain_lookup.
  - intros i. rewrite <- Hd, elem_of_app, elem_of_staged, elem_of_keys, view_chain_lookup.
    unfold staged_or. destruct (t_chain tx !! (d, i)) as [r|]; split; eauto.
    by intros [[? ?]|?].
Qed.

(** * What the chain insertions stage *)

Definition with_chain (tx : MemTx) (chain : gmap (string * Z) ChainEntryRow)
    (cps : list CheckpointRow) : MemTx :=
  mk_MemTx (t_accounts tx) (t_journal tx) (t_journal_by_idem tx) (t_postings tx) chain cps
    (t_outbox tx) (t_audit tx) (t_holds tx) (t_gate_rows tx) (t_next_entry_index tx)
    (t_next_audit_index tx).

Lemma insert_chain_entry_inv s tx row tx' :
  insert_chain_entry s tx row = Ok tx' ->
  let k := (c_chain_domain row, c_chain_index row) in
  tx' = with_chain tx (<[k := row]> (t_chain tx)) (t_checkpoints tx) /\
  view_chain s tx (c_chain_domain row) !! c_chain_index row = None.
Proof.
  unfold insert_chain_entry. intros Hi. repeat res_step. subst tx'. split; [done|].
  rewrite view_chain_lookup. bool_prop.
  destruct (t_chain tx !! _); [by destruct H; eauto|]. simpl.
  destruct (chain_of _ _ !! _); [by destruct H0; eauto|done].
Qed.

Lemma view_chain_insert s tx cps d' i' row d :
  view_chain s (with_chain tx (<[(d', i') := row]> (t_chain tx)) cps) d =
  if decide (d' = d) then <[i' := row]> (view_chain s tx d) else view_chain s tx d.
Proof.
  apply map_eq. intros i. rewrite view_chain_lookup. simpl. case_decide as Hd.
  - subst d. destruct (decide (i' = i)) as [->|Hne].
    + by rewrite !lookup_insert_eq.
    + rewrite !lookup_insert_ne by congruence. by rewrite view_chain_lookup.
  - rewrite lookup_insert_ne by congruence. by rewrite view_chain_lookup.
Qed.

Lemma insert_checkpoint_inv s tx row tx' :
  insert_checkpoint s tx row = Ok tx' ->
  tx' = with_chain tx (t_chain tx) (t_checkpoints tx ++ [row]).
Proof. unfold insert_checkpoint. intros Hi. repeat res_step. by subst tx'. Qed.

Lemma view_checkpoints_insert s tx chain row d :
  view_checkpoints s (with_chain tx chain (t_checkpoints tx ++ [row])) d =
  view_checkpoints s tx d ++ (if decide (cp_chain_domain row = d) then [row] else []).
Proof.
  rewrite !view_checkpoints_eq. simpl. rewrite filter_app, app_assoc. f_equal.
Qed.

(** * Committing a transaction whose postings, if any, belong to entry [e] *)

Record committed (s : Store) (e : string) (tx : MemTx) (s' : Store) : Prop := {
  cm_accounts : s_accounts s' = t_accounts tx ∪ s_accounts s;
  cm_journal : s_journal s' = t_journal tx ∪ s_journal s;
  cm_idem : s_journal_by_idem s' = t_journal_by_idem tx ∪ s_journal_by_idem s;
  cm_new : forall p, p ∈ t_postings tx -> s_postings s' !! po_posting_id p = Some p;
  cm_old : forall k, k ∉ po_posting_id <$> t_postings tx ->
    s_postings s' !! k = s_postings s !! k;
  cm_sum : forall f, msum f (s_postings s') = msum f (s_postings s) + sumZ f (t_postings tx);
  cm_entry : default [] (s_postings_by_entry s' !! e) =
    default [] (s_postings_by_entry s !! e) ++ (po_posting_id <$> t_postings tx);
  cm_other : forall e', e' <> e -> s_postings_by_entry s' !! e' = s_postings_by_entry s !! e';
  cm_balance : forall a, default 0 (s_balances s' !! a) =
    default 0 (s_balances s !! a) + sumZ (delta_for s' a) (t_postings tx);
  cm_chain : forall d, chain_of s' d = view_chain s tx d;
  cm_checkpoints : forall d, checkpoints_of s' d = view_checkpoints s tx d;
  cm_outbox : s_outbox s' = t_outbox tx ∪ s_outbox s;
  cm_audit : s_audit s' = t_audit tx ∪ s_audit s;
  cm_holds : s_holds s' = t_holds tx ∪ s_holds s;
  cm_gates : s_gate_rows s' = s_gate_rows s ++ t_gate_rows tx;
  cm_seqs : s_entry_index_seq s' = t_next_entry_index tx - 1 /\
    s_audit_index_seq s' = t_next_audit_index tx - 1
}.

Lemma apply_committed s e tx s' :
  _apply s tx = Ok s' ->
  Forall (fun p => po_entry_id p = e) (t_postings tx) ->
  NoDup (po_posting_id <$> t_postings tx) ->
  (forall p, p ∈ t_postings tx -> s_postings s !! po_posting_id p = None) ->
  committed s e tx s'.
Proof.
  unfold _apply. intros Ha He Hnd Hfr. res_step; [|done]. simplify_eq.
  eapply rfold_apply_posting in E as []; try done. simpl in *. split; simpl; try done.
  - intros a'. rewrite pc_balance0. f_equal. apply sumZ_ext. intros p _.
    unfold delta_for, delta_of. simpl. by rewrite pc_accounts0.
  - intros d. unfold chain_of. simpl. by rewrite pc_chains0.
  - intros d. unfold checkpoints_of. simpl. by rewrite pc_checkpoints0.
  - by rewrite pc_outbox0.
  - by rewrite pc_audit0.
  - by rewrite pc_holds0.
  - by rewrite pc_gates0.
Qed.

(** A call either leaves the store as it was and raises, or commits. *)
Lemma transaction_cases {A} s (body : MemTx -> res exn (A * MemTx)) r s' :
  transaction s body = (r, s') ->
  (exists err, r = Err err /\ s' = s) \/
  (exists a tx, r = Ok a /\ body (new_tx s) = Ok (a, tx) /\ _apply s tx = Ok s').
Proof.
  unfold transaction. intros Ht.
  destruct (body (new_tx s)) as [[a tx]|err]; [|by left; simplify_eq; eauto].
  destruct (_deferred_balance_check s tx); [|by left; simplify_eq/=; eauto].
  simpl in Ht. destruct (_apply s tx) eqn:Ha; simplify_eq; [right|left]; eauto 10.
Qed.
