(* ===== verification/ChainInvariant.v ===== *)
(** The hash chain of one domain: what a well-formed chain is, and that the
    two operations that extend it ([_insert_genesis] and [_append_chain_entry]
    of src/bdpay/ledger/service.py) keep it well formed. *)
From S2P Require Import Prelude Exceptions DateTime Sha256 Canonical LedgerTypes LedgerStore HashChain LedgerService LedgerCommit.
Open Scope Z_scope.

Section Chain.
Context `{HashFn} `{CheckpointSigner} (cfg : LedgerCfg).

(** The stored hash is the hash of the stored fields. *)
Definition row_hashed (r : ChainEntryRow) : Prop :=
  exists ts, to_canonical_ts (c_produced_at r) = Ok ts /\
    compute_entry_hash (c_prev_chain_hash r) (c_chain_index r) (c_chain_domain r)
      (c_entry_type r) (c_payload_hash r) (c_payload_pointer r) (c_amount_minor_sum r)
      (c_producer r) ts = Ok (c_chain_hash r).

(** A row is a checkpoint exactly at the positive multiples of the interval,
    and then carries the service's own signature. *)
Definition row_checkpointed (i : Z) (r : ChainEntryRow) : Prop :=
  c_is_checkpoint r = ((0 <? i) && (i mod cfg_interval cfg =? 0)) /\
  (c_is_checkpoint r = true ->
     c_checkpoint_sequence_in_domain r = Some (i / cfg_interval cfg) /\
     c_checkpoint_sig r = Some (sign (c_chain_hash r)).1 /\
     c_checkpoint_public_key_b64 r = Some public_key_b64).

Record row_ok (d : string) (i : Z) (r : ChainEntryRow) : Prop := {
  ro_domain : c_chain_domain r = d;
  ro_index : c_chain_index r = i;
  ro_hashed : row_hashed r;
  ro_checkpoint : row_checkpointed i r
}.

(** A checkpoint summary row repeats its chain row. *)
Definition summary_ok (d : string) (ch : gmap Z ChainEntryRow) (c : CheckpointRow) : Prop :=
  cp_chain_domain c = d /\
  cp_checkpoint_sequence_in_domain c = cp_chain_index_to c / cfg_interval cfg /\
  cp_chain_index_to c mod cfg_interval cfg = 0 /\
  exists r, ch !! cp_chain_index_to c = Some r /\ c_is_checkpoint r = true /\
    cp_chain_hash_at_checkpoint c = c_chain_hash r /\
    Some (cp_checkpoint_sig c) = c_checkpoint_sig r /\
    Some (cp_checkpoint_public_key_b64 c) = c_checkpoint_public_key_b64 r.

(** [n] rows, indexed without gaps, hashed, linked and checkpointed. *)
Record chain_ok (d : string) (ch : gmap Z ChainEntryRow) (cps : list CheckpointRow)
    (n : Z) : Prop := {
  co_dense : dense ch n;
  co_rows : forall i r, ch !! i = Some r -> row_ok d i r;
  co_genesis : forall r, ch !! 0 = Some r ->
    c_prev_chain_hash r = GENESIS_PREV_HASH /\ c_entry_type r = GENESIS_ENTRY_TYPE;
  co_linked : forall i p r, ch !! i = Some p -> ch !! (i + 1) = Some r ->
    c_prev_chain_hash r = c_chain_hash p;
  co_summaries : forall c, c ∈ cps -> summary_ok d ch c
}.

Lemma chain_ok_empty d : chain_ok d ∅ [] 0.
Proof.
  split; try (intros *; rewrite lookup_empty; done).
  - split; [lia|]. intros i. rewrite lookup_empty. split; [by intros [??]|lia].
  - by intros c Hc%not_elem_of_nil.
Qed.

Lemma summary_ok_insert d ch c n r :
  ch !! n = None -> summary_ok d ch c -> summary_ok d (<[n := r]> ch) c.
Proof.
  intros Hn (Hd & Hs & Hm & r' & Hr & Hrest). repeat split; try done.
  exists r'. split; [|done]. rewrite lookup_insert_ne; [done|congruence].
Qed.

(** Extending a well-formed chain by one row. *)
Lemma chain_ok_extend d ch cps n r cps' :
  chain_ok d ch cps n ->
  row_ok d n r ->
  (n = 0 -> c_prev_chain_hash r = GENESIS_PREV_HASH /\ c_entry_type r = GENESIS_ENTRY_TYPE) ->
  (forall p, ch !! (n - 1) = Some p -> c_prev_chain_hash r = c_chain_hash p) ->
  (forall c, c ∈ cps' -> summary_ok d (<[n := r]> ch) c) ->
  chain_ok d (<[n := r]> ch) (cps ++ cps') (n + 1).
Proof.
  intros [Hd Hr Hg Hl Hs] Hrow Hgen Hprev Hcps.
  assert (Hnone : forall i, n <= i -> ch !! i = None).
  { intros i Hi. destruct (ch !! i) eqn:E; [|done].
    assert (is_Some (ch !! i)) as Hin%Hd by eauto. lia. }
  split.
  - by apply dense_insert.
  - intros i r' [[<- <-]|[_ ?]]%lookup_insert_Some; [done|by apply Hr].
  - intros r' [[-> <-]|[_ ?]]%lookup_insert_Some; [by apply Hgen|by apply Hg].
  - intros i p r' [[<- <-]|[Hni Hp]]%lookup_insert_Some [[Heq <-]|[_ Hr']]%lookup_insert_Some.
    + lia.
    + rewrite Hnone in Hr' by lia. done.
    + apply Hprev. by replace (n - 1) with i by lia.
    + by eapply Hl.
  - intros c [Hc|Hc]%elem_of_app; [|by apply Hcps].
    apply summary_ok_insert; [apply Hnone; lia|by apply Hs].
Qed.

(** * _insert_genesis *)

Lemma insert_genesis_inv s tx d t row tx' :
  _insert_genesis cfg s tx d t = Ok (row, tx') ->
  tx' = with_chain tx (<[(d, 0) := row]> (t_chain tx)) (t_checkpoints tx) /\
  row_ok d 0 row /\ c_prev_chain_hash row = GENESIS_PREV_HASH /\
  c_entry_type row = GENESIS_ENTRY_TYPE.
Proof.
  unfold _insert_genesis. intros Hg. inv_res.
  apply insert_chain_entry_inv in E1 as [-> _]. split; [done|].
  split; [|done]. split; try done. eexists; eauto.
Qed.

Lemma insert_genesis_ok s tx d t row tx' :
  _insert_genesis cfg s tx d t = Ok (row, tx') ->
  chain_ok d (view_chain s tx d) (view_checkpoints s tx d) 0 ->
  chain_ok d (view_chain s tx' d) (view_checkpoints s tx' d) 1 /\
  view_chain s tx' d !! 0 = Some row.
Proof.
  intros (-> & Hrow & Hp & Het)%insert_genesis_inv Hok.
  rewrite view_chain_insert, decide_True by done. split; [|apply lookup_insert_eq].
  change (view_checkpoints s (with_chain _ _ _) d) with (view_checkpoints s tx d).
  rewrite <- (app_nil_r (view_checkpoints s tx d)).
  apply (chain_ok_extend _ _ _ 0); try done.
  - intros p Hp'. destruct (co_dense _ _ _ _ Hok) as [_ Hdn].
    assert (is_Some (view_chain s tx d !! (0 - 1))) as Hin%Hdn by eauto. lia.
  - by intros c Hc%not_elem_of_nil.
Qed.

(** * _append_chain_entry *)

(** Between [tx] and [tx'] only chain rows of domain [d] were staged, and the
    first [n] rows of its view stayed. *)
Record only_chain (s : Store) (d : string) (n : Z) (tx tx' : MemTx) : Prop := {
  oc_tx : tx' = with_chain tx (t_chain tx') (t_checkpoints tx');
  oc_old : forall i, i < n -> view_chain s tx' d !! i = view_chain s tx d !! i;
  oc_other : forall d', d' <> d -> view_chain s tx' d' = view_chain s tx d' /\
    view_checkpoints s tx' d' = view_checkpoints s tx d'
}.

Lemma only_chain_refl s d n tx : only_chain s d n tx tx.
Proof. split; try done. by destruct tx. Qed.

Lemma only_chain_trans s d n m tx1 tx2 tx3 :
  n <= m -> only_chain s d n tx1 tx2 -> only_chain s d m tx2 tx3 -> only_chain s d n tx1 tx3.
Proof.
  intros Hnm [Ht1 Ho1 Hd1] [Ht2 Ho2 Hd2]. split.
  - rewrite Ht2, Ht1. done.
  - intros i Hi. rewrite Ho2 by lia. by apply Ho1.
  - intros d' Hd'. destruct (Hd1 d' Hd') as [<- <-]. by apply Hd2.
Qed.

Lemma only_chain_insert s d n tx row :
  only_chain s d n tx (with_chain tx (<[(d, n) := row]> (t_chain tx)) (t_checkpoints tx)).
Proof.
  split; [done|..].
  - intros i Hi. rewrite view_chain_insert, decide_True by done.
    apply lookup_insert_ne. lia.
  - intros d' Hd. by rewrite view_chain_insert, decide_False by congruence.
Qed.

(** The tip the next row links to, creating the genesis row if needed. *)
Lemma tip_or_genesis_ok s tx d t n pi ph tx' :
  match lock_chain_tip s tx d with
  | None => let* (genesis, tx) := _insert_genesis cfg s tx d t in
            Ok (c_chain_index genesis, c_chain_hash genesis, tx)
  | Some tip => Ok (tip_chain_index tip, tip_chain_hash tip, tx)
  end = Ok (pi, ph, tx') ->
  chain_ok d (view_chain s tx d) (view_checkpoints s tx d) n ->
  chain_ok d (view_chain s tx' d) (view_checkpoints s tx' d) (pi + 1) /\
  pi + 1 = Z.max n 1 /\
  (exists p, view_chain s tx' d !! pi = Some p /\ c_chain_hash p = ph) /\
  only_chain s d n tx tx'.
Proof.
  intros Ht Hok. pose proof (co_dense _ _ _ _ Hok) as Hd.
  rewrite (lock_chain_tip_view _ _ _ n Hd) in Ht. destruct (Z.eqb_spec n 0) as [->|Hn].
  - destruct (_insert_genesis _ _ _ _ _) as [[g tx1]|] eqn:Hg; [|done]. simplify_eq/=.
    destruct (insert_genesis_ok _ _ _ _ _ _ Hg Hok) as [Hok' Hl].
    apply insert_genesis_inv in Hg as (-> & Hrow & _). rewrite (ro_index _ _ _ Hrow).
    split_and!; [done|done|by eauto|]. by apply only_chain_insert.
  - destruct Hd as [Hn0 Hd]. destruct (view_chain s tx d !! (n - 1)) as [p|] eqn:Hp; simplify_eq/=.
    + rewrite (ro_index _ _ _ (co_rows _ _ _ _ Hok _ _ Hp)).
      replace (n - 1 + 1) with n by lia. split_and!; [done|lia|by eauto|].
      apply only_chain_refl.
    + assert (is_Some (view_chain s tx d !! (n - 1))) as [? ?] by (apply Hd; lia). congruence.
Qed.

(** Staging the row at index [i] and its checkpoint summary, if it has one. *)
Lemma append_row_ok s tx d i row cps p :
  0 < i ->
  chain_ok d (view_chain s tx d) (view_checkpoints s tx d) i ->
  row_ok d i row ->
  view_chain s tx d !! (i - 1) = Some p -> c_prev_chain_hash row = c_chain_hash p ->
  (forall c, c ∈ cps -> cp_chain_domain c = d /\ summary_ok d {[i := row]} c) ->
  let tx' := with_chain tx (<[(d, i) := row]> (t_chain tx)) (t_checkpoints tx ++ cps) in
  chain_ok d (view_chain s tx' d) (view_checkpoints s tx' d) (i + 1) /\
  only_chain s d i tx tx' /\ view_chain s tx' d !! i = Some row.
Proof.
  intros Hi Hok Hrow Hp Hprev Hcps tx'. subst tx'.
  assert (Hall : forall d', filter (fun c => cp_chain_domain c = d') cps =
                 if decide (d = d') then cps else []).
  { intros d'. clear -Hcps. induction cps as [|c cps IH]; [by case_decide|].
    rewrite filter_cons, IH by (intros; apply Hcps; by right).
    rewrite (proj1 (Hcps c ltac:(by left))). by case_decide. }
  assert (Hvc : forall d' chain, view_checkpoints s (with_chain tx chain (t_checkpoints tx ++ cps)) d' =
                view_checkpoints s tx d' ++ if decide (d = d') then cps else []).
  { intros d' chain. rewrite !view_checkpoints_eq. simpl.
    by rewrite filter_app, Hall, app_assoc. }
  split_and!.
  - rewrite Hvc, view_chain_insert, !decide_True by done. apply chain_ok_extend; try done.
    + lia.
    + intros q Hq. congruence.
    + intros c Hc. destruct (Hcps c Hc) as [_ (? & ? & ? & r & Hr & Hrest)].
      apply lookup_singleton_Some in Hr as [Heq <-].
      split_and!; try done. exists row. rewrite <- Heq. by rewrite lookup_insert_eq.
  - destruct (only_chain_insert s d i tx row) as [_ Hold Hoth]. split; [done|done|].
    intros d' Hd. destruct (Hoth d' Hd) as [<- _]. split; [done|].
    by rewrite Hvc, decide_False, app_nil_r by congruence.
  - by rewrite view_chain_insert, decide_True, lookup_insert_eq.
Qed.

Lemma append_chain_entry_ok s tx d et ph pp amt t n i h prev tx' :
  _append_chain_entry cfg s tx d et ph pp amt t = Ok ((i, h, prev), tx') ->
  0 < cfg_interval cfg ->
  chain_ok d (view_chain s tx d) (view_checkpoints s tx d) n ->
  i = Z.max n 1 /\
  chain_ok d (view_chain s tx' d) (view_checkpoints s tx' d) (i + 1) /\
  only_chain s d n tx tx' /\
  exists r, view_chain s tx' d !! i = Some r /\ c_entry_type r = et /\
    c_payload_hash r = ph /\ c_payload_pointer r = pp /\ c_amount_minor_sum r = amt /\
    c_produced_at r = t /\ c_chain_hash r = h /\ c_prev_chain_hash r = prev.
Proof.
  unfold _append_chain_entry. intros Ha Hint Hok.
  res_step; [|done]. destruct a as [[pi phash] tx1].
  destruct (tip_or_genesis_ok _ _ _ _ _ _ _ _ E Hok) as (Hok1 & Hpi & (p & Hp & Hph) & Hoc).
  clear E. do 2 (res_step; [|done]).
  pose proof (sign_public_key a0) as Hpub. destruct (sign a0) as [sig pub] eqn:Hs.
  simpl in Hpub. subst pub. res_step; [|done]. res_step; [|done]. simplify_eq.
  apply insert_chain_entry_inv in E1 as [-> _].
  cbn [c_chain_domain c_chain_index] in E2.
  match type of E2 with context [<[(_, _) := ?r]> _] => set (row := r) in * end.
  assert (Hrow : row_ok d (pi + 1) row).
  { split; [done..| |].
    - exists a. done.
    - assert ((0 <? pi + 1) = true) as Hpos by (apply Z.ltb_lt; lia).
      split; simpl; [by rewrite Hpos|].
      intros Hc. rewrite Hc, Hs. done. }
  assert (Hstep : exists cps, tx' = with_chain tx1 (<[(d, pi + 1) := row]> (t_chain tx1))
      (t_checkpoints tx1 ++ cps) /\
      forall c, c ∈ cps -> cp_chain_domain c = d /\ summary_ok d {[pi + 1 := row]} c).
  { destruct ((pi + 1) mod _ =? 0) eqn:Hcp in E2.
    - res_step; [|done]. apply insert_checkpoint_inv in E2 as ->. eexists [_].
      split; [done|]. intros c ->%list_elem_of_singleton. split; [done|].
      split_and!; try done; [by apply Z.eqb_eq|].
      exists row. rewrite lookup_singleton_eq. simpl. by rewrite Hcp.
    - simplify_eq. exists []. rewrite app_nil_r. split; [done|].
      by intros c Hc%not_elem_of_nil. }
  destruct Hstep as (cps & -> & Hcps).
  destruct (append_row_ok s tx1 d (pi + 1) row cps p) as (Hok2 & Hoc2 & Hl2);
    [lia|done|done|by replace (pi + 1 - 1) with pi by lia|done|done|].
  split; [done|]. split; [done|]. split; [|by exists row].
  eapply only_chain_trans; [|exact Hoc|exact Hoc2]. lia.
Qed.

(** The summary row of a checkpoint comes with the chain row it signs. *)
Lemma append_chain_entry_summary s tx d et ph pp amt t i h prev tx' :
  _append_chain_entry cfg s tx d et ph pp amt t = Ok ((i, h, prev), tx') ->
  if i mod cfg_interval cfg =? 0
  then exists c, t_checkpoints tx' = t_checkpoints tx ++ [c] /\ cp_chain_domain c = d /\
         cp_chain_index_to c = i /\ cp_chain_hash_at_checkpoint c = h
  else t_checkpoints tx' = t_checkpoints tx.
Proof.
  unfold _append_chain_entry. intros Ha. res_step; [|done]. destruct a as [[pi phash] tx1].
  assert (Htx1 : t_checkpoints tx1 = t_checkpoints tx).
  { clear Ha. destruct (lock_chain_tip s tx d); simplify_eq; [done|].
    inv_res. by apply insert_genesis_inv in E0 as [-> _]. }
  clear E. inv_res. apply insert_chain_entry_inv in E1 as [-> _].
  case_match; inv_res; [|done]. apply insert_checkpoint_inv in E2 as ->. cbn [t_checkpoints with_chain].
  rewrite Htx1. by eexists.
Qed.

(** Whatever the chain, an append stages nothing else. *)
Lemma append_chain_entry_tx s tx d et ph pp amt t r tx' :
  _append_chain_entry cfg s tx d et ph pp amt t = Ok (r, tx') ->
  tx' = with_chain tx (t_chain tx') (t_checkpoints tx').
Proof.
  unfold _append_chain_entry. intros Ha. res_step; [|done]. destruct a as [[pi phash] tx1].
  assert (Htx1 : tx1 = with_chain tx (t_chain tx1) (t_checkpoints tx1)).
  { clear Ha. destruct (lock_chain_tip s tx d); simplify_eq; [by destruct tx1|].
    inv_res. by apply insert_genesis_inv in E0 as [-> _]. }
  clear E. inv_res. apply insert_chain_entry_inv in E1 as [-> _].
  case_match; inv_res; [apply insert_checkpoint_inv in E2 as ->|]; by rewrite Htx1.
Qed.
End Chain.
