(* ===== verification/JournalCommit.v ===== *)
(** What [_append_journal_entry] (src/bdpay/ledger/service.py) stages on a fresh
    transaction, and what committing it does to the store. *)
From S2P Require Import Prelude Exceptions DateTime Sha256 Canonical LedgerTypes LedgerStore HashChain LedgerService LedgerCommit ChainInvariant.
Open Scope Z_scope.

Definition with_postings (tx : MemTx) (ps : list PostingRow) : MemTx :=
  mk_MemTx (t_accounts tx) (t_journal tx) (t_journal_by_idem tx) ps (t_chain tx)
    (t_checkpoints tx) (t_outbox tx) (t_audit tx) (t_holds tx) (t_gate_rows tx)
    (t_next_entry_index tx) (t_next_audit_index tx).

(** A posting row the store accepts. *)
Record posting_ok (p : PostingRow) : Prop := {
  pk_side : str_in (po_side p) SIDES = true;
  pk_amount : 0 < po_amount_minor p;
  pk_currency : po_currency p = "BDT"%string
}.

(** The row made from a posting of the spec. *)
Definition row_from (e : string) (t : datetime) (sp : PostingSpec) (p : PostingRow) : Prop :=
  po_entry_id p = e /\ po_account_id p = ps_account_id sp /\ po_side p = ps_side sp /\
  po_amount_minor p = ps_amount_minor sp /\ po_currency p = ps_currency sp /\
  po_produced_at p = t.

Lemma is_debit_cases p :
  str_in (po_side p) SIDES = true -> po_side p = "DEBIT"%string \/ po_side p = "CREDIT"%string.
Proof.
  unfold str_in, SIDES. rewrite bool_decide_eq_true, !elem_of_cons.
  intros [?|[?|?%not_elem_of_nil]]; auto. done.
Qed.

Section Journal.
Context `{HashFn} `{CheckpointSigner} (cfg : LedgerCfg).

Lemma insert_posting_inv s tx row tx' :
  insert_posting s tx row = Ok tx' ->
  tx' = with_postings tx (t_postings tx ++ [row]) /\ posting_ok row /\
  is_Some (tx_get_account s tx (po_account_id row)) /\
  ~ (po_posting_id row ∈ po_posting_id <$> t_postings tx) /\
  s_postings s !! po_posting_id row = None.
Proof.
  unfold insert_posting, posting_id_taken. intros Hi. repeat res_step. bool_prop. subst tx'.
  split_and!; try done.
  destruct (s_postings s !! _); [|done]. by destruct H2; eauto.
Qed.

(** The rows staged by the posting loop. *)
Record postings_staged (s : Store) (tx : MemTx) (e : string) (t : datetime)
    (ps : list PostingSpec) (rows : list PostingRow) : Prop := {
  pg_rows : Forall2 (row_from e t) ps rows;
  pg_ok : Forall posting_ok rows;
  pg_accounts : Forall (fun p => is_Some (tx_get_account s tx (po_account_id p))) rows;
  pg_fresh : Forall (fun p => s_postings s !! po_posting_id p = None) rows;
  pg_nodup : NoDup (po_posting_id <$> t_postings tx) ->
             NoDup (po_posting_id <$> t_postings tx ++ rows)
}.

Lemma insert_postings_inv s tx e t k ps rows tx' :
  insert_postings s tx e t k ps = Ok (rows, tx') ->
  tx' = with_postings tx (t_postings tx ++ rows) /\ postings_staged s tx e t ps rows.
Proof.
  revert tx k rows. induction ps as [|sp ps IH]; intros tx k rows Hi; cbn [insert_postings] in Hi.
  { simplify_eq. rewrite app_nil_r. split; [by destruct tx'|].
    split; try constructor. by rewrite app_nil_r. }
  unfold make_posting_row in Hi. inv_res.
  apply insert_posting_inv in E0 as (-> & Hok & Hacc & Hnin & Hfr).
  apply IH in E1 as (-> & [Hr Ho Ha Hf Hn]). simpl in *. rewrite <- app_assoc in *.
  split; [done|]. split; [by constructor|by constructor|by constructor|by constructor|].
  intros Hnd. apply Hn. rewrite fmap_app. apply NoDup_app.
  split_and!; [done| |apply NoDup_singleton]. by intros x Hx ->%list_elem_of_singleton.
Qed.

Lemma validate_posting_fold ps d c d' c' :
  rfold validate_posting (d, c) ps = Ok (d', c') ->
  forall e t rows, Forall2 (row_from e t) ps rows ->
  d' = d + sumZ debit_of rows /\ c' = c + sumZ credit_of rows.
Proof.
  revert d c. induction ps as [|p ps IH]; intros d c Hv e t rows Hr.
  { inversion Hr. simplify_eq/=. lia. }
  apply Forall2_cons_inv_l in Hr as (row & rows' & Hrow & Hr & ->).
  cbn [rfold] in Hv. unfold validate_posting at 1, _require_amount_minor in Hv. inv_res.
  destruct Hrow as (_ & _ & Hside & Hamt & _). simpl.
  unfold debit_of at 1, credit_of at 1, is_debit. rewrite Hside, Hamt.
  case_bool_decide; eapply IH in Hv as [-> ->]; eauto; simpl; lia.
Qed.

Lemma validate_posting_lower ps acc r :
  rfold validate_posting acc ps = Ok r -> Forall (fun p => 0 < ps_amount_minor p) ps.
Proof.
  revert acc. induction ps as [|p ps IH]; intros acc Hv; [constructor|].
  cbn [rfold] in Hv. unfold validate_posting at 1, _require_amount_minor in Hv. inv_res.
  bool_prop. constructor; [done|by eapply IH].
Qed.

(** A validated spec has at least two postings, and the rows made from it
    balance. *)
Lemma validate_entry_spec_inv spec :
  _validate_entry_spec spec = Ok tt ->
  js_idempotency_key spec <> ""%string /\
  (2 <= length (js_postings spec))%nat /\
  forall e t rows, Forall2 (row_from e t) (js_postings spec) rows ->
    sumZ debit_of rows = sumZ credit_of rows.
Proof.
  unfold _validate_entry_spec. intros Hv. inv_res. destruct a as [d c].
  bool_prop. simpl in *. subst. split_and!.
  - by destruct (js_idempotency_key spec).
  - apply Nat.ltb_ge in G5. lia.
  - intros e t rows Hr. eapply validate_posting_fold in E as [? ?]; eauto; lia.
Qed.

Lemma check_accounts_inv s tx ids :
  check_accounts s tx ids = Ok tt ->
  Forall (fun a => account_unusable s tx a = false) ids.
Proof.
  unfold check_accounts. induction ids as [|a ids IH]; [constructor|].
  cbn [rfold]. intros Hc. inv_res. constructor; auto.
Qed.

Definition open_account (s : Store) (a : string) : Prop :=
  exists row, s_accounts s !! a = Some row /\ ac_closed_at row = None.

Lemma account_usable s tx a :
  t_accounts tx = ∅ -> account_unusable s tx a = false -> open_account s a.
Proof.
  unfold account_unusable, tx_get_account, open_account. intros ->. rewrite lookup_empty.
  simpl. destruct (s_accounts s !! a) as [row|]; [|done].
  destruct (ac_closed_at row) eqn:Hc; [done|]. eauto.
Qed.

(** The journal row of a spec. *)
Definition entry_row (s : Store) (spec : JournalEntrySpec) (t : datetime) (id : string) :
    JournalEntryRow :=
  mk_JournalEntryRow id (s_entry_index_seq s + 1) (js_reference_id spec)
    (js_reference_type spec) (js_entry_type spec) (js_description spec)
    (js_produced_by spec) t (js_idempotency_key spec) 1.

Definition entry_id_of (spec : JournalEntrySpec) : res exn string :=
  make_id "je"
    (dict [("reference_id", PStr (js_reference_id spec));
           ("entry_type", PStr (js_entry_type spec));
           ("idempotency_key", PStr (js_idempotency_key spec))]).

Definition posted_event_id (id : string) : res exn string :=
  make_id "obx" (dict [("type", PStr "journal_entry.posted"); ("subject_id", PStr id)]).

(** The outbox row of a posted entry. *)
Definition posted_row (spec : JournalEntrySpec) (t : datetime) (id : string) (total : Z) :
    res exn OutboxRow :=
  let* event_id := posted_event_id id in
  let* ts := to_canonical_ts t in
  let* payload_json := canonical_json (posted_envelope cfg event_id ts id spec total) in
  Ok (mk_OutboxRow event_id "payment.events" "journal_entry.posted" "JournalEntry" id
        payload_json (cfg_producer cfg) t false 1).

(** The rows the posting loop makes, from ordinal [k] on. *)
Fixpoint posting_rows (id : string) (t : datetime) (k : nat) (ps : list PostingSpec) :
    res exn (list PostingRow) :=
  match ps with
  | [] => Ok []
  | p :: rest =>
      let* row := make_posting_row id t k p in
      let* rows := posting_rows id t (S k) rest in
      Ok (row :: rows)
  end.

Lemma insert_postings_rows s tx id t k ps rows tx' :
  insert_postings s tx id t k ps = Ok (rows, tx') -> posting_rows id t k ps = Ok rows.
Proof.
  revert tx k rows. induction ps as [|p ps IH]; intros tx k rows Hi; cbn [insert_postings] in Hi.
  - by simplify_eq.
  - cbn [posting_rows]. destruct (make_posting_row id t k p); [|done]. cbn [rbind] in *.
    inv_res. by erewrite IH.
Qed.

(** What posting [spec] at time [t] on a fresh transaction requires of the
    store and stages. *)
Record journal_staged (s : Store) (spec : JournalEntrySpec) (t : datetime) (id : string)
    (rows : list PostingRow) (tx : MemTx) : Prop := {
  jg_valid : _validate_entry_spec spec = Ok tt;
  jg_id : entry_id_of spec = Ok id;
  jg_gate : wg_engaged (write_gate_state s) = false;
  jg_new_key : s_journal_by_idem s !! js_idempotency_key spec = None;
  jg_new_id : s_journal s !! id = None;
  jg_accounts : Forall (open_account s) (ps_account_id <$> js_postings spec);
  jg_made : posting_rows id t 0 (js_postings spec) = Ok rows;
  jg_rows : postings_staged s (new_tx s) id t (js_postings spec) rows;
  jg_t_accounts : t_accounts tx = ∅;
  jg_t_journal : t_journal tx = {[ id := entry_row s spec t id ]};
  jg_t_idem : t_journal_by_idem tx = {[ js_idempotency_key spec := id ]};
  jg_t_postings : t_postings tx = rows;
  jg_t_audit : t_audit tx = ∅;
  jg_t_holds : t_holds tx = ∅;
  jg_t_gates : t_gate_rows tx = [];
  jg_t_outbox : exists o, t_outbox tx = {[ ob_event_id o := o ]} /\
    s_outbox s !! ob_event_id o = None /\ posted_event_id id = Ok (ob_event_id o) /\
    posted_row spec t id (sumZ po_amount_minor rows) = Ok o;
  jg_t_seqs : t_next_entry_index tx = s_entry_index_seq s + 1 + 1 /\
    t_next_audit_index tx = s_audit_index_seq s + 1;
  jg_summary : forall n, 0 < cfg_interval cfg ->
    chain_ok cfg MONEY_DOMAIN (chain_of s MONEY_DOMAIN) (checkpoints_of s MONEY_DOMAIN) n ->
    if Z.max n 1 mod cfg_interval cfg =? 0
    then exists c, t_checkpoints tx = [c] /\ cp_chain_domain c = MONEY_DOMAIN /\
           cp_chain_index_to c = Z.max n 1
    else t_checkpoints tx = [];
  jg_chain : forall n, 0 < cfg_interval cfg ->
    chain_ok cfg MONEY_DOMAIN (chain_of s MONEY_DOMAIN) (checkpoints_of s MONEY_DOMAIN) n ->
    let i := Z.max n 1 in
    chain_ok cfg MONEY_DOMAIN (view_chain s tx MONEY_DOMAIN)
      (view_checkpoints s tx MONEY_DOMAIN) (i + 1) /\
    only_chain s MONEY_DOMAIN n (new_tx s) (with_chain (new_tx s) (t_chain tx) (t_checkpoints tx)) /\
    exists r ph pp, view_chain s tx MONEY_DOMAIN !! i = Some r /\
      c_entry_type r = js_entry_type spec /\ c_payload_hash r = ph /\
      c_payload_pointer r = pp /\ c_amount_minor_sum r = sumZ po_amount_minor rows /\
      c_produced_at r = t /\
      journal_entry_payload_hash (entry_row s spec t id) rows = Ok ph /\
      payload_pointer_for id t = Ok pp
}.

Lemma append_journal_entry_inv s spec t id tx :
  _append_journal_entry cfg s (new_tx s) spec t = Ok (id, tx) ->
  exists rows, journal_staged s spec t id rows tx.
Proof.
  unfold _append_journal_entry, insert_journal_entry, insert_outbox. intros Ha.
  inv_res. destruct a, a2. pose proof (insert_postings_rows _ _ _ _ _ _ _ _ E4) as Hmade.
  apply insert_postings_inv in E4 as [-> Hrows]. simpl in *.
  pose proof (append_chain_entry_tx _ _ _ _ _ _ _ _ _ _ _ E7) as Htx.
  assert (Hidem : s_journal_by_idem s !! js_idempotency_key spec = None).
  { unfold find_entry_id_by_idempotency_key in E1. simpl in E1.
    rewrite lookup_empty in E1. simpl in E1. by destruct (_ !! _). }
  unfold journal_entry_exists in G1. simpl in G1. rewrite lookup_empty in G1.
  bool_prop. exists l. split; simpl; try (rewrite Htx; reflexivity); try done.
  - by apply eq_None_not_Some.
  - eapply Forall_impl; [by apply check_accounts_inv|]. intros a. by apply account_usable.
  - by destruct Hrows.
  - match goal with |- context [<[_ := ?o]> _] => exists o end.
    split; [by rewrite Htx|]. split_and!; try done.
    + by apply eq_None_not_Some.
    + unfold posted_row, posted_event_id.
      repeat match goal with He : _ = Ok _ |- _ => rewrite He; clear He; cbn [rbind] end. done.
  - by rewrite Htx.
  - intros n Hint Hok. destruct p as [[i h] prev].
    rewrite <- (view_chain_new s (new_tx s)), <- (view_checkpoints_new s (new_tx s)) in Hok by done.
    destruct (append_chain_entry_ok _ _ _ _ _ _ _ _ _ n _ _ _ _ E7 Hint Hok) as (-> & _).
    apply append_chain_entry_summary in E7. case_match; [|done].
    destruct E7 as (c & Hc & ? & ? & _). by exists c.
  - intros n Hint Hok. destruct p as [[i h] prev].
    rewrite <- (view_chain_new s (new_tx s)), <- (view_checkpoints_new s (new_tx s)) in Hok by done.
    destruct (append_chain_entry_ok _ _ _ _ _ _ _ _ _ n _ _ _ _ E7 Hint Hok)
      as (-> & Hok' & Hoc & r & Hr).
    split; [exact Hok'|]. split; [by destruct Hoc|].
    exists r, a3, a4. destruct Hr as (? & ? & ? & ? & ? & ? & ? & ?). done.
Qed.
End Journal.
