(* ===== verification/LedgerInvariant.v ===== *)
(** The ledger invariant, and that every write of [LedgerService] keeps it. *)
From S2P Require Import Prelude Exceptions DateTime Sha256 Canonical LedgerTypes LedgerStore HashChain LedgerService LedgerCommit ChainInvariant JournalCommit.
Open Scope Z_scope.

Section Invariant.
Context `{HashFn} `{CheckpointSigner} `{Redactor} (cfg : LedgerCfg).

(** The journal entry [e] and its postings are what the chain row [r] sealed. *)
Record sealed (s : Store) (r : ChainEntryRow) (id : string) (e : JournalEntryRow) : Prop := {
  se_pointer : entry_id_from_pointer (c_payload_pointer r) = Some id;
  se_journal : s_journal s !! id = Some e;
  se_two : (2 <= length (get_postings_for_entry s id))%nat;
  se_balanced : sumZ debit_of (get_postings_for_entry s id) =
                sumZ credit_of (get_postings_for_entry s id);
  se_amount : c_amount_minor_sum r = sumZ po_amount_minor (get_postings_for_entry s id);
  se_type : je_entry_type e = c_entry_type r;
  se_time : je_produced_at e = c_produced_at r;
  se_hash : journal_entry_payload_hash e (get_postings_for_entry s id) = Ok (c_payload_hash r)
}.

Record posting_row_ok (s : Store) (k : string) (p : PostingRow) : Prop := {
  pr_key : po_posting_id p = k;
  pr_ok : posting_ok p;
  pr_account : is_Some (s_accounts s !! po_account_id p);
  pr_journal : is_Some (s_journal s !! po_entry_id p);
  pr_listed : k ∈ default [] (s_postings_by_entry s !! po_entry_id p)
}.

Record hold_ok (s : Store) (k : string) (h : AccountHoldRow) : Prop := {
  ho_key : h_hold_id h = k;
  ho_amount : 0 < h_amount_minor h;
  ho_status : str_in (h_status h) HOLD_STATUSES = true;
  ho_open_je : is_Some (s_journal s !! h_open_je_id h);
  ho_close : h_status h = "OPEN"%string <-> h_close_je_id h = None;
  ho_close_je : forall je, h_close_je_id h = Some je -> is_Some (s_journal s !! je)
}.

Record ledger_inv (s : Store) : Prop := {
  li_accounts : forall k a, s_accounts s !! k = Some a ->
    ac_account_id a = k /\ str_in (ac_account_type a) ACCOUNT_TYPES = true /\
    str_in (ac_account_subtype a) ACCOUNT_SUBTYPES = true;
  li_journal : forall k e, s_journal s !! k = Some e -> je_entry_id e = k /\
    s_journal_by_idem s !! je_idempotency_key e = Some k;
  li_idem : forall k id, s_journal_by_idem s !! k = Some id ->
    exists e, s_journal s !! id = Some e /\ je_idempotency_key e = k;
  li_postings : forall k p, s_postings s !! k = Some p -> posting_row_ok s k p;
  li_by_entry : forall id k, k ∈ default [] (s_postings_by_entry s !! id) ->
    exists p, s_postings s !! k = Some p /\ po_entry_id p = id;
  li_by_entry_nodup : forall id, NoDup (default [] (s_postings_by_entry s !! id));
  li_balances : forall a, default 0 (s_balances s !! a) = msum (delta_for s a) (s_postings s);
  li_trial : msum debit_of (s_postings s) = msum credit_of (s_postings s);
  li_money : exists n,
    chain_ok cfg MONEY_DOMAIN (chain_of s MONEY_DOMAIN) (checkpoints_of s MONEY_DOMAIN) n /\
    Z.of_nat (size (s_journal s)) = Z.max (n - 1) 0;
  li_sealed : forall i r, 0 < i -> chain_of s MONEY_DOMAIN !! i = Some r ->
    exists id e, sealed s r id e;
  li_in_chain : forall id e, s_journal s !! id = Some e ->
    exists i r, 0 < i /\ chain_of s MONEY_DOMAIN !! i = Some r /\ sealed s r id e;
  li_audit : exists n,
    chain_ok cfg AUDIT_DOMAIN (chain_of s AUDIT_DOMAIN) (checkpoints_of s AUDIT_DOMAIN) n;
  li_holds : forall k h, s_holds s !! k = Some h -> hold_ok s k h
}.

Lemma ledger_inv_empty : ledger_inv empty_store.
Proof.
  assert (He : forall d, chain_ok cfg d (chain_of empty_store d) (checkpoints_of empty_store d) 0).
  { intros d. unfold chain_of, checkpoints_of. simpl. rewrite !lookup_empty.
    apply chain_ok_empty. }
  split; simpl; try (intros *; rewrite ?lookup_empty; simpl; done).
  - intros id k. rewrite lookup_empty. by intros Hk%not_elem_of_nil.
  - intros id. rewrite lookup_empty. apply NoDup_nil_2.
  - exists 0. split; [apply He|]. by rewrite map_size_empty.
  - eauto.
Qed.

(** ** Committing a journal entry *)

(** The parts of the store a transaction may touch beside its entry. *)
Definition same_books (s s' : Store) : Prop :=
  s_journal s' = s_journal s /\ s_postings s' = s_postings s /\
  s_postings_by_entry s' = s_postings_by_entry s.

Lemma get_postings_same s s' id :
  ledger_inv s -> default [] (s_postings_by_entry s' !! id) = default [] (s_postings_by_entry s !! id) ->
  (forall k p, s_postings s !! k = Some p -> s_postings s' !! k = Some p) ->
  get_postings_for_entry s' id = get_postings_for_entry s id.
Proof.
  intros Hinv He Hp. unfold get_postings_for_entry. rewrite He.
  assert (Hin : forall k, k ∈ default [] (s_postings_by_entry s !! id) ->
                s_postings s' !! k = s_postings s !! k).
  { intros k Hk. apply (li_by_entry _ Hinv) in Hk as (p & Hk & _). rewrite Hk. by apply Hp. }
  revert Hin. generalize (default [] (s_postings_by_entry s !! id)) as l.
  induction l as [|k l IH]; intros Hin; [done|]. cbn [omap list_omap].
  rewrite Hin by (by left). rewrite IH; [done|]. intros. apply Hin. by right.
Qed.

(** An entry stays sealed when its journal row and postings stay. *)
Lemma sealed_mono s s' r id e :
  sealed s r id e -> s_journal s' !! id = Some e ->
  get_postings_for_entry s' id = get_postings_for_entry s id -> sealed s' r id e.
Proof. intros [] Hj Hp. split; rewrite ?Hp; done. Qed.

Lemma omap_lookup_rows (m : gmap string PostingRow) (rows : list PostingRow) :
  (forall p, p ∈ rows -> m !! po_posting_id p = Some p) ->
  omap (fun k : string => m !! k) (po_posting_id <$> rows) = rows.
Proof.
  induction rows as [|p rows IH]; intros Hin; csimpl; [done|].
  rewrite Hin by (by left). f_equal. apply IH. intros. apply Hin. by right.
Qed.

Lemma debit_credit_sum rows :
  sumZ po_amount_minor rows = sumZ debit_of rows + sumZ credit_of rows.
Proof.
  rewrite <- sumZ_add. apply sumZ_ext. intros p _.
  unfold debit_of, credit_of. case_match; lia.
Qed.

Definition with_holds (tx : MemTx) (hs : gmap string AccountHoldRow) : MemTx :=
  mk_MemTx (t_accounts tx) (t_journal tx) (t_journal_by_idem tx) (t_postings tx)
    (t_chain tx) (t_checkpoints tx) (t_outbox tx) (t_audit tx) hs (t_gate_rows tx)
    (t_next_entry_index tx) (t_next_audit_index tx).

Section CommitEntry.
Context (s s' : Store) (spec : JournalEntrySpec) (t : datetime) (id : string).
Context (rows : list PostingRow) (tx : MemTx) (hs : gmap string AccountHoldRow).
Hypothesis Hint : 0 < cfg_interval cfg.
Hypothesis Hinv : ledger_inv s.
Hypothesis Hst : journal_staged cfg s spec t id rows tx.
Hypothesis Hcm : committed s id (with_holds tx hs) s'.

Lemma ce_rows_entry : Forall (fun p => po_entry_id p = id) rows.
Proof.
  destruct Hst. destruct jg_rows. clear -pg_rows.
  induction pg_rows as [|? ? ? ? [? _]]; constructor; auto.
Qed.

Lemma ce_accounts : s_accounts s' = s_accounts s.
Proof. rewrite (cm_accounts _ _ _ _ Hcm). simpl. rewrite (jg_t_accounts _ _ _ _ _ _ _ Hst).
  by rewrite (left_id_L ∅ (∪)). Qed.

Lemma ce_journal : s_journal s' = <[id := entry_row s spec t id]> (s_journal s).
Proof. rewrite (cm_journal _ _ _ _ Hcm). simpl. rewrite (jg_t_journal _ _ _ _ _ _ _ Hst).
  by rewrite insert_union_singleton_l. Qed.

Lemma ce_idem : s_journal_by_idem s' = <[js_idempotency_key spec := id]> (s_journal_by_idem s).
Proof. rewrite (cm_idem _ _ _ _ Hcm). simpl. rewrite (jg_t_idem _ _ _ _ _ _ _ Hst).
  by rewrite insert_union_singleton_l. Qed.

Lemma ce_fresh : Forall (fun p => s_postings s !! po_posting_id p = None) rows.
Proof. by destruct (jg_rows _ _ _ _ _ _ _ Hst). Qed.

Lemma ce_new p : p ∈ rows -> s_postings s' !! po_posting_id p = Some p.
Proof. rewrite <- (jg_t_postings _ _ _ _ _ _ _ Hst). apply (cm_new _ _ _ _ Hcm). Qed.

Lemma ce_old k p : s_postings s !! k = Some p -> s_postings s' !! k = Some p.
Proof.
  intros Hp. rewrite (cm_old _ _ _ _ Hcm); [done|]. simpl.
  rewrite (jg_t_postings _ _ _ _ _ _ _ Hst). intros (q & -> & Hq)%list_elem_of_fmap.
  pose proof ce_fresh as Hf. rewrite Forall_forall in Hf. by rewrite (Hf q Hq) in Hp.
Qed.

Lemma ce_postings k p :
  s_postings s' !! k = Some p ->
  s_postings s !! k = Some p \/ (p ∈ rows /\ po_posting_id p = k).
Proof.
  intros Hp. destruct (decide (k ∈ po_posting_id <$> rows)) as [Hin|Hnin].
  - apply list_elem_of_fmap in Hin as (q & -> & Hq). rewrite (ce_new q Hq) in Hp.
    simplify_eq. auto.
  - left. rewrite <- Hp. symmetry. apply (cm_old _ _ _ _ Hcm). simpl.
    by rewrite (jg_t_postings _ _ _ _ _ _ _ Hst).
Qed.

(** No posting was listed under the new entry. *)
Lemma ce_unlisted : default [] (s_postings_by_entry s !! id) = [].
Proof.
  destruct (default [] (s_postings_by_entry s !! id)) as [|k l] eqn:Hl; [done|].
  destruct (li_by_entry _ Hinv id k) as (p & Hp & He); [rewrite Hl; by left|].
  destruct (li_postings _ Hinv _ _ Hp) as [_ _ _ [e Hj] _]. rewrite He in Hj.
  by rewrite (jg_new_id _ _ _ _ _ _ _ Hst) in Hj.
Qed.

Lemma ce_by_entry : default [] (s_postings_by_entry s' !! id) = po_posting_id <$> rows.
Proof.
  rewrite (cm_entry _ _ _ _ Hcm), ce_unlisted. simpl.
  by rewrite (jg_t_postings _ _ _ _ _ _ _ Hst).
Qed.

Lemma ce_other id' : id' <> id -> s_postings_by_entry s' !! id' = s_postings_by_entry s !! id'.
Proof. apply (cm_other _ _ _ _ Hcm). Qed.

Lemma ce_get_new : get_postings_for_entry s' id = rows.
Proof.
  unfold get_postings_for_entry. rewrite ce_by_entry. apply omap_lookup_rows, ce_new.
Qed.

Lemma ce_get_old id' :
  id' <> id -> get_postings_for_entry s' id' = get_postings_for_entry s id'.
Proof.
  intros Hne. apply get_postings_same; [done|by rewrite ce_other|apply ce_old].
Qed.

Lemma ce_balanced : sumZ debit_of rows = sumZ credit_of rows.
Proof.
  destruct (validate_entry_spec_inv _ (jg_valid _ _ _ _ _ _ _ Hst)) as (_ & _ & Hb).
  eapply Hb. apply (pg_rows _ _ _ _ _ _ (jg_rows _ _ _ _ _ _ _ Hst)).
Qed.

Lemma ce_two : (2 <= length rows)%nat.
Proof.
  destruct (validate_entry_spec_inv _ (jg_valid _ _ _ _ _ _ _ Hst)) as (_ & Ht & _).
  by rewrite <- (Forall2_length _ _ _ (pg_rows _ _ _ _ _ _ (jg_rows _ _ _ _ _ _ _ Hst))).
Qed.

Lemma ce_sealed_new r pp ph :
  c_entry_type r = js_entry_type spec -> c_payload_hash r = ph -> c_payload_pointer r = pp ->
  c_amount_minor_sum r = sumZ po_amount_minor rows -> c_produced_at r = t ->
  journal_entry_payload_hash (entry_row s spec t id) rows = Ok ph ->
  payload_pointer_for id t = Ok pp ->
  sealed s' r id (entry_row s spec t id).
Proof.
  intros Het Hph Hpp Hamt Ht Hhash Hptr.
  destruct (make_id_no_slash _ _ _ (jg_id _ _ _ _ _ _ _ Hst)) as [Htr Hns]; [done..|].
  split; rewrite ?ce_get_new; try done.
  - rewrite Hpp. by eapply entry_id_of_pointer.
  - by rewrite ce_journal, lookup_insert_eq.
  - apply ce_two.
  - apply ce_balanced.
  - by rewrite Hph.
Qed.

Lemma ce_sealed_old r id' e : sealed s r id' e -> sealed s' r id' e.
Proof.
  intros Hs. assert (id' <> id) as Hne.
  { intros ->. pose proof (se_journal _ _ _ _ Hs) as Hj.
    by rewrite (jg_new_id _ _ _ _ _ _ _ Hst) in Hj. }
  eapply sealed_mono; [exact Hs| |by apply ce_get_old].
  rewrite ce_journal, lookup_insert_ne by done. apply Hs.
Qed.

(** The MONEY chain gains exactly the row that seals the new entry. *)
Lemma ce_money :
  exists n r, chain_ok cfg MONEY_DOMAIN (chain_of s MONEY_DOMAIN) (checkpoints_of s MONEY_DOMAIN) n /\
    Z.of_nat (size (s_journal s)) = Z.max (n - 1) 0 /\
    chain_ok cfg MONEY_DOMAIN (chain_of s' MONEY_DOMAIN) (checkpoints_of s' MONEY_DOMAIN)
      (Z.max n 1 + 1) /\
    chain_of s' MONEY_DOMAIN !! Z.max n 1 = Some r /\
    sealed s' r id (entry_row s spec t id) /\
    forall i, i < n -> chain_of s' MONEY_DOMAIN !! i = chain_of s MONEY_DOMAIN !! i.
Proof.
  destruct (li_money _ Hinv) as (n & Hok & Hsz).
  destruct (jg_chain _ _ _ _ _ _ _ Hst n Hint Hok) as (Hok' & Hoc & r & ph & pp & Hr & Hrest).
  exists n, r. rewrite !(cm_chain _ _ _ _ Hcm), !(cm_checkpoints _ _ _ _ Hcm).
  split_and!; try done.
  - destruct Hrest as (? & ? & ? & ? & ? & ? & ?). by eapply ce_sealed_new.
  - intros i Hi. rewrite <- (view_chain_new s (new_tx s) MONEY_DOMAIN) by done.
    by apply (oc_old _ _ _ _ _ Hoc).
Qed.

Lemma ce_audit_chain :
  chain_of s' AUDIT_DOMAIN = chain_of s AUDIT_DOMAIN /\
  checkpoints_of s' AUDIT_DOMAIN = checkpoints_of s AUDIT_DOMAIN.
Proof.
  destruct (li_money _ Hinv) as (n & Hok & Hsz).
  destruct (jg_chain _ _ _ _ _ _ _ Hst n Hint Hok) as (_ & Hoc & _).
  rewrite (cm_chain _ _ _ _ Hcm), (cm_checkpoints _ _ _ _ Hcm).
  rewrite <- (view_chain_new s (new_tx s) AUDIT_DOMAIN) by done.
  rewrite <- (view_checkpoints_new s (new_tx s) AUDIT_DOMAIN) by done.
  by apply (oc_other _ _ _ _ _ Hoc).
Qed.

Lemma ce_posting_row_ok k p : s_postings s' !! k = Some p -> posting_row_ok s' k p.
Proof.
  intros [Hold|[Hin <-]]%ce_postings.
  - destruct (li_postings _ Hinv _ _ Hold) as [? ? Ha [e Hj] Hl].
    assert (po_entry_id p <> id) as Hne.
    { intros Heq. rewrite Heq in Hj. by rewrite (jg_new_id _ _ _ _ _ _ _ Hst) in Hj. }
    split; try done.
    + by rewrite ce_accounts.
    + rewrite ce_journal, lookup_insert_ne by done. eauto.
    + by rewrite ce_other.
  - destruct (jg_rows _ _ _ _ _ _ _ Hst) as [_ Hok Hacc _ _].
    pose proof ce_rows_entry as He. rewrite Forall_forall in Hok, Hacc, He.
    split; [done|by apply Hok| | |].
    + rewrite ce_accounts. apply (Hacc p Hin).
    + rewrite (He p Hin), ce_journal, lookup_insert_eq. eauto.
    + rewrite (He p Hin), ce_by_entry. by apply list_elem_of_fmap_2.
Qed.

Lemma ce_balances a :
  default 0 (s_balances s' !! a) = msum (delta_for s' a) (s_postings s').
Proof.
  rewrite (cm_balance _ _ _ _ Hcm), (cm_sum _ _ _ _ Hcm), (li_balances _ Hinv).
  f_equal. unfold msum. apply sumZ_ext. intros p _.
  unfold delta_for, delta_of. by rewrite ce_accounts.
Qed.

Lemma commit_entry_inv :
  (forall k h, hs !! k = Some h -> hold_ok s' k h) -> ledger_inv s'.
Proof.
  intros Hholds. destruct ce_money as (n & r & Hok & Hsz & Hok' & Hr & Hseal & Hold).
  pose proof (co_dense _ _ _ _ _ Hok') as [_ Hdense].
  split.
  - rewrite ce_accounts. apply Hinv.
  - rewrite ce_journal, ce_idem. intros k e [[<- <-]|[Hne Hj]]%lookup_insert_Some.
    { split; [done|]. by rewrite lookup_insert_eq. }
    destruct (li_journal _ Hinv k e Hj) as [? Hi]. split; [done|].
    rewrite lookup_insert_ne; [done|]. intros Heq. rewrite <- Heq in Hi.
    by rewrite (jg_new_key _ _ _ _ _ _ _ Hst) in Hi.
  - rewrite ce_journal, ce_idem. intros k id' [[<- <-]|[Hne Hj]]%lookup_insert_Some.
    { rewrite lookup_insert_eq. eauto. }
    destruct (li_idem _ Hinv k id' Hj) as (e & He & Hk). exists e. split; [|done].
    rewrite lookup_insert_ne; [done|]. intros <-. by rewrite (jg_new_id _ _ _ _ _ _ _ Hst) in He.
  - apply ce_posting_row_ok.
  - intros id' k Hk. destruct (decide (id' = id)) as [->|Hne].
    + rewrite ce_by_entry in Hk. apply list_elem_of_fmap in Hk as (p & -> & Hp).
      exists p. split; [by apply ce_new|].
      pose proof ce_rows_entry as He. rewrite Forall_forall in He. by apply He.
    + rewrite ce_other in Hk by done. destruct (li_by_entry _ Hinv _ _ Hk) as (p & Hp & He).
      exists p. split; [by apply ce_old|done].
  - intros id'. destruct (decide (id' = id)) as [->|Hne].
    + rewrite ce_by_entry. apply (pg_nodup _ _ _ _ _ _ (jg_rows _ _ _ _ _ _ _ Hst)).
      apply NoDup_nil_2.
    + rewrite ce_other by done. apply Hinv.
  - apply ce_balances.
  - rewrite !(cm_sum _ _ _ _ Hcm), (li_trial _ Hinv). f_equal. simpl.
    rewrite (jg_t_postings _ _ _ _ _ _ _ Hst). apply ce_balanced.
  - exists (Z.max n 1 + 1). split; [done|].
    rewrite ce_journal, map_size_insert_None by apply (jg_new_id _ _ _ _ _ _ _ Hst). lia.
  - intros i r' Hi Hr'. destruct (decide (i = Z.max n 1)) as [->|Hne].
    { rewrite Hr in Hr'. simplify_eq. eauto. }
    assert (0 <= i < Z.max n 1 + 1) by (apply Hdense; eauto).
    rewrite Hold in Hr' by lia. destruct (li_sealed _ Hinv i r' Hi Hr') as (id' & e & Hs).
    exists id', e. by apply ce_sealed_old.
  - rewrite ce_journal. intros id' e [[<- <-]|[Hne Hj]]%lookup_insert_Some.
    { exists (Z.max n 1), r. split_and!; [lia|done|done]. }
    destruct (li_in_chain _ Hinv id' e Hj) as (i & r' & Hi & Hr' & Hs).
    exists i, r'. split_and!; [done| |by apply ce_sealed_old].
    rewrite Hold; [done|]. apply (co_dense _ _ _ _ _ Hok). eauto.
  - destruct ce_audit_chain as [-> ->]. apply Hinv.
  - rewrite (cm_holds _ _ _ _ Hcm). simpl. intros k h [Hk|[Hk1 Hk]]%lookup_union_Some_raw.
    { by apply Hholds. }
    destruct (li_holds _ Hinv _ _ Hk) as [? ? ? Ho ? Hc]. split; try done.
    + rewrite ce_journal, lookup_insert_is_Some'. auto.
    + intros je Hje. rewrite ce_journal, lookup_insert_is_Some'. auto.
Qed.
End CommitEntry.
(** ** Commits without a journal entry *)

Record quiet (s : Store) (tx : MemTx) : Prop := {
  q_journal : t_journal tx = ∅;
  q_idem : t_journal_by_idem tx = ∅;
  q_postings : t_postings tx = [];
  q_holds : t_holds tx = ∅;
  q_accounts : forall k a, t_accounts tx !! k = Some a ->
    s_accounts s !! k = None /\ ac_account_id a = k /\
    str_in (ac_account_type a) ACCOUNT_TYPES = true /\
    str_in (ac_account_subtype a) ACCOUNT_SUBTYPES = true
}.

Section CommitQuiet.
Context (s s' : Store) (tx : MemTx).
Hypothesis Hinv : ledger_inv s.
Hypothesis Hq : quiet s tx.
Hypothesis Ha : _apply s tx = Ok s'.

Lemma cq_committed : committed s EmptyString tx s'.
Proof.
  apply apply_committed; [done|rewrite (q_postings _ _ Hq)..].
  - constructor.
  - constructor.
  - by intros p Hp%not_elem_of_nil.
Qed.

Lemma cq_postings : s_postings s' = s_postings s /\
  (forall id, default [] (s_postings_by_entry s' !! id) = default [] (s_postings_by_entry s !! id)).
Proof.
  pose proof cq_committed as Hc. split.
  - apply map_eq. intros k. apply (cm_old _ _ _ _ Hc). rewrite (q_postings _ _ Hq).
    by intros ?%not_elem_of_nil.
  - intros id. destruct (decide (id = EmptyString)) as [->|Hne].
    + by rewrite (cm_entry _ _ _ _ Hc), (q_postings _ _ Hq), app_nil_r.
    + by rewrite (cm_other _ _ _ _ Hc).
Qed.

Lemma cq_journal : s_journal s' = s_journal s /\ s_journal_by_idem s' = s_journal_by_idem s /\
  s_holds s' = s_holds s.
Proof.
  pose proof cq_committed as Hc.
  rewrite (cm_journal _ _ _ _ Hc), (cm_idem _ _ _ _ Hc), (cm_holds _ _ _ _ Hc).
  by rewrite (q_journal _ _ Hq), (q_idem _ _ Hq), (q_holds _ _ Hq), !(left_id_L ∅ (∪)).
Qed.

Lemma cq_account k a : s_accounts s !! k = Some a -> s_accounts s' !! k = Some a.
Proof.
  intros Hk. rewrite (cm_accounts _ _ _ _ cq_committed). apply lookup_union_Some_raw.
  right. split; [|done]. destruct (t_accounts tx !! k) eqn:Ht; [|done].
  destruct (q_accounts _ _ Hq _ _ Ht) as [? _]. congruence.
Qed.

Lemma cq_get id : get_postings_for_entry s' id = get_postings_for_entry s id.
Proof.
  destruct cq_postings as [Hp He]. apply get_postings_same; auto. by rewrite Hp.
Qed.

Lemma cq_sealed r id e : sealed s r id e -> sealed s' r id e.
Proof.
  intros Hs. eapply sealed_mono; [exact Hs| |by rewrite cq_get].
  destruct cq_journal as [-> _]. apply Hs.
Qed.

Lemma cq_balances a :
  default 0 (s_balances s' !! a) = msum (delta_for s' a) (s_postings s').
Proof.
  rewrite (cm_balance _ _ _ _ cq_committed), (q_postings _ _ Hq). simpl.
  rewrite Z.add_0_r, (li_balances _ Hinv). destruct cq_postings as [-> _].
  unfold msum. apply sumZ_ext. intros p (k & Hk)%elem_of_map_values.
  destruct (li_postings _ Hinv _ _ Hk) as [_ _ [row Hrow] _ _].
  unfold delta_for, delta_of. by rewrite Hrow, (cq_account _ _ Hrow).
Qed.

(** Nothing but new accounts, events and chain rows that leave the MONEY rows
    past the genesis as they were. *)
Lemma commit_quiet_inv :
  (exists n, chain_ok cfg MONEY_DOMAIN (chain_of s' MONEY_DOMAIN) (checkpoints_of s' MONEY_DOMAIN) n /\
     Z.of_nat (size (s_journal s)) = Z.max (n - 1) 0) ->
  (forall i, 0 < i -> chain_of s' MONEY_DOMAIN !! i = chain_of s MONEY_DOMAIN !! i) ->
  (exists n, chain_ok cfg AUDIT_DOMAIN (chain_of s' AUDIT_DOMAIN) (checkpoints_of s' AUDIT_DOMAIN) n) ->
  ledger_inv s'.
Proof.
  intros Hmoney Hrows Haudit. destruct cq_postings as [Hp He], cq_journal as (Hj & Hi & Hh).
  split; rewrite ?Hj, ?Hi, ?Hh, ?Hp; try apply Hinv; try done.
  - intros k a. rewrite (cm_accounts _ _ _ _ cq_committed).
    intros [Hk|[_ Hk]]%lookup_union_Some_raw; [|by apply (li_accounts _ Hinv)].
    by apply (q_accounts _ _ Hq).
  - intros k p Hk. destruct (li_postings _ Hinv _ _ Hk) as [? ? [row Hrow] ? ?].
    split; rewrite ?Hj, ?He; try done. exists row. by apply cq_account.
  - intros id. rewrite He. apply Hinv.
  - intros id. rewrite He. apply Hinv.
  - rewrite <- Hp. apply cq_balances.
  - intros i r Hpos Hr. rewrite Hrows in Hr by done.
    destruct (li_sealed _ Hinv i r Hpos Hr) as (id & e & Hs). eauto using cq_sealed.
  - intros id e Hje. destruct (li_in_chain _ Hinv _ _ Hje) as (i & r & ? & Hr & Hs).
    exists i, r. rewrite Hrows by done. eauto using cq_sealed.
  - intros k h Hk. destruct (li_holds _ Hinv _ _ Hk). by split; rewrite ?Hj.
Qed.
End CommitQuiet.
End Invariant.
