(* ===== verification/LedgerOps.v ===== *)
(** The operations of [LedgerService] as steps on the store: every step keeps
    the ledger invariant, so it holds in every reachable state. *)
From S2P Require Import Prelude Exceptions DateTime Sha256 Canonical LedgerTypes LedgerStore HashChain LedgerService LedgerCommit ChainInvariant JournalCommit LedgerInvariant.
Open Scope Z_scope.

(** A call of the public interface with its arguments and the clock reading. *)
Inductive Op : Type :=
| OpInitializeChain (chain_domain : string) (clock : datetime)
| OpCreateAccount (spec : AccountSpec) (clock : datetime)
| OpPostJournalEntry (spec : JournalEntrySpec) (clock : datetime)
| OpOpenHold (account_id : string) (amount_minor : Z) (hold_reason reference_id : string)
    (source_account_id hold_reserve_account_id : option string)
    (hold_expires_at : option datetime) (clock : datetime)
| OpReleaseHold (hold_id outcome : string) (amount_minor : option Z) (clock : datetime)
| OpWriteAuditEvent (spec : AuditEventSpec) (occurred_at : option datetime) (clock : datetime)
| OpEmitEvent (event_type subject_type subject_id : string) (payload : pyobj) (topic : string)
    (producer : option string) (occurred_at : option datetime) (clock : datetime)
| OpTrialBalanceAssertion (clock : datetime)
| OpVerifyChain (chain_domain : string) (from_index : Z) (to_index : option Z) (deep : bool)
    (clock : datetime).

Section Ops.
Context `{HashFn} `{CheckpointSigner} `{Redactor} (cfg : LedgerCfg).

(** The store a call leaves, whether it returns or raises. *)
Definition run (s : Store) (op : Op) : Store :=
  match op with
  | OpInitializeChain d c => (initialize_chain cfg s d c).2
  | OpCreateAccount spec c => (create_account s spec c).2
  | OpPostJournalEntry spec c => (post_journal_entry cfg s spec c).2
  | OpOpenHold a m r ref src res e c => (open_hold cfg s a m r ref src res e c).2
  | OpReleaseHold h o m c => (release_hold cfg s h o m c).2
  | OpWriteAuditEvent spec o c => (write_audit_event cfg s spec o c).2
  | OpEmitEvent et st si p t pr o c => (emit_event cfg s et st si p t pr o c).2
  | OpTrialBalanceAssertion c => (trial_balance_assertion s c).2
  | OpVerifyChain d f t deep c => (verify_chain cfg s d f t deep c).2
  end.

Inductive step : Store -> Store -> Prop :=
| step_op s op : step s (run s op).

(** The states of a service started on an empty store. *)
Definition reachable (s : Store) : Prop := rtc step empty_store s.

Hypothesis Hint : 0 < cfg_interval cfg.

(** A commit that stages no chain rows either. *)
Lemma commit_same_chains s s' tx :
  ledger_inv cfg s -> quiet s tx -> t_chain tx = ∅ -> t_checkpoints tx = [] ->
  _apply s tx = Ok s' -> ledger_inv cfg s'.
Proof.
  intros Hinv Hq Hc Hcp Ha.
  assert (Heq : forall d, chain_of s' d = chain_of s d /\ checkpoints_of s' d = checkpoints_of s d).
  { intros d. pose proof (cq_committed _ _ _ Hq Ha) as Hcm.
    rewrite (cm_chain _ _ _ _ Hcm), (cm_checkpoints _ _ _ _ Hcm).
    by rewrite view_chain_new, view_checkpoints_new. }
  eapply commit_quiet_inv; try done.
  - destruct (Heq MONEY_DOMAIN) as [-> ->]. apply Hinv.
  - intros i _. by destruct (Heq MONEY_DOMAIN) as [-> _].
  - destruct (Heq AUDIT_DOMAIN) as [-> ->]. apply Hinv.
Qed.

Lemma quiet_new s : quiet s (new_tx s).
Proof. by split. Qed.

Lemma attempt_inv {A B} s (c : res exn A) (k : A -> outcome B) r s' :
  attempt s c k = (r, s') -> (exists e, r = Err e /\ s' = s) \/ exists a, c = Ok a /\ k a = (r, s').
Proof. unfold attempt. destruct c; intros; simplify_eq; eauto. Qed.

Lemma ledger_inv_gate s reason t : ledger_inv cfg s -> ledger_inv cfg (engage_write_gate s reason t).
Proof.
  intros Hinv.
  assert (Hse : forall r id e, sealed s r id e -> sealed (engage_write_gate s reason t) r id e).
  { intros r id e Hs. by eapply sealed_mono; [exact Hs|apply Hs|]. }
  split; try apply Hinv.
  - intros k p Hp. by destruct (li_postings _ _ Hinv k p Hp).
  - intros i r Hi Hr. destruct (li_sealed _ _ Hinv i r Hi Hr) as (id & e & Hs). eauto.
  - intros id e Hj. destruct (li_in_chain _ _ Hinv id e Hj) as (i & r & ? & ? & ?). eauto 10.
  - intros k h Hh. by destruct (li_holds _ _ Hinv k h Hh).
Qed.

Lemma genesis_domain s tx d t row tx' :
  _insert_genesis cfg s tx d t = Ok (row, tx') -> d = MONEY_DOMAIN \/ d = AUDIT_DOMAIN.
Proof.
  unfold _insert_genesis, compute_entry_hash. intros Hg. inv_res. bool_prop.
  apply bool_decide_eq_true in G. unfold CHAIN_DOMAINS in G. rewrite !elem_of_cons in G.
  destruct G as [?|[?|?%not_elem_of_nil]]; auto. done.
Qed.

(** Both chains are well formed, whichever domain is asked for. *)
Lemma chain_ok_of s d :
  ledger_inv cfg s -> d = MONEY_DOMAIN \/ d = AUDIT_DOMAIN ->
  exists n, chain_ok cfg d (chain_of s d) (checkpoints_of s d) n.
Proof.
  intros Hinv [->| ->]; [|apply Hinv]. destruct (li_money _ _ Hinv) as (n & ? & _). eauto.
Qed.

(** A commit that extends the AUDIT chain. *)
Lemma commit_audit_chain s s' tx n :
  ledger_inv cfg s -> quiet s tx -> _apply s tx = Ok s' ->
  chain_ok cfg AUDIT_DOMAIN (view_chain s tx AUDIT_DOMAIN) (view_checkpoints s tx AUDIT_DOMAIN) n ->
  view_chain s tx MONEY_DOMAIN = chain_of s MONEY_DOMAIN ->
  view_checkpoints s tx MONEY_DOMAIN = checkpoints_of s MONEY_DOMAIN ->
  ledger_inv cfg s'.
Proof.
  intros Hinv Hq Ha Hok Hm Hmc. pose proof (cq_committed _ _ _ Hq Ha) as Hcm.
  eapply commit_quiet_inv; try done;
    rewrite ?(cm_chain _ _ _ _ Hcm), ?(cm_checkpoints _ _ _ _ Hcm), ?Hm, ?Hmc; eauto.
  apply Hinv.
Qed.

(** A commit of the MONEY genesis row. *)
Lemma commit_money_genesis s s' tx :
  ledger_inv cfg s -> quiet s tx -> _apply s tx = Ok s' ->
  chain_of s MONEY_DOMAIN = ∅ ->
  chain_ok cfg MONEY_DOMAIN (view_chain s tx MONEY_DOMAIN) (view_checkpoints s tx MONEY_DOMAIN) 1 ->
  view_chain s tx AUDIT_DOMAIN = chain_of s AUDIT_DOMAIN ->
  view_checkpoints s tx AUDIT_DOMAIN = checkpoints_of s AUDIT_DOMAIN ->
  ledger_inv cfg s'.
Proof.
  intros Hinv Hq Ha Hempty Hok Hm Hmc. pose proof (cq_committed _ _ _ Hq Ha) as Hcm.
  destruct (li_money _ _ Hinv) as (n & Hok0 & Hsz).
  pose proof (dense_size _ _ (co_dense _ _ _ _ _ Hok0)) as Hn.
  rewrite Hempty, map_size_empty in Hn.
  eapply commit_quiet_inv; try done;
    rewrite ?(cm_chain _ _ _ _ Hcm), ?(cm_checkpoints _ _ _ _ Hcm), ?Hm, ?Hmc.
  - exists 1. split; [done|]. lia.
  - intros i Hi. rewrite Hempty, lookup_empty.
    destruct (view_chain s tx MONEY_DOMAIN !! i) eqn:Hv; [|done].
    assert (0 <= i < 1) by (apply (co_dense _ _ _ _ _ Hok); eauto). lia.
  - apply Hinv.
Qed.

Lemma initialize_chain_inv s d c : ledger_inv cfg s -> ledger_inv cfg (initialize_chain cfg s d c).2.
Proof.
  intros Hinv. destruct (initialize_chain cfg s d c) as [r s'] eqn:Hi. simpl.
  unfold initialize_chain in Hi. apply attempt_inv in Hi as [(e & _ & ->)|(t & _ & Hi)]; [done|].
  apply transaction_cases in Hi as [(e & _ & ->)|(a & tx & _ & Hb & Ha)]; [done|].
  destruct (lock_chain_tip s (new_tx s) d) as [tip|] eqn:Htip; simplify_eq.
  { by eapply commit_same_chains; [..|exact Ha]; auto using quiet_new. }
  inv_res. pose proof (genesis_domain _ _ _ _ _ _ E) as Hd.
  destruct (chain_ok_of s d Hinv Hd) as (n & Hok).
  rewrite <- (view_chain_new s (new_tx s)), <- (view_checkpoints_new s (new_tx s)) in Hok by done.
  assert (n = 0) as ->.
  { pose proof (co_dense _ _ _ _ _ Hok) as Hdn. rewrite (lock_chain_tip_view _ _ _ _ Hdn) in Htip.
    destruct (Z.eqb_spec n 0) as [|Hne]; [done|]. destruct Hdn as [Hn Hdn].
    destruct (Hdn (n - 1)) as [_ [row Hrow]]; [lia|]. by rewrite Hrow in Htip. }
  destruct (insert_genesis_ok _ _ _ _ _ _ _ E Hok) as [Hok' _].
  apply insert_genesis_inv in E as (-> & _ & _).
  assert (Hq : quiet s (with_chain (new_tx s) (<[(d, 0) := c0]> (t_chain (new_tx s)))
                          (t_checkpoints (new_tx s)))) by (by split).
  destruct (only_chain_insert s d 0 (new_tx s) c0) as [_ _ Hoth].
  rewrite view_chain_new in Hok by done.
  assert (Hemp : chain_of s d = ∅).
  { apply map_empty. intros i. destruct (chain_of s d !! i) eqn:Hl; [|done].
    assert (0 <= i < 0) by (apply (co_dense _ _ _ _ _ Hok); eauto). lia. }
  destruct Hd as [->| ->].
  - destruct (Hoth AUDIT_DOMAIN ltac:(done)) as [Hv1 Hv2].
    eapply commit_money_genesis; try done; by rewrite ?Hv1, ?Hv2, ?view_chain_new, ?view_checkpoints_new.
  - destruct (Hoth MONEY_DOMAIN ltac:(done)) as [Hv1 Hv2].
    eapply commit_audit_chain; try done; by rewrite ?Hv1, ?Hv2, ?view_chain_new, ?view_checkpoints_new.
Qed.

Lemma create_account_inv s spec c : ledger_inv cfg s -> ledger_inv cfg (create_account s spec c).2.
Proof.
  intros Hinv. destruct (create_account s spec c) as [r s'] eqn:Hi. simpl.
  unfold create_account in Hi. apply attempt_inv in Hi as [(e & _ & ->)|(id & Hid & Hi)]; [done|].
  apply attempt_inv in Hi as [(e & _ & ->)|(t & _ & Hi)]; [done|].
  apply transaction_cases in Hi as [(e & _ & ->)|(a & tx & _ & Hb & Ha)]; [done|].
  unfold insert_account in Hb. inv_res. bool_prop.
  eapply commit_same_chains; [exact Hinv| | | |exact Ha]; [|done|done].
  split; try done. simpl. intros k row [[<- <-]|[_ ?]]%lookup_insert_Some; [|done].
  split_and!; try done. unfold tx_get_account in G. simpl in G. rewrite lookup_empty in G.
  by apply eq_None_not_Some.
Qed.
(** ** Operations that post an entry *)

Lemma staged_committed s spec t id rows tx hs s' :
  journal_staged cfg s spec t id rows tx -> _apply s (with_holds tx hs) = Ok s' ->
  committed s id (with_holds tx hs) s'.
Proof.
  intros Hst Ha. apply apply_committed; [done|..]; simpl;
    rewrite (jg_t_postings _ _ _ _ _ _ _ Hst).
  - by eapply ce_rows_entry.
  - apply (pg_nodup _ _ _ _ _ _ (jg_rows _ _ _ _ _ _ _ Hst)). apply NoDup_nil_2.
  - apply Forall_forall. apply (pg_fresh _ _ _ _ _ _ (jg_rows _ _ _ _ _ _ _ Hst)).
Qed.

Lemma staged_no_holds s spec t id rows tx :
  journal_staged cfg s spec t id rows tx -> tx = with_holds tx ∅.
Proof. intros Hst. rewrite <- (jg_t_holds _ _ _ _ _ _ _ Hst). by destruct tx. Qed.

(** A successful post: the entry staged and its commit. *)
Lemma post_journal_entry_Ok s spec c id s' :
  post_journal_entry cfg s spec c = (Ok id, s') ->
  exists rows tx, journal_staged cfg s spec c id rows tx /\ committed s id (with_holds tx ∅) s'.
Proof.
  unfold post_journal_entry. intros Hp.
  apply attempt_inv in Hp as [(e & ? & _)|(_ & _ & Hp)]; [done|].
  apply attempt_inv in Hp as [(e & ? & _)|(t & Ht & Hp)]; [done|].
  unfold _now in Ht. inv_res.
  apply transaction_cases in Hp as [(e & ? & _)|(a & tx & [= <-] & Hb & Ha)]; [done|].
  apply append_journal_entry_inv in Hb as [rows Hst]. exists rows, tx. split; [done|].
  apply (staged_committed _ _ _ _ _ _ _ _ Hst). by rewrite <- (staged_no_holds _ _ _ _ _ _ Hst).
Qed.

(** A call that raises changes nothing. *)
Lemma post_journal_entry_Err s spec c e s' :
  post_journal_entry cfg s spec c = (Err e, s') -> s' = s.
Proof.
  unfold post_journal_entry. intros Hp.
  apply attempt_inv in Hp as [(e' & ? & ->)|(_ & _ & Hp)]; [done|].
  apply attempt_inv in Hp as [(e' & ? & ->)|(t & Ht & Hp)]; [done|].
  by apply transaction_cases in Hp as [(e' & ? & ->)|(a & tx & ? & ?)].
Qed.

Lemma post_journal_entry_inv s spec c :
  ledger_inv cfg s -> ledger_inv cfg (post_journal_entry cfg s spec c).2.
Proof.
  intros Hinv. destruct (post_journal_entry cfg s spec c) as [[id|e] s'] eqn:Hp; simpl.
  - apply post_journal_entry_Ok in Hp as (rows & tx & Hst & Hcm).
    eapply commit_entry_inv; eauto. intros k h. by rewrite lookup_empty.
  - by apply post_journal_entry_Err in Hp as ->.
Qed.

Lemma set_hold_staged s spec t id rows tx h :
  journal_staged cfg s spec t id rows tx ->
  set_hold tx h = with_holds tx {[ h_hold_id h := h ]}.
Proof.
  intros Hst. unfold set_hold. by rewrite (jg_t_holds _ _ _ _ _ _ _ Hst).
Qed.

(** The two ways an [open_hold] commits: an open hold of the reference exists
    and nothing is staged, or the hold and its opening entry are. *)
Lemma open_hold_cases s a m reason ref src res exp c r s' :
  open_hold cfg s a m reason ref src res exp c = (r, s') ->
  (exists e, r = Err e /\ s' = s) \/
  (exists h, get_open_account_hold_by_reference s (new_tx s) ref = Some h /\
     r = Ok (h_hold_id h) /\ _apply s (new_tx s) = Ok s') \/
  (exists id je rows tx spec exp',
     let h := mk_AccountHoldRow id a (or_str res a) (or_str src a) ref m reason "OPEN" c exp'
                None je None 1 in
     r = Ok id /\ 0 < m /\ s_holds s !! id = None /\
     get_open_account_hold_by_reference s (new_tx s) ref = None /\
     hold_open_spec cfg id ref reason (or_str src a) (or_str res a) m = Ok spec /\
     journal_staged cfg s spec c je rows tx /\
     committed s je (with_holds tx {[id := h]}) s').
Proof.
  unfold open_hold, _now, _require_amount_minor. intros Ho.
  do 6 (apply attempt_inv in Ho as [(e & ? & ->)|(? & ? & Ho)]; [by eauto|]). inv_res.
  apply transaction_cases in Ho as [?|(a0 & tx & -> & Hb & Ha)]; [by eauto|].
  right. destruct (get_open_account_hold_by_reference s (new_tx s) ref) as [h|] eqn:Hh.
  { left. simplify_eq. eauto. }
  right. unfold insert_account_hold in Hb. inv_res. bool_prop.
  match goal with H : _append_journal_entry _ _ _ _ _ = Ok _ |- _ =>
    apply append_journal_entry_inv in H as [rows Hst] end.
  eexists _, _, rows, _, _, _. split_and!; [done|done| |done|eassumption|exact Hst|].
  - apply eq_None_not_Some. unfold tx_get_account_hold in *.
    by rewrite (jg_t_holds _ _ _ _ _ _ _ Hst), lookup_empty in *.
  - apply (staged_committed _ _ _ _ _ _ _ _ Hst).
    by rewrite <- Ha, (set_hold_staged _ _ _ _ _ _ _ Hst).
Qed.

Lemma open_hold_inv s a m reason ref src res exp c :
  ledger_inv cfg s -> ledger_inv cfg (open_hold cfg s a m reason ref src res exp c).2.
Proof.
  intros Hinv. destruct (open_hold _ _ _ _ _ _ _ _ _ _) as [r s'] eqn:Ho. simpl.
  apply open_hold_cases in Ho as [(e & _ & ->)|[(h & _ & _ & Ha)|Hc]]; [done|..].
  { by eapply commit_same_chains; [..|exact Ha]; auto using quiet_new. }
  destruct Hc as (id & je & rows & tx & spec & exp' & _ & Hm & _ & _ & _ & Hst & Hcm).
  eapply commit_entry_inv; eauto. intros k h [<- <-]%lookup_singleton_Some.
  split; try done. rewrite (ce_journal _ _ _ _ _ _ _ _ _ Hst Hcm). simpl.
  rewrite lookup_insert_eq. eauto.
Qed.

(** The ways a [release_hold] commits: the hold already has that outcome and
    nothing is staged, or the closing entry is posted and the hold closed. *)
Lemma release_hold_cases s id outcome m c r s' :
  release_hold cfg s id outcome m c = (r, s') ->
  (exists e, r = Err e /\ s' = s) \/
  (exists h, s_holds s !! id = Some h /\ h_status h = outcome /\ h_status h <> "OPEN"%string /\
     r = Ok tt /\ _apply s (new_tx s) = Ok s') \/
  (exists h je rows tx ps key,
     let capture := default (h_amount_minor h) m in
     r = Ok tt /\ str_in outcome ["CAPTURED"; "VOIDED"; "EXPIRED"] = true /\
     s_holds s !! id = Some h /\ h_status h = "OPEN"%string /\
     (forall x, m = Some x -> 0 < x) /\ capture <= h_amount_minor h /\
     release_postings h outcome m capture = Ok ps /\
     journal_staged cfg s (mk_JournalEntrySpec (h_reference_id h) "HOLD"
       (hold_entry_type outcome) ("hold " +:+ lower outcome) (cfg_producer cfg) key ps)
       c je rows tx /\
     committed s je (with_holds tx {[ h_hold_id h := close_hold h outcome c je ]}) s').
Proof.
  unfold release_hold, _now. intros Ho.
  do 2 (apply attempt_inv in Ho as [(e & ? & ->)|(? & ? & Ho)]; [by eauto|]). inv_res.
  apply transaction_cases in Ho as [?|([] & tx & -> & Hb & Ha)]; [by eauto|]. right.
  unfold tx_get_account_hold in Hb. simpl in Hb. rewrite lookup_empty in Hb. simpl in Hb.
  destruct (s_holds s !! id) as [h|] eqn:Hh; [|done].
  case_bool_decide as Hopen; simpl in Hb.
  - right. unfold update_account_hold in Hb. inv_res. bool_prop.
    match goal with H : _append_journal_entry _ _ _ _ _ = Ok _ |- _ =>
      apply append_journal_entry_inv in H as [rows Hst] end.
    assert (a = default (h_amount_minor h) m /\ forall y, m = Some y -> 0 < y) as [-> Hpos].
    { destruct m as [y|]; simpl; inv_res; [|done]. unfold _require_amount_minor in *. inv_res.
      bool_prop. split; [done|]. by intros ? [= <-]. }
    eexists h, _, rows, _, _, _. split_and!; [done..|lia|eassumption|exact Hst|].
    apply (staged_committed _ _ _ _ _ _ _ _ Hst).
    by rewrite <- Ha, (set_hold_staged _ _ _ _ _ _ _ Hst).
  - left. case_bool_decide; [|done]. simplify_eq. exists h. done.
Qed.

Lemma release_hold_inv s id outcome m c :
  ledger_inv cfg s -> ledger_inv cfg (release_hold cfg s id outcome m c).2.
Proof.
  intros Hinv. destruct (release_hold _ _ _ _ _ _) as [r s'] eqn:Ho. simpl.
  apply release_hold_cases in Ho as [(e & _ & ->)|[(h & _ & _ & _ & _ & Ha)|Hc]]; [done|..].
  { by eapply commit_same_chains; [..|exact Ha]; auto using quiet_new. }
  destruct Hc as (h & je & rows & tx & ps & key & _ & Hout & Hh & _ & _ & _ & _ & Hst & Hcm).
  destruct (li_holds _ _ Hinv _ _ Hh) as [Hk ? ? Ho ? ?].
  pose proof (ce_journal _ _ _ _ _ _ _ _ _ Hst Hcm) as Hj.
  eapply commit_entry_inv; eauto. intros k h' [<- <-]%lookup_singleton_Some.
  apply bool_decide_eq_true in Hout. rewrite !elem_of_cons, elem_of_nil in Hout.
  split; simpl; try done.
  - by destruct Hout as [->|[->|[->|[]]]].
  - rewrite Hj, lookup_insert_is_Some'. auto.
  - split; [|done]. by destruct Hout as [->|[->|[->|[]]]].
  - intros je' [= <-]. rewrite Hj, lookup_insert_eq. eauto.
Qed.
(** ** Events *)

(** What the audit transaction stages: the event, and one AUDIT row that seals
    its envelope. *)
Lemma append_audit_inv s row t tx :
  append_audit cfg s (new_tx s) row t = Ok (tt, tx) ->
  ledger_inv cfg s ->
  quiet s tx /\ t_outbox tx = ∅ /\
  exists n r ev envelope, dense (chain_of s AUDIT_DOMAIN) n /\ s_audit s !! au_event_id row = None /\
    t_audit tx = {[ au_event_id row := ev ]} /\
    audit_event_payload ev = Ok envelope /\ sha256_canonical envelope = Ok (c_payload_hash r) /\
    au_chain_hash ev = c_chain_hash r /\ au_prev_chain_hash ev = c_prev_chain_hash r /\
    au_payload_hash ev = au_payload_hash row /\
    view_chain s tx AUDIT_DOMAIN !! Z.max n 1 = Some r /\
    chain_ok cfg AUDIT_DOMAIN (view_chain s tx AUDIT_DOMAIN)
      (view_checkpoints s tx AUDIT_DOMAIN) (Z.max n 1 + 1) /\
    (forall i, i < n -> view_chain s tx AUDIT_DOMAIN !! i = chain_of s AUDIT_DOMAIN !! i) /\
    view_chain s tx MONEY_DOMAIN = chain_of s MONEY_DOMAIN /\
    view_checkpoints s tx MONEY_DOMAIN = checkpoints_of s MONEY_DOMAIN.
Proof.
  unfold append_audit, insert_audit_event. intros Ha Hinv. inv_res. bool_prop.
  match goal with H : _append_chain_entry _ _ _ _ _ _ _ _ _ = Ok (?i, ?h, ?p, ?m) |- _ =>
    rename H into Hap; pose proof (append_chain_entry_tx _ _ _ _ _ _ _ _ _ _ _ Hap) as Htx end.
  destruct (li_audit _ _ Hinv) as (n & Hok).
  rewrite <- (view_chain_new s (new_tx s)), <- (view_checkpoints_new s (new_tx s)) in Hok by done.
  destruct (append_chain_entry_ok _ _ _ _ _ _ _ _ _ n _ _ _ _ Hap Hint Hok)
    as (-> & Hok' & Hoc & r & Hr & Het & Hph & Hpp & Hamt & Htm & Hch & Hprev).
  destruct (oc_other _ _ _ _ _ Hoc MONEY_DOMAIN) as [Hv1 Hv2]; [done|].
  rewrite (view_chain_new s (new_tx s)) in Hv1 by done.
  rewrite (view_checkpoints_new s (new_tx s)) in Hv2 by done.
  split; [split; simpl; rewrite Htx; done|]. split; [simpl; by rewrite Htx|].
  match goal with |- context [<[_ := ?e]> _] => exists n, r, e end.
  eexists. split_and!; [apply Hok|by apply eq_None_not_Some|by rewrite Htx|eassumption|by subst| | |done..| | |].
  - done.
  - done.
  - intros i Hi. rewrite <- (view_chain_new s (new_tx s) AUDIT_DOMAIN) by done.
    by apply (oc_old _ _ _ _ _ Hoc).
  - done.
  - done.
Qed.

(** The row a new audit event starts from. *)
Definition audit_row (spec : AuditEventSpec) (id ph pp pj : string) (t : datetime) :
    AuditEventRow :=
  mk_AuditEventRow id 0 (as_event_type spec) (redact (as_actor_id spec))
    (as_actor_type spec) (as_subject_type spec) (as_subject_id spec) (as_from_state spec)
    (as_to_state spec) ph pp pj "" "" true t 1.

(** A [write_audit_event] either leaves the store, or commits the audit
    transaction and returns the event's id. *)
Lemma write_audit_event_cases s spec o c r s' :
  write_audit_event cfg s spec o c = (r, s') ->
  s' = s \/
  exists id ph pp pj t tx, r = Ok id /\ s_audit s !! id = None /\
    append_audit cfg s (new_tx s) (audit_row spec id ph pp pj t) t = Ok (tt, tx) /\
    _apply s tx = Ok s'.
Proof.
  unfold write_audit_event. intros Hw.
  do 5 (apply attempt_inv in Hw as [(e & ? & ->)|(? & ? & Hw)]; [by left|]).
  destruct (s_audit s !! _) eqn:Hn; [left; by simplify_eq|].
  do 2 (apply attempt_inv in Hw as [(e & ? & ->)|(? & ? & Hw)]; [by left|]).
  destruct (transaction s _) as [r1 s1] eqn:Ht.
  apply transaction_cases in Ht as [(e & -> & ->)|([] & tx & -> & Hb & Ha)].
  - left. by destruct e; simplify_eq; try done; rewrite Hn in Hw; simplify_eq.
  - right. simplify_eq. eexists _, _, _, _, _, tx. split_and!; [done|done|exact Hb|done].
Qed.

Lemma write_audit_event_inv s spec o c :
  ledger_inv cfg s -> ledger_inv cfg (write_audit_event cfg s spec o c).2.
Proof.
  intros Hinv. destruct (write_audit_event _ _ _ _ _) as [r s'] eqn:Hw. simpl.
  apply write_audit_event_cases in Hw as
    [->|(id & ph & pp & pj & t & tx & _ & _ & Hb & Ha)]; [done|].
  apply append_audit_inv in Hb as (Hq & _ & Hrest); [|done].
  destruct Hrest as (n & r0 & ev & env & _ & _ & _ & _ & _ & _ & _ & _ & _ & Hok & _ & Hm & Hmc).
  by eapply commit_audit_chain.
Qed.

Lemma emit_event_cases s et st si p topic pr o c r s' :
  emit_event cfg s et st si p topic pr o c = (r, s') ->
  s' = s \/
  exists row tx, r = Ok (ob_event_id row) /\ s_outbox s !! ob_event_id row = None /\
    insert_outbox s (new_tx s) row = Ok tx /\ _apply s tx = Ok s'.
Proof.
  unfold emit_event. intros Hw.
  do 6 (apply attempt_inv in Hw as [(e & ? & ->)|(? & ? & Hw)]; [by left|]).
  destruct (s_outbox s !! _) eqn:Hn; [left; by simplify_eq|].
  destruct (transaction s _) as [r1 s1] eqn:Ht.
  apply transaction_cases in Ht as [(e & -> & ->)|([] & tx & -> & Hb & Ha)].
  - left. by destruct e; simplify_eq; try done; rewrite Hn in Hw; simplify_eq.
  - right. inv_res. eexists _, tx. split_and!; [..|eassumption|done]; done.
Qed.

Lemma emit_event_inv s et st si p topic pr o c :
  ledger_inv cfg s -> ledger_inv cfg (emit_event cfg s et st si p topic pr o c).2.
Proof.
  intros Hinv. destruct (emit_event _ _ _ _ _ _ _ _ _ _) as [r s'] eqn:Hw. simpl.
  apply emit_event_cases in Hw as [->|(row & tx & _ & _ & Hb & Ha)]; [done|].
  unfold insert_outbox in Hb. inv_res.
  by eapply commit_same_chains; [exact Hinv| | | |exact Ha].
Qed.

(** ** Every step keeps the invariant *)
Lemma run_inv s op : ledger_inv cfg s -> ledger_inv cfg (run s op).
Proof.
  intros Hinv. destruct op; simpl;
    auto using initialize_chain_inv, create_account_inv, post_journal_entry_inv,
      open_hold_inv, release_hold_inv, write_audit_event_inv, emit_event_inv.
  - unfold trial_balance_assertion, attempt. repeat case_match; simpl; auto using ledger_inv_gate.
  - unfold verify_chain, attempt. repeat case_match; simpl; auto using ledger_inv_gate.
Qed.

Lemma reachable_inv s : reachable s -> ledger_inv cfg s.
Proof.
  unfold reachable. pose proof (ledger_inv_empty cfg) as Hi. revert Hi.
  intros Hi Hr. induction Hr as [|x y z [s1 op] _ IH]; [done|]. by apply IH, run_inv.
Qed.
End Ops.
