(* ===== verification/LedgerHistory.v ===== *)
(** The ledger is append-only: no operation alters or removes an account, a
    journal entry, a posting, a chain row, an audit event or an outbox event.

    Every insertion of the store checks that its key is free, so a staged
    transaction is disjoint from the store ([fresh_tx]); committing a disjoint
    transaction extends the store. *)
From S2P Require Import Prelude Exceptions DateTime Sha256 Canonical LedgerTypes LedgerStore HashChain LedgerService LedgerCommit ChainInvariant JournalCommit LedgerInvariant LedgerOps.
Open Scope Z_scope.

Record fresh_tx (s : Store) (tx : MemTx) : Prop := {
  ft_accounts : forall k, is_Some (t_accounts tx !! k) -> s_accounts s !! k = None;
  ft_journal : forall k, is_Some (t_journal tx !! k) -> s_journal s !! k = None;
  ft_idem : forall k, is_Some (t_journal_by_idem tx !! k) -> s_journal_by_idem s !! k = None;
  ft_postings : forall p, p ∈ t_postings tx -> s_postings s !! po_posting_id p = None;
  ft_chain : forall d i, is_Some (t_chain tx !! (d, i)) -> chain_of s d !! i = None;
  ft_outbox : forall k, is_Some (t_outbox tx !! k) -> s_outbox s !! k = None;
  ft_audit : forall k, is_Some (t_audit tx !! k) -> s_audit s !! k = None
}.

(** What a state keeps of an earlier one. *)
Record extends (s s' : Store) : Prop := {
  ex_accounts : s_accounts s ⊆ s_accounts s';
  ex_journal : s_journal s ⊆ s_journal s';
  ex_idem : s_journal_by_idem s ⊆ s_journal_by_idem s';
  ex_postings : s_postings s ⊆ s_postings s';
  ex_chain : forall d, chain_of s d ⊆ chain_of s' d;
  ex_outbox : s_outbox s ⊆ s_outbox s';
  ex_audit : s_audit s ⊆ s_audit s'
}.

#[export] Instance extends_preorder : PreOrder extends.
Proof.
  split.
  - by intros s; split.
  - intros s1 s2 s3 [] []. split; try (etrans; eassumption).
    intros d. etrans; [apply ex_chain0|apply ex_chain1].
Qed.

(** ** Commit *)

Lemma rfold_apply_posting_old s ps s' :
  rfold apply_posting s ps = Ok s' ->
  s_accounts s' = s_accounts s /\ s_journal s' = s_journal s /\
  s_journal_by_idem s' = s_journal_by_idem s /\ s_chains s' = s_chains s /\
  s_outbox s' = s_outbox s /\ s_audit s' = s_audit s /\
  forall k, k ∉ po_posting_id <$> ps -> s_postings s' !! k = s_postings s !! k.
Proof.
  revert s. induction ps as [|p ps IH]; intros s Hr; cbn [rfold] in Hr; [by simplify_eq|].
  inv_res. apply apply_posting_inv in E as [_ ->].
  destruct (IH _ Hr) as (? & ? & ? & ? & ? & ? & Ho). simpl in *. split_and!; try done.
  intros k [Hk Hks]%not_elem_of_cons. rewrite Ho by done. by rewrite lookup_insert_ne.
Qed.

Lemma union_extends {A} (m1 m2 : gmap string A) :
  (forall k, is_Some (m1 !! k) -> m2 !! k = None) -> m2 ⊆ m1 ∪ m2.
Proof.
  intros Hf. apply map_subseteq_spec. intros k x Hk. apply lookup_union_Some_raw. right.
  split; [|done]. destruct (m1 !! k) eqn:Hm; [|done].
  by rewrite (Hf k) in Hk by eauto.
Qed.

Lemma apply_extends s tx s' : fresh_tx s tx -> _apply s tx = Ok s' -> extends s s'.
Proof.
  intros [] Ha. unfold _apply in Ha. inv_res.
  apply rfold_apply_posting_old in E as (Ha & Hj & Hi & Hc & Ho & Hau & Hp). simpl in *.
  split; simpl; rewrite ?Ha, ?Hj, ?Hi, ?Ho, ?Hau; try by apply union_extends.
  - apply map_subseteq_spec. intros k p Hk. rewrite Hp; [done|].
    intros (q & -> & Hq)%list_elem_of_fmap. by rewrite ft_postings0 in Hk.
  - intros d. apply map_subseteq_spec. intros i r Hr. unfold chain_of in *. simpl. rewrite Hc.
    change (view_chain s tx d !! i = Some r). rewrite view_chain_lookup.
    destruct (t_chain tx !! (d, i)) eqn:Ht; [|done].
    rewrite ft_chain0 in Hr by eauto. done.
Qed.

Lemma transaction_extends {A} s (body : MemTx -> res exn (A * MemTx)) :
  (forall a tx, body (new_tx s) = Ok (a, tx) -> fresh_tx s tx) ->
  extends s (transaction s body).2.
Proof.
  intros Hb. destruct (transaction s body) as [r s'] eqn:Ht.
  apply transaction_cases in Ht as [(e & -> & ->)|(a & tx & -> & Hbody & Ha)]; simpl; [done|].
  eapply apply_extends; eauto.
Qed.

(** ** Every insertion stages a free key *)

Lemma fresh_new s : fresh_tx s (new_tx s).
Proof.
  split; simpl; intros *; try (rewrite lookup_empty; by intros [??]).
  by intros ?%not_elem_of_nil.
Qed.

Lemma is_Some_insert_fresh {A} (m : gmap string A) (m' : gmap string A) i x :
  (forall k, is_Some (m !! k) -> m' !! k = None) -> m' !! i = None ->
  forall k, is_Some (<[i := x]> m !! k) -> m' !! k = None.
Proof. intros Hm Hi k [->|[_ ?]]%lookup_insert_is_Some; auto. Qed.

Create HintDb fresh.
#[export] Hint Resolve fresh_new is_Some_insert_fresh : fresh.

(** Invert the insertion, destruct the freshness and keep its other fields. *)
Ltac fresh_insert H :=
  intros H []; repeat res_step; subst; bool_prop; split; simpl; eauto with fresh.

Lemma tx_get_account_None s tx k :
  ~ is_Some (tx_get_account s tx k) -> s_accounts s !! k = None.
Proof.
  unfold tx_get_account, staged_or. intros Hn. apply eq_None_not_Some. intros Hs.
  apply Hn. destruct (t_accounts tx !! k); eauto.
Qed.

Lemma fresh_insert_account s tx row tx' :
  insert_account s tx row = Ok tx' -> fresh_tx s tx -> fresh_tx s tx'.
Proof.
  unfold insert_account. fresh_insert Hi.
  apply is_Some_insert_fresh; [done|]. by eapply tx_get_account_None.
Qed.

Lemma find_idem_None s tx k :
  ~ is_Some (find_entry_id_by_idempotency_key s tx k) -> s_journal_by_idem s !! k = None.
Proof.
  unfold find_entry_id_by_idempotency_key, staged_or_str. intros Hn.
  apply eq_None_not_Some. intros Hs. apply Hn. repeat case_match; eauto.
Qed.

Lemma fresh_insert_journal_entry s tx row i tx' :
  insert_journal_entry s tx row = Ok (i, tx') -> fresh_tx s tx -> fresh_tx s tx'.
Proof.
  unfold insert_journal_entry, journal_entry_exists. intros Hi []. inv_res. bool_prop.
  split; simpl; eauto with fresh.
  - apply is_Some_insert_fresh; [done|]. by apply eq_None_not_Some.
  - apply is_Some_insert_fresh; [done|]. by eapply find_idem_None.
Qed.

Lemma fresh_insert_posting s tx row tx' :
  insert_posting s tx row = Ok tx' -> fresh_tx s tx -> fresh_tx s tx'.
Proof.
  unfold insert_posting, posting_id_taken. fresh_insert Hi.
  intros p [Hp|Hp]%elem_of_app; [by auto|]. apply list_elem_of_singleton in Hp as ->.
  by apply eq_None_not_Some.
Qed.

Lemma fresh_insert_chain_entry s tx row tx' :
  insert_chain_entry s tx row = Ok tx' -> fresh_tx s tx -> fresh_tx s tx'.
Proof.
  unfold insert_chain_entry. fresh_insert Hi.
  intros d i [Heq|[_ ?]]%lookup_insert_is_Some; [|by auto].
  injection Heq as <- <-. by apply eq_None_not_Some.
Qed.

Lemma fresh_insert_checkpoint s tx row tx' :
  insert_checkpoint s tx row = Ok tx' -> fresh_tx s tx -> fresh_tx s tx'.
Proof. unfold insert_checkpoint. fresh_insert Hi. Qed.

Lemma fresh_insert_outbox s tx row tx' :
  insert_outbox s tx row = Ok tx' -> fresh_tx s tx -> fresh_tx s tx'.
Proof.
  unfold insert_outbox. fresh_insert Hi.
  apply is_Some_insert_fresh; [done|]. by apply eq_None_not_Some.
Qed.

Lemma fresh_insert_audit_event s tx row i tx' :
  insert_audit_event s tx row = Ok (i, tx') -> fresh_tx s tx -> fresh_tx s tx'.
Proof.
  unfold insert_audit_event. intros Hi []. inv_res. bool_prop.
  split; simpl; eauto with fresh.
  apply is_Some_insert_fresh; [done|]. by apply eq_None_not_Some.
Qed.

Lemma fresh_set_hold s tx row : fresh_tx s tx -> fresh_tx s (set_hold tx row).
Proof. intros []. by split. Qed.

Lemma fresh_insert_account_hold s tx row tx' :
  insert_account_hold s tx row = Ok tx' -> fresh_tx s tx -> fresh_tx s tx'.
Proof. unfold insert_account_hold. intros Hi Hf. inv_res. by apply fresh_set_hold. Qed.

Lemma fresh_update_account_hold s tx row tx' :
  update_account_hold s tx row = Ok tx' -> fresh_tx s tx -> fresh_tx s tx'.
Proof. unfold update_account_hold. intros Hi Hf. inv_res. by apply fresh_set_hold. Qed.

#[export] Hint Resolve fresh_insert_account fresh_insert_journal_entry fresh_insert_posting
  fresh_insert_chain_entry fresh_insert_checkpoint fresh_insert_outbox
  fresh_insert_audit_event fresh_insert_account_hold fresh_update_account_hold : fresh.

(** ** Operations *)

Section History.
Context `{HashFn} `{CheckpointSigner} `{Redactor} (cfg : LedgerCfg).

Lemma fresh_insert_genesis s tx d t row tx' :
  _insert_genesis cfg s tx d t = Ok (row, tx') -> fresh_tx s tx -> fresh_tx s tx'.
Proof. unfold _insert_genesis. intros Hi Hf. inv_res. eauto with fresh. Qed.

Lemma fresh_append_chain_entry s tx d et ph pp amt t r tx' :
  _append_chain_entry cfg s tx d et ph pp amt t = Ok (r, tx') -> fresh_tx s tx -> fresh_tx s tx'.
Proof.
  unfold _append_chain_entry. intros Ha Hf. res_step; [|done]. destruct a as [[pi phash] tx1].
  assert (Hf1 : fresh_tx s tx1).
  { clear Ha. destruct (lock_chain_tip s tx d); [by simplify_eq|]. inv_res.
    eauto using fresh_insert_genesis. }
  clear E. inv_res. case_match; inv_res; eauto with fresh.
Qed.

Lemma fresh_insert_postings s tx e t k ps rows tx' :
  insert_postings s tx e t k ps = Ok (rows, tx') -> fresh_tx s tx -> fresh_tx s tx'.
Proof.
  revert tx k rows. induction ps as [|p ps IH]; intros tx k rows Hi Hf; cbn [insert_postings] in Hi;
    inv_res; eauto with fresh.
Qed.

Lemma fresh_append_journal_entry s tx spec t id tx' :
  _append_journal_entry cfg s tx spec t = Ok (id, tx') -> fresh_tx s tx -> fresh_tx s tx'.
Proof.
  unfold _append_journal_entry. intros Ha Hf. inv_res.
  eauto 8 using fresh_append_chain_entry, fresh_insert_postings with fresh.
Qed.

Lemma attempt_extends {A B} s (c : res exn A) (k : A -> outcome B) :
  (forall a, c = Ok a -> extends s (k a).2) -> extends s (attempt s c k).2.
Proof. unfold attempt. destruct c; simpl; auto. done. Qed.

Lemma gate_extends s reason t : extends s (engage_write_gate s reason t).
Proof. by split. Qed.

Lemma open_hold_extends s a m reason ref src res exp c :
  extends s (open_hold cfg s a m reason ref src res exp c).2.
Proof.
  unfold open_hold. do 6 (apply attempt_extends; intros ? _). apply transaction_extends.
  intros r tx Hb. case_match; inv_res; [by apply fresh_new|].
  eauto using fresh_append_journal_entry with fresh.
Qed.

Lemma release_hold_extends s id outcome m c : extends s (release_hold cfg s id outcome m c).2.
Proof.
  unfold release_hold. do 2 (apply attempt_extends; intros ? _). apply transaction_extends.
  intros r tx Hb. destruct (tx_get_account_hold _ _ _); [|done].
  destruct (negb _); [destruct (bool_decide _); simplify_eq; by apply fresh_new|].
  inv_res. eauto using fresh_append_journal_entry with fresh.
Qed.

Lemma write_audit_event_extends s spec o c : extends s (write_audit_event cfg s spec o c).2.
Proof.
  destruct (write_audit_event cfg s spec o c) as [r s'] eqn:Hw. simpl.
  apply write_audit_event_cases in Hw as
    [->|(id & ph & pp & pj & t & tx & _ & _ & Hb & Ha)]; [done|].
  eapply apply_extends; [|exact Ha]. unfold append_audit in Hb. inv_res.
  eauto using fresh_append_chain_entry with fresh.
Qed.

Lemma emit_event_extends s et st si p topic pr o c :
  extends s (emit_event cfg s et st si p topic pr o c).2.
Proof.
  destruct (emit_event cfg s et st si p topic pr o c) as [r s'] eqn:Hw. simpl.
  apply emit_event_cases in Hw as [->|(row & tx & _ & _ & Hb & Ha)]; [done|].
  eapply apply_extends; [|exact Ha]. eauto with fresh.
Qed.

Lemma run_extends s op : extends s (run cfg s op).
Proof.
  destruct op; simpl; auto using open_hold_extends, release_hold_extends,
    write_audit_event_extends, emit_event_extends.
  - unfold initialize_chain. apply attempt_extends; intros t _. apply transaction_extends.
    intros r tx Hb. case_match; inv_res; eauto using fresh_insert_genesis with fresh.
  - unfold create_account. do 2 (apply attempt_extends; intros ? _). apply transaction_extends.
    intros r tx Hb. inv_res. eauto with fresh.
  - unfold post_journal_entry. do 2 (apply attempt_extends; intros ? _).
    apply transaction_extends. eauto using fresh_append_journal_entry with fresh.
  - unfold trial_balance_assertion. case_match; [|done]. apply attempt_extends. intros t _.
    apply gate_extends.
  - unfold verify_chain. case_match; [|done]. apply attempt_extends. intros t _.
    apply gate_extends.
Qed.

Lemma steps_extend s s' : rtc (step cfg) s s' -> extends s s'.
Proof.
  induction 1 as [|x y z [s1 op] _ IH]; [done|]. etrans; [apply run_extends|exact IH].
Qed.
End History.
