(* ===== verification/Demo.v ===== *)
(** A concrete ledger for the witnesses: SHA-256, a toy signer, no redaction,
    and a small run of the service. *)
From S2P Require Import Prelude Exceptions DateTime Sha256 Canonical LedgerTypes LedgerStore HashChain LedgerService LedgerCommit ChainInvariant JournalCommit LedgerInvariant LedgerOps.
Open Scope Z_scope.

#[export] Existing Instance Sha256.sha256_fn.

(** Signs by tagging; enough to exercise the checkpoint checks. *)
#[export] Instance demo_signer : CheckpointSigner.
Proof.
  refine {| sign h := ("sig:" +:+ h, "demo-key"%string); public_key_b64 := "demo-key";
            verify_checkpoint h s p := String.eqb s ("sig:" +:+ h) && String.eqb p "demo-key" |}.
  - done.
  - intros h. simpl fst. simpl snd. by rewrite String.eqb_refl.
Defined.

#[export] Instance demo_redactor : Redactor := {| redact x := x |}.

(** A checksum in the shape of a digest, quick to evaluate. *)
Fixpoint checksum (h : Z) (s : string) : Z :=
  match s with
  | EmptyString => h
  | String c r => checksum (Z.land (h * 33 + Z.of_nat (nat_of_ascii c)) 0xffffffffffffffff) r
  end.

Definition demo_digest (s : string) : string :=
  let d := Sha256.hex 16 (checksum 5381 s) in d +:+ d +:+ d +:+ d.

Definition quick_hash : HashFn.
Proof.
  refine {| sha256_hex := demo_digest |}; intros s; unfold demo_digest.
  - by rewrite !str_length_app, !Sha256.hex_length.
  - by rewrite !all_chars_app, !Sha256.hex_chars.
Defined.

Definition demo_cfg : LedgerCfg := mk_LedgerCfg "ledger-service" 2 ["demo-key"%string].
Definition demo_clock : datetime := mk_datetime true 63918000300007000.

Definition demo_account (type subtype tag : string) : AccountSpec :=
  mk_AccountSpec type subtype None None None (Some tag) true "BDT".

(** The ids of the two accounts, as [create_account] derives them. *)
Definition bank : string :=
  match system_account_id "SPONSOR_BANK_TCSA" "demo" with Ok a => a | Err _ => "" end.
Definition float : string :=
  match system_account_id "CUSTOMER_FLOAT" "demo" with Ok a => a | Err _ => "" end.
Definition reserve : string :=
  match system_account_id "CUSTOMER_HOLD_RESERVE" "demo" with Ok a => a | Err _ => "" end.

Definition demo_accounts : list Op :=
  [OpInitializeChain "MONEY" demo_clock;
   OpCreateAccount (demo_account "ASSET" "SPONSOR_BANK_TCSA" "demo") demo_clock;
   OpCreateAccount (demo_account "LIABILITY" "CUSTOMER_FLOAT" "demo") demo_clock;
   OpCreateAccount (demo_account "LIABILITY" "CUSTOMER_HOLD_RESERVE" "demo") demo_clock].

Definition demo_spec (key : string) (amount : Z) : JournalEntrySpec :=
  mk_JournalEntrySpec "pi_demo" "PAYMENT" "payment_captured" "top up" "kernel" key
    [posting bank "DEBIT" amount; posting float "CREDIT" amount].

Definition run_all (s : Store) (ops : list Op) : Store := fold_left (run demo_cfg) ops s.

(** Three accounts; then one posted entry of 5000 poisha. *)
Definition demo0 : Store := run_all empty_store demo_accounts.
Definition demo1 : Store :=
  run_all demo0 [OpPostJournalEntry (demo_spec "k1" 5000) demo_clock].
(** The open hold of 1200 on the float, and the id it gets. *)
Definition demo_hold : Op :=
  OpOpenHold float 1200 "card auth" "pi_hold" None (Some reserve) None demo_clock.
Definition demo2 : Store := run_all demo1 [demo_hold].
Definition hold_id : string := default "" (get_open_hold_id demo2 "pi_hold").

Example demo_balances :
  get_balance demo1 bank None = Ok 5000 /\ get_balance demo1 float None = Ok 5000.
Proof. vm_compute. split; reflexivity. Qed.

Lemma run_all_reachable ops s : rtc (step demo_cfg) s (run_all s ops).
Proof.
  revert s. induction ops as [|op ops IH]; intros s; simpl; [done|].
  eapply rtc_l; [constructor|apply IH].
Qed.

Lemma demo1_reachable : reachable demo_cfg demo1.
Proof. unfold reachable, demo1, demo0. etrans; apply run_all_reachable. Qed.

Lemma demo2_reachable : reachable demo_cfg demo2.
Proof. unfold reachable, demo2. etrans; [apply demo1_reachable|apply run_all_reachable]. Qed.

(** A call given by its result: for evaluating one call at a time. *)
Lemma outcome_eq {A} (o : res exn A * Store) v : o.1 = Ok v -> o = (Ok v, o.2).
Proof. destruct o. by intros [= ->]. Qed.

Definition the {A} (d : A) (o : res exn A * Store) : A := match o.1 with Ok v => v | Err _ => d end.

Lemma demo_interval : 0 < cfg_interval demo_cfg.
Proof. done. Qed.

(** A lookup that succeeds, by evaluation. *)
Lemma lookup_found {A} (o : option A) : bool_decide (is_Some o) = true -> exists x, o = Some x.
Proof. intros Ho%bool_decide_eq_true. exact Ho. Qed.

Lemma forallb_map {A} (m : gmap string A) (f : A -> bool) :
  forallb f (map_to_list m).*2 = true -> forall k x, m !! k = Some x -> f x = true.
Proof.
  rewrite List.forallb_forall. intros Hf k x Hx. apply Hf, list_elem_of_In, list_elem_of_fmap.
  exists (k, x). by rewrite elem_of_map_to_list.
Qed.

(** One more call keeps a state reachable; the equation is checked by unfolding
    [run] only. *)
Lemma reachable_run s op s' : reachable demo_cfg s -> run demo_cfg s op = s' -> reachable demo_cfg s'.
Proof. intros Hr <-. eapply rtc_r; [exact Hr|constructor]. Qed.
