(* ===== verification/LedgerBooks.v ===== *)
(** Properties of the books: in every reachable state the ledger balances, the
    maintained balances are the sums of the postings, and history is never
    rewritten; what posting an entry does, and when it is refused. *)
From S2P Require Import Prelude Exceptions DateTime Sha256 Canonical LedgerTypes LedgerStore HashChain LedgerService LedgerCommit ChainInvariant JournalCommit LedgerInvariant LedgerOps LedgerHistory Demo.
Open Scope Z_scope.

Section Books.
Context `{HashFn} `{CheckpointSigner} `{Redactor} (cfg : LedgerCfg).

(** C1: in every state the service can reach, total debits equal total credits
    over all postings, so [trial_balance_assertion] passes and leaves the store
    alone. *)
Theorem trial_balance_always s clock :
  0 < cfg_interval cfg -> reachable cfg s ->
  tb_total_debit_minor (trial_balance s) = tb_total_credit_minor (trial_balance s) /\
  trial_balance_assertion s clock = (Ok tt, s).
Proof.
  intros Hint Hr. pose proof (reachable_inv cfg Hint s Hr) as Hinv.
  assert (Ht : tb_total_debit_minor (trial_balance s) = tb_total_credit_minor (trial_balance s))
    by apply Hinv.
  split; [done|]. unfold trial_balance_assertion, tb_balanced. by rewrite Ht, Z.eqb_refl.
Qed.

Lemma delta_sign_sum s (p : PostingRow) row :
  s_accounts s !! po_account_id p = Some row -> posting_ok p ->
  (if str_in (ac_account_type row) ["ASSET"; "EXPENSE"] then delta_of s p else - delta_of s p) =
  debit_of p - credit_of p.
Proof.
  intros Ha [Hside _ _]. unfold delta_of. rewrite Ha. unfold _normal_balance_delta.
  unfold debit_of, credit_of, is_debit.
  apply is_debit_cases in Hside as [->| ->]; case_match;
    repeat case_bool_decide; try done; lia.
Qed.

(** The account row of a key, once. *)
Lemma account_values_nodup s :
  ledger_inv cfg s -> NoDup (map_to_list (s_accounts s)).*2.
Proof.
  intros Hinv. apply (NoDup_fmap_1 ac_account_id).
  assert ((map_to_list (s_accounts s)).*1 =
          ac_account_id <$> (map_to_list (s_accounts s)).*2) as <-.
  { rewrite <- list_fmap_compose. apply list_fmap_ext. intros i [k a] Hi. simpl.
    apply list_elem_of_lookup_2, elem_of_map_to_list in Hi.
    by destruct (li_accounts _ _ Hinv k a Hi) as [<- _]. }
  apply NoDup_fst_map_to_list.
Qed.

(** The sum of the balances of the accounts of the given types. *)
Definition total_of (s : Store) (types : list string) : Z :=
  sumZ (fun a => store_get_balance s (ac_account_id a))
    (filter (fun a => ac_account_type a ∈ types) (map_to_list (s_accounts s)).*2).

Definition sgn (a : AccountRow) : Z :=
  if str_in (ac_account_type a) DEBIT_NORMAL_TYPES then 1 else -1.

Lemma signed_posting s p k :
  ledger_inv cfg s -> s_postings s !! k = Some p ->
  sumZ (fun a => sgn a * delta_for s (ac_account_id a) p) (map_to_list (s_accounts s)).*2 =
  debit_of p - credit_of p.
Proof.
  intros Hinv Hp. destruct (li_postings _ _ Hinv _ _ Hp) as [_ Hok [row Hrow] _ _].
  destruct (li_accounts _ _ Hinv _ _ Hrow) as [Hid _].
  rewrite (sumZ_single _ _ row).
  - rewrite <- (delta_sign_sum s p row Hrow Hok). unfold delta_for, sgn.
    rewrite bool_decide_true by done. unfold DEBIT_NORMAL_TYPES. case_match; lia.
  - by apply account_values_nodup.
  - apply elem_of_map_values. eauto.
  - intros a (ka & Ha)%elem_of_map_values Hne. unfold delta_for.
    destruct (li_accounts _ _ Hinv _ _ Ha) as [Hka _].
    rewrite bool_decide_false; [lia|]. intros Heq. apply Hne. congruence.
Qed.

Lemma signed_balance s a :
  ledger_inv cfg s ->
  sgn a * store_get_balance s (ac_account_id a) =
  sumZ (fun p => sgn a * delta_for s (ac_account_id a) p) (map_to_list (s_postings s)).*2.
Proof.
  intros Hinv. unfold store_get_balance. rewrite (li_balances _ _ Hinv). apply sumZ_scale.
Qed.

(** The accounting equation.  In every reachable state the balances of the
    debit-normal accounts (assets and expenses) sum to the same amount as those
    of the liability, equity and income accounts. *)
Theorem accounting_equation s :
  0 < cfg_interval cfg -> reachable cfg s ->
  total_of s DEBIT_NORMAL_TYPES = total_of s ["LIABILITY"; "EQUITY"; "INCOME"].
Proof.
  intros Hint Hr. pose proof (reachable_inv cfg Hint s Hr) as Hinv.
  cut (sumZ (fun a => sgn a * store_get_balance s (ac_account_id a))
         (map_to_list (s_accounts s)).*2 = 0).
  - intros Hz. unfold total_of. rewrite !sumZ_filter_if. apply Z.sub_move_0_r.
    etrans; [|exact Hz]. rewrite <- Z.add_opp_r, (Z.opp_eq_mul_m1 (sumZ _ _)).
    rewrite Z.mul_comm, sumZ_scale, <- sumZ_add. apply sumZ_ext.
    intros a (k & Ha)%elem_of_map_values. destruct (li_accounts _ _ Hinv _ _ Ha) as (_ & Ht & _).
    unfold sgn. apply bool_decide_eq_true in Ht. unfold ACCOUNT_TYPES, str_in in *.
    rewrite !decide_bool_decide. rewrite !elem_of_cons, elem_of_nil in Ht.
    destruct Ht as [->|[->|[->|[->|[->|[]]]]]]; eval_decisions; lia.
  - rewrite (sumZ_ext _ (fun a => sumZ (fun p => sgn a * delta_for s (ac_account_id a) p)
      (map_to_list (s_postings s)).*2)) by (intros; by apply signed_balance).
    rewrite sumZ_swap, (sumZ_ext _ (fun p => debit_of p + (-1) * credit_of p)).
    + rewrite sumZ_add, <- sumZ_scale. pose proof (li_trial _ _ Hinv). unfold msum in *. lia.
    + intros p (k & Hp)%elem_of_map_values. rewrite (signed_posting s p k) by done. lia.
Qed.

(** The maintained balance is the recomputed one.  For an existing account,
    [get_balance] without a date equals [get_balance] as of any instant at or
    after every posting. *)
Theorem maintained_balance_is_recomputed s a row t :
  0 < cfg_interval cfg -> reachable cfg s -> s_accounts s !! a = Some row ->
  (forall k p, s_postings s !! k = Some p -> dt_leb (po_produced_at p) t = true) ->
  get_balance s a None = get_balance s a (Some t).
Proof.
  intros Hint Hr Ha Ht. pose proof (reachable_inv cfg Hint s Hr) as Hinv.
  unfold get_balance, get_account, get_balance_as_of, store_get_balance. rewrite Ha. simpl.
  do 2 f_equal. rewrite (li_balances _ _ Hinv). unfold msum.
  rewrite sumZ_filter_if. apply sumZ_ext. intros p (k & Hp)%elem_of_map_values.
  rewrite decide_True by eauto. unfold delta_for, delta_of, posting_delta.
  case_bool_decide as Hpa; [|done]. by rewrite Hpa, Ha.
Qed.

(** History is immutable.  Whatever calls are made after a state, every
    account, journal entry, idempotency key, posting, chain row, outbox event
    and audit event it held is still there, unchanged. *)
Theorem history_is_append_only s s' : rtc (step cfg) s s' -> extends s s'.
Proof. apply steps_extend. Qed.

(** Every journal entry of a reachable state is a double entry: at least two
    postings, each positive, in BDT, on one side, against an existing account,
    with debits equal to credits; and exactly its postings carry its id. *)
Theorem entries_are_double_entries s id e :
  0 < cfg_interval cfg -> reachable cfg s -> s_journal s !! id = Some e ->
  let rows := get_postings_for_entry s id in
  (2 <= length rows)%nat /\ sumZ debit_of rows = sumZ credit_of rows /\
  (forall p, p ∈ rows <-> s_postings s !! po_posting_id p = Some p /\ po_entry_id p = id) /\
  (forall p, p ∈ rows -> posting_ok p /\ is_Some (s_accounts s !! po_account_id p)).
Proof.
  intros Hint Hr Hj rows. pose proof (reachable_inv cfg Hint s Hr) as Hinv.
  destruct (li_in_chain _ _ Hinv id e Hj) as (i & r & _ & _ & Hs).
  assert (Hin : forall p, p ∈ rows <-> s_postings s !! po_posting_id p = Some p /\ po_entry_id p = id).
  { intros p. unfold rows, get_postings_for_entry. rewrite list_elem_of_omap. split.
    - intros (k & Hk & Hp). destruct (li_by_entry _ _ Hinv _ _ Hk) as (q & Hq & He).
      simplify_eq. destruct (li_postings _ _ Hinv _ _ Hp) as [-> _ _ _ _]. done.
    - intros [Hp <-]. exists (po_posting_id p). split; [|done].
      by destruct (li_postings _ _ Hinv _ _ Hp). }
  split_and!; [apply Hs|apply Hs|done|].
  intros p [Hp _]%Hin. by destruct (li_postings _ _ Hinv _ _ Hp).
Qed.
End Books.

Lemma trial_balance_always_witness :
  trial_balance_assertion demo1 demo_clock = (Ok tt, demo1).
Proof. apply (trial_balance_always demo_cfg); [done|apply demo1_reachable]. Defined.

Lemma accounting_equation_witness :
  total_of demo2 DEBIT_NORMAL_TYPES = total_of demo2 ["LIABILITY"; "EQUITY"; "INCOME"] /\
  total_of demo2 DEBIT_NORMAL_TYPES = 5000.
Proof.
  split; [apply (accounting_equation demo_cfg); [done|apply demo2_reachable]|by vm_compute].
Defined.

Lemma maintained_balance_is_recomputed_witness :
  get_balance demo1 bank None = get_balance demo1 bank (Some demo_clock).
Proof.
  destruct (lookup_found (s_accounts demo1 !! bank)) as [row Hrow]; [vm_compute; reflexivity|].
  apply (maintained_balance_is_recomputed demo_cfg _ _ row); [done|apply demo1_reachable|done|].
  apply (forallb_map (s_postings demo1) (fun p => dt_leb (po_produced_at p) demo_clock)).
  vm_compute. reflexivity.
Defined.

Lemma history_is_append_only_witness : extends demo1 demo2.
Proof. apply (history_is_append_only demo_cfg), run_all_reachable. Defined.

Definition demo_entry : string :=
  match entry_id_of (demo_spec "k1" 5000) with Ok id => id | Err _ => "" end.

Lemma entries_are_double_entries_witness :
  (2 <= length (get_postings_for_entry demo1 demo_entry))%nat.
Proof.
  destruct (lookup_found (s_journal demo1 !! demo_entry)) as [e He]; [vm_compute; reflexivity|].
  apply (entries_are_double_entries demo_cfg _ _ e demo_interval demo1_reachable He).
Defined.
