(* ===== verification/LedgerLiveness.v ===== *)
(** That posting succeeds when it should: no step of the atomic bundle raises
    on a well-formed store, given that the content-derived ids are free. *)
From S2P Require Import Prelude Exceptions DateTime Sha256 Canonical LedgerTypes LedgerStore HashChain LedgerService LedgerCommit ChainInvariant JournalCommit LedgerInvariant LedgerOps LedgerHistory Demo.
Open Scope Z_scope.

Section Live.
Context `{HashFn} `{CheckpointSigner} `{Redactor} (cfg : LedgerCfg).
Hypothesis Hint : 0 < cfg_interval cfg.

Lemma to_canonical_ts_aware t :
  tz_aware t = true -> exists ts, to_canonical_ts t = Ok ts /\ endswith "Z" ts = true.
Proof.
  intros Ht. unfold to_canonical_ts. rewrite Ht. simpl negb. cbv iota.
  eexists. split; [done|]. rewrite <- !str_app_assoc. apply endswith_app.
Qed.

Lemma compute_entry_hash_total prev i d et ph pp amt producer ts :
  str_in d CHAIN_DOMAINS = true -> truthy pp = true -> String.length prev = 64%nat ->
  0 <= i -> 0 <= amt -> endswith "Z" ts = true ->
  exists h, compute_entry_hash prev i d et ph pp amt producer ts = Ok h.
Proof.
  intros Hd Hpp Hl Hi Ha Hz. unfold compute_entry_hash.
  rewrite Hd, Hpp, Hz, Hl. destruct prev; [done|]. simpl truthy. cbn [negb orb Nat.eqb].
  destruct (Z.ltb_spec i 0); [lia|]. destruct (Z.ltb_spec amt 0); [lia|]. simpl. eauto.
Qed.

Lemma row_hash_length r : row_hashed r -> String.length (c_chain_hash r) = 64%nat.
Proof.
  intros (ts & _ & Hc). unfold compute_entry_hash in Hc. repeat res_step. rewrite <- Hc.
  apply sha256_hex_length.
Qed.

Lemma insert_chain_entry_total s tx row :
  str_in (c_chain_domain row) ["MONEY"; "AUDIT"] = true ->
  view_chain s tx (c_chain_domain row) !! c_chain_index row = None ->
  (c_is_checkpoint row = true -> is_Some (c_checkpoint_sig row) /\
     is_Some (c_checkpoint_public_key_b64 row) /\ is_Some (c_checkpoint_sequence_in_domain row)) ->
  (c_is_checkpoint row = false -> c_checkpoint_sig row = None /\
     c_checkpoint_public_key_b64 row = None /\ c_checkpoint_sequence_in_domain row = None) ->
  exists tx', insert_chain_entry s tx row = Ok tx'.
Proof.
  intros Hd Hv Ht Hf. unfold insert_chain_entry. rewrite view_chain_lookup in Hv.
  destruct (t_chain tx !! _); [done|]. simpl in Hv. rewrite Hv, Hd.
  rewrite !(bool_decide_false (is_Some None)) by (by intros [??]). simpl orb. cbv iota.
  simpl negb. cbv iota. destruct (c_is_checkpoint row).
  - destruct (Ht eq_refl) as ([? ->] & [? ->] & [? ->]). simpl. eauto.
  - destruct (Hf eq_refl) as (-> & -> & ->). simpl. eauto.
Qed.

Lemma insert_genesis_total s tx d t :
  str_in d CHAIN_DOMAINS = true -> tz_aware t = true -> view_chain s tx d !! 0 = None ->
  exists g tx', _insert_genesis cfg s tx d t = Ok (g, tx').
Proof.
  intros Hd Ht Hv. unfold _insert_genesis.
  destruct (to_canonical_ts_aware t Ht) as (ts & -> & Hz). cbn [rbind].
  destruct (compute_entry_hash_total GENESIS_PREV_HASH 0 d GENESIS_ENTRY_TYPE
    _GENESIS_PAYLOAD_HASH ("genesis://bdpay/" +:+ d) 0 (cfg_producer cfg) ts) as [h ->];
    [done..|]. cbn [rbind].
  destruct (insert_chain_entry_total s tx (mk_ChainEntryRow d 0 GENESIS_ENTRY_TYPE
    _GENESIS_PAYLOAD_HASH ("genesis://bdpay/" +:+ d) GENESIS_PREV_HASH 0 h false None None None
    (cfg_producer cfg) t 1)) as [tx' ->]; simpl; eauto; done.
Qed.

(** The next checkpoint sequence is not taken. *)
Lemma checkpoint_sequence_free s tx d n ch :
  chain_ok cfg d ch (view_checkpoints s tx d) n -> n mod cfg_interval cfg = 0 ->
  filter (fun c => cp_chain_domain c = d /\
    cp_checkpoint_sequence_in_domain c = n / cfg_interval cfg)
    (checkpoints_of s d ++ t_checkpoints tx) = [].
Proof.
  intros Hok Hm. destruct (filter _ _) as [|c l] eqn:Hf; [done|]. exfalso.
  assert (Hc : c ∈ c :: l) by left. rewrite <- Hf in Hc.
  apply list_elem_of_filter in Hc as [[Hd Hs] Hin].
  assert (c ∈ view_checkpoints s tx d) as Hv.
  { rewrite view_checkpoints_eq. apply elem_of_app.
    apply elem_of_app in Hin as [?|?]; [by left|right]. by apply list_elem_of_filter. }
  destruct (co_summaries _ _ _ _ _ Hok c Hv) as (_ & Hs2 & Hm2 & r & Hr & _).
  destruct (co_dense _ _ _ _ _ Hok) as [_ Hdn].
  assert (0 <= cp_chain_index_to c < n) by (apply Hdn; eauto).
  rewrite Hs2 in Hs. pose proof (Z.div_mod n (cfg_interval cfg)).
  pose proof (Z.div_mod (cp_chain_index_to c) (cfg_interval cfg)). lia.
Qed.

Lemma append_chain_entry_total s tx d et ph pp amt t n :
  str_in d CHAIN_DOMAINS = true -> tz_aware t = true -> truthy pp = true -> 0 <= amt ->
  chain_ok cfg d (view_chain s tx d) (view_checkpoints s tx d) n ->
  exists r tx', _append_chain_entry cfg s tx d et ph pp amt t = Ok (r, tx').
Proof.
  intros Hd Ht Hpp Hamt Hok.
  destruct (to_canonical_ts_aware t Ht) as (ts & Hts & Hz).
  assert (Htip : exists pi phash tx1,
    match lock_chain_tip s tx d with
    | None => let* (genesis, tx) := _insert_genesis cfg s tx d t in
              Ok (c_chain_index genesis, c_chain_hash genesis, tx)
    | Some tip => Ok (tip_chain_index tip, tip_chain_hash tip, tx)
    end = Ok (pi, phash, tx1)).
  { destruct (lock_chain_tip s tx d) eqn:Hl; [eauto|].
    destruct (insert_genesis_total s tx d t) as (g & tx' & ->); [done|done| |simpl; eauto].
    destruct (co_dense _ _ _ _ _ Hok) as [Hn Hdn].
    rewrite (lock_chain_tip_view s tx d n (co_dense _ _ _ _ _ Hok)) in Hl.
    destruct (Z.eqb_spec n 0) as [->|Hne].
    - apply eq_None_not_Some. rewrite Hdn. lia.
    - destruct (Hdn (n - 1)) as [_ [row Hrow]]; [lia|]. by rewrite Hrow in Hl. }
  destruct Htip as (pi & phash & tx1 & Htip). unfold _append_chain_entry. rewrite Htip.
  destruct (tip_or_genesis_ok _ _ _ _ _ _ _ _ _ Htip Hok) as (Hok1 & Hpi & (p & Hp & <-) & _).
  cbn [rbind]. rewrite Hts. cbn [rbind].
  destruct (compute_entry_hash_total (c_chain_hash p) (pi + 1) d et ph pp amt
    (cfg_producer cfg) ts) as [h ->]; [done|done| |lia|done|done|].
  { apply row_hash_length. eapply (co_rows _ _ _ _ _ Hok1), ro_hashed in Hp. done. }
  cbn [rbind]. destruct (sign h) as [sig pub].
  match goal with |- context [insert_chain_entry s tx1 ?r] =>
    destruct (insert_chain_entry_total s tx1 r) as [tx2 Htx2] end; [done|..].
  { simpl. apply eq_None_not_Some. rewrite (proj2 (co_dense _ _ _ _ _ Hok1)). lia. }
  { simpl. intros ->. eauto. }
  { simpl. intros ->. eauto. }
  rewrite Htx2. apply insert_chain_entry_inv in Htx2 as [-> _]. cbn [rbind].
  destruct ((pi + 1) mod cfg_interval cfg =? 0) eqn:Hcp; [|simpl; eauto].
  apply Z.eqb_eq in Hcp.
  edestruct make_ledger_id_total as [cid ->]; [reflexivity|reflexivity|]. cbn [rbind].
  unfold insert_checkpoint. simpl. rewrite (checkpoint_sequence_free s tx1 d (pi + 1) _ Hok1 Hcp).
  destruct (Z.leb_spec (cfg_interval cfg) 0); [lia|]. simpl. eauto.
Qed.

(** * Posting *)

(** The conditions under which an entry can be posted.  The last three are the
    freshness of the ids derived from its content. *)
Record postable (s : Store) (spec : JournalEntrySpec) (t : datetime) : Prop := {
  pb_valid : _validate_entry_spec spec = Ok tt;
  pb_clock : tz_aware t = true;
  pb_gate : wg_engaged (write_gate_state s) = false;
  pb_key : s_journal_by_idem s !! js_idempotency_key spec = None;
  pb_accounts : Forall (open_account s) (ps_account_id <$> js_postings spec);
  pb_entry_free : forall id, entry_id_of spec = Ok id -> s_journal s !! id = None;
  pb_rows_free : forall id rows, entry_id_of spec = Ok id ->
    posting_rows id t 0 (js_postings spec) = Ok rows ->
    NoDup (po_posting_id <$> rows) /\
    Forall (fun p => s_postings s !! po_posting_id p = None) rows;
  pb_event_free : forall id ev, entry_id_of spec = Ok id -> posted_event_id id = Ok ev ->
    s_outbox s !! ev = None
}.

Lemma validated_postings ps acc r :
  rfold validate_posting acc ps = Ok r ->
  Forall (fun p => str_in (ps_side p) SIDES = true /\ 0 < ps_amount_minor p /\
                   ps_currency p = "BDT"%string) ps.
Proof.
  revert acc. induction ps as [|p ps IH]; intros acc Hv; [constructor|].
  cbn [rfold] in Hv. unfold validate_posting at 1, _require_amount_minor in Hv. inv_res.
  bool_prop. constructor; [done|by eapply IH].
Qed.

Lemma posting_rows_total id t k ps : exists rows, posting_rows id t k ps = Ok rows.
Proof.
  revert k. induction ps as [|p ps IH]; intros k; cbn [posting_rows]; [eauto|].
  unfold make_posting_row. edestruct make_id_total as [pid ->]; [reflexivity|reflexivity|].
  cbn [rbind]. destruct (IH (S k)) as [rows ->]. simpl. eauto.
Qed.

Lemma insert_postings_total s tx id t k ps rows :
  posting_rows id t k ps = Ok rows ->
  Forall (fun p => str_in (ps_side p) SIDES = true /\ 0 < ps_amount_minor p /\
                   ps_currency p = "BDT"%string) ps ->
  Forall (fun p => is_Some (tx_get_account s tx (ps_account_id p))) ps ->
  journal_entry_exists s tx id = true ->
  NoDup (po_posting_id <$> t_postings tx ++ rows) ->
  Forall (fun p => s_postings s !! po_posting_id p = None) rows ->
  exists tx', insert_postings s tx id t k ps = Ok (rows, tx').
Proof.
  revert tx k rows. induction ps as [|p ps IH]; intros tx k rows Hr Hv Ha Hj Hnd Hf;
    cbn [posting_rows insert_postings] in *; [simplify_eq; eauto|].
  destruct (make_posting_row id t k p) as [row|] eqn:Hrow; [|done]. cbn [rbind] in *. inv_res.
  apply Forall_cons in Hv as [(Hs & Hm & Hc) Hv], Ha as [Ha1 Ha], Hf as [Hf1 Hf].
  assert (Hfields : po_side row = ps_side p /\ po_amount_minor row = ps_amount_minor p /\
    po_currency row = ps_currency p /\ po_account_id row = ps_account_id p /\ po_entry_id row = id).
  { unfold make_posting_row in Hrow. inv_res. done. }
  destruct Hfields as (Es & Em & Ec & Ea & Ee).
  assert (Hins : insert_posting s tx row = Ok (with_postings tx (t_postings tx ++ [row]))).
  { unfold insert_posting, posting_id_taken. rewrite Es, Em, Ec, Ea, Ee, Hs, Hj, Hc, Hf1.
    rewrite (bool_decide_false (po_posting_id row ∈ _)).
    2:{ rewrite fmap_app in Hnd. apply NoDup_app in Hnd as (_ & Hd & _). intros Hin.
        apply (Hd _ Hin). by left. }
    rewrite (bool_decide_false (is_Some None)) by (by intros [??]).
    rewrite (bool_decide_true (is_Some _)) by done.
    destruct (Z.leb_spec (ps_amount_minor p) 0); [lia|]. done. }
  rewrite Hins. cbn [rbind].
  edestruct (IH (with_postings tx (t_postings tx ++ [row])) (S k)) as [tx' ->]; try done.
  - simpl. by rewrite <- app_assoc.
  - simpl. eauto.
Qed.

Lemma check_accounts_total s ids :
  Forall (open_account s) ids -> check_accounts s (new_tx s) ids = Ok tt.
Proof.
  unfold check_accounts. induction 1 as [|a ids (row & Hrow & Hc) _ IH]; [done|].
  cbn [rfold]. unfold account_unusable, tx_get_account. simpl. rewrite lookup_empty. simpl.
  rewrite Hrow, Hc. exact IH.
Qed.

Lemma pointer_total id t : tz_aware t = true -> exists p, payload_pointer_for id t = Ok p /\ truthy p = true.
Proof.
  intros (ts & Hts & _)%to_canonical_ts_aware. unfold payload_pointer_for, _pointer_for.
  rewrite Hts. simpl. eauto.
Qed.

Lemma payload_hash_total e rows :
  tz_aware (je_produced_at e) = true -> exists h, journal_entry_payload_hash e rows = Ok h.
Proof.
  intros (ts & Hts & _)%to_canonical_ts_aware.
  unfold journal_entry_payload_hash, journal_entry_payload. rewrite Hts. cbn [rbind].
  apply sha256_canonical_total. cbn [writable dict map forallb fst snd is_KStr andb].
  rewrite andb_true_r. rewrite !andb_true_iff. split; [|done].
  apply forallb_forall. intros o Ho. apply list_elem_of_In, list_elem_of_fmap in Ho as (p & -> & _).
  done.
Qed.

Lemma append_journal_entry_total s spec t :
  ledger_inv cfg s -> postable s spec t ->
  exists id tx, _append_journal_entry cfg s (new_tx s) spec t = Ok (id, tx).
Proof.
  intros Hinv [Hv Hclk Hg Hk Hacc Hef Hrf Hof]. unfold _append_journal_entry.
  rewrite Hv. cbn [rbind].
  destruct (make_id_total "je" [("reference_id"%string, PStr (js_reference_id spec));
    ("entry_type"%string, PStr (js_entry_type spec));
    ("idempotency_key"%string, PStr (js_idempotency_key spec))]) as [id Hid];
    [reflexivity|reflexivity|].
  rewrite Hid. cbn [rbind]. unfold tx_write_gate_state. simpl first_engaged. cbv iota.
  rewrite Hg. unfold find_entry_id_by_idempotency_key.
  cbn [t_journal_by_idem new_tx]. rewrite lookup_empty. cbn [staged_or_str]. rewrite Hk.
  cbn [rbind]. rewrite check_accounts_total by done. cbn [rbind].
  unfold insert_journal_entry, journal_entry_exists, find_entry_id_by_idempotency_key.
  cbn [t_journal t_journal_by_idem new_tx je_entry_id je_idempotency_key].
  rewrite !lookup_empty, (Hef id Hid). cbn [staged_or_str]. rewrite Hk.
  rewrite !(bool_decide_false (is_Some None)) by (by intros [??]). cbn [orb rbind].
  destruct (posting_rows_total id t 0 (js_postings spec)) as [rows Hrows].
  destruct (Hrf id rows Hid Hrows) as [Hnd Hfresh].
  match goal with |- context [insert_postings s ?tx0 id t 0 (js_postings spec)] =>
    set (tx := tx0); destruct (insert_postings_total s tx id t 0 (js_postings spec) rows)
      as [tx1 Htx1]; try done end.
  { unfold _validate_entry_spec in Hv. inv_res. by eapply validated_postings. }
  { rewrite Forall_fmap in Hacc. eapply Forall_impl; [exact Hacc|].
    intros p (row & Hrow & _). unfold tx_get_account. simpl. rewrite lookup_empty. eauto. }
  { unfold journal_entry_exists. simpl. rewrite lookup_insert_eq. done. }
  rewrite Htx1. cbn [rbind].
  apply insert_postings_inv in Htx1 as [-> Hst].
  edestruct payload_hash_total as [ph ->]; [exact Hclk|]. cbn [rbind].
  destruct (pointer_total id t Hclk) as (pp & -> & Hpp). cbn [rbind].
  destruct (li_money _ _ Hinv) as (n & Hok & _).
  destruct (append_chain_entry_total s (with_postings tx (t_postings tx ++ rows)) MONEY_DOMAIN
    (js_entry_type spec) ph pp (sumZ po_amount_minor rows) t n) as (r & tx2 & Htx2); try done.
  { apply sumZ_nonneg. intros p Hp. destruct Hst as [_ Hok' _ _ _]. rewrite Forall_forall in Hok'.
    pose proof (pk_amount _ (Hok' p Hp)). lia. }
  rewrite Htx2. cbn [rbind]. apply append_chain_entry_tx in Htx2.
  destruct (make_id_total "obx" [("type"%string, PStr "journal_entry.posted");
    ("subject_id"%string, PStr id)]) as [ev Hev]; [reflexivity|reflexivity|].
  rewrite Hev. cbn [rbind]. destruct (to_canonical_ts_aware t Hclk) as (ts & -> & _). cbn [rbind].
  destruct (writable_total (posted_envelope cfg ev ts id spec (sumZ po_amount_minor rows)))
    as [js ->]; [reflexivity|]. cbn [rbind].
  unfold insert_outbox. cbn [ob_event_id]. rewrite (Hof id ev Hid Hev).
  assert (t_outbox tx2 = ∅) as -> by (by rewrite Htx2).
  rewrite lookup_empty. rewrite !(bool_decide_false (is_Some None)) by (by intros [??]).
  simpl. eauto.
Qed.

Lemma rfold_apply_posting_total s ps :
  Forall (fun p => is_Some (s_accounts s !! po_account_id p)) ps ->
  exists s', rfold apply_posting s ps = Ok s'.
Proof.
  revert s. induction ps as [|p ps IH]; intros s Ha; [simpl; eauto|].
  apply Forall_cons in Ha as [[row Hrow] Ha]. cbn [rfold]. unfold apply_posting at 1.
  rewrite Hrow. cbn [rbind]. by apply IH.
Qed.

Lemma balance_check_total s spec t id rows tx :
  ledger_inv cfg s -> journal_staged cfg s spec t id rows tx ->
  _deferred_balance_check s tx = Ok tt.
Proof.
  intros Hinv Hst. unfold _deferred_balance_check.
  pose proof (ce_rows_entry _ _ _ _ _ _ _ Hst) as He.
  assert (forallb (entry_balanced s tx) (po_entry_id <$> t_postings tx) = true) as ->; [|done].
  apply forallb_forall. intros e' He'%list_elem_of_In.
  rewrite (jg_t_postings _ _ _ _ _ _ _ Hst) in He'.
  apply list_elem_of_fmap in He' as (p & -> & Hp). rewrite Forall_forall in He.
  rewrite (He p Hp). apply Z.eqb_eq. unfold _all_postings_for_entry.
  rewrite (jg_t_postings _ _ _ _ _ _ _ Hst), filter_app.
  assert (filter (fun p => po_entry_id p = id) (map_to_list (s_postings s)).*2 = []) as ->.
  { apply filter_none. intros q (k & Hk)%elem_of_map_values Hq.
    destruct (li_postings _ _ Hinv _ _ Hk) as [_ _ _ [e Hj] _]. rewrite Hq in Hj.
    by rewrite (jg_new_id _ _ _ _ _ _ _ Hst) in Hj. }
  simpl. rewrite filter_every; [by eapply ce_balanced|done].
Qed.

Lemma apply_staged_total s spec t id rows tx :
  journal_staged cfg s spec t id rows tx -> exists s', _apply s tx = Ok s'.
Proof.
  intros Hst. unfold _apply. rewrite (jg_t_postings _ _ _ _ _ _ _ Hst).
  edestruct (rfold_apply_posting_total) as [s' ->]; [|simpl; eauto]. simpl.
  rewrite (jg_t_accounts _ _ _ _ _ _ _ Hst), (left_id_L ∅ (∪)).
  pose proof (pg_accounts _ _ _ _ _ _ (jg_rows _ _ _ _ _ _ _ Hst)) as Ha.
  eapply Forall_impl; [exact Ha|]. intros p. unfold tx_get_account. simpl.
  by rewrite lookup_empty.
Qed.

Lemma staged_postable s spec t id rows tx :
  tz_aware t = true -> journal_staged cfg s spec t id rows tx -> postable s spec t.
Proof.
  intros Ht Hst. destruct Hst as [? Hid]. split; try done.
  - intros id' Hid'. congruence.
  - intros id' rows' Hid' Hr'. assert (id' = id) as -> by congruence.
    assert (rows' = rows) as -> by congruence. destruct jg_rows as [_ _ _ Hf Hn].
    split; [|done]. apply Hn. constructor.
  - intros id' ev Hid' Hev. assert (id' = id) as -> by congruence.
    destruct jg_t_outbox as (o & _ & Ho & He & _). congruence.
Qed.
End Live.

(** * When posting succeeds *)

Section PostSucceeds.
Context `{HashFn} `{CheckpointSigner} `{Redactor} (cfg : LedgerCfg).

(** C21: posting succeeds exactly when it should.  On a reachable store
    [post_journal_entry] returns an entry id if and only if the entry is valid and
    balanced, the clock is zone-aware, the write gate is clear, the idempotency
    key is unused, every account exists and is open, and the ids derived from
    the content are unused; in every other case it raises and nothing changes. *)
Theorem post_succeeds_iff s spec clock :
  0 < cfg_interval cfg -> reachable cfg s ->
  ((exists id s', post_journal_entry cfg s spec clock = (Ok id, s')) <-> postable s spec clock) /\
  (~ postable s spec clock -> exists e, post_journal_entry cfg s spec clock = (Err e, s)).
Proof.
  intros Hint Hr. pose proof (reachable_inv cfg Hint s Hr) as Hinv.
  assert (Hiff : (exists id s', post_journal_entry cfg s spec clock = (Ok id, s')) <->
                 postable s spec clock).
  { split.
    - intros (id & s' & Hp). assert (tz_aware clock = true) as Ht.
      { unfold post_journal_entry, _now, attempt in Hp. by repeat case_match; simplify_eq/=; bool_prop. }
      apply post_journal_entry_Ok in Hp as (rows & tx & Hst & _). by eapply staged_postable.
    - intros Hpb. destruct (append_journal_entry_total cfg Hint s spec clock Hinv Hpb)
        as (id & tx & Htx).
      pose proof Htx as [rows Hst]%append_journal_entry_inv.
      destruct (apply_staged_total _ _ _ _ _ _ _ Hst) as [s' Ha].
      unfold post_journal_entry, attempt, _now, transaction.
      rewrite (pb_valid _ _ _ Hpb), (pb_clock _ _ _ Hpb). simpl.
      rewrite Htx, (balance_check_total _ _ _ _ _ _ _ Hinv Hst). simpl. rewrite Ha. eauto. }
  split; [exact Hiff|]. intros Hn.
  destruct (post_journal_entry cfg s spec clock) as [[id|e] s'] eqn:Hp.
  - destruct Hn. apply Hiff. eauto.
  - apply post_journal_entry_Err in Hp as ->. eauto.
Qed.
End PostSucceeds.

Lemma post_succeeds_iff_witness : postable demo1 (demo_spec "k2" 700) demo_clock.
Proof.
  apply (post_succeeds_iff demo_cfg demo1 (demo_spec "k2" 700) demo_clock demo_interval
           demo1_reachable).
  eexists _, _. apply outcome_eq. vm_compute. reflexivity.
Defined.
