(* ===== verification/LedgerPosting.v ===== *)
(** Properties of [post_journal_entry]: what a successful post does, which
    conditions refuse it and with which exception, that it succeeds when none of
    them holds, idempotency keys, and the write gate. *)
From S2P Require Import Prelude Exceptions DateTime Sha256 Canonical LedgerTypes LedgerStore HashChain LedgerService LedgerCommit ChainInvariant JournalCommit LedgerInvariant LedgerOps LedgerHistory Demo LedgerLiveness.
Open Scope Z_scope.

(** What a posting of the spec adds to the balance of account [a]. *)
Definition spec_delta (s : Store) (a : string) (sp : PostingSpec) : Z :=
  if bool_decide (ps_account_id sp = a) then
    match s_accounts s !! a with
    | Some row => _normal_balance_delta (ac_account_type row) (ps_side sp) (ps_amount_minor sp)
    | None => 0
    end
  else 0.

Lemma rows_delta s a e t ps rows :
  Forall2 (row_from e t) ps rows ->
  sumZ (delta_for s a) rows = sumZ (spec_delta s a) ps.
Proof.
  induction 1 as [|sp p ps rows (He & Ha & Hs & Hm & _) _ IH]; simpl; [done|]. rewrite IH.
  f_equal. unfold delta_for, delta_of, spec_delta. rewrite Ha, Hs, Hm.
  case_bool_decide as Heq; [|done]. by rewrite Heq.
Qed.

Section Posting.
Context `{HashFn} `{CheckpointSigner} `{Redactor} (cfg : LedgerCfg).

(** What a post does to the chains and checkpoints: the MONEY chain keeps its rows
    and gains the row sealing the entry (after the genesis row, on an empty chain),
    with one checkpoint summary of it at the multiples of the interval; the other
    domains are as they were. *)
Definition money_row_appended (s s' : Store) (id : string) (e : JournalEntryRow) : Prop :=
  exists n r, let i := Z.max n 1 in
    dense (chain_of s MONEY_DOMAIN) n /\ dense (chain_of s' MONEY_DOMAIN) (i + 1) /\
    (forall j, j < n -> chain_of s' MONEY_DOMAIN !! j = chain_of s MONEY_DOMAIN !! j) /\
    chain_of s' MONEY_DOMAIN !! i = Some r /\ sealed s' r id e /\
    (if i mod cfg_interval cfg =? 0
     then exists c, checkpoints_of s' MONEY_DOMAIN = checkpoints_of s MONEY_DOMAIN ++ [c] /\
            cp_chain_index_to c = i /\ cp_chain_hash_at_checkpoint c = c_chain_hash r
     else checkpoints_of s' MONEY_DOMAIN = checkpoints_of s MONEY_DOMAIN) /\
    forall d, d <> MONEY_DOMAIN ->
      chain_of s' d = chain_of s d /\ checkpoints_of s' d = checkpoints_of s d.

Lemma post_chains s spec clock id rows tx s' :
  0 < cfg_interval cfg -> ledger_inv cfg s -> journal_staged cfg s spec clock id rows tx ->
  committed s id (with_holds tx ∅) s' -> money_row_appended s s' id (entry_row s spec clock id).
Proof.
  intros Hint Hinv Hst Hcm.
  destruct (ce_money _ _ _ _ _ _ _ _ _ Hint Hinv Hst Hcm)
    as (n & r & Hok & _ & Hok' & Hrow & Hseal & Hold).
  destruct (jg_chain _ _ _ _ _ _ _ Hst n Hint Hok) as (_ & Hoc & _).
  pose proof (jg_summary _ _ _ _ _ _ _ Hst n Hint Hok) as Hsum.
  assert (Hcps : forall d, checkpoints_of s' d =
    checkpoints_of s d ++ filter (fun c => cp_chain_domain c = d) (t_checkpoints tx)).
  { intros d. rewrite (cm_checkpoints _ _ _ _ Hcm). apply (view_checkpoints_eq s (with_holds tx ∅)). }
  exists n, r. split_and!; [apply Hok|apply Hok'|done..| |].
  - case_match; [|by rewrite Hcps, Hsum, filter_nil, app_nil_r].
    destruct Hsum as (c & Hc & Hd & Hi). exists c.
    assert (Hl : checkpoints_of s' MONEY_DOMAIN = checkpoints_of s MONEY_DOMAIN ++ [c]).
    { by rewrite Hcps, Hc, filter_cons_True. }
    split_and!; [done..|].
    destruct (co_summaries _ _ _ _ _ Hok' c) as (_ & _ & _ & r' & Hr' & _ & Hh & _).
    { rewrite Hl. apply elem_of_app. right. apply list_elem_of_here. }
    rewrite Hi, Hrow in Hr'. by simplify_eq.
  - intros d Hd. destruct (oc_other _ _ _ _ _ Hoc d Hd) as [Hv _]. split.
    + rewrite (cm_chain _ _ _ _ Hcm). rewrite (view_chain_new s (new_tx s)) in Hv by done. exact Hv.
    + rewrite Hcps. case_match; [|by rewrite Hsum, filter_nil, app_nil_r].
      destruct Hsum as (c & -> & Hc & _). rewrite filter_cons_False by congruence. by rewrite filter_nil, app_nil_r.
Qed.

Lemma rows_total id t ps rows :
  Forall2 (row_from id t) ps rows -> sumZ po_amount_minor rows = sumZ ps_amount_minor ps.
Proof. induction 1 as [|sp p ps rows (_ & _ & _ & Hm & _) _ IH]; [done|]. simpl. by rewrite IH, Hm. Qed.

(** C31: a successful post does exactly this, component by component of the store:
    the entry gets the id derived from its content, its row and one row per posting
    are stored and no other journal or posting row changes, the idempotency key maps
    to it, each account's balance moves by the signed sum of its postings and by
    nothing else, the MONEY chain gains the row sealing the entry (after the genesis
    row if it was empty) with a checkpoint summary at the multiples of the interval,
    the other chains stay, the outbox gains the one [journal_entry.posted] row with
    its envelope, the entry counter moves by one, and accounts, holds, audit events,
    the audit counter and the gate are untouched. *)
Theorem post_journal_entry_effect s spec clock id s' :
  0 < cfg_interval cfg -> reachable cfg s ->
  post_journal_entry cfg s spec clock = (Ok id, s') ->
  entry_id_of spec = Ok id /\ s_journal s !! id = None /\
  s_journal s' = <[id := entry_row s spec clock id]> (s_journal s) /\
  s_journal_by_idem s' = <[js_idempotency_key spec := id]> (s_journal_by_idem s) /\
  Forall2 (row_from id clock) (js_postings spec) (get_postings_for_entry s' id) /\
  (forall k, k ∉ po_posting_id <$> get_postings_for_entry s' id ->
     s_postings s' !! k = s_postings s !! k) /\
  (forall e, e <> id -> s_postings_by_entry s' !! e = s_postings_by_entry s !! e) /\
  (forall a, store_get_balance s' a =
             store_get_balance s a + sumZ (spec_delta s a) (js_postings spec)) /\
  money_row_appended s s' id (entry_row s spec clock id) /\
  (exists o, posted_row cfg spec clock id (sumZ ps_amount_minor (js_postings spec)) = Ok o /\
     s_outbox s !! ob_event_id o = None /\ s_outbox s' = <[ob_event_id o := o]> (s_outbox s)) /\
  s_entry_index_seq s' = s_entry_index_seq s + 1 /\ s_audit_index_seq s' = s_audit_index_seq s /\
  s_accounts s' = s_accounts s /\ s_holds s' = s_holds s /\ s_audit s' = s_audit s /\
  s_gate_rows s' = s_gate_rows s.
Proof.
  intros Hint Hr (rows & tx & Hst & Hcm)%post_journal_entry_Ok.
  pose proof (reachable_inv cfg Hint s Hr) as Hinv.
  pose proof (ce_accounts _ _ _ _ _ _ _ _ _ Hst Hcm) as Hacc.
  pose proof (ce_get_new _ _ _ _ _ _ _ _ _ Hinv Hst Hcm) as Hget.
  assert (Hfrom : Forall2 (row_from id clock) (js_postings spec) rows) by apply Hst.
  destruct (cm_seqs _ _ _ _ Hcm) as [He Ha], (jg_t_seqs _ _ _ _ _ _ _ Hst) as [Hte Hta].
  simpl in He, Ha. rewrite Hte in He. rewrite Hta in Ha.
  split_and!; try by apply Hst.
  - by eapply ce_journal.
  - by eapply ce_idem.
  - by rewrite Hget.
  - rewrite Hget. intros k Hk. rewrite (cm_old _ _ _ _ Hcm); [done|]. simpl.
    by rewrite (jg_t_postings _ _ _ _ _ _ _ Hst).
  - apply Hcm.
  - intros a. unfold store_get_balance. rewrite (cm_balance _ _ _ _ Hcm). f_equal. simpl.
    rewrite (jg_t_postings _ _ _ _ _ _ _ Hst), <- (rows_delta s a id clock _ rows Hfrom).
    apply sumZ_ext. intros p _. unfold delta_for, delta_of. by rewrite Hacc.
  - by eapply post_chains.
  - destruct (jg_t_outbox _ _ _ _ _ _ _ Hst) as (o & Ho & Hnew & _ & Hrow).
    exists o. rewrite <- (rows_total id clock _ rows Hfrom). split_and!; [done..|].
    rewrite (cm_outbox _ _ _ _ Hcm). simpl. by rewrite Ho, insert_union_singleton_l.
  - lia.
  - lia.
  - done.
  - rewrite (cm_holds _ _ _ _ Hcm). simpl. by rewrite (left_id_L ∅ (∪)).
  - rewrite (cm_audit _ _ _ _ Hcm). simpl. rewrite (jg_t_audit _ _ _ _ _ _ _ Hst).
    by rewrite (left_id_L ∅ (∪)).
  - rewrite (cm_gates _ _ _ _ Hcm). simpl. rewrite (jg_t_gates _ _ _ _ _ _ _ Hst).
    by rewrite app_nil_r.
Qed.

(** The prefix of the call up to the duplicate check. *)
Lemma post_up_to_gate s spec clock :
  _validate_entry_spec spec = Ok tt -> tz_aware clock = true ->
  (forall e, (if wg_engaged (write_gate_state s)
              then Some (LedgerWriteGateEngagedError (wg_reason (write_gate_state s)))
              else match s_journal_by_idem s !! js_idempotency_key spec with
                   | Some id => Some (LedgerDuplicateError (js_idempotency_key spec) id)
                   | None => None
                   end) = Some e ->
   post_journal_entry cfg s spec clock = (Err e, s)).
Proof.
  intros Hv Ht e He. unfold post_journal_entry, attempt, _now, transaction.
  rewrite Hv, Ht. simpl negb. cbv iota. unfold _append_journal_entry. rewrite Hv. cbn [rbind].
  edestruct make_id_total as [id ->]; [reflexivity|reflexivity|]. cbn [rbind].
  unfold tx_write_gate_state. simpl first_engaged. cbv iota.
  destruct (wg_engaged (write_gate_state s)); [by simplify_eq|].
  unfold find_entry_id_by_idempotency_key. cbn [t_journal_by_idem new_tx].
  rewrite lookup_empty. simpl staged_or_str.
  destruct (s_journal_by_idem s !! js_idempotency_key spec); by simplify_eq.
Qed.

Lemma check_accounts_refuses s ids :
  ~ Forall (open_account s) ids ->
  exists a, check_accounts s (new_tx s) ids = Err (LedgerAccountNotFoundError a).
Proof.
  unfold check_accounts. induction ids as [|a ids IH]; intros Hn; [by destruct Hn|].
  cbn [rfold]. destruct (account_unusable s (new_tx s) a) eqn:Hu; [simpl; eauto|].
  apply IH. intros Hall. apply Hn. constructor; [|done]. by apply (account_usable s (new_tx s)).
Qed.

(** The refusals of [post_journal_entry] in the order the code makes them,
    each with its exception and the store untouched: an invalid entry, a naive
    clock, an engaged write gate, a spent idempotency key, an absent or closed
    account. *)
Theorem post_refusals s spec clock :
  (forall e, _validate_entry_spec spec = Err e ->
     post_journal_entry cfg s spec clock = (Err e, s)) /\
  (_validate_entry_spec spec = Ok tt -> tz_aware clock = false ->
     post_journal_entry cfg s spec clock = (Err (LedgerValidationError NaiveClock), s)) /\
  (_validate_entry_spec spec = Ok tt -> tz_aware clock = true ->
   wg_engaged (write_gate_state s) = true ->
     post_journal_entry cfg s spec clock =
     (Err (LedgerWriteGateEngagedError (wg_reason (write_gate_state s))), s)) /\
  (forall id, _validate_entry_spec spec = Ok tt -> tz_aware clock = true ->
   wg_engaged (write_gate_state s) = false ->
   s_journal_by_idem s !! js_idempotency_key spec = Some id ->
     post_journal_entry cfg s spec clock =
     (Err (LedgerDuplicateError (js_idempotency_key spec) id), s)) /\
  (_validate_entry_spec spec = Ok tt -> tz_aware clock = true ->
   wg_engaged (write_gate_state s) = false ->
   s_journal_by_idem s !! js_idempotency_key spec = None ->
   ~ Forall (open_account s) (ps_account_id <$> js_postings spec) ->
     exists a, post_journal_entry cfg s spec clock = (Err (LedgerAccountNotFoundError a), s)).
Proof.
  split_and!.
  - intros e Hv. unfold post_journal_entry, attempt. by rewrite Hv.
  - intros Hv Ht. unfold post_journal_entry, attempt, _now. by rewrite Hv, Ht.
  - intros Hv Ht Hg. apply post_up_to_gate; [done..|]. by rewrite Hg.
  - intros id Hv Ht Hg Hk. apply post_up_to_gate; [done..|]. by rewrite Hg, Hk.
  - intros Hv Ht Hg Hk [a Ha]%check_accounts_refuses. exists a.
    unfold post_journal_entry, attempt, _now, transaction.
    rewrite Hv, Ht. simpl negb. cbv iota. unfold _append_journal_entry. rewrite Hv. cbn [rbind].
    edestruct make_id_total as [id ->]; [reflexivity|reflexivity|]. cbn [rbind].
    unfold tx_write_gate_state. simpl first_engaged. cbv iota. rewrite Hg.
    unfold find_entry_id_by_idempotency_key. cbn [t_journal_by_idem new_tx].
    rewrite lookup_empty. simpl staged_or_str. rewrite Hk. cbn [rbind]. by rewrite Ha.
Qed.

(** An idempotency key is spent for ever.  Once an entry was posted under a
    key, whatever calls follow, any valid entry with that key is refused with
    [LedgerDuplicateError] naming the first entry, and changes nothing. *)
Theorem idempotency_key_spent s spec clock id s1 s2 spec' clock' :
  0 < cfg_interval cfg -> reachable cfg s ->
  post_journal_entry cfg s spec clock = (Ok id, s1) ->
  rtc (step cfg) s1 s2 ->
  js_idempotency_key spec' = js_idempotency_key spec ->
  _validate_entry_spec spec' = Ok tt -> tz_aware clock' = true ->
  wg_engaged (write_gate_state s2) = false ->
  post_journal_entry cfg s2 spec' clock' =
  (Err (LedgerDuplicateError (js_idempotency_key spec) id), s2).
Proof.
  intros Hint Hr (rows & tx & Hst & Hcm)%post_journal_entry_Ok Hrtc Hkey Hv Ht Hg.
  assert (Hidem : s_journal_by_idem s1 !! js_idempotency_key spec = Some id).
  { rewrite (ce_idem _ _ _ _ _ _ _ _ _ Hst Hcm). apply lookup_insert_eq. }
  pose proof (steps_extend _ _ _ Hrtc) as Hext.
  apply post_up_to_gate; [done..|]. rewrite Hg, Hkey.
  by rewrite (lookup_weaken _ _ _ _ Hidem (ex_idem _ _ Hext)).
Qed.

(** * The write gate *)

(** Same journal, postings, holds and balances. *)
Record frozen (s s' : Store) : Prop := {
  fz_journal : s_journal s' = s_journal s;
  fz_postings : s_postings s' = s_postings s;
  fz_holds : s_holds s' = s_holds s;
  fz_balances : forall a, store_get_balance s' a = store_get_balance s a;
  fz_gates : exists l, s_gate_rows s' = s_gate_rows s ++ l
}.

#[local] Instance frozen_preorder : PreOrder frozen.
Proof.
  split.
  - intros s. split; try done. exists []. by rewrite app_nil_r.
  - intros s1 s2 s3 [] []. split; try congruence.
    destruct fz_gates0 as [l1 H1'], fz_gates1 as [l2 H2']. exists (l1 ++ l2).
    by rewrite H2', H1', app_assoc.
Qed.

Lemma first_engaged_app l l' : is_Some (first_engaged l) -> is_Some (first_engaged (l ++ l')).
Proof. induction l as [|g l IH]; simpl; [by intros [??]|]. case_match; eauto. Qed.

Lemma frozen_engaged s s' :
  frozen s s' -> wg_engaged (write_gate_state s) = true -> wg_engaged (write_gate_state s') = true.
Proof.
  intros Hf. destruct (fz_gates _ _ Hf) as [l Hl]. unfold write_gate_state. rewrite Hl.
  destruct (first_engaged (s_gate_rows s)) eqn:He; [|done]. intros _.
  destruct (first_engaged_app (s_gate_rows s) l) as [g0 ->]; eauto.
Qed.

Lemma quiet_frozen s s' tx : quiet s tx -> _apply s tx = Ok s' -> frozen s s'.
Proof.
  intros Hq Ha. pose proof (cq_committed _ _ _ Hq Ha) as Hc.
  destruct (cq_journal _ _ _ Hq Ha) as (Hj & _ & Hh), (cq_postings _ _ _ Hq Ha) as [Hp _].
  split; try done; [|eexists; apply Hc].
  intros a. unfold store_get_balance. rewrite (cm_balance _ _ _ _ Hc), (q_postings _ _ Hq).
  simpl. lia.
Qed.

Lemma gate_frozen s reason t : frozen s (engage_write_gate s reason t).
Proof. split; try done. by eexists. Qed.

Lemma initialize_chain_frozen s d c : frozen s (initialize_chain cfg s d c).2.
Proof.
  destruct (initialize_chain cfg s d c) as [r s'] eqn:Hi. simpl.
  apply attempt_inv in Hi as [(e & _ & ->)|(t & _ & Hi)]; [done|].
  apply transaction_cases in Hi as [(e & _ & ->)|(a & tx & _ & Hb & Ha)]; [done|].
  eapply quiet_frozen; [|exact Ha]. destruct (lock_chain_tip s (new_tx s) d).
  - simplify_eq. apply quiet_new.
  - inv_res. apply insert_genesis_inv in E as [-> _]. by split.
Qed.

Lemma create_account_frozen s spec c : frozen s (create_account s spec c).2.
Proof.
  destruct (create_account s spec c) as [r s'] eqn:Hi. simpl.
  do 2 (apply attempt_inv in Hi as [(e & _ & ->)|(? & ? & Hi)]; [done|]).
  apply transaction_cases in Hi as [(e & _ & ->)|(a & tx & _ & Hb & Ha)]; [done|].
  eapply quiet_frozen; [|exact Ha]. unfold insert_account, tx_get_account in Hb.
  inv_res. bool_prop. split; try done. simpl in *. rewrite lookup_empty in *.
  intros k row [[<- <-]|[_ ?]]%lookup_insert_Some; [|done].
  split_and!; try done. by apply eq_None_not_Some.
Qed.

Lemma append_audit_quiet s row t tx :
  append_audit cfg s (new_tx s) row t = Ok (tt, tx) -> quiet s tx.
Proof.
  unfold append_audit, insert_audit_event. intros Ha. inv_res.
  match goal with Hap : _append_chain_entry _ _ _ _ _ _ _ _ _ = Ok _ |- _ =>
    apply append_chain_entry_tx in Hap as Htx end.
  split; simpl; rewrite Htx; done.
Qed.

Lemma run_frozen s op :
  wg_engaged (write_gate_state s) = true -> frozen s (run cfg s op).
Proof.
  intros Hg. destruct op; cbn [run].
  - apply initialize_chain_frozen.
  - apply create_account_frozen.
  - destruct (post_journal_entry cfg s spec clock) as [[id|e] s'] eqn:Hp; simpl.
    + apply post_journal_entry_Ok in Hp as (rows & tx & Hst & _).
      by rewrite (jg_gate _ _ _ _ _ _ _ Hst) in Hg.
    + by apply post_journal_entry_Err in Hp as ->.
  - destruct (open_hold _ _ _ _ _ _ _ _ _ _) as [r s'] eqn:Ho. simpl.
    apply open_hold_cases in Ho as [(e & _ & ->)|[(h & _ & _ & Ha)|Hc]]; [done|..].
    { eapply quiet_frozen; [|exact Ha]. apply quiet_new. }
    destruct Hc as (id & je & rows & tx & spec & exp' & _ & _ & _ & _ & _ & Hst & _).
    by rewrite (jg_gate _ _ _ _ _ _ _ Hst) in Hg.
  - destruct (release_hold _ _ _ _ _ _) as [r s'] eqn:Ho. simpl.
    apply release_hold_cases in Ho as [(e & _ & ->)|[(h & _ & _ & _ & _ & Ha)|Hc]]; [done|..].
    { eapply quiet_frozen; [|exact Ha]. apply quiet_new. }
    destruct Hc as (h & je & rows & tx & ps & key & _ & _ & _ & _ & _ & _ & _ & Hst & _).
    by rewrite (jg_gate _ _ _ _ _ _ _ Hst) in Hg.
  - destruct (write_audit_event cfg s spec occurred_at clock) as [r s'] eqn:Hw. simpl.
    apply write_audit_event_cases in Hw as [->|(id & ph & pp & pj & t & tx & _ & _ & Hb & Ha)]; [done|].
    apply append_audit_quiet in Hb. by eapply quiet_frozen.
  - destruct (emit_event _ _ _ _ _ _ _ _ _ _) as [r s'] eqn:Hw. simpl.
    apply emit_event_cases in Hw as [->|(row & tx & _ & _ & Hb & Ha)]; [done|].
    unfold insert_outbox in Hb. inv_res. eapply quiet_frozen; [|exact Ha]. by split.
  - unfold trial_balance_assertion, attempt. repeat case_match; simpl; auto using gate_frozen; done.
  - unfold verify_chain, attempt. repeat case_match; simpl; auto using gate_frozen; done.
Qed.

(** The write gate fails closed.  On any store whatsoever, reachable or
    tampered with, once the gate is engaged no sequence of calls changes a
    journal entry, a posting, a hold or a balance, and the gate stays engaged. *)
Theorem write_gate_freezes_money s s' :
  wg_engaged (write_gate_state s) = true -> rtc (step cfg) s s' ->
  frozen s s' /\ wg_engaged (write_gate_state s') = true.
Proof.
  intros Hg Hrtc. induction Hrtc as [s|s y z [s1 op] _ IH]; [by split|].
  pose proof (run_frozen s1 op Hg) as Hf.
  destruct IH as [Hf' Hg']; [by eapply frozen_engaged|]. split; [by etrans|done].
Qed.
End Posting.

Definition demo_entry2 : string :=
  match entry_id_of (demo_spec "k2" 700) with Ok id => id | Err _ => "" end.
Definition demo_post2 : res exn string * Store :=
  post_journal_entry demo_cfg demo1 (demo_spec "k2" 700) demo_clock.

Lemma demo_post2_Ok : demo_post2 = (Ok demo_entry2, demo_post2.2).
Proof. apply outcome_eq. vm_compute. reflexivity. Qed.

Lemma post_journal_entry_effect_witness :
  exists id s', post_journal_entry demo_cfg demo1 (demo_spec "k2" 700) demo_clock = (Ok id, s') /\
    s_journal s' = <[id := entry_row demo1 (demo_spec "k2" 700) demo_clock id]> (s_journal demo1).
Proof.
  exists demo_entry2, demo_post2.2. pose proof demo_post2_Ok as Hp. unfold demo_post2 in Hp at 1.
  split; [exact Hp|].
  pose proof (post_journal_entry_effect demo_cfg _ _ _ _ _ demo_interval demo1_reachable Hp) as He.
  exact (proj1 (proj2 (proj2 He))).
Defined.

Lemma idempotency_key_spent_witness :
  post_journal_entry demo_cfg demo_post2.2 (demo_spec "k2" 1) demo_clock =
  (Err (LedgerDuplicateError "k2" demo_entry2), demo_post2.2).
Proof.
  apply (idempotency_key_spent demo_cfg demo1 (demo_spec "k2" 700) demo_clock demo_entry2
           demo_post2.2 demo_post2.2 (demo_spec "k2" 1) demo_clock demo_interval demo1_reachable
           demo_post2_Ok (rtc_refl _ _) eq_refl); vm_compute; reflexivity.
Defined.

(** A posting deleted behind the service's back unbalances the books, and the
    trial balance assertion engages the gate. *)
Definition demo_posting : string :=
  default "" (fst <$> head (map_to_list (s_postings demo1))).
Definition demo_gated : Store :=
  match dba_delete_posting demo1 demo_posting with
  | Ok s => (trial_balance_assertion s demo_clock).2
  | Err _ => demo1
  end.

Lemma write_gate_freezes_money_witness : frozen demo_gated (run_all demo_gated [demo_hold]).
Proof.
  apply (write_gate_freezes_money demo_cfg); [vm_compute; reflexivity|apply run_all_reachable].
Defined.
