(* ===== verification/LedgerHolds.v ===== *)
(** Properties of account holds ([open_hold], [release_hold]): what opening and
    each way of closing a hold move, that a hold closes at most once, and that a
    reference has at most one open hold. *)
From S2P Require Import Prelude Exceptions DateTime Sha256 Canonical LedgerTypes LedgerStore HashChain LedgerService LedgerCommit ChainInvariant JournalCommit LedgerInvariant LedgerOps LedgerHistory Demo LedgerLiveness LedgerPosting.
Open Scope Z_scope.

(** * Finding an open hold *)

Lemma min_hold_fold l b : exists h, fold_left (fun best row =>
    match best with
    | None => Some row
    | Some b => if hold_before row b then Some row else Some b
    end) l (Some b) = Some h /\ (h = b \/ h ∈ l).
Proof.
  revert b. induction l as [|x l IH]; intros b; simpl; [eauto|].
  destruct (hold_before x b).
  - destruct (IH x) as (h & -> & [->|?]); eexists; (split; [done|]); right; [by left|by right].
  - destruct (IH b) as (h & -> & [->|?]); eexists; (split; [done|]); [by left|right; by right].
Qed.

Lemma min_hold_None l : min_hold l = None <-> l = [].
Proof.
  unfold min_hold. destruct l as [|x l]; simpl; [done|].
  destruct (min_hold_fold l x) as (h & -> & _). done.
Qed.

Lemma min_hold_Some l h : min_hold l = Some h -> h ∈ l.
Proof.
  unfold min_hold. destruct l as [|x l]; simpl; [done|].
  destruct (min_hold_fold l x) as (h' & -> & Hh). intros [= <-].
  destruct Hh as [->|?]; [by left|by right].
Qed.

Lemma no_open_hold s ref k h :
  get_open_account_hold_by_reference s (new_tx s) ref = None ->
  s_holds s !! k = Some h -> h_status h = "OPEN"%string -> h_reference_id h <> ref.
Proof.
  unfold get_open_account_hold_by_reference. rewrite min_hold_None. intros Hf Hh Ho Hr.
  assert (Hin : h ∈ filter (open_for ref)
    ((map_to_list (s_holds s)).*2 ++ (map_to_list (t_holds (new_tx s))).*2)).
  { apply list_elem_of_filter. split; [done|]. apply elem_of_app. left.
    apply elem_of_map_values. eauto. }
  rewrite Hf in Hin. by apply not_elem_of_nil in Hin.
Qed.

Section Holds.
Context `{HashFn} `{CheckpointSigner} `{Redactor} (cfg : LedgerCfg).

(** * Balance effects *)

(** The commit of an entry moves each balance by the signed sum of the spec's
    postings. *)
Lemma committed_balance s spec t id rows tx hs s' a :
  journal_staged cfg s spec t id rows tx -> committed s id (with_holds tx hs) s' ->
  store_get_balance s' a = store_get_balance s a + sumZ (spec_delta s a) (js_postings spec).
Proof.
  intros Hst Hcm. unfold store_get_balance. rewrite (cm_balance _ _ _ _ Hcm). f_equal. simpl.
  rewrite (jg_t_postings _ _ _ _ _ _ _ Hst).
  rewrite <- (rows_delta s a id t (js_postings spec) rows) by apply Hst.
  apply sumZ_ext. intros p _. unfold delta_for, delta_of.
  by rewrite (ce_accounts _ _ _ _ _ _ _ _ _ Hst Hcm).
Qed.

Lemma committed_hold s spec t id rows tx h s' :
  committed s id (with_holds tx {[ h_hold_id h := h ]}) s' ->
  journal_staged cfg s spec t id rows tx ->
  s_holds s' = <[h_hold_id h := h]> (s_holds s).
Proof.
  intros Hcm _. rewrite (cm_holds _ _ _ _ Hcm). simpl. by rewrite insert_union_singleton_l.
Qed.

(** Opening a hold.  If the reference has no open hold, a successful
    [open_hold] records an OPEN hold of the amount under the returned id and
    moves exactly that amount from the source account to the reserve; if it
    has one, its id is returned and nothing moves. *)
Theorem open_hold_effect s a m reason ref src rsv exp clock id s' :
  open_hold cfg s a m reason ref src rsv exp clock = (Ok id, s') ->
  (exists h, get_open_account_hold_by_reference s (new_tx s) ref = Some h /\
     id = h_hold_id h /\ frozen s s') \/
  (get_open_account_hold_by_reference s (new_tx s) ref = None /\ 0 < m /\
   s_holds s !! id = None /\
   (exists h, s_holds s' = <[id := h]> (s_holds s) /\ h_status h = "OPEN"%string /\
      h_amount_minor h = m /\ h_reference_id h = ref /\ h_account_id h = a /\
      h_source_account_id h = or_str src a /\ h_hold_reserve_account_id h = or_str rsv a) /\
   forall acct, store_get_balance s' acct = store_get_balance s acct +
     sumZ (spec_delta s acct) [posting (or_str src a) "DEBIT" m; posting (or_str rsv a) "CREDIT" m]).
Proof.
  intros Ho. apply open_hold_cases in Ho as [(e & ? & _)|[(h & Hh & [= ->] & Ha)|Hc]]; [done|..].
  { left. exists h. split_and!; try done. eapply quiet_frozen; [apply quiet_new|exact Ha]. }
  right. destruct Hc as (id' & je & rows & tx & spec & exp' & [= <-] & Hm & Hn & Hnone & Hsp & Hst & Hcm).
  split_and!; try done.
  - eexists. split; [exact (committed_hold _ _ _ _ _ _ _ _ Hcm Hst)|done].
  - intros acct. rewrite (committed_balance _ _ _ _ _ _ _ _ acct Hst Hcm).
    unfold hold_open_spec in Hsp. inv_res. done.
Qed.

(** The postings that close hold [h] with [outcome], capturing [capture]. *)
Definition closing_postings (h : AccountHoldRow) (outcome : string) (capture : Z) :
    list PostingSpec :=
  if bool_decide (outcome = "CAPTURED"%string) then
    posting (h_hold_reserve_account_id h) "DEBIT" (h_amount_minor h)
    :: posting (h_account_id h) "CREDIT" capture
    :: if 0 <? h_amount_minor h - capture
       then [posting (h_source_account_id h) "CREDIT" (h_amount_minor h - capture)] else []
  else [posting (h_hold_reserve_account_id h) "DEBIT" (h_amount_minor h);
        posting (h_source_account_id h) "CREDIT" (h_amount_minor h)].

Lemma release_postings_eq h outcome m capture ps :
  release_postings h outcome m capture = Ok ps -> ps = closing_postings h outcome capture.
Proof.
  unfold release_postings, closing_postings. case_bool_decide; intros Hr; inv_res; done.
Qed.

(** Closing a hold.  A successful [release_hold] on an OPEN hold closes it
    with the outcome and a closing entry: the whole amount leaves the reserve;
    on capture the captured part (positive, at most the hold) goes to the
    account and the unused rest back to the source, otherwise all goes back to
    the source.  On a hold already closed with that outcome nothing moves. *)
Theorem release_hold_effect s id outcome m clock s' :
  0 < cfg_interval cfg -> reachable cfg s ->
  release_hold cfg s id outcome m clock = (Ok tt, s') ->
  exists h, s_holds s !! id = Some h /\
  ((h_status h = outcome /\ h_status h <> "OPEN"%string /\ frozen s s') \/
   (h_status h = "OPEN"%string /\
    let capture := default (h_amount_minor h) m in
    0 < capture <= h_amount_minor h /\
    (exists je, s_holds s' = <[id := close_hold h outcome clock je]> (s_holds s) /\
       is_Some (s_journal s' !! je)) /\
    forall a, store_get_balance s' a =
      store_get_balance s a + sumZ (spec_delta s a) (closing_postings h outcome capture))).
Proof.
  intros Hint Hr Ho. pose proof (reachable_inv cfg Hint s Hr) as Hinv.
  apply release_hold_cases in Ho as [(e & ? & _)|[(h & Hh & Hs & Hn & _ & Ha)|Hc]]; [done|..].
  { exists h. split; [done|]. left. split_and!; try done.
    eapply quiet_frozen; [apply quiet_new|exact Ha]. }
  destruct Hc as (h & je & rows & tx & ps & key & _ & _ & Hh & Hopen & Hpos & Hle & Hps & Hst & Hcm).
  destruct (li_holds _ _ Hinv _ _ Hh) as [Hk Hamt _ _ _ _].
  exists h. split; [done|]. right. split; [done|]. split_and!.
  - destruct m as [x|]; simpl; [by apply Hpos|done].
  - done.
  - exists je. split.
    + rewrite <- Hk. exact (committed_hold _ _ _ _ _ _ (close_hold h outcome clock je) _ Hcm Hst).
    + rewrite (ce_journal _ _ _ _ _ _ _ _ _ Hst Hcm), lookup_insert_eq. eauto.
  - intros a. rewrite (committed_balance _ _ _ _ _ _ _ _ a Hst Hcm). simpl.
    by rewrite (release_postings_eq _ _ _ _ _ Hps).
Qed.

(** * A closed hold stays closed *)

(** What a call does to the table of holds: nothing, one new open hold of a
    reference that had none, or one open hold closed. *)
Inductive holds_step (s s' : Store) : Prop :=
| holds_same : s_holds s' = s_holds s -> holds_step s s'
| holds_opened id h :
    s_holds s !! id = None -> h_status h = "OPEN"%string ->
    get_open_account_hold_by_reference s (new_tx s) (h_reference_id h) = None ->
    s_holds s' = <[id := h]> (s_holds s) -> holds_step s s'
| holds_closed id h out c je :
    s_holds s !! id = Some h -> h_status h = "OPEN"%string ->
    str_in out ["CAPTURED"; "VOIDED"; "EXPIRED"] = true ->
    s_holds s' = <[id := close_hold h out c je]> (s_holds s) -> holds_step s s'.

Lemma run_holds s op :
  0 < cfg_interval cfg -> ledger_inv cfg s -> holds_step s (run cfg s op).
Proof.
  intros Hint Hinv.
  assert (Hq : forall s' tx, quiet s tx -> _apply s tx = Ok s' -> holds_step s s').
  { intros s' tx Hq Ha. by apply holds_same, (quiet_frozen _ _ _ Hq Ha). }
  destruct op; cbn [run].
  - by apply holds_same, initialize_chain_frozen.
  - by apply holds_same, create_account_frozen.
  - apply holds_same. destruct (post_journal_entry cfg s spec clock) as [[id'|e] s'] eqn:Hp; simpl.
    + apply post_journal_entry_Ok in Hp as (rows & tx & Hst & Hcm).
      rewrite (cm_holds _ _ _ _ Hcm). simpl. by rewrite (left_id_L ∅ (∪)).
    + by apply post_journal_entry_Err in Hp as ->.
  - destruct (open_hold _ _ _ _ _ _ _ _ _ _) as [r s'] eqn:Ho. simpl.
    apply open_hold_cases in Ho as [(e & _ & ->)|[(h' & _ & _ & Ha)|Hc]]; [by apply holds_same|..].
    { eapply Hq; [apply quiet_new|exact Ha]. }
    destruct Hc as (id' & je & rows & tx & spec & exp' & _ & _ & Hn & Hno & _ & Hst & Hcm).
    eapply holds_opened; [exact Hn| | |exact (committed_hold _ _ _ _ _ _ _ _ Hcm Hst)]; done.
  - destruct (release_hold _ _ _ _ _ _) as [r s'] eqn:Ho. simpl.
    apply release_hold_cases in Ho as [(e & _ & ->)|[(h' & _ & _ & _ & _ & Ha)|Hc]]; [by apply holds_same|..].
    { eapply Hq; [apply quiet_new|exact Ha]. }
    destruct Hc as (h' & je & rows & tx & ps & key & _ & Hout & Hh' & Hop & _ & _ & _ & Hst & Hcm).
    pose proof (committed_hold _ _ _ _ _ _ (close_hold h' outcome clock je) _ Hcm Hst) as Hs.
    destruct (li_holds _ _ Hinv _ _ Hh') as [Hk _ _ _ _ _]. simpl in Hs. rewrite Hk in Hs.
    by eapply holds_closed.
  - destruct (write_audit_event cfg s spec occurred_at clock) as [r s'] eqn:Hw. simpl.
    apply write_audit_event_cases in Hw as [->|(? & ? & ? & ? & ? & tx & _ & _ & Hb & Ha)]; [by apply holds_same|].
    apply append_audit_inv in Hb as [Hqt _]; [|done|done]. by eapply Hq.
  - destruct (emit_event _ _ _ _ _ _ _ _ _ _) as [r s'] eqn:Hw. simpl.
    apply emit_event_cases in Hw as [->|(row & tx & _ & _ & Hb & Ha)]; [by apply holds_same|].
    unfold insert_outbox in Hb. inv_res. eapply Hq; [|exact Ha]. by split.
  - apply holds_same. unfold trial_balance_assertion, attempt. by repeat case_match.
  - apply holds_same. unfold verify_chain, attempt. by repeat case_match.
Qed.

(** A call leaves a hold as it is, or closes it if it was open. *)
Definition hold_kept (h h' : AccountHoldRow) : Prop :=
  h' = h \/ (h_status h = "OPEN"%string /\ exists out c je, h' = close_hold h out c je /\
             str_in out ["CAPTURED"; "VOIDED"; "EXPIRED"] = true).

Lemma step_hold s s' id h :
  holds_step s s' -> s_holds s !! id = Some h ->
  exists h', s_holds s' !! id = Some h' /\ hold_kept h h'.
Proof.
  intros [Hs|id' h' Hn _ _ Hs|id' h' out c je Hh' Ho Hout Hs] Hh; rewrite Hs.
  - exists h. by split; [|left].
  - exists h. split; [|by left]. rewrite lookup_insert_ne; congruence.
  - destruct (decide (id' = id)) as [->|Hne].
    + simplify_eq. eexists. rewrite lookup_insert_eq. split; [done|]. right. eauto 10.
    + exists h. rewrite lookup_insert_ne by done. by split; [|left].
Qed.

Lemma close_hold_not_open h out c je :
  str_in out ["CAPTURED"; "VOIDED"; "EXPIRED"] = true ->
  h_status (close_hold h out c je) <> "OPEN"%string.
Proof.
  unfold str_in. rewrite bool_decide_eq_true, !elem_of_cons, elem_of_nil. simpl.
  by intros [->|[->|[->|[]]]].
Qed.

Lemma hold_kept_trans h1 h2 h3 : hold_kept h1 h2 -> hold_kept h2 h3 -> hold_kept h1 h3.
Proof.
  intros [->|(Ho & out & c & je & -> & Hout)] H23; [done|].
  destruct H23 as [->|(Ho' & _)]; [by right; eauto 10|].
  by apply close_hold_not_open in Ho'.
Qed.

Lemma steps_hold s s' id h :
  0 < cfg_interval cfg -> ledger_inv cfg s -> s_holds s !! id = Some h -> rtc (step cfg) s s' ->
  ledger_inv cfg s' /\ exists h', s_holds s' !! id = Some h' /\ hold_kept h h'.
Proof.
  intros Hint Hinv Hh Hrtc. revert h Hh.
  induction Hrtc as [s|s y z [s1 op] _ IH]; intros h Hh; [split; [done|exists h; by split; [|left]]|].
  destruct (step_hold _ _ id h (run_holds s1 op Hint Hinv) Hh) as (h1 & Hh1 & Hk1).
  destruct (IH (run_inv cfg Hint s1 op Hinv) h1 Hh1) as (Hi & h2 & Hh2 & Hk2).
  split; [done|]. exists h2. split; [done|]. by eapply hold_kept_trans.
Qed.

(** A hold closes at most once.  After a hold is closed, whatever calls
    follow, it keeps its outcome; releasing it again with that outcome succeeds
    and moves nothing, and with another outcome raises and changes nothing. *)
Theorem hold_closes_once s s' id h outcome m clock :
  0 < cfg_interval cfg -> reachable cfg s ->
  s_holds s !! id = Some h -> h_status h <> "OPEN"%string ->
  rtc (step cfg) s s' ->
  str_in outcome ["CAPTURED"; "VOIDED"; "EXPIRED"] = true -> tz_aware clock = true ->
  s_holds s' !! id = Some h /\
  if bool_decide (outcome = h_status h)
  then exists s'', release_hold cfg s' id outcome m clock = (Ok tt, s'') /\ frozen s' s''
  else release_hold cfg s' id outcome m clock =
       (Err (LedgerValidationError (HoldNotOpen id (h_status h) outcome)), s').
Proof.
  intros Hint Hr Hh Hcl Hrtc Hout Ht. pose proof (reachable_inv cfg Hint s Hr) as Hinv.
  assert (Hh' : s_holds s' !! id = Some h).
  { destruct (steps_hold _ _ _ _ Hint Hinv Hh Hrtc) as (_ & h' & Hh' & [->|[Ho _]]); done. }
  split; [done|]. unfold release_hold, _now. rewrite Hout, Ht. cbn [negb attempt].
  unfold transaction, tx_get_account_hold. cbn [t_holds new_tx]. rewrite lookup_empty, Hh'.
  cbn [staged_or]. rewrite (bool_decide_false (h_status h = "OPEN"%string)) by done.
  cbn [negb]. case_bool_decide as He.
  - rewrite bool_decide_true by done. unfold _deferred_balance_check. cbn.
    eexists. split; [reflexivity|]. eapply quiet_frozen; [apply quiet_new|reflexivity].
  - rewrite bool_decide_false by done. done.
Qed.

(** * Opening and voiding cancel *)

Lemma delta_opposite type m :
  _normal_balance_delta type "DEBIT" m = - _normal_balance_delta type "CREDIT" m.
Proof. unfold _normal_balance_delta. case_match; eval_decisions; lia. Qed.

Lemma spec_delta_opposite s s2 x a m side :
  side = "DEBIT"%string \/ side = "CREDIT"%string ->
  open_account s x -> s_accounts s ⊆ s_accounts s2 ->
  spec_delta s2 a (posting x (if bool_decide (side = "DEBIT"%string) then "CREDIT" else "DEBIT") m) =
  - spec_delta s a (posting x side m).
Proof.
  intros Hside (row & Hrow & _) Hsub. unfold spec_delta. cbn [ps_account_id ps_side ps_amount_minor posting].
  case_bool_decide as Hx; [|lia]. subst a.
  rewrite Hrow, (lookup_weaken _ _ _ _ Hrow Hsub).
  destruct Hside as [->| ->]; eval_decisions; rewrite ?delta_opposite; lia.
Qed.

(** Voiding undoes opening.  Open a hold, let any calls happen, then void or
    expire it while it is still open: every balance then moves by exactly the
    opposite of what opening moved it. *)
Theorem void_reverses_open s a m reason ref src rsv exp clock id s1 s2 h outcome m' clock' s3 :
  0 < cfg_interval cfg -> reachable cfg s ->
  get_open_account_hold_by_reference s (new_tx s) ref = None ->
  open_hold cfg s a m reason ref src rsv exp clock = (Ok id, s1) ->
  rtc (step cfg) s1 s2 ->
  s_holds s2 !! id = Some h -> h_status h = "OPEN"%string ->
  outcome <> "CAPTURED"%string ->
  release_hold cfg s2 id outcome m' clock' = (Ok tt, s3) ->
  forall acct, store_get_balance s3 acct - store_get_balance s2 acct =
               - (store_get_balance s1 acct - store_get_balance s acct).
Proof.
  intros Hint Hr Hnone Hopen Hrtc Hh Ho Hout Hrel acct.
  pose proof (reachable_inv cfg Hint s Hr) as Hinv.
  assert (Hinv1 : ledger_inv cfg s1).
  { replace s1 with (open_hold cfg s a m reason ref src rsv exp clock).2 by (by rewrite Hopen).
    by apply open_hold_inv. }
  assert (Hext : s_accounts s ⊆ s_accounts s2).
  { etrans; [|apply (ex_accounts s1 s2), (steps_extend cfg), Hrtc].
    replace s1 with (open_hold cfg s a m reason ref src rsv exp clock).2 by (by rewrite Hopen).
    apply open_hold_extends. }
  apply open_hold_cases in Hopen as [(e & ? & _)|[(h' & Hh' & _)|Hc]]; [done|congruence|].
  destruct Hc as (id' & je & rows & tx & spec & exp' & [= <-] & _ & _ & _ & Hsp & Hst & Hcm).
  rewrite (committed_balance _ _ _ _ _ _ _ _ acct Hst Hcm).
  pose proof (committed_hold _ _ _ _ _ _ _ _ Hcm Hst) as Hholds. simpl in Hholds.
  destruct (steps_hold s1 s2 id _ Hint Hinv1 ltac:(rewrite Hholds; apply lookup_insert_eq) Hrtc)
    as (Hinv2 & h2 & Hh2 & Hk). rewrite Hh in Hh2. simplify_eq.
  destruct Hk as [->|(_ & out & c & je' & -> & Hclosed)].
  2:{ by apply (close_hold_not_open _ _ _ _ Hclosed) in Ho. }
  apply release_hold_cases in Hrel as [(e & ? & _)|[(h' & Hh' & _ & Hno & _)|Hc]];
    [done|by simplify_eq|].
  destruct Hc as (h2 & je2 & rows2 & tx2 & ps & key & _ & _ & Hh2 & _ & _ & _ & Hps & Hst2 & Hcm2).
  rewrite Hh in Hh2. simplify_eq.
  rewrite (committed_balance _ _ _ _ _ _ _ _ acct Hst2 Hcm2). cbn [js_postings].
  rewrite (release_postings_eq _ _ _ _ _ Hps). unfold closing_postings.
  rewrite bool_decide_false by done.
  pose proof (jg_accounts _ _ _ _ _ _ _ Hst) as Hacc. unfold hold_open_spec in Hsp. inv_res.
  simpl in Hacc. apply Forall_cons in Hacc as [Hs Hacc]. apply Forall_cons in Hacc as [Hv _].
  pose proof (spec_delta_opposite s s2 _ acct m "DEBIT" (or_introl eq_refl) Hs Hext) as Hd.
  pose proof (spec_delta_opposite s s2 _ acct m "CREDIT" (or_intror eq_refl) Hv Hext) as Hc.
  simpl in Hd, Hc. cbn [sumZ foldr js_postings h_hold_reserve_account_id h_source_account_id
    h_amount_minor]. rewrite Hd, Hc. lia.
Qed.

(** * One open hold per reference *)

Definition one_open (s : Store) : Prop :=
  forall k1 k2 h1 h2, s_holds s !! k1 = Some h1 -> s_holds s !! k2 = Some h2 ->
    h_status h1 = "OPEN"%string -> h_status h2 = "OPEN"%string ->
    h_reference_id h1 = h_reference_id h2 -> k1 = k2.

Lemma one_open_step s s' : holds_step s s' -> one_open s -> one_open s'.
Proof.
  intros [Hs|id h Hn Ho Hno Hs|id h out c je Hh Ho Hout Hs] Hone k1 k2 h1 h2;
    rewrite Hs; [by apply Hone|..].
  - intros [[<- <-]|[Hne1 Hk1]]%lookup_insert_Some [[<- <-]|[Hne2 Hk2]]%lookup_insert_Some;
      intros Ho1 Ho2 Href; [done|..|by eapply Hone].
    + by destruct (no_open_hold _ _ _ _ Hno Hk2 Ho2).
    + by destruct (no_open_hold _ _ _ _ Hno Hk1 Ho1).
  - intros [[<- <-]|[Hne1 Hk1]]%lookup_insert_Some [[<- <-]|[Hne2 Hk2]]%lookup_insert_Some;
      intros Ho1 Ho2 Href; [done|..|by eapply Hone].
    + by apply close_hold_not_open in Ho1.
    + by apply close_hold_not_open in Ho2.
Qed.

(** In every reachable state a reference has at most one open hold, and
    that hold is the one [get_open_hold_id] reports. *)
Theorem one_open_hold_per_reference s :
  0 < cfg_interval cfg -> reachable cfg s ->
  one_open s /\
  forall k h, s_holds s !! k = Some h -> h_status h = "OPEN"%string ->
    get_open_hold_id s (h_reference_id h) = Some k.
Proof.
  intros Hint Hr. pose proof (reachable_inv cfg Hint s Hr) as Hinv.
  assert (Hone : one_open s).
  { clear Hinv. unfold reachable in Hr. assert (Hi : ledger_inv cfg empty_store /\ one_open empty_store).
    { split; [apply ledger_inv_empty|]. intros ? ? ? ? Hk. simpl in Hk. by rewrite lookup_empty in Hk. }
    revert Hi. induction Hr as [s|s y z [s1 op] _ IH]; intros [Hi Ho]; [done|].
    apply IH. split; [by apply run_inv|]. eapply one_open_step; [by apply run_holds|done]. }
  split; [done|]. intros k h Hh Ho. unfold get_open_hold_id, store_get_open_hold.
  destruct (min_hold _) as [h'|] eqn:Hm.
  - apply min_hold_Some, list_elem_of_filter in Hm as [[Href Hopen] Hin].
    apply elem_of_map_values in Hin as (k' & Hk'). simpl.
    destruct (li_holds _ _ Hinv _ _ Hk') as [-> _ _ _ _ _]. f_equal. by eapply Hone.
  - apply min_hold_None in Hm. exfalso.
    assert (Hin : h ∈ filter (open_for (h_reference_id h)) (map_to_list (s_holds s)).*2).
    { apply list_elem_of_filter. split; [done|]. apply elem_of_map_values. eauto. }
    rewrite Hm in Hin. by apply not_elem_of_nil in Hin.
Qed.
End Holds.

(** The demo hold: opened, then voided. *)
Definition demo_open : res exn string * Store :=
  open_hold demo_cfg demo1 float 1200 "card auth" "pi_hold" None (Some reserve) None demo_clock.
Definition demo_void : res exn unit * Store :=
  release_hold demo_cfg demo_open.2 hold_id "VOIDED" None demo_clock.

Lemma demo_open_Ok :
  open_hold demo_cfg demo1 float 1200 "card auth" "pi_hold" None (Some reserve) None demo_clock =
  (Ok hold_id, demo_open.2).
Proof. apply (outcome_eq demo_open). vm_compute. reflexivity. Qed.

Lemma demo_void_Ok :
  release_hold demo_cfg demo_open.2 hold_id "VOIDED" None demo_clock = (Ok tt, demo_void.2).
Proof. apply (outcome_eq demo_void). vm_compute. reflexivity. Qed.

Lemma demo_open_reachable : reachable demo_cfg demo_open.2.
Proof.
  apply (reachable_run demo1 demo_hold); [apply demo1_reachable|].
  unfold demo_hold, demo_open. cbn [run]. reflexivity.
Qed.

Lemma demo_void_reachable : reachable demo_cfg demo_void.2.
Proof.
  apply (reachable_run demo_open.2 (OpReleaseHold hold_id "VOIDED" None demo_clock));
    [apply demo_open_reachable|]. unfold demo_void. cbn [run]. reflexivity.
Qed.

Lemma demo_no_open : get_open_account_hold_by_reference demo1 (new_tx demo1) "pi_hold" = None.
Proof. vm_compute. reflexivity. Qed.

Lemma open_hold_effect_witness : exists h,
  s_holds demo_open.2 = <[hold_id := h]> (s_holds demo1) /\ h_amount_minor h = 1200.
Proof.
  destruct (open_hold_effect demo_cfg _ _ _ _ _ _ _ _ _ _ _ demo_open_Ok)
    as [(h & Hh & _)|(_ & _ & _ & (h & Hs & _ & Hm & _) & _)].
  - rewrite demo_no_open in Hh. discriminate Hh.
  - exists h. exact (conj Hs Hm).
Defined.

Lemma release_hold_effect_witness : exists h, s_holds demo_open.2 !! hold_id = Some h.
Proof.
  destruct (release_hold_effect demo_cfg _ _ _ _ _ _ demo_interval demo_open_reachable demo_void_Ok)
    as (h & Hh & _). exists h. exact Hh.
Defined.

Lemma hold_closes_once_witness : exists h e s,
  s_holds demo_void.2 !! hold_id = Some h /\
  release_hold demo_cfg demo_void.2 hold_id "CAPTURED" None demo_clock = (Err e, s).
Proof.
  destruct (lookup_found (s_holds demo_void.2 !! hold_id)) as [h Hh]; [vm_compute; reflexivity|].
  assert (Hst : h_status <$> (s_holds demo_void.2 !! hold_id) = Some "VOIDED"%string)
    by (vm_compute; reflexivity).
  rewrite Hh in Hst. injection Hst as Hst.
  destruct (hold_closes_once demo_cfg _ _ _ h "CAPTURED" None demo_clock demo_interval
    demo_void_reachable Hh ltac:(by rewrite Hst) (rtc_refl _ _) eq_refl eq_refl) as [Hh' Hrel].
  rewrite bool_decide_eq_false_2 in Hrel by (by rewrite Hst).
  eexists h, _, _. exact (conj Hh Hrel).
Defined.

Lemma void_reverses_open_witness :
  store_get_balance demo_void.2 float - store_get_balance demo_open.2 float =
  - (store_get_balance demo_open.2 float - store_get_balance demo1 float).
Proof.
  destruct (lookup_found (s_holds demo_open.2 !! hold_id)) as [h Hh]; [vm_compute; reflexivity|].
  assert (Hst : h_status <$> (s_holds demo_open.2 !! hold_id) = Some "OPEN"%string)
    by (vm_compute; reflexivity).
  rewrite Hh in Hst. injection Hst as Hst.
  assert (Hv : "VOIDED"%string <> "CAPTURED"%string) by done.
  pose proof (void_reverses_open demo_cfg demo1 float 1200 "card auth" "pi_hold" None (Some reserve)
    None demo_clock hold_id demo_open.2 demo_open.2 h "VOIDED" None demo_clock demo_void.2
    demo_interval demo1_reachable demo_no_open demo_open_Ok (rtc_refl _ _) Hh Hst Hv demo_void_Ok)
    as Hrev.
  exact (Hrev float).
Defined.

Lemma one_open_hold_per_reference_witness : one_open demo2.
Proof. apply (one_open_hold_per_reference demo_cfg); [done|apply demo2_reachable]. Defined.
