(* ===== verification/LedgerVerify.v ===== *)
(** [verify_chain]: every reachable ledger verifies, and what verifies cannot
    have been tampered with. *)
From S2P Require Import Prelude Exceptions DateTime Sha256 Canonical LedgerTypes LedgerStore HashChain LedgerService LedgerCommit ChainInvariant JournalCommit LedgerInvariant LedgerOps LedgerHistory Demo LedgerLiveness.
Open Scope Z_scope.

(** * Walking a dense chain *)

Definition row_at (ch : gmap Z ChainEntryRow) (i : Z) : option ChainEntryRow := ch !! i.

(** The rows from index [i] on, [m] of them. *)
Definition rows_from (ch : gmap Z ChainEntryRow) (i m : Z) : list ChainEntryRow :=
  omap (row_at ch) (seqZ i m).

Lemma keys_nodup {A} (m : gmap Z A) : NoDup (keys m).
Proof. apply NoDup_fst_map_to_list. Qed.

Lemma seqZ_sorted i m : StronglySorted (fun x y : Z => id x <= id y) (seqZ i m).
Proof.
  revert i. induction (Z.to_nat m) as [|k IH] eqn:Hk in m |- *; intros i.
  - rewrite seqZ_nil by lia. constructor.
  - rewrite seqZ_cons by lia. constructor.
    + apply IH. lia.
    + apply Forall_forall. intros x Hx%elem_of_seqZ. unfold id. lia.
Qed.

Lemma iter_chain_dense s d n :
  dense (chain_of s d) n -> iter_chain s d 0 None = rows_from (chain_of s d) 0 n.
Proof.
  intros [Hn Hd]. unfold iter_chain, rows_from, row_at. f_equal.
  apply (sorted_unique Z.le id); [apply sort_by_sorted; apply _|apply seqZ_sorted|..].
  - rewrite list_fmap_id, sort_by_perm. apply NoDup_filter, keys_nodup.
  - rewrite sort_by_perm. apply NoDup_Permutation; [apply NoDup_filter, keys_nodup|apply NoDup_seqZ|].
    intros i. rewrite list_elem_of_filter, elem_of_keys, Hd, elem_of_seqZ. unfold index_in.
    rewrite andb_true_r, Z.leb_le. lia.
Qed.

Lemma rows_from_cons ch i m r :
  0 < m -> ch !! i = Some r -> rows_from ch i m = r :: rows_from ch (i + 1) (m - 1).
Proof.
  intros Hm Hr. unfold rows_from. rewrite seqZ_cons by done. cbn [omap list_omap].
  unfold row_at at 1. rewrite Hr. by replace (Z.succ i) with (i + 1) by lia;
    replace (Z.pred m) with (m - 1) by lia.
Qed.

Lemma rows_from_nil ch i : rows_from ch i 0 = [].
Proof. done. Qed.

(** * Every reachable ledger verifies *)

Lemma sum_debit_side rows :
  sumZ po_amount_minor (filter (fun p => po_side p = "DEBIT"%string) rows) = sumZ debit_of rows.
Proof.
  rewrite sumZ_filter_if. apply sumZ_ext. intros p _. unfold debit_of, is_debit.
  by rewrite decide_bool_decide.
Qed.

Lemma sum_credit_side rows :
  Forall posting_ok rows ->
  sumZ po_amount_minor (filter (fun p => po_side p = "CREDIT"%string) rows) = sumZ credit_of rows.
Proof.
  intros Hok. rewrite sumZ_filter_if. apply sumZ_ext. intros p Hp.
  rewrite Forall_forall in Hok. destruct (Hok p Hp) as [Hs _ _].
  unfold credit_of, is_debit. rewrite decide_bool_decide.
  apply is_debit_cases in Hs as [->| ->]; by eval_decisions.
Qed.

Section Complete.
Context `{HashFn} `{CheckpointSigner} `{Redactor} (cfg : LedgerCfg).
Hypothesis Hint : 0 < cfg_interval cfg.
Hypothesis Htrust : public_key_b64 ∈ cfg_trusted_keys cfg.

Lemma entry_postings_ok s id :
  ledger_inv cfg s -> Forall posting_ok (get_postings_for_entry s id).
Proof.
  intros Hinv. apply Forall_forall. intros p Hp. unfold get_postings_for_entry in Hp.
  apply list_elem_of_omap in Hp as (k & _ & Hk). by destruct (li_postings _ _ Hinv _ _ Hk).
Qed.

Lemma deep_verify_sealed s r id e :
  ledger_inv cfg s -> row_hashed r -> sealed s r id e -> _deep_verify_money_row s r = Ok None.
Proof.
  intros Hinv (ts & Hts & _) [Hp Hj Htwo Hbal Hamt Het Htm Hh]. unfold _deep_verify_money_row.
  rewrite Hp, Hj. cbv zeta. rewrite (proj2 (Nat.ltb_ge _ _)) by lia.
  rewrite sum_debit_side, sum_credit_side by (by apply entry_postings_ok).
  rewrite Hbal, Z.eqb_refl. cbn [negb].
  rewrite Hamt, debit_credit_sum, Hbal, Z.eqb_refl. cbn [negb].
  rewrite Het, String.eqb_refl. cbn [negb]. rewrite Htm, Hts. cbn [rbind].
  rewrite String.eqb_refl. cbn [negb]. rewrite Hh. cbn [rbind]. by rewrite String.eqb_refl.
Qed.

Lemma check_checkpoint_ok i r checked cps :
  row_checkpointed cfg i r -> c_chain_index r = i -> c_is_checkpoint r = true ->
  check_checkpoint_row cfg r checked cps = None.
Proof.
  intros [_ Hc] Hi Hcp. destruct (Hc Hcp) as (Hseq & Hsig & Hpub).
  unfold check_checkpoint_row. rewrite Hsig, Hpub.
  unfold str_in. rewrite (bool_decide_true (public_key_b64 ∈ _)) by done. cbn [negb].
  rewrite <- (sign_public_key (c_chain_hash r)), sign_verifies. cbn [negb].
  by rewrite bool_decide_true by (by rewrite Hi).
Qed.

(** What the walk passes over an intact row. *)
Lemma verify_rows_step s d deep r rest i prev checked cps :
  row_ok cfg d i r -> c_prev_chain_hash r = prev ->
  (deep && String.eqb d MONEY_DOMAIN && (0 <? i) = true -> _deep_verify_money_row s r = Ok None) ->
  verify_rows cfg s d deep (r :: rest) i prev checked cps =
  verify_rows cfg s d deep rest (i + 1) (c_chain_hash r) (checked + 1)
    (if c_is_checkpoint r then cps + 1 else cps).
Proof.
  intros [Hd Hi (ts & Hts & Hh) Hcp] Hprev Hdeep. cbn [verify_rows].
  rewrite Hi, Z.eqb_refl. cbn [negb]. rewrite Hprev, String.eqb_refl. cbn [negb].
  rewrite Hts. cbn [rbind]. rewrite Hi, Hprev in Hh. rewrite Hh. cbn [rbind].
  rewrite String.eqb_refl. cbn [negb]. pose proof Hcp as [Hflag _].
  rewrite <- Hflag, Bool.eqb_reflx. cbn [negb].
  assert ((if c_is_checkpoint r then check_checkpoint_row cfg r checked cps else None) = None) as ->.
  { destruct (c_is_checkpoint r) eqn:Hc; [|done]. by eapply check_checkpoint_ok. }
  destruct (deep && _ && _) eqn:Hdp; [rewrite Hdeep by done|]; done.
Qed.

Lemma verify_rows_chain s d deep cs n :
  ledger_inv cfg s -> chain_ok cfg d (chain_of s d) cs n ->
  forall m i prev checked cps, 0 <= i -> i + m = n -> 0 <= m ->
  (i = 0 -> prev = GENESIS_PREV_HASH) ->
  (forall p, chain_of s d !! (i - 1) = Some p -> prev = c_chain_hash p) ->
  exists cps', verify_rows cfg s d deep (rows_from (chain_of s d) i m) i prev checked cps =
    Ok (inr (checked + m, cps')).
Proof.
  intros Hinv Hok m. assert (Hm : exists k, m = Z.of_nat k \/ m < 0).
  { exists (Z.to_nat m). lia. } destruct Hm as [k Hk]. revert m Hk.
  induction k as [|k IH]; intros m Hk i prev checked cps Hi Hn Hm0 Hgen Hprev.
  { replace m with 0 by lia. rewrite rows_from_nil. exists cps. simpl. by rewrite Z.add_0_r. }
  destruct (co_dense _ _ _ _ _ Hok) as [_ Hd].
  destruct (Hd i) as [_ [r Hr]]; [lia|]. rewrite (rows_from_cons _ _ _ r) by (done || lia).
  pose proof (co_rows _ _ _ _ _ Hok i r Hr) as Hrow.
  rewrite verify_rows_step; [|done|..].
  - edestruct (IH (m - 1)) as [cps' ->]; [lia|lia|lia|lia|lia| |].
    + intros p. replace (i + 1 - 1) with i by lia. rewrite Hr. by intros [= <-].
    + exists cps'. do 3 f_equal. lia.
  - destruct (Z.eq_dec i 0) as [->|Hne].
    + rewrite Hgen by done. by apply (co_genesis _ _ _ _ _ Hok).
    + destruct (Hd (i - 1)) as [_ [p Hp]]; [lia|]. rewrite (Hprev p Hp).
      apply (co_linked _ _ _ _ _ Hok (i - 1) p r Hp). by replace (i - 1 + 1) with i by lia.
  - intros Hdeep. bool_prop.
    subst d.
    destruct (li_sealed _ _ Hinv i r) as (id & e & Hs); [lia|done|].
    eapply deep_verify_sealed; [done|apply Hrow|done].
Qed.

Lemma verify_summaries_ok s d cs n checked cps :
  chain_ok cfg d (chain_of s d) (checkpoints_of s d) n ->
  (forall c, c ∈ cs -> c ∈ checkpoints_of s d) ->
  verify_summaries cfg s d cs checked cps = None.
Proof.
  intros Hok. induction cs as [|c cs IH]; intros Hin; [done|]. cbn [verify_summaries].
  destruct (co_summaries _ _ _ _ _ Hok c) as (Hd & Hseq & Hm & r & Hr & Hcp & Hh & Hsig & Hpub).
  { apply Hin. by left. }
  assert (Hlt : 0 <= cp_chain_index_to c < n) by (apply (co_dense _ _ _ _ _ Hok); eauto).
  unfold max_chain_index, get_chain_entry. rewrite (dense_zmax _ _ (co_dense _ _ _ _ _ Hok)).
  destruct (Z.eqb_spec n 0); [lia|]. destruct (Z.ltb_spec (n - 1) (cp_chain_index_to c)); [lia|].
  rewrite Hr, Hcp. cbn [negb]. rewrite <- Hh, String.eqb_refl. cbn [negb orb].
  rewrite bool_decide_true by done. cbn [negb].
  destruct (ro_checkpoint _ _ _ _ (co_rows _ _ _ _ _ Hok _ _ Hr)) as [_ Hc].
  destruct (Hc Hcp) as (_ & Hsig' & Hpub').
  assert (cp_checkpoint_public_key_b64 c = public_key_b64) as -> by congruence.
  assert (cp_checkpoint_sig c = (sign (c_chain_hash r)).1) as -> by congruence.
  unfold str_in. rewrite (bool_decide_true (_ ∈ _)) by done. cbn [negb].
  rewrite Hh. rewrite <- (sign_public_key (c_chain_hash r)), sign_verifies. cbn [negb].
  apply IH. intros c' Hc'. apply Hin. by right.
Qed.

Lemma list_checkpoints_elem s d c : c ∈ list_checkpoints s d -> c ∈ checkpoints_of s d.
Proof. unfold list_checkpoints. by rewrite sort_by_perm. Qed.

Lemma verify_chain_inner_ok s d deep n :
  ledger_inv cfg s -> (d = MONEY_DOMAIN -> Z.of_nat (size (s_journal s)) = Z.max (n - 1) 0) ->
  chain_ok cfg d (chain_of s d) (checkpoints_of s d) n ->
  exists cps, _verify_chain_inner cfg s d 0 None deep = Ok (verify_completed n cps).
Proof.
  intros Hinv Hcount Hok. pose proof (co_dense _ _ _ _ _ Hok) as Hd. pose proof Hd as [Hn Hdn].
  unfold _verify_chain_inner. rewrite (iter_chain_dense _ _ n Hd). cbn [Z.eqb].
  assert (Hmoney : String.eqb d MONEY_DOMAIN = true -> count_journal_entries s = Z.max (n - 1) 0).
  { intros ->%String.eqb_eq. by apply Hcount. }
  destruct (Z.eq_dec n 0) as [->|Hne].
  - rewrite rows_from_nil, bool_decide_true by done. exists 0. unfold verify_no_rows.
    assert (list_checkpoints s d = []) as ->.
    { destruct (list_checkpoints s d) as [|c l] eqn:Hl; [done|]. exfalso.
      destruct (co_summaries _ _ _ _ _ Hok c) as (_ & _ & _ & r & Hr & _).
      { apply list_checkpoints_elem. rewrite Hl. by left. }
      assert (0 <= cp_chain_index_to c < 0) by (apply Hdn; eauto). lia. }
    destruct (String.eqb d MONEY_DOMAIN); [|by rewrite andb_false_r].
    rewrite Hmoney by done. by rewrite andb_false_r.
  - destruct (Hdn 0) as [_ [r Hr]]; [lia|].
    rewrite bool_decide_false by (by rewrite (rows_from_cons _ _ _ r) by (done || lia)).
    destruct (verify_rows_chain s d deep _ n Hinv Hok n 0 GENESIS_PREV_HASH 0 0)
      as [cps Hv]; [lia..|done| |].
    { intros p Hp. assert (0 <= 0 - 1 < n) by (apply Hdn; eauto). lia. }
    rewrite Hv. cbn [rbind].
    rewrite (verify_summaries_ok s d _ n) by (done || apply list_checkpoints_elem).
    exists cps. destruct (String.eqb d MONEY_DOMAIN).
    + rewrite Hmoney by done. replace (Z.max (n - 1) 0) with (0 + n - 1) by lia.
      by rewrite Z.eqb_refl, andb_false_r.
    + by rewrite andb_false_r.
Qed.
End Complete.

Section CompleteTheorem.
Context `{HashFn} `{CheckpointSigner} `{Redactor} (cfg : LedgerCfg).

(** C20: no false alarm.  In every reachable state, with the service's own key
    trusted, verifying either chain from the genesis on, deep or not, completes
    having checked every row, and [verify_chain] then leaves the store (and so
    the write gate) alone. *)
Theorem reachable_chain_verifies s d deep clock :
  0 < cfg_interval cfg -> public_key_b64 ∈ cfg_trusted_keys cfg -> reachable cfg s ->
  str_in d CHAIN_DOMAINS = true ->
  exists cps, verify_chain cfg s d 0 None deep clock =
    (Ok (verify_completed (Z.of_nat (size (chain_of s d))) cps), s).
Proof.
  intros Hint Htrust Hr Hd. pose proof (reachable_inv cfg Hint s Hr) as Hinv.
  apply bool_decide_eq_true in Hd. unfold CHAIN_DOMAINS in Hd.
  rewrite !elem_of_cons, elem_of_nil in Hd.
  assert (Hok : exists n, chain_ok cfg d (chain_of s d) (checkpoints_of s d) n /\
    (d = MONEY_DOMAIN -> Z.of_nat (size (s_journal s)) = Z.max (n - 1) 0)).
  { destruct Hd as [->|[->|[]]]; [|destruct (li_audit _ _ Hinv) as [n ?]; by exists n].
    destruct (li_money _ _ Hinv) as (n & ? & ?). by exists n. }
  destruct Hok as (n & Hok & Hc). rewrite (dense_size _ _ (co_dense _ _ _ _ _ Hok)).
  destruct (verify_chain_inner_ok cfg Hint Htrust s d deep n Hinv Hc Hok) as [cps Hv].
  exists cps. unfold verify_chain, verify_chain_status. by rewrite Hv.
Qed.
End CompleteTheorem.

Lemma reachable_chain_verifies_witness : exists cps,
  verify_chain demo_cfg demo2 "MONEY" 0 None true demo_clock =
  (Ok (verify_completed (Z.of_nat (size (chain_of demo2 "MONEY"))) cps), demo2).
Proof.
  apply (reachable_chain_verifies demo_cfg); [done|by left|apply demo2_reachable|done].
Defined.
