(* ===== verification/LedgerTamper.v ===== *)
(** Tamper evidence: two stores that both pass verification and end in the same
    chain hash hold the same history, row by row and posting by posting, unless
    the two histories exhibit a SHA-256 collision. *)
From S2P Require Import Prelude Exceptions DateTime Sha256 Canonical LedgerTypes LedgerStore HashChain LedgerService LedgerCommit ChainInvariant JournalCommit LedgerInvariant LedgerOps LedgerHistory Demo LedgerLiveness LedgerVerify.
Open Scope Z_scope.

(** * The preimage determines its fields *)

Definition not_pipe (c : ascii) : bool := negb (Ascii.eqb c "|"%char).
Definition plain_text (s : string) : bool := all_chars not_pipe s.

Fixpoint pipes (s : string) : nat :=
  match s with
  | EmptyString => 0
  | String c r => ((if Ascii.eqb c "|"%char then 1 else 0) + pipes r)%nat
  end.

Lemma pipes_app a b : pipes (a +:+ b) = (pipes a + pipes b)%nat.
Proof. induction a; simpl; lia. Qed.

Lemma pipes_plain s : pipes s = 0%nat <-> plain_text s = true.
Proof.
  unfold plain_text. induction s as [|c s IH]; simpl; [done|].
  unfold not_pipe at 1. destruct (Ascii.eqb c "|"); simpl; [lia|exact IH].
Qed.

Lemma str_Z_pipes z : pipes (str_Z z) = 0%nat.
Proof.
  assert (Hd : forall z, 0 <= z -> plain_text (str_Z z) = true).
  { intros y Hy. eapply all_chars_impl; [|by apply str_Z_digits].
    intros c Hc. unfold not_pipe. destruct (Ascii.eqb_spec c "|"); [by subst|done]. }
  apply pipes_plain. destruct z as [|p|p]; [by apply Hd..|].
  rewrite str_Z_neg. apply (Hd (Z.pos p)). lia.
Qed.

Lemma plain_sep_inj a b s t :
  plain_text a = true -> plain_text b = true ->
  a +:+ "|" +:+ s = b +:+ "|" +:+ t -> a = b /\ s = t.
Proof. intros Ha Hb He. by apply (str_sep_inj not_pipe "|"%char a b s t). Qed.

(** If the fields of one preimage have no pipe, equal preimages have equal
    fields: counting pipes shows that the other's fields have none either. *)
Lemma preimage_inj p1 i1 d1 e1 h1 x1 a1 w1 t1 p2 i2 d2 e2 h2 x2 a2 w2 t2 :
  plain_text p1 = true -> plain_text d1 = true -> plain_text e1 = true ->
  plain_text h1 = true -> plain_text x1 = true -> plain_text w1 = true ->
  plain_text t1 = true ->
  preimage p1 i1 d1 e1 h1 x1 a1 w1 t1 = preimage p2 i2 d2 e2 h2 x2 a2 w2 t2 ->
  (p1, i1, d1, e1, h1, x1, a1, w1, t1) = (p2, i2, d2, e2, h2, x2, a2, w2, t2).
Proof.
  intros Hp Hd He Hh Hx Hw Ht Heq.
  pose proof (f_equal pipes Heq) as Hn. unfold preimage in *.
  apply pipes_plain in Hp as Hp', Hd as Hd', He as He', Hh as Hh', Hx as Hx', Hw as Hw', Ht as Ht'.
  rewrite !pipes_app, !str_Z_pipes, Hp', Hd', He', Hh', Hx', Hw', Ht' in Hn. simpl in Hn.
  assert (Hall : pipes p2 = 0%nat /\ pipes d2 = 0%nat /\ pipes e2 = 0%nat /\ pipes h2 = 0%nat /\
    pipes x2 = 0%nat /\ pipes w2 = 0%nat /\ pipes t2 = 0%nat) by lia. clear Hn.
  rewrite !pipes_plain in Hall. destruct Hall as (? & ? & ? & ? & ? & ? & ?).
  assert (Hz : forall z, plain_text (str_Z z) = true) by (intros; apply pipes_plain, str_Z_pipes).
  do 8 (apply plain_sep_inj in Heq as [? Heq]; [|done|done]).
  repeat match goal with He : str_Z _ = str_Z _ |- _ => apply (inj str_Z) in He end.
  by subst.
Qed.

Section Tamper.
Context `{HashFn} `{CheckpointSigner} (cfg : LedgerCfg).

(** * What verification establishes of each row *)

Definition row_preimage (r : ChainEntryRow) : string :=
  match to_canonical_ts (c_produced_at r) with
  | Ok ts => preimage (c_prev_chain_hash r) (c_chain_index r) (c_chain_domain r)
      (c_entry_type r) (c_payload_hash r) (c_payload_pointer r) (c_amount_minor_sum r)
      (c_producer r) ts
  | Err _ => ""
  end.

Fixpoint walked (s : Store) (deep : bool) (rows : list ChainEntryRow) (i : Z) (prev : string) :
    Prop :=
  match rows with
  | [] => True
  | r :: rest =>
      c_chain_index r = i /\ c_prev_chain_hash r = prev /\
      is_ok (to_canonical_ts (c_produced_at r)) = true /\
      sha256_hex (row_preimage r) = c_chain_hash r /\
      (deep = true -> 0 < i -> _deep_verify_money_row s r = Ok None) /\
      walked s deep rest (i + 1) (c_chain_hash r)
  end.

Lemma verify_rows_sound s d deep rows i prev checked cps c k :
  verify_rows cfg s d deep rows i prev checked cps = Ok (inr (c, k)) ->
  walked s (deep && String.eqb d MONEY_DOMAIN) rows i prev.
Proof.
  revert i prev checked cps. induction rows as [|r rest IH]; intros i prev checked cps Hv; [done|].
  cbn [verify_rows] in Hv. repeat ((case_match; [done|]) || res_step). bool_prop. subst.
  unfold compute_entry_hash in E0. repeat res_step. simpl. rewrite E. split_and!; try done.
  - unfold row_preimage. rewrite E. congruence.
  - intros Hd Hpos. rewrite Hd in E1. by rewrite (proj2 (Z.ltb_lt _ _) Hpos) in E1.
  - by eapply IH.
Qed.

(** The hash the walk ends in. *)
Definition tip (prev : string) (rows : list ChainEntryRow) : string :=
  default prev (c_chain_hash <$> last rows).

Lemma walked_snoc s deep l r i prev :
  walked s deep (l ++ [r]) i prev ->
  walked s deep l i prev /\ c_prev_chain_hash r = tip prev l /\
  c_chain_index r = i + Z.of_nat (length l) /\
  is_ok (to_canonical_ts (c_produced_at r)) = true /\
  sha256_hex (row_preimage r) = c_chain_hash r.
Proof.
  revert i prev. induction l as [|x l IH]; intros i prev; cbn [app walked].
  - intros (Hi & Hp & Hok & Hh & _). split_and!; try done. simpl. lia.
  - intros (Hi & Hp & Hok & Hh & Hd & Hw). apply IH in Hw as (Hw & Hprev & Hidx & Hok' & Hh').
    split_and!; try done.
    + rewrite Hprev. unfold tip. rewrite last_cons. by destruct (last l).
    + rewrite Hidx. cbn [length]. lia.
Qed.

Lemma tip_snoc prev l r : tip prev (l ++ [r]) = c_chain_hash r.
Proof. unfold tip. by rewrite last_snoc. Qed.

(** A collision between the rows of two chains at the same position. *)
Definition rows_collide (l1 l2 : list ChainEntryRow) : Prop :=
  exists k r1 r2, l1 !! k = Some r1 /\ l2 !! k = Some r2 /\
    collision (row_preimage r1) (row_preimage r2).

Definition row_plain (r : ChainEntryRow) : bool :=
  plain_text (c_prev_chain_hash r) && plain_text (c_chain_domain r) &&
  plain_text (c_entry_type r) && plain_text (c_payload_hash r) &&
  plain_text (c_payload_pointer r) && plain_text (c_producer r).

(** The sealed fields of two rows agree. *)
Definition same_row (r1 r2 : ChainEntryRow) : Prop :=
  c_chain_hash r1 = c_chain_hash r2 /\ c_prev_chain_hash r1 = c_prev_chain_hash r2 /\
  c_chain_index r1 = c_chain_index r2 /\ c_chain_domain r1 = c_chain_domain r2 /\
  c_entry_type r1 = c_entry_type r2 /\ c_payload_hash r1 = c_payload_hash r2 /\
  c_payload_pointer r1 = c_payload_pointer r2 /\
  c_amount_minor_sum r1 = c_amount_minor_sum r2 /\ c_producer r1 = c_producer r2 /\
  to_canonical_ts (c_produced_at r1) = to_canonical_ts (c_produced_at r2).

Lemma zpad_pipes w z : pipes (zpad w z) = 0%nat.
Proof.
  unfold zpad. rewrite pipes_app, str_Z_pipes. induction (w - _)%nat as [|k IH]; simpl; lia.
Qed.

Lemma ts_plain t ts : to_canonical_ts t = Ok ts -> plain_text ts = true.
Proof.
  unfold to_canonical_ts, iso_date, iso_time. intros Ht. inv_res. repeat case_match.
  apply pipes_plain.
  repeat (rewrite ?pipes_app, ?zpad_pipes; cbn [pipes Ascii.eqb Bool.eqb Nat.add]). done.
Qed.

Lemma preimage_same_row r1 r2 :
  row_plain r1 = true ->
  is_ok (to_canonical_ts (c_produced_at r1)) = true ->
  is_ok (to_canonical_ts (c_produced_at r2)) = true ->
  c_chain_hash r1 = c_chain_hash r2 -> row_preimage r1 = row_preimage r2 -> same_row r1 r2.
Proof.
  unfold row_plain, row_preimage. intros Hp Ho1 Ho2 Hh He. bool_prop.
  destruct (to_canonical_ts (c_produced_at r1)) as [t1|] eqn:T1; [|done].
  destruct (to_canonical_ts (c_produced_at r2)) as [t2|] eqn:T2; [|done].
  apply preimage_inj in He; try done; [|by eapply ts_plain].
  unfold same_row. rewrite T1, T2. by simplify_eq.
Qed.

Lemma same_tip_same_rows s1 s2 deep1 deep2 l1 l2 i prev :
  walked s1 deep1 l1 i prev -> walked s2 deep2 l2 i prev ->
  length l1 = length l2 -> tip prev l1 = tip prev l2 ->
  forallb row_plain l1 = true ->
  Forall2 same_row l1 l2 \/ rows_collide l1 l2.
Proof.
  revert l2. induction l1 as [|r1 l1 IH] using rev_ind; intros l2 W1 W2 Hlen Htip Hplain.
  { symmetry in Hlen. apply nil_length_inv in Hlen as ->. left. constructor. }
  destruct l2 as [|r2 l2 _] using rev_ind; [rewrite length_app in Hlen; simpl in Hlen; lia|].
  rewrite !tip_snoc in Htip. rewrite !length_app in Hlen. simpl in Hlen.
  apply walked_snoc in W1 as (W1 & P1 & I1 & O1 & H1'), W2 as (W2 & P2 & I2 & O2 & H2').
  rewrite forallb_app in Hplain. bool_prop. simpl in *. bool_prop.
  destruct (decide (row_preimage r1 = row_preimage r2)) as [Hpre|Hne].
  - assert (Hsame : same_row r1 r2) by (by apply preimage_same_row).
    destruct Hsame as (_ & Hprev & _).
    destruct (IH l2) as [IHs|(k & x1 & x2 & K1 & K2 & Hc)]; [done|done|lia|congruence|done|..].
    + left. apply Forall2_app; [done|]. constructor; [by apply preimage_same_row|constructor].
    + right. exists k, x1, x2. rewrite !lookup_app, K1, K2. done.
  - right. exists (length l1), r1, r2. rewrite lookup_app_r, Nat.sub_diag by lia.
    rewrite lookup_app_r by lia. replace (length l1 - length l2)%nat with 0%nat by lia.
    split_and!; [done|done|]. split; [done|congruence].
Qed.

(** * The sealed journal content *)

(** The canonical text whose digest the chain row carries. *)
Definition entry_text (e : JournalEntryRow) (rows : list PostingRow) : res exn string :=
  let* p := journal_entry_payload e rows in canonical_json p.

Lemma payload_hash_text e rows h :
  journal_entry_payload_hash e rows = Ok h ->
  exists t, entry_text e rows = Ok t /\ sha256_hex t = h.
Proof.
  unfold journal_entry_payload_hash, entry_text, sha256_canonical. intros Hh. inv_res.
  cbn [rbind]. eauto.
Qed.

Definition posting_json (p : PostingRow) : json :=
  JObj [("account_id"%string, JStr (po_account_id p)); ("amount_minor"%string, JInt (po_amount_minor p));
        ("currency"%string, JStr (po_currency p)); ("posting_id"%string, JStr (po_posting_id p));
        ("side"%string, JStr (po_side p))].

Lemma norm_postings rows :
  norm (PList (posting_payload <$> rows)) = Ok (JArr (posting_json <$> rows)).
Proof.
  assert (Hr : rmap id (norm <$> (posting_payload <$> rows)) = Ok (posting_json <$> rows)).
  2:{ cbn [norm]. change (map norm) with (fmap (M:=list) norm). by rewrite Hr. }
  induction rows as [|p rows IH]; [done|]. rewrite !fmap_cons. cbn [rmap].
  assert (id (norm (posting_payload p)) = Ok (posting_json p)) as -> by (vm_compute; reflexivity).
  cbn [rbind]. by rewrite IH.
Qed.

Lemma norm_entry_payload e rows p :
  journal_entry_payload e rows = Ok p ->
  exists ts, to_canonical_ts (je_produced_at e) = Ok ts /\
  norm p = Ok (JObj [("description"%string, JStr (je_description e));
    ("entry_id"%string, JStr (je_entry_id e)); ("entry_type"%string, JStr (je_entry_type e));
    ("idempotency_key"%string, JStr (je_idempotency_key e));
    ("postings"%string, JArr (posting_json <$> sort_by String.le po_posting_id rows));
    ("produced_at"%string, JStr ts); ("produced_by"%string, JStr (je_produced_by e));
    ("reference_id"%string, JStr (je_reference_id e));
    ("reference_type"%string, JStr (je_reference_type e));
    ("schema_version"%string, JInt (je_schema_version e))]).
Proof.
  unfold journal_entry_payload. intros Hp. inv_res. exists a. split; [done|].
  pose proof (norm_postings (sort_by String.le po_posting_id rows)) as Hn. revert Hn.
  generalize (PList (posting_payload <$> sort_by String.le po_posting_id rows)) as ps.
  intros ps Hn. cbn [norm dict map fst snd _key_string]. rewrite Hn. vm_compute. reflexivity.
Qed.

(** The fields of a posting that the payload seals. *)
Definition same_posting (p1 p2 : PostingRow) : Prop :=
  po_posting_id p1 = po_posting_id p2 /\ po_account_id p1 = po_account_id p2 /\
  po_side p1 = po_side p2 /\ po_amount_minor p1 = po_amount_minor p2 /\
  po_currency p1 = po_currency p2.

(** Two entries with their postings are the same, up to the order of the
    postings and the microseconds of the timestamp. *)
Definition same_entry (e1 : JournalEntryRow) (rows1 : list PostingRow)
    (e2 : JournalEntryRow) (rows2 : list PostingRow) : Prop :=
  je_entry_id e1 = je_entry_id e2 /\ je_reference_id e1 = je_reference_id e2 /\
  je_reference_type e1 = je_reference_type e2 /\ je_entry_type e1 = je_entry_type e2 /\
  je_description e1 = je_description e2 /\ je_produced_by e1 = je_produced_by e2 /\
  je_idempotency_key e1 = je_idempotency_key e2 /\
  je_schema_version e1 = je_schema_version e2 /\
  to_canonical_ts (je_produced_at e1) = to_canonical_ts (je_produced_at e2) /\
  exists rows2', rows2' ≡ₚ rows2 /\
    Forall2 same_posting (sort_by String.le po_posting_id rows1) rows2'.

Lemma posting_json_inj l1 l2 :
  posting_json <$> l1 = posting_json <$> l2 -> Forall2 same_posting l1 l2.
Proof.
  revert l2. induction l1 as [|p l1 IH]; intros [|q l2] He; csimpl in He; try done.
  constructor; [|apply IH; congruence]. by unfold same_posting; simplify_eq.
Qed.

Lemma entry_text_inj e1 rows1 e2 rows2 t :
  entry_text e1 rows1 = Ok t -> entry_text e2 rows2 = Ok t -> same_entry e1 rows1 e2 rows2.
Proof.
  unfold entry_text. intros H1' H2'.
  destruct (journal_entry_payload e1 rows1) as [p1|] eqn:P1; [|done].
  destruct (journal_entry_payload e2 rows2) as [p2|] eqn:P2; [|done]. cbn [rbind] in *.
  apply norm_entry_payload in P1 as (t1 & T1 & N1), P2 as (t2 & T2 & N2).
  apply canonical_norm in H1' as (j1 & M1 & R1), H2' as (j2 & M2 & R2).
  assert (j1 = j2) as <- by (apply print_inj; congruence).
  rewrite N1 in M1. rewrite N2 in M2. unfold same_entry. rewrite T1, T2. simplify_eq.
  split_and!; try congruence.
  exists (sort_by String.le po_posting_id rows2). split; [apply sort_by_perm|].
  by apply posting_json_inj.
Qed.

(** What a passed deep check says of a row. *)
Lemma deep_verify_inv s r :
  _deep_verify_money_row s r = Ok None ->
  exists id e, entry_id_from_pointer (c_payload_pointer r) = Some id /\
    s_journal s !! id = Some e /\
    (2 <= length (get_postings_for_entry s id))%nat /\
    sumZ po_amount_minor (filter (fun p => po_side p = "DEBIT"%string) (get_postings_for_entry s id)) =
    sumZ po_amount_minor (filter (fun p => po_side p = "CREDIT"%string) (get_postings_for_entry s id)) /\
    je_entry_type e = c_entry_type r /\
    journal_entry_payload_hash e (get_postings_for_entry s id) = Ok (c_payload_hash r).
Proof.
  unfold _deep_verify_money_row. destruct (entry_id_from_pointer _) as [id|]; [|done].
  destruct (s_journal s !! id) as [e|] eqn:Hj; [|done]. intros Hv.
  repeat ((case_match; [done|]) || res_step). bool_prop. exists id, e.
  split_and!; try done; [|by subst].
  match goal with Hl : (_ <? _)%nat = false |- _ => apply Nat.ltb_ge in Hl; lia end.
Qed.

Lemma check_checkpoint_tamper r ck cp x :
  check_checkpoint_row cfg r ck cp = Some x -> is_tamper (v_status x) = true.
Proof. unfold check_checkpoint_row. intros Hc. by repeat case_match; simplify_eq. Qed.

(** An early result of the walk is a detected tampering. *)
Lemma verify_rows_early_tamper s d deep rows i prev ck cp x :
  verify_rows cfg s d deep rows i prev ck cp = Ok (inl x) -> is_tamper (v_status x) = true.
Proof.
  revert i prev ck cp. induction rows as [|r rows IH]; intros i prev ck cp Hr; [done|].
  cbn [verify_rows] in Hr.
  do 2 (case_match; [by simplify_eq|]). do 2 (res_step; [|done]).
  do 2 (case_match; [by simplify_eq|]).
  destruct (if c_is_checkpoint r then check_checkpoint_row cfg r ck cp else None) as [y|] eqn:Hc.
  { simplify_eq. case_match; [|done]. by eapply check_checkpoint_tamper. }
  res_step; [|done]. case_match; [by simplify_eq|by eapply IH].
Qed.

(** Full verification of a domain completed. *)
Definition verified (s : Store) (d : string) (deep : bool) : Prop :=
  v_status (verify_chain_status cfg s d 0 None deep) = VERIFY_COMPLETED.

Lemma verified_walked s d deep :
  verified s d deep ->
  walked s (deep && String.eqb d MONEY_DOMAIN) (iter_chain s d 0 None) 0 GENESIS_PREV_HASH.
Proof.
  unfold verified, verify_chain_status, _verify_chain_inner. intros Hv. cbn [Z.eqb] in Hv.
  case_bool_decide as Hnil; [by rewrite Hnil|].
  destruct (verify_rows cfg s d deep (iter_chain s d 0 None) 0 GENESIS_PREV_HASH 0 0)
    as [[r|[c k]]|] eqn:Hr; cbn [rbind] in Hv; [|by eapply verify_rows_sound|done].
  apply verify_rows_early_tamper in Hr. by destruct (v_status r).
Qed.

(** The chain is tamper evident.  Let one store have rows without the
    delimiter in their fields, as the service writes them.  If another store, however it came to be,
    also passes verification, has as many rows and ends in the same chain hash,
    then row by row all hashed fields are the same, or two rows at the same
    position are an explicit SHA-256 collision. *)
Theorem verified_chain_is_unique s1 s2 d deep1 deep2 :
  let l1 := iter_chain s1 d 0 None in
  let l2 := iter_chain s2 d 0 None in
  verified s1 d deep1 -> verified s2 d deep2 ->
  length l1 = length l2 -> tip GENESIS_PREV_HASH l1 = tip GENESIS_PREV_HASH l2 ->
  forallb row_plain l1 = true ->
  Forall2 same_row l1 l2 \/ rows_collide l1 l2.
Proof.
  intros l1 l2 V1 V2 Hlen Htip Hplain.
  eapply same_tip_same_rows; [by apply verified_walked|by apply verified_walked|done..].
Qed.

Lemma walked_deep s rows i prev k r :
  walked s true rows i prev -> rows !! k = Some r -> 0 < c_chain_index r ->
  _deep_verify_money_row s r = Ok None.
Proof.
  revert i prev k. induction rows as [|x rows IH]; intros i prev k Hw Hk Hpos; [done|].
  destruct Hw as (Hi & _ & _ & _ & Hd & Hw). destruct k as [|k]; simpl in Hk.
  - simplify_eq. by apply Hd.
  - by eapply IH.
Qed.

(** The journal is tamper evident.  If two stores pass deep verification of
    the MONEY chain and their chains carry the same sealed fields, then for each
    sealed row both stores hold an entry under the same id, with the same
    content and the same postings (up to their order), or the two payload texts
    are an explicit SHA-256 collision. *)
Theorem verified_journal_is_unique s1 s2 k r1 r2 :
  verified s1 MONEY_DOMAIN true -> verified s2 MONEY_DOMAIN true ->
  iter_chain s1 MONEY_DOMAIN 0 None !! k = Some r1 ->
  iter_chain s2 MONEY_DOMAIN 0 None !! k = Some r2 ->
  same_row r1 r2 -> 0 < c_chain_index r1 ->
  exists id e1 e2, s_journal s1 !! id = Some e1 /\ s_journal s2 !! id = Some e2 /\
    (same_entry e1 (get_postings_for_entry s1 id) e2 (get_postings_for_entry s2 id) \/
     exists t1 t2, entry_text e1 (get_postings_for_entry s1 id) = Ok t1 /\
       entry_text e2 (get_postings_for_entry s2 id) = Ok t2 /\ collision t1 t2).
Proof.
  intros V1 V2 K1 K2 (_ & _ & Hi & _ & _ & Hph & Hpp & _) Hpos.
  apply verified_walked in V1, V2.
  pose proof (walked_deep _ _ _ _ _ _ V1 K1 Hpos) as D1.
  pose proof (walked_deep _ _ _ _ _ _ V2 K2 ltac:(by rewrite <- Hi)) as D2.
  apply deep_verify_inv in D1 as (id & e1 & P1 & J1 & _ & _ & _ & X1).
  apply deep_verify_inv in D2 as (id2 & e2 & P2 & J2 & _ & _ & _ & X2).
  assert (id2 = id) as -> by congruence.
  exists id, e1, e2. split; [done|]. split; [done|].
  apply payload_hash_text in X1 as (t1 & T1 & S1), X2 as (t2 & T2 & S2).
  destruct (decide (t1 = t2)) as [->|Hne].
  - left. by eapply entry_text_inj.
  - right. exists t1, t2. split_and!; try done. split; [done|congruence].
Qed.
End Tamper.

(** The demo ledger, and the same ledger after an outbox event: the chains
    agree and both verify. *)
Definition demo_emitted : Store :=
  run_all demo1 [OpEmitEvent "demo.event" "PAYMENT" "pi_demo" (PDict []) "payment.events" None None
                   demo_clock].

Lemma verified_chain_is_unique_witness :
  Forall2 same_row (iter_chain demo1 "MONEY" 0 None) (iter_chain demo_emitted "MONEY" 0 None) \/
  rows_collide (iter_chain demo1 "MONEY" 0 None) (iter_chain demo_emitted "MONEY" 0 None).
Proof.
  apply (verified_chain_is_unique demo_cfg demo1 demo_emitted "MONEY" true true);
    vm_compute; reflexivity.
Defined.

Definition some_row (s : Store) (k : nat) : ChainEntryRow :=
  match iter_chain s "MONEY" 0 None !! k with
  | Some r => r
  | None => mk_ChainEntryRow "" 0 "" "" "" "" 0 "" false None None None "" demo_clock 1
  end.

Lemma verified_journal_is_unique_witness : exists id e1 e2,
  s_journal demo1 !! id = Some e1 /\ s_journal demo_emitted !! id = Some e2.
Proof.
  destruct (verified_journal_is_unique demo_cfg demo1 demo_emitted 1 (some_row demo1 1)
    (some_row demo_emitted 1)) as (id & e1 & e2 & H1 & H2 & _);
    [vm_compute; reflexivity ..| |vm_compute; reflexivity|].
  - vm_compute. repeat split.
  - exists id, e1, e2. exact (conj H1 H2).
Defined.
