(* ===== verification/LedgerDba.v ===== *)
(** Tampering behind the service's back, through the DBA operations of the
    store, is detected by deep verification, and detection closes the ledger. *)
From S2P Require Import Prelude Exceptions DateTime Sha256 Canonical LedgerTypes LedgerStore HashChain LedgerService LedgerCommit ChainInvariant JournalCommit LedgerInvariant LedgerOps LedgerHistory Demo LedgerLiveness LedgerPosting LedgerVerify LedgerTamper.
Open Scope Z_scope.



(** * Sums over a posting list after one row changes *)

Section OneRow.
Context (m : gmap string PostingRow) (g : PostingRow -> Z).




End OneRow.




(** * The rows of a dense chain by position *)




Section Dba.
Context `{HashFn} `{CheckpointSigner} `{Redactor} (cfg : LedgerCfg).



(** * Verification does not raise on intact chain rows *)










(** * The tampering *)








(** * A rewrite that verifies is a collision *)











(** * Detection closes the ledger *)








End Dba.







(** * A tampered row that does not close the ledger

    Set a sealed row's amount to a negative number: recomputing its hash raises,
    verification reports [FAILED_ERROR], and only the two tamper statuses engage
    the gate. *)
Definition with_amount_sum (x : Z) (r : ChainEntryRow) : ChainEntryRow :=
  mk_ChainEntryRow (c_chain_domain r) (c_chain_index r) (c_entry_type r) (c_payload_hash r)
    (c_payload_pointer r) (c_prev_chain_hash r) x (c_chain_hash r) (c_is_checkpoint r)
    (c_checkpoint_sequence_in_domain r) (c_checkpoint_sig r) (c_checkpoint_public_key_b64 r)
    (c_producer r) (c_produced_at r) (c_schema_version r).

Definition demo_negative : Store :=
  match dba_replace_chain_entry demo1 "MONEY" 1 (with_amount_sum (-1)) with
  | Ok s => s
  | Err _ => demo1
  end.

Definition demo_verdict : res exn ChainVerificationResult * Store :=
  verify_chain demo_cfg demo_negative "MONEY" 0 None true demo_clock.

(** A tampered row that raises is reported but does not close the ledger: on a
    posted ledger whose sealed row was given a negative amount behind the
    service's back, [verify_chain] returns [FAILED_ERROR], the write gate stays
    open and the next post succeeds. *)
Theorem raising_row_leaves_the_gate_open :
  (exists r, demo_verdict.1 = Ok r /\ v_status r = VERIFY_FAILED_ERROR) /\
  wg_engaged (write_gate_state demo_verdict.2) = false /\
  exists id s', post_journal_entry demo_cfg demo_verdict.2 (demo_spec "k2" 700) demo_clock =
                (Ok id, s').
Proof.
  split_and!.
  - eexists. split; [vm_compute; reflexivity|reflexivity].
  - vm_compute. reflexivity.
  - eexists _, _. apply outcome_eq. vm_compute. reflexivity.
Qed.
