(* ===== verification/LedgerEvents.v ===== *)
(** Properties of audit and outbox events: a new audit event is sealed in the
    AUDIT chain, and repeating a call is a no-op that returns the same id. *)
From S2P Require Import Prelude Exceptions DateTime Sha256 Canonical LedgerTypes LedgerStore HashChain LedgerService LedgerCommit ChainInvariant JournalCommit LedgerInvariant LedgerOps LedgerHistory Demo LedgerLiveness LedgerPosting.
Open Scope Z_scope.

Section Events.
Context `{HashFn} `{CheckpointSigner} `{Redactor} (cfg : LedgerCfg).

(** The fields of an event that a replay compares. *)
Definition same_event (ev row : AuditEventRow) : Prop :=
  au_event_type ev = au_event_type row /\ au_actor_id ev = au_actor_id row /\
  au_actor_type ev = au_actor_type row /\ au_subject_type ev = au_subject_type row /\
  au_subject_id ev = au_subject_id row /\ au_from_state ev = au_from_state row /\
  au_to_state ev = au_to_state row /\ au_occurred_at ev = au_occurred_at row /\
  au_payload_hash ev = au_payload_hash row /\ au_payload_json ev = au_payload_json row.

Lemma append_audit_event s row t tx :
  append_audit cfg s (new_tx s) row t = Ok (tt, tx) ->
  exists ev, t_audit tx = {[ au_event_id row := ev ]} /\ same_event ev row.
Proof.
  unfold append_audit, insert_audit_event. intros Ha. inv_res.
  match goal with Hap : _append_chain_entry _ _ _ _ _ _ _ _ _ = Ok _ |- _ =>
    apply append_chain_entry_tx in Hap as Htx end.
  match goal with |- context [<[_ := ?e]> _] => exists e end.
  split; [cbn [t_audit]; by rewrite Htx|done].
Qed.

Lemma replay_same ev spec id ph pp pj t ts :
  same_event ev (audit_row spec id ph pp pj t) -> to_canonical_ts t = Ok ts ->
  audit_replay ev spec id (redact (as_actor_id spec)) ph t = Ok id.
Proof.
  intros (E1 & E2 & E3 & E4 & E5 & E6 & E7 & E8 & E9 & _) Hts. simpl in *.
  unfold audit_replay, _assert_audit_event_identity.
  rewrite E1, E2, E3, E4, E5, E6, E7, E8, E9, !String.eqb_refl, Hts. cbn [negb rbind].
  by rewrite String.eqb_refl.
Qed.

(** What a successful call computed and left. *)
Lemma write_audit_event_Ok s spec o c id s' :
  write_audit_event cfg s spec o c = (Ok id, s') ->
  exists t ph ts ev, at_or_now o c = Ok t /\ validate_audit_spec spec = Ok tt /\
    sha256_canonical (_redact_payload None (as_payload spec)) = Ok ph /\
    to_canonical_ts t = Ok ts /\
    audit_event_id (redact (as_actor_id spec)) ts spec = Ok id /\
    s_audit s' !! id = Some ev /\
    audit_replay ev spec id (redact (as_actor_id spec)) ph t = Ok id.
Proof.
  unfold write_audit_event. intros Hw.
  do 5 (apply attempt_inv in Hw as [(e & ? & _)|(? & ? & Hw)]; [done|]). simplify_eq.
  destruct x. destruct (s_audit s !! _) as [ev|] eqn:Hn.
  { injection Hw as Hrep <-. pose proof Hrep as Hr. unfold audit_replay in Hr. inv_res.
    eexists _, _, _, ev. split_and!; done. }
  do 2 (apply attempt_inv in Hw as [(e & ? & _)|(? & ? & Hw)]; [done|]).
  destruct (transaction s _) as [r1 s1] eqn:Ht.
  apply transaction_cases in Ht as [(e & -> & ->)|([] & tx & -> & Hb & Ha)].
  { destruct e; try done. rewrite Hn in Hw. done. }
  injection Hw as <- <-.
  apply (append_audit_event s (audit_row spec x3 x1 x x4 x0)) in Hb as (ev & Hau & Hsame).
  eexists x0, x1, x2, ev. split_and!; try done.
  - unfold _apply in Ha. inv_res. simpl. rewrite Hau. simpl.
    by rewrite lookup_union, lookup_singleton_eq, union_Some_l.
  - by eapply replay_same.
Qed.

(** Writing the same audit event again is a no-op.  After a successful call
    with an explicit time, and whatever calls follow, the same call returns the
    same id and leaves the store alone. *)
Theorem audit_event_idempotent s spec t c id s1 s2 c' :
  write_audit_event cfg s spec (Some t) c = (Ok id, s1) -> rtc (step cfg) s1 s2 ->
  write_audit_event cfg s2 spec (Some t) c' = (Ok id, s2).
Proof.
  intros (t' & ph & ts & ev & [= <-] & Hv & Hph & Hts & Hid & Hev & Hrep)%write_audit_event_Ok Hrtc.
  assert (Hev2 : s_audit s2 !! id = Some ev).
  { eapply lookup_weaken; [exact Hev|]. by apply (ex_audit s1 s2), (steps_extend cfg). }
  unfold write_audit_event, at_or_now. rewrite Hv. cbn [attempt].
  rewrite Hph. cbn [attempt]. rewrite Hts. cbn [attempt]. rewrite Hid. cbn [attempt].
  by rewrite Hev2, Hrep.
Qed.

(** An audit event is sealed.  A call that adds an event appends one row to
    the AUDIT chain: the event carries that row's hash and its predecessor's,
    the row carries the digest of the event's envelope; no money moves. *)
Theorem audit_event_sealed s spec o c id s' :
  0 < cfg_interval cfg -> reachable cfg s ->
  write_audit_event cfg s spec o c = (Ok id, s') -> s_audit s !! id = None ->
  frozen s s' /\
  exists n r ev envelope, dense (chain_of s AUDIT_DOMAIN) n /\
    s_audit s' = <[id := ev]> (s_audit s) /\
    dense (chain_of s' AUDIT_DOMAIN) (Z.max n 1 + 1) /\
    chain_of s' AUDIT_DOMAIN !! Z.max n 1 = Some r /\
    au_chain_hash ev = c_chain_hash r /\ au_prev_chain_hash ev = c_prev_chain_hash r /\
    audit_event_payload ev = Ok envelope /\ sha256_canonical envelope = Ok (c_payload_hash r).
Proof.
  intros Hint Hr Hw Hnew. pose proof (reachable_inv cfg Hint s Hr) as Hinv.
  pose proof Hw as Hw'. apply write_audit_event_cases in Hw as
    [->|(id' & ph & pp & pj & t & tx & [= <-] & _ & Hb & Ha)].
  { apply write_audit_event_Ok in Hw' as (t & ph & ts & ev & _ & _ & _ & _ & _ & Hev & _).
    congruence. }
  destruct (append_audit_inv cfg Hint _ _ _ _ Hb Hinv) as (Hq & _ & n & r & ev & env & Hd & _ & Hau
    & Henv & Hh & Hch & Hpr & _ & Hrow & Hok & _).
  pose proof (cq_committed _ _ _ Hq Ha) as Hcm.
  split; [by eapply quiet_frozen|]. exists n, r, ev, env.
  rewrite (cm_audit _ _ _ _ Hcm), (cm_chain _ _ _ _ Hcm), Hau.
  split_and!; try done; [|apply Hok]. by rewrite insert_union_singleton_l.
Qed.

(** What a successful [emit_event] computed and left. *)
Lemma emit_event_Ok s et st si p topic pr o c id s' :
  emit_event cfg s et st si p topic pr o c = (Ok id, s') ->
  exists t ts ph env ev, at_or_now o c = Ok t /\
    str_in topic TOPICS = true /\
    negb (truthy et) || negb (str_contains "."%char et) = false /\
    to_canonical_ts t = Ok ts /\ sha256_canonical (_redact_payload None p) = Ok ph /\
    outbox_event_id et st si ts ph = Ok id /\
    canonical_json (dict [("event_id", PStr id); ("type", PStr et); ("occurred_at", PStr ts);
      ("subject_type", PStr st); ("subject_id", PStr si); ("schema_version", PInt 1);
      ("producer", PStr (or_str pr (cfg_producer cfg)));
      ("payload", _redact_payload None p)]) = Ok env /\
    s_outbox s' !! id = Some ev /\ outbox_replay ev id env topic = Ok id.
Proof.
  unfold emit_event. intros Hw.
  do 6 (apply attempt_inv in Hw as [(e & ? & _)|(? & ? & Hw)]; [done|]).
  match goal with Hg : (if negb (str_in topic TOPICS) then _ else _) = _ |- _ =>
    repeat res_step; bool_prop end.
  destruct (s_outbox s !! _) as [ev|] eqn:Hn.
  { injection Hw as Hrep <-. pose proof Hrep as Hr. unfold outbox_replay in Hr. inv_res.
    eexists _, _, _, _, ev. split_and!; try done. }
  destruct (transaction s _) as [r1 s1] eqn:Ht.
  apply transaction_cases in Ht as [(e & -> & ->)|([] & tx & -> & Hb & Ha)].
  { destruct e; try done. rewrite Hn in Hw. done. }
  injection Hw as <- <-. unfold insert_outbox in Hb. inv_res.
  unfold _apply in Ha. inv_res.
  eexists _, _, _, _, _. split_and!; try done; simpl.
  - by rewrite lookup_union, lookup_insert_eq, union_Some_l.
  - unfold outbox_replay. by rewrite !String.eqb_refl.
Qed.

(** Emitting the same outbox event again is a no-op.  After a successful
    call with an explicit time, and whatever calls follow, the same call returns
    the same event id and leaves the store alone. *)
Theorem outbox_event_idempotent s et st si p topic pr t c id s1 s2 c' :
  emit_event cfg s et st si p topic pr (Some t) c = (Ok id, s1) -> rtc (step cfg) s1 s2 ->
  emit_event cfg s2 et st si p topic pr (Some t) c' = (Ok id, s2).
Proof.
  intros (t' & ts & ph & env & ev & [= <-] & Htop & Het & Hts & Hph & Hid & Henv & Hev & Hrep)%emit_event_Ok
    Hrtc.
  assert (Hev2 : s_outbox s2 !! id = Some ev).
  { eapply lookup_weaken; [exact Hev|]. by apply (ex_outbox s1 s2), (steps_extend cfg). }
  unfold emit_event, at_or_now. rewrite Htop, Het. cbn [attempt negb].
  rewrite Hts. cbn [attempt]. rewrite Hph. cbn [attempt]. rewrite Hid. cbn [attempt].
  rewrite Henv. cbn [attempt]. by rewrite Hev2, Hrep.
Qed.
End Events.

Definition demo_audit : AuditEventSpec :=
  mk_AuditEventSpec "CONFIG_CHANGED" "ops-1" "OPERATOR" "config" "cfg_demo" None None (PDict []).
Definition demo_audited : res exn string * Store :=
  write_audit_event demo_cfg demo1 demo_audit (Some demo_clock) demo_clock.
Definition demo_event_id : string := the "" demo_audited.

Lemma demo_audited_Ok :
  write_audit_event demo_cfg demo1 demo_audit (Some demo_clock) demo_clock =
  (Ok demo_event_id, demo_audited.2).
Proof. apply (outcome_eq demo_audited). vm_compute. reflexivity. Qed.

Lemma audit_event_idempotent_witness :
  write_audit_event demo_cfg demo_audited.2 demo_audit (Some demo_clock) demo_clock =
  (Ok demo_event_id, demo_audited.2).
Proof.
  pose proof (audit_event_idempotent demo_cfg demo1 demo_audit demo_clock demo_clock demo_event_id
    demo_audited.2 demo_audited.2 demo_clock demo_audited_Ok (rtc_refl _ _)) as Hi.
  exact Hi.
Defined.

Lemma audit_event_sealed_witness : frozen demo1 demo_audited.2.
Proof.
  assert (Hnew : s_audit demo1 !! demo_event_id = None) by (vm_compute; reflexivity).
  destruct (audit_event_sealed demo_cfg demo1 demo_audit (Some demo_clock) demo_clock demo_event_id
    demo_audited.2 demo_interval demo1_reachable demo_audited_Ok Hnew) as [Hf _].
  exact Hf.
Defined.

Definition demo_emit (s : Store) : res exn string * Store :=
  emit_event demo_cfg s "config.changed" "config" "cfg_demo" (PDict []) "platform.events" None
    (Some demo_clock) demo_clock.
Definition demo_outbox_id : string := the "" (demo_emit demo1).

Lemma outbox_event_idempotent_witness :
  emit_event demo_cfg (demo_emit demo1).2 "config.changed" "config" "cfg_demo" (PDict [])
    "platform.events" None (Some demo_clock) demo_clock = (Ok demo_outbox_id, (demo_emit demo1).2).
Proof.
  assert (He : emit_event demo_cfg demo1 "config.changed" "config" "cfg_demo" (PDict [])
    "platform.events" None (Some demo_clock) demo_clock = (Ok demo_outbox_id, (demo_emit demo1).2)).
  { apply (outcome_eq (demo_emit demo1)). vm_compute. reflexivity. }
  pose proof (outbox_event_idempotent demo_cfg demo1 "config.changed" "config" "cfg_demo" (PDict [])
    "platform.events" None demo_clock demo_clock demo_outbox_id (demo_emit demo1).2
    (demo_emit demo1).2 demo_clock He (rtc_refl _ _)) as Hi.
  exact Hi.
Defined.
