(* ===== verification/Outbox.v ===== *)
(** The event outbox (platform/outbox.py): envelopes with content-addressed ids,
    the in-memory queue with leases, the drain worker and the consumer that
    handles an event once.  The publisher (the message broker) is an interface. *)
From S2P Require Import Prelude Rows Exceptions DateTime Sha256 Canonical HashChain LedgerService.
Open Scope Z_scope.

Inductive ob_error : Type :=
| OutboxError
| HandlerError (message : string)
| ObRaised (e : exn).

Definition MAX_ATTEMPTS : Z := 25.

(** * Envelopes *)

Record OutboxEvent : Type := mk_OutboxEvent {
  ev_id : string;
  ev_type : string;
  ev_occurred_at : datetime;
  ev_subject_type : string;
  ev_subject_id : string;
  ev_producer : string;
  ev_topic : string;
  ev_payload : pyobj;
  ev_schema_version : Z
}.

Definition ob_aware (d : datetime) : res ob_error datetime :=
  raise OutboxError when (negb (tz_aware d)) else Ok d.

Definition _rfc3339_ms (d : datetime) : string :=
  iso_date (ord2ymd (micros d / micros_per_day)) +:+ "T" +:+ iso_time (micros d mod micros_per_day) +:+ "Z".

Definition to_envelope (e : OutboxEvent) : pyobj :=
  dict [("event_id", PStr (ev_id e)); ("type", PStr (ev_type e));
        ("occurred_at", PStr (_rfc3339_ms (ev_occurred_at e)));
        ("subject_type", PStr (ev_subject_type e)); ("subject_id", PStr (ev_subject_id e));
        ("schema_version", PInt (ev_schema_version e)); ("producer", PStr (ev_producer e));
        ("payload", ev_payload e)].

Definition ob_res {A} (c : res exn A) : res ob_error A :=
  match c with Ok a => Ok a | Err e => Err (ObRaised e) end.

Section Build.
Context `{HashFn}.

Definition build_event (event_type subject_type subject_id producer topic : string) (payload : pyobj)
    (occurred_at : datetime) : res ob_error OutboxEvent :=
  raise OutboxError when (negb (str_in topic TOPICS)) else
  raise OutboxError when (negb (truthy event_type) || negb (str_contains "."%char event_type)) else
  raise OutboxError when (negb (truthy subject_type) || negb (truthy subject_id) || negb (truthy producer)) else
  raise OutboxError when (negb (is_dict payload)) else
  let* occurred_at := ob_aware occurred_at in
  let* payload_hash := ob_res (sha256_canonical payload) in
  let* event_id := ob_res (make_id "obx"
    (dict [("event_type", PStr event_type); ("subject_type", PStr subject_type);
           ("subject_id", PStr subject_id); ("producer", PStr producer); ("topic", PStr topic);
           ("occurred_at", PDatetime occurred_at); ("payload_hash", PStr payload_hash)])) in
  Ok (mk_OutboxEvent event_id event_type occurred_at subject_type subject_id producer topic payload 1).
End Build.

(** * The queue *)

Inductive ob_status : Type := ObPending | ObClaimed | ObPublished | ObPoison.

#[export] Instance ob_status_eq_dec : EqDecision ob_status.
Proof. solve_decision. Defined.

Record OutboxRecord : Type := mk_OutboxRecord {
  q_event : OutboxEvent;
  q_status : ob_status;
  q_produced_at : datetime;
  q_attempt_count : Z;
  q_claimed_by : option string;
  q_claimed_at : option datetime;
  q_lease_expires_at : option datetime;
  q_published_at : option datetime;
  q_last_error : option string
}.

Definition q_id (r : OutboxRecord) : string := ev_id (q_event r).

(** [_rows] and [_order]: the rows in the order they were enqueued. *)
Definition Queue : Type := list OutboxRecord.

Definition fresh_record (e : OutboxEvent) : OutboxRecord :=
  mk_OutboxRecord e ObPending (ev_occurred_at e) 0 None None None None None.

Definition enqueue (e : OutboxEvent) (q : Queue) : Queue :=
  if List.existsb (has_key q_id (ev_id e)) q then q else q ++ [fresh_record e].

(** [PENDING], or [CLAIMED] with a lease that has ended. *)
Definition is_due (now : datetime) (r : OutboxRecord) : bool :=
  match q_status r with
  | ObPending => true
  | ObClaimed => match q_lease_expires_at r with Some t => dt_ltb t now | None => false end
  | ObPublished | ObPoison => false
  end.

(** [_due_ids]: by [produced_at], ties in the order of arrival. *)
Definition _due_ids (now : datetime) (q : Queue) : list OutboxRecord :=
  sort_by Z.le (fun r => micros (q_produced_at r)) (List.filter (is_due now) q).

Definition dt_add_seconds (d : datetime) (n : Z) : res exn datetime :=
  let m := micros d + n * 1000000 in
  raise OverflowError when (negb ((0 <=? m) && (m <? micros_limit))) else Ok (mk_datetime (tz_aware d) m).

Definition claim (worker : string) (now lease : datetime) (r : OutboxRecord) : OutboxRecord :=
  mk_OutboxRecord (q_event r) ObClaimed (q_produced_at r) (q_attempt_count r) (Some worker) (Some now)
    (Some lease) (q_published_at r) (q_last_error r).

Definition update_rows (ids : list string) (f : OutboxRecord -> OutboxRecord) (q : Queue) : Queue :=
  (fun r => if str_in (q_id r) ids then f r else r) <$> q.

Definition claim_batch (worker : string) (limit : nat) (now : datetime) (lease_seconds : Z) (q : Queue) :
    res ob_error (list OutboxRecord) * Queue :=
  match ob_aware now with
  | Err e => (Err e, q)
  | Ok now =>
      match take limit (_due_ids now q) with
      | [] => (Ok [], q)
      | batch =>
          match dt_add_seconds now lease_seconds with
          | Err e => (Err (ObRaised e), q)
          | Ok lease => (Ok (claim worker now lease <$> batch),
                         update_rows (q_id <$> batch) (claim worker now lease) q)
          end
      end
  end.

Definition _owned (event_id worker : string) (q : Queue) : res ob_error OutboxRecord :=
  match List.find (has_key q_id event_id) q with
  | None => Err OutboxError
  | Some row =>
      raise OutboxError when (negb (bool_decide (q_status row = ObClaimed)) ||
                              negb (bool_decide (q_claimed_by row = Some worker))) else Ok row
  end.

Definition published (now : datetime) (r : OutboxRecord) : OutboxRecord :=
  mk_OutboxRecord (q_event r) ObPublished (q_produced_at r) (q_attempt_count r) None (q_claimed_at r)
    None (Some now) (q_last_error r).

Definition mark_published (event_id worker : string) (now : datetime) (q : Queue) : res ob_error unit * Queue :=
  match _owned event_id worker q with
  | Err e => (Err e, q)
  | Ok row =>
      match ob_aware now with
      | Err e => (Err e, q)
      | Ok now => (Ok tt, replace_row q_id event_id (fun _ => published now row) q)
      end
  end.

Definition released (error : string) (r : OutboxRecord) : OutboxRecord :=
  let attempts := q_attempt_count r + 1 in
  mk_OutboxRecord (q_event r) (if MAX_ATTEMPTS <=? attempts then ObPoison else ObPending) (q_produced_at r)
    attempts None None None (q_published_at r) (Some error).

Definition release_failed (event_id worker error : string) (q : Queue) : res ob_error unit * Queue :=
  match _owned event_id worker q with
  | Err e => (Err e, q)
  | Ok row => (Ok tt, replace_row q_id event_id (fun _ => released error row) q)
  end.

Definition ob_get (event_id : string) (q : Queue) : option OutboxRecord :=
  List.find (has_key q_id event_id) q.

Definition pending_count (now : datetime) (q : Queue) : res ob_error nat :=
  let* now := ob_aware now in Ok (length (_due_ids now q)).

(** * The worker *)

(** [EventPublisher]: the broker accepts an envelope or refuses it. *)
Class EventPublisher (P : Type) : Type := {
  publish : string -> pyobj -> P -> res string unit * P
}.

Record OutboxWorker : Type := mk_OutboxWorker {
  worker_id : string;
  batch_size : nat;
  lease_seconds : Z
}.

(** [OutboxWorker.__init__] ([ValueError]s; the poll interval is not state). *)
Definition outbox_worker (id : string) (batch : Z) (lease : Z) (poll_positive : bool) :
    option OutboxWorker :=
  if (batch <? 1) || (lease <? 1) || negb poll_positive then None
  else Some (mk_OutboxWorker id (Z.to_nat batch) lease).

Record DrainReport : Type := mk_DrainReport {
  dr_claimed : nat;
  dr_published : nat;
  dr_failed : nat;
  dr_errors : list string
}.

Section Worker.
Context {P : Type} `{!EventPublisher P}.

Definition deff := eff (Queue * P) ob_error.

Definition on_queue {A} (f : Queue -> res ob_error A * Queue) : deff A := fun s =>
  let '(r, q) := f s.1 in (r, (q, s.2)).

(** One turn of the loop: publish, then settle the row. *)
Definition send (worker : string) (now : datetime) (r : OutboxRecord) : deff (option string) := fun s =>
  let event := q_event r in
  let '(reply, p) := publish (ev_topic event) (to_envelope event) s.2 in
  match reply with
  | Err message => (do* _ := on_queue (release_failed (ev_id event) worker message) in eret (Some message)) (s.1, p)
  | Ok _ => (do* _ := on_queue (mark_published (ev_id event) worker now) in eret None) (s.1, p)
  end.

Definition note (rep : DrainReport) (failure : option string) : DrainReport :=
  match failure with
  | Some m => mk_DrainReport (dr_claimed rep) (dr_published rep) (dr_failed rep + 1) (dr_errors rep ++ [m])
  | None => mk_DrainReport (dr_claimed rep) (dr_published rep + 1) (dr_failed rep) (dr_errors rep)
  end.

(** [clock i] is the [i]-th reading of the clock in this tick. *)
Fixpoint send_all (w : OutboxWorker) (clock : nat -> datetime) (i : nat) (batch : list OutboxRecord)
    (rep : DrainReport) : deff DrainReport :=
  match batch with
  | [] => eret rep
  | r :: rest =>
      do* failure := send (worker_id w) (clock i) r in
      send_all w clock (S i) rest (note rep failure)
  end.

Definition drain_once (w : OutboxWorker) (clock : nat -> datetime) : deff DrainReport :=
  do* batch := on_queue (claim_batch (worker_id w) (batch_size w) (clock 0%nat) (lease_seconds w)) in
  send_all w clock 1 batch (mk_DrainReport (length batch) 0 0 []).

(** [run(max_iterations=n)]: a tick that raises is logged and skipped. *)
Fixpoint run_worker (w : OutboxWorker) (clocks : nat -> nat -> datetime) (n : nat) (total : nat)
    (s : Queue * P) : nat * (Queue * P) :=
  match n with
  | O => (total, s)
  | S n' =>
      let '(r, s') := drain_once w (clocks n') s in
      run_worker w clocks n' (match r with Ok rep => total + dr_published rep | Err _ => total end)%nat s'
  end.
End Worker.

(** [RecordingPublisher] *)
Record Recording : Type := mk_Recording {
  rec_published : list (string * pyobj);
  rec_fail : list string
}.

Definition pget (k : string) (o : pyobj) : option pyobj :=
  match o with
  | PDict items => snd <$> List.find (fun kv => bool_decide (key_text kv.1 = Some k)) items
  | _ => None
  end.

Definition str_of (o : option pyobj) : option string :=
  match o with Some (PStr s) | Some (PEnum s) => Some s | _ => None end.

#[export] Instance recording_publisher : EventPublisher Recording := {
  publish topic envelope p :=
    match str_of (pget "event_id" envelope) with
    | Some i => if str_in i (rec_fail p) then (Err "ConnectionError"%string, p)
                else (Ok tt, mk_Recording (rec_published p ++ [(topic, envelope)]) (rec_fail p))
    | None => (Ok tt, mk_Recording (rec_published p ++ [(topic, envelope)]) (rec_fail p))
    end
}.

(** * The consumer *)

Record Consumer : Type := mk_Consumer { seen : list string; duplicate_count : Z }.

Section Consume.
Context {H : Type} (handler : pyobj -> H -> res string unit * H).

Definition handle (envelope : pyobj) (c : Consumer) (h : H) : res ob_error bool * (Consumer * H) :=
  match str_of (pget "event_id" envelope) with
  | None => (Err OutboxError, (c, h))
  | Some event_id =>
      if negb (truthy event_id) then (Err OutboxError, (c, h))
      else if str_in event_id (seen c) then
        (Ok false, (mk_Consumer (seen c) (duplicate_count c + 1), h))
      else
        match handler envelope h with
        | (Err m, h') => (Err (HandlerError m), (c, h'))
        | (Ok _, h') => (Ok true, (mk_Consumer (seen c ++ [event_id]) (duplicate_count c), h'))
        end
  end.
End Consume.
