(* ===== verification/OutboxFacts.v ===== *)
(** The outbox loses nothing and delivers in order: facts about
    platform/outbox.py. *)
From S2P Require Import Prelude Rows Exceptions DateTime Sha256 Canonical HashChain LedgerService Outbox.
Open Scope Z_scope.

(** * The queue invariant *)

Definition status_ok (r : OutboxRecord) : Prop :=
  match q_status r with
  | ObPoison => q_attempt_count r = MAX_ATTEMPTS
  | ObPending | ObPublished => q_attempt_count r < MAX_ATTEMPTS
  | ObClaimed => q_attempt_count r < MAX_ATTEMPTS /\ is_Some (q_claimed_by r) /\ is_Some (q_lease_expires_at r)
  end.

Definition row_ok (r : OutboxRecord) : Prop :=
  q_produced_at r = ev_occurred_at (q_event r) /\ 0 <= q_attempt_count r /\ status_ok r.

Definition queue_ok (q : Queue) : Prop := NoDup (q_id <$> q) /\ Forall row_ok q.

Lemma empty_queue_ok : queue_ok [].
Proof. by repeat constructor. Qed.

Lemma existsb_key i q : List.existsb (has_key q_id i) q = false -> forall r, r ∈ q -> q_id r <> i.
Proof. intros He r Hr Hi. pose proof (not_existsb _ _ He r Hr) as Hn. apply has_key_iff in Hi. congruence. Qed.

Lemma enqueue_ok e q : queue_ok q -> queue_ok (enqueue e q).
Proof.
  intros [Hnd Hall]. unfold enqueue. destruct (List.existsb _ q) eqn:He; [done|]. split.
  - apply NoDup_fmap_snoc; [done|]. by apply existsb_key.
  - apply Forall_app. split; [done|]. apply Forall_singleton. done.
Qed.

(** The pending attempts of a due row. *)
Lemma due_attempts now r : row_ok r -> is_due now r = true -> q_attempt_count r < MAX_ATTEMPTS.
Proof. intros (_ & _ & Hs) Hd. unfold is_due, status_ok in *. destruct (q_status r); naive_solver. Qed.

Lemma elem_of_due now q r : r ∈ _due_ids now q <-> r ∈ q /\ is_due now r = true.
Proof.
  unfold _due_ids. rewrite sort_by_perm, list_elem_of_In, List.filter_In, <- list_elem_of_In. done.
Qed.

Lemma update_rows_ids ids f q : (forall r, q_id (f r) = q_id r) -> q_id <$> update_rows ids f q = q_id <$> q.
Proof.
  intros Hf. unfold update_rows. rewrite <- list_fmap_compose. apply list_fmap_ext. intros _ r _. cbn.
  by destruct (str_in _ _).
Qed.

Lemma claim_row_ok w now lease t r : row_ok r -> is_due t r = true -> row_ok (claim w now lease r).
Proof. intros Hr Hd. pose proof (due_attempts _ _ Hr Hd). destruct Hr as (? & ? & _). split_and!; cbn; eauto. Qed.

Lemma elem_of_ids (r : OutboxRecord) (l q : Queue) :
  NoDup (q_id <$> q) -> l ⊆ q -> r ∈ q -> str_in (q_id r) (q_id <$> l) = true <-> r ∈ l.
Proof.
  intros Hnd Hsub Hr. unfold str_in. rewrite bool_decide_eq_true. split; [|apply list_elem_of_fmap_2].
  intros (r' & He & Hr')%list_elem_of_fmap. by rewrite (NoDup_fmap_eq q_id q r r' Hnd Hr (Hsub _ Hr') He).
Qed.

Lemma take_due_sub limit now q : take limit (_due_ids now q) ⊆ q.
Proof. intros r Hr%elem_of_take. destruct Hr as (i & Hi & _). apply list_elem_of_lookup_2, elem_of_due in Hi. by destruct Hi. Qed.

Lemma take_due_due limit now q r : r ∈ take limit (_due_ids now q) -> is_due now r = true.
Proof. intros (i & Hi & _)%elem_of_take. apply list_elem_of_lookup_2, elem_of_due in Hi. by destruct Hi. Qed.

(** What a claim does: the oldest due rows are leased, the others stay. *)
Lemma claim_batch_spec w limit now ls q r q' :
  queue_ok q -> claim_batch w limit now ls q = (r, q') ->
  queue_ok q' /\ q_event <$> q' = q_event <$> q /\
  (q' = q \/ exists lease, q' = update_rows (q_id <$> take limit (_due_ids now q)) (claim w now lease) q).
Proof.
  intros Hok. pose proof Hok as [Hnd Hall]. unfold claim_batch, ob_aware.
  destruct (negb (tz_aware now)); [intros [= <- <-]; split_and!; auto|].
  destruct (take limit (_due_ids now q)) as [|r0 batch] eqn:Hb; [intros [= <- <-]; split_and!; auto|].
  destruct (dt_add_seconds now ls) as [lease|e]; [|intros [= <- <-]; split_and!; auto].
  rewrite <- Hb. intros [= <- <-]. split_and!; [|clear|by right; exists lease].
  - split; [by rewrite update_rows_ids|]. unfold update_rows. apply Forall_fmap, Forall_forall. intros r Hr. cbn.
    rewrite Forall_forall in Hall. destruct (str_in _ _) eqn:Hin; [|by apply Hall].
    apply (elem_of_ids r _ q Hnd (take_due_sub _ _ _) Hr) in Hin.
    eapply claim_row_ok; [by apply Hall|]. by eapply take_due_due.
  - unfold update_rows. rewrite <- list_fmap_compose. apply list_fmap_ext. intros _ r _. cbn. by destruct (str_in _ _).
Qed.

Lemma owned_spec i w q row : _owned i w q = Ok row ->
  row ∈ q /\ q_id row = i /\ q_status row = ObClaimed /\ q_claimed_by row = Some w.
Proof.
  unfold _owned. destruct (List.find _ q) as [r|] eqn:Hf; [|done]. intros Hr. inv_res. bool_prop.
  apply find_Some in Hf as [? ?%has_key_iff]. done.
Qed.

Lemma set_row_ok i g row q :
  queue_ok q -> row ∈ q -> q_id row = i -> q_event (g row) = q_event row -> row_ok (g row) ->
  queue_ok (replace_row q_id i (fun _ => g row) q) /\
  q_event <$> replace_row q_id i (fun _ => g row) q = q_event <$> q.
Proof.
  intros [Hnd Hall] Hin Hi He Hg.
  assert (Hev : q_event <$> replace_row q_id i (fun _ => g row) q = q_event <$> q).
  { unfold replace_row. rewrite <- list_fmap_compose. apply list_fmap_ext. intros n r Hr. cbn.
    destruct (String.eqb_spec (q_id r) i) as [Hri|]; [|done]. rewrite He. f_equal.
    eapply (NoDup_fmap_eq q_id); [done..| |congruence]. by eapply list_elem_of_lookup_2. }
  split; [split|done].
  - assert (Hids : q_id <$> replace_row q_id i (fun _ => g row) q = q_id <$> q).
    { change q_id with (ev_id ∘ q_event). rewrite !list_fmap_compose. f_equal. exact Hev. }
    by rewrite Hids.
  - apply Forall_replace_row; [done|]. by intros.
Qed.

Lemma published_row_ok now row : row_ok row -> q_status row = ObClaimed -> row_ok (published now row).
Proof. intros (? & ? & Hs) Hst. unfold status_ok in Hs. rewrite Hst in Hs. split_and!; cbn; naive_solver. Qed.

Lemma released_row_ok m row : row_ok row -> q_status row = ObClaimed -> row_ok (released m row).
Proof.
  intros (? & ? & Hs) Hst. unfold status_ok in Hs. rewrite Hst in Hs. destruct Hs as [Hlt _].
  split_and!; cbn; [done|lia|]. unfold status_ok. cbn. destruct (MAX_ATTEMPTS <=? q_attempt_count row + 1) eqn:Hc; lia.
Qed.

Lemma mark_published_spec i w now q r q' :
  queue_ok q -> mark_published i w now q = (r, q') ->
  match r with
  | Err _ => q' = q
  | Ok _ => exists row, row ∈ q /\ q_id row = i /\ q_status row = ObClaimed /\ q_claimed_by row = Some w /\
      queue_ok q' /\ q_event <$> q' = q_event <$> q /\ q' = replace_row q_id i (fun _ => published now row) q
  end.
Proof.
  intros Hok. unfold mark_published. destruct (_owned i w q) as [row|] eqn:Ho; [|by intros [= <- <-]].
  unfold ob_aware. destruct (negb (tz_aware now)); intros [= <- <-]; [done|].
  apply owned_spec in Ho as (Hin & Hi & Hs & Hc). exists row.
  destruct (set_row_ok i (published now) row q Hok Hin Hi) as [? ?]; [done| |done].
  apply published_row_ok; [|done]. destruct Hok as [_ Hall]. rewrite Forall_forall in Hall. by apply Hall.
Qed.

Lemma release_failed_spec i w m q r q' :
  queue_ok q -> release_failed i w m q = (r, q') ->
  match r with
  | Err _ => q' = q
  | Ok _ => exists row, row ∈ q /\ q_id row = i /\ q_status row = ObClaimed /\ q_claimed_by row = Some w /\
      queue_ok q' /\ q_event <$> q' = q_event <$> q /\ q' = replace_row q_id i (fun _ => released m row) q
  end.
Proof.
  intros Hok. unfold release_failed. destruct (_owned i w q) as [row|] eqn:Ho; intros [= <- <-]; [|done].
  apply owned_spec in Ho as (Hin & Hi & Hs & Hc). exists row.
  destruct (set_row_ok i (released m) row q Hok Hin Hi) as [? ?]; [done| |done].
  apply released_row_ok; [|done]. destruct Hok as [_ Hall]. rewrite Forall_forall in Hall. by apply Hall.
Qed.

(** * Runs: any workers, any order, any broker *)

Inductive ob_op : Type :=
| OpEnqueue (e : OutboxEvent)
| OpClaim (worker : string) (limit : nat) (now : datetime) (lease_seconds : Z)
| OpSend (worker : string) (now : datetime) (event_id : string)
| OpCrash (event_id : string).   (* the worker dies between publishing and settling *)

Section Runs.
Context {P : Type} `{!EventPublisher P}.

(** The envelopes handed to the broker, with its answer. *)
Definition Log : Type := list (OutboxEvent * bool).
Definition world : Type := (Queue * P) * Log.

Definition reply (r : OutboxRecord) (p : P) : bool :=
  is_ok (publish (ev_topic (q_event r)) (to_envelope (q_event r)) p).1.

Definition ob_perform (op : ob_op) (s : world) : world :=
  let '((q, p), log) := s in
  match op with
  | OpEnqueue e => ((enqueue e q, p), log)
  | OpClaim w limit now ls => (((claim_batch w limit now ls q).2, p), log)
  | OpSend w now i =>
      match ob_get i q with
      | None => s
      | Some r => ((send w now r (q, p)).2, log ++ [(q_event r, reply r p)])
      end
  | OpCrash i =>
      match ob_get i q with
      | None => s
      | Some r => ((q, (publish (ev_topic (q_event r)) (to_envelope (q_event r)) p).2), log ++ [(q_event r, reply r p)])
      end
  end.

Definition ob_run (ops : list ob_op) (s : world) : world := foldl (fun s op => ob_perform op s) s ops.

Definition enqueued (ops : list ob_op) : list OutboxEvent :=
  omap (fun op => match op with OpEnqueue e => Some e | _ => None end) ops.

Definition refusals (e : OutboxEvent) (log : Log) : Z :=
  sumZ (fun x => if String.eqb (ev_id x.1) (ev_id e) && negb x.2 then 1 else 0) log.

Lemma refusals_app e l l' : refusals e (l ++ l') = refusals e l + refusals e l'.
Proof. apply sumZ_app. Qed.

(** A row and the broker's answers agree. *)
Definition told (log : Log) (r : OutboxRecord) : Prop :=
  (q_status r = ObPublished -> (q_event r, true) ∈ log) /\ q_attempt_count r <= refusals (q_event r) log.

Definition world_ok (es : list OutboxEvent) (s : world) : Prop :=
  let '((q, _), log) := s in
  queue_ok q /\ Forall (told log) q /\ (forall r, r ∈ q -> q_event r ∈ es) /\
  (forall e, e ∈ es -> exists r, r ∈ q /\ q_id r = ev_id e) /\ (forall x, x ∈ log -> x.1 ∈ es).

Lemma told_more log x r : told log r -> told (log ++ [x]) r.
Proof.
  intros [Hp Ha]. split; [intros Hs; apply elem_of_app; left; by apply Hp|]. rewrite refusals_app.
  assert (0 <= refusals (q_event r) [x]); [|lia].
  apply sumZ_nonneg. intros y _. by destruct (_ && _).
Qed.

Lemma events_same (q q' : Queue) (es : list OutboxEvent) :
  q_event <$> q' = q_event <$> q ->
  (forall r, r ∈ q -> q_event r ∈ es) -> (forall e, e ∈ es -> exists r, r ∈ q /\ q_id r = ev_id e) ->
  (forall r, r ∈ q' -> q_event r ∈ es) /\ (forall e, e ∈ es -> exists r, r ∈ q' /\ q_id r = ev_id e).
Proof.
  intros He Hin Hex. split.
  - intros r Hr. apply (list_elem_of_fmap_2 q_event) in Hr. rewrite He in Hr.
    apply list_elem_of_fmap in Hr as (r' & -> & Hr'). by apply Hin.
  - intros e Hes. destruct (Hex e Hes) as (r & Hr & Hi). apply (list_elem_of_fmap_2 q_event) in Hr. rewrite <- He in Hr.
    apply list_elem_of_fmap in Hr as (r' & Her & Hr'). exists r'. split; [done|]. unfold q_id in *. by rewrite <- Her.
Qed.

Lemma told_replace log i (g : OutboxRecord -> OutboxRecord) row q :
  Forall (told log) q -> told log (g row) -> Forall (told log) (replace_row q_id i (fun _ : OutboxRecord => g row) q).
Proof. intros Hq Hg. apply Forall_replace_row; [done|]. by intros. Qed.

Lemma told_published log now row : told log row -> (q_event row, true) ∈ log -> told log (published now row).
Proof. intros [_ Ha] Hin. split; [by intros _|exact Ha]. Qed.

Lemma told_released log m row :
  told log row -> told (log ++ [(q_event row, false)]) (released m row).
Proof.
  intros [_ Ha]. split; [cbn; by destruct (_ <=? _)|]. cbn. rewrite refusals_app. unfold refusals at 2. cbn.
  rewrite String.eqb_refl. cbn. lia.
Qed.

Lemma send_told w now r q p s' res :
  queue_ok q -> r ∈ q -> send w now r (q, p) = (res, s') ->
  (forall log, Forall (told log) q -> Forall (told (log ++ [(q_event r, reply r p)])) s'.1) /\
  queue_ok s'.1 /\ q_event <$> s'.1 = q_event <$> q.
Proof.
  intros Hok Hr. unfold send, reply. pose proof Hok as [Hnd _]. cbn [fst snd]. cbv zeta.
  destruct (publish _ _ p) as [[[]|m] p'] eqn:Hpub; cbn [fst snd is_ok];
    cbv beta iota zeta; rewrite ebind_eq; unfold on_queue; cbn [fst snd].
  - destruct (mark_published _ w now q) as [rm q'] eqn:Hm.
    pose proof (mark_published_spec _ _ _ _ _ _ Hok Hm) as Hspec.
    destruct rm as [u|e]; intros [= <- <-]; cbn [fst].
    + destruct Hspec as (row & Hin & Hi & _ & _ & Hok' & Hev & ->). split; [|done].
      assert (row = r) as -> by (by eapply (NoDup_fmap_eq q_id)).
      intros log Hlog. apply told_replace; [eapply Forall_impl; [exact Hlog|]; intros; by apply told_more|].
      rewrite Forall_forall in Hlog. apply told_published; [by apply told_more, Hlog|]. apply elem_of_app. right. by left.
    + subst q'. split; [|done]. intros log Hlog. eapply Forall_impl; [exact Hlog|]. intros. by apply told_more.
  - destruct (release_failed _ w m q) as [rm q'] eqn:Hm.
    pose proof (release_failed_spec _ _ _ _ _ _ Hok Hm) as Hspec.
    destruct rm as [u|e]; intros [= <- <-]; cbn [fst].
    + destruct Hspec as (row & Hin & Hi & _ & _ & Hok' & Hev & ->). split; [|done].
      assert (row = r) as -> by (by eapply (NoDup_fmap_eq q_id)).
      intros log Hlog. apply told_replace; [eapply Forall_impl; [exact Hlog|]; intros; by apply told_more|].
      rewrite Forall_forall in Hlog. by apply told_released, Hlog.
    + subst q'. split; [|done]. intros log Hlog. eapply Forall_impl; [exact Hlog|]. intros. by apply told_more.
Qed.

Lemma send_ok w now r s res s' : queue_ok s.1 -> send w now r s = (res, s') -> queue_ok s'.1.
Proof.
  intros Hok. unfold send. destruct s as [q p]. cbn [fst snd] in *. cbv zeta.
  destruct (publish _ _ p) as [[[]|m] p']; rewrite ebind_eq; unfold on_queue; cbn [fst snd].
  - destruct (mark_published _ w now q) as [[u|e] q'] eqn:Hm; pose proof (mark_published_spec _ _ _ _ _ _ Hok Hm) as Hspec;
      intros [= <- <-]; cbn [fst]; [destruct Hspec as (? & _ & _ & _ & _ & ? & _); done|by rewrite Hspec].
  - destruct (release_failed _ w m q) as [[u|e] q'] eqn:Hm; pose proof (release_failed_spec _ _ _ _ _ _ Hok Hm) as Hspec;
      intros [= <- <-]; cbn [fst]; [destruct Hspec as (? & _ & _ & _ & _ & ? & _); done|by rewrite Hspec].
Qed.

Lemma send_all_ok w clock batch : forall i rep s res s',
  queue_ok s.1 -> send_all w clock i batch rep s = (res, s') -> queue_ok s'.1.
Proof.
  induction batch as [|r batch IH]; intros i rep s res s' Hok; cbn [send_all]; [by intros [= _ <-]|].
  rewrite ebind_eq. destruct (send _ _ r s) as [[f|e] s1] eqn:Hs; pose proof (send_ok _ _ _ _ _ _ Hok Hs) as Hok1.
  - by apply IH.
  - by intros [= _ <-].
Qed.

Lemma claim_told w now lease ids q log : Forall (told log) q -> Forall (told log) (update_rows ids (claim w now lease) q).
Proof.
  intros Hq. unfold update_rows. apply Forall_fmap. eapply Forall_impl; [exact Hq|]. intros r Hr. cbn.
  destruct (str_in _ _); [|done]. destruct Hr as [_ Ha]. by split.
Qed.

Lemma ob_perform_ok op es s : world_ok es s -> world_ok (es ++ enqueued [op]) (ob_perform op s).
Proof.
  destruct s as [[q p] log]. intros (Hok & Htold & Hin & Hex & Hlog).
  destruct op as [e|w limit now ls|w now i|i]; cbn [ob_perform enqueued omap list_omap]; rewrite ?app_nil_r.
  - assert (Hmem : forall l : Queue, (forall r, r ∈ l -> q_event r ∈ es) -> forall r, r ∈ l -> q_event r ∈ es ++ [e])
      by (intros l Hl r Hr; apply elem_of_app; left; by apply Hl).
    split_and!; [by apply enqueue_ok|..]; unfold enqueue; destruct (List.existsb (has_key q_id (ev_id e)) q) eqn:He.
    + done.
    + apply Forall_app. split; [done|]. apply Forall_singleton. split; [done|]. cbn. unfold refusals.
      apply sumZ_nonneg. intros y _. by destruct (_ && _).
    + by apply Hmem.
    + intros r [Hr|Hr%list_elem_of_singleton]%elem_of_app; [by apply (Hmem q)|]. subst r. apply elem_of_app. right. by left.
    + intros e' [He'|He'%list_elem_of_singleton]%elem_of_app; [by apply Hex|]. subst e'.
      apply List.existsb_exists in He as (r & Hr & Hk%has_key_iff). exists r. split; [by apply list_elem_of_In|done].
    + intros e' [He'|He'%list_elem_of_singleton]%elem_of_app.
      * destruct (Hex e' He') as (r & ? & ?). exists r. split; [apply elem_of_app; by left|done].
      * subst e'. exists (fresh_record e). split; [apply elem_of_app; right; by left|done].
    + intros x Hx. apply elem_of_app. left. by apply Hlog.
    + intros x Hx. apply elem_of_app. left. by apply Hlog.
  - destruct (claim_batch w limit now ls q) as [r q'] eqn:Hc.
    destruct (claim_batch_spec _ _ _ _ _ _ _ Hok Hc) as (Hok' & Hev & Hq'). cbn [snd].
    destruct (events_same q q' es Hev Hin Hex) as [Hin' Hex']. split_and!; try done.
    destruct Hq' as [->|[lease ->]]; [done|]. by apply claim_told.
  - destruct (ob_get i q) as [r|] eqn:Hg; [|done]. apply find_Some in Hg as [Hr _].
    destruct (send w now r (q, p)) as [res [q' p']] eqn:Hs. cbn [snd].
    destruct (send_told _ _ _ _ _ _ _ Hok Hr Hs) as (Ht & Hok' & Hev). cbn [fst] in *.
    destruct (events_same q q' es Hev Hin Hex) as [Hin' Hex']. split_and!; try done; [by apply Ht|].
    intros x [Hx|Hx%list_elem_of_singleton]%elem_of_app; [by apply Hlog|]. subst x. by apply Hin.
  - destruct (ob_get i q) as [r|] eqn:Hg; [|done]. apply find_Some in Hg as [Hr _]. split_and!; try done.
    + eapply Forall_impl; [exact Htold|]. intros. by apply told_more.
    + intros x [Hx|Hx%list_elem_of_singleton]%elem_of_app; [by apply Hlog|]. subst x. by apply Hin.
Qed.

Lemma ob_run_ok ops : forall es s, world_ok es s -> world_ok (es ++ enqueued ops) (ob_run ops s).
Proof.
  induction ops as [|op ops IH]; intros es s Hs; [by rewrite app_nil_r|].
  replace (es ++ enqueued (op :: ops)) with ((es ++ enqueued [op]) ++ enqueued ops).
  - apply IH. by apply ob_perform_ok.
  - rewrite <- (assoc_L app). f_equal. unfold enqueued. cbn. by destruct op.
Qed.

Lemma ob_run_empty ops p : world_ok (enqueued ops) (ob_run ops (([], p), [])).
Proof. apply (ob_run_ok ops []). split_and!; try done; [apply empty_queue_ok|by intros ? ?%not_elem_of_nil..]. Qed.
End Runs.

(** The outbox loses no event and invents none.  Whatever producers, workers and
    broker do, in any order, crashes between publishing and settling included:
    every enqueued event has a row, every row holds an enqueued event, a row is
    PUBLISHED only after the broker accepted its envelope, and a row is POISON
    only after the broker refused it at least 25 times. *)
Theorem outbox_keeps_every_event {P} `{!EventPublisher P} (p : P) ops :
  let q := (ob_run ops (([], p), [])).1.1 in
  let log := (ob_run ops (([], p), [])).2 in
  (forall e, e ∈ enqueued ops -> exists r, ob_get (ev_id e) q = Some r) /\
  (forall r, r ∈ q ->
     q_event r ∈ enqueued ops /\ q_produced_at r = ev_occurred_at (q_event r) /\
     (q_status r = ObPublished -> (q_event r, true) ∈ log) /\
     (q_status r = ObPoison -> MAX_ATTEMPTS <= refusals (q_event r) log) /\
     q_attempt_count r <= MAX_ATTEMPTS).
Proof.
  pose proof (ob_run_empty ops p) as Hok. destruct (ob_run ops _) as [[q p'] log]. cbn [fst snd].
  destruct Hok as ([Hnd Hall] & Htold & Hin & Hex & _). rewrite Forall_forall in Hall, Htold. split.
  - intros e He. destruct (Hex e He) as (r & Hr & Hi). exists r. by apply find_key.
  - intros r Hr. destruct (Hall r Hr) as (Hp & Ha & Hs). destruct (Htold r Hr) as [Hpub Hcnt].
    split_and!; [by apply Hin|done|done|..]; unfold status_ok in Hs.
    + intros Hst. rewrite Hst in Hs. lia.
    + destruct (q_status r); unfold MAX_ATTEMPTS in *; naive_solver lia.
Qed.

(** * Draining *)

Lemma filter_not_taken (l : Queue) n :
  NoDup (q_id <$> l) -> List.filter (fun r => negb (str_in (q_id r) (q_id <$> take n l))) l = drop n l.
Proof.
  intros Hnd. assert (Hl : l = take n l ++ drop n l) by (by rewrite take_drop).
  rewrite Hl in Hnd. rewrite fmap_app in Hnd. apply NoDup_app in Hnd as (_ & Hd & _).
  transitivity (List.filter (fun r => negb (str_in (q_id r) (q_id <$> take n l))) (take n l ++ drop n l));
    [by rewrite take_drop|]. rewrite List.filter_app, lfilter_false, lfilter_true; [done|..].
  - intros r Hr. apply negb_true_iff, bool_decide_eq_false. intros Hin. apply (Hd _ Hin). by apply list_elem_of_fmap_2.
  - intros r Hr. apply negb_false_iff, bool_decide_eq_true. by apply list_elem_of_fmap_2.
Qed.

(** The rows of [ids] were published, the others are as they were. *)
Definition settled (ids : list string) (r r' : OutboxRecord) : Prop :=
  q_event r' = q_event r /\ if str_in (q_id r) ids then q_status r' = ObPublished else r' = r.

Lemma settled_due now ids q q' :
  Forall2 (settled ids) q q' ->
  List.filter (is_due now) q' =
  List.filter (fun r => negb (str_in (q_id r) ids)) (List.filter (is_due now) q).
Proof.
  induction 1 as [|r r' q q' [He Hr] _ IH]; [done|]. cbn. rewrite IH. destruct (str_in (q_id r) ids) eqn:Hin.
  - assert (is_due now r' = false) as -> by (unfold is_due; by rewrite Hr).
    destruct (is_due now r); cbn; by rewrite ?Hin.
  - rewrite Hr. destruct (is_due now r); cbn; by rewrite ?Hin.
Qed.

Lemma due_nodup now q : NoDup (q_id <$> q) -> NoDup (q_id <$> _due_ids now q).
Proof.
  intros Hnd. unfold _due_ids. rewrite sort_by_perm. induction q as [|r q IH]; [done|]. csimpl.
  apply NoDup_cons in Hnd as [Hr Hnd]. destruct (is_due now r); [|by apply IH]. csimpl. apply NoDup_cons.
  split; [|by apply IH]. intros (r' & He & [Hin _]%list_elem_of_In%List.filter_In)%list_elem_of_fmap.
  apply Hr. rewrite He. by apply list_elem_of_fmap_2, list_elem_of_In.
Qed.

Lemma settled_due_ids now n q q' :
  NoDup (q_id <$> q) -> Forall2 (settled (q_id <$> take n (_due_ids now q))) q q' ->
  _due_ids now q' = drop n (_due_ids now q).
Proof.
  intros Hnd Hs. unfold _due_ids at 1. rewrite (settled_due now _ _ _ Hs).
  rewrite sort_by_filter by apply _. apply (filter_not_taken (_due_ids now q)). by apply due_nodup.
Qed.

(** A broker that accepts everything. *)
Definition deliver (r : OutboxRecord) : string * pyobj := (ev_topic (q_event r), to_envelope (q_event r)).

Definition claimed_by (w : string) (q : Queue) (r : OutboxRecord) : Prop :=
  r ∈ q /\ q_status r = ObClaimed /\ q_claimed_by r = Some w.

Lemma owned_claimed w q r : NoDup (q_id <$> q) -> claimed_by w q r -> _owned (q_id r) w q = Ok r.
Proof.
  intros Hnd (Hin & Hs & Hc). unfold _owned.
  rewrite (proj2 (find_key q_id q (q_id r) r Hnd)) by done. by rewrite Hs, Hc, !bool_decide_eq_true_2.
Qed.

Lemma publish_accepts (r : OutboxRecord) (p : Recording) : rec_fail p = [] ->
  publish (ev_topic (q_event r)) (to_envelope (q_event r)) p = (Ok tt, mk_Recording (rec_published p ++ [deliver r]) []).
Proof. intros Hf. cbn. rewrite Hf. cbn. done. Qed.

Lemma send_accepted w now r q p :
  NoDup (q_id <$> q) -> claimed_by w q r -> tz_aware now = true -> rec_fail p = [] ->
  send w now r (q, p) =
  (Ok None, (replace_row q_id (q_id r) (fun _ => published now r) q, mk_Recording (rec_published p ++ [deliver r]) [])).
Proof.
  intros Hnd Hr Hn Hf. unfold send. cbn [fst snd]. cbv zeta. rewrite (publish_accepts r p Hf).
  rewrite ebind_eq. unfold on_queue, mark_published. cbn [fst snd].
  change (ev_id (q_event r)) with (q_id r). rewrite (owned_claimed w q r Hnd Hr). unfold ob_aware. by rewrite Hn.
Qed.

Lemma replace_settled now r q :
  NoDup (q_id <$> q) -> r ∈ q -> Forall2 (settled [q_id r]) q (replace_row q_id (q_id r) (fun _ => published now r) q).
Proof.
  intros Hnd Hr. unfold replace_row. apply Forall2_fmap_r, Forall2_same_length_lookup. split; [done|].
  intros i x y Hx Hy. assert (x = y) as -> by congruence. clear Hy. apply list_elem_of_lookup_2 in Hx.
  unfold settled, str_in. cbn. destruct (String.eqb_spec (q_id y) (q_id r)) as [He|He].
  - assert (y = r) as -> by (by eapply (NoDup_fmap_eq q_id)). rewrite bool_decide_eq_true_2 by (by left). by split.
  - rewrite bool_decide_eq_false_2; [by split|]. by intros ?%list_elem_of_singleton.
Qed.

Lemma settled_ids ids q q' : Forall2 (settled ids) q q' -> q_id <$> q' = q_id <$> q.
Proof.
  induction 1 as [|r r' q q' [He _] _ IH]; [done|]. csimpl. rewrite IH. f_equal. unfold q_id. by rewrite He.
Qed.

Lemma settled_cons i ids q q1 q2 :
  i ∉ ids -> Forall2 (settled [i]) q q1 -> Forall2 (settled ids) q1 q2 -> Forall2 (settled (i :: ids)) q q2.
Proof.
  intros Hi Hf. revert q2. induction Hf as [|r r1 q q1 [He Hr] _ IH]; intros q2 H2; inversion H2; subst; constructor; auto.
  destruct H1 as [He2 Hr2]. assert (Hid : q_id r1 = q_id r) by (unfold q_id; by rewrite He). rewrite Hid in Hr2.
  split; [congruence|]. unfold str_in in *. destruct (decide (q_id r = i)) as [Heq|Hne].
  - subst i. rewrite bool_decide_eq_true_2 in Hr by (by left). rewrite bool_decide_eq_false_2 in Hr2 by done. subst.
    by rewrite bool_decide_eq_true_2 by (by left).
  - rewrite bool_decide_eq_false_2 in Hr by (by rewrite list_elem_of_singleton). subst r1.
    rewrite (bool_decide_ext _ (q_id r ∈ ids)); [done|]. rewrite elem_of_cons. naive_solver.
Qed.

Lemma settled_claimed w i q q' r :
  Forall2 (settled [i]) q q' -> q_id r <> i -> claimed_by w q r -> claimed_by w q' r.
Proof.
  intros Hs Hi (Hin & Hst & Hc). split; [|done]. apply list_elem_of_lookup in Hin as [j Hj].
  destruct (Forall2_lookup_l _ _ _ _ _ Hs Hj) as (r' & Hj' & _ & Hr').
  unfold str_in in Hr'. rewrite bool_decide_eq_false_2 in Hr' by (by rewrite list_elem_of_singleton).
  subst r'. by eapply list_elem_of_lookup_2.
Qed.

Lemma send_all_accepted w clock batch : forall i rep q p,
  NoDup (q_id <$> q) -> NoDup (q_id <$> batch) -> Forall (claimed_by (worker_id w) q) batch ->
  (forall j, tz_aware (clock j) = true) -> rec_fail p = [] ->
  exists q', send_all w clock i batch rep (q, p) =
    (Ok (mk_DrainReport (dr_claimed rep) (dr_published rep + length batch) (dr_failed rep) (dr_errors rep)),
     (q', mk_Recording (rec_published p ++ (deliver <$> batch)) [])) /\
    Forall2 (settled (q_id <$> batch)) q q'.
Proof.
  induction batch as [|r batch IH]; intros i rep q p Hnd Hb Hc Hclk Hf; cbn [send_all].
  - exists q. split; [|apply Forall2_same_length_lookup; split; [done|]; intros j x y Hx Hy; by simplify_eq].
    destruct rep, p. cbn in *. subst. unfold eret. rewrite app_nil_r. by rewrite Nat.add_0_r.
  - apply Forall_cons in Hc as [Hr Hc]. csimpl in Hb. apply NoDup_cons in Hb as [Hnin Hb].
    rewrite ebind_eq, (send_accepted _ _ _ _ _ Hnd Hr (Hclk i) Hf). pose proof Hr as [Hin _].
    pose proof (replace_settled (clock i) r q Hnd Hin) as Hs.
    destruct (IH (S i) (note rep None) (replace_row q_id (q_id r) (fun _ => published (clock i) r) q)
      (mk_Recording (rec_published p ++ [deliver r]) [])) as (q' & Hq' & Hs'); try done.
    + by rewrite (settled_ids _ _ _ Hs).
    + rewrite Forall_forall in Hc |- *. intros x Hx. eapply settled_claimed; [exact Hs| |by apply Hc].
      intros He. apply Hnin. rewrite <- He. by apply list_elem_of_fmap_2.
    + exists q'. split; [|by eapply settled_cons]. rewrite Hq'. cbn. rewrite <- (assoc_L app).
      by replace (dr_published rep + 1 + length batch)%nat with (dr_published rep + S (length batch))%nat by lia.
Qed.

Lemma claimed_settled w now lease ids q q' :
  Forall2 (settled ids) (update_rows ids (claim w now lease) q) q' -> Forall2 (settled ids) q q'.
Proof.
  unfold update_rows. revert q'. induction q as [|r q IH]; csimpl; intros q' Hs; inversion Hs as [|? r' ? l' Hr Hq]; subst;
    constructor; [|by apply IH]. unfold settled in *. destruct (str_in (q_id r) ids) eqn:Hin; cbn in *; [|by rewrite Hin in Hr].
  change (q_id (claim w now lease r)) with (q_id r) in Hr. by rewrite Hin in Hr.
Qed.

(** One tick publishes the oldest due rows, in order. *)
Lemma drain_tick w clock q p lease :
  queue_ok q -> (forall j, tz_aware (clock j) = true) -> rec_fail p = [] ->
  dt_add_seconds (clock 0%nat) (lease_seconds w) = Ok lease ->
  let due := _due_ids (clock 0%nat) q in
  let n := Nat.min (batch_size w) (length due) in
  exists q', drain_once w clock (q, p) =
    (Ok (mk_DrainReport n n 0 []), (q', mk_Recording (rec_published p ++ (deliver <$> take (batch_size w) due)) [])) /\
    queue_ok q' /\ forall t, _due_ids t q = due -> _due_ids t q' = drop (batch_size w) due.
Proof.
  intros Hok Hclk Hf Hl due n. pose proof Hok as [Hnd _]. unfold drain_once. rewrite ebind_eq.
  assert (Hcl : claim_batch (worker_id w) (batch_size w) (clock 0%nat) (lease_seconds w) q =
    (Ok (claim (worker_id w) (clock 0%nat) lease <$> take (batch_size w) due),
     update_rows (q_id <$> take (batch_size w) due) (claim (worker_id w) (clock 0%nat) lease) q)).
  { unfold claim_batch, ob_aware. rewrite (Hclk 0%nat). cbn [negb]. fold due.
    destruct (take (batch_size w) due); [|by rewrite Hl]. f_equal. unfold update_rows. symmetry.
    apply list_fmap_id. }
  unfold on_queue. cbn [fst snd]. rewrite Hcl.
  destruct (claim_batch_spec _ _ _ _ _ _ _ Hok Hcl) as ([Hnd1 Hall1] & Hev1 & _).
  set (batch := claim (worker_id w) (clock 0%nat) lease <$> take (batch_size w) due) in *.
  assert (Hids : q_id <$> batch = q_id <$> take (batch_size w) due).
  { unfold batch. rewrite <- list_fmap_compose. by apply list_fmap_ext. }
  assert (Hbnd : NoDup (q_id <$> batch)).
  { rewrite Hids, fmap_take. eapply sublist_NoDup; [exact (due_nodup (clock 0%nat) q Hnd)|apply sublist_take]. }
  assert (Hlen : length batch = n) by (unfold batch, n; by rewrite length_fmap, length_take).
  destruct (send_all_accepted w clock batch 1 (mk_DrainReport (length batch) 0 0 []) _ p Hnd1 Hbnd) as (q' & Hq' & Hs); try done.
  { apply Forall_forall. intros r1 (r & -> & Hr)%list_elem_of_fmap. split; [|done].
    unfold update_rows. apply list_elem_of_fmap. exists r. split; [|by eapply take_due_sub].
    by rewrite (proj2 (elem_of_ids r (take (batch_size w) due) q Hnd (take_due_sub _ _ _) (take_due_sub _ _ _ _ Hr))). }
  exists q'. split_and!.
  - refine (eq_trans Hq' _). rewrite Hlen.
    assert (deliver <$> batch = deliver <$> take (batch_size w) due) as ->; [|done].
    unfold batch. rewrite <- list_fmap_compose. by apply list_fmap_ext.
  - refine (send_all_ok w clock batch 1 _ (_, p) _ (q', _) _ Hq'). split; [exact Hnd1|exact Hall1].
  - intros t Ht. rewrite Hids in Hs. rewrite <- Ht in Hs |- *. by eapply settled_due_ids, claimed_settled.
Qed.

Lemma run_worker_drains w clocks n : forall total q p due,
  queue_ok q -> (forall i j, tz_aware (clocks i j) = true) -> rec_fail p = [] ->
  (forall i, (i < n)%nat -> is_ok (dt_add_seconds (clocks i 0%nat) (lease_seconds w)) = true /\ _due_ids (clocks i 0%nat) q = due) ->
  let k := (n * batch_size w)%nat in
  exists q', run_worker w clocks n total (q, p) =
    ((total + Nat.min k (length due))%nat, (q', mk_Recording (rec_published p ++ (deliver <$> take k due)) [])) /\
    forall t, _due_ids t q = due -> _due_ids t q' = drop k due.
Proof.
  induction n as [|n IH]; intros total q p due Hok Hn Hf Hcl k; cbn [run_worker].
  - exists q. cbn. rewrite app_nil_r, Nat.add_0_r. destruct p. cbn in *. by subst.
  - destruct (Hcl n) as [Hl Hd0]; [lia|]. destruct (dt_add_seconds (clocks n 0%nat) (lease_seconds w)) as [lease|] eqn:Hle; [|done].
    destruct (drain_tick w (clocks n) q p lease Hok (Hn n) Hf Hle) as (q1 & Hd & Hok1 & Hdue).
    cbv zeta beta in Hd, Hdue. rewrite Hd0 in Hd, Hdue. rewrite Hd. cbn [dr_published].
    destruct (IH (total + Nat.min (batch_size w) (length due))%nat q1
      (mk_Recording (rec_published p ++ (deliver <$> take (batch_size w) due)) []) (drop (batch_size w) due) Hok1 Hn eq_refl) as (q' & Hrun & Hdue').
    { intros i Hi. destruct (Hcl i) as [Hli Hdi]; [lia|]. split; [done|by apply Hdue]. }
    exists q'. cbv zeta in Hrun, Hdue'. cbn [rec_published] in Hrun. split.
    + refine (eq_trans Hrun _). rewrite length_drop, <- (assoc_L app), <- fmap_app, take_take_drop.
      f_equal. unfold k. lia.
    + intros t Ht. rewrite Hdue' by (by apply Hdue). by rewrite drop_drop.
Qed.

(** C25: the queue drains.  After any history of enqueues, claims, sends and crashes,
    with a broker that now accepts, let a worker make [n] ticks at clock readings
    that have a timezone, do not overflow when the lease is added and all find the
    same rows due (no other lease runs out while it works).  Then it publishes the
    oldest [n * batch_size] of these rows, in the order they were produced, counts
    them, and at each such reading the rows that are still due are exactly the
    later ones, in that order: none when [n * batch_size] reaches their number. *)
Theorem queue_drains ops p0 w clocks n due :
  let s := (ob_run ops (([], p0), [])).1 in
  (forall i j, tz_aware (clocks i j) = true) -> rec_fail s.2 = [] ->
  (forall i, (i < n)%nat -> is_ok (dt_add_seconds (clocks i 0%nat) (lease_seconds w)) = true /\ _due_ids (clocks i 0%nat) s.1 = due) ->
  let k := (n * batch_size w)%nat in
  let '(total, (q', p')) := run_worker w clocks n 0 s in
  total = Nat.min k (length due) /\
  rec_published p' = rec_published s.2 ++ (deliver <$> take k due) /\
  forall t, _due_ids t s.1 = due -> _due_ids t q' = drop k due.
Proof.
  intros s Hn Hf Hcl k. destruct (ob_run ops (([], p0), [])) as [[q p] log] eqn:Hrun.
  pose proof (ob_run_empty ops p0) as Hok. rewrite Hrun in Hok. destruct Hok as (Hok & _).
  destruct (run_worker_drains w clocks n 0 q p due Hok Hn Hf Hcl) as (q' & Hw & Hdue). cbv zeta in Hw.
  unfold s. cbn [fst]. by rewrite Hw.
Qed.

(** * Handling once *)

Section Once.
Context {H : Type} (handler : pyobj -> H -> res string unit * H).

(** The ids of the envelopes the handler ran on without raising. *)
Fixpoint consume (envelopes : list pyobj) (c : Consumer) (h : H) : list string :=
  match envelopes with
  | [] => []
  | e :: rest =>
      let '(r, (c', h')) := handle handler e c h in
      match r, str_of (pget "event_id" e) with
      | Ok true, Some i => i :: consume rest c' h'
      | _, _ => consume rest c' h'
      end
  end.

Lemma handle_cases e c h r c' h' :
  handle handler e c h = (r, (c', h')) ->
  (seen c' = seen c /\ r <> Ok true) \/
  (exists i, str_of (pget "event_id" e) = Some i /\ i ∉ seen c /\ (seen c' = seen c ++ [i]) /\ r = Ok true).
Proof.
  unfold handle. destruct (str_of _) as [i|]; [|intros [= <- <- <-]; by left].
  destruct (truthy i); cbn [negb]; [|intros [= <- <- <-]; by left].
  destruct (str_in i (seen c)) eqn:Hin; [intros [= <- <- <-]; by left|]. bool_prop. apply bool_decide_eq_false in Hin.
  destruct (handler e h) as [[[]|m] h1]; intros [= <- <- <-]; [|by left]. right. by exists i.
Qed.

Lemma consume_once envs : forall c h,
  NoDup (consume envs c h) /\ (forall i, i ∈ consume envs c h -> i ∉ seen c).
Proof.
  induction envs as [|e envs IH]; intros c h; cbn [consume]; [split; [constructor|by intros ? ?%not_elem_of_nil]|].
  destruct (handle handler e c h) as [r [c' h']] eqn:Hh. destruct (IH c' h') as [Hnd Hout].
  destruct (handle_cases _ _ _ _ _ _ Hh) as [[Hs Hr]|(i & Hi & Hn & Hs & ->)].
  - rewrite Hs in Hout. destruct r as [[]|]; [done|done|done].
  - rewrite Hi. rewrite Hs in Hout. split.
    + apply NoDup_cons. split; [|done]. intros Hin. apply (Hout i Hin), elem_of_app. right. by left.
    + intros j [->|Hj]%elem_of_cons; [done|]. intros Hc. apply (Hout j Hj), elem_of_app. by left.
Qed.

Lemma consume_all envs (Hh : forall e h, is_ok (handler e h).1 = true) : forall c h e i,
  e ∈ envs -> str_of (pget "event_id" e) = Some i -> truthy i = true -> i ∈ seen c \/ i ∈ consume envs c h.
Proof.
  induction envs as [|e0 envs IH]; intros c h e i He Hi Ht; [by apply not_elem_of_nil in He|]. cbn [consume].
  destruct (handle handler e0 c h) as [r [c' h']] eqn:Hhd.
  assert (Hmem : i ∈ seen c' -> i ∈ seen c \/ (r = Ok true /\ str_of (pget "event_id" e0) = Some i)).
  { destruct (handle_cases _ _ _ _ _ _ Hhd) as [[-> _]|(j & Hj & _ & -> & ->)]; [by left|].
    intros [?|?%list_elem_of_singleton]%elem_of_app; [by left|right]. by subst. }
  assert (Htail : i ∈ seen c' \/ i ∈ consume envs c' h' -> i ∈ seen c \/
    i ∈ match r, str_of (pget "event_id" e0) with Ok true, Some i => i :: consume envs c' h' | _, _ => consume envs c' h' end).
  { intros [Hs|Hc].
    - destruct (Hmem Hs) as [?|[-> ->]]; [by left|]. right. by left.
    - right. destruct r as [[]|]; [|done..]. destruct (str_of (pget "event_id" e0)); [by right|done]. }
  apply elem_of_cons in He as [->|He]; [|apply Htail, (IH c' h' e i He Hi Ht)].
  apply Htail. left. revert Hhd. unfold handle. rewrite Hi, Ht. cbn [negb].
  destruct (str_in i (seen c)) eqn:Hin; [intros [= _ <- _]; by apply bool_decide_eq_true in Hin|].
  specialize (Hh e0 h). destruct (handler e0 h) as [[[]|m] h1]; [|done]. intros [= _ <- _]. cbn. apply elem_of_app. right. by left.
Qed.
End Once.

(** The envelopes the broker accepted. *)
Definition accepted (log : Log) : list pyobj :=
  omap (fun x : OutboxEvent * bool => if x.2 then Some (to_envelope x.1) else None) log.

Lemma envelope_id e : str_of (pget "event_id" (to_envelope e)) = Some (ev_id e).
Proof. done. Qed.

(** C24: at least once becomes exactly once.  Whatever the producers, the workers and
    the broker did, a consumer fed with everything the broker accepted, with
    repetitions after crashes and lost leases, runs a handler that does not
    raise exactly once for every PUBLISHED event. *)
Theorem published_events_are_handled_once {P H} `{!EventPublisher P} (p : P)
    (handler : pyobj -> H -> res string unit * H) h ops :
  (forall e x, is_ok (handler e x).1 = true) ->
  let s := ob_run ops (([], p), []) in
  let handled := consume handler (accepted s.2) (mk_Consumer [] 0) h in
  NoDup handled /\
  forall r, r ∈ s.1.1 -> q_status r = ObPublished -> truthy (q_id r) = true -> q_id r ∈ handled.
Proof.
  intros Hh s handled. split; [apply (consume_once handler)|]. intros r Hr Hst Ht.
  pose proof (ob_run_empty ops p) as Hok. fold s in Hok. destruct s as [[q p'] log] eqn:Hs. cbn [fst snd] in *.
  destruct Hok as (_ & Htold & _). rewrite Forall_forall in Htold. destruct (Htold r Hr) as [Hpub _].
  destruct (consume_all handler (accepted log) Hh (mk_Consumer [] 0) h (to_envelope (q_event r)) (q_id r)) as [Hn|?];
    [|done|done|by apply not_elem_of_nil in Hn|done].
  apply list_elem_of_omap. exists (q_event r, true). split; [by apply Hpub|done].
Qed.

(** * Examples *)

Definition ev (i : string) (at_ : Z) : OutboxEvent :=
  mk_OutboxEvent i "payment_intent.created" (mk_datetime true at_) "PaymentIntent" "pi_1" "kernel@1" "payment.events"
    (dict [("n", PInt at_)]) 1.

Definition ob_now : datetime := mk_datetime true 63918000300007000.

(** Three events, the second claimed by a worker that dies after publishing. *)
Definition demo_queue_ops : list ob_op :=
  [OpEnqueue (ev "obx_c" 30); OpEnqueue (ev "obx_a" 10); OpEnqueue (ev "obx_b" 20);
   OpClaim "w1" 1 (mk_datetime true 1000) 30; OpCrash "obx_a"].

Definition demo_worker : OutboxWorker := mk_OutboxWorker "w2" 2 30.

(** A clock that moves on by a millisecond at every reading. *)
Definition demo_clocks (i j : nat) : datetime :=
  mk_datetime true (63918000300007000 + 1000 * (100 * (1 - Z.of_nat i) + Z.of_nat j)).

Definition demo_drained : nat * (Queue * Recording) :=
  run_worker demo_worker demo_clocks 2 0 (ob_run demo_queue_ops (([], mk_Recording [] []), [])).1.

Lemma queue_drains_witness :
  demo_drained.1 = 3%nat /\ _due_ids ob_now demo_drained.2.1 = [].
Proof.
  pose proof (queue_drains demo_queue_ops (mk_Recording [] []) demo_worker demo_clocks 2
    (_due_ids ob_now (ob_run demo_queue_ops (([], mk_Recording [] []), [])).1.1) ltac:(reflexivity) eq_refl) as Hq.
  unfold demo_drained. destruct (run_worker _ _ _ _ _) as [total [q' p']].
  destruct Hq as (Ht & _ & Hp).
  { intros i Hi. destruct i as [|[|i]]; [..|lia]; split; vm_compute; reflexivity. }
  cbn [fst snd]. rewrite Ht, (Hp ob_now) by reflexivity. vm_compute. split; reflexivity.
Defined.

Definition count_calls (e : pyobj) (n : nat) : res string unit * nat := (Ok tt, S n).

Lemma published_events_are_handled_once_witness :
  NoDup (consume count_calls (accepted (ob_run (demo_queue_ops ++ [OpClaim "w2" 3 ob_now 30; OpSend "w2" ob_now "obx_a"])
    (([], mk_Recording [] []), [])).2) (mk_Consumer [] 0) 0%nat).
Proof.
  apply (published_events_are_handled_once (mk_Recording [] []) count_calls 0%nat
    (demo_queue_ops ++ [OpClaim "w2" 3 ob_now 30; OpSend "w2" ob_now "obx_a"])). reflexivity.
Defined.

(** The event delivered twice is handled once. *)
Example crash_redelivers :
  length (accepted (ob_run (demo_queue_ops ++ [OpClaim "w2" 3 ob_now 30; OpSend "w2" ob_now "obx_a"])
    (([], mk_Recording [] []), [])).2) = 2%nat /\
  consume count_calls (accepted (ob_run (demo_queue_ops ++ [OpClaim "w2" 3 ob_now 30; OpSend "w2" ob_now "obx_a"])
    (([], mk_Recording [] []), [])).2) (mk_Consumer [] 0) 0%nat = ["obx_a"].
Proof. vm_compute. split; reflexivity. Qed.
