(* ===== verification/Fsm.v ===== *)
(** The refusal-first transition-table engine (kernel/fsm.py): a table is
    validated when it is built, and [resolve] is the only way to a transition.
    [resolve] answers exactly the declared rules; a potential over the states
    bounds how often an effect can occur along a run. *)
From S2P Require Import Prelude.
Open Scope Z_scope.

Record TransitionRule : Type := mk_TransitionRule {
  from_state : string;
  trigger : string;
  to_state : string;
  guard : option string;
  side_effects : list string
}.

#[export] Instance TransitionRule_eq_dec : EqDecision TransitionRule.
Proof. solve_decision. Defined.

(** The [ValueError]s of the constructor. *)
Inductive TableError : Type :=
| TerminalNotInStates (unknown : list string)
| RuleFromUnknownState (state : string)
| RuleToUnknownState (state : string)
| RuleFromTerminalState (state : string)
| DuplicateRule (from_state trigger : string) (guard : option string)
| AmbiguousRules (key : string * string).

(** The [detail] texts of [deny]. *)
Inductive Denial : Type :=
| UnknownState
| TerminalStatesAreImmutable
| NoSuchTransition
| GuardOnUnguardedRule (guard : string)
| BranchMustBeNamed (branches : list string)
| GuardDoesNotMatch (guard : string) (branches : list string).

Record TransitionDeniedError : Type := mk_TransitionDeniedError {
  den_machine : string;
  den_from_state : string;
  den_trigger : string;
  den_detail : Denial
}.

(** [_index] is a dict: an association list in insertion order. *)
Definition Index : Type := list ((string * string) * list TransitionRule).

Record TransitionTable : Type := mk_TransitionTable {
  tt_name : string;
  tt_states : gset string;
  tt_terminal : gset string;
  tt_index : Index
}.

(** [index.get(key, ())] *)
Fixpoint index_get (ix : Index) (key : string * string) : list TransitionRule :=
  match ix with
  | [] => []
  | (k, v) :: r => if decide (k = key) then v else index_get r key
  end.

(** [index[key] = value] *)
Fixpoint index_set (ix : Index) (key : string * string) (value : list TransitionRule) : Index :=
  match ix with
  | [] => [(key, value)]
  | (k, v) :: r => if decide (k = key) then (k, value) :: r else (k, v) :: index_set r key value
  end.

Definition guard_is (g : option string) (r : TransitionRule) : bool := bool_decide (guard r = g).

(** One turn of the constructor's loop over the rules. *)
Definition add_rule (states terminal : gset string) (ix : Index) (rule : TransitionRule) :
    res TableError Index :=
  raise (RuleFromUnknownState (from_state rule))
    when (negb (bool_decide (from_state rule ∈ states))) else
  raise (RuleToUnknownState (to_state rule))
    when (negb (bool_decide (to_state rule ∈ states))) else
  raise (RuleFromTerminalState (from_state rule))
    when (bool_decide (from_state rule ∈ terminal)) else
  let key := (from_state rule, trigger rule) in
  let existing := index_get ix key in
  raise (DuplicateRule (from_state rule) (trigger rule) (guard rule))
    when (existsb (guard_is (guard rule)) existing) else
  Ok (index_set ix key (existing ++ [rule])).

(** More than one candidate, and one of them without a guard key. *)
Definition ambiguous (candidates : list TransitionRule) : bool :=
  (1 <? length candidates)%nat && existsb (guard_is None) candidates.

Fixpoint check_ambiguity (ix : Index) : res TableError unit :=
  match ix with
  | [] => Ok tt
  | (key, candidates) :: r =>
      raise (AmbiguousRules key) when (ambiguous candidates) else check_ambiguity r
  end.

(** [TransitionTable.__init__] *)
Definition transition_table (name : string) (states terminal_states : list string)
    (rules : list TransitionRule) : res TableError TransitionTable :=
  let st : gset string := list_to_set states in
  let te : gset string := list_to_set terminal_states in
  raise (TerminalNotInStates (sorted_strings (elements (te ∖ st))))
    when (negb (bool_decide (te ⊆ st))) else
  let* index := rfold (add_rule st te) [] rules in
  let* _ := check_ambiguity index in
  Ok (mk_TransitionTable name st te index).

(** The [rules] property. *)
Definition rules (t : TransitionTable) : list TransitionRule := concat (tt_index t).*2.

Definition is_terminal (t : TransitionTable) (state : string) : bool :=
  bool_decide (state ∈ tt_terminal t).

Definition rules_for (t : TransitionTable) (from trig : string) : list TransitionRule :=
  index_get (tt_index t) (from, trig).

Definition branches (candidates : list TransitionRule) : list string :=
  sorted_strings (omap guard candidates).

Definition resolve (t : TransitionTable) (from trig : string) (g : option string) :
    res TransitionDeniedError TransitionRule :=
  let deny d := mk_TransitionDeniedError (tt_name t) from trig d in
  raise (deny UnknownState) when (negb (bool_decide (from ∈ tt_states t))) else
  raise (deny TerminalStatesAreImmutable) when (bool_decide (from ∈ tt_terminal t)) else
  let candidates := index_get (tt_index t) (from, trig) in
  match candidates with
  | [] => Err (deny NoSuchTransition)
  | first :: rest =>
      if bool_decide (length candidates = 1%nat) && guard_is None first then
        match g with
        | Some g => Err (deny (GuardOnUnguardedRule g))
        | None => Ok first
        end
      else
        match g with
        | None => Err (deny (BranchMustBeNamed (branches candidates)))
        | Some g' =>
            match List.find (guard_is g) candidates with
            | Some rule => Ok rule
            | None => Err (deny (GuardDoesNotMatch g' (branches candidates)))
            end
        end
  end.

(** * The index of a built table *)

Definition rule_key (r : TransitionRule) : string * string := (from_state r, trigger r).

Lemma index_get_set ix k v k' :
  index_get (index_set ix k v) k' = if decide (k = k') then v else index_get ix k'.
Proof.
  induction ix as [|[k0 v0] ix IH]; simpl; [done|].
  repeat (case_decide; simpl; try congruence).
Qed.

(** What the loop knows after the rules [rs]. *)
Record indexed (st te : gset string) (ix : Index) (rs : list TransitionRule) : Prop := {
  ix_get : forall key, index_get ix key = filter (fun r => rule_key r = key) rs;
  ix_legal : Forall (fun r => from_state r ∈ st /\ to_state r ∈ st /\ from_state r ∉ te) rs;
  ix_nodup : NoDup ((fun r => (rule_key r, guard r)) <$> rs)
}.

Lemma add_rule_indexed st te ix rs r ix' :
  indexed st te ix rs -> add_rule st te ix r = Ok ix' -> indexed st te ix' (rs ++ [r]).
Proof.
  intros [Hget Hlegal Hnd] Ha. unfold add_rule in Ha. inv_res. bool_prop. split.
  - intros key. rewrite index_get_set, filter_app, filter_cons, filter_nil, !Hget.
    fold (rule_key r). case_decide; [by subst|by rewrite app_nil_r].
  - apply Forall_app. by repeat constructor.
  - rewrite fmap_app. apply NoDup_app. split_and!; [done| |apply NoDup_singleton].
    intros x (r' & -> & Hr')%list_elem_of_fmap [= H1 H2 Hg]%list_elem_of_singleton.
    match goal with He : existsb _ _ = false |- _ => rename He into Hex end.
    apply not_true_iff_false in Hex. apply Hex, List.existsb_exists. exists r'.
    split; [|by apply bool_decide_eq_true]. apply list_elem_of_In. rewrite Hget.
    apply list_elem_of_filter. split; [|done]. unfold rule_key. congruence.
Qed.

Lemma build_indexed st te rs : forall ix seen ix',
  indexed st te ix seen -> rfold (add_rule st te) ix rs = Ok ix' -> indexed st te ix' (seen ++ rs).
Proof.
  induction rs as [|r rs IH]; intros ix seen ix' Hix Hf; simpl in Hf.
  - simplify_eq. by rewrite app_nil_r.
  - inv_res. rewrite (app_assoc seen [r] rs : seen ++ r :: rs = _). eapply IH; [|done].
    by eapply add_rule_indexed.
Qed.

Lemma check_ambiguity_Ok ix key :
  check_ambiguity ix = Ok tt -> ambiguous (index_get ix key) = false.
Proof.
  induction ix as [|[k v] ix IH]; intros Hc; simpl in *; [done|].
  destruct (ambiguous v) eqn:Ha; [done|]. case_decide; auto.
Qed.

Lemma transition_table_Ok name states terminal rs t :
  transition_table name states terminal rs = Ok t ->
  tt_name t = name /\ tt_states t = list_to_set states /\ tt_terminal t = list_to_set terminal /\
  indexed (tt_states t) (tt_terminal t) (tt_index t) rs /\
  forall key, ambiguous (index_get (tt_index t) key) = false.
Proof.
  unfold transition_table. intros Ht. inv_res. cbn [tt_name tt_states tt_terminal tt_index].
  match goal with Hc : check_ambiguity _ = Ok ?u |- _ => destruct u end.
  split_and!; [done..| |by intros; apply check_ambiguity_Ok].
  eapply (build_indexed _ _ rs [] []); [|done]. split; [done|constructor|constructor].
Qed.

(** * Resolution *)

Section Resolve.
Context (name : string) (states terminal : list string) (rs : list TransitionRule).
Context (t : TransitionTable) (Ht : transition_table name states terminal rs = Ok t).

Lemma resolve_sound f tr g r :
  resolve t f tr g = Ok r ->
  r ∈ rs /\ from_state r = f /\ trigger r = tr /\ guard r = g /\ f ∉ tt_terminal t.
Proof.
  destruct (transition_table_Ok _ _ _ _ _ Ht) as (_ & _ & _ & [Hget _ _] & _).
  unfold resolve. intros Hr. rewrite Hget in Hr. repeat res_step; bool_prop.
  assert (Hin : forall x, x ∈ filter (fun r => rule_key r = (f, tr)) rs ->
    x ∈ rs /\ from_state x = f /\ trigger x = tr).
  { intros x [[= <- <-] Hx]%list_elem_of_filter. done. }
  destruct (filter _ rs) as [|x l]; [done|].
  destruct (bool_decide _ && guard_is None x) eqn:Hc; destruct g as [g|]; try done; simplify_eq.
  - apply andb_true_iff in Hc as [_ Hg]. unfold guard_is in Hg. bool_prop.
    destruct (Hin r) as (? & ? & ?); [by left|]. done.
  - destruct (List.find _ _) as [x'|] eqn:Hf; simplify_eq.
    apply List.find_some in Hf as [Hf Hg]. unfold guard_is in Hg. bool_prop.
    destruct (Hin r) as (? & ? & ?); [by apply list_elem_of_In|]. done.
Qed.

Lemma same_key_guard r r' :
  r ∈ rs -> r' ∈ rs -> rule_key r = rule_key r' -> guard r = guard r' -> r = r'.
Proof.
  destruct (transition_table_Ok _ _ _ _ _ Ht) as (_ & _ & _ & [_ _ Hnd] & _).
  intros Hr Hr' Hk Hg. apply list_elem_of_lookup in Hr as [i Hi], Hr' as [j Hj].
  assert (i = j) as ->; [|congruence].
  eapply NoDup_lookup; [exact Hnd|rewrite list_lookup_fmap, Hi; done|].
  rewrite list_lookup_fmap, Hj. simpl. by rewrite Hk, Hg.
Qed.

Lemma resolve_complete r :
  r ∈ rs -> resolve t (from_state r) (trigger r) (guard r) = Ok r.
Proof.
  intros Hr. destruct (transition_table_Ok _ _ _ _ _ Ht) as (_ & _ & _ & [Hget Hleg _] & Hamb).
  specialize (Hamb (rule_key r)). rewrite Hget in Hamb.
  rewrite Forall_forall in Hleg. destruct (Hleg r Hr) as (Hf & _ & Hnt).
  unfold resolve. rewrite bool_decide_true by done. rewrite bool_decide_false by done. cbn [negb].
  rewrite Hget. fold (rule_key r).
  assert (Hin : r ∈ filter (fun r' => rule_key r' = rule_key r) rs) by (by apply list_elem_of_filter).
  assert (Hmem : forall x, x ∈ filter (fun r' => rule_key r' = rule_key r) rs ->
    x ∈ rs /\ rule_key x = rule_key r) by (by intros x [? ?]%list_elem_of_filter).
  destruct (filter _ rs) as [|x l] eqn:Hl; [by apply not_elem_of_nil in Hin|].
  destruct l as [|y l].
  - apply list_elem_of_singleton in Hin as <-. simpl. unfold guard_is.
    destruct (guard r) as [g|] eqn:Hg; [|by rewrite bool_decide_true].
    rewrite bool_decide_false by done. by rewrite bool_decide_true.
  - rewrite bool_decide_false by done. cbn [andb]. destruct (guard r) as [g|] eqn:Hg.
    + destruct (List.find _ _) as [x'|] eqn:Hfd.
      * apply List.find_some in Hfd as [Hx' Hg']. unfold guard_is in Hg'. bool_prop.
        apply list_elem_of_In in Hx'. destruct (Hmem _ Hx') as [? ?]. f_equal.
        apply same_key_guard; congruence.
      * eapply List.find_none in Hfd; [|by apply list_elem_of_In].
        unfold guard_is in Hfd. bool_prop. congruence.
    + exfalso. apply not_true_iff_false in Hamb. apply Hamb. unfold ambiguous.
      apply andb_true_iff. split; [done|]. apply List.existsb_exists. exists r.
      split; [by apply list_elem_of_In|by apply bool_decide_eq_true].
Qed.
End Resolve.

(** The arbiter answers exactly the declared table.  For every table the
    constructor accepts, [resolve] returns a rule if and only if it is a declared
    rule of that state and trigger whose guard key is the one the caller named;
    every other call is refused with [TransitionDeniedError] naming the machine,
    the state and the trigger. *)
Theorem resolve_is_the_table name states terminal rs t f tr g :
  transition_table name states terminal rs = Ok t ->
  (forall r, resolve t f tr g = Ok r <->
     r ∈ rs /\ from_state r = f /\ trigger r = tr /\ guard r = g) /\
  ((exists r, resolve t f tr g = Ok r) \/
   exists d, resolve t f tr g = Err (mk_TransitionDeniedError name f tr d)).
Proof.
  intros Ht. split.
  - intros r. split.
    + intros Hr. by destruct (resolve_sound _ _ _ _ _ Ht _ _ _ _ Hr) as (? & ? & ? & ? & _).
    + intros (Hr & <- & <- & <-). by eapply resolve_complete.
  - destruct (transition_table_Ok _ _ _ _ _ Ht) as (<- & _).
    destruct (resolve t f tr g) as [r|e] eqn:Hr; [by left; exists r|right].
    revert Hr. unfold resolve. repeat case_match; intros; simplify_eq; eauto.
Qed.

(** * Runs *)

(** Check a property of every row of a table by evaluation. *)
Lemma rows_checked (P : TransitionRule -> Prop) (dec : forall r, Decision (P r)) rs :
  forallb (fun r => bool_decide (P r)) rs = true -> Forall P rs.
Proof.
  rewrite List.forallb_forall. intros Hall. apply Forall_forall. intros r Hr.
  apply (bool_decide_eq_true (P r)), Hall. by apply list_elem_of_In.
Qed.
Ltac check_rows := apply (rows_checked _ _); vm_compute; reflexivity.

(** The rules a machine goes through from one state to another. *)
Inductive run_of (t : TransitionTable) : string -> list TransitionRule -> string -> Prop :=
| run_nil s : run_of t s [] s
| run_cons s tr g r rs s' :
    resolve t s tr g = Ok r -> run_of t (to_state r) rs s' -> run_of t s (r :: rs) s'.

Lemma run_app t s rs s' rs' s'' :
  run_of t s rs s' -> run_of t s' rs' s'' -> run_of t s (rs ++ rs') s''.
Proof. induction 1; simpl; [done|]. intros. econstructor; eauto. Qed.

(** How often an effect label occurs along a run. *)
Definition count_effect (e : string) (rs : list TransitionRule) : Z :=
  sumZ (fun r => if decide (e ∈ side_effects r) then 1 else 0) rs.

Section Runs.
Context (name : string) (states terminal : list string) (rs : list TransitionRule).
Context (t : TransitionTable) (Ht : transition_table name states terminal rs = Ok t).

(** A potential that every rule raises by at least its weight bounds the weight
    of a run. *)
Lemma run_potential (phase : string -> Z) (w : TransitionRule -> Z) s path s' :
  Forall (fun r => phase (from_state r) + w r <= phase (to_state r)) rs ->
  run_of t s path s' -> phase s + sumZ w path <= phase s'.
Proof.
  intros Hall Hrun. rewrite Forall_forall in Hall.
  induction Hrun as [s|s tr g r path s' Hr _ IH]; simpl; [lia|].
  destruct (resolve_sound _ _ _ _ _ Ht _ _ _ _ Hr) as (Hin & <- & _).
  specialize (Hall r Hin). unfold sumZ in *. lia.
Qed.

Lemma run_exact (phase : string -> Z) (w : TransitionRule -> Z) s path s' :
  Forall (fun r => phase (from_state r) + w r = phase (to_state r)) rs ->
  run_of t s path s' -> phase s + sumZ w path = phase s'.
Proof.
  intros Hall Hrun. rewrite Forall_forall in Hall.
  induction Hrun as [s|s tr g r path s' Hr _ IH]; simpl; [lia|].
  destruct (resolve_sound _ _ _ _ _ Ht _ _ _ _ Hr) as (Hin & <- & _).
  specialize (Hall r Hin). unfold sumZ in *. lia.
Qed.

(** If no rule leaves a set of states and every rule with the effect enters it,
    a run that shows the effect ends in the set. *)
Lemma run_closed (l : list string) s path s' :
  Forall (fun r => from_state r ∈ l -> to_state r ∈ l) rs ->
  run_of t s path s' -> s ∈ l -> s' ∈ l.
Proof.
  intros Hall Hrun. rewrite Forall_forall in Hall.
  induction Hrun as [s|s tr g r path s' Hr _ IH]; [done|]. intros Hs. apply IH.
  destruct (resolve_sound _ _ _ _ _ Ht _ _ _ _ Hr) as (Hin & <- & _). by apply Hall.
Qed.

Lemma run_marked (e : string) (l : list string) s path s' :
  Forall (fun r => from_state r ∈ l -> to_state r ∈ l) rs ->
  Forall (fun r => e ∈ side_effects r -> to_state r ∈ l) rs ->
  run_of t s path s' -> 0 < count_effect e path -> s' ∈ l.
Proof.
  intros Hcl Hall Hrun. pose proof Hall as Hall'. rewrite Forall_forall in Hall'.
  induction Hrun as [s|s tr g r path s' Hr Hrun IH]; [by unfold count_effect, sumZ; simpl; lia|].
  destruct (resolve_sound _ _ _ _ _ Ht _ _ _ _ Hr) as (Hin & <- & _).
  unfold count_effect, sumZ in *. simpl. case_decide as He; intros Hpos; [|apply IH; lia].
  eapply run_closed; [done|done|]. by apply Hall'.
Qed.

Lemma run_from_terminal s path s' :
  run_of t s path s' -> s ∈ tt_terminal t -> path = [] /\ s' = s.
Proof.
  intros Hrun Hs. destruct Hrun as [|s tr g r path s' Hr]; [done|].
  by destruct (resolve_sound _ _ _ _ _ Ht _ _ _ _ Hr) as (_ & _ & _ & _ & ?).
Qed.

Lemma run_in_states s path s' :
  run_of t s path s' -> s ∈ tt_states t -> s' ∈ tt_states t.
Proof.
  destruct (transition_table_Ok _ _ _ _ _ Ht) as (_ & _ & _ & [_ Hleg _] & _).
  rewrite Forall_forall in Hleg.
  induction 1 as [|s tr g r path s' Hr _ IH]; [done|]. intros _. apply IH.
  destruct (resolve_sound _ _ _ _ _ Ht _ _ _ _ Hr) as (Hin & _). apply (Hleg r Hin).
Qed.

(** One round of backward search: the states with a rule into [l]. *)
Definition back (l : list string) : list string :=
  remove_dups (l ++ (from_state <$> filter (fun r => to_state r ∈ l) rs)).

Lemma back_run n s l :
  s ∈ Nat.iter n back l -> exists path s', run_of t s path s' /\ s' ∈ l.
Proof.
  revert s. induction n as [|n IH]; intros s Hs; [exists [], s; by split; [constructor|]|].
  simpl in Hs. unfold back in Hs at 1. rewrite elem_of_remove_dups in Hs.
  apply elem_of_app in Hs as [Hs|(r & -> & [Hto Hr]%list_elem_of_filter)%list_elem_of_fmap].
  - by apply IH.
  - destruct (IH _ Hto) as (path & s' & Hp & Hl). exists (r :: path), s'. split; [|done].
    econstructor; [|done]. by apply (resolve_complete _ _ _ _ _ Ht).
Qed.

(** One round of forward search. *)
Definition forth (l : list string) : list string :=
  remove_dups (l ++ (to_state <$> filter (fun r => from_state r ∈ l) rs)).

Lemma forth_run n s s0 :
  s ∈ Nat.iter n forth [s0] -> exists path, run_of t s0 path s.
Proof.
  revert s. induction n as [|n IH]; intros s Hs; simpl in Hs.
  { apply list_elem_of_singleton in Hs as ->. exists []. constructor. }
  unfold forth in Hs at 1. rewrite elem_of_remove_dups in Hs.
  apply elem_of_app in Hs as [Hs|(r & -> & [Hfrom Hr]%list_elem_of_filter)%list_elem_of_fmap].
  - by apply IH.
  - destruct (IH _ Hfrom) as (path & Hp). exists (path ++ [r]). eapply run_app; [done|].
    econstructor; [by apply (resolve_complete _ _ _ _ _ Ht)|constructor].
Qed.
End Runs.

(** A sound machine: its table is accepted; every state can be reached from the
    initial one, but for the listed ones, which cannot; from every state some run
    ends in a terminal state; and a terminal state admits no further step. *)
Record sound_machine (name : string) (states terminal : list string)
    (rs : list TransitionRule) (init : string) (unreached : list string) : Prop := {
  sm_table : is_ok (transition_table name states terminal rs) = true;
  sm_reachable : forall t s, transition_table name states terminal rs = Ok t ->
    s ∈ states -> (exists path, run_of t init path s) <-> s ∉ unreached;
  sm_finishes : forall t s, transition_table name states terminal rs = Ok t ->
    s ∈ states -> exists path s', run_of t s path s' /\ s' ∈ terminal;
  sm_absorbing : forall t s path s', transition_table name states terminal rs = Ok t ->
    s ∈ terminal -> run_of t s path s' -> path = [] /\ s' = s
}.

(** The check that decides it: at most as many rounds of search are needed as
    there are states, and the states found from the initial one are closed
    under the rules. *)
Definition check_machine (name : string) (states terminal : list string)
    (rs : list TransitionRule) (init : string) (unreached : list string) : bool :=
  is_ok (transition_table name states terminal rs) &&
  let n := length states in
  let from_init := Nat.iter n (forth rs) [init] in
  let to_end := Nat.iter n (back rs) terminal in
  bool_decide (init ∈ from_init) &&
  forallb (fun r => bool_decide (from_state r ∈ from_init -> to_state r ∈ from_init)) rs &&
  forallb (fun s => bool_decide (s ∈ from_init <-> s ∉ unreached) && bool_decide (s ∈ to_end)) states.

Lemma check_machine_sound name states terminal rs init unreached :
  check_machine name states terminal rs init unreached = true ->
  sound_machine name states terminal rs init unreached.
Proof.
  unfold check_machine. intros [Ht [[Hi Hcl]%andb_true_iff Hall]%andb_true_iff]%andb_true_iff.
  rewrite List.forallb_forall in Hall. apply rows_checked in Hcl. bool_prop. split; [done|..].
  - intros t s Hb Hs%list_elem_of_In. apply Hall in Hs. bool_prop.
    match goal with He : _ <-> _ |- _ => rewrite <- He end. split; [|by eapply forth_run].
    intros [path Hr]. by eapply run_closed.
  - intros t s Hb Hs%list_elem_of_In. apply Hall in Hs. bool_prop. by eapply back_run.
  - intros t s path s' Hb Hs Hr. eapply run_from_terminal; [done..|].
    destruct (transition_table_Ok _ _ _ _ _ Hb) as (_ & _ & -> & _). by apply elem_of_list_to_set.
Qed.
