(* ===== verification/PaymentStates.v ===== *)
(** The transition tables of the payment machines (kernel/payment_states.py):
    payment intents, payment attempts and refunds, row by row, and what every run
    of them keeps: money is captured at most once, never both captured and
    reversed, and a refund settles only what was captured. *)
From S2P Require Import Prelude Fsm.
Open Scope Z_scope.

Definition PAYMENT_METHODS : list string :=
  ["NPSB_IBFT"; "BEFTN_CREDIT"; "BKASH"; "NAGAD"; "ROCKET"; "CARD"; "BANGLA_QR"].

Definition CAPTURE_METHODS : list string :=
  ["automatic"; "manual"].

Definition REFUND_REASONS : list string :=
  ["customer_request"; "duplicate"; "fraudulent"; "merchant_initiated"].

Definition INTENT_STATES : list string :=
  ["CREATED"; "REQUIRES_PAYMENT_METHOD"; "REQUIRES_CONFIRMATION"; "PRE_FLIGHT";
   "REQUIRES_ACTION"; "PROCESSING"; "REQUIRES_CAPTURE"; "SUCCEEDED"; "FAILED"; "CANCELLED";
   "REVERSAL_INITIATED"; "REVERSAL_PENDING"; "REVERSED"; "REFUND_INITIATED";
   "PARTIALLY_REFUNDED"; "REFUNDED"].

Definition INTENT_TERMINAL : list string :=
  ["FAILED"; "CANCELLED"; "REVERSED"; "REFUNDED"].

Definition INTENT_RULES : list TransitionRule :=
  [mk_TransitionRule "CREATED" "method_supplied" "REQUIRES_PAYMENT_METHOD" None ["aud"];
   mk_TransitionRule "CREATED" "confirm" "PRE_FLIGHT" None ["aud"];
   mk_TransitionRule "CREATED" "ttl_expired" "CANCELLED"
     None ["aud"; "event:payment_intent.expired"];
   mk_TransitionRule "CREATED" "cancel_requested" "CANCELLED" None ["aud"];
   mk_TransitionRule "REQUIRES_PAYMENT_METHOD" "method_supplied" "REQUIRES_CONFIRMATION"
     None [];
   mk_TransitionRule "REQUIRES_PAYMENT_METHOD" "ttl_expired" "CANCELLED"
     None ["aud"; "event:payment_intent.expired"];
   mk_TransitionRule "REQUIRES_PAYMENT_METHOD" "cancel_requested" "CANCELLED" None [];
   mk_TransitionRule "REQUIRES_CONFIRMATION" "confirm" "PRE_FLIGHT" None [];
   mk_TransitionRule "REQUIRES_CONFIRMATION" "ttl_expired" "CANCELLED"
     None ["aud"; "event:payment_intent.expired"];
   mk_TransitionRule "REQUIRES_CONFIRMATION" "cancel_requested" "CANCELLED" None [];
   mk_TransitionRule "PRE_FLIGHT" "preflight_passed" "PROCESSING"
     None ["aud"; "event:payment_intent.processing"];
   mk_TransitionRule "PRE_FLIGHT" "action_required" "REQUIRES_ACTION" None [];
   mk_TransitionRule "PRE_FLIGHT" "sanctions_hit" "FAILED"
     None ["aud:SANCTIONS_BLOCK"; "event:payment_intent.failed"];
   mk_TransitionRule "PRE_FLIGHT" "aml_block" "FAILED"
     None ["aud:AML_BLOCK"; "event:payment_intent.failed"];
   mk_TransitionRule "PRE_FLIGHT" "limit_exceeded" "FAILED"
     None ["aud"; "event:payment_intent.failed"];
   mk_TransitionRule "REQUIRES_ACTION" "action_completed" "PROCESSING"
     None ["aud"; "event:payment_intent.processing"];
   mk_TransitionRule "REQUIRES_ACTION" "action_failed" "FAILED"
     None ["aud"; "event:payment_intent.failed"];
   mk_TransitionRule "REQUIRES_ACTION" "ttl_expired" "FAILED"
     None ["aud"; "event:payment_intent.failed"];
   mk_TransitionRule "PROCESSING" "attempt_authorized" "REQUIRES_CAPTURE"
     None ["aud"; "event:payment_attempt.authorized"];
   mk_TransitionRule "PROCESSING" "attempt_charged" "SUCCEEDED"
     None [
       "je:payment_captured"; "je:fee_collected"; "event:payment_attempt.charged";
       "event:payment_intent.succeeded"];
   mk_TransitionRule "PROCESSING" "attempt_failed_retryable" "PROCESSING" None ["aud"];
   mk_TransitionRule "PROCESSING" "attempt_hard_declined" "FAILED"
     None ["aud"; "event:payment_intent.failed"];
   mk_TransitionRule "PROCESSING" "attempt_timed_out" "PROCESSING" None ["aud"];
   mk_TransitionRule "PROCESSING" "reversal_triggered" "REVERSAL_INITIATED"
     None ["aud"; "event:payment_intent.reversal_initiated"];
   mk_TransitionRule "PROCESSING" "ttl_expired" "REVERSAL_INITIATED"
     None ["aud"; "event:payment_intent.reversal_initiated"];
   mk_TransitionRule "REQUIRES_CAPTURE" "capture_requested" "SUCCEEDED"
     None [
       "je:payment_captured"; "je:fee_collected"; "event:payment_attempt.charged";
       "event:payment_intent.succeeded"];
   mk_TransitionRule "REQUIRES_CAPTURE" "void_requested" "CANCELLED"
     None ["aud:VOID_MARKER"; "event:payment_intent.cancelled"];
   mk_TransitionRule "REQUIRES_CAPTURE" "ttl_expired" "REVERSAL_INITIATED" None ["aud"];
   mk_TransitionRule "REVERSAL_INITIATED" "reversal_dispatch_claimed" "REVERSAL_PENDING"
     None ["aud"];
   mk_TransitionRule "REVERSAL_INITIATED" "reversal_confirmed" "REVERSED"
     None ["je:payment_reversed"; "event:payment_intent.reversed"];
   mk_TransitionRule "REVERSAL_INITIATED" "reversal_failed" "FAILED"
     None ["aud:REVERSAL_FAILED"; "event:compensation_item.queued"];
   mk_TransitionRule "REVERSAL_PENDING" "reversal_dispatch_claimed" "REVERSAL_PENDING"
     None ["aud"];
   mk_TransitionRule "REVERSAL_PENDING" "reversal_confirmed" "REVERSED"
     None ["je:payment_reversed"; "event:payment_intent.reversed"];
   mk_TransitionRule "REVERSAL_PENDING" "reversal_failed" "FAILED"
     None ["aud:REVERSAL_FAILED"; "event:compensation_item.queued"];
   mk_TransitionRule "SUCCEEDED" "refund_initiated" "REFUND_INITIATED"
     None ["event:refund.initiated"];
   mk_TransitionRule "REFUND_INITIATED" "refund_partial_succeeded" "PARTIALLY_REFUNDED"
     None ["je:refund_settled"];
   mk_TransitionRule "REFUND_INITIATED" "refund_full_succeeded" "REFUNDED"
     None ["je:refund_settled"; "event:refund.succeeded"];
   mk_TransitionRule "REFUND_INITIATED" "refund_failed" "SUCCEEDED"
     (Some "no_prior_partial"%string) ["aud:REFUND_FAILED"];
   mk_TransitionRule "REFUND_INITIATED" "refund_failed" "PARTIALLY_REFUNDED"
     (Some "prior_partial"%string) ["aud:REFUND_FAILED"];
   mk_TransitionRule "PARTIALLY_REFUNDED" "refund_initiated" "REFUND_INITIATED"
     None ["event:refund.initiated"];
   mk_TransitionRule "PARTIALLY_REFUNDED" "refund_full_succeeded" "REFUNDED"
     None ["je:refund_settled"; "event:refund.succeeded"]].

Definition INTENT_TABLE : res TableError TransitionTable :=
  transition_table "PaymentIntent" INTENT_STATES INTENT_TERMINAL INTENT_RULES.

Definition ATTEMPT_STATES : list string :=
  ["STARTED"; "AUTHENTICATION_PENDING"; "AUTHENTICATION_FAILED"; "AUTHORIZATION_PENDING";
   "AUTHORIZATION_FAILED"; "TIMED_OUT"; "AUTHORIZED"; "CAPTURE_INITIATED"; "CHARGED";
   "CAPTURE_FAILED"; "VOIDED"; "REVERSED"].

Definition ATTEMPT_TERMINAL : list string :=
  ["AUTHENTICATION_FAILED"; "AUTHORIZATION_FAILED"; "CAPTURE_FAILED"; "VOIDED"; "REVERSED"].

Definition ATTEMPT_RULES : list TransitionRule :=
  [mk_TransitionRule "STARTED" "authentication_required" "AUTHENTICATION_PENDING" None [];
   mk_TransitionRule "STARTED" "submitted" "AUTHORIZATION_PENDING" None [];
   mk_TransitionRule "AUTHENTICATION_PENDING" "auth_success" "AUTHORIZATION_PENDING" None [];
   mk_TransitionRule "AUTHENTICATION_PENDING" "auth_failure" "AUTHENTICATION_FAILED"
     None ["event:payment_attempt.authentication_failed"];
   mk_TransitionRule "AUTHENTICATION_PENDING" "auth_timeout" "AUTHENTICATION_FAILED" None [];
   mk_TransitionRule "AUTHORIZATION_PENDING" "connector_authorized" "AUTHORIZED"
     None ["event:payment_attempt.authorized"];
   mk_TransitionRule "AUTHORIZATION_PENDING" "connector_success_direct" "CHARGED"
     None ["je:payment_captured"; "event:payment_attempt.charged"];
   mk_TransitionRule "AUTHORIZATION_PENDING" "connector_failed" "AUTHORIZATION_FAILED" None [];
   mk_TransitionRule "AUTHORIZATION_PENDING" "connector_rejected" "AUTHORIZATION_FAILED"
     None ["event:payment_attempt.hard_declined"];
   mk_TransitionRule "AUTHORIZATION_PENDING" "connector_timeout" "TIMED_OUT" None [];
   mk_TransitionRule "TIMED_OUT" "poll_success" "AUTHORIZED" (Some "authorized"%string) [];
   mk_TransitionRule "TIMED_OUT" "poll_success" "CHARGED"
     (Some "charged"%string) ["je:payment_captured"; "event:payment_attempt.charged"];
   mk_TransitionRule "TIMED_OUT" "poll_pending" "TIMED_OUT" None [];
   mk_TransitionRule "TIMED_OUT" "poll_failed" "AUTHORIZATION_FAILED" None [];
   mk_TransitionRule "TIMED_OUT" "poll_exhausted" "AUTHORIZATION_FAILED" None [];
   mk_TransitionRule "TIMED_OUT" "poll_reversed" "REVERSED" None [];
   mk_TransitionRule "AUTHORIZED" "capture_submitted" "CAPTURE_INITIATED" None [];
   mk_TransitionRule "AUTHORIZED" "void_submitted" "VOIDED"
     None ["event:payment_attempt.voided"];
   mk_TransitionRule "AUTHORIZED" "auth_expired" "VOIDED" None [];
   mk_TransitionRule "CAPTURE_INITIATED" "capture_confirmed" "CHARGED"
     None ["je:payment_captured"; "event:payment_attempt.charged"];
   mk_TransitionRule "CAPTURE_INITIATED" "capture_failed" "CAPTURE_FAILED"
     None ["event:payment_attempt.capture_failed"];
   mk_TransitionRule "CHARGED" "reversal_submitted" "REVERSED"
     None ["je:payment_reversed"; "event:payment_attempt.reversed"]].

Definition ATTEMPT_TABLE : res TableError TransitionTable :=
  transition_table "PaymentAttempt" ATTEMPT_STATES ATTEMPT_TERMINAL ATTEMPT_RULES.

Definition REFUND_STATES : list string :=
  ["REFUND_INITIATED"; "REFUND_PENDING_CONNECTOR"; "REFUND_SUCCEEDED"; "REFUND_FAILED"].

Definition REFUND_TERMINAL : list string :=
  ["REFUND_SUCCEEDED"; "REFUND_FAILED"].

Definition REFUND_RULES : list TransitionRule :=
  [mk_TransitionRule "REFUND_INITIATED" "connector_dispatched" "REFUND_PENDING_CONNECTOR"
     None [];
   mk_TransitionRule "REFUND_INITIATED" "rail_not_supported" "REFUND_FAILED"
     None ["aud:REFUND_RAIL_UNSUPPORTED"];
   mk_TransitionRule "REFUND_PENDING_CONNECTOR" "connector_success" "REFUND_SUCCEEDED"
     None ["je:refund_settled"; "event:refund.succeeded"];
   mk_TransitionRule "REFUND_PENDING_CONNECTOR" "connector_failed" "REFUND_PENDING_CONNECTOR"
     None [];
   mk_TransitionRule "REFUND_PENDING_CONNECTOR" "connector_rejected" "REFUND_FAILED"
     None ["event:refund.failed"];
   mk_TransitionRule "REFUND_PENDING_CONNECTOR" "retries_exhausted" "REFUND_FAILED"
     None ["event:refund.failed"];
   mk_TransitionRule "REFUND_PENDING_CONNECTOR" "connector_timeout" "REFUND_PENDING_CONNECTOR"
     None []].

Definition REFUND_TABLE : res TableError TransitionTable :=
  transition_table "Refund" REFUND_STATES REFUND_TERMINAL REFUND_RULES.

(** * Money along a run *)

(** The intent states in which the payment has been captured. *)
Definition captured_states : list string :=
  ["SUCCEEDED"; "REFUND_INITIATED"; "PARTIALLY_REFUNDED"; "REFUNDED"].

Definition indicator (l : list string) (s : string) : Z := if decide (s ∈ l) then 1 else 0.

Definition emits (e : string) (r : TransitionRule) : Z := if decide (e ∈ side_effects r) then 1 else 0.

(** One payment, one outcome.  Along every run of an intent from [CREATED]:
    a capture is posted exactly when the intent is in a captured state, with its
    fee; a reversal exactly when it is [REVERSED]; so never twice and never
    both; and a refund is settled only on a captured intent. *)
Theorem intent_money t path s :
  INTENT_TABLE = Ok t -> run_of t "CREATED" path s ->
  count_effect "je:payment_captured" path = indicator captured_states s /\
  count_effect "je:fee_collected" path = count_effect "je:payment_captured" path /\
  count_effect "je:payment_reversed" path = indicator ["REVERSED"] s /\
  count_effect "je:payment_captured" path + count_effect "je:payment_reversed" path <= 1 /\
  (0 < count_effect "je:refund_settled" path -> count_effect "je:payment_captured" path = 1).
Proof.
  intros Ht Hr.
  pose proof (run_exact _ _ _ _ _ Ht (indicator captured_states) (emits "je:payment_captured")
    _ _ _ ltac:(check_rows) Hr) as Hc.
  pose proof (run_exact _ _ _ _ _ Ht (indicator captured_states) (emits "je:fee_collected")
    _ _ _ ltac:(check_rows) Hr) as Hf.
  pose proof (run_exact _ _ _ _ _ Ht (indicator ["REVERSED"]) (emits "je:payment_reversed")
    _ _ _ ltac:(check_rows) Hr) as Hv.
  pose proof (run_marked _ _ _ _ _ Ht "je:refund_settled" captured_states _ _ _
    ltac:(check_rows) ltac:(check_rows) Hr) as Hs.
  change (sumZ (emits ?e) path) with (count_effect e path) in *.
  change (indicator captured_states "CREATED") with 0 in *.
  change (indicator ["REVERSED"] "CREATED") with 0 in *.
  rewrite !Z.add_0_l in *. rewrite Hc, Hf, Hv. split_and!; [done..| |].
  - unfold indicator. destruct (decide (s ∈ ["REVERSED"%string])) as [->%list_elem_of_singleton|];
      [by vm_compute|case_decide; lia].
  - intros Hpos. unfold indicator. by rewrite decide_True by auto.
Qed.

(** An attempt charges at most once, and what is reversed was charged: along
    every run from [STARTED] captures minus reversals is 1 if the attempt is
    [CHARGED] and 0 otherwise, and there is at most one capture. *)
Theorem attempt_money t path s :
  ATTEMPT_TABLE = Ok t -> run_of t "STARTED" path s ->
  count_effect "je:payment_captured" path - count_effect "je:payment_reversed" path =
    indicator ["CHARGED"] s /\
  0 <= count_effect "je:payment_reversed" path /\
  count_effect "je:payment_reversed" path <= count_effect "je:payment_captured" path /\
  count_effect "je:payment_captured" path <= 1.
Proof.
  intros Ht Hr.
  pose proof (run_exact _ _ _ _ _ Ht (indicator ["CHARGED"])
    (fun r => emits "je:payment_captured" r - emits "je:payment_reversed" r)
    _ _ _ ltac:(check_rows) Hr) as Hn.
  pose proof (run_potential _ _ _ _ _ Ht (indicator ["CHARGED"; "REVERSED"])
    (emits "je:payment_captured") _ _ _ ltac:(check_rows) Hr) as Hc.
  rewrite sumZ_sub in Hn. change (sumZ (emits ?e) path) with (count_effect e path) in *.
  change (indicator ["CHARGED"] "STARTED") with 0 in *.
  change (indicator ["CHARGED"; "REVERSED"] "STARTED") with 0 in *.
  assert (0 <= indicator ["CHARGED"] s) by (unfold indicator; case_decide; lia).
  assert (indicator ["CHARGED"; "REVERSED"] s <= 1) by (unfold indicator; case_decide; lia).
  assert (0 <= count_effect "je:payment_reversed" path).
  { apply sumZ_nonneg. intros. case_decide; lia. }
  split_and!; lia.
Qed.

(** A refund settles at most once: along every run from [REFUND_INITIATED]
    the settlement entry is posted exactly when the refund has succeeded. *)
Theorem refund_money t path s :
  REFUND_TABLE = Ok t -> run_of t "REFUND_INITIATED" path s ->
  count_effect "je:refund_settled" path = indicator ["REFUND_SUCCEEDED"] s.
Proof.
  intros Ht Hr.
  pose proof (run_exact _ _ _ _ _ Ht (indicator ["REFUND_SUCCEEDED"]) (emits "je:refund_settled")
    _ _ _ ltac:(check_rows) Hr) as Hc.
  exact Hc.
Qed.

(** The payment machines are sound: the three tables are accepted, every
    state is reachable from the initial one, from every state some run ends in a
    terminal state, and terminal states admit no further step. *)
Theorem payment_machines_sound :
  sound_machine "PaymentIntent" INTENT_STATES INTENT_TERMINAL INTENT_RULES "CREATED" [] /\
  sound_machine "PaymentAttempt" ATTEMPT_STATES ATTEMPT_TERMINAL ATTEMPT_RULES "STARTED" [] /\
  sound_machine "Refund" REFUND_STATES REFUND_TERMINAL REFUND_RULES "REFUND_INITIATED" [].
Proof. split_and!; apply check_machine_sound; vm_compute; reflexivity. Qed.

(** A charged payment leaves its state only by refund, a charged attempt only
    by reversal (errata K-3 of the module). *)
Theorem charged_states_are_guarded t t' tr g r :
  INTENT_TABLE = Ok t -> ATTEMPT_TABLE = Ok t' ->
  (resolve t "SUCCEEDED" tr g = Ok r -> tr = "refund_initiated"%string) /\
  (resolve t' "CHARGED" tr g = Ok r -> tr = "reversal_submitted"%string).
Proof.
  intros Ht Ht'. split; intros Hr.
  - assert (Hall : Forall (fun r => from_state r = "SUCCEEDED"%string ->
      trigger r = "refund_initiated"%string) INTENT_RULES) by check_rows.
    destruct (resolve_sound _ _ _ _ _ Ht _ _ _ _ Hr) as (Hin & Hf & <- & _).
    rewrite Forall_forall in Hall. by apply Hall.
  - assert (Hall : Forall (fun r => from_state r = "CHARGED"%string ->
      trigger r = "reversal_submitted"%string) ATTEMPT_RULES) by check_rows.
    destruct (resolve_sound _ _ _ _ _ Ht' _ _ _ _ Hr) as (Hin & Hf & <- & _).
    rewrite Forall_forall in Hall. by apply Hall.
Qed.

(** * Witnesses *)

Lemma table_ok {E A} (r : res E A) : is_ok r = true -> exists t, r = Ok t.
Proof. destruct r; [eauto|done]. Qed.

(** Drive a machine through triggers. *)
Fixpoint drive (t : TransitionTable) (s : string) (inputs : list (string * option string)) :
    res TransitionDeniedError (list TransitionRule * string) :=
  match inputs with
  | [] => Ok ([], s)
  | (tr, g) :: rest =>
      let* r := resolve t s tr g in
      let* (rs, s') := drive t (to_state r) rest in
      Ok (r :: rs, s')
  end.

Lemma drive_run t inputs : forall s rs s', drive t s inputs = Ok (rs, s') -> run_of t s rs s'.
Proof.
  induction inputs as [|[tr g] rest IH]; intros s rs s' Hd; simpl in Hd.
  - simplify_eq. constructor.
  - inv_res. econstructor; [done|]. by apply IH.
Qed.

(** Where the inputs lead. *)
Definition drives_to (table : res TableError TransitionTable) (init : string)
    (inputs : list (string * option string)) (s : string) : bool :=
  match table with
  | Ok t => match drive t init inputs with Ok (_, s') => String.eqb s' s | Err _ => false end
  | Err _ => false
  end.

Lemma driven table init inputs s :
  drives_to table init inputs s = true ->
  exists t path, table = Ok t /\ run_of t init path s.
Proof.
  unfold drives_to. destruct table as [t|]; [|done].
  destruct (drive t init inputs) as [[path s']|] eqn:Hd; [|done].
  intros ->%String.eqb_eq. exists t, path. split; [done|by eapply drive_run].
Qed.

(** A payment captured, then fully refunded. *)
Lemma intent_money_witness : exists t path,
  run_of t "CREATED" path "REFUNDED" /\ count_effect "je:payment_captured" path = 1.
Proof.
  destruct (driven INTENT_TABLE "CREATED"
    [("confirm", None); ("preflight_passed", None); ("attempt_charged", None);
     ("refund_initiated", None); ("refund_full_succeeded", None)]%string "REFUNDED")
    as (t & path & Ht & Hr); [vm_compute; reflexivity|].
  exists t, path. split; [exact Hr|].
  destruct (intent_money t path "REFUNDED" Ht Hr) as [Hc _]. rewrite Hc. reflexivity.
Defined.

(** An attempt charged, then reversed. *)
Lemma attempt_money_witness : exists t path,
  run_of t "STARTED" path "REVERSED" /\
  count_effect "je:payment_captured" path = count_effect "je:payment_reversed" path.
Proof.
  destruct (driven ATTEMPT_TABLE "STARTED"
    [("submitted", None); ("connector_success_direct", None);
     ("reversal_submitted", None)]%string "REVERSED")
    as (t & path & Ht & Hr); [vm_compute; reflexivity|].
  exists t, path. split; [exact Hr|].
  destruct (attempt_money t path "REVERSED" Ht Hr) as [Hc _].
  change (indicator ["CHARGED"] "REVERSED") with 0 in Hc. lia.
Defined.

Lemma refund_money_witness : exists t path,
  run_of t "REFUND_INITIATED" path "REFUND_SUCCEEDED" /\ count_effect "je:refund_settled" path = 1.
Proof.
  destruct (driven REFUND_TABLE "REFUND_INITIATED"
    [("connector_dispatched", None); ("connector_timeout", None);
     ("connector_success", None)]%string "REFUND_SUCCEEDED")
    as (t & path & Ht & Hr); [vm_compute; reflexivity|].
  exists t, path. split; [exact Hr|]. exact (refund_money t path "REFUND_SUCCEEDED" Ht Hr).
Defined.

Lemma charged_states_are_guarded_witness : exists t t',
  INTENT_TABLE = Ok t /\ ATTEMPT_TABLE = Ok t' /\
  forall tr g r, resolve t "SUCCEEDED" tr g = Ok r -> tr = "refund_initiated"%string.
Proof.
  destruct (table_ok INTENT_TABLE) as [t Ht]; [vm_compute; reflexivity|].
  destruct (table_ok ATTEMPT_TABLE) as [t' Ht']; [vm_compute; reflexivity|].
  exists t, t'. split; [exact Ht|]. split; [exact Ht'|]. intros tr g r Hr.
  exact (proj1 (charged_states_are_guarded t t' tr g r Ht Ht') Hr).
Defined.

Lemma resolve_is_the_table_witness : exists t d,
  INTENT_TABLE = Ok t /\
  resolve t "REFUNDED" "capture_requested" None =
  Err (mk_TransitionDeniedError "PaymentIntent" "REFUNDED" "capture_requested" d).
Proof.
  destruct (table_ok INTENT_TABLE) as [t Ht]; [vm_compute; reflexivity|].
  assert (Hd : (let* t := INTENT_TABLE in Ok (is_ok (resolve t "REFUNDED" "capture_requested" None)))
    = Ok false) by (vm_compute; reflexivity).
  rewrite Ht in Hd. cbn [rbind] in Hd. injection Hd as Hd.
  destruct (proj2 (resolve_is_the_table "PaymentIntent" INTENT_STATES INTENT_TERMINAL INTENT_RULES t
    "REFUNDED" "capture_requested" None Ht)) as [[r Hr]|[d Hr]].
  - rewrite Hr in Hd. discriminate Hd.
  - exists t, d. split; [exact Ht|exact Hr].
Defined.
