(* ===== verification/KernelStates.v ===== *)
(** The other transition tables of the kernel, row by row: merchant and
    participant onboarding (kernel/onboarding/kyb_states.py,
    kernel/participants/states.py), KYC (kernel/kyc/kyc_states.py), offers
    (kernel/offers/states.py), disbursements (kernel/disbursement/states.py) and
    subscriptions (kernel/subscriptions/states.py), and the soundness of each
    machine. *)
From S2P Require Import Prelude Fsm PaymentStates.
Open Scope Z_scope.

(** * kernel/onboarding/kyb_states.py *)

Definition REGISTRATION_TYPES : list string :=
  ["RJSC_PRIVATE_LIMITED"; "RJSC_PUBLIC_LIMITED"; "SOLE_PROPRIETORSHIP"; "PARTNERSHIP"; "NGO";
   "FOREIGN_COMPANY"].

Definition DOCUMENT_TYPES : list string :=
  ["RJSC_CERTIFICATE"; "TRADE_LICENSE"; "TIN_CERTIFICATE"; "VAT_BIN_CERTIFICATE";
   "MEMORANDUM_ARTICLES"; "PARTNERSHIP_DEED"; "BANK_STATEMENT"; "UBO_NID_FRONT"; "UBO_NID_BACK";
   "UBO_SELFIE"; "WEBSITE_POLICY_SCREENSHOT"; "FOREIGN_INCORPORATION"; "BOARD_RESOLUTION";
   "AUTHORIZATION_LETTER"; "SUPPLEMENT_OTHER"].

Definition REJECTION_REASON_CODES : list string :=
  ["PROHIBITED_MCC"; "SANCTIONS_HIT"; "UBO_NID_UNVERIFIABLE"; "DOCUMENT_FRAUD_SUSPECTED";
   "POLICY_VIOLATION"; "INCOMPLETE_DOCUMENTS"; "OTHER"; "APPLICATION_TIMEOUT";
   "DOCUMENTS_NOT_PROVIDED"; "AGREEMENT_NOT_SIGNED"; "EDD_REJECTED"; "TWO_EYES_REJECTED"].

Definition MERCHANT_KYB_STATES : list string :=
  ["APPLICATION_SUBMITTED"; "DOCUMENTS_PENDING"; "KYB_IN_PROGRESS"; "ENHANCED_DUE_DILIGENCE";
   "PENDING_HUMAN_REVIEW"; "SANCTIONS_REVIEW"; "RISK_ASSESSED"; "AGREEMENT_PENDING"; "ACTIVE";
   "SUSPENDED"; "KYB_REFRESH_PENDING"; "REJECTED"; "TERMINATED"].

Definition MERCHANT_KYB_TERMINAL : list string :=
  ["REJECTED"; "TERMINATED"].

Definition MERCHANT_KYB_RULES : list TransitionRule :=
  [mk_TransitionRule "APPLICATION_SUBMITTED" "mcc_prohibited" "REJECTED"
     None ["aud:kyb_rejected"; "event:merchant.kyb_rejected"];
   mk_TransitionRule "APPLICATION_SUBMITTED" "application_accepted" "DOCUMENTS_PENDING"
     None ["aud"; "event:merchant.kyb_documents_pending"];
   mk_TransitionRule "APPLICATION_SUBMITTED" "auto_expire" "REJECTED" None [];
   mk_TransitionRule "DOCUMENTS_PENDING" "documents_complete" "KYB_IN_PROGRESS"
     None ["aud"; "event:merchant.kyb_in_progress"];
   mk_TransitionRule "DOCUMENTS_PENDING" "documents_incomplete" "DOCUMENTS_PENDING" None [];
   mk_TransitionRule "DOCUMENTS_PENDING" "auto_expire" "REJECTED" None [];
   mk_TransitionRule "KYB_IN_PROGRESS" "ubo_nid_mismatch" "DOCUMENTS_PENDING"
     None ["aud"; "event:merchant.ubo_nid_mismatch"];
   mk_TransitionRule "KYB_IN_PROGRESS" "porichoy_unavailable" "PENDING_HUMAN_REVIEW" None [];
   mk_TransitionRule "KYB_IN_PROGRESS" "high_risk_mcc" "ENHANCED_DUE_DILIGENCE"
     None ["aud"; "event:merchant.edd_required"; "approval:CAMLCO"];
   mk_TransitionRule "KYB_IN_PROGRESS" "checks_pass" "SANCTIONS_REVIEW"
     None ["aud"; "event:merchant.sanctions_review_started"];
   mk_TransitionRule "ENHANCED_DUE_DILIGENCE" "edd_complete" "SANCTIONS_REVIEW"
     None ["aud"; "event:merchant.sanctions_review_started"];
   mk_TransitionRule "ENHANCED_DUE_DILIGENCE" "edd_rejected" "REJECTED"
     None ["aud"; "event:merchant.kyb_rejected"];
   mk_TransitionRule "SANCTIONS_REVIEW" "sanctions_hit" "REJECTED"
     None ["aud"; "event:merchant.kyb_rejected"];
   mk_TransitionRule "SANCTIONS_REVIEW" "sanctions_clear" "RISK_ASSESSED"
     None ["aud"; "event:kyb_record.completed"];
   mk_TransitionRule "RISK_ASSESSED" "two_eyes_approved" "AGREEMENT_PENDING"
     None ["aud"; "event:merchant.agreement_pending"];
   mk_TransitionRule "RISK_ASSESSED" "two_eyes_rejected" "REJECTED"
     None ["aud"; "event:merchant.kyb_rejected"];
   mk_TransitionRule "AGREEMENT_PENDING" "agreement_signed" "ACTIVE"
     None ["aud"; "event:merchant.activated"; "ledger:create merchant_settlement account"];
   mk_TransitionRule "AGREEMENT_PENDING" "auto_expire" "REJECTED" None [];
   mk_TransitionRule "PENDING_HUMAN_REVIEW" "operator_manual_verify" "KYB_IN_PROGRESS" None [];
   mk_TransitionRule "PENDING_HUMAN_REVIEW" "operator_reject" "REJECTED" None [];
   mk_TransitionRule "ACTIVE" "aml_triggered" "SUSPENDED"
     None ["aud"; "event:merchant.suspended"; "set:payout_blocked"];
   mk_TransitionRule "ACTIVE" "license_revoked" "TERMINATED"
     None ["aud"; "event:merchant.terminated"; "set:payout_blocked"];
   mk_TransitionRule "ACTIVE" "kyb_refresh_due" "KYB_REFRESH_PENDING"
     None ["aud"; "event:merchant.kyb_refresh_due"];
   mk_TransitionRule "KYB_REFRESH_PENDING" "refresh_complete" "ACTIVE"
     None ["aud"; "event:merchant.kyb_refreshed"];
   mk_TransitionRule "KYB_REFRESH_PENDING" "refresh_failed" "SUSPENDED"
     None ["aud"; "event:merchant.suspended"];
   mk_TransitionRule "SUSPENDED" "camlco_cleared" "ACTIVE"
     None ["aud"; "event:merchant.unsuspended"; "clear:payout_blocked"];
   mk_TransitionRule "SUSPENDED" "camlco_terminated" "TERMINATED"
     None ["aud"; "event:merchant.terminated"]].

Definition MERCHANT_KYB_TABLE : res TableError TransitionTable :=
  transition_table "MerchantKYB" MERCHANT_KYB_STATES MERCHANT_KYB_TERMINAL MERCHANT_KYB_RULES.

Definition PARTICIPANT_STATES : list string :=
  ["APPLICATION_SUBMITTED"; "LICENSE_VERIFICATION_PENDING"; "SETTLEMENT_AGREEMENT_PENDING";
   "NDC_ASSIGNMENT_PENDING"; "ACTIVE"; "SUSPENDED"; "REJECTED"; "TERMINATED"].

Definition PARTICIPANT_TERMINAL : list string :=
  ["REJECTED"; "TERMINATED"].

Definition PARTICIPANT_RULES : list TransitionRule :=
  [mk_TransitionRule "APPLICATION_SUBMITTED" "application_accepted" "LICENSE_VERIFICATION_PENDING"
     None ["aud"; "event:participant.application_submitted"];
   mk_TransitionRule "LICENSE_VERIFICATION_PENDING" "license_verified" "SETTLEMENT_AGREEMENT_PENDING"
     None ["aud"; "event:participant.license_verified"];
   mk_TransitionRule "LICENSE_VERIFICATION_PENDING" "license_invalid" "REJECTED"
     None ["aud"; "event:participant.kyb_rejected"];
   mk_TransitionRule "SETTLEMENT_AGREEMENT_PENDING" "agreement_signed" "NDC_ASSIGNMENT_PENDING"
     None ["aud"];
   mk_TransitionRule "NDC_ASSIGNMENT_PENDING" "ndc_assigned" "ACTIVE"
     None [
       "aud"; "event:participant.activated"; "ledger:create position + net_debit_cap accounts"];
   mk_TransitionRule "NDC_ASSIGNMENT_PENDING" "ndc_rejected" "REJECTED" None ["aud"];
   mk_TransitionRule "ACTIVE" "ndc_revised" "ACTIVE"
     None ["aud"; "event:participant.net_debit_cap_revised"];
   mk_TransitionRule "ACTIVE" "suspended" "SUSPENDED"
     None ["aud"; "event:participant.suspended"];
   mk_TransitionRule "SUSPENDED" "reinstated" "ACTIVE" None ["aud"];
   mk_TransitionRule "ACTIVE" "terminated" "TERMINATED"
     None ["aud"; "event:participant.terminated"]].

Definition PARTICIPANT_TABLE : res TableError TransitionTable :=
  transition_table "ParticipantOnboarding" PARTICIPANT_STATES PARTICIPANT_TERMINAL PARTICIPANT_RULES.

Definition DOCUMENT_REVIEW_STATES : list string :=
  ["PENDING"; "OCR_COMPLETE"; "ACCEPTED"; "REJECTED"; "SUPERSEDED"].

Definition DOCUMENT_REVIEW_TERMINAL : list string :=
  ["SUPERSEDED"].

Definition DOCUMENT_REVIEW_RULES : list TransitionRule :=
  [mk_TransitionRule "PENDING" "ocr_complete" "OCR_COMPLETE" None [];
   mk_TransitionRule "OCR_COMPLETE" "operator_accepted" "ACCEPTED" None [];
   mk_TransitionRule "OCR_COMPLETE" "operator_rejected" "REJECTED" None [];
   mk_TransitionRule "PENDING" "operator_accepted" "ACCEPTED" None [];
   mk_TransitionRule "ACCEPTED" "superseded" "SUPERSEDED" None [];
   mk_TransitionRule "REJECTED" "re_uploaded" "PENDING" None []].

Definition DOCUMENT_REVIEW_TABLE : res TableError TransitionTable :=
  transition_table "KybDocumentReview" DOCUMENT_REVIEW_STATES DOCUMENT_REVIEW_TERMINAL DOCUMENT_REVIEW_RULES.

(** * kernel/participants/states.py *)

Definition DOCUMENT_CLASSES : list string :=
  ["BB_LICENSE"; "BOARD_RESOLUTION"; "SETTLEMENT_ACCOUNT_DETAILS"; "TECHNICAL_CONTACT";
   "COMPLIANCE_CONTACT"].

Definition DOCUMENT_REVIEW_STATUSES : list string :=
  ["PENDING"; "VERIFIED"; "REJECTED"; "SUPERSEDED"].

Definition CONFORMANCE_DIRECTIONS : list string :=
  ["OUTBOUND"; "INBOUND"].

Definition LEGACY_STATES : list string :=
  ["LICENSE_VERIFICATION_PENDING"; "SETTLEMENT_AGREEMENT_PENDING"].

Definition PARTICIPANT_V2_STATES : list string :=
  ["APPLICATION_SUBMITTED"; "DOCUMENT_VERIFICATION_PENDING"; "LICENSE_VERIFICATION_PENDING";
   "SETTLEMENT_AGREEMENT_PENDING"; "MOU_SIGNED"; "CONFORMANCE_TESTING"; "CONFORMANCE_PASSED";
   "NDC_ASSIGNMENT_PENDING"; "ACTIVE"; "SUSPENDED"; "REJECTED"; "TERMINATED"].

Definition _NON_TERMINAL : list string :=
  filter (fun s => s ∉ ["REJECTED"; "TERMINATED"]) PARTICIPANT_V2_STATES.


Definition _REJECTED_ROWS : list TransitionRule :=
  (fun state => mk_TransitionRule state "rejected" "REJECTED" None
     ["aud"; "event:participant.kyb_rejected"]) <$> _NON_TERMINAL.


Definition PARTICIPANT_V2_TERMINAL : list string :=
  ["REJECTED"; "TERMINATED"].

Definition PARTICIPANT_V2_RULES : list TransitionRule :=
  [mk_TransitionRule "APPLICATION_SUBMITTED" "application_accepted" "DOCUMENT_VERIFICATION_PENDING"
     None ["aud:PARTICIPANT_DOCS_REQUESTED"; "event:participant.application_submitted"];
   mk_TransitionRule "DOCUMENT_VERIFICATION_PENDING" "document_verified" "DOCUMENT_VERIFICATION_PENDING"
     None ["aud:PARTICIPANT_DOCUMENT_VERIFIED"; "event:participant.document_verified"];
   mk_TransitionRule "DOCUMENT_VERIFICATION_PENDING" "document_rejected" "DOCUMENT_VERIFICATION_PENDING"
     None ["aud"];
   mk_TransitionRule "DOCUMENT_VERIFICATION_PENDING" "mou_recorded" "MOU_SIGNED"
     None ["aud:PARTICIPANT_MOU_SIGNED"; "event:participant.mou_signed"];
   mk_TransitionRule "DOCUMENT_VERIFICATION_PENDING" "license_invalid" "REJECTED"
     None ["aud"; "event:participant.kyb_rejected"];
   mk_TransitionRule "MOU_SIGNED" "conformance_started" "CONFORMANCE_TESTING"
     None ["aud:PARTICIPANT_CONFORMANCE_STARTED"; "event:participant.conformance_started"];
   mk_TransitionRule "CONFORMANCE_TESTING" "conformance_passed" "CONFORMANCE_PASSED"
     None ["aud"; "event:participant.conformance_passed"];
   mk_TransitionRule "CONFORMANCE_TESTING" "conformance_failed" "MOU_SIGNED"
     None ["aud"; "event:participant.conformance_failed"];
   mk_TransitionRule "CONFORMANCE_TESTING" "conformance_exhausted" "REJECTED"
     None ["aud"; "event:participant.kyb_rejected"];
   mk_TransitionRule "CONFORMANCE_PASSED" "activation_requested" "NDC_ASSIGNMENT_PENDING"
     None ["aud"; "approval_request:participant_activation"];
   mk_TransitionRule "NDC_ASSIGNMENT_PENDING" "ndc_assigned" "ACTIVE"
     None [
       "aud"; "event:participant.activated";
       "ledger:create participant_position + net_debit_cap accounts"];
   mk_TransitionRule "NDC_ASSIGNMENT_PENDING" "ndc_rejected" "REJECTED" None ["aud"];
   mk_TransitionRule "ACTIVE" "ndc_revised" "ACTIVE"
     None ["aud"; "event:participant.net_debit_cap_revised"];
   mk_TransitionRule "ACTIVE" "suspended" "SUSPENDED"
     None ["aud"; "event:participant.suspended"];
   mk_TransitionRule "SUSPENDED" "reinstated" "ACTIVE" None ["aud"];
   mk_TransitionRule "ACTIVE" "terminated" "TERMINATED"
     None ["aud"; "event:participant.terminated"];
   mk_TransitionRule "LICENSE_VERIFICATION_PENDING" "license_verified" "SETTLEMENT_AGREEMENT_PENDING"
     None ["aud"; "event:participant.license_verified"];
   mk_TransitionRule "LICENSE_VERIFICATION_PENDING" "license_invalid" "REJECTED"
     None ["aud"; "event:participant.kyb_rejected"];
   mk_TransitionRule "SETTLEMENT_AGREEMENT_PENDING" "agreement_signed" "NDC_ASSIGNMENT_PENDING"
     None ["aud"]] ++ _REJECTED_ROWS.

Definition PARTICIPANT_V2_TABLE : res TableError TransitionTable :=
  transition_table "ParticipantOnboardingV2" PARTICIPANT_V2_STATES PARTICIPANT_V2_TERMINAL PARTICIPANT_V2_RULES.

Definition CONFORMANCE_RUN_STATES : list string :=
  ["QUEUED"; "RUNNING"; "PASSED"; "FAILED"; "ERRORED"].

Definition CONFORMANCE_RUN_TERMINAL : list string :=
  ["PASSED"; "FAILED"; "ERRORED"].

Definition CONFORMANCE_RUN_RULES : list TransitionRule :=
  [mk_TransitionRule "QUEUED" "runner_pickup" "RUNNING" None ["aud:CONFORMANCE_RUN_STARTED"];
   mk_TransitionRule "QUEUED" "evidence_hash_mismatch" "ERRORED"
     None ["aud"; "event:conformance_run.completed"];
   mk_TransitionRule "RUNNING" "checks_passed" "PASSED"
     None ["aud"; "event:conformance_run.completed"];
   mk_TransitionRule "RUNNING" "check_failed" "FAILED"
     None ["aud"; "event:conformance_run.completed"];
   mk_TransitionRule "RUNNING" "errored" "ERRORED"
     None ["aud"; "event:conformance_run.completed"]].

Definition CONFORMANCE_RUN_TABLE : res TableError TransitionTable :=
  transition_table "ConformanceRun" CONFORMANCE_RUN_STATES CONFORMANCE_RUN_TERMINAL CONFORMANCE_RUN_RULES.

(** * kernel/kyc/kyc_states.py *)

Definition KYC_TIERS : list string :=
  ["SIMPLIFIED"; "REGULAR"].

Definition KYC_REJECTION_REASONS : list string :=
  ["NID_MISMATCH"; "LIVENESS_FAILED"; "DOCUMENT_FRAUD_SUSPECTED"; "MINOR_NO_GUARDIAN";
   "SANCTIONS_HIT"; "BIOMETRIC_MAX_RETRIES"; "SESSION_TIMEOUT"; "BIOMETRIC_TIMEOUT"].

Definition KYC_REVIEW_REASONS : list string :=
  ["PORICHOY_UNAVAILABLE"; "MINOR_ACCOUNT_POLICY"; "SANCTIONS_ADJACENT";
   "DOCUMENT_QUALITY_ISSUE"; "MANUAL_ESCALATION"; "OCR_UNAVAILABLE"].

Definition KYC_STATES : list string :=
  ["REFRESH_PENDING"; "SUBMITTED"; "NID_OCR_RECEIVED"; "BIOMETRIC_PENDING";
   "BIOMETRIC_RETRY_PENDING"; "BIOMETRIC_PASSED"; "PENDING_HUMAN_REVIEW"; "ACTIVE"; "REJECTED";
   "REFRESH_OVERDUE"; "EXPIRED_HARD"; "ARCHIVED"].

Definition KYC_TERMINAL : list string :=
  ["REJECTED"; "ARCHIVED"].

Definition KYC_RULES : list TransitionRule :=
  [mk_TransitionRule "SUBMITTED" "nid_ocr_received" "NID_OCR_RECEIVED"
     (Some "adult"%string) ["aud"; "event:kyc_record.nid_ocr_received"];
   mk_TransitionRule "SUBMITTED" "nid_ocr_received" "PENDING_HUMAN_REVIEW"
     (Some "minor"%string) [
       "aud"; "approval:MINOR_ACCOUNT_POLICY"; "event:kyc_record.pending_human_review"];
   mk_TransitionRule "SUBMITTED" "ocr_unavailable" "PENDING_HUMAN_REVIEW"
     None ["approval:OCR_UNAVAILABLE"; "event:kyc_record.pending_human_review"];
   mk_TransitionRule "SUBMITTED" "session_timeout" "REJECTED"
     None ["event:kyc_record.rejected"];
   mk_TransitionRule "NID_OCR_RECEIVED" "session_timeout" "REJECTED"
     None ["event:kyc_record.rejected"];
   mk_TransitionRule "NID_OCR_RECEIVED" "biometric_submitted" "BIOMETRIC_PENDING" None [];
   mk_TransitionRule "BIOMETRIC_RETRY_PENDING" "biometric_submitted" "BIOMETRIC_PENDING"
     None [];
   mk_TransitionRule "BIOMETRIC_PENDING" "porichoy_matched" "BIOMETRIC_PASSED"
     None ["aud"; "event:kyc_record.biometric_passed"];
   mk_TransitionRule "BIOMETRIC_PENDING" "porichoy_not_matched" "BIOMETRIC_RETRY_PENDING"
     (Some "retry"%string) [];
   mk_TransitionRule "BIOMETRIC_PENDING" "porichoy_not_matched" "REJECTED"
     (Some "exhausted"%string) ["event:kyc_record.rejected"];
   mk_TransitionRule "BIOMETRIC_PENDING" "porichoy_unavailable" "PENDING_HUMAN_REVIEW"
     None ["approval:PORICHOY_UNAVAILABLE"; "event:kyc_record.pending_human_review"];
   mk_TransitionRule "BIOMETRIC_RETRY_PENDING" "biometric_timeout" "REJECTED"
     None ["event:kyc_record.rejected"];
   mk_TransitionRule "BIOMETRIC_PASSED" "tier_assigned" "ACTIVE"
     (Some "simplified"%string) [
       "event:kyc_record.tier_assigned"; "event:kyc_record.activated"];
   mk_TransitionRule "BIOMETRIC_PASSED" "tier_assigned" "ACTIVE"
     (Some "regular"%string) ["event:kyc_record.tier_assigned"; "event:kyc_record.activated"];
   mk_TransitionRule "BIOMETRIC_PASSED" "sanctions_hit" "PENDING_HUMAN_REVIEW"
     None ["approval:SANCTIONS_ADJACENT"; "event:kyc_record.pending_human_review"];
   mk_TransitionRule "PENDING_HUMAN_REVIEW" "manual_review_approve_simplified" "ACTIVE"
     None ["event:kyc_record.tier_assigned"; "event:kyc_record.activated"];
   mk_TransitionRule "PENDING_HUMAN_REVIEW" "manual_review_approve_regular" "ACTIVE"
     None ["event:kyc_record.tier_assigned"; "event:kyc_record.activated"];
   mk_TransitionRule "PENDING_HUMAN_REVIEW" "manual_review_reject" "REJECTED"
     None ["event:kyc_record.rejected"];
   mk_TransitionRule "ACTIVE" "tier_upgrade_requested" "ACTIVE" None [];
   mk_TransitionRule "ACTIVE" "refresh_triggered" "ACTIVE"
     None ["create:successor REFRESH_PENDING"; "event:kyc_record.refresh_due"];
   mk_TransitionRule "ACTIVE" "refresh_overdue" "REFRESH_OVERDUE"
     None ["limits:drop to SIMPLIFIED"; "event:kyc_record.refresh_overdue"];
   mk_TransitionRule "REFRESH_OVERDUE" "refresh_hard_expired" "EXPIRED_HARD"
     None ["wallet:suspended"; "event:kyc_record.expired_hard"];
   mk_TransitionRule "ACTIVE" "new_kyc_cycle_completed" "ARCHIVED"
     None ["event:kyc_record.archived"];
   mk_TransitionRule "REFRESH_OVERDUE" "new_kyc_cycle_completed" "ARCHIVED"
     None ["event:kyc_record.archived"];
   mk_TransitionRule "EXPIRED_HARD" "new_kyc_cycle_completed" "ARCHIVED"
     None ["event:kyc_record.archived"];
   mk_TransitionRule "ACTIVE" "sanctions_retrospective_hit" "PENDING_HUMAN_REVIEW"
     None [
       "wallet:suspended"; "approval:SANCTIONS_ADJACENT";
       "event:kyc_record.pending_human_review"];
   mk_TransitionRule "REFRESH_PENDING" "refresh_session_started" "SUBMITTED" None []].

Definition KYC_TABLE : res TableError TransitionTable :=
  transition_table "KycRecord" KYC_STATES KYC_TERMINAL KYC_RULES.

Definition KYC_MANUAL_REVIEW_STATES : list string :=
  ["REVIEW_OPEN"; "REVIEW_IN_PROGRESS"; "REVIEW_ESCALATED"; "REVIEW_CLOSED"].

Definition KYC_MANUAL_REVIEW_TERMINAL : list string :=
  ["REVIEW_CLOSED"].

Definition KYC_MANUAL_REVIEW_RULES : list TransitionRule :=
  [mk_TransitionRule "REVIEW_OPEN" "assigned" "REVIEW_IN_PROGRESS" None [];
   mk_TransitionRule "REVIEW_IN_PROGRESS" "escalated" "REVIEW_ESCALATED" None [];
   mk_TransitionRule "REVIEW_IN_PROGRESS" "decision_made" "REVIEW_CLOSED" None [];
   mk_TransitionRule "REVIEW_ESCALATED" "decision_made" "REVIEW_CLOSED" None [];
   mk_TransitionRule "REVIEW_OPEN" "48h_alert" "REVIEW_OPEN" None []].

Definition KYC_MANUAL_REVIEW_TABLE : res TableError TransitionTable :=
  transition_table "KycManualReview" KYC_MANUAL_REVIEW_STATES KYC_MANUAL_REVIEW_TERMINAL KYC_MANUAL_REVIEW_RULES.

(** * kernel/offers/states.py *)

Definition OFFER_STATES : list string :=
  ["DRAFT"; "ACTIVE"; "PAUSED"; "EXHAUSTED"; "EXPIRED"; "ARCHIVED"].

Definition OFFER_TERMINAL : list string :=
  ["EXPIRED"; "ARCHIVED"].

Definition OFFER_RULES : list TransitionRule :=
  [mk_TransitionRule "DRAFT" "activate" "ACTIVE" None ["aud"; "event:offer.activated"];
   mk_TransitionRule "DRAFT" "archive" "ARCHIVED" None ["aud"; "event:offer.archived"];
   mk_TransitionRule "ACTIVE" "pause" "PAUSED" None ["aud"; "event:offer.paused"];
   mk_TransitionRule "PAUSED" "resume" "ACTIVE" None ["aud"; "event:offer.resumed"];
   mk_TransitionRule "ACTIVE" "cap_total_reached" "EXHAUSTED"
     None ["aud"; "event:offer.exhausted"];
   mk_TransitionRule "EXHAUSTED" "cap_raised" "ACTIVE"
     None ["aud"; "version_row"; "event:offer.resumed"];
   mk_TransitionRule "ACTIVE" "ttl_expired" "EXPIRED" None ["aud"; "event:offer.expired"];
   mk_TransitionRule "PAUSED" "ttl_expired" "EXPIRED" None ["aud"; "event:offer.expired"];
   mk_TransitionRule "ACTIVE" "archive" "ARCHIVED" None ["aud"; "event:offer.archived"];
   mk_TransitionRule "PAUSED" "archive" "ARCHIVED" None ["aud"; "event:offer.archived"];
   mk_TransitionRule "EXHAUSTED" "archive" "ARCHIVED" None ["aud"; "event:offer.archived"];
   mk_TransitionRule "DRAFT" "merchant_suspended" "PAUSED" None ["aud"; "event:offer.paused"];
   mk_TransitionRule "ACTIVE" "merchant_suspended" "PAUSED" None ["aud"; "event:offer.paused"];
   mk_TransitionRule "PAUSED" "merchant_suspended" "PAUSED" None ["aud"; "event:offer.paused"];
   mk_TransitionRule "EXHAUSTED" "merchant_suspended" "PAUSED"
     None ["aud"; "event:offer.paused"]].

Definition OFFER_TABLE : res TableError TransitionTable :=
  transition_table "Offer" OFFER_STATES OFFER_TERMINAL OFFER_RULES.

Definition REDEMPTION_STATES : list string :=
  ["RESERVED"; "APPLIED"; "RELEASED"; "REVERSED"; "SETTLED"].

Definition REDEMPTION_TERMINAL : list string :=
  ["RELEASED"; "REVERSED"; "SETTLED"].

Definition REDEMPTION_RULES : list TransitionRule :=
  [mk_TransitionRule "RESERVED" "intent_succeeded" "APPLIED"
     None [
       "je:offer_commission_collected"; "je:offer_subsidy_granted"; "aud";
       "event:offer_redemption.applied"];
   mk_TransitionRule "RESERVED" "intent_failed" "RELEASED"
     None ["counter_recredit"; "aud"; "event:offer_redemption.released"];
   mk_TransitionRule "RESERVED" "reservation_ttl_expired" "RELEASED"
     None ["counter_recredit"; "aud"; "event:offer_redemption.released"];
   mk_TransitionRule "APPLIED" "intent_reversed_or_refunded_full" "REVERSED"
     None [
       "je:offer_commission_reversed"; "je:offer_subsidy_reversed";
       "counter_recredit_iff_cap_recredit_on_refund"; "aud"; "event:offer_redemption.reversed"];
   mk_TransitionRule "APPLIED" "settlement_confirmed" "SETTLED"
     None ["aud"; "event:offer_redemption.settled"]].

Definition REDEMPTION_TABLE : res TableError TransitionTable :=
  transition_table "OfferRedemption" REDEMPTION_STATES REDEMPTION_TERMINAL REDEMPTION_RULES.

(** * kernel/disbursement/states.py *)

Definition BATCH_STATES : list string :=
  ["DRAFT"; "VALIDATED"; "VALIDATION_FAILED"; "PENDING_APPROVAL"; "APPROVED"; "DISPATCHING";
   "COMPLETED"; "PARTIALLY_RETURNED"; "CANCELLED"].

Definition BATCH_TERMINAL_STATES : list string :=
  ["VALIDATION_FAILED"; "COMPLETED"; "PARTIALLY_RETURNED"; "CANCELLED"].

Definition BATCH_RULES : list TransitionRule :=
  [mk_TransitionRule "DRAFT" "validated" "VALIDATED"
     None ["aud"; "event:disbursement_batch.validated"];
   mk_TransitionRule "DRAFT" "validation_failed" "VALIDATION_FAILED"
     None ["aud"; "per-row validation report"];
   mk_TransitionRule "VALIDATED" "submit" "PENDING_APPROVAL"
     None [
       "ApprovalRequest:bulk_disbursement_release"; "aud"; "event:disbursement_batch.submitted"];
   mk_TransitionRule "PENDING_APPROVAL" "approved" "APPROVED"
     None ["je:disbursement_funded"; "aud"; "event:disbursement_batch.approved"];
   mk_TransitionRule "PENDING_APPROVAL" "rejected_or_expired" "CANCELLED"
     None ["aud"; "event:disbursement_batch.cancelled"];
   mk_TransitionRule "VALIDATED" "cancel" "CANCELLED"
     None ["aud"; "event:disbursement_batch.cancelled"];
   mk_TransitionRule "PENDING_APPROVAL" "cancel" "CANCELLED"
     None ["aud"; "event:disbursement_batch.cancelled"];
   mk_TransitionRule "APPROVED" "dispatch" "DISPATCHING"
     None ["aud"; "event:disbursement_batch.dispatched"];
   mk_TransitionRule "DISPATCHING" "all_items_terminal" "COMPLETED"
     (Some "all_paid"%string) ["aud"; "event:disbursement_batch.completed"];
   mk_TransitionRule "DISPATCHING" "all_items_terminal" "PARTIALLY_RETURNED"
     (Some "any_returned_or_failed"%string) [
       "hold release"; "aud"; "event:disbursement_batch.completed"]].

Definition BATCH_TABLE : res TableError TransitionTable :=
  transition_table "DisbursementBatch" BATCH_STATES BATCH_TERMINAL_STATES BATCH_RULES.

Definition ITEM_STATES : list string :=
  ["QUEUED"; "DISPATCHING"; "DISPATCHED"; "PAID"; "RETURNED"; "FAILED"].

Definition ITEM_TERMINAL_STATES : list string :=
  ["PAID"; "RETURNED"; "FAILED"].

Definition ITEM_RULES : list TransitionRule :=
  [mk_TransitionRule "QUEUED" "dispatched" "DISPATCHED" None ["aud"];
   mk_TransitionRule "QUEUED" "failed" "FAILED"
     None ["je:disbursement_failed_release"; "aud"; "event:disbursement_item.failed"];
   mk_TransitionRule "DISPATCHING" "dispatched" "DISPATCHED" None ["aud"];
   mk_TransitionRule "DISPATCHING" "settled" "PAID"
     None ["je:disbursement_item_paid"; "aud"; "event:disbursement_item.paid"];
   mk_TransitionRule "DISPATCHING" "returned" "RETURNED"
     None ["je:disbursement_item_returned"; "aud"; "event:disbursement_item.returned"];
   mk_TransitionRule "DISPATCHING" "failed" "FAILED"
     None ["je:disbursement_failed_release"; "aud"; "event:disbursement_item.failed"];
   mk_TransitionRule "DISPATCHED" "settled" "PAID"
     None ["je:disbursement_item_paid"; "aud"; "event:disbursement_item.paid"];
   mk_TransitionRule "DISPATCHED" "returned" "RETURNED"
     None ["je:disbursement_item_returned"; "aud"; "event:disbursement_item.returned"];
   mk_TransitionRule "DISPATCHED" "failed" "FAILED"
     None ["je:disbursement_failed_release"; "aud"; "event:disbursement_item.failed"]].

Definition ITEM_TABLE : res TableError TransitionTable :=
  transition_table "DisbursementItem" ITEM_STATES ITEM_TERMINAL_STATES ITEM_RULES.

(** * kernel/subscriptions/states.py *)

Definition SUBSCRIPTION_STATES : list string :=
  ["ACTIVE"; "PAST_DUE"; "PAUSED"; "CANCELLED"; "COMPLETED"].

Definition SUBSCRIPTION_TERMINAL : list string :=
  ["CANCELLED"; "COMPLETED"].

Definition SUBSCRIPTION_RULES : list TransitionRule :=
  [mk_TransitionRule "ACTIVE" "cycle_failed_final" "PAST_DUE"
     None ["aud"; "event:subscription.past_due"; "notification"];
   mk_TransitionRule "ACTIVE" "pause" "PAUSED" None ["aud"; "event:subscription.paused"];
   mk_TransitionRule "ACTIVE" "cancel" "CANCELLED" None ["aud"; "event:subscription.cancelled"];
   mk_TransitionRule "ACTIVE" "term_completed" "COMPLETED"
     None ["aud"; "event:subscription.completed"];
   mk_TransitionRule "PAST_DUE" "cycle_paid" "ACTIVE"
     None ["aud"; "event:subscription.reactivated"];
   mk_TransitionRule "PAST_DUE" "grace_expired" "CANCELLED"
     None ["aud"; "event:subscription.cancelled"];
   mk_TransitionRule "PAUSED" "resume" "ACTIVE" None ["aud"; "event:subscription.resumed"];
   mk_TransitionRule "PAUSED" "cancel" "CANCELLED" None ["aud"; "event:subscription.cancelled"]].

Definition SUBSCRIPTION_TABLE : res TableError TransitionTable :=
  transition_table "Subscription" SUBSCRIPTION_STATES SUBSCRIPTION_TERMINAL SUBSCRIPTION_RULES.

Definition SUBSCRIPTION_CYCLE_STATES : list string :=
  ["SCHEDULED"; "COLLECTING"; "DUNNING"; "PAID"; "FAILED"; "SKIPPED"; "CANCELLED"].

Definition SUBSCRIPTION_CYCLE_TERMINAL : list string :=
  ["PAID"; "FAILED"; "SKIPPED"; "CANCELLED"].

Definition SUBSCRIPTION_CYCLE_RULES : list TransitionRule :=
  [mk_TransitionRule "SCHEDULED" "cycle_due" "COLLECTING"
     None ["aud"; "event:subscription_cycle.invoiced"];
   mk_TransitionRule "SCHEDULED" "subscription_paused_or_cancelled" "SKIPPED"
     None ["aud"; "event:subscription_cycle.skipped"];
   mk_TransitionRule "COLLECTING" "intent_succeeded" "PAID"
     None ["aud"; "event:subscription_cycle.paid"];
   mk_TransitionRule "COLLECTING" "intent_failed_or_expired" "DUNNING"
     None ["aud"; "event:subscription_cycle.dunning_started"];
   mk_TransitionRule "DUNNING" "dunning_attempt" "DUNNING"
     None ["aud"; "event:subscription_cycle.invoiced"];
   mk_TransitionRule "DUNNING" "attempt_succeeded" "PAID"
     None ["aud"; "event:subscription_cycle.paid"];
   mk_TransitionRule "DUNNING" "schedule_exhausted" "FAILED"
     None ["aud"; "event:subscription_cycle.failed"];
   mk_TransitionRule "COLLECTING" "subscription_cancelled" "CANCELLED" None ["aud"];
   mk_TransitionRule "DUNNING" "subscription_cancelled" "CANCELLED" None ["aud"]].

Definition SUBSCRIPTION_CYCLE_TABLE : res TableError TransitionTable :=
  transition_table "SubscriptionCycle" SUBSCRIPTION_CYCLE_STATES SUBSCRIPTION_CYCLE_TERMINAL SUBSCRIPTION_CYCLE_RULES.

Definition MANDATE_STATES : list string :=
  ["PENDING_CONFIRMATION"; "ACTIVE"; "SUSPENDED"; "REVOKED"; "EXPIRED"].

Definition MANDATE_TERMINAL : list string :=
  ["REVOKED"; "EXPIRED"].

Definition MANDATE_RULES : list TransitionRule :=
  [mk_TransitionRule "PENDING_CONFIRMATION" "confirmed" "ACTIVE"
     None ["aud"; "event:mandate.activated"];
   mk_TransitionRule "PENDING_CONFIRMATION" "ttl_expired" "EXPIRED"
     None ["aud"; "event:mandate.expired"];
   mk_TransitionRule "ACTIVE" "revoke" "REVOKED" None ["aud"; "event:mandate.revoked"];
   mk_TransitionRule "ACTIVE" "instrument_invalid" "SUSPENDED"
     None ["aud"; "event:mandate.suspended"];
   mk_TransitionRule "SUSPENDED" "re_confirmed" "ACTIVE"
     None ["aud"; "event:mandate.activated"];
   mk_TransitionRule "SUSPENDED" "ttl_expired" "REVOKED" None ["aud"; "event:mandate.revoked"]].

Definition MANDATE_TABLE : res TableError TransitionTable :=
  transition_table "Mandate" MANDATE_STATES MANDATE_TERMINAL MANDATE_RULES.

(** * Soundness of the machines *)

(** The onboarding, KYC and manual-review machines are sound.  The legacy
    participant states are accepted but no run from an application enters
    them. *)
Theorem onboarding_machines_sound :
  sound_machine "MerchantKYB" MERCHANT_KYB_STATES MERCHANT_KYB_TERMINAL MERCHANT_KYB_RULES
    "APPLICATION_SUBMITTED" [] /\
  sound_machine "ParticipantOnboarding" PARTICIPANT_STATES PARTICIPANT_TERMINAL PARTICIPANT_RULES
    "APPLICATION_SUBMITTED" [] /\
  sound_machine "KybDocumentReview" DOCUMENT_REVIEW_STATES DOCUMENT_REVIEW_TERMINAL
    DOCUMENT_REVIEW_RULES "PENDING" [] /\
  sound_machine "ParticipantOnboardingV2" PARTICIPANT_V2_STATES PARTICIPANT_V2_TERMINAL
    PARTICIPANT_V2_RULES "APPLICATION_SUBMITTED" LEGACY_STATES /\
  sound_machine "ConformanceRun" CONFORMANCE_RUN_STATES CONFORMANCE_RUN_TERMINAL
    CONFORMANCE_RUN_RULES "QUEUED" [] /\
  sound_machine "KycRecord" KYC_STATES KYC_TERMINAL KYC_RULES "REFRESH_PENDING" [] /\
  sound_machine "KycManualReview" KYC_MANUAL_REVIEW_STATES KYC_MANUAL_REVIEW_TERMINAL
    KYC_MANUAL_REVIEW_RULES "REVIEW_OPEN" [].
Proof. split_and!; apply check_machine_sound; vm_compute; reflexivity. Qed.

(** The offer, disbursement and subscription machines are sound; the item
    state [DISPATCHING] is declared, and can be left, but no rule enters it. *)
Theorem commerce_machines_sound :
  sound_machine "Offer" OFFER_STATES OFFER_TERMINAL OFFER_RULES "DRAFT" [] /\
  sound_machine "OfferRedemption" REDEMPTION_STATES REDEMPTION_TERMINAL REDEMPTION_RULES
    "RESERVED" [] /\
  sound_machine "DisbursementBatch" BATCH_STATES BATCH_TERMINAL_STATES BATCH_RULES "DRAFT" [] /\
  sound_machine "DisbursementItem" ITEM_STATES ITEM_TERMINAL_STATES ITEM_RULES "QUEUED"
    ["DISPATCHING"%string] /\
  sound_machine "Subscription" SUBSCRIPTION_STATES SUBSCRIPTION_TERMINAL SUBSCRIPTION_RULES
    "ACTIVE" [] /\
  sound_machine "SubscriptionCycle" SUBSCRIPTION_CYCLE_STATES SUBSCRIPTION_CYCLE_TERMINAL
    SUBSCRIPTION_CYCLE_RULES "SCHEDULED" [] /\
  sound_machine "Mandate" MANDATE_STATES MANDATE_TERMINAL MANDATE_RULES
    "PENDING_CONFIRMATION" [].
Proof. split_and!; apply check_machine_sound; vm_compute; reflexivity. Qed.

(** The entries that end a disbursement item. *)
Definition item_outcome (r : TransitionRule) : Z :=
  emits "je:disbursement_item_paid" r + emits "je:disbursement_item_returned" r +
  emits "je:disbursement_failed_release" r.

(** A disbursement item has one money outcome: along every run from [QUEUED],
    or from [DISPATCHING] where the store puts it, it is paid, returned or
    released in total once if it has reached a terminal state, and not at all
    before. *)
Theorem disbursement_item_outcome t init path s :
  ITEM_TABLE = Ok t -> init ∈ ["QUEUED"; "DISPATCHING"]%string -> run_of t init path s ->
  count_effect "je:disbursement_item_paid" path +
  count_effect "je:disbursement_item_returned" path +
  count_effect "je:disbursement_failed_release" path = indicator ITEM_TERMINAL_STATES s.
Proof.
  intros Ht Hi Hr.
  pose proof (run_exact _ _ _ _ _ Ht (indicator ITEM_TERMINAL_STATES) item_outcome
    _ _ _ ltac:(check_rows) Hr) as Hc.
  unfold item_outcome in Hc. rewrite !sumZ_add in Hc.
  change (sumZ (emits ?e) path) with (count_effect e path) in Hc.
  assert (indicator ITEM_TERMINAL_STATES init = 0); [|lia].
  apply elem_of_cons in Hi as [->|Hi]; [reflexivity|].
  apply list_elem_of_singleton in Hi as ->. reflexivity.
Qed.

Lemma disbursement_item_outcome_witness : exists t path,
  run_of t "DISPATCHING" path "PAID" /\
  count_effect "je:disbursement_item_paid" path +
  count_effect "je:disbursement_item_returned" path +
  count_effect "je:disbursement_failed_release" path = 1.
Proof.
  destruct (driven ITEM_TABLE "DISPATCHING" [("dispatched", None); ("settled", None)]%string "PAID")
    as (t & path & Ht & Hr); [vm_compute; reflexivity|].
  exists t, path. split; [exact Hr|].
  apply (disbursement_item_outcome t "DISPATCHING" path "PAID" Ht); [right; left|exact Hr].
Defined.
