(* ===== verification/Money.v ===== *)
(** The money value object (platform/money.py): integer paisa, decimal
    arithmetic at 50 digits, banker's rounding applied once.

    A finite [decimal.Decimal] is its coefficient and exponent.  Operations round
    to the context's precision, half to even, as the decimal module does; the
    exponent limits of the context (about a million) are not modelled, nor is
    the sign of zero. *)
From S2P Require Import Prelude Exceptions.
Open Scope Z_scope.

(** * Decimals *)

Record Decimal : Type := mk_Decimal { d_coeff : Z; d_exp : Z }.

#[export] Instance Decimal_eq_dec : EqDecision Decimal.
Proof. solve_decision. Defined.

(** The digits of a coefficient. *)
Definition ndigits (c : Z) : nat := String.length (str_Z (Z.abs c)).

(** [ROUND_HALF_EVEN] of [n / d], for [0 < d]. *)
Definition half_even (n d : Z) : Z :=
  let q := n / d in
  let r := n mod d in
  if 2 * r <? d then q
  else if d <? 2 * r then q + 1
  else if Z.even q then q else q + 1.

(** Rounding a result to the precision of the context. *)
Definition fix_prec (prec : nat) (x : Decimal) : Decimal :=
  let n := ndigits (d_coeff x) in
  if (n <=? prec)%nat then x
  else
    let k := Z.of_nat (n - prec) in
    let c := half_even (d_coeff x) (10 ^ k) in
    if (ndigits c <=? prec)%nat then mk_Decimal c (d_exp x + k)
    else mk_Decimal (c / 10) (d_exp x + k + 1).

Definition dec_of_int (z : Z) : Decimal := mk_Decimal z 0.

Definition dec_mul (prec : nat) (x y : Decimal) : Decimal :=
  fix_prec prec (mk_Decimal (d_coeff x * d_coeff y) (d_exp x + d_exp y)).

(** Division by [10 ^ k].  The module also strips trailing zeros of an exact
    quotient; nothing below depends on them. *)
Definition dec_div_pow10 (prec : nat) (x : Decimal) (k : Z) : Decimal :=
  fix_prec prec (mk_Decimal (d_coeff x) (d_exp x - k)).

(** [x.quantize(Decimal(10) ** e, rounding=ROUND_HALF_EVEN)] *)
Definition dec_quantize (prec : nat) (x : Decimal) (e : Z) : res exn Decimal :=
  let c := if e <=? d_exp x then d_coeff x * 10 ^ (d_exp x - e)
           else half_even (d_coeff x) (10 ^ (e - d_exp x)) in
  raise InvalidOperation when (prec <? ndigits c)%nat else
  Ok (mk_Decimal c e).

(** [x == x.to_integral_value()] *)
Definition dec_is_integral (x : Decimal) : bool :=
  (0 <=? d_exp x) || (d_coeff x mod 10 ^ (- d_exp x) =? 0).

(** [int(x)] truncates. *)
Definition dec_int (x : Decimal) : Z :=
  if 0 <=? d_exp x then d_coeff x * 10 ^ d_exp x else Z.quot (d_coeff x) (10 ^ (- d_exp x)).

(** What an argument of a money operation can be. *)
Inductive PyArg : Type :=
| ArgInt (z : Z)
| ArgBool (b : bool)
| ArgFloat
| ArgDecimal (d : Decimal)
| ArgNonFinite
| ArgOther.

(** * Money *)

Definition BDT : string := "BDT".
Definition _ARITHMETIC_PRECISION : nat := 50.
(** [PAISA_PER_BDT = Decimal(100)] *)
Definition PAISA_PER_BDT : Decimal := dec_of_int 100.

Definition _require_int_minor (amount_minor : PyArg) : res exn Z :=
  match amount_minor with ArgInt z => Ok z | _ => Err MoneyError end.

Definition _require_decimal (value : PyArg) : res exn Decimal :=
  match value with ArgDecimal d => Ok d | _ => Err MoneyError end.

Record Money : Type := mk_Money { _amount_minor : Z; _currency : string }.

#[export] Instance Money_eq_dec : EqDecision Money.
Proof. solve_decision. Defined.

(** [Money.__init__] *)
Definition money (amount_minor : PyArg) (currency : string) (allow_negative : bool) :
    res exn Money :=
  let* amount := _require_int_minor amount_minor in
  raise MoneyError when (negb (String.eqb currency BDT)) else
  raise MoneyError when ((amount <? 0) && negb allow_negative) else
  Ok (mk_Money amount currency).

Definition from_minor (amount_minor : PyArg) (allow_negative : bool) : res exn Money :=
  money amount_minor BDT allow_negative.

Definition as_decimal_bdt (m : Money) : res exn Decimal :=
  dec_quantize _ARITHMETIC_PRECISION
    (dec_div_pow10 _ARITHMETIC_PRECISION (dec_of_int (_amount_minor m)) 2) (-2).

Definition from_decimal_bdt (amount_bdt : PyArg) (allow_negative : bool) : res exn Money :=
  let* amount := _require_decimal amount_bdt in
  let minor := dec_mul _ARITHMETIC_PRECISION amount PAISA_PER_BDT in
  raise MoneyError when (negb (dec_is_integral minor)) else
  money (ArgInt (dec_int minor)) BDT allow_negative.

Definition _require_same_currency (m other : Money) : res exn unit :=
  raise MoneyError when (negb (String.eqb (_currency m) (_currency other))) else Ok tt.

Definition add (m other : Money) (allow_negative : bool) : res exn Money :=
  let* _ := _require_same_currency m other in
  money (ArgInt (_amount_minor m + _amount_minor other)) (_currency m) allow_negative.

Definition subtract (m other : Money) (allow_negative : bool) : res exn Money :=
  let* _ := _require_same_currency m other in
  money (ArgInt (_amount_minor m - _amount_minor other)) (_currency m) allow_negative.

Definition multiply (m : Money) (ratio : PyArg) (allow_negative : bool) : res exn Money :=
  let* factor := _require_decimal ratio in
  let product := dec_mul _ARITHMETIC_PRECISION (dec_of_int (_amount_minor m)) factor in
  let* rounded := dec_quantize _ARITHMETIC_PRECISION product 0 in
  money (ArgInt (dec_int rounded)) (_currency m) allow_negative.

(** [__eq__], [__lt__], [__le__], [__gt__], [__ge__], [__bool__] *)
Definition money_eq (m other : Money) : bool :=
  (_amount_minor m =? _amount_minor other) && String.eqb (_currency m) (_currency other).

Definition money_lt (m other : Money) : res exn bool :=
  let* _ := _require_same_currency m other in Ok (_amount_minor m <? _amount_minor other).

Definition money_le (m other : Money) : res exn bool :=
  let* _ := _require_same_currency m other in Ok (_amount_minor m <=? _amount_minor other).

Definition money_gt (m other : Money) : res exn bool :=
  let* _ := _require_same_currency m other in Ok (_amount_minor other <? _amount_minor m).

Definition money_ge (m other : Money) : res exn bool :=
  let* _ := _require_same_currency m other in Ok (_amount_minor other <=? _amount_minor m).

Definition money_bool (m : Money) : bool := negb (_amount_minor m =? 0).

(** * Rounding *)

(** [q] is [n / d] rounded to the nearest integer, ties to even. *)
Definition nearest_even (n d q : Z) : Prop :=
  2 * Z.abs (n - q * d) <= d /\ (2 * Z.abs (n - q * d) = d -> Z.even q = true).

Lemma half_even_spec n d : 0 < d -> nearest_even n d (half_even n d).
Proof.
  intros Hd. unfold half_even, nearest_even.
  pose proof (Z.div_mod n d ltac:(lia)) as Hn. pose proof (Z.mod_pos_bound n d Hd) as Hr.
  set (q := n / d) in *. set (r := n mod d) in *. clearbody q r. subst n.
  destruct (Z.ltb_spec (2 * r) d); [split; nia|].
  destruct (Z.ltb_spec d (2 * r)); [split; nia|].
  destruct (Z.even q) eqn:He; [split; [nia|done]|].
  split; [nia|]. intros _. by rewrite Z.even_add, He.
Qed.

Lemma nearest_even_unique n d q q' :
  0 < d -> nearest_even n d q -> nearest_even n d q' -> q = q'.
Proof.
  intros Hd [Hq He] [Hq' He'].
  destruct (Z.lt_trichotomy q q') as [Hlt|[->|Hlt]]; [|done|].
  - assert (q' = q + 1) as -> by nia.
    assert (Z.even q = true) by (apply He; nia). assert (Z.even (q + 1) = true) by (apply He'; nia).
    rewrite Z.even_add in *. by destruct (Z.even q).
  - assert (q = q' + 1) as -> by nia.
    assert (Z.even q' = true) by (apply He'; nia). assert (Z.even (q' + 1) = true) by (apply He; nia).
    rewrite Z.even_add in *. by destruct (Z.even q').
Qed.

Lemma half_even_exact n d : 0 < d -> half_even (n * d) d = n.
Proof.
  intros Hd. apply (nearest_even_unique (n * d) d); [done|by apply half_even_spec|].
  split; [|lia]. replace (n * d - n * d) with 0 by lia. simpl. lia.
Qed.

Lemma half_even_mono n n' d : 0 < d -> n <= n' -> half_even n d <= half_even n' d.
Proof.
  intros Hd Hn. destruct (half_even_spec n d Hd) as [H1 E1], (half_even_spec n' d Hd) as [H2 E2].
  destruct (Z.le_gt_cases (half_even n d) (half_even n' d)) as [|Hgt]; [done|exfalso].
  assert (half_even n d = half_even n' d + 1) as He by nia. rewrite He in *.
  assert (n = n') as <- by nia. rewrite He in *. lia.
Qed.

Lemma ndigits_le c : Z.abs c < 10 ^ 50 -> (ndigits c <= _ARITHMETIC_PRECISION)%nat.
Proof. intros Hc. apply (str_Z_length_le _ 50); [|unfold _ARITHMETIC_PRECISION]; lia. Qed.

Lemma half_even_abs n d : 0 < d -> Z.abs (half_even n d) <= Z.abs n.
Proof.
  intros Hd. destruct (half_even_spec n d Hd) as [H1 _].
  destruct (Z.eq_dec d 1) as [->|]; [lia|].
  destruct (Z.eq_dec n 0) as [->|]; [rewrite (half_even_exact 0 d Hd : half_even 0 d = 0); lia|].
  set (q := half_even n d) in *. clearbody q.
  destruct (Z.le_gt_cases (Z.abs q) (Z.abs n)) as [|Hgt]; [done|exfalso].
  assert (Z.abs (q * d) = Z.abs q * d) by (rewrite Z.abs_mul; lia).
  assert (Z.abs (q * d) <= Z.abs n + Z.abs (n - q * d)) by lia. nia.
Qed.

Lemma fix_prec_small c e :
  Z.abs c < 10 ^ 50 -> fix_prec _ARITHMETIC_PRECISION (mk_Decimal c e) = mk_Decimal c e.
Proof.
  intros Hc. unfold fix_prec. cbn [d_coeff].
  by rewrite (proj2 (Nat.leb_le _ _) (ndigits_le c Hc)).
Qed.

Lemma quantize_down c e t :
  e <= t -> Z.abs c < 10 ^ 50 ->
  dec_quantize _ARITHMETIC_PRECISION (mk_Decimal c e) t = Ok (mk_Decimal (half_even c (10 ^ (t - e))) t).
Proof.
  intros He Hc. unfold dec_quantize. cbn [d_exp d_coeff].
  assert (Hd : 0 < 10 ^ (t - e)) by (apply Z.pow_pos_nonneg; lia).
  assert ((if t <=? e then c * 10 ^ (e - t) else half_even c (10 ^ (t - e))) =
          half_even c (10 ^ (t - e))) as ->.
  { destruct (Z.leb_spec t e); [|done]. assert (t = e) as -> by lia. rewrite Z.sub_diag.
    pose proof (half_even_exact c 1 ltac:(lia)) as Hx.
    rewrite Z.mul_1_r in Hx. by rewrite Z.pow_0_r, Z.mul_1_r, Hx. }
  pose proof (half_even_abs c _ Hd). rewrite (proj2 (Nat.ltb_ge _ _)); [done|].
  apply ndigits_le. lia.
Qed.

Lemma multiply_rounds_once_spec m c e allow_negative :
  e <= 0 -> Z.abs (_amount_minor m * c) < 10 ^ 50 ->
  exists q, nearest_even (_amount_minor m * c) (10 ^ (- e)) q /\
    multiply m (ArgDecimal (mk_Decimal c e)) allow_negative =
    money (ArgInt q) (_currency m) allow_negative.
Proof.
  intros He Hc. exists (half_even (_amount_minor m * c) (10 ^ (- e))).
  split; [apply half_even_spec, Z.pow_pos_nonneg; lia|].
  unfold multiply, dec_mul, dec_of_int. cbn [_require_decimal rbind d_coeff d_exp].
  rewrite Z.add_0_l, fix_prec_small by done. rewrite quantize_down by done. cbn [rbind].
  unfold dec_int. cbn [d_exp d_coeff]. by rewrite Z.pow_0_r, Z.mul_1_r, Z.sub_0_l.
Qed.

(** A percentage of an amount is rounded once, to the nearest paisa with ties
    to even.  While the exact product fits the 50 digits of the context, the
    result is the amount times the ratio so rounded, with the sign check of the
    constructor and nothing else. *)
Theorem multiply_rounds_once m c e allow_negative :
  e <= 0 -> Z.abs (_amount_minor m * c) < 10 ^ 50 ->
  exists q, nearest_even (_amount_minor m * c) (10 ^ (- e)) q /\
    multiply m (ArgDecimal (mk_Decimal c e)) allow_negative =
    money (ArgInt q) (_currency m) allow_negative.
Proof. apply multiply_rounds_once_spec. Qed.

Lemma multiply_rounds_once_witness :
  multiply (mk_Money 250 "BDT") (ArgDecimal (mk_Decimal 5 (-1))) false = Ok (mk_Money 125 "BDT") /\
  exists q, nearest_even (250 * 5) (10 ^ 2) q.
Proof.
  split; [vm_compute; reflexivity|].
  destruct (multiply_rounds_once (mk_Money 250 "BDT") 5 (-2) false) as (q & Hq & _);
    [lia|vm_compute; reflexivity|].
  exists q. exact Hq.
Defined.

(** Paisa to taka and back: [as_decimal_bdt] succeeds with the amount at two
    decimal places, and [from_decimal_bdt] reads it back as the same money. *)
Theorem decimal_roundtrip m :
  Z.abs (_amount_minor m) < 10 ^ 48 -> _currency m = BDT ->
  as_decimal_bdt m = Ok (mk_Decimal (_amount_minor m) (-2)) /\
  from_decimal_bdt (ArgDecimal (mk_Decimal (_amount_minor m) (-2))) true = Ok m.
Proof.
  intros Ha Hcur. split.
  - unfold as_decimal_bdt, dec_div_pow10, dec_of_int. cbn [d_coeff d_exp].
    rewrite fix_prec_small, quantize_down by lia. change (10 ^ (-2 - (0 - 2))) with 1.
    pose proof (half_even_exact (_amount_minor m) 1 ltac:(lia)) as Hx.
    rewrite Z.mul_1_r in Hx. by rewrite Hx.
  - unfold from_decimal_bdt, dec_mul. cbn [_require_decimal rbind d_coeff d_exp dec_of_int PAISA_PER_BDT].
    rewrite fix_prec_small by lia. unfold dec_is_integral, dec_int. cbn [d_coeff d_exp].
    change (10 ^ (- (-2 + 0))) with 100. rewrite Z.mod_mul, Z.quot_mul by lia.
    simpl. unfold money. simpl. rewrite andb_false_r. destruct m. simpl in Hcur. by rewrite Hcur.
Qed.

Lemma decimal_roundtrip_witness :
  from_decimal_bdt (ArgDecimal (mk_Decimal 12345 (-2))) true = Ok (mk_Money 12345 "BDT").
Proof. apply (decimal_roundtrip (mk_Money 12345 "BDT")); vm_compute; reflexivity. Defined.

(** A decimal amount is accepted only if it is a whole number of paisa, and then
    exactly: construction never rounds. *)
Lemma from_decimal_exact c e neg m :
  e <= 0 -> Z.abs c < 10 ^ 48 -> from_decimal_bdt (ArgDecimal (mk_Decimal c e)) neg = Ok m ->
  _amount_minor m * 10 ^ (- e) = c * 100 /\ (neg = false -> 0 <= _amount_minor m).
Proof.
  intros He Hc Hf. unfold from_decimal_bdt, dec_mul in Hf.
  cbn [_require_decimal rbind d_coeff d_exp dec_of_int PAISA_PER_BDT] in Hf.
  rewrite fix_prec_small, Z.add_0_r in Hf by lia.
  unfold dec_is_integral, dec_int, money in Hf. cbn [d_coeff d_exp _require_int_minor] in Hf.
  inv_res. cbn [_amount_minor]. bool_prop.
  assert (Hp : 0 < 10 ^ (- e)) by (apply Z.pow_pos_nonneg; lia). split.
  - apply orb_true_iff in G as [Hz|Hm]; bool_prop.
    + assert (e = 0) as -> by lia. simpl. lia.
    + destruct (Z.leb_spec 0 e); [assert (e = 0) as -> by lia; simpl; lia|].
      apply Z.mod_divide in Hm as [k ->]; [|lia]. by rewrite Z.quot_mul by lia.
  - intros ->. rewrite andb_true_r in G1. bool_prop. by destruct (Z.leb_spec 0 e).
Qed.
