(* ===== verification/Fees.v ===== *)
(** Fee rules (ledger/settlement/fees.py): the most specific active rule is
    resolved, and the fee is computed from it with one rounding. *)
From S2P Require Import Prelude Exceptions DateTime Sha256 Canonical Money.
Open Scope Z_scope.

Definition FEE_TYPES : list string := ["PERCENTAGE"; "FLAT_PAISA"; "FLAT_PLUS_PERCENTAGE"].
Definition MERCHANT_CLASSES : list string := ["MICRO"; "PERSONAL_RETAIL"; "STANDARD"].
Definition INSTRUMENT_CLASSES : list string := ["DEBIT_PREPAID"; "CREDIT"; "MFS_PSP_WALLET"].
Definition FEE_METHODS : list string :=
  ["BANGLA_QR"; "NPSB_IBFT"; "BEFTN_CREDIT"; "RTGS_GROSS"; "BKASH"; "NAGAD"; "ROCKET";
   "CARD_DOMESTIC"; "CARD_INTERNATIONAL"; "CARD_AMEX"].

(** The division is by [10 ^ 4]: the exponent of [_BPS_DENOMINATOR], in the
    default context of 28 digits. *)
Definition _BPS_DENOMINATOR : Z := 4.
Definition default_precision : nat := 28.

Record FeeRule : Type := mk_FeeRule {
  rule_id : string;
  rule_name : string;
  fr_merchant_id : option string;
  fr_method : string;
  fr_mcc : option string;
  fee_type : string;
  rate_bps : option Z;
  flat_amount_minor : option Z;
  regulated : bool;
  valid_from : datetime;
  valid_to : option datetime;
  created_by : string;
  approved_by : option string;
  created_at : datetime;
  fr_schema_version : Z;
  fr_merchant_class : option string;
  fr_instrument_class : option string
}.

#[export] Instance FeeRule_eq_dec : EqDecision FeeRule.
Proof. solve_decision. Defined.

Definition bad_rate (o : option Z) : bool :=
  match o with None => true | Some r => negb ((0 <=? r) && (r <=? 10000)) end.
Definition bad_flat (o : option Z) : bool :=
  match o with None => true | Some f => f <? 0 end.
Definition bad_class (classes : list string) (o : option string) : bool :=
  match o with None => false | Some c => negb (str_in c classes) end.

(** [FeeRule.__post_init__] *)
Definition __post_init__ (r : FeeRule) : res exn FeeRule :=
  raise FeeRuleError when (negb (str_in (fr_method r) FEE_METHODS)) else
  raise FeeRuleError when (negb (str_in (fee_type r) FEE_TYPES)) else
  raise FeeRuleError
    when (str_in (fee_type r) ["PERCENTAGE"; "FLAT_PLUS_PERCENTAGE"] && bad_rate (rate_bps r)) else
  raise FeeRuleError
    when (str_in (fee_type r) ["FLAT_PAISA"; "FLAT_PLUS_PERCENTAGE"] &&
          bad_flat (flat_amount_minor r)) else
  raise FeeRuleError when (bad_class MERCHANT_CLASSES (fr_merchant_class r)) else
  raise FeeRuleError when (bad_class INSTRUMENT_CLASSES (fr_instrument_class r)) else
  Ok r.

(** [a < b] of datetimes raises when only one carries a time zone. *)
Definition dt_less (a b : datetime) : res exn bool :=
  raise TypeError when (negb (Bool.eqb (tz_aware a) (tz_aware b))) else Ok (dt_ltb a b).

Definition is_active (r : FeeRule) (at_ : datetime) : res exn bool :=
  let* early := dt_less at_ (valid_from r) in
  if early then Ok false
  else match valid_to r with None => Ok true | Some t => dt_less at_ t end.

(** [[r for r in rules if r.method == method and r.is_active(at)]] *)
Fixpoint active_rules (rules : list FeeRule) (method : string) (at_ : datetime) :
    res exn (list FeeRule) :=
  match rules with
  | [] => Ok []
  | r :: rest =>
      let* keep := if String.eqb (fr_method r) method then is_active r at_ else Ok false in
      let* more := active_rules rest method at_ in
      Ok (if keep then r :: more else more)
  end.

Definition eq_some (o : option string) (s : string) : bool := bool_decide (o = Some s).
Definition is_none {A} (o : option A) : bool := match o with None => true | Some _ => false end.
Definition not_none {A} (o : option A) : bool := negb (is_none o).
(** [r.mcc is not None and r.mcc == mcc] *)
Definition same_known (o o' : option string) : bool := not_none o && bool_decide (o = o').

Section Levels.
Context (merchant_id : string) (mcc merchant_class instrument_class : option string).

Definition _mc_match (r : FeeRule) : bool :=
  is_none (fr_merchant_class r) || bool_decide (fr_merchant_class r = merchant_class).
Definition _ic_match (r : FeeRule) : bool :=
  is_none (fr_instrument_class r) || bool_decide (fr_instrument_class r = instrument_class).

Definition levels : list (FeeRule -> bool) :=
  [(fun r => eq_some (fr_merchant_id r) merchant_id && same_known (fr_mcc r) mcc);
   (fun r => eq_some (fr_merchant_id r) merchant_id && is_none (fr_mcc r));
   (fun r => is_none (fr_merchant_id r) && same_known (fr_mcc r) mcc &&
             not_none (fr_merchant_class r) && not_none (fr_instrument_class r) &&
             _mc_match r && _ic_match r);
   (fun r => is_none (fr_merchant_id r) && is_none (fr_mcc r) &&
             not_none (fr_merchant_class r) && not_none (fr_instrument_class r) &&
             _mc_match r && _ic_match r);
   (fun r => is_none (fr_merchant_id r) && is_none (fr_mcc r) &&
             not_none (fr_merchant_class r) && is_none (fr_instrument_class r) && _mc_match r);
   (fun r => is_none (fr_merchant_id r) && same_known (fr_mcc r) mcc &&
             is_none (fr_merchant_class r) && is_none (fr_instrument_class r));
   (fun r => is_none (fr_merchant_id r) && is_none (fr_mcc r) &&
             is_none (fr_merchant_class r) && is_none (fr_instrument_class r))].

(** [max(matched, key=lambda r: r.valid_from)]: the first of the latest.  All
    active rules have been compared with [at], so they agree on being aware and
    the comparisons cannot raise. *)
Definition latest (best : FeeRule) (rest : list FeeRule) : FeeRule :=
  fold_left (fun b r => if dt_ltb (valid_from b) (valid_from r) then r else b) rest best.

Fixpoint first_level (preds : list (FeeRule -> bool)) (active : list FeeRule) : option FeeRule :=
  match preds with
  | [] => None
  | p :: more =>
      match filter (fun r => p r = true) active with
      | [] => first_level more active
      | r :: rest => Some (latest r rest)
      end
  end.

Definition resolve_fee_rule (rules : list FeeRule) (method : string) (at_ : datetime) :
    res exn FeeRule :=
  let* active := active_rules rules method at_ in
  match first_level levels active with
  | Some r => Ok r
  | None => Err FeeRuleError
  end.
End Levels.

Definition assert_some {A} (o : option A) : res exn A :=
  match o with Some a => Ok a | None => Err AssertionError end.

(** [amount.multiply(Decimal(rate_bps) / _BPS_DENOMINATOR).amount_minor] *)
Definition percentage (amount : Money) (rate : Z) : res exn Z :=
  let* m := multiply amount
    (ArgDecimal (dec_div_pow10 default_precision (dec_of_int rate) _BPS_DENOMINATOR)) false in
  Ok (_amount_minor m).

Definition compute_fee (amount_minor : PyArg) (rule : FeeRule) : res exn (Z * string) :=
  match amount_minor with
  | ArgInt a =>
      raise FeeRuleError when (a <=? 0) else
      let* amount := money (ArgInt a) BDT false in
      let* fee_minor :=
        if String.eqb (fee_type rule) "PERCENTAGE" then
          let* rate := assert_some (rate_bps rule) in percentage amount rate
        else if String.eqb (fee_type rule) "FLAT_PAISA" then assert_some (flat_amount_minor rule)
        else
          let* rate := assert_some (rate_bps rule) in
          let* flat := assert_some (flat_amount_minor rule) in
          let* pct := percentage amount rate in
          Ok (flat + pct) in
      raise FeeRuleError when (negb ((0 <=? fee_minor) && (fee_minor <=? a))) else
      Ok (fee_minor, rule_id rule)
  | _ => Err FeeRuleError
  end.

(** [datetime(y, m, d, tzinfo=UTC)] *)
Definition utc_midnight (ymd : Z * Z * Z) : datetime :=
  mk_datetime true (ymd2ord ymd * micros_per_day).

Section Defaults.
Context `{HashFn}.

Definition POptZ (o : option Z) : pyobj := match o with Some z => PInt z | None => PNone end.

Definition _rule (name method fee_type : string) (rate flat : option Z) (regulated : bool) :
    res exn FeeRule :=
  let valid_from := utc_midnight (2025, 2, 1) in
  let* id := make_ledger_id "frule"
    (dict [("method", PStr method); ("rate_bps", POptZ rate); ("flat", POptZ flat);
           ("name", PStr name)]) in
  __post_init__ (mk_FeeRule id name None method None fee_type rate flat regulated valid_from None
    "system" (Some "system"%string) valid_from 1 None None).

Definition default_fee_rules : res exn (list FeeRule) :=
  rmap (fun x => x)
    [_rule "Bangla QR Regulated MDR" "BANGLA_QR" "PERCENTAGE" (Some 115) None true;
     _rule "NPSB IBFT capped MDR" "NPSB_IBFT" "PERCENTAGE" (Some 20) None true;
     _rule "BEFTN credit MDR" "BEFTN_CREDIT" "PERCENTAGE" (Some 50) None false;
     _rule "RTGS gross MDR" "RTGS_GROSS" "PERCENTAGE" (Some 25) None false;
     _rule "bKash MDR" "BKASH" "PERCENTAGE" (Some 175) None false;
     _rule "Nagad MDR" "NAGAD" "PERCENTAGE" (Some 175) None false;
     _rule "Rocket MDR" "ROCKET" "PERCENTAGE" (Some 175) None false;
     _rule "Card domestic MDR" "CARD_DOMESTIC" "PERCENTAGE" (Some 250) None false;
     _rule "Card international MDR" "CARD_INTERNATIONAL" "PERCENTAGE" (Some 350) None false;
     _rule "Card Amex MDR" "CARD_AMEX" "PERCENTAGE" (Some 350) None false].
End Defaults.

Example utc_midnight_ex : micros (utc_midnight (2025, 2, 1)) = 63873964800000000.
Proof. vm_compute. reflexivity. Qed.

(** * Resolution *)

Lemma active_rules_spec rules method at_ l :
  active_rules rules method at_ = Ok l ->
  forall r, r ∈ l <-> r ∈ rules /\ fr_method r = method /\ is_active r at_ = Ok true.
Proof.
  revert l. induction rules as [|r0 rules IH]; intros l Ha r; simpl in Ha.
  { simplify_eq. split; [by intros ?%not_elem_of_nil|by intros [?%not_elem_of_nil _]]. }
  inv_res. specialize (IH _ eq_refl r). destruct (String.eqb_spec (fr_method r0) method) as [Hm|Hm].
  - destruct a; rewrite ?elem_of_cons, IH; split.
    + intros [->|(? & ? & ?)]; auto.
    + intros [[->|?] [? ?]]; auto.
    + intros (? & ? & ?); auto.
    + intros [[->|?] [? ?]]; [congruence|auto].
  - simplify_eq. rewrite elem_of_cons, IH. split; [intros (? & ? & ?); auto|].
    intros [[->|?] [? ?]]; [done|auto].
Qed.

Lemma latest_spec rest : forall best,
  latest best rest ∈ best :: rest /\
  Forall (fun r => dt_leb (valid_from r) (valid_from (latest best rest)) = true) (best :: rest).
Proof.
  unfold latest, dt_leb, dt_ltb.
  induction rest as [|r rest IH]; intros best; simpl.
  - split; [by left|]. constructor; [apply Z.leb_refl|constructor].
  - destruct (Z.ltb_spec (micros (valid_from best)) (micros (valid_from r))) as [Hlt|Hge].
    + destruct (IH r) as [Hin Hall]. rewrite !Forall_cons in *. destruct Hall as [Hr Hall].
      split; [by right|]. split_and!; try done. apply Z.leb_le in Hr. apply Z.leb_le. lia.
    + destruct (IH best) as [Hin Hall]. rewrite !Forall_cons in *. destruct Hall as [Hb Hall].
      split; [|split_and!; try done; apply Z.leb_le in Hb; apply Z.leb_le; lia].
      apply elem_of_cons in Hin as [->|Hin]; [by left|by right; right].
Qed.

Lemma first_level_spec preds active :
  match first_level preds active with
  | Some r => exists i p, preds !! i = Some p /\ r ∈ active /\ p r = true /\
      (forall j q r', (j < i)%nat -> preds !! j = Some q -> r' ∈ active -> q r' = false) /\
      (forall r', r' ∈ active -> p r' = true -> dt_leb (valid_from r') (valid_from r) = true)
  | None => forall p r, p ∈ preds -> r ∈ active -> p r = false
  end.
Proof.
  induction preds as [|p preds IH]; simpl; [by intros p r ?%not_elem_of_nil|].
  destruct (filter _ active) as [|r0 rest] eqn:Hf.
  - assert (Hno : forall r, r ∈ active -> p r = false).
    { intros r Hr. apply not_true_iff_false. intros Hp.
      assert (Hin : r ∈ filter (fun r => p r = true) active) by (by apply list_elem_of_filter).
      rewrite Hf in Hin. by apply not_elem_of_nil in Hin. }
    destruct (first_level preds active) as [r|].
    + destruct IH as (i & q & Hi & Hr & Hq & Hbefore & Hmax). exists (S i), q.
      split_and!; try done. intros [|j] q' r' Hj Hq' Hr'; simpl in Hq'.
      * simplify_eq. by apply Hno.
      * eapply Hbefore; [|done..]. lia.
    + intros q r [->|Hq]%elem_of_cons Hr; [by apply Hno|by apply IH].
  - destruct (latest_spec rest r0) as [Hin Hall]. rewrite <- Hf in Hin, Hall.
    apply list_elem_of_filter in Hin as [Hp Hin]. rewrite Forall_forall in Hall.
    exists 0%nat, p. split_and!; try done; [lia|].
    intros r' Hr' Hp'. apply Hall. by apply list_elem_of_filter.
Qed.

(** The most specific rule wins.  A resolved rule is an active rule of the
    method that satisfies one of the seven levels, no active rule satisfies an
    earlier level, and none at its own level is more recent; the call raises
    [FeeRuleError] only when no active rule of the method satisfies any level. *)
Theorem most_specific_rule_wins mid mcc mc ic rules method at_ active :
  active_rules rules method at_ = Ok active ->
  (forall r, r ∈ active <-> r ∈ rules /\ fr_method r = method /\ is_active r at_ = Ok true) /\
  match resolve_fee_rule mid mcc mc ic rules method at_ with
  | Ok r => exists i p, levels mid mcc mc ic !! i = Some p /\ r ∈ active /\ p r = true /\
      (forall j q r', (j < i)%nat -> levels mid mcc mc ic !! j = Some q -> r' ∈ active -> q r' = false) /\
      (forall r', r' ∈ active -> p r' = true -> dt_leb (valid_from r') (valid_from r) = true)
  | Err e => e = FeeRuleError /\
      forall p r, p ∈ levels mid mcc mc ic -> r ∈ active -> p r = false
  end.
Proof.
  intros Ha. split; [by apply active_rules_spec|].
  unfold resolve_fee_rule. rewrite Ha. cbn [rbind].
  pose proof (first_level_spec (levels mid mcc mc ic) active) as Hs.
  destruct (first_level (levels mid mcc mc ic) active); [exact Hs|by split].
Qed.

(** A rule restricted to an instrument class alone never applies: whatever
    the rules and the payment, a resolved platform rule that names an instrument
    class names a merchant class too. *)
Theorem instrument_only_rule_is_dead mid mcc mc ic rules method at_ r c :
  resolve_fee_rule mid mcc mc ic rules method at_ = Ok r ->
  fr_merchant_id r = None -> fr_instrument_class r = Some c -> fr_merchant_class r <> None.
Proof.
  intros Hr Hmid Hic Hmc. unfold resolve_fee_rule in Hr.
  destruct (active_rules rules method at_) as [active|]; [|done]. cbn [rbind] in Hr.
  pose proof (first_level_spec (levels mid mcc mc ic) active) as Hs.
  destruct (first_level _ active) as [r'|]; simplify_eq.
  destruct Hs as (i & p & Hi & _ & Hp & _).
  do 7 (destruct i as [|i]; [injection Hi as <-; rewrite Hmid, ?Hic, ?Hmc in Hp; simpl in Hp;
    rewrite ?andb_false_r in Hp; discriminate Hp|]).
  discriminate Hi.
Qed.

(** * Computation *)

Definition valid_rule (r : FeeRule) : Prop := __post_init__ r = Ok r.

Lemma valid_rule_inv r :
  valid_rule r ->
  (fee_type r = "PERCENTAGE" /\ (exists b, rate_bps r = Some b /\ 0 <= b <= 10000)) \/
  (fee_type r = "FLAT_PAISA" /\ (exists f, flat_amount_minor r = Some f /\ 0 <= f)) \/
  (fee_type r = "FLAT_PLUS_PERCENTAGE" /\ exists b f, rate_bps r = Some b /\ 0 <= b <= 10000 /\
     flat_amount_minor r = Some f /\ 0 <= f).
Proof.
  unfold valid_rule, __post_init__. intros Hv. inv_res. apply negb_false_iff, bool_decide_eq_true in G0.
  assert (Hb : bad_rate (rate_bps r) = false -> exists b, rate_bps r = Some b /\ 0 <= b <= 10000).
  { unfold bad_rate. destruct (rate_bps r); [|done]. intros. bool_prop. eauto. }
  assert (Hf : bad_flat (flat_amount_minor r) = false ->
    exists f, flat_amount_minor r = Some f /\ 0 <= f).
  { unfold bad_flat. destruct (flat_amount_minor r); [|done]. intros. bool_prop. eauto. }
  repeat (apply elem_of_cons in G0 as [Ht|G0]; [rewrite Ht in *; simpl in *|]).
  - left. auto.
  - right; left. auto.
  - right; right. split; [done|]. destruct (Hb G1) as (b & ? & ?), (Hf G2) as (f & ? & ?). eauto 10.
  - by apply not_elem_of_nil in G0.
Qed.

(** The percentage fee: the exact share rounded to the nearest paisa. *)
Definition pct_fee (a b : Z) : Z := half_even (a * b) 10000.

Lemma percentage_spec a b :
  0 < a < 10 ^ 40 -> 0 <= b <= 10000 ->
  percentage (mk_Money a BDT) b = Ok (pct_fee a b) /\ 0 <= pct_fee a b <= a.
Proof.
  intros Ha Hb. unfold percentage, dec_div_pow10, dec_of_int, _BPS_DENOMINATOR. cbn [d_coeff d_exp].
  assert (fix_prec default_precision (mk_Decimal b (0 - 4)) = mk_Decimal b (-4)) as ->.
  { unfold fix_prec. cbn [d_coeff]. rewrite (proj2 (Nat.leb_le _ _)); [done|].
    unfold ndigits. etrans; [apply (str_Z_length_le _ 28)|unfold default_precision; lia]; lia. }
  assert (0 <= pct_fee a b <= a) as Hr.
  { unfold pct_fee. split.
    - rewrite <- (half_even_exact 0 10000) by lia. apply half_even_mono; nia.
    - rewrite <- (half_even_exact a 10000) at 2 by lia. apply half_even_mono; nia. }
  split; [|done].
  assert (Hsmall : Z.abs (a * b) < 10 ^ 50) by nia.
  destruct (multiply_rounds_once_spec (mk_Money a BDT) b (-4) false) as (q & Hq & ->); [lia|done|].
  assert (q = pct_fee a b) as ->.
  { apply (nearest_even_unique (a * b) 10000); [lia|done|]. apply half_even_spec. lia. }
  unfold money. cbn [_require_int_minor rbind _currency].
  destruct (Z.ltb_spec (pct_fee a b) 0); [lia|]. done.
Qed.

Lemma fee_of_rule_spec r a :
  valid_rule r -> 0 < a < 10 ^ 40 ->
  (fee_type r = "PERCENTAGE"%string -> exists b, rate_bps r = Some b /\
     compute_fee (ArgInt a) r = Ok (pct_fee a b, rule_id r) /\
     nearest_even (a * b) 10000 (pct_fee a b) /\ 0 <= pct_fee a b <= a) /\
  (fee_type r = "FLAT_PAISA"%string -> exists f, flat_amount_minor r = Some f /\
     compute_fee (ArgInt a) r = if f <=? a then Ok (f, rule_id r) else Err FeeRuleError) /\
  (fee_type r = "FLAT_PLUS_PERCENTAGE"%string -> exists b f,
     rate_bps r = Some b /\ flat_amount_minor r = Some f /\
     compute_fee (ArgInt a) r =
       if f + pct_fee a b <=? a then Ok (f + pct_fee a b, rule_id r) else Err FeeRuleError).
Proof.
  intros Hv Ha. unfold compute_fee, money. cbn [_require_int_minor rbind].
  destruct (Z.leb_spec a 0); [lia|]. destruct (Z.ltb_spec a 0); [lia|]. cbn [andb negb BDT String.eqb].
  change (negb (String.eqb BDT BDT)) with false. cbv iota. cbn [rbind].
  apply valid_rule_inv in Hv as [(Ht & b & Hb & Hr)|[(Ht & f & Hf & Hr)|(Ht & b & f & Hb & Hr & Hf & Hr')]];
    rewrite Ht; split_and!; try done; intros _.
  - destruct (percentage_spec a b Ha Hr) as [Hp Hrange]. exists b. rewrite Hb. simpl. rewrite Hp.
    cbn [rbind]. split_and!; try lia; [done| |apply half_even_spec; lia].
    destruct (Z.leb_spec 0 (pct_fee a b)), (Z.leb_spec (pct_fee a b) a); try lia. done.
  - exists f. rewrite Hf. simpl. destruct (Z.leb_spec 0 f); [|lia]. simpl. by destruct (f <=? a).
  - destruct (percentage_spec a b Ha Hr) as [Hp Hrange]. exists b, f. rewrite Hb, Hf. simpl.
    rewrite Hp. cbn [rbind]. destruct (Z.leb_spec 0 (f + pct_fee a b)); [|lia].
    simpl. by destruct (f + pct_fee a b <=? a).
Qed.

(** A flat fee needs no decimal arithmetic, so it has no bound. *)
Lemma flat_fee_spec r a :
  valid_rule r -> 0 < a -> fee_type r = "FLAT_PAISA"%string -> exists f, flat_amount_minor r = Some f /\
    compute_fee (ArgInt a) r = if f <=? a then Ok (f, rule_id r) else Err FeeRuleError.
Proof.
  intros Hv Ha Hty. unfold compute_fee, money. cbn [_require_int_minor rbind].
  destruct (Z.leb_spec a 0); [lia|]. destruct (Z.ltb_spec a 0); [lia|]. cbn [andb negb BDT String.eqb].
  change (negb (String.eqb BDT BDT)) with false. cbv iota. cbn [rbind].
  apply valid_rule_inv in Hv as [(Ht & _)|[(Ht & f & Hf & Hr)|(Ht & _)]]; [congruence| |congruence].
  rewrite Ht. exists f. rewrite Hf. simpl. destruct (Z.leb_spec 0 f); [|lia]. simpl. by destruct (f <=? a).
Qed.

(** C40: the fee of a valid rule on a positive amount.  A flat fee is charged in
    full, or refused if it exceeds the amount.  On amounts below 10^40 poisha, where
    the product with the rate fits the 50 digits of the decimal context, a
    percentage fee exists, is the exact share rounded to the nearest poisha (ties to
    even) and lies between 0 and the amount; and a flat part plus a percentage is
    their sum, refused if it exceeds the amount. *)
Theorem fee_of_rule r a :
  valid_rule r -> 0 < a ->
  (fee_type r = "FLAT_PAISA"%string -> exists f, flat_amount_minor r = Some f /\
     compute_fee (ArgInt a) r = if f <=? a then Ok (f, rule_id r) else Err FeeRuleError) /\
  (fee_type r = "PERCENTAGE"%string -> a < 10 ^ 40 -> exists b, rate_bps r = Some b /\
     compute_fee (ArgInt a) r = Ok (pct_fee a b, rule_id r) /\
     nearest_even (a * b) 10000 (pct_fee a b) /\ 0 <= pct_fee a b <= a) /\
  (fee_type r = "FLAT_PLUS_PERCENTAGE"%string -> a < 10 ^ 40 -> exists b f,
     rate_bps r = Some b /\ flat_amount_minor r = Some f /\
     compute_fee (ArgInt a) r =
       if f + pct_fee a b <=? a then Ok (f + pct_fee a b, rule_id r) else Err FeeRuleError).
Proof.
  intros Hv Ha. split_and!; [by apply flat_fee_spec|intros Ht Hb; by apply fee_of_rule_spec..].
Qed.

Lemma pct_fee_mono a a' b : 0 <= b -> a <= a' -> pct_fee a b <= pct_fee a' b.
Proof. intros Hb Ha. apply half_even_mono; [lia|]. by apply Z.mul_le_mono_nonneg_r. Qed.

Lemma fee_value r a :
  valid_rule r -> 0 < a < 10 ^ 40 -> forall fee id, compute_fee (ArgInt a) r = Ok (fee, id) ->
  exists b f, 0 <= b /\ fee = f + pct_fee a b /\
    (forall a' fee' id', 0 < a' < 10 ^ 40 -> compute_fee (ArgInt a') r = Ok (fee', id') ->
       fee' = f + pct_fee a' b).
Proof.
  intros Hv Ha fee id Hc. pose proof Hv as Hv'.
  apply valid_rule_inv in Hv' as [(Ht & b & Hb & Hr)|[(Ht & f & Hf & Hr)|(Ht & b & f & Hb & Hr & Hf & Hr')]].
  - exists b, 0. split_and!; [lia|..].
    + destruct (proj1 (fee_of_rule_spec r a Hv Ha) Ht) as (b' & Hb' & Hc' & _).
      rewrite Hc' in Hc. simplify_eq. lia.
    + intros a' fee' id' Ha' Hc''.
      destruct (proj1 (fee_of_rule_spec r a' Hv Ha') Ht) as (b' & Hb' & Hc' & _).
      rewrite Hc' in Hc''. simplify_eq. lia.
  - exists 0, f. assert (forall x, pct_fee x 0 = 0) as Hz.
    { intros x. unfold pct_fee. rewrite Z.mul_0_r. apply (half_even_exact 0 10000). lia. }
    rewrite Hz. split_and!; [lia|..].
    + destruct (proj1 (proj2 (fee_of_rule_spec r a Hv Ha)) Ht) as (f' & Hf' & Hc').
      rewrite Hc' in Hc. destruct (f' <=? a); simplify_eq. lia.
    + intros a' fee' id' Ha' Hc''. rewrite Hz.
      destruct (proj1 (proj2 (fee_of_rule_spec r a' Hv Ha')) Ht) as (f' & Hf' & Hc').
      rewrite Hc' in Hc''. destruct (f' <=? a'); simplify_eq. lia.
  - exists b, f. split_and!; [lia|..].
    + destruct (proj2 (proj2 (fee_of_rule_spec r a Hv Ha)) Ht) as (b' & f' & Hb' & Hf' & Hc').
      rewrite Hc' in Hc. case_match; simplify_eq. lia.
    + intros a' fee' id' Ha' Hc''.
      destruct (proj2 (proj2 (fee_of_rule_spec r a' Hv Ha')) Ht) as (b' & f' & Hb' & Hf' & Hc').
      rewrite Hc' in Hc''. case_match; simplify_eq. lia.
Qed.

(** Under one rule a larger amount never pays a smaller fee. *)
Theorem fee_monotone r a a' fee fee' id id' :
  valid_rule r -> 0 < a <= a' -> a' < 10 ^ 40 ->
  compute_fee (ArgInt a) r = Ok (fee, id) -> compute_fee (ArgInt a') r = Ok (fee', id') ->
  fee <= fee'.
Proof.
  intros Hv Ha Ha' Hc Hc'.
  destruct (fee_value r a Hv ltac:(lia) _ _ Hc) as (b & f & Hb & -> & Hn).
  rewrite (Hn a' fee' id'); [|lia|done]. pose proof (pct_fee_mono a a' b Hb ltac:(lia)). lia.
Qed.

(** The binding vector of the module: BDT 20,200 at 1.15% is 23,230 paisa. *)
Example binding_vector : pct_fee 2020000 115 = 23230.
Proof. vm_compute. reflexivity. Qed.

(** The Bangla QR default rule. *)
Definition qr_rule : FeeRule :=
  mk_FeeRule "frule_demo" "Bangla QR" None "BANGLA_QR" None "PERCENTAGE" (Some 115) None true
    (utc_midnight (2025, 2, 1)) None "system" (Some "system"%string) (utc_midnight (2025, 2, 1)) 1
    None None.

Lemma fee_of_rule_witness : exists fee,
  compute_fee (ArgInt 2020000) qr_rule = Ok (fee, "frule_demo"%string) /\ fee = 23230.
Proof.
  destruct (proj1 (proj2 (fee_of_rule qr_rule 2020000 eq_refl ltac:(lia))) eq_refl ltac:(lia)) as (b & Hb & Hc & _).
  injection Hb as <-. exists (pct_fee 2020000 115). split; [exact Hc|vm_compute; reflexivity].
Defined.

Lemma fee_monotone_witness :
  compute_fee (ArgInt 1000) qr_rule = Ok (12, "frule_demo"%string) /\ 12 <= 23230.
Proof.
  split; [vm_compute; reflexivity|].
  apply (fee_monotone qr_rule 1000 2020000 12 23230 "frule_demo" "frule_demo");
    [reflexivity|lia|lia|vm_compute; reflexivity|vm_compute; reflexivity].
Defined.

Lemma most_specific_rule_wins_witness : exists r,
  resolve_fee_rule "mrc_1" None None None [qr_rule] "BANGLA_QR" (utc_midnight (2025, 3, 1)) = Ok r /\
  r ∈ [qr_rule].
Proof.
  pose proof (most_specific_rule_wins "mrc_1" None None None [qr_rule] "BANGLA_QR"
    (utc_midnight (2025, 3, 1)) [qr_rule] ltac:(vm_compute; reflexivity)) as [_ Hm].
  destruct (resolve_fee_rule _ _ _ _ _ _ _) as [r|e] eqn:Hr.
  - destruct Hm as (i & p & _ & Hin & _). exists r. split; [reflexivity|exact Hin].
  - vm_compute in Hr. discriminate Hr.
Defined.

(** A card rule for credit instruments of any merchant: it is never chosen, and
    the call fails though the rule is active and its wildcards match. *)
Definition credit_rule : FeeRule :=
  mk_FeeRule "frule_credit" "Card credit" None "CARD_DOMESTIC" None "PERCENTAGE" (Some 250) None
    false (utc_midnight (2025, 2, 1)) None "system" None (utc_midnight (2025, 2, 1)) 1
    None (Some "CREDIT"%string).

Example credit_rule_unused :
  valid_rule credit_rule /\
  resolve_fee_rule "mrc_1" None (Some "MICRO"%string) (Some "CREDIT"%string) [credit_rule]
    "CARD_DOMESTIC" (utc_midnight (2025, 3, 1)) = Err FeeRuleError.
Proof. split; vm_compute; reflexivity. Qed.

Definition tiered : FeeRule :=
  mk_FeeRule "frule_t" "Micro credit" None "BANGLA_QR" None "PERCENTAGE" (Some 115) None
    true (utc_midnight (2025, 2, 6)) None "system" None (utc_midnight (2025, 2, 6)) 1
    (Some "MICRO"%string) (Some "CREDIT"%string).

Lemma instrument_only_rule_is_dead_witness : fr_merchant_class tiered <> None.
Proof.
  apply (instrument_only_rule_is_dead "mrc_1" None (Some "MICRO"%string) (Some "CREDIT"%string)
    [tiered; credit_rule] "BANGLA_QR" (utc_midnight (2025, 3, 1)) tiered "CREDIT");
    vm_compute; reflexivity.
Defined.
