(* ===== verification/WindowMath.v ===== *)
(** Settlement-window netting (ledger/replay/window_math.py): per-participant
    positions re-derived from the postings of a window, the obligations and the
    instruction plan computed from them, and the canonical result document. *)
From S2P Require Import Prelude Exceptions DateTime Sha256 Canonical LedgerTypes.
Open Scope Z_scope.

Record AttributedEntry : Type := mk_AttributedEntry {
  ae_entry : JournalEntryRow;
  ae_postings : list PostingRow;
  ae_settlement_window_id : string
}.

Record PositionDerivation : Type := mk_PositionDerivation {
  pd_participant_id : string;
  net_position_minor : Z;
  contributing_entry_ids : list string
}.

#[export] Instance PositionDerivation_eq_dec : EqDecision PositionDerivation.
Proof. solve_decision. Defined.

Definition SUITE_VERSION : string := "netting-v1".

Definition RESULT_DOCUMENT_KEYS : list string :=
  ["settlement_window_id"; "dns_session"; "window_date"; "suite"; "chain_index_at_compute";
   "chain_hash_at_compute"; "positions"; "obligations"; "total_gross_minor";
   "total_net_pay_minor"; "instruction_plan"].

Definition _ANCHOR_KEYS : list string := ["chain_index_at_compute"; "chain_hash_at_compute"].

(** CREDIT counts up, anything else counts down. *)
Definition position_delta (p : PostingRow) : Z :=
  if String.eqb (po_side p) "CREDIT" then po_amount_minor p else - po_amount_minor p.

(** The two dicts of [derive_positions]: [nets] and [contributing]. *)
Record Nets : Type := mk_Nets { nets : gmap string Z; contributing : gmap string (list string) }.

Section Derive.
Context (participant_for_account : string -> option string).

(** The body of the inner loop. *)
Definition derive_posting (entry_id : string) (st : Nets) (p : PostingRow) : Nets :=
  match participant_for_account (po_account_id p) with
  | None => st
  | Some participant_id =>
      let seen := default [] (contributing st !! participant_id) in
      mk_Nets
        (<[participant_id := default 0 (nets st !! participant_id) + position_delta p]> (nets st))
        (<[participant_id := if decide (entry_id ∈ seen) then seen else seen ++ [entry_id]]>
           (contributing st))
  end.

Definition derive_entry (st : Nets) (a : AttributedEntry) : Nets :=
  fold_left (derive_posting (je_entry_id (ae_entry a))) (ae_postings a) st.

Definition derive_positions (entries : list AttributedEntry) : list PositionDerivation :=
  let st := fold_left derive_entry entries (mk_Nets ∅ ∅) in
  (fun participant_id =>
     mk_PositionDerivation participant_id (default 0 (nets st !! participant_id))
       (sorted_strings (default [] (contributing st !! participant_id))))
  <$> sorted_strings (map_to_list (nets st)).*1.

Definition total_gross_minor (entries : list AttributedEntry) : Z :=
  sumZ (fun a => sumZ (fun p =>
    match participant_for_account (po_account_id p) with
    | None => 0
    | Some _ => po_amount_minor p
    end) (ae_postings a)) entries.
End Derive.

Definition by_participant (positions : list PositionDerivation) : list PositionDerivation :=
  sort_by String.le pd_participant_id positions.

Definition position_list (positions : list PositionDerivation) : pyobj :=
  PList ((fun p => dict [("participant_id", PStr (pd_participant_id p));
                         ("net_position_minor", PInt (net_position_minor p))])
         <$> by_participant positions).

Definition zero_sum_delta (positions : list PositionDerivation) : Z :=
  sumZ net_position_minor positions.

Inductive Direction : Type := PAY | RECEIVE | FLAT.

#[export] Instance Direction_eq_dec : EqDecision Direction.
Proof. solve_decision. Defined.

Definition direction_str (d : Direction) : string :=
  match d with PAY => "PAY" | RECEIVE => "RECEIVE" | FLAT => "FLAT" end.

Record Obligation : Type := mk_Obligation {
  o_participant_id : string;
  o_net_position_minor : Z;
  o_direction : Direction;
  obligation_minor : Z
}.

Definition obligation_of (p : PositionDerivation) : Obligation :=
  let net := net_position_minor p in
  let '(direction, obligation) :=
    if net <? 0 then (PAY, - net) else if 0 <? net then (RECEIVE, net) else (FLAT, 0) in
  mk_Obligation (pd_participant_id p) net direction obligation.

Definition obligations_from_positions (positions : list PositionDerivation) : list Obligation :=
  obligation_of <$> by_participant positions.

Definition total_net_pay_minor (obligations : list Obligation) : Z :=
  sumZ obligation_minor (filter (fun o => o_direction o = PAY) obligations).

Record InstructionRow : Type := mk_InstructionRow {
  ir_participant_id : string;
  ir_direction : Direction;
  ir_amount_minor : Z;
  ir_rail : string;
  ir_ref_key : string;
  ir_ref : string
}.

Definition build_instruction_plan (rail : string) (settlement_account_token : string -> string)
    (obligations : list Obligation) : list InstructionRow :=
  omap (fun o =>
    if decide (o_direction o = FLAT) then None
    else Some (mk_InstructionRow (o_participant_id o) (o_direction o) (obligation_minor o) rail
      (if decide (o_direction o = PAY) then "sender_ref" else "beneficiary_ref")
      (settlement_account_token (o_participant_id o)))) obligations.

(** The dicts of the document. *)
Definition obligation_dict (o : Obligation) : pyobj :=
  dict [("participant_id", PStr (o_participant_id o));
        ("net_position_minor", PInt (o_net_position_minor o));
        ("direction", PStr (direction_str (o_direction o)));
        ("obligation_minor", PInt (obligation_minor o))].

Definition instruction_dict (r : InstructionRow) : pyobj :=
  dict [("participant_id", PStr (ir_participant_id r));
        ("direction", PStr (direction_str (ir_direction r)));
        ("amount_minor", PInt (ir_amount_minor r)); ("rail", PStr (ir_rail r));
        (ir_ref_key r, PStr (ir_ref r))].

Section Documents.
Context `{HashFn}.

Definition REPLAY_LOCAL_PREFIXES : list string := ["dxp"; "nrun"].

Definition make_replay_id (prefix : string) (payload : pyobj) : res exn string :=
  if str_in prefix PREFIXES || str_in prefix LEDGER_INTERNAL_PREFIXES
  then make_ledger_id prefix payload
  else
    raise IdPrefixError when (negb (str_in prefix REPLAY_LOCAL_PREFIXES)) else
    raise TypeError when (negb (is_dict payload)) else
    let* h := sha256_canonical payload in
    Ok (prefix +:+ "_" +:+ str_take HASH_LENGTH h).

Definition inputs_hash_for (positions : list PositionDerivation) : res exn string :=
  sha256_canonical (position_list positions).

Definition make_netting_run_id (settlement_window_id inputs_hash : string) : res exn string :=
  make_replay_id "nrun"
    (dict [("settlement_window_id", PStr settlement_window_id); ("inputs_hash", PStr inputs_hash)]).

(** The document is a dict with string keys, here its items in order. *)
Definition build_result_document (settlement_window_id dns_session window_date : string)
    (chain_index_at_compute : Z) (chain_hash_at_compute : string)
    (positions : list PositionDerivation) (obligations : list Obligation)
    (gross_minor net_pay_minor : Z) (instruction_plan : list InstructionRow) :
    res exn (list (string * pyobj)) :=
  let document :=
    [("settlement_window_id"%string, PStr settlement_window_id);
     ("dns_session"%string, PStr dns_session); ("window_date"%string, PStr window_date);
     ("suite"%string, PStr SUITE_VERSION);
     ("chain_index_at_compute"%string, PInt chain_index_at_compute);
     ("chain_hash_at_compute"%string, PStr chain_hash_at_compute);
     ("positions"%string, position_list positions);
     ("obligations"%string, PList (obligation_dict <$> obligations));
     ("total_gross_minor"%string, PInt gross_minor);
     ("total_net_pay_minor"%string, PInt net_pay_minor);
     ("instruction_plan"%string, PList (instruction_dict <$> instruction_plan))] in
  raise ReplayError
    when (negb (bool_decide ((list_to_set document.*1 : gset string) =
                             list_to_set RESULT_DOCUMENT_KEYS))) else
  let* _ := canonical_json (dict document) in
  Ok document.

Definition result_hash_for (document : list (string * pyobj)) : res exn string :=
  sha256_canonical (dict document).

Definition result_core (document : list (string * pyobj)) : list (string * pyobj) :=
  filter (fun kv => kv.1 ∉ _ANCHOR_KEYS) document.
End Documents.

(** * Positions are net sums *)

Section Positions.
Context (pfa : string -> option string).

(** The movements of a window: each posting with the id of its entry. *)
Definition movements (entries : list AttributedEntry) : list (string * PostingRow) :=
  a ← entries; (fun p => (je_entry_id (ae_entry a), p)) <$> ae_postings a.

Definition owner (m : string * PostingRow) : option string := pfa (po_account_id m.2).

(** What a movement adds to the position of [q]. *)
Definition share (q : string) (m : string * PostingRow) : Z :=
  if decide (owner m = Some q) then position_delta m.2 else 0.

Definition derive_move (st : Nets) (m : string * PostingRow) : Nets :=
  derive_posting pfa m.1 st m.2.

Lemma derive_entries_moves entries : forall st,
  fold_left (derive_entry pfa) entries st = fold_left derive_move (movements entries) st.
Proof.
  induction entries as [|a entries IH]; intros st; [done|]. cbn [fold_left].
  rewrite (fold_left_app derive_move
    ((fun p => (je_entry_id (ae_entry a), p)) <$> ae_postings a) (movements entries) st
    : fold_left derive_move (movements (a :: entries)) st = _).
  rewrite IH. f_equal. unfold derive_entry. generalize (ae_postings a). clear IH.
  intros ps. revert st. induction ps as [|p ps IHp]; intros st; [done|]. apply IHp.
Qed.

Lemma exists_snoc (P : string * PostingRow -> Prop) l m : Exists P (l ++ [m]) <-> Exists P l \/ P m.
Proof. by rewrite Exists_app, Exists_cons, Exists_nil, (right_id False or). Qed.

(** What the two dicts hold for one participant after the movements [l]. *)
Record tracks (q : string) (l : list (string * PostingRow)) (net : option Z)
    (ids : option (list string)) : Prop := {
  tr_net : net = if decide (Exists (fun m => owner m = Some q) l)
                 then Some (sumZ (share q) l) else None;
  tr_some : is_Some ids <-> Exists (fun m => owner m = Some q) l;
  tr_nodup : NoDup (default [] ids);
  tr_ids : forall e, e ∈ default [] ids <-> Exists (fun m => owner m = Some q /\ m.1 = e) l
}.

Lemma share_other q l : ~ Exists (fun m => owner m = Some q) l -> sumZ (share q) l = 0.
Proof.
  intros Hn. apply sumZ_zero. intros m Hm. unfold share. rewrite decide_False; [done|].
  intros Ho. apply Hn, Exists_exists. eauto.
Qed.

Lemma tracks_skip q l m net ids :
  owner m <> Some q -> tracks q l net ids -> tracks q (l ++ [m]) net ids.
Proof.
  intros Ho [Hn Hs Hnd He].
  assert (Hex : Exists (fun m => owner m = Some q) (l ++ [m]) <-> Exists (fun m => owner m = Some q) l).
  { rewrite exists_snoc. split; [by intros [?|?]|auto]. }
  split; [|by rewrite Hex|done|].
  - rewrite Hn, (decide_ext _ _ _ _ Hex), sumZ_app. simpl. unfold share at 3.
    rewrite (decide_False (P := owner m = Some q)) by done. by rewrite !Z.add_0_r.
  - intros e. rewrite exists_snoc, He. split; [auto|by intros [?|[? _]]].
Qed.

Lemma tracks_step q l m net ids :
  owner m = Some q -> tracks q l net ids ->
  let seen := default [] ids in
  tracks q (l ++ [m]) (Some (default 0 net + position_delta m.2))
    (Some (if decide (m.1 ∈ seen) then seen else seen ++ [m.1])).
Proof.
  intros Ho [Hn Hs Hnd He] seen. fold seen in Hnd, He. clearbody seen. split.
  - rewrite decide_True by (apply exists_snoc; auto). f_equal. rewrite sumZ_app. simpl.
    unfold share at 2. rewrite decide_True by done. rewrite Hn.
    case_decide as Hex; simpl; [lia|]. rewrite (share_other q l Hex). lia.
  - rewrite exists_snoc. split; [auto|eauto].
  - clear Hn. cbn [default from_option id]. case_decide as Hm; [done|]. apply NoDup_app.
    split_and!; [done| |apply NoDup_singleton]. by intros x Hx ->%list_elem_of_singleton.
  - clear Hn. intros e. cbn [default from_option id]. rewrite exists_snoc, <- He.
    case_decide as Hm; [|rewrite elem_of_app, list_elem_of_singleton].
    + split; [auto|]. by intros [?|[_ <-]].
    + split; [intros [?| ->]; auto|intros [?|[_ <-]]; auto].
Qed.

Lemma derive_tracks q l :
  let st := fold_left derive_move l (mk_Nets ∅ ∅) in
  tracks q l (nets st !! q) (contributing st !! q).
Proof.
  induction l as [|m l IH] using rev_ind; simpl.
  - rewrite !lookup_empty. split; simpl; rewrite ?Exists_nil; [done|split; [by intros []|done]|constructor|].
    intros e. rewrite Exists_nil. split; [by intros ?%not_elem_of_nil|done].
  - rewrite fold_left_app. cbn [fold_left].
    set (st := fold_left derive_move l (mk_Nets ∅ ∅)) in *.
    unfold derive_move, derive_posting. fold (owner m).
    destruct (owner m) as [q'|] eqn:Ho; [|by apply tracks_skip; [congruence|]].
    cbn [nets contributing]. destruct (decide (q' = q)) as [->|Hne].
    + rewrite !lookup_insert_eq. by apply tracks_step.
    + rewrite !lookup_insert_ne by done. by apply tracks_skip; [congruence|].
Qed.

(** The final state of the loops over a window. *)
Definition window (l : list (string * PostingRow)) : Nets := fold_left derive_move l (mk_Nets ∅ ∅).

Definition position_of (st : Nets) (q : string) : PositionDerivation :=
  mk_PositionDerivation q (default 0 (nets st !! q))
    (sorted_strings (default [] (contributing st !! q))).

Lemma derive_positions_window entries :
  derive_positions pfa entries =
  position_of (window (movements entries)) <$>
    sorted_strings (map_to_list (nets (window (movements entries)))).*1.
Proof. unfold derive_positions, window. by rewrite derive_entries_moves. Qed.

Lemma elem_of_net_keys l q :
  q ∈ (map_to_list (nets (window l))).*1 <-> Exists (fun m => owner m = Some q) l.
Proof.
  pose proof (tr_net _ _ _ _ (derive_tracks q l)) as Hn. fold (window l) in Hn.
  rewrite list_elem_of_fmap. split.
  - intros ([k v] & -> & Hin%elem_of_map_to_list). simpl in *. rewrite Hin in Hn. by case_decide.
  - intros He. rewrite decide_True in Hn by done. exists (q, sumZ (share q) l).
    split; [done|]. by apply elem_of_map_to_list.
Qed.

Lemma net_keys_nodup (m : gmap string Z) : NoDup (map_to_list m).*1.
Proof. apply NoDup_fst_map_to_list. Qed.

Lemma window_net l q : default 0 (nets (window l) !! q) = sumZ (share q) l.
Proof.
  pose proof (tr_net _ _ _ _ (derive_tracks q l)) as Hn. fold (window l) in Hn. rewrite Hn.
  case_decide as He; [done|]. simpl. symmetry. by apply share_other.
Qed.

(** Positions are net sums.  The derived positions are sorted by participant
    without repetition, one for each participant with a movement in the window;
    each nets credits minus debits over exactly that participant's postings, and
    lists exactly the entries that moved it. *)
Theorem positions_are_net_sums entries :
  let ps := derive_positions pfa entries in
  let l := movements entries in
  StronglySorted String.le (pd_participant_id <$> ps) /\ NoDup (pd_participant_id <$> ps) /\
  (forall q, q ∈ pd_participant_id <$> ps <-> Exists (fun m => owner m = Some q) l) /\
  (forall p, p ∈ ps -> net_position_minor p = sumZ (share (pd_participant_id p)) l /\
     NoDup (contributing_entry_ids p) /\
     forall e, e ∈ contributing_entry_ids p <->
       Exists (fun m => owner m = Some (pd_participant_id p) /\ m.1 = e) l).
Proof.
  intros ps l. subst ps. rewrite derive_positions_window. fold l.
  rewrite <- list_fmap_compose. change (pd_participant_id ∘ position_of (window l)) with (@id string).
  rewrite list_fmap_id. split_and!.
  - apply (sort_by_sorted String.le id).
  - unfold sorted_strings. rewrite sort_by_perm. apply net_keys_nodup.
  - intros q. rewrite elem_of_sorted. apply elem_of_net_keys.
  - intros p (q & -> & Hq)%list_elem_of_fmap. cbn [position_of net_position_minor pd_participant_id
      contributing_entry_ids]. split; [apply window_net|].
    pose proof (derive_tracks q l) as [_ _ Hnd He]. fold (window l) in Hnd, He.
    split; [unfold sorted_strings; by rewrite sort_by_perm|]. intros e. by rewrite elem_of_sorted.
Qed.

(** Netting does not depend on order.  Two windows with the same movements,
    in whatever order entries and postings were read, have the same positions. *)
Theorem netting_is_order_independent entries entries' :
  movements entries ≡ₚ movements entries' ->
  derive_positions pfa entries = derive_positions pfa entries'.
Proof.
  intros Hp. rewrite !derive_positions_window.
  set (l := movements entries) in *. set (l' := movements entries') in *. clearbody l l'.
  assert (Hkeys : (map_to_list (nets (window l))).*1 ≡ₚ (map_to_list (nets (window l'))).*1).
  { apply NoDup_Permutation; [apply net_keys_nodup..|]. intros q. by rewrite !elem_of_net_keys, Hp. }
  rewrite (sorted_strings_perm _ _ (net_keys_nodup _) Hkeys).
  apply list_fmap_ext. intros i q Hq. unfold position_of. f_equal.
  - by rewrite !window_net, Hp.
  - destruct (derive_tracks q l) as [_ _ Hnd He], (derive_tracks q l') as [_ _ Hnd' He'].
    apply sorted_strings_perm; [done|]. apply NoDup_Permutation; [done..|]. intros e. by rewrite He, He', Hp.
Qed.

Definition moved (m : string * PostingRow) : Z :=
  match owner m with Some _ => position_delta m.2 | None => 0 end.

Lemma positions_sum entries :
  zero_sum_delta (derive_positions pfa entries) = sumZ moved (movements entries).
Proof.
  unfold zero_sum_delta. rewrite derive_positions_window.
  set (l := movements entries). unfold sorted_strings.
  rewrite sumZ_fmap, sort_by_perm.
  rewrite (sumZ_ext _ (fun q => sumZ (share q) l)) by (intros q _; apply window_net).
  rewrite sumZ_swap. apply sumZ_ext. intros m Hm. unfold moved, share.
  destruct (owner m) as [q|] eqn:Ho.
  - rewrite (sumZ_single _ _ q); [by rewrite decide_True|apply net_keys_nodup| |].
    + apply elem_of_net_keys, Exists_exists. eauto.
    + intros y _ Hy. rewrite decide_False by congruence. done.
  - apply sumZ_zero. intros q _. by rewrite decide_False.
Qed.

(** The zero-sum invariant.  If within each entry of the window the movements
    on participant positions balance, the positions sum to zero. *)
Theorem positions_sum_to_zero entries :
  Forall (fun a => sumZ (fun p => moved (je_entry_id (ae_entry a), p)) (ae_postings a) = 0) entries ->
  zero_sum_delta (derive_positions pfa entries) = 0.
Proof.
  intros Hall. rewrite positions_sum. induction Hall as [|a entries Ha _ IH]; [done|].
  rewrite (sumZ_app moved ((fun p => (je_entry_id (ae_entry a), p)) <$> ae_postings a) (movements entries)
    : sumZ moved (movements (a :: entries)) = _).
  by rewrite sumZ_fmap, IH, Ha.
Qed.
End Positions.

(** * Obligations *)

Definition total_receive (obligations : list Obligation) : Z :=
  sumZ obligation_minor (filter (fun o => o_direction o = RECEIVE) obligations).

Lemma obligation_cases p :
  obligation_minor (obligation_of p) = Z.abs (net_position_minor p) /\
  o_net_position_minor (obligation_of p) = net_position_minor p /\
  (o_direction (obligation_of p) = PAY <-> net_position_minor p < 0) /\
  (o_direction (obligation_of p) = RECEIVE <-> 0 < net_position_minor p).
Proof.
  unfold obligation_of. destruct (Z.ltb_spec (net_position_minor p) 0); simpl.
  { split_and!; [lia|done|split; [lia|done]|split; [done|lia]]. }
  destruct (Z.ltb_spec 0 (net_position_minor p)); simpl;
    split_and!; try done; try lia; split; try done; lia.
Qed.

Lemma pay_receive_split positions :
  total_receive (obligations_from_positions positions) -
  total_net_pay_minor (obligations_from_positions positions) = zero_sum_delta positions.
Proof.
  unfold total_receive, total_net_pay_minor, obligations_from_positions, zero_sum_delta.
  rewrite !sumZ_filter_if, !sumZ_fmap, <- sumZ_sub. unfold by_participant. rewrite sort_by_perm.
  apply sumZ_ext. intros p _. simpl.
  destruct (obligation_cases p) as (-> & _ & Hp & Hr).
  rewrite (decide_ext _ _ _ _ Hp), (decide_ext _ _ _ _ Hr).
  repeat case_decide; lia.
Qed.

(** What is paid is received.  The pay obligations sum to the receive
    obligations exactly when the positions sum to zero; each obligation is the
    absolute position, and the instruction plan carries one row per non-flat
    participant with those same totals. *)
Theorem pay_equals_receive positions rail token :
  let obligations := obligations_from_positions positions in
  let plan := build_instruction_plan rail token obligations in
  let total d := sumZ ir_amount_minor (filter (fun r => ir_direction r = d) plan) in
  (total_net_pay_minor obligations = total_receive obligations <-> zero_sum_delta positions = 0) /\
  total PAY = total_net_pay_minor obligations /\ total RECEIVE = total_receive obligations /\
  total FLAT = 0.
Proof.
  intros obligations plan total. split.
  { pose proof (pay_receive_split positions). subst obligations. lia. }
  assert (Hplan : forall d, d <> FLAT ->
    total d = sumZ obligation_minor (filter (fun o => o_direction o = d) obligations)).
  { intros d Hd. subst total plan. simpl. clear -Hd. induction obligations as [|o l IH]; [done|].
    unfold build_instruction_plan in *. cbn [omap list_omap].
    case_decide as Hf; rewrite !filter_cons; simpl.
    - rewrite (decide_False (P := o_direction o = d)) by congruence. exact IH.
    - case_decide; simpl; [by rewrite IH|exact IH]. }
  split_and!; [by apply Hplan..|].
  subst total plan. simpl. unfold build_instruction_plan. clear Hplan.
  induction obligations as [|o l IH]; [done|]. cbn [omap list_omap].
  case_decide as Hf; [exact IH|]. rewrite filter_cons. simpl.
  by rewrite decide_False.
Qed.

(** * A window of two banks *)

Definition demo_time : datetime := mk_datetime true 63918000300007000.
Definition demo_owner (account : string) : option string :=
  if String.eqb account "acct_a" then Some "BANK_A"%string
  else if String.eqb account "acct_b" then Some "BANK_B"%string else None.
Definition demo_move (id from to : string) (amount : Z) : AttributedEntry :=
  mk_AttributedEntry
    (mk_JournalEntryRow id 1 "ref" "WINDOW" "position" "" "kernel" demo_time id 1)
    [mk_PostingRow (id +:+ "d") id from "DEBIT" amount "BDT" demo_time 1;
     mk_PostingRow (id +:+ "c") id to "CREDIT" amount "BDT" demo_time 1] "win_1".
Definition demo_window : list AttributedEntry :=
  [demo_move "e1" "acct_a" "acct_b" 700; demo_move "e2" "acct_b" "acct_a" 200].

Example demo_window_positions :
  derive_positions demo_owner demo_window =
  [mk_PositionDerivation "BANK_A" (-500) ["e1"; "e2"]%string;
   mk_PositionDerivation "BANK_B" 500 ["e1"; "e2"]%string].
Proof. vm_compute. reflexivity. Qed.

Lemma netting_is_order_independent_witness :
  derive_positions demo_owner demo_window = derive_positions demo_owner (rev demo_window).
Proof.
  apply (netting_is_order_independent demo_owner).
  apply (Permutation_app_comm (movements [demo_move "e1" "acct_a" "acct_b" 700])
           (movements [demo_move "e2" "acct_b" "acct_a" 200])).
Defined.

Lemma positions_sum_to_zero_witness :
  zero_sum_delta (derive_positions demo_owner demo_window) = 0.
Proof.
  apply (positions_sum_to_zero demo_owner). repeat constructor.
Defined.
