(* ===== verification/Calendar.v ===== *)
(** The Bangladesh Bank calendar (platform/scheduler.py) and working-day
    arithmetic (ledger/calendar_ext.py).  A date is its proleptic ordinal, day 0
    being 0001-01-01, a Monday; a time of day is the microseconds since midnight.
    The time zone data of Asia/Dhaka is an interface. *)
From S2P Require Import Prelude Exceptions DateTime.
Open Scope Z_scope.

(** Friday and Saturday. *)
Definition _WEEKEND : list Z := [4; 5].

Definition weekday (day : Z) : Z := day mod 7.

Definition hm (h m : Z) : Z := (h * 60 + m) * 60000000.

(** [BD_PUBLIC_HOLIDAYS_2026] *)
Definition BD_PUBLIC_HOLIDAYS_2026 : list Z :=
  (fun md : Z * Z => ymd2ord (2026, md.1, md.2)) <$>
  [(2, 2); (2, 21); (3, 19); (3, 22); (3, 23); (3, 26); (4, 14); (5, 1); (5, 3); (5, 26); (5, 27); (5, 28); (6, 25);
   (8, 26); (10, 20); (12, 16); (12, 25)].

Definition WINDOW_GATES : list string := ["ALWAYS"; "BEFTN_SESSION"; "RTGS_HOURS"; "NPSB_24_7"].

Inductive BeftnSession : Type := MORNING | AFTERNOON | END_OF_DAY.

Record BangladeshBankCalendar : Type := mk_Calendar {
  holidays : list Z;
  rtgs_open : Z;
  rtgs_close : Z;
  beftn_cutoff : Z
}.

Inductive cal_error : Type := CalValueError | CalOverflow.

(** [BangladeshBankCalendar.__init__] *)
Definition bangladesh_bank_calendar (hs : list Z) (ropen rclose cutoff : Z) : res cal_error BangladeshBankCalendar :=
  raise CalValueError when (rclose <=? ropen) else Ok (mk_Calendar hs ropen rclose cutoff).

Definition default_calendar : BangladeshBankCalendar :=
  mk_Calendar BD_PUBLIC_HOLIDAYS_2026 (hm 9 30) (hm 15 30) (hm 12 30).

Definition last_day : Z := 3652058.

(** [day + timedelta(days=1)] *)
Definition next_day (day : Z) : res cal_error Z := raise CalOverflow when (last_day <=? day) else Ok (day + 1).

(** [ZoneInfo("Asia/Dhaka")]: the offset in force at a UTC instant and at a local
    wall-clock reading, in microseconds. *)
Class DhakaTz : Type := {
  offset_at : Z -> Z;
  offset_local : Z -> Z
}.

Definition six_hours : Z := hm 6 0.

Section Calendar.
Context (cal : BangladeshBankCalendar).

Definition is_working_day (day : Z) : bool :=
  negb (bool_decide (weekday day ∈ _WEEKEND)) && negb (bool_decide (day ∈ holidays cal)).

(** The loop of [next_working_day]; [None] is a loop that has not ended. *)
Fixpoint skip_days (fuel : nat) (candidate : Z) : option (res cal_error Z) :=
  match fuel with
  | O => None
  | S fuel' =>
      if is_working_day candidate then Some (Ok candidate)
      else match next_day candidate with
           | Err e => Some (Err e)
           | Ok c => skip_days fuel' c
           end
  end.

(** Enough turns: a week has five weekdays, and every other turn spends a holiday. *)
Definition calendar_fuel : nat := 7 * (length (holidays cal) + 1).

Definition next_working_day (day : Z) : res cal_error Z :=
  let* candidate := next_day day in
  match skip_days calendar_fuel candidate with Some r => r | None => Err CalValueError end.

Fixpoint advance (n : nat) (day : Z) : res cal_error Z :=
  match n with O => Ok day | S n' => let* d := next_working_day day in advance n' d end.

Definition add_working_days (day n : Z) : res cal_error Z :=
  raise CalValueError when (n <? 0) else
  if n =? 0 then (if is_working_day day then Ok day else next_working_day day) else advance (Z.to_nat n) day.

(** The working days of [(start, start + n]]. *)
Fixpoint count_days (n : nat) (start : Z) : Z :=
  match n with
  | O => 0
  | S n' => (if is_working_day (start + 1) then 1 else 0) + count_days n' (start + 1)
  end.

Definition business_days_between (start end_ : Z) : Z :=
  if end_ <=? start then 0 else count_days (Z.to_nat (end_ - start)) start.

Context `{DhakaTz}.

(** [_local(at)]: the wall-clock reading in Dhaka. *)
Definition _local (at_ : datetime) : res cal_error Z :=
  raise CalValueError when (negb (tz_aware at_)) else Ok (micros at_ + offset_at (micros at_)).

Definition local_date (l : Z) : Z := l / micros_per_day.
Definition local_time (l : Z) : Z := l mod micros_per_day.

(** [datetime.combine(day, t, tzinfo=DHAKA_TZ).astimezone(UTC)] *)
Definition combine_utc (day t : Z) : datetime :=
  let l := day * micros_per_day + t in mk_datetime true (l - offset_local l).

Definition beftn_session (at_ : datetime) : res cal_error (option BeftnSession) :=
  let* l := _local at_ in
  Ok (if negb (is_working_day (local_date l)) then None
      else if local_time l <? hm 12 0 then Some MORNING
      else if local_time l <? hm 15 0 then Some AFTERNOON else Some END_OF_DAY).

Definition is_beftn_same_day (at_ : datetime) : res cal_error bool :=
  let* l := _local at_ in Ok (is_working_day (local_date l) && (local_time l <? beftn_cutoff cal)).

Definition next_beftn_cutoff (at_ : datetime) : res cal_error datetime :=
  let* l := _local at_ in
  let* day := (if negb (is_working_day (local_date l)) || (beftn_cutoff cal <=? local_time l)
               then next_working_day (local_date l) else Ok (local_date l)) in
  Ok (combine_utc day (beftn_cutoff cal)).

Definition is_rtgs_open (at_ : datetime) : res cal_error bool :=
  let* l := _local at_ in
  Ok (is_working_day (local_date l) && ((rtgs_open cal <=? local_time l) && (local_time l <? rtgs_close cal))).

Definition next_rtgs_open (at_ : datetime) : res cal_error datetime :=
  let* l := _local at_ in
  let* open := is_rtgs_open at_ in
  if open then Ok at_
  else
    let* day := (if negb (is_working_day (local_date l)) || (rtgs_open cal <=? local_time l)
                 then next_working_day (local_date l) else Ok (local_date l)) in
    Ok (combine_utc day (rtgs_open cal)).

Definition is_window_open (gate : string) (at_ : datetime) : res cal_error bool :=
  if String.eqb gate "ALWAYS" || String.eqb gate "NPSB_24_7" then
    raise CalValueError when (negb (tz_aware at_)) else Ok true
  else if String.eqb gate "RTGS_HOURS" then is_rtgs_open at_
  else if String.eqb gate "BEFTN_SESSION" then
    let* s := beftn_session at_ in Ok (match s with Some _ => true | None => false end)
  else Err CalValueError.

Definition business_day_start_utc (day : Z) : datetime := combine_utc day (hm 9 0).
End Calendar.

(** * Facts *)

Section Facts.
Context (cal : BangladeshBankCalendar).

(** The weekdays among the days [d .. d + n - 1]. *)
Fixpoint day_range (n : nat) (d : Z) : list Z := match n with O => [] | S n' => d :: day_range n' (d + 1) end.

Lemma elem_of_range n : forall d x, x ∈ day_range n d <-> d <= x < d + Z.of_nat n.
Proof.
  induction n as [|n IH]; intros d x; cbn [day_range]; [rewrite elem_of_nil; lia|]. rewrite elem_of_cons, IH. lia.
Qed.

Lemma range_nodup n : forall d, NoDup (day_range n d).
Proof.
  induction n as [|n IH]; intros d; cbn [day_range]; constructor; [|done]. rewrite elem_of_range. lia.
Qed.

Definition weekend (d : Z) : bool := bool_decide (weekday d ∈ _WEEKEND).

Fixpoint weekdays (n : nat) (d : Z) : nat :=
  match n with O => 0 | S n' => (if weekend d then 0 else 1) + weekdays n' (d + 1) end.

Lemma weekdays_mod n : forall d, weekdays n d = weekdays n (d mod 7).
Proof.
  induction n as [|n IH]; intros d; cbn [weekdays]; [done|]. f_equal.
  - unfold weekend, weekday. by rewrite Zmod_mod.
  - rewrite (IH (d + 1)), (IH (d mod 7 + 1)). by rewrite Zplus_mod_idemp_l.
Qed.

Lemma week_weekdays d : weekdays 7 d = 5%nat.
Proof.
  rewrite weekdays_mod.
  assert (Hr : d mod 7 = 0 \/ d mod 7 = 1 \/ d mod 7 = 2 \/ d mod 7 = 3 \/ d mod 7 = 4 \/ d mod 7 = 5 \/ d mod 7 = 6) by lia.
  destruct Hr as [->|[->|[->|[->|[->|[->| ->]]]]]]; vm_compute; reflexivity.
Qed.

Lemma weekdays_add n m : forall d, weekdays (n + m) d = (weekdays n d + weekdays m (d + Z.of_nat n))%nat.
Proof.
  induction n as [|n IH]; intros d; cbn [weekdays Nat.add]; [by rewrite Z.add_0_r|].
  rewrite IH. replace (d + 1 + Z.of_nat n) with (d + Z.of_nat (S n)) by lia. lia.
Qed.

Lemma weeks_weekdays k : forall d, weekdays (7 * k) d = (5 * k)%nat.
Proof.
  induction k as [|k IH]; intros d; [done|]. replace (7 * S k)%nat with (7 + 7 * k)%nat by lia.
  rewrite weekdays_add, week_weekdays, IH. lia.
Qed.

(** A run of days without a working day spends a holiday on every weekday. *)
Lemma idle_run_holidays n : forall d, (forall x, d <= x < d + Z.of_nat n -> is_working_day cal x = false) ->
  exists l, NoDup l /\ length l = weekdays n d /\ l ⊆ holidays cal /\ (forall x, x ∈ l -> d <= x).
Proof.
  induction n as [|n IH]; intros d Hd; cbn [weekdays].
  { exists []. split_and!; [constructor|done|by intros ? ?%not_elem_of_nil..]. }
  destruct (IH (d + 1)) as (l & Hnd & Hlen & Hsub & Hge); [intros x Hx; apply Hd; lia|].
  destruct (weekend d) eqn:Hw.
  - exists l. split_and!; try done. intros x Hx. specialize (Hge x Hx). lia.
  - exists (d :: l). split_and!; [| |..].
    + constructor; [|done]. intros Hin%Hge. lia.
    + cbn. lia.
    + intros x [->|Hx]%elem_of_cons; [|by apply Hsub]. specialize (Hd d ltac:(lia)). unfold is_working_day in Hd.
      unfold weekend in Hw. rewrite Hw in Hd. cbn in Hd. bool_prop. done.
    + intros x [->|Hx]%elem_of_cons; [lia|]. specialize (Hge x Hx). lia.
Qed.

(** The fuel is enough: [7 * (h + 1)] idle days would need [5 * (h + 1)] holidays. *)
Lemma no_idle_run d : exists x, d <= x < d + Z.of_nat (calendar_fuel cal) /\ is_working_day cal x = true.
Proof.
  destruct (decide (Exists (fun x => is_working_day cal x = true) (day_range (calendar_fuel cal) d))) as [He|Hn].
  - apply Exists_exists in He as (x & Hx & Hw). exists x. split; [by apply elem_of_range|done].
  - exfalso. destruct (idle_run_holidays (calendar_fuel cal) d) as (l & Hnd & Hlen & Hsub & _).
    { intros x Hx. destruct (is_working_day cal x) eqn:Hw; [|done]. exfalso. apply Hn, Exists_exists.
      exists x. split; [by apply elem_of_range|done]. }
    unfold calendar_fuel in Hlen. rewrite weeks_weekdays in Hlen.
    apply submseteq_length in Hsub as Hle || pose proof (submseteq_length l (holidays cal) (NoDup_submseteq l _ Hnd Hsub)) as Hle. lia.
Qed.

Lemma skip_days_spec fuel : forall d,
  match skip_days cal fuel d with
  | None => forall x, d <= x < d + Z.of_nat fuel -> is_working_day cal x = false
  | Some (Ok c) => d <= c /\ is_working_day cal c = true /\ (forall x, d <= x < c -> is_working_day cal x = false)
  | Some (Err e) => e = CalOverflow /\ forall x, d <= x <= last_day -> is_working_day cal x = false
  end.
Proof.
  induction fuel as [|fuel IH]; intros d; cbn [skip_days]; [lia|].
  destruct (is_working_day cal d) eqn:Hw; [split_and!; try done; lia|]. unfold next_day.
  assert (Hd : forall x, x = d -> is_working_day cal x = false) by (by intros x ->).
  destruct (last_day <=? d) eqn:Hl.
  { split; [done|]. intros x Hx. apply Hd. lia. }
  specialize (IH (d + 1)). destruct (skip_days cal fuel (d + 1)) as [[c|e]|].
  - destruct IH as (H1 & H2 & H3). split_and!; [lia|done|]. intros x Hx. destruct (decide (x = d)); [by apply Hd|apply H3; lia].
  - destruct IH as [-> H1]. split; [done|]. intros x Hx. destruct (decide (x = d)); [by apply Hd|apply H1; lia].
  - intros x Hx. destruct (decide (x = d)); [by apply Hd|apply IH; lia].
Qed.

(** [next_working_day] ends and answers the first working day after [day]. *)
Lemma next_working_day_spec day :
  match next_working_day cal day with
  | Ok c => day < c /\ is_working_day cal c = true /\ forall x, day < x < c -> is_working_day cal x = false
  | Err e => e = CalOverflow /\ forall x, day < x <= last_day -> is_working_day cal x = false
  end.
Proof.
  unfold next_working_day, next_day. destruct (last_day <=? day) eqn:Hl; cbn [rbind].
  { split; [done|]. lia. }
  pose proof (skip_days_spec (calendar_fuel cal) (day + 1)) as Hs. destruct (skip_days _ _ _) as [[c|e]|].
  - destruct Hs as (? & ? & Hs). split_and!; [lia|done|]. intros. apply Hs. lia.
  - destruct Hs as [? Hs]. split; [done|]. intros. apply Hs. lia.
  - exfalso. destruct (no_idle_run (day + 1)) as (x & Hx & Hw). rewrite Hs in Hw; [done|lia].
Qed.

Lemma count_days_app n m : forall d, count_days cal (n + m) d = count_days cal n d + count_days cal m (d + Z.of_nat n).
Proof.
  induction n as [|n IH]; intros d; cbn [count_days Nat.add]; [by rewrite Z.add_0_r|].
  rewrite IH. replace (d + 1 + Z.of_nat n) with (d + Z.of_nat (S n)) by lia. lia.
Qed.

Lemma count_days_idle n : forall d, (forall x, d < x <= d + Z.of_nat n -> is_working_day cal x = false) ->
  count_days cal n d = 0.
Proof.
  induction n as [|n IH]; intros d Hd; cbn [count_days]; [done|]. rewrite Hd by lia. apply IH. intros. apply Hd. lia.
Qed.

Lemma between_trans a b c : a <= b -> b <= c ->
  business_days_between cal a c = business_days_between cal a b + business_days_between cal b c.
Proof.
  intros Hab Hbc. unfold business_days_between.
  destruct (c <=? a) eqn:E1, (b <=? a) eqn:E2, (c <=? b) eqn:E3; bool_prop; try lia;
    try (replace b with a by lia; lia); try (replace b with c by lia; lia).
  replace (Z.to_nat (c - a)) with (Z.to_nat (b - a) + Z.to_nat (c - b))%nat by lia.
  rewrite count_days_app. do 2 f_equal. lia.
Qed.

(** One working day lies between a day and the next working day. *)
Lemma between_next day c : next_working_day cal day = Ok c -> day < c /\ business_days_between cal day c = 1.
Proof.
  intros Hc. pose proof (next_working_day_spec day) as Hs. rewrite Hc in Hs. destruct Hs as (Hlt & Hw & Hidle).
  split; [done|]. rewrite (between_trans day (c - 1) c) by lia. unfold business_days_between at 1 2.
  assert ((c <=? c - 1) = false) as -> by lia. replace (Z.to_nat (c - (c - 1))) with 1%nat by lia. cbn [count_days].
  replace (c - 1 + 1) with c by lia. rewrite Hw.
  destruct (c - 1 <=? day) eqn:E; [lia|]. rewrite count_days_idle; [lia|]. intros x Hx. apply Hidle. lia.
Qed.
End Facts.

(** Working-day arithmetic is exact: [add_working_days] never runs forever, lands
    on a working day, and the working days between the start and the answer are
    as many as were added; the one error is the end of the calendar. *)
Theorem working_days_roundtrip cal day n :
  0 < n ->
  match add_working_days cal day n with
  | Ok c => is_working_day cal c = true /\ day < c /\ business_days_between cal day c = n
  | Err e => e = CalOverflow
  end.
Proof.
  intros Hn. unfold add_working_days. rewrite (proj2 (Z.ltb_ge n 0)), (proj2 (Z.eqb_neq n 0)) by lia.
  assert (Hgo : forall k d, match advance cal k d with
    | Ok c => d <= c /\ business_days_between cal d c = Z.of_nat k /\ (k <> 0%nat -> is_working_day cal c = true /\ d < c)
    | Err e => e = CalOverflow end).
  { induction k as [|k IH]; intros d; cbn [advance].
    - split_and!; [lia| |done]. unfold business_days_between. by rewrite Z.leb_refl.
    - pose proof (next_working_day_spec cal d) as Hs. destruct (next_working_day cal d) as [c|e] eqn:Hc; cbn [rbind]; [|by destruct Hs].
      destruct (between_next cal d c Hc) as [Hlt H1]. specialize (IH c). destruct (advance cal k c) as [c'|e] eqn:Ha; [|done].
      destruct IH as (Hle & Hb & Hw). split_and!; [lia| |].
      + rewrite (between_trans cal d c c'), H1, Hb by lia. lia.
      + intros _. destruct k as [|k]; [|destruct Hw; [done|]; split; [done|lia]].
        injection Ha as <-. destruct Hs as (? & ? & _). split; [done|lia]. }
  specialize (Hgo (Z.to_nat n) day). destruct (advance cal (Z.to_nat n) day) as [c|e]; [|done].
  destruct Hgo as (_ & Hb & Hw). destruct Hw as [? ?]; [lia|]. split_and!; [done|done|]. lia.
Qed.

(** Asia/Dhaka since 2010: six hours ahead of UTC, no daylight saving. *)
Definition year_2010 : Z := ymd2ord (2010, 1, 1) * micros_per_day.

Class DhakaLaws `{DhakaTz} : Prop := {
  offset_at_2010 : forall t, year_2010 <= t -> offset_at t = six_hours;
  offset_local_2010 : forall l, year_2010 + six_hours <= l -> offset_local l = six_hours
}.

#[export] Instance fixed_dhaka : DhakaTz := {| offset_at := fun _ => six_hours; offset_local := fun _ => six_hours |}.
#[export] Instance fixed_dhaka_laws : DhakaLaws.
Proof. by split. Qed.

(** The instants at which the BEFTN same-day cutoff falls. *)
Definition is_cutoff (cal : BangladeshBankCalendar) (t : Z) : Prop :=
  is_working_day cal (local_date (t + six_hours)) = true /\ local_time (t + six_hours) = beftn_cutoff cal.

(** [next_beftn_cutoff] answers the first cutoff instant after [at]: the answer is
    a cutoff, it is later than [at], and no cutoff lies in between (at the
    cutoff itself the next one is answered). *)
Theorem next_beftn_cutoff_is_first `{DhakaTz} `{!DhakaLaws} cal at_ c :
  year_2010 <= micros at_ -> 0 <= beftn_cutoff cal < micros_per_day ->
  next_beftn_cutoff cal at_ = Ok c ->
  is_cutoff cal (micros c) /\ micros at_ < micros c /\
  forall t, micros at_ < t < micros c -> ~ is_cutoff cal t.
Proof.
  intros H10 Hcut. unfold next_beftn_cutoff, _local. destruct (tz_aware at_); [|done]. cbn [negb rbind].
  rewrite offset_at_2010 by done. set (l := micros at_ + six_hours).
  assert (Hl : year_2010 + six_hours <= l) by (unfold l; lia).
  assert (Hd : forall d t, 0 <= t < micros_per_day -> local_date (d * micros_per_day + t) = d /\ local_time (d * micros_per_day + t) = t).
  { intros d t Ht. unfold local_date, local_time, micros_per_day in *. lia. }
  assert (Hgo : forall day, local_date l <= day -> is_working_day cal day = true ->
    l < day * micros_per_day + beftn_cutoff cal ->
    (forall x, local_date l <= x < day -> is_working_day cal x = false \/ x = local_date l /\ beftn_cutoff cal <= local_time l) ->
    c = combine_utc day (beftn_cutoff cal) ->
    is_cutoff cal (micros c) /\ micros at_ < micros c /\ forall t, micros at_ < t < micros c -> ~ is_cutoff cal t).
  { intros day Hge Hw Hlt Hidle ->. unfold combine_utc. cbn [micros]. rewrite offset_local_2010 by lia.
    destruct (Hd day (beftn_cutoff cal) Hcut) as [Hd1 Hd2].
    split_and!.
    - unfold is_cutoff. replace (_ - six_hours + six_hours) with (day * micros_per_day + beftn_cutoff cal) by lia.
      by rewrite Hd1, Hd2.
    - lia.
    - intros t Ht [Hwt Hct]. assert (Hx : local_date l <= local_date (t + six_hours) < day).
      { unfold local_date, local_time, micros_per_day in *. lia. }
      destruct (Hidle _ Hx) as [Hf|[Hf Hf2]]; [congruence|].
      unfold local_date, local_time, micros_per_day in *. lia. }
  destruct (negb (is_working_day cal (local_date l)) || (beftn_cutoff cal <=? local_time l)) eqn:Hskip.
  - destruct (next_working_day cal (local_date l)) as [day|e] eqn:Hday; [|done]. cbn [rbind]. intros [= <-].
    pose proof (next_working_day_spec cal (local_date l)) as Hs. rewrite Hday in Hs. destruct Hs as (Hlt & Hw & Hidle).
    apply (Hgo day); [lia|done| | |done].
    + unfold local_date, micros_per_day in *. lia.
    + intros x Hx. destruct (decide (x = local_date l)) as [->|]; [|left; apply Hidle; lia].
      apply orb_true_iff in Hskip as [Hn|Hc]; [left; by apply negb_true_iff|right; split; [done|lia]].
  - cbn [rbind]. intros [= <-]. apply orb_false_iff in Hskip as [Hw%negb_false_iff Hc].
    apply (Hgo (local_date l)); [lia|done| |lia|done]. unfold local_date, local_time, micros_per_day in *. lia.
Qed.

(** Thursday 2026-03-19 is a holiday, the weekend and two more follow. *)
Definition eid_eve : datetime := mk_datetime true (ymd2ord (2026, 3, 18) * micros_per_day + hm 8 0).

Lemma next_beftn_cutoff_is_first_witness :
  is_cutoff default_calendar (micros (mk_datetime true (ymd2ord (2026, 3, 24) * micros_per_day + hm 6 30))).
Proof.
  apply (next_beftn_cutoff_is_first default_calendar eid_eve); [vm_compute; discriminate| |vm_compute; reflexivity].
  split; [vm_compute; discriminate|vm_compute; reflexivity].
Defined.

Definition demo_day : Z := ymd2ord (2026, 3, 18).

Lemma working_days_roundtrip_witness :
  business_days_between default_calendar demo_day (ymd2ord (2026, 3, 31)) = 5.
Proof.
  pose proof (working_days_roundtrip default_calendar demo_day 5 ltac:(lia)) as Hr.
  destruct (add_working_days default_calendar demo_day 5) as [c|e] eqn:Ha; vm_compute in Ha; [|discriminate Ha].
  injection Ha as <-. exact (proj2 (proj2 Hr)).
Defined.
