(* ===== verification/Settlement.v ===== *)
(** Settlement batches and instructions (ledger/settlement/types.py), their
    in-memory store (ledger/settlement/store.py) and the BEFTN hand-off
    (ledger/settlement/beftn.py).

    A dictionary keyed by id is the list of its rows in insertion order; the
    store's [_order] list is that order, as no row is ever removed. *)
From S2P Require Import Prelude Rows Exceptions DateTime Fees.
Open Scope Z_scope.

Definition SETTLEMENT_PRODUCER : string := "settlement-engine@1".

Definition RAILS : list string :=
  ["beftn_batch_v2"; "npsb_iso8583_v28"; "rtgs_iso20022_v1"; "bkash_pgw_v2"; "nagad_pgw_v33"; "rocket_aggregator_v1";
   "card_acquirer_v1"].
Definition MCC_CATEGORIES : list string := ["DAILY_ESSENTIAL"; "DIRECT_MERCHANT"; "OTHER"].
Definition DIRECTIONS : list string := ["CREDIT"; "DEBIT"].

(** * The two state machines *)

Definition BATCH_STATES : list string :=
  ["OPEN"; "PENDING_DISPATCH"; "HELD"; "DISPATCHED"; "CONFIRMED"; "FAILED"; "CANCELLED"].
Definition BATCH_TERMINAL_STATES : list string := ["CONFIRMED"; "CANCELLED"].

(** [(from_state, trigger)] to the permitted to-states. *)
Definition SettlementTable : Type := list ((string * string) * list string).

Definition BATCH_TRANSITIONS : SettlementTable :=
  [(("OPEN", "batch_cutoff_reached"), ["PENDING_DISPATCH"; "CANCELLED"]);
   (("PENDING_DISPATCH", "approval_granted"), ["PENDING_DISPATCH"]);
   (("PENDING_DISPATCH", "dispatch_triggered"), ["DISPATCHED"; "HELD"]);
   (("PENDING_DISPATCH", "operator_cancel"), ["CANCELLED"]);
   (("HELD", "tcsa_shortfall_resolved"), ["PENDING_DISPATCH"]);
   (("HELD", "operator_cancel"), ["CANCELLED"]);
   (("DISPATCHED", "sponsor_bank_confirmed"), ["CONFIRMED"]);
   (("CONFIRMED", "sponsor_bank_confirmed"), ["CONFIRMED"]);
   (("DISPATCHED", "sponsor_bank_rejected"), ["FAILED"]);
   (("DISPATCHED", "connector_timeout"), ["FAILED"]);
   (("FAILED", "manual_retry_approved"), ["PENDING_DISPATCH"]);
   (("FAILED", "max_retries_exceeded"), ["CANCELLED"])].

Definition INSTRUCTION_STATES : list string := ["QUEUED"; "SUBMITTED"; "SETTLED"; "RETURNED"; "CANCELLED"; "FAILED"].
Definition INSTRUCTION_TERMINAL_STATES : list string := ["SETTLED"; "RETURNED"; "CANCELLED"; "FAILED"].

Definition INSTRUCTION_TRANSITIONS : SettlementTable :=
  [(("QUEUED", "batch_dispatched"), ["SUBMITTED"]);
   (("QUEUED", "batch_cancelled"), ["CANCELLED"]);
   (("SUBMITTED", "rail_confirmed"), ["SETTLED"]);
   (("SUBMITTED", "rail_returned"), ["RETURNED"]);
   (("SUBMITTED", "rail_hard_rejected"), ["FAILED"]);
   (("SUBMITTED", "timeout_on_batch_fail"), ["FAILED"]);
   (("FAILED", "batch_retry_reset"), ["QUEUED"])].

(** [table.get(key)] *)
Fixpoint aget {K A} `{EqDecision K} (key : K) (table : list (K * A)) : option A :=
  match table with
  | [] => None
  | (k, v) :: r => if bool_decide (k = key) then Some v else aget key r
  end.

Definition MAX_RETRIES : list (string * Z) :=
  [("beftn_batch_v2", 3); ("npsb_iso8583_v28", 5); ("rtgs_iso20022_v1", 3); ("bkash_pgw_v2", 5); ("nagad_pgw_v33", 5);
   ("rocket_aggregator_v1", 5); ("card_acquirer_v1", 3)].

Definition BATCH_DISPATCH_TIMEOUT_MINUTES : list (string * Z) :=
  [("beftn_batch_v2", 120); ("npsb_iso8583_v28", 60); ("rtgs_iso20022_v1", 30); ("bkash_pgw_v2", 30);
   ("nagad_pgw_v33", 30); ("rocket_aggregator_v1", 30); ("card_acquirer_v1", 30)].

Definition DISPATCH_TWO_EYES_THRESHOLD_MINOR : Z := 500000000.
Definition RETRY_TWO_EYES_THRESHOLD_MINOR : Z := 50000000.
Definition HIGH_VALUE_THRESHOLD_MINOR : Z := 10000000.

(** * Rows *)

Record SettlementBatchRow : Type := mk_SettlementBatchRow {
  sb_batch_id : string;
  sb_rail : string;
  sb_cycle_date : Z;
  sb_session : option string;
  sb_status : string;
  sb_instruction_count : Z;
  sb_total_credit_minor : Z;
  sb_total_debit_minor : Z;
  sb_currency : string;
  sb_retry_count : Z;
  sb_two_eyes_required : bool;
  sb_approval_request_id : option string;
  sb_held_at : option datetime;
  sb_held_tcsa_snapshot_id : option string;
  sb_sponsor_bank_ref : option string;
  sb_recon_file_pointer : option string;
  sb_recon_file_hash : option string;
  sb_connector_ref : option string;
  sb_created_at : datetime;
  sb_cutoff_at : option datetime;
  sb_dispatched_at : option datetime;
  sb_confirmed_at : option datetime;
  sb_failed_at : option datetime;
  sb_cancelled_at : option datetime;
  sb_fail_reason_code : option string;
  sb_produced_by : string;
  sb_schema_version : Z
}.

Record SettlementInstructionRow : Type := mk_SettlementInstructionRow {
  si_instruction_id : string;
  si_batch_id : option string;
  si_payment_intent_id : string;
  si_merchant_id : string;
  si_direction : string;
  si_amount_minor : Z;
  si_fee_minor : Z;
  si_net_payout_minor : Z;
  si_fee_rule_id : option string;
  si_currency : string;
  si_rail : string;
  si_beneficiary_account_ref : string;
  si_mcc_category : string;
  si_high_value : bool;
  si_earliest_release_at : datetime;
  si_latest_release_at : datetime;
  si_delivery_hold_cleared : bool;
  si_aml_hold : bool;
  si_status : string;
  si_rail_transaction_id : option string;
  si_return_reason_code : option string;
  si_connector_ref : string;
  si_created_at : datetime;
  si_submitted_at : option datetime;
  si_settled_at : option datetime;
  si_returned_at : option datetime;
  si_failed_at : option datetime;
  si_produced_by : string;
  si_schema_version : Z
}.

(** * Column updates *)

Definition _BATCH_MUTABLE : list string :=
  ["status"; "instruction_count"; "total_credit_minor"; "total_debit_minor"; "retry_count";
   "two_eyes_required"; "approval_request_id"; "held_at"; "held_tcsa_snapshot_id"; "sponsor_bank_ref";
   "recon_file_pointer"; "recon_file_hash"; "connector_ref"; "cutoff_at"; "dispatched_at"; "confirmed_at";
   "failed_at"; "cancelled_at"; "fail_reason_code"].

Definition _INSTRUCTION_MUTABLE : list string :=
  ["batch_id"; "status"; "rail_transaction_id"; "return_reason_code"; "earliest_release_at";
   "delivery_hold_cleared"; "aml_hold"; "submitted_at"; "settled_at"; "returned_at"; "failed_at"].

(** One keyword argument of [update_batch]. *)
Inductive batch_change : Type :=
| B_status (v : string)
| B_instruction_count (v : Z)
| B_total_credit_minor (v : Z)
| B_total_debit_minor (v : Z)
| B_retry_count (v : Z)
| B_two_eyes_required (v : bool)
| B_approval_request_id (v : option string)
| B_held_at (v : option datetime)
| B_held_tcsa_snapshot_id (v : option string)
| B_sponsor_bank_ref (v : option string)
| B_recon_file_pointer (v : option string)
| B_recon_file_hash (v : option string)
| B_connector_ref (v : option string)
| B_cutoff_at (v : option datetime)
| B_dispatched_at (v : option datetime)
| B_confirmed_at (v : option datetime)
| B_failed_at (v : option datetime)
| B_cancelled_at (v : option datetime)
| B_fail_reason_code (v : option string)
| B_other (column : string).

Definition b_column (c : batch_change) : string :=
  match c with
  | B_status _ => "status"
  | B_instruction_count _ => "instruction_count"
  | B_total_credit_minor _ => "total_credit_minor"
  | B_total_debit_minor _ => "total_debit_minor"
  | B_retry_count _ => "retry_count"
  | B_two_eyes_required _ => "two_eyes_required"
  | B_approval_request_id _ => "approval_request_id"
  | B_held_at _ => "held_at"
  | B_held_tcsa_snapshot_id _ => "held_tcsa_snapshot_id"
  | B_sponsor_bank_ref _ => "sponsor_bank_ref"
  | B_recon_file_pointer _ => "recon_file_pointer"
  | B_recon_file_hash _ => "recon_file_hash"
  | B_connector_ref _ => "connector_ref"
  | B_cutoff_at _ => "cutoff_at"
  | B_dispatched_at _ => "dispatched_at"
  | B_confirmed_at _ => "confirmed_at"
  | B_failed_at _ => "failed_at"
  | B_cancelled_at _ => "cancelled_at"
  | B_fail_reason_code _ => "fail_reason_code"
  | B_other column => column
  end.

(** [dataclasses.replace(row, column=v)]; [B_other] is refused before it gets here. *)
Definition batch_replace (r : SettlementBatchRow) (c : batch_change) : SettlementBatchRow :=
  match c with
  | B_status v =>
      mk_SettlementBatchRow (sb_batch_id r) (sb_rail r) (sb_cycle_date r) (sb_session r) v (sb_instruction_count
        r) (sb_total_credit_minor r) (sb_total_debit_minor r) (sb_currency r) (sb_retry_count r)
        (sb_two_eyes_required r) (sb_approval_request_id r) (sb_held_at r) (sb_held_tcsa_snapshot_id r)
        (sb_sponsor_bank_ref r) (sb_recon_file_pointer r) (sb_recon_file_hash r) (sb_connector_ref r)
        (sb_created_at r) (sb_cutoff_at r) (sb_dispatched_at r) (sb_confirmed_at r) (sb_failed_at r)
        (sb_cancelled_at r) (sb_fail_reason_code r) (sb_produced_by r) (sb_schema_version r)
  | B_instruction_count v =>
      mk_SettlementBatchRow (sb_batch_id r) (sb_rail r) (sb_cycle_date r) (sb_session r) (sb_status r) v
        (sb_total_credit_minor r) (sb_total_debit_minor r) (sb_currency r) (sb_retry_count r)
        (sb_two_eyes_required r) (sb_approval_request_id r) (sb_held_at r) (sb_held_tcsa_snapshot_id r)
        (sb_sponsor_bank_ref r) (sb_recon_file_pointer r) (sb_recon_file_hash r) (sb_connector_ref r)
        (sb_created_at r) (sb_cutoff_at r) (sb_dispatched_at r) (sb_confirmed_at r) (sb_failed_at r)
        (sb_cancelled_at r) (sb_fail_reason_code r) (sb_produced_by r) (sb_schema_version r)
  | B_total_credit_minor v =>
      mk_SettlementBatchRow (sb_batch_id r) (sb_rail r) (sb_cycle_date r) (sb_session r) (sb_status r)
        (sb_instruction_count r) v (sb_total_debit_minor r) (sb_currency r) (sb_retry_count r)
        (sb_two_eyes_required r) (sb_approval_request_id r) (sb_held_at r) (sb_held_tcsa_snapshot_id r)
        (sb_sponsor_bank_ref r) (sb_recon_file_pointer r) (sb_recon_file_hash r) (sb_connector_ref r)
        (sb_created_at r) (sb_cutoff_at r) (sb_dispatched_at r) (sb_confirmed_at r) (sb_failed_at r)
        (sb_cancelled_at r) (sb_fail_reason_code r) (sb_produced_by r) (sb_schema_version r)
  | B_total_debit_minor v =>
      mk_SettlementBatchRow (sb_batch_id r) (sb_rail r) (sb_cycle_date r) (sb_session r) (sb_status r)
        (sb_instruction_count r) (sb_total_credit_minor r) v (sb_currency r) (sb_retry_count r)
        (sb_two_eyes_required r) (sb_approval_request_id r) (sb_held_at r) (sb_held_tcsa_snapshot_id r)
        (sb_sponsor_bank_ref r) (sb_recon_file_pointer r) (sb_recon_file_hash r) (sb_connector_ref r)
        (sb_created_at r) (sb_cutoff_at r) (sb_dispatched_at r) (sb_confirmed_at r) (sb_failed_at r)
        (sb_cancelled_at r) (sb_fail_reason_code r) (sb_produced_by r) (sb_schema_version r)
  | B_retry_count v =>
      mk_SettlementBatchRow (sb_batch_id r) (sb_rail r) (sb_cycle_date r) (sb_session r) (sb_status r)
        (sb_instruction_count r) (sb_total_credit_minor r) (sb_total_debit_minor r) (sb_currency r) v
        (sb_two_eyes_required r) (sb_approval_request_id r) (sb_held_at r) (sb_held_tcsa_snapshot_id r)
        (sb_sponsor_bank_ref r) (sb_recon_file_pointer r) (sb_recon_file_hash r) (sb_connector_ref r)
        (sb_created_at r) (sb_cutoff_at r) (sb_dispatched_at r) (sb_confirmed_at r) (sb_failed_at r)
        (sb_cancelled_at r) (sb_fail_reason_code r) (sb_produced_by r) (sb_schema_version r)
  | B_two_eyes_required v =>
      mk_SettlementBatchRow (sb_batch_id r) (sb_rail r) (sb_cycle_date r) (sb_session r) (sb_status r)
        (sb_instruction_count r) (sb_total_credit_minor r) (sb_total_debit_minor r) (sb_currency r)
        (sb_retry_count r) v (sb_approval_request_id r) (sb_held_at r) (sb_held_tcsa_snapshot_id r)
        (sb_sponsor_bank_ref r) (sb_recon_file_pointer r) (sb_recon_file_hash r) (sb_connector_ref r)
        (sb_created_at r) (sb_cutoff_at r) (sb_dispatched_at r) (sb_confirmed_at r) (sb_failed_at r)
        (sb_cancelled_at r) (sb_fail_reason_code r) (sb_produced_by r) (sb_schema_version r)
  | B_approval_request_id v =>
      mk_SettlementBatchRow (sb_batch_id r) (sb_rail r) (sb_cycle_date r) (sb_session r) (sb_status r)
        (sb_instruction_count r) (sb_total_credit_minor r) (sb_total_debit_minor r) (sb_currency r)
        (sb_retry_count r) (sb_two_eyes_required r) v (sb_held_at r) (sb_held_tcsa_snapshot_id r)
        (sb_sponsor_bank_ref r) (sb_recon_file_pointer r) (sb_recon_file_hash r) (sb_connector_ref r)
        (sb_created_at r) (sb_cutoff_at r) (sb_dispatched_at r) (sb_confirmed_at r) (sb_failed_at r)
        (sb_cancelled_at r) (sb_fail_reason_code r) (sb_produced_by r) (sb_schema_version r)
  | B_held_at v =>
      mk_SettlementBatchRow (sb_batch_id r) (sb_rail r) (sb_cycle_date r) (sb_session r) (sb_status r)
        (sb_instruction_count r) (sb_total_credit_minor r) (sb_total_debit_minor r) (sb_currency r)
        (sb_retry_count r) (sb_two_eyes_required r) (sb_approval_request_id r) v (sb_held_tcsa_snapshot_id r)
        (sb_sponsor_bank_ref r) (sb_recon_file_pointer r) (sb_recon_file_hash r) (sb_connector_ref r)
        (sb_created_at r) (sb_cutoff_at r) (sb_dispatched_at r) (sb_confirmed_at r) (sb_failed_at r)
        (sb_cancelled_at r) (sb_fail_reason_code r) (sb_produced_by r) (sb_schema_version r)
  | B_held_tcsa_snapshot_id v =>
      mk_SettlementBatchRow (sb_batch_id r) (sb_rail r) (sb_cycle_date r) (sb_session r) (sb_status r)
        (sb_instruction_count r) (sb_total_credit_minor r) (sb_total_debit_minor r) (sb_currency r)
        (sb_retry_count r) (sb_two_eyes_required r) (sb_approval_request_id r) (sb_held_at r) v
        (sb_sponsor_bank_ref r) (sb_recon_file_pointer r) (sb_recon_file_hash r) (sb_connector_ref r)
        (sb_created_at r) (sb_cutoff_at r) (sb_dispatched_at r) (sb_confirmed_at r) (sb_failed_at r)
        (sb_cancelled_at r) (sb_fail_reason_code r) (sb_produced_by r) (sb_schema_version r)
  | B_sponsor_bank_ref v =>
      mk_SettlementBatchRow (sb_batch_id r) (sb_rail r) (sb_cycle_date r) (sb_session r) (sb_status r)
        (sb_instruction_count r) (sb_total_credit_minor r) (sb_total_debit_minor r) (sb_currency r)
        (sb_retry_count r) (sb_two_eyes_required r) (sb_approval_request_id r) (sb_held_at r)
        (sb_held_tcsa_snapshot_id r) v (sb_recon_file_pointer r) (sb_recon_file_hash r) (sb_connector_ref r)
        (sb_created_at r) (sb_cutoff_at r) (sb_dispatched_at r) (sb_confirmed_at r) (sb_failed_at r)
        (sb_cancelled_at r) (sb_fail_reason_code r) (sb_produced_by r) (sb_schema_version r)
  | B_recon_file_pointer v =>
      mk_SettlementBatchRow (sb_batch_id r) (sb_rail r) (sb_cycle_date r) (sb_session r) (sb_status r)
        (sb_instruction_count r) (sb_total_credit_minor r) (sb_total_debit_minor r) (sb_currency r)
        (sb_retry_count r) (sb_two_eyes_required r) (sb_approval_request_id r) (sb_held_at r)
        (sb_held_tcsa_snapshot_id r) (sb_sponsor_bank_ref r) v (sb_recon_file_hash r) (sb_connector_ref r)
        (sb_created_at r) (sb_cutoff_at r) (sb_dispatched_at r) (sb_confirmed_at r) (sb_failed_at r)
        (sb_cancelled_at r) (sb_fail_reason_code r) (sb_produced_by r) (sb_schema_version r)
  | B_recon_file_hash v =>
      mk_SettlementBatchRow (sb_batch_id r) (sb_rail r) (sb_cycle_date r) (sb_session r) (sb_status r)
        (sb_instruction_count r) (sb_total_credit_minor r) (sb_total_debit_minor r) (sb_currency r)
        (sb_retry_count r) (sb_two_eyes_required r) (sb_approval_request_id r) (sb_held_at r)
        (sb_held_tcsa_snapshot_id r) (sb_sponsor_bank_ref r) (sb_recon_file_pointer r) v (sb_connector_ref r)
        (sb_created_at r) (sb_cutoff_at r) (sb_dispatched_at r) (sb_confirmed_at r) (sb_failed_at r)
        (sb_cancelled_at r) (sb_fail_reason_code r) (sb_produced_by r) (sb_schema_version r)
  | B_connector_ref v =>
      mk_SettlementBatchRow (sb_batch_id r) (sb_rail r) (sb_cycle_date r) (sb_session r) (sb_status r)
        (sb_instruction_count r) (sb_total_credit_minor r) (sb_total_debit_minor r) (sb_currency r)
        (sb_retry_count r) (sb_two_eyes_required r) (sb_approval_request_id r) (sb_held_at r)
        (sb_held_tcsa_snapshot_id r) (sb_sponsor_bank_ref r) (sb_recon_file_pointer r) (sb_recon_file_hash r) v
        (sb_created_at r) (sb_cutoff_at r) (sb_dispatched_at r) (sb_confirmed_at r) (sb_failed_at r)
        (sb_cancelled_at r) (sb_fail_reason_code r) (sb_produced_by r) (sb_schema_version r)
  | B_cutoff_at v =>
      mk_SettlementBatchRow (sb_batch_id r) (sb_rail r) (sb_cycle_date r) (sb_session r) (sb_status r)
        (sb_instruction_count r) (sb_total_credit_minor r) (sb_total_debit_minor r) (sb_currency r)
        (sb_retry_count r) (sb_two_eyes_required r) (sb_approval_request_id r) (sb_held_at r)
        (sb_held_tcsa_snapshot_id r) (sb_sponsor_bank_ref r) (sb_recon_file_pointer r) (sb_recon_file_hash r)
        (sb_connector_ref r) (sb_created_at r) v (sb_dispatched_at r) (sb_confirmed_at r) (sb_failed_at r)
        (sb_cancelled_at r) (sb_fail_reason_code r) (sb_produced_by r) (sb_schema_version r)
  | B_dispatched_at v =>
      mk_SettlementBatchRow (sb_batch_id r) (sb_rail r) (sb_cycle_date r) (sb_session r) (sb_status r)
        (sb_instruction_count r) (sb_total_credit_minor r) (sb_total_debit_minor r) (sb_currency r)
        (sb_retry_count r) (sb_two_eyes_required r) (sb_approval_request_id r) (sb_held_at r)
        (sb_held_tcsa_snapshot_id r) (sb_sponsor_bank_ref r) (sb_recon_file_pointer r) (sb_recon_file_hash r)
        (sb_connector_ref r) (sb_created_at r) (sb_cutoff_at r) v (sb_confirmed_at r) (sb_failed_at r)
        (sb_cancelled_at r) (sb_fail_reason_code r) (sb_produced_by r) (sb_schema_version r)
  | B_confirmed_at v =>
      mk_SettlementBatchRow (sb_batch_id r) (sb_rail r) (sb_cycle_date r) (sb_session r) (sb_status r)
        (sb_instruction_count r) (sb_total_credit_minor r) (sb_total_debit_minor r) (sb_currency r)
        (sb_retry_count r) (sb_two_eyes_required r) (sb_approval_request_id r) (sb_held_at r)
        (sb_held_tcsa_snapshot_id r) (sb_sponsor_bank_ref r) (sb_recon_file_pointer r) (sb_recon_file_hash r)
        (sb_connector_ref r) (sb_created_at r) (sb_cutoff_at r) (sb_dispatched_at r) v (sb_failed_at r)
        (sb_cancelled_at r) (sb_fail_reason_code r) (sb_produced_by r) (sb_schema_version r)
  | B_failed_at v =>
      mk_SettlementBatchRow (sb_batch_id r) (sb_rail r) (sb_cycle_date r) (sb_session r) (sb_status r)
        (sb_instruction_count r) (sb_total_credit_minor r) (sb_total_debit_minor r) (sb_currency r)
        (sb_retry_count r) (sb_two_eyes_required r) (sb_approval_request_id r) (sb_held_at r)
        (sb_held_tcsa_snapshot_id r) (sb_sponsor_bank_ref r) (sb_recon_file_pointer r) (sb_recon_file_hash r)
        (sb_connector_ref r) (sb_created_at r) (sb_cutoff_at r) (sb_dispatched_at r) (sb_confirmed_at r) v
        (sb_cancelled_at r) (sb_fail_reason_code r) (sb_produced_by r) (sb_schema_version r)
  | B_cancelled_at v =>
      mk_SettlementBatchRow (sb_batch_id r) (sb_rail r) (sb_cycle_date r) (sb_session r) (sb_status r)
        (sb_instruction_count r) (sb_total_credit_minor r) (sb_total_debit_minor r) (sb_currency r)
        (sb_retry_count r) (sb_two_eyes_required r) (sb_approval_request_id r) (sb_held_at r)
        (sb_held_tcsa_snapshot_id r) (sb_sponsor_bank_ref r) (sb_recon_file_pointer r) (sb_recon_file_hash r)
        (sb_connector_ref r) (sb_created_at r) (sb_cutoff_at r) (sb_dispatched_at r) (sb_confirmed_at r)
        (sb_failed_at r) v (sb_fail_reason_code r) (sb_produced_by r) (sb_schema_version r)
  | B_fail_reason_code v =>
      mk_SettlementBatchRow (sb_batch_id r) (sb_rail r) (sb_cycle_date r) (sb_session r) (sb_status r)
        (sb_instruction_count r) (sb_total_credit_minor r) (sb_total_debit_minor r) (sb_currency r)
        (sb_retry_count r) (sb_two_eyes_required r) (sb_approval_request_id r) (sb_held_at r)
        (sb_held_tcsa_snapshot_id r) (sb_sponsor_bank_ref r) (sb_recon_file_pointer r) (sb_recon_file_hash r)
        (sb_connector_ref r) (sb_created_at r) (sb_cutoff_at r) (sb_dispatched_at r) (sb_confirmed_at r)
        (sb_failed_at r) (sb_cancelled_at r) v (sb_produced_by r) (sb_schema_version r)
  | B_other _ => r
  end.

(** One keyword argument of [update_instruction]. *)
Inductive instruction_change : Type :=
| I_batch_id (v : option string)
| I_earliest_release_at (v : datetime)
| I_delivery_hold_cleared (v : bool)
| I_aml_hold (v : bool)
| I_status (v : string)
| I_rail_transaction_id (v : option string)
| I_return_reason_code (v : option string)
| I_submitted_at (v : option datetime)
| I_settled_at (v : option datetime)
| I_returned_at (v : option datetime)
| I_failed_at (v : option datetime)
| I_other (column : string).

Definition i_column (c : instruction_change) : string :=
  match c with
  | I_batch_id _ => "batch_id"
  | I_earliest_release_at _ => "earliest_release_at"
  | I_delivery_hold_cleared _ => "delivery_hold_cleared"
  | I_aml_hold _ => "aml_hold"
  | I_status _ => "status"
  | I_rail_transaction_id _ => "rail_transaction_id"
  | I_return_reason_code _ => "return_reason_code"
  | I_submitted_at _ => "submitted_at"
  | I_settled_at _ => "settled_at"
  | I_returned_at _ => "returned_at"
  | I_failed_at _ => "failed_at"
  | I_other column => column
  end.

(** [dataclasses.replace(row, column=v)]; [I_other] is refused before it gets here. *)
Definition instruction_replace (r : SettlementInstructionRow) (c : instruction_change) : SettlementInstructionRow :=
  match c with
  | I_batch_id v =>
      mk_SettlementInstructionRow (si_instruction_id r) v (si_payment_intent_id r) (si_merchant_id r)
        (si_direction r) (si_amount_minor r) (si_fee_minor r) (si_net_payout_minor r) (si_fee_rule_id r)
        (si_currency r) (si_rail r) (si_beneficiary_account_ref r) (si_mcc_category r) (si_high_value r)
        (si_earliest_release_at r) (si_latest_release_at r) (si_delivery_hold_cleared r) (si_aml_hold r)
        (si_status r) (si_rail_transaction_id r) (si_return_reason_code r) (si_connector_ref r) (si_created_at
        r) (si_submitted_at r) (si_settled_at r) (si_returned_at r) (si_failed_at r) (si_produced_by r)
        (si_schema_version r)
  | I_earliest_release_at v =>
      mk_SettlementInstructionRow (si_instruction_id r) (si_batch_id r) (si_payment_intent_id r) (si_merchant_id
        r) (si_direction r) (si_amount_minor r) (si_fee_minor r) (si_net_payout_minor r) (si_fee_rule_id r)
        (si_currency r) (si_rail r) (si_beneficiary_account_ref r) (si_mcc_category r) (si_high_value r) v
        (si_latest_release_at r) (si_delivery_hold_cleared r) (si_aml_hold r) (si_status r)
        (si_rail_transaction_id r) (si_return_reason_code r) (si_connector_ref r) (si_created_at r)
        (si_submitted_at r) (si_settled_at r) (si_returned_at r) (si_failed_at r) (si_produced_by r)
        (si_schema_version r)
  | I_delivery_hold_cleared v =>
      mk_SettlementInstructionRow (si_instruction_id r) (si_batch_id r) (si_payment_intent_id r) (si_merchant_id
        r) (si_direction r) (si_amount_minor r) (si_fee_minor r) (si_net_payout_minor r) (si_fee_rule_id r)
        (si_currency r) (si_rail r) (si_beneficiary_account_ref r) (si_mcc_category r) (si_high_value r)
        (si_earliest_release_at r) (si_latest_release_at r) v (si_aml_hold r) (si_status r)
        (si_rail_transaction_id r) (si_return_reason_code r) (si_connector_ref r) (si_created_at r)
        (si_submitted_at r) (si_settled_at r) (si_returned_at r) (si_failed_at r) (si_produced_by r)
        (si_schema_version r)
  | I_aml_hold v =>
      mk_SettlementInstructionRow (si_instruction_id r) (si_batch_id r) (si_payment_intent_id r) (si_merchant_id
        r) (si_direction r) (si_amount_minor r) (si_fee_minor r) (si_net_payout_minor r) (si_fee_rule_id r)
        (si_currency r) (si_rail r) (si_beneficiary_account_ref r) (si_mcc_category r) (si_high_value r)
        (si_earliest_release_at r) (si_latest_release_at r) (si_delivery_hold_cleared r) v (si_status r)
        (si_rail_transaction_id r) (si_return_reason_code r) (si_connector_ref r) (si_created_at r)
        (si_submitted_at r) (si_settled_at r) (si_returned_at r) (si_failed_at r) (si_produced_by r)
        (si_schema_version r)
  | I_status v =>
      mk_SettlementInstructionRow (si_instruction_id r) (si_batch_id r) (si_payment_intent_id r) (si_merchant_id
        r) (si_direction r) (si_amount_minor r) (si_fee_minor r) (si_net_payout_minor r) (si_fee_rule_id r)
        (si_currency r) (si_rail r) (si_beneficiary_account_ref r) (si_mcc_category r) (si_high_value r)
        (si_earliest_release_at r) (si_latest_release_at r) (si_delivery_hold_cleared r) (si_aml_hold r) v
        (si_rail_transaction_id r) (si_return_reason_code r) (si_connector_ref r) (si_created_at r)
        (si_submitted_at r) (si_settled_at r) (si_returned_at r) (si_failed_at r) (si_produced_by r)
        (si_schema_version r)
  | I_rail_transaction_id v =>
      mk_SettlementInstructionRow (si_instruction_id r) (si_batch_id r) (si_payment_intent_id r) (si_merchant_id
        r) (si_direction r) (si_amount_minor r) (si_fee_minor r) (si_net_payout_minor r) (si_fee_rule_id r)
        (si_currency r) (si_rail r) (si_beneficiary_account_ref r) (si_mcc_category r) (si_high_value r)
        (si_earliest_release_at r) (si_latest_release_at r) (si_delivery_hold_cleared r) (si_aml_hold r)
        (si_status r) v (si_return_reason_code r) (si_connector_ref r) (si_created_at r) (si_submitted_at r)
        (si_settled_at r) (si_returned_at r) (si_failed_at r) (si_produced_by r) (si_schema_version r)
  | I_return_reason_code v =>
      mk_SettlementInstructionRow (si_instruction_id r) (si_batch_id r) (si_payment_intent_id r) (si_merchant_id
        r) (si_direction r) (si_amount_minor r) (si_fee_minor r) (si_net_payout_minor r) (si_fee_rule_id r)
        (si_currency r) (si_rail r) (si_beneficiary_account_ref r) (si_mcc_category r) (si_high_value r)
        (si_earliest_release_at r) (si_latest_release_at r) (si_delivery_hold_cleared r) (si_aml_hold r)
        (si_status r) (si_rail_transaction_id r) v (si_connector_ref r) (si_created_at r) (si_submitted_at r)
        (si_settled_at r) (si_returned_at r) (si_failed_at r) (si_produced_by r) (si_schema_version r)
  | I_submitted_at v =>
      mk_SettlementInstructionRow (si_instruction_id r) (si_batch_id r) (si_payment_intent_id r) (si_merchant_id
        r) (si_direction r) (si_amount_minor r) (si_fee_minor r) (si_net_payout_minor r) (si_fee_rule_id r)
        (si_currency r) (si_rail r) (si_beneficiary_account_ref r) (si_mcc_category r) (si_high_value r)
        (si_earliest_release_at r) (si_latest_release_at r) (si_delivery_hold_cleared r) (si_aml_hold r)
        (si_status r) (si_rail_transaction_id r) (si_return_reason_code r) (si_connector_ref r) (si_created_at
        r) v (si_settled_at r) (si_returned_at r) (si_failed_at r) (si_produced_by r) (si_schema_version r)
  | I_settled_at v =>
      mk_SettlementInstructionRow (si_instruction_id r) (si_batch_id r) (si_payment_intent_id r) (si_merchant_id
        r) (si_direction r) (si_amount_minor r) (si_fee_minor r) (si_net_payout_minor r) (si_fee_rule_id r)
        (si_currency r) (si_rail r) (si_beneficiary_account_ref r) (si_mcc_category r) (si_high_value r)
        (si_earliest_release_at r) (si_latest_release_at r) (si_delivery_hold_cleared r) (si_aml_hold r)
        (si_status r) (si_rail_transaction_id r) (si_return_reason_code r) (si_connector_ref r) (si_created_at
        r) (si_submitted_at r) v (si_returned_at r) (si_failed_at r) (si_produced_by r) (si_schema_version r)
  | I_returned_at v =>
      mk_SettlementInstructionRow (si_instruction_id r) (si_batch_id r) (si_payment_intent_id r) (si_merchant_id
        r) (si_direction r) (si_amount_minor r) (si_fee_minor r) (si_net_payout_minor r) (si_fee_rule_id r)
        (si_currency r) (si_rail r) (si_beneficiary_account_ref r) (si_mcc_category r) (si_high_value r)
        (si_earliest_release_at r) (si_latest_release_at r) (si_delivery_hold_cleared r) (si_aml_hold r)
        (si_status r) (si_rail_transaction_id r) (si_return_reason_code r) (si_connector_ref r) (si_created_at
        r) (si_submitted_at r) (si_settled_at r) v (si_failed_at r) (si_produced_by r) (si_schema_version r)
  | I_failed_at v =>
      mk_SettlementInstructionRow (si_instruction_id r) (si_batch_id r) (si_payment_intent_id r) (si_merchant_id
        r) (si_direction r) (si_amount_minor r) (si_fee_minor r) (si_net_payout_minor r) (si_fee_rule_id r)
        (si_currency r) (si_rail r) (si_beneficiary_account_ref r) (si_mcc_category r) (si_high_value r)
        (si_earliest_release_at r) (si_latest_release_at r) (si_delivery_hold_cleared r) (si_aml_hold r)
        (si_status r) (si_rail_transaction_id r) (si_return_reason_code r) (si_connector_ref r) (si_created_at
        r) (si_submitted_at r) (si_settled_at r) (si_returned_at r) v (si_produced_by r) (si_schema_version r)
  | I_other _ => r
  end.

(** * Exceptions *)

Inductive sexn : Type :=
| SettlementError
| SettlementGuardError
| SettlementInvalidTransitionError
| BeftnFormatError
| SLedger (e : exn)          (* raised by the ledger or the id functions *)
| SCalendar                  (* raised by the calendar *)
| SAssertionError
| SAttributeError
| STypeError.                (* a naive datetime meets an aware one *)

(** * [InMemorySettlementStore] *)

Record SettlementStore : Type := mk_SettlementStore {
  ss_batches : list SettlementBatchRow;
  ss_instructions : list SettlementInstructionRow;
  ss_fee_rules : list FeeRule
}.

Definition empty_settlement : SettlementStore := mk_SettlementStore [] [] [].

Definition _checked_changes {C} (column : C -> string) (allowed : list string) (changes : list C) : res sexn (list C) :=
  raise SettlementError when (negb (forallb (fun c => str_in (column c) allowed) changes)) else Ok changes.

(** The status among the changes is one of the states. *)
Definition batch_status_known (c : batch_change) : bool :=
  match c with B_status s => str_in s BATCH_STATES | _ => true end.
Definition instruction_status_known (c : instruction_change) : bool :=
  match c with I_status s => str_in s INSTRUCTION_STATES | _ => true end.

Section Store.
Implicit Types (s : SettlementStore).

Definition get_batch (batch_id : string) s : option SettlementBatchRow :=
  List.find (has_key sb_batch_id batch_id) (ss_batches s).

Definition get_instruction (instruction_id : string) s : option SettlementInstructionRow :=
  List.find (has_key si_instruction_id instruction_id) (ss_instructions s).

Definition insert_batch (row : SettlementBatchRow) s : res sexn SettlementStore :=
  raise SettlementError when (bool_decide (is_Some (get_batch (sb_batch_id row) s))) else
  raise SettlementError when (negb (str_in (sb_status row) BATCH_STATES)) else
  Ok (mk_SettlementStore (ss_batches s ++ [row]) (ss_instructions s) (ss_fee_rules s)).

(** [self._batches[row.batch_id] = row] for a stored id. *)
Definition put_batch (row : SettlementBatchRow) s : SettlementStore :=
  mk_SettlementStore (replace_row sb_batch_id (sb_batch_id row) (fun _ => row) (ss_batches s)) (ss_instructions s)
    (ss_fee_rules s).
Definition put_instruction (row : SettlementInstructionRow) s : SettlementStore :=
  mk_SettlementStore (ss_batches s) (replace_row si_instruction_id (si_instruction_id row) (fun _ => row) (ss_instructions s))
    (ss_fee_rules s).

Definition update_batch (batch_id : string) (changes : list batch_change) s :
    res sexn (SettlementBatchRow * SettlementStore) :=
  match get_batch batch_id s with
  | None => Err SettlementError
  | Some row =>
      let* checked := _checked_changes b_column _BATCH_MUTABLE changes in
      raise SettlementError when (negb (forallb batch_status_known checked)) else
      let updated := foldl batch_replace row checked in
      Ok (updated, put_batch updated s)
  end.

Definition update_instruction (instruction_id : string) (changes : list instruction_change) s :
    res sexn (SettlementInstructionRow * SettlementStore) :=
  match get_instruction instruction_id s with
  | None => Err SettlementError
  | Some row =>
      let* checked := _checked_changes i_column _INSTRUCTION_MUTABLE changes in
      raise SettlementError when (negb (forallb instruction_status_known checked)) else
      let updated := foldl instruction_replace row checked in
      Ok (updated, put_instruction updated s)
  end.

(** The check made on every instruction before any evidence is written. *)
Definition evidence_refused (batch_id : string) s (kv : string * string) : bool :=
  match get_instruction kv.1 s with
  | None => true
  | Some row => negb (bool_decide (si_batch_id row = Some batch_id)) || negb (str_in (si_status row) ["SUBMITTED"; "SETTLED"])
  end.

Definition record_txid s (kv : string * string) : res sexn SettlementStore :=
  match get_instruction kv.1 s with
  | None => Err SettlementError
  | Some inst =>
      if String.eqb (si_status inst) "SUBMITTED" && bool_decide (si_rail_transaction_id inst = None)
      then let* (_, s) := update_instruction kv.1 [I_rail_transaction_id (Some kv.2)] s in Ok s
      else Ok s
  end.

Definition persist_confirmation_evidence (batch_id sponsor_bank_ref : string)
    (rail_transaction_ids : list (string * string)) s : res sexn (SettlementBatchRow * SettlementStore) :=
  match get_batch batch_id s with
  | None => Err SettlementError
  | Some batch =>
      raise SettlementError when (match sb_sponsor_bank_ref batch with
        | Some r => negb (String.eqb r sponsor_bank_ref) | None => false end) else
      raise SettlementError when (existsb (evidence_refused batch_id s) rail_transaction_ids) else
      let* (batch, s) := update_batch batch_id [B_sponsor_bank_ref (Some sponsor_bank_ref)] s in
      let* s := rfold record_txid s rail_transaction_ids in
      Ok (batch, s)
  end.

Definition find_open_batch (rail : string) (cycle_date : Z) (session : option string) s : option SettlementBatchRow :=
  List.find (fun row => String.eqb (sb_rail row) rail && (sb_cycle_date row =? cycle_date) &&
    bool_decide (sb_session row = session) && String.eqb (sb_status row) "OPEN") (ss_batches s).

(** [(r.created_at, r.batch_id)] in Python's tuple order. *)
Definition batch_le (a b : Z * string) : Prop := a.1 < b.1 \/ a.1 = b.1 /\ String.le a.2 b.2.
#[export] Instance batch_le_dec : RelDecision batch_le.
Proof. intros a b. unfold batch_le. apply _. Defined.

Definition list_batches (status : option string) s : list SettlementBatchRow :=
  sort_by batch_le (fun r => (micros (sb_created_at r), sb_batch_id r))
    (List.filter (fun r => match status with None => true | Some st => String.eqb (sb_status r) st end) (ss_batches s)).

Definition insert_instruction (row : SettlementInstructionRow) s : res sexn SettlementStore :=
  raise SettlementError when (bool_decide (is_Some (get_instruction (si_instruction_id row) s))) else
  raise SettlementError when (negb (str_in (si_status row) INSTRUCTION_STATES)) else
  raise SettlementError when (existsb (fun e => String.eqb (si_connector_ref e) (si_connector_ref row)) (ss_instructions s)) else
  raise SettlementError when (negb (si_net_payout_minor row =? si_amount_minor row - si_fee_minor row)) else
  Ok (mk_SettlementStore (ss_batches s) (ss_instructions s ++ [row]) (ss_fee_rules s)).

(** The filters of [list_instructions]; [None] leaves a column free. *)
Definition list_instructions (batch_id status payment_intent_id : option string) (unassigned_only : bool) s :
    list SettlementInstructionRow :=
  List.filter (fun row =>
    match batch_id with None => true | Some b => bool_decide (si_batch_id row = Some b) end &&
    match status with None => true | Some st => String.eqb (si_status row) st end &&
    match payment_intent_id with None => true | Some p => String.eqb (si_payment_intent_id row) p end &&
    negb (unassigned_only && bool_decide (is_Some (si_batch_id row)))) (ss_instructions s).

Definition find_instruction_by_rail_txid (rail_transaction_id : string) (direction : option string) s :
    option SettlementInstructionRow :=
  List.find (fun row => bool_decide (si_rail_transaction_id row = Some rail_transaction_id) &&
    String.eqb (si_status row) "SETTLED" &&
    match direction with None => true | Some d => String.eqb (si_direction row) d end) (ss_instructions s).

Definition find_instructions_for_match (rail : string) (amount_minor date_from date_to : Z) (direction : option string) s :
    list SettlementInstructionRow :=
  List.filter (fun row => String.eqb (si_rail row) rail && String.eqb (si_status row) "SETTLED" &&
    (si_net_payout_minor row =? amount_minor) &&
    match direction with None => true | Some d => String.eqb (si_direction row) d end &&
    match si_batch_id row with
    | None => false
    | Some b => match get_batch b s with
                | None => false
                | Some batch => (date_from <=? sb_cycle_date batch) && (sb_cycle_date batch <=? date_to)
                end
    end) (ss_instructions s).

Definition insert_fee_rule (rule : FeeRule) s : res sexn SettlementStore :=
  raise SettlementError when (existsb (has_key rule_id (rule_id rule)) (ss_fee_rules s)) else
  Ok (mk_SettlementStore (ss_batches s) (ss_instructions s) (ss_fee_rules s ++ [rule])).

Definition list_fee_rules s : list FeeRule := sort_by String.le rule_id (ss_fee_rules s).
End Store.

(** * The BEFTN hand-off *)

Definition _MAX_AMOUNT_MINOR : Z := 99999999 * 100 + 99.

Definition _TRANSACTION_CODES : list (string * string) := [("CREDIT", "22"); ("DEBIT", "27")].

Definition beftn_amount_field (amount_minor : Z) : res sexn string :=
  raise BeftnFormatError when (amount_minor <=? 0) else
  raise BeftnFormatError when (_MAX_AMOUNT_MINOR <? amount_minor) else
  Ok (zpad 8 (amount_minor / 100) +:+ zpad 2 (amount_minor mod 100)).

(** [name[:22].ljust(22)], by code points. *)
Definition _individual_name (name : string) : string :=
  let cs := take 22 (chars name) in unchars (cs ++ replicate (22 - length cs) " ").

(** [s[:15]] by code points. *)
Definition py_take (n : nat) (s : string) : string := unchars (take n (chars s)).

Record BeftnEntry : Type := mk_BeftnEntry {
  be_entry_ref : string;
  be_record_type : string;
  be_transaction_code : string;
  be_account_token : string;
  be_beneficiary_account_ref : string;
  be_amount_minor : Z;
  be_amount_field : string;
  be_individual_id : string;
  be_individual_name : string;
  be_addenda_record_indicator : string;
  be_trace_sequence : string;
  be_instruction_id : string;
  be_connector_ref : string
}.

Definition beftn_entry (names : list (string * string)) (sequence : nat) (i : SettlementInstructionRow) : res sexn BeftnEntry :=
  match aget (si_direction i) _TRANSACTION_CODES with
  | None => Err BeftnFormatError
  | Some code =>
      let* amount_field := beftn_amount_field (si_net_payout_minor i) in
      Ok (mk_BeftnEntry (si_instruction_id i) "6" code (si_beneficiary_account_ref i) (si_beneficiary_account_ref i)
        (si_net_payout_minor i) amount_field (py_take 15 (si_instruction_id i))
        (_individual_name (default (si_merchant_id i) (aget (si_merchant_id i) names))) "0"
        (zpad 7 (Z.of_nat sequence)) (si_instruction_id i) (si_connector_ref i))
  end.

(** [for sequence, instruction in enumerate(instructions, start=sequence)] *)
Fixpoint beftn_entries_from (names : list (string * string)) (sequence : nat) (l : list SettlementInstructionRow) :
    res sexn (list BeftnEntry) :=
  match l with
  | [] => Ok []
  | i :: r =>
      let* e := beftn_entry names sequence i in
      let* es := beftn_entries_from names (S sequence) r in
      Ok (e :: es)
  end.

Definition build_beftn_entries (instructions : list SettlementInstructionRow) (merchant_names : option (list (string * string))) :
    res sexn (list BeftnEntry) :=
  beftn_entries_from (default [] merchant_names) 1 instructions.

Record BeftnBatchHandoff : Type := mk_BeftnBatchHandoff {
  bh_batch_id : string;
  bh_session : string;
  bh_entries : list BeftnEntry;
  bh_effective_date : string
}.

Definition build_handoff (batch : SettlementBatchRow) (instructions : list SettlementInstructionRow)
    (merchant_names : option (list (string * string))) : res sexn BeftnBatchHandoff :=
  match sb_session batch with
  | None => Err BeftnFormatError
  | Some session =>
      let* entries := build_beftn_entries instructions merchant_names in
      Ok (mk_BeftnBatchHandoff (sb_batch_id batch) session entries (iso_date (ord2ymd (sb_cycle_date batch))))
  end.
