(* ===== verification/SettlementEngine.v ===== *)
(** The settlement engine (ledger/settlement/engine.py) over the in-memory
    settlement store and the ledger service.

    The world is the settlement store, the ledger and the alerts raised so far.
    The two stores share no transaction: what an operation wrote before it raised
    stays written, which is the crash model the engine's resume paths are built
    for.  The trust-account gate is an argument: its answer, or what it raises.  An
    operation reads the clock once; [now] is the caller's instant, if it
    passes one.  An aware datetime is an instant, written in UTC. *)
From S2P Require Import Prelude Rows Exceptions DateTime Sha256 Canonical Json LedgerTypes LedgerStore HashChain LedgerService.
From S2P Require Import Fees Calendar Settlement.
Open Scope Z_scope.

Record TcsaGateResult : Type := mk_TcsaGateResult {
  tg_clear : bool;
  tg_snapshot_id : option string;
  tg_shortfall_minor : Z;
  tg_stale : bool
}.

(** The constructor's arguments. *)
Record Engine : Type := mk_Engine {
  en_cfg : LedgerCfg;
  en_calendar : BangladeshBankCalendar;
  en_transit_accounts : list (string * string);
  en_merchant_account : string -> res exn string;
  en_tcsa_account_id : string;
  en_producer : string
}.

Record SWorld : Type := mk_SWorld {
  sw_store : SettlementStore;
  sw_led : Store;
  sw_alerts : list (string * pyobj)
}.

Definition seff := eff SWorld sexn.

(** The zone of the host, which [astimezone] assumes of a naive datetime: the UTC
    instant of a local reading. *)
Class HostTz : Type := { host_utc : Z -> Z }.

(** * Primitives *)

Definition s_res {A} (c : res exn A) : res sexn A := match c with Ok a => Ok a | Err e => Err (SLedger e) end.
Definition s_cal {A} (c : res cal_error A) : res sexn A := match c with Ok a => Ok a | Err _ => Err SCalendar end.

Definition on_store {A} (f : SettlementStore -> res sexn (A * SettlementStore)) : seff A := fun w =>
  match f (sw_store w) with
  | Ok (a, s) => (Ok a, mk_SWorld s (sw_led w) (sw_alerts w))
  | Err e => (Err e, w)
  end.

Definition store_put (f : SettlementStore -> res sexn SettlementStore) : seff unit :=
  on_store (fun s => let* s' := f s in Ok (tt, s')).

Definition on_ledger {A} (f : Store -> LedgerStore.outcome A) : seff A := fun w =>
  let '(r, s) := f (sw_led w) in (s_res r, mk_SWorld (sw_store w) s (sw_alerts w)).

Definition _alert (kind : string) (payload : pyobj) : seff unit := fun w =>
  (Ok tt, mk_SWorld (sw_store w) (sw_led w) (sw_alerts w ++ [(kind, payload)])).

Definition read_store {A} (f : SettlementStore -> A) : seff A := do* w := eget in eret (f (sw_store w)).
Definition read_ledger {A} (f : Store -> A) : seff A := do* w := eget in eret (f (sw_led w)).

(** [for x in l: body(x)] *)
Fixpoint each {A} (body : A -> seff unit) (l : list A) : seff unit :=
  match l with
  | [] => eret tt
  | x :: r => do* _ := body x in each body r
  end.

(** [a <= b] and [a - b] on datetimes. *)
Definition dt_le (a b : datetime) : res sexn bool :=
  raise STypeError when (negb (Bool.eqb (tz_aware a) (tz_aware b))) else Ok (micros a <=? micros b).
Definition dt_sub (a b : datetime) : res sexn Z :=
  raise STypeError when (negb (Bool.eqb (tz_aware a) (tz_aware b))) else Ok (micros a - micros b).

(** [datetime.isoformat()] *)
Definition isoformat (d : datetime) : string :=
  let us := micros d mod micros_per_day in
  let secs := us / 1000000 in
  iso_date (ord2ymd (micros d / micros_per_day)) +:+ "T" +:+
  zpad 2 (secs / 3600) +:+ ":" +:+ zpad 2 (secs mod 3600 / 60) +:+ ":" +:+ zpad 2 (secs mod 60) +:+
  (if us mod 1000000 =? 0 then "" else "." +:+ zpad 6 (us mod 1000000)) +:+
  (if tz_aware d then "+00:00" else "").

Definition date_iso (day : Z) : string := iso_date (ord2ymd day).

(** [a or b] on optional strings. *)
Definition opt_or (a b : option string) : option string :=
  match a with Some s => if truthy s then Some s else b | None => b end.

(** * Comparing a stored payload with a Python one *)

(** [stored == v] for a value [stored] that [json.loads] returned. *)
Fixpoint py_eq (v : pyobj) (stored : json) {struct v} : bool :=
  match v, stored with
  | PNone, JNull => true
  | PBool a, JBool b => Bool.eqb a b
  | PBool a, JInt z => Z.eqb (if a then 1 else 0) z
  | PInt z, JInt z' => z =? z'
  | PInt z, JBool b => z =? (if b then 1 else 0)
  | PStr a, JStr b | PEnum a, JStr b => String.eqb a b
  | PList l, JArr l' =>
      (fix go (l : list pyobj) (l' : list json) : bool :=
         match l, l' with
         | [], [] => true
         | x :: r, y :: r' => py_eq x y && go r r'
         | _, _ => false
         end) l l'
  | PDict items, JObj ms =>
      Nat.eqb (length items) (length ms) &&
      forallb (fun kv => match kv with
        | (KStr k, x) | (KEnum k, x) => match aget k ms with Some y => py_eq x y | None => false end
        | _ => false
        end) items
  | _, _ => false
  end.

(** [d.get(k)] on a Python dictionary with string keys, and on a loaded one. *)
Definition py_get (k : string) (v : pyobj) : option pyobj :=
  match v with
  | PDict items => aget k (omap (fun kv => match kv.1 with KStr s => Some (s, kv.2) | _ => None end) items)
  | _ => None
  end.
Definition json_get (k : string) (j : json) : option json := match j with JObj ms => aget k ms | _ => None end.

(** [a.get(k) == b.get(k)] *)
Definition same_at (a : json) (b : pyobj) (k : string) : bool := py_eq (default PNone (py_get k b)) (default JNull (json_get k a)).

Section Engine.
Context `{HashFn} `{CheckpointSigner} `{Redactor} `{DhakaTz} `{HostTz} (E : Engine).

(** * Machinery *)

(** [self._now()] *)
Definition settlement_now (clock : datetime) : res sexn datetime :=
  raise SettlementError when (negb (tz_aware clock)) else Ok clock.

(** [now or self._now()] *)
Definition now_or (now : option datetime) (clock : datetime) : res sexn datetime :=
  match now with Some t => Ok t | None => settlement_now clock end.

(** [at.astimezone(DHAKA_TZ).date()] *)
Definition dhaka_date (at_ : datetime) : Z :=
  let u := if tz_aware at_ then micros at_ else host_utc (micros at_) in local_date (u + offset_at u).

Definition allowed (table : SettlementTable) (from_state trigger to_state : string) : bool :=
  match aget (from_state, trigger) table with Some tos => str_in to_state tos | None => false end.

Definition _batch_transition (batch : SettlementBatchRow) (trigger to_state : string) : res sexn unit :=
  raise SettlementInvalidTransitionError when (negb (allowed BATCH_TRANSITIONS (sb_status batch) trigger to_state)) else Ok tt.

Definition _instruction_transition (i : SettlementInstructionRow) (trigger to_state : string) : res sexn unit :=
  raise SettlementInvalidTransitionError
    when (negb (allowed INSTRUCTION_TRANSITIONS (si_status i) trigger to_state)) else Ok tt.

Definition batch_audit_spec (batch_id : string) (from_state : option string) (to_state : string) (detail : pyobj) : AuditEventSpec :=
  mk_AuditEventSpec "SETTLEMENT_BATCH_STATE_TRANSITION" (en_producer E) "SERVICE" "SettlementBatch" batch_id from_state
    (Some to_state) detail.

Definition instruction_audit_spec (instruction_id : string) (from_state : option string) (to_state : string) (detail : pyobj) :
    AuditEventSpec :=
  mk_AuditEventSpec "SETTLEMENT_INSTRUCTION_STATE_TRANSITION" (en_producer E) "SERVICE" "SettlementInstruction" instruction_id
    from_state (Some to_state) detail.

Definition _audit_batch (clock : datetime) (batch_id : string) (from_state : option string) (to_state : string) (detail : pyobj)
    (occurred_at : option datetime) : seff unit :=
  do* _ := on_ledger (fun s => write_audit_event (en_cfg E) s (batch_audit_spec batch_id from_state to_state detail) occurred_at clock) in
  eret tt.

Definition _audit_instruction (clock : datetime) (instruction_id : string) (from_state : option string) (to_state : string)
    (detail : pyobj) (occurred_at : option datetime) : seff unit :=
  do* _ := on_ledger (fun s =>
    write_audit_event (en_cfg E) s (instruction_audit_spec instruction_id from_state to_state detail) occurred_at clock) in
  eret tt.

Definition _emit (clock : datetime) (event_type subject_type subject_id : string) (payload : pyobj)
    (occurred_at : option datetime) : seff unit :=
  do* _ := on_ledger (fun s => emit_event (en_cfg E) s event_type subject_type subject_id payload "settlement.events"
    (Some (en_producer E)) occurred_at clock) in
  eret tt.

Definition _require_batch (batch_id : string) : seff SettlementBatchRow :=
  do* b := read_store (get_batch batch_id) in
  match b with None => elift (Err SettlementError) | Some batch => eret batch end.

Definition _require_instruction (instruction_id : string) : seff SettlementInstructionRow :=
  do* i := read_store (get_instruction instruction_id) in
  match i with None => elift (Err SettlementError) | Some row => eret row end.

Definition update_batch_ (batch_id : string) (changes : list batch_change) : seff SettlementBatchRow :=
  on_store (update_batch batch_id changes).
Definition update_instruction_ (instruction_id : string) (changes : list instruction_change) : seff SettlementInstructionRow :=
  on_store (update_instruction instruction_id changes).

(** * Reversal of the staged float *)

Definition flip_posting (p : PostingRow) : PostingSpec :=
  posting (po_account_id p) (if String.eqb (po_side p) "DEBIT" then "CREDIT" else "DEBIT") (po_amount_minor p).

Definition reversal_key (open_entry_id : string) : res exn string :=
  make_id "idem" (dict [("open_entry_id", PStr open_entry_id); ("entry_type", PStr "settlement_batch_open_reversal")]).

Definition reverse_open_entry (clock : datetime) (batch_id : string) (already_reversed : list string) (open_je : JournalEntryRow) :
    seff unit :=
  do* key := elift (s_res (reversal_key (je_entry_id open_je))) in
  if str_in key already_reversed then eret tt
  else
    do* open_postings := read_ledger (fun s => get_postings_for_entry s (je_entry_id open_je)) in
    refuse SettlementError when (bool_decide (open_postings = [])) else
    do* _ := on_ledger (fun s => post_journal_entry (en_cfg E) s
      (mk_JournalEntrySpec batch_id "SETTLEMENT" "settlement_batch_open_reversal"
         ("settlement batch open reversed on terminal cancellation (batch " +:+ batch_id +:+ ", open_je " +:+
          je_entry_id open_je +:+ ")") (en_producer E) key (flip_posting <$> open_postings)) clock) in
    eret tt.

Definition _post_batch_open_reversals (clock : datetime) (batch_id : string) : seff unit :=
  do* existing := read_ledger (fun s => list_journal_entries_by_reference_and_type s batch_id "settlement_batch_open_reversal") in
  do* open_jes := read_ledger (fun s => list_journal_entries_by_reference_and_type s batch_id "settlement_batch_open") in
  each (reverse_open_entry clock batch_id (je_idempotency_key <$> existing)) open_jes.

(** * Release scheduling *)

Definition calculate_earliest_release (succeeded_at : datetime) (mcc_category : string) (delivery_confirmed_at : option datetime) :
    res sexn datetime :=
  raise SettlementError when (negb (str_in mcc_category MCC_CATEGORIES)) else
  let local_date := dhaka_date succeeded_at in
  let* five_wd := s_cal (add_working_days (en_calendar E) local_date 5) in
  if String.eqb mcc_category "OTHER" then Ok succeeded_at
  else
    let hold_days := if String.eqb mcc_category "DAILY_ESSENTIAL" then 5 else 7 in
    let* hold_end := match delivery_confirmed_at with
      | Some d => s_cal (add_working_days (en_calendar E) (dhaka_date d) 0)
      | None => s_cal (add_working_days (en_calendar E) local_date hold_days)
      end in
    Ok (business_day_start_utc (Z.min hold_end five_wd)).

Definition latest_release_at (succeeded_at : datetime) : res sexn datetime :=
  let* day := s_cal (add_working_days (en_calendar E) (dhaka_date succeeded_at) 5) in
  Ok (business_day_start_utc day).

(** [min(a, b)] *)
Definition dt_min (a b : datetime) : res sexn datetime := let* le := dt_le a b in Ok (if le then a else b).

(** * Instruction intake *)

Record SucceededPayment : Type := mk_SucceededPayment {
  sp_payment_intent_id : string;
  sp_merchant_id : string;
  sp_amount_minor : Z;
  sp_fee_minor : Z;
  sp_rail : string;
  sp_beneficiary_account_ref : string;
  sp_mcc_category : string;
  sp_succeeded_at : datetime;
  sp_fee_rule_id : option string;
  sp_delivery_confirmed_at : option datetime;
  sp_direction : string
}.

Definition sinst_id (p : SucceededPayment) : res exn string :=
  make_id "sinst" (dict [("payment_intent_id", PStr (sp_payment_intent_id p)); ("merchant_id", PStr (sp_merchant_id p));
    ("amount_minor", PInt (sp_amount_minor p)); ("rail", PStr (sp_rail p)); ("direction", PStr (sp_direction p))]).

Definition queued_row (p : SucceededPayment) (instruction_id : string) (earliest latest now : datetime) : SettlementInstructionRow :=
  mk_SettlementInstructionRow instruction_id None (sp_payment_intent_id p) (sp_merchant_id p) (sp_direction p)
    (sp_amount_minor p) (sp_fee_minor p) (sp_amount_minor p - sp_fee_minor p) (sp_fee_rule_id p) "BDT" (sp_rail p)
    (sp_beneficiary_account_ref p) (sp_mcc_category p) (HIGH_VALUE_THRESHOLD_MINOR <=? sp_amount_minor p) earliest latest
    (String.eqb (sp_mcc_category p) "OTHER" || bool_decide (is_Some (sp_delivery_confirmed_at p))) false "QUEUED" None None
    instruction_id now None None None None (en_producer E) 1.

Definition register_succeeded_payment (clock : datetime) (p : SucceededPayment) : seff string :=
  refuse SettlementError when (negb (str_in (sp_rail p) RAILS)) else
  refuse SettlementError when (negb (str_in (sp_direction p) DIRECTIONS)) else
  refuse SettlementError when (negb (str_in (sp_mcc_category p) MCC_CATEGORIES)) else
  refuse SettlementError
    when ((sp_amount_minor p <=? 0) || (sp_fee_minor p <? 0) || (sp_amount_minor p <? sp_fee_minor p)) else
  do* instruction_id := elift (s_res (sinst_id p)) in
  do* known := read_store (get_instruction instruction_id) in
  if bool_decide (is_Some known) then eret instruction_id
  else
    do* now := elift (settlement_now clock) in
    do* earliest := elift (calculate_earliest_release (sp_succeeded_at p) (sp_mcc_category p) (sp_delivery_confirmed_at p)) in
    do* latest := elift (latest_release_at (sp_succeeded_at p)) in
    do* earliest := elift (dt_min earliest latest) in
    do* _ := store_put (insert_instruction (queued_row p instruction_id earliest latest now)) in
    do* _ := _audit_instruction clock instruction_id None "QUEUED" (dict [("rail", PStr (sp_rail p))]) None in
    eret instruction_id.

Definition set_aml_hold (payment_intent_id : string) (hold : bool) : seff Z :=
  do* rows := read_store (list_instructions None (Some "QUEUED"%string) (Some payment_intent_id) false) in
  do* _ := each (fun row => do* _ := update_instruction_ (si_instruction_id row) [I_aml_hold hold] in eret tt) rows in
  eret (Z.of_nat (length rows)).

Definition confirm_delivery (payment_intent_id : string) (confirmed_at : datetime) : seff Z :=
  do* rows := read_store (list_instructions None (Some "QUEUED"%string) (Some payment_intent_id) false) in
  do* _ := each (fun row =>
    do* earliest := elift (calculate_earliest_release (si_created_at row) (si_mcc_category row) (Some confirmed_at)) in
    do* earliest := elift (dt_min earliest (si_latest_release_at row)) in
    do* _ := update_instruction_ (si_instruction_id row) [I_delivery_hold_cleared true; I_earliest_release_at earliest] in
    eret tt) rows in
  eret (Z.of_nat (length rows)).

(** * Batch accumulation *)

Definition sbatch_id (rail : string) (cycle_date : Z) (session : option string) : res exn string :=
  make_id "sbatch" (dict [("rail", PStr rail); ("cycle_date", PStr (date_iso cycle_date)); ("session", POpt session)]).

Definition open_row (batch_id rail : string) (cycle_date : Z) (session : option string) (now : datetime) : SettlementBatchRow :=
  mk_SettlementBatchRow batch_id rail cycle_date session "OPEN" 0 0 0 "BDT" 0 false None None None None None None None now
    None None None None None None (en_producer E) 1.

Definition _get_or_create_open_batch (clock : datetime) (rail : string) (cycle_date : Z) (session : option string) :
    seff SettlementBatchRow :=
  do* existing := read_store (find_open_batch rail cycle_date session) in
  match existing with
  | Some b => eret b
  | None =>
      do* now := elift (settlement_now clock) in
      do* batch_id := elift (s_res (sbatch_id rail cycle_date session)) in
      let row := open_row batch_id rail cycle_date session now in
      do* _ := store_put (insert_batch row) in
      eret row
  end.

(** The delivery hold is over. *)
Definition hold_over (row : SettlementInstructionRow) (now : datetime) : res sexn bool :=
  if si_delivery_hold_cleared row then dt_le (si_earliest_release_at row) now else Ok false.

Definition _releasable (row : SettlementInstructionRow) (now : datetime) : res sexn bool :=
  if negb (String.eqb (si_status row) "QUEUED") || bool_decide (is_Some (si_batch_id row)) then Ok false
  else if si_aml_hold row then Ok false
  else
    let* deadline := dt_le (si_latest_release_at row) now in
    if deadline then Ok true else hold_over row now.

(** [now >= row.latest_release_at and not (row.delivery_hold_cleared and now >= row.earliest_release_at)] *)
Definition statutory_release (row : SettlementInstructionRow) (now : datetime) : res sexn bool :=
  let* deadline := dt_le (si_latest_release_at row) now in
  if deadline then let* over := hold_over row now in Ok (negb over) else Ok false.

Definition beftn_session_name (s : option BeftnSession) : string :=
  match s with Some MORNING => "morning" | Some AFTERNOON => "afternoon" | Some END_OF_DAY => "eod" | None => "eod" end.

Definition session_for (rail : string) (now : datetime) : res sexn (option string) :=
  if String.eqb rail "beftn_batch_v2" then
    let* s := s_cal (beftn_session (en_calendar E) now) in Ok (Some (beftn_session_name s))
  else Ok None.

Definition open_key (batch_id instruction_id : string) : res exn string :=
  make_id "idem" (dict [("batch_id", PStr batch_id); ("instruction_id", PStr instruction_id);
    ("entry_type", PStr "settlement_batch_open")]).

Definition open_spec (batch_id key transit_account : string) (net_payout_minor : Z) : JournalEntrySpec :=
  mk_JournalEntrySpec batch_id "SETTLEMENT" "settlement_batch_open" "settlement batch accumulation (rail float staged to TCSA)"
    (en_producer E) key
    [posting (en_tcsa_account_id E) "DEBIT" net_payout_minor; posting transit_account "CREDIT" net_payout_minor].

Definition if_direction (d : string) (row : SettlementInstructionRow) : Z :=
  if String.eqb (si_direction row) d then si_net_payout_minor row else 0.

Definition audit_statutory (clock : datetime) (statutory : bool) (row : SettlementInstructionRow) : seff unit :=
  if statutory then
    _audit_instruction clock (si_instruction_id row) (Some "QUEUED"%string) "QUEUED"
      (dict [("released_at_statutory_deadline", PBool true)]) None
  else eret tt.

Definition flag_large (batch_id : string) (updated : SettlementBatchRow) : seff unit :=
  if DISPATCH_TWO_EYES_THRESHOLD_MINOR <? sb_total_credit_minor updated then
    do* _ := update_batch_ batch_id [B_two_eyes_required true] in eret tt
  else eret tt.

(** One releasable instruction joins its rail's OPEN batch. *)
Definition assign_one (clock now : datetime) (cycle_date : Z) (row : SettlementInstructionRow) : seff unit :=
  do* statutory := elift (statutory_release row now) in
  do* session := elift (session_for (si_rail row) now) in
  do* batch := _get_or_create_open_batch clock (si_rail row) cycle_date session in
  match aget (si_rail row) (en_transit_accounts E) with
  | None => elift (Err SettlementError)
  | Some transit_account =>
      do* key := elift (s_res (open_key (sb_batch_id batch) (si_instruction_id row))) in
      do* _ := on_ledger (fun s => post_journal_entry (en_cfg E) s
        (open_spec (sb_batch_id batch) key transit_account (si_net_payout_minor row)) clock) in
      do* updated := update_batch_ (sb_batch_id batch)
        [B_instruction_count (sb_instruction_count batch + 1);
         B_total_credit_minor (sb_total_credit_minor batch + if_direction "CREDIT" row);
         B_total_debit_minor (sb_total_debit_minor batch + if_direction "DEBIT" row)] in
      do* _ := update_instruction_ (si_instruction_id row)
        (I_batch_id (Some (sb_batch_id batch)) :: if statutory then [I_delivery_hold_cleared true] else []) in
      do* _ := audit_statutory clock statutory row in
      flag_large (sb_batch_id batch) updated
  end.

Fixpoint assign_loop (clock now : datetime) (cycle_date : Z) (rows : list SettlementInstructionRow) (assigned : list string) :
    seff (list string) :=
  match rows with
  | [] => eret assigned
  | row :: r =>
      do* ok := elift (_releasable row now) in
      if negb ok then assign_loop clock now cycle_date r assigned
      else
        do* _ := assign_one clock now cycle_date row in
        assign_loop clock now cycle_date r (assigned ++ [si_instruction_id row])
  end.

Definition assign_due_instructions (clock : datetime) (now : option datetime) : seff (list string) :=
  do* now := elift (now_or now clock) in
  do* rows := read_store (list_instructions None (Some "QUEUED"%string) None true) in
  assign_loop clock now (dhaka_date now) rows [].

(** * Triggers on a batch *)

Definition cutoff (clock : datetime) (batch_id : string) (now : option datetime) : seff SettlementBatchRow :=
  do* batch := _require_batch batch_id in
  do* now := elift (now_or now clock) in
  if 1 <=? sb_instruction_count batch then
    do* _ := elift (_batch_transition batch "batch_cutoff_reached" "PENDING_DISPATCH") in
    do* updated := update_batch_ batch_id [B_status "PENDING_DISPATCH"; B_cutoff_at (Some now)] in
    do* _ := _audit_batch clock batch_id (Some "OPEN"%string) "PENDING_DISPATCH" (dict [("trigger", PStr "cutoff")]) None in
    do* _ := _emit clock "settlement_batch.pending_dispatch" "SettlementBatch" batch_id
      (dict [("rail", PStr (sb_rail batch)); ("cycle_date", PStr (date_iso (sb_cycle_date batch)));
             ("session", POpt (sb_session batch)); ("instruction_count", PInt (sb_instruction_count batch));
             ("total_credit_minor", PInt (sb_total_credit_minor batch))]) None in
    eret updated
  else
    do* _ := elift (_batch_transition batch "batch_cutoff_reached" "CANCELLED") in
    do* updated := update_batch_ batch_id
      [B_status "CANCELLED"; B_cancelled_at (Some now); B_fail_reason_code (Some "EMPTY_BATCH"%string)] in
    do* _ := _audit_batch clock batch_id (Some "OPEN"%string) "CANCELLED" (dict [("reason", PStr "EMPTY_BATCH")]) None in
    do* _ := _emit clock "settlement_batch.cancelled" "SettlementBatch" batch_id
      (dict [("rail", PStr (sb_rail batch)); ("reason", PStr "EMPTY_BATCH")]) None in
    eret updated.

Definition grant_approval (clock : datetime) (batch_id approval_request_id : string) : seff SettlementBatchRow :=
  do* batch := _require_batch batch_id in
  do* _ := elift (_batch_transition batch "approval_granted" "PENDING_DISPATCH") in
  do* updated := update_batch_ batch_id [B_approval_request_id (Some approval_request_id); B_two_eyes_required false] in
  do* _ := _audit_batch clock batch_id (Some "PENDING_DISPATCH"%string) "PENDING_DISPATCH"
    (dict [("approval_request_id", PStr approval_request_id)]) None in
  eret updated.

(** The loop of [try_dispatch]: every QUEUED member is submitted. *)
Fixpoint submit_loop (clock now : datetime) (rows submitted : list SettlementInstructionRow) :
    seff (list SettlementInstructionRow) :=
  match rows with
  | [] => eret submitted
  | row :: r =>
      do* _ := elift (_instruction_transition row "batch_dispatched" "SUBMITTED") in
      do* _ := update_instruction_ (si_instruction_id row) [I_status "SUBMITTED"; I_submitted_at (Some now)] in
      do* _ := _audit_instruction clock (si_instruction_id row) (Some "QUEUED"%string) "SUBMITTED" (dict []) None in
      do* sent := _require_instruction (si_instruction_id row) in
      submit_loop clock now r (submitted ++ [sent])
  end.

Definition hold_batch (clock now : datetime) (batch : SettlementBatchRow) (batch_id : string) (gate : TcsaGateResult) :
    seff SettlementBatchRow :=
  do* _ := elift (_batch_transition batch "dispatch_triggered" "HELD") in
  do* updated := update_batch_ batch_id
    [B_status "HELD"; B_held_at (Some now); B_held_tcsa_snapshot_id (tg_snapshot_id gate)] in
  do* _ := _audit_batch clock batch_id (Some "PENDING_DISPATCH"%string) "HELD"
    (dict [("held_tcsa_snapshot_id", POpt (tg_snapshot_id gate)); ("shortfall_minor", PInt (tg_shortfall_minor gate));
           ("stale_snapshot", PBool (tg_stale gate))]) None in
  do* _ := _emit clock "settlement_batch.held" "SettlementBatch" batch_id
    (dict [("rail", PStr (sb_rail batch)); ("held_tcsa_snapshot_id", POpt (tg_snapshot_id gate));
           ("shortfall_minor", PInt (tg_shortfall_minor gate))]) None in
  do* _ := _alert (if tg_stale gate then "tcsa-monitor-down" else "tcsa-shortfall-hold")
    (dict [("batch_id", PStr batch_id); ("shortfall_minor", PInt (tg_shortfall_minor gate))]) in
  eret updated.

Definition try_dispatch (clock : datetime) (gate : res sexn TcsaGateResult) (batch_id : string) (now : option datetime) :
    seff (SettlementBatchRow * option BeftnBatchHandoff) :=
  do* batch := _require_batch batch_id in
  do* now := elift (now_or now clock) in
  refuse SettlementGuardError when (sb_two_eyes_required batch) else
  do* _ := elift (_batch_transition batch "dispatch_triggered" "DISPATCHED") in
  do* gate := elift gate in
  if negb (tg_clear gate) then do* updated := hold_batch clock now batch batch_id gate in eret (updated, None)
  else
    do* updated := update_batch_ batch_id
      [B_status "DISPATCHED"; B_dispatched_at (Some now); B_connector_ref (Some batch_id)] in
    do* rows := read_store (list_instructions (Some batch_id) (Some "QUEUED"%string) None false) in
    do* submitted := submit_loop clock now rows [] in
    do* _ := _audit_batch clock batch_id (Some "PENDING_DISPATCH"%string) "DISPATCHED"
      (dict [("rail", PStr (sb_rail batch))]) None in
    do* _ := _emit clock "settlement_batch.dispatched" "SettlementBatch" batch_id
      (dict [("rail", PStr (sb_rail batch)); ("cycle_date", PStr (date_iso (sb_cycle_date batch)));
             ("connector_ref", PStr batch_id)]) None in
    if String.eqb (sb_rail batch) "beftn_batch_v2" then
      do* handoff := elift (build_handoff updated submitted None) in eret (updated, Some handoff)
    else eret (updated, None).

Definition release_held (clock : datetime) (gate : res sexn TcsaGateResult) (batch_id : string) (now : option datetime) :
    seff SettlementBatchRow :=
  do* batch := _require_batch batch_id in
  do* now := elift (now_or now clock) in
  do* _ := elift (_batch_transition batch "tcsa_shortfall_resolved" "PENDING_DISPATCH") in
  do* gate := elift gate in
  refuse SettlementGuardError when (negb (tg_clear gate)) else
  do* updated := update_batch_ batch_id [B_status "PENDING_DISPATCH"] in
  do* _ := _audit_batch clock batch_id (Some "HELD"%string) "PENDING_DISPATCH"
    (dict [("released_at", PStr (isoformat now))]) None in
  do* _ := _emit clock "settlement_batch.released" "SettlementBatch" batch_id
    (dict [("rail", PStr (sb_rail batch)); ("released_at", PStr (isoformat now));
           ("releasing_tcsa_snapshot_id", POpt (tg_snapshot_id gate))]) None in
  eret updated.

(** * Durable events *)

Definition _outbox_payloads_semantically_equal (event_type : string) (a : json) (b : pyobj) : res sexn bool :=
  if String.eqb event_type "settlement_instruction.settled" then
    raise SAttributeError when (match a with JObj _ => false | _ => true end) else
    Ok (forallb (same_at a b) ["batch_id"; "merchant_id"; "net_payout_minor"; "rail_transaction_id"])
  else if String.eqb event_type "settlement_batch.confirmed" then
    raise SAttributeError when (match a with JObj _ => false | _ => true end) else
    Ok (forallb (same_at a b) ["rail"; "cycle_date"; "sponsor_bank_ref"])
  else Ok (py_eq b a).

(** A stored audit row of the same type and states with the same payload. *)
Definition same_audit (spec : AuditEventSpec) (ev : AuditEventRow) : bool :=
  String.eqb (au_event_type ev) (as_event_type spec) &&
  bool_decide (au_from_state ev = Some (or_str (as_from_state spec) "")) &&
  bool_decide (au_to_state ev = Some (or_str (as_to_state spec) "")) &&
  match json_loads (au_payload_json ev) with Some stored => py_eq (as_payload spec) stored | None => false end.

Definition _has_equivalent_audit_event (s : Store) (spec : AuditEventSpec) (occurred_at clock : datetime) : res sexn bool :=
  let* exact := s_res (audit_event_exists s spec (Some occurred_at) clock) in
  if exact then Ok true
  else Ok (existsb (same_audit spec) (list_audit_events s (Some (as_subject_type spec)) (Some (as_subject_id spec)))).

(** [list_outbox_by_subject]: by [(occurred_at, event_id)]. *)
Definition list_outbox_by_subject (event_type subject_id : string) (s : Store) : list OutboxRow :=
  sort_by batch_le (fun r => (micros (ob_occurred_at r), ob_event_id r))
    (List.filter (fun r => String.eqb (ob_event_type r) event_type && String.eqb (ob_subject_id r) subject_id)
       (map_to_list (s_outbox s)).*2).

Fixpoint any_equal_outbox (event_type : string) (payload : pyobj) (rows : list OutboxRow) : res sexn bool :=
  match rows with
  | [] => Ok false
  | ev :: r =>
      match json_loads (ob_payload_json ev) with
      | Some (JObj ms) =>
          let* same := _outbox_payloads_semantically_equal event_type (default (JObj []) (aget "payload"%string ms)) payload in
          if same then Ok true else any_equal_outbox event_type payload r
      | _ => any_equal_outbox event_type payload r
      end
  end.

Definition _has_equivalent_outbox_event (s : Store) (event_type subject_type subject_id : string) (payload : pyobj)
    (occurred_at : datetime) : res sexn bool :=
  let* exact := s_res (outbox_event_exists s event_type subject_type subject_id payload occurred_at) in
  if exact then Ok true else any_equal_outbox event_type payload (list_outbox_by_subject event_type subject_id s).

Definition confirmed_audit_spec (batch : SettlementBatchRow) (batch_id : string) : AuditEventSpec :=
  batch_audit_spec batch_id (Some "DISPATCHED"%string) "CONFIRMED" (dict [("sponsor_bank_ref", POpt (sb_sponsor_bank_ref batch))]).

Definition confirmed_payload (batch : SettlementBatchRow) (confirmed_at : datetime) : pyobj :=
  dict [("rail", PStr (sb_rail batch)); ("cycle_date", PStr (date_iso (sb_cycle_date batch)));
        ("confirmed_at", PStr (isoformat confirmed_at)); ("sponsor_bank_ref", POpt (sb_sponsor_bank_ref batch))].

Definition _batch_confirmed_events_exist (clock : datetime) (batch_id : string) : seff bool :=
  do* batch := _require_batch batch_id in
  match sb_confirmed_at batch with
  | Some confirmed_at =>
      if negb (String.eqb (sb_status batch) "CONFIRMED") then eret false
      else
        do* led := read_ledger id in
        do* audit := elift (_has_equivalent_audit_event led (confirmed_audit_spec batch batch_id) confirmed_at clock) in
        if audit then
          elift (_has_equivalent_outbox_event led "settlement_batch.confirmed" "SettlementBatch" batch_id
            (confirmed_payload batch confirmed_at) confirmed_at)
        else eret false
  | None => eret false
  end.

Definition settled_payload (batch_id : option string) (row : SettlementInstructionRow) (txid : option string) (settled_at : datetime) :
    pyobj :=
  dict [("batch_id", POpt batch_id); ("merchant_id", PStr (si_merchant_id row));
        ("net_payout_minor", PInt (si_net_payout_minor row)); ("rail_transaction_id", POpt txid);
        ("settled_at", PStr (isoformat settled_at))].

(** [outbox_event_exists(...) or self._has_equivalent_outbox_event(...)] *)
Definition outbox_recorded (s : Store) (event_type subject_type subject_id : string) (payload : pyobj) (occurred_at : datetime) :
    res sexn bool :=
  let* exact := s_res (outbox_event_exists s event_type subject_type subject_id payload occurred_at) in
  if exact then Ok true else _has_equivalent_outbox_event s event_type subject_type subject_id payload occurred_at.

Definition reconcile_instruction (clock : datetime) (batch_id : string) (row : SettlementInstructionRow) : seff bool :=
  match si_settled_at row with
  | None => eret false
  | Some settled_at =>
      do* led := read_ledger id in
      do* has_audit := elift (_has_equivalent_audit_event led
        (instruction_audit_spec (si_instruction_id row) (Some "SUBMITTED"%string) "SETTLED" (dict [])) settled_at clock) in
      let payload := settled_payload (Some batch_id) row (si_rail_transaction_id row) settled_at in
      do* has_outbox := elift (outbox_recorded led "settlement_instruction.settled" "SettlementInstruction"
        (si_instruction_id row) payload settled_at) in
      do* _ := (if has_audit then eret tt else
        _audit_instruction clock (si_instruction_id row) (Some "SUBMITTED"%string) "SETTLED" (dict []) (Some settled_at)) in
      do* _ := (if has_outbox then eret tt else
        _emit clock "settlement_instruction.settled" "SettlementInstruction" (si_instruction_id row) payload (Some settled_at)) in
      eret (negb has_audit || negb has_outbox)
  end.

Fixpoint reconcile_rows (clock : datetime) (batch_id : string) (rows : list SettlementInstructionRow) (repaired : bool) : seff bool :=
  match rows with
  | [] => eret repaired
  | row :: r => do* x := reconcile_instruction clock batch_id row in reconcile_rows clock batch_id r (repaired || x)
  end.

Definition _reconcile_settled_instruction_events (clock : datetime) (batch_id : string) : seff bool :=
  do* rows := read_store (list_instructions (Some batch_id) (Some "SETTLED"%string) None false) in
  reconcile_rows clock batch_id rows false.

Definition _reconcile_batch_confirmed_events (clock : datetime) (batch_id : string) : seff bool :=
  do* batch := _require_batch batch_id in
  match sb_confirmed_at batch with
  | Some confirmed_at =>
      if negb (String.eqb (sb_status batch) "CONFIRMED") then eret false
      else
        do* led := read_ledger id in
        do* has_audit := elift (_has_equivalent_audit_event led (confirmed_audit_spec batch batch_id) confirmed_at clock) in
        do* has_outbox := elift (outbox_recorded led "settlement_batch.confirmed" "SettlementBatch" batch_id
          (confirmed_payload batch confirmed_at) confirmed_at) in
        do* _ := (if has_audit then eret tt else
          _audit_batch clock batch_id (Some "DISPATCHED"%string) "CONFIRMED"
            (dict [("sponsor_bank_ref", POpt (sb_sponsor_bank_ref batch))]) (Some confirmed_at)) in
        do* _ := (if has_outbox then eret tt else
          _emit clock "settlement_batch.confirmed" "SettlementBatch" batch_id (confirmed_payload batch confirmed_at)
            (Some confirmed_at)) in
        eret (negb has_audit || negb has_outbox)
  | None => eret false
  end.

(** * Confirmation *)

(** [per_merchant[m] = per_merchant.get(m, 0) + amount] *)
Fixpoint add_to (m : string) (amount : Z) (d : list (string * Z)) : list (string * Z) :=
  match d with
  | [] => [(m, amount)]
  | (k, v) :: r => if String.eqb k m then (k, v + amount) :: r else (k, v) :: add_to m amount r
  end.

Definition per_merchant (rows : list SettlementInstructionRow) : list (string * Z) :=
  foldl (fun d row => add_to (si_merchant_id row) (si_net_payout_minor row) d) [] rows.

Definition merchant_debit (kv : string * Z) : res sexn PostingSpec :=
  let* account := s_res (en_merchant_account E kv.1) in Ok (posting account "DEBIT" kv.2).

Definition close_postings (rows : list SettlementInstructionRow) : res sexn (list PostingSpec) :=
  let* debits := rmap merchant_debit (sort_items (per_merchant rows)) in
  Ok (debits ++ [posting (en_tcsa_account_id E) "CREDIT" (sumZ snd (per_merchant rows))]).

Definition close_key (batch_id : string) : res exn string :=
  make_id "idem" (dict [("batch_id", PStr batch_id); ("entry_type", PStr "settlement_batch_close")]).

Definition close_spec (batch_id key : string) (postings : list PostingSpec) : JournalEntrySpec :=
  mk_JournalEntrySpec batch_id "SETTLEMENT" "settlement_batch_close" "settlement batch confirmed; merchant obligations cleared"
    (en_producer E) key postings.

(** [try: post except LedgerDuplicateError: verify the close entry is there] *)
Definition post_close (clock : datetime) (batch_id key : string) (postings : list PostingSpec) : seff unit := fun w =>
  match on_ledger (fun s => post_journal_entry (en_cfg E) s (close_spec batch_id key postings) clock) w with
  | (Ok _, w') => (Ok tt, w')
  | (Err (SLedger (LedgerDuplicateError k i)), w') =>
      if bool_decide (list_journal_entries_by_reference_and_type (sw_led w') batch_id "settlement_batch_close" = [])
      then (Err (SLedger (LedgerDuplicateError k i)), w') else (Ok tt, w')
  | (Err e, w') => (Err e, w')
  end.

Definition close_batch (clock : datetime) (batch_id : string) (rows : list SettlementInstructionRow) : seff unit :=
  if bool_decide (rows = []) then eret tt
  else
  do* postings := elift (close_postings rows) in
  do* key := elift (s_res (close_key batch_id)) in
  post_close clock batch_id key postings.

(** One turn of phase 3. *)
Definition settle_one (clock now : datetime) (batch_id : string) (rail_transaction_ids : list (string * string))
    (row : SettlementInstructionRow) : seff unit :=
  do* _ := elift (_instruction_transition row "rail_confirmed" "SETTLED") in
  let settled_tx := opt_or (si_rail_transaction_id row) (aget (si_instruction_id row) rail_transaction_ids) in
  do* _ := update_instruction_ (si_instruction_id row)
    [I_status "SETTLED"; I_settled_at (Some now); I_rail_transaction_id settled_tx] in
  do* _ := _audit_instruction clock (si_instruction_id row) (Some "SUBMITTED"%string) "SETTLED" (dict []) (Some now) in
  _emit clock "settlement_instruction.settled" "SettlementInstruction" (si_instruction_id row)
    (settled_payload (Some batch_id) row settled_tx now) (Some now).

(** The sponsor reference [confirm] goes on with, after its two checks. *)
Definition confirm_ref (batch : SettlementBatchRow) (sponsor_bank_ref : option string) : res sexn (option string) :=
  let* ref := (if String.eqb (sb_status batch) "CONFIRMED" then Ok (opt_or sponsor_bank_ref (sb_sponsor_bank_ref batch))
    else match sponsor_bank_ref with
         | Some r => Ok (Some r)
         | None => match sb_sponsor_bank_ref batch with None => Err SettlementError | Some r => Ok (Some r) end
         end) in
  raise SettlementError when (match sb_sponsor_bank_ref batch with
    | Some r => negb (bool_decide (ref = Some r)) | None => false end) else
  Ok ref.

Definition submitted_of (batch_id : string) : SettlementStore -> list SettlementInstructionRow :=
  list_instructions (Some batch_id) (Some "SUBMITTED"%string) None false.

(** Evidence, close entry (phase 1) and the batch's own status (phase 2). *)
Definition commit_confirmation (clock now : datetime) (batch_id : string) (ref : option string)
    (rail_transaction_ids : list (string * string)) : seff (SettlementBatchRow * list SettlementInstructionRow) :=
  match ref with
  | None => elift (Err SAssertionError)
  | Some r =>
      do* _ := on_store (persist_confirmation_evidence batch_id r rail_transaction_ids) in
      do* rows := read_store (submitted_of batch_id) in
      do* _ := close_batch clock batch_id rows in
      do* updated := update_batch_ batch_id
        [B_status "CONFIRMED"; B_confirmed_at (Some now); B_sponsor_bank_ref ref] in
      eret (updated, rows)
  end.

(** Phase 3 and what follows it. *)
Definition finish_confirmation (clock now : datetime) (batch_id : string) (rail_transaction_ids : list (string * string))
    (updated : SettlementBatchRow) (rows : list SettlementInstructionRow) : seff SettlementBatchRow :=
  do* _ := each (settle_one clock now batch_id rail_transaction_ids) rows in
  do* _ := (if String.eqb (sb_status updated) "CONFIRMED" then
      do* _ := _reconcile_settled_instruction_events clock batch_id in
      do* _ := _reconcile_batch_confirmed_events clock batch_id in eret tt
    else eret tt) in
  do* _ := on_ledger (fun s => trial_balance_assertion s clock) in
  eret updated.

Definition confirm (clock : datetime) (batch_id : string) (sponsor_bank_ref : option string)
    (rail_transaction_ids : list (string * string)) (now : option datetime) : seff SettlementBatchRow :=
  do* batch := _require_batch batch_id in
  do* now := elift (now_or now clock) in
  do* ref := elift (confirm_ref batch sponsor_bank_ref) in
  do* _ := elift (_batch_transition batch "sponsor_bank_confirmed" "CONFIRMED") in
  if String.eqb (sb_status batch) "CONFIRMED" then
    do* rows := read_store (submitted_of batch_id) in
    finish_confirmation clock now batch_id rail_transaction_ids batch rows
  else
    do* committed := commit_confirmation clock now batch_id ref rail_transaction_ids in
    finish_confirmation clock now batch_id rail_transaction_ids committed.1 committed.2.

(** [_note(batch_id)] *)
Definition note (batch_id : string) (resumed : list string) : list string :=
  if str_in batch_id resumed then resumed else resumed ++ [batch_id].

(** Crash window B: a CONFIRMED batch. *)
Definition resume_confirmed (clock now : datetime) (batch : SettlementBatchRow) (resumed : list string) : seff (list string) :=
  do* pending := read_store (submitted_of (sb_batch_id batch)) in
  do* resumed := (if bool_decide (pending = []) then eret resumed else
    do* _ := confirm clock (sb_batch_id batch) (sb_sponsor_bank_ref batch) [] (Some now) in
    eret (note (sb_batch_id batch) resumed)) in
  do* whole := _batch_confirmed_events_exist clock (sb_batch_id batch) in
  if whole then eret resumed
  else
    do* r1 := _reconcile_settled_instruction_events clock (sb_batch_id batch) in
    let resumed := if r1 then note (sb_batch_id batch) resumed else resumed in
    do* r2 := _reconcile_batch_confirmed_events clock (sb_batch_id batch) in
    eret (if r2 then note (sb_batch_id batch) resumed else resumed).

(** Crash window A: a DISPATCHED batch with durable confirmation evidence. *)
Definition resume_dispatched (clock now : datetime) (batch : SettlementBatchRow) (resumed : list string) : seff (list string) :=
  do* close_jes := read_ledger (fun s => list_journal_entries_by_reference_and_type s (sb_batch_id batch) "settlement_batch_close") in
  match sb_sponsor_bank_ref batch with
  | Some r =>
      do* _ := confirm clock (sb_batch_id batch) (Some r) [] (Some now) in
      eret (note (sb_batch_id batch) resumed)
  | None =>
      do* _ := (if bool_decide (close_jes = []) then eret tt else
        _alert "settlement-unrecoverable-close-je-without-sponsor-ref" (dict [("batch_id", PStr (sb_batch_id batch))])) in
      eret resumed
  end.

Fixpoint resume_loop (body : SettlementBatchRow -> list string -> seff (list string)) (batches : list SettlementBatchRow)
    (resumed : list string) : seff (list string) :=
  match batches with
  | [] => eret resumed
  | b :: r => do* resumed := body b resumed in resume_loop body r resumed
  end.

Definition resume_confirmations (clock : datetime) (now : option datetime) : seff (list string) :=
  do* now := elift (now_or now clock) in
  do* confirmed := read_store (list_batches (Some "CONFIRMED"%string)) in
  do* resumed := resume_loop (resume_confirmed clock now) confirmed [] in
  do* dispatched := read_store (list_batches (Some "DISPATCHED"%string)) in
  resume_loop (resume_dispatched clock now) dispatched resumed.

(** * Failure, retry, cancellation *)

Definition fail_one (clock now : datetime) (row : SettlementInstructionRow) : seff unit :=
  do* _ := elift (_instruction_transition row "timeout_on_batch_fail" "FAILED") in
  do* _ := update_instruction_ (si_instruction_id row)
    [I_status "FAILED"; I_failed_at (Some now); I_return_reason_code (Some "BATCH_FAILED"%string)] in
  do* _ := _audit_instruction clock (si_instruction_id row) (Some "SUBMITTED"%string) "FAILED"
    (dict [("reason_code", PStr "BATCH_FAILED")]) None in
  _emit clock "settlement_instruction.failed" "SettlementInstruction" (si_instruction_id row)
    (dict [("reason_code", PStr "BATCH_FAILED")]) None.

Definition _fail_batch (clock : datetime) (batch_id trigger reason_code : string) (now : option datetime) : seff SettlementBatchRow :=
  do* batch := _require_batch batch_id in
  do* now := elift (now_or now clock) in
  refuse SettlementError
    when (String.eqb (sb_status batch) "DISPATCHED" && bool_decide (is_Some (sb_sponsor_bank_ref batch))) else
  do* _ := elift (_batch_transition batch trigger "FAILED") in
  do* updated := update_batch_ batch_id
    [B_status "FAILED"; B_failed_at (Some now); B_fail_reason_code (Some reason_code)] in
  do* rows := read_store (submitted_of batch_id) in
  do* _ := each (fail_one clock now) rows in
  do* _ := _audit_batch clock batch_id (Some "DISPATCHED"%string) "FAILED" (dict [("reason_code", PStr reason_code)]) None in
  do* _ := _emit clock "settlement_batch.failed" "SettlementBatch" batch_id
    (dict [("rail", PStr (sb_rail batch)); ("fail_reason_code", PStr reason_code); ("retry_count", PInt (sb_retry_count batch))])
    None in
  eret updated.

Definition reject (clock : datetime) (batch_id reason_code : string) (now : option datetime) : seff SettlementBatchRow :=
  _fail_batch clock batch_id "sponsor_bank_rejected" reason_code now.

(** Past the rail's timeout, in microseconds. *)
Definition timed_out (now : datetime) (batch : SettlementBatchRow) : res sexn bool :=
  match sb_sponsor_bank_ref batch, sb_dispatched_at batch with
  | None, Some t =>
      let* elapsed := dt_sub now t in
      Ok (default 30 (aget (sb_rail batch) BATCH_DISPATCH_TIMEOUT_MINUTES) * 60000000 <? elapsed)
  | _, _ => Ok false
  end.

Fixpoint timeout_loop (clock now : datetime) (batches : list SettlementBatchRow) (failed : list string) : seff (list string) :=
  match batches with
  | [] => eret failed
  | b :: r =>
      do* late := elift (timed_out now b) in
      if late then
        do* _ := _fail_batch clock (sb_batch_id b) "connector_timeout" "TIMEOUT_EXHAUSTED" (Some now) in
        timeout_loop clock now r (failed ++ [sb_batch_id b])
      else timeout_loop clock now r failed
  end.

Definition timeout_check (clock : datetime) (now : option datetime) : seff (list string) :=
  do* now := elift (now_or now clock) in
  do* batches := read_store (list_batches (Some "DISPATCHED"%string)) in
  timeout_loop clock now batches [].

Definition reset_one (clock : datetime) (retry_count : Z) (row : SettlementInstructionRow) : seff unit :=
  do* _ := elift (_instruction_transition row "batch_retry_reset" "QUEUED") in
  do* _ := update_instruction_ (si_instruction_id row) [I_status "QUEUED"; I_failed_at None; I_return_reason_code None] in
  _audit_instruction clock (si_instruction_id row) (Some "FAILED"%string) "QUEUED"
    (dict [("reason", PStr "manual_retry_reset"); ("retry_count", PInt retry_count)]) None.

(** The retries are used up: the batch is cancelled and its float unstaged. *)
Definition exhaust_batch (clock now : datetime) (batch : SettlementBatchRow) (batch_id : string) : seff SettlementBatchRow :=
  do* _ := elift (_batch_transition batch "max_retries_exceeded" "CANCELLED") in
  do* _ := _post_batch_open_reversals clock batch_id in
  do* updated := update_batch_ batch_id
    [B_status "CANCELLED"; B_cancelled_at (Some now); B_fail_reason_code (Some "MAX_RETRIES_EXCEEDED"%string)] in
  do* _ := _audit_batch clock batch_id (Some "FAILED"%string) "CANCELLED" (dict [("reason", PStr "MAX_RETRIES_EXCEEDED")]) None in
  do* _ := _emit clock "settlement_batch.cancelled" "SettlementBatch" batch_id
    (dict [("rail", PStr (sb_rail batch)); ("reason", PStr "MAX_RETRIES_EXCEEDED")]) None in
  do* _ := _alert "settlement-max-retries" (dict [("batch_id", PStr batch_id)]) in
  do* _ := on_ledger (fun s => trial_balance_assertion s clock) in
  eret updated.

(** The batch goes back to PENDING_DISPATCH and its FAILED members to QUEUED. *)
Definition requeue_batch (clock : datetime) (batch : SettlementBatchRow) (batch_id : string) : seff SettlementBatchRow :=
  do* _ := elift (_batch_transition batch "manual_retry_approved" "PENDING_DISPATCH") in
  do* updated := update_batch_ batch_id [B_status "PENDING_DISPATCH"; B_retry_count (sb_retry_count batch + 1)] in
  do* _ := _audit_batch clock batch_id (Some "FAILED"%string) "PENDING_DISPATCH"
    (dict [("retry_count", PInt (sb_retry_count batch + 1))]) None in
  do* rows := read_store (list_instructions (Some batch_id) (Some "FAILED"%string) None false) in
  do* _ := each (reset_one clock (sb_retry_count batch + 1)) rows in
  do* _ := _emit clock "settlement_batch.pending_dispatch" "SettlementBatch" batch_id
    (dict [("rail", PStr (sb_rail batch)); ("retry_count", PInt (sb_retry_count batch + 1))]) None in
  eret updated.

Definition manual_retry (clock : datetime) (batch_id : string) (operator_approved : bool) (now : option datetime) :
    seff SettlementBatchRow :=
  do* batch := _require_batch batch_id in
  do* now := elift (now_or now clock) in
  if default 3 (aget (sb_rail batch) MAX_RETRIES) <=? sb_retry_count batch then exhaust_batch clock now batch batch_id
  else
    refuse SettlementGuardError when (negb operator_approved) else
    do* _ := (if RETRY_TWO_EYES_THRESHOLD_MINOR <? sb_total_credit_minor batch then
      do* _ := update_batch_ batch_id [B_two_eyes_required true] in eret tt else eret tt) in
    requeue_batch clock batch batch_id.

Definition cancel_one (clock : datetime) (row : SettlementInstructionRow) : seff unit :=
  do* _ := update_instruction_ (si_instruction_id row) [I_status "CANCELLED"] in
  _audit_instruction clock (si_instruction_id row) (Some "QUEUED"%string) "CANCELLED" (dict []) None.

Definition cancel (clock : datetime) (batch_id : string) (operator_approved : bool) (now : option datetime) :
    seff SettlementBatchRow :=
  refuse SettlementGuardError when (negb operator_approved) else
  do* batch := _require_batch batch_id in
  do* now := elift (now_or now clock) in
  do* _ := elift (_batch_transition batch "operator_cancel" "CANCELLED") in
  do* queued := read_store (list_instructions (Some batch_id) (Some "QUEUED"%string) None false) in
  do* _ := each (fun row => elift (_instruction_transition row "batch_cancelled" "CANCELLED")) queued in
  do* _ := _post_batch_open_reversals clock batch_id in
  do* _ := each (cancel_one clock) queued in
  do* updated := update_batch_ batch_id [B_status "CANCELLED"; B_cancelled_at (Some now)] in
  do* _ := _audit_batch clock batch_id (Some (sb_status batch)) "CANCELLED" (dict [("reason", PStr "operator_cancel")]) None in
  do* _ := _emit clock "settlement_batch.cancelled" "SettlementBatch" batch_id
    (dict [("rail", PStr (sb_rail batch)); ("reason", PStr "operator_cancel")]) None in
  do* _ := on_ledger (fun s => trial_balance_assertion s clock) in
  eret updated.

(** * Triggers on one instruction *)

Definition on_rail_confirmed (clock : datetime) (instruction_id rail_transaction_id : string) (now : option datetime) :
    seff SettlementInstructionRow :=
  do* row := _require_instruction instruction_id in
  do* now := elift (now_or now clock) in
  do* _ := elift (_instruction_transition row "rail_confirmed" "SETTLED") in
  do* updated := update_instruction_ instruction_id
    [I_status "SETTLED"; I_settled_at (Some now); I_rail_transaction_id (Some rail_transaction_id)] in
  do* _ := _audit_instruction clock instruction_id (Some "SUBMITTED"%string) "SETTLED" (dict []) None in
  do* _ := _emit clock "settlement_instruction.settled" "SettlementInstruction" instruction_id
    (settled_payload (si_batch_id row) row (Some rail_transaction_id) now) None in
  eret updated.

Definition on_rail_returned (clock : datetime) (instruction_id return_reason_code : string) (now : option datetime) :
    seff SettlementInstructionRow :=
  do* row := _require_instruction instruction_id in
  do* now := elift (now_or now clock) in
  do* _ := elift (_instruction_transition row "rail_returned" "RETURNED") in
  do* updated := update_instruction_ instruction_id
    [I_status "RETURNED"; I_returned_at (Some now); I_return_reason_code (Some return_reason_code)] in
  do* _ := _audit_instruction clock instruction_id (Some "SUBMITTED"%string) "RETURNED"
    (dict [("return_reason_code", PStr return_reason_code)]) None in
  do* _ := _emit clock "settlement_instruction.returned" "SettlementInstruction" instruction_id
    (dict [("return_reason_code", PStr return_reason_code); ("payment_intent_id", PStr (si_payment_intent_id row))]) None in
  eret updated.

Definition on_rail_rejected (clock : datetime) (instruction_id error_code : string) (now : option datetime) :
    seff SettlementInstructionRow :=
  do* row := _require_instruction instruction_id in
  do* now := elift (now_or now clock) in
  do* _ := elift (_instruction_transition row "rail_hard_rejected" "FAILED") in
  do* updated := update_instruction_ instruction_id
    [I_status "FAILED"; I_failed_at (Some now); I_return_reason_code (Some error_code)] in
  do* _ := _audit_instruction clock instruction_id (Some "SUBMITTED"%string) "FAILED"
    (dict [("reason_code", PStr error_code)]) None in
  do* _ := _emit clock "settlement_instruction.failed" "SettlementInstruction" instruction_id
    (dict [("reason_code", PStr error_code)]) None in
  eret updated.
End Engine.
