(* ===== verification/SettlementMoves.v ===== *)
(** The settlement engine as a machine, and the moves its operations make: every
    call, also one that raises half way, takes each batch and each instruction
    along its transition table and leaves the columns outside the store's
    white lists as they were. *)
From S2P Require Import Prelude Effects Rows Exceptions DateTime Sha256 Canonical Json LedgerTypes LedgerStore HashChain LedgerService LedgerOps.
From S2P Require Import Fees Calendar Settlement SettlementEngine.
Open Scope Z_scope.

Create HintDb settle.
#[export] Hint Constants Opaque : settle.

(** * The machine *)

Inductive scall : Type :=
| Register (p : SucceededPayment)
| AmlHold (payment_intent_id : string) (hold : bool)
| Delivered (payment_intent_id : string) (confirmed_at : datetime)
| Assign (now : option datetime)
| Cutoff (batch_id : string) (now : option datetime)
| Approve (batch_id approval_request_id : string)
| Dispatch (gate : res sexn TcsaGateResult) (batch_id : string) (now : option datetime)
| ReleaseHeld (gate : res sexn TcsaGateResult) (batch_id : string) (now : option datetime)
| BankConfirms (batch_id : string) (sponsor_bank_ref : option string) (txids : list (string * string)) (now : option datetime)
| Resume (now : option datetime)
| BankRejects (batch_id reason_code : string) (now : option datetime)
| TimeoutCheck (now : option datetime)
| Retry (batch_id : string) (operator_approved : bool) (now : option datetime)
| CancelBatch (batch_id : string) (operator_approved : bool) (now : option datetime)
| RailConfirmed (instruction_id rail_transaction_id : string) (now : option datetime)
| RailReturned (instruction_id return_reason_code : string) (now : option datetime)
| RailRejected (instruction_id error_code : string) (now : option datetime)
| OtherLedger (op : Op).                       (* another component uses the ledger *)

Definition void {A} (c : seff A) : seff unit := do* _ := c in eret tt.

Section Machine.
Context `{HashFn} `{CheckpointSigner} `{Redactor} `{DhakaTz} `{HostTz} (E : Engine).

Definition sinvoke (clock : datetime) (c : scall) : seff unit :=
  match c with
  | Register p => void (register_succeeded_payment E clock p)
  | AmlHold pi hold => void (set_aml_hold pi hold)
  | Delivered pi t => void (confirm_delivery E pi t)
  | Assign now => void (assign_due_instructions E clock now)
  | Cutoff b now => void (cutoff E clock b now)
  | Approve b a => void (grant_approval E clock b a)
  | Dispatch gate b now => void (try_dispatch E clock gate b now)
  | ReleaseHeld gate b now => void (release_held E clock gate b now)
  | BankConfirms b ref txids now => void (confirm E clock b ref txids now)
  | Resume now => void (resume_confirmations E clock now)
  | BankRejects b reason now => void (reject E clock b reason now)
  | TimeoutCheck now => void (timeout_check E clock now)
  | Retry b ok now => void (manual_retry E clock b ok now)
  | CancelBatch b ok now => void (cancel E clock b ok now)
  | RailConfirmed i t now => void (on_rail_confirmed E clock i t now)
  | RailReturned i code now => void (on_rail_returned E clock i code now)
  | RailRejected i code now => void (on_rail_rejected E clock i code now)
  | OtherLedger op => fun w => (Ok tt, mk_SWorld (sw_store w) (run (en_cfg E) (sw_led w) op) (sw_alerts w))
  end.

Definition sact (w : SWorld) (a : datetime * scall) : SWorld := (sinvoke a.1 a.2 w).2.

Definition sstart : SWorld := mk_SWorld empty_settlement empty_store [].

Definition shistory (calls : list (datetime * scall)) : SWorld := foldl sact sstart calls.
End Machine.

(** * Lookups after a write *)

Section StoreLemmas.
Implicit Types (s : SettlementStore).

Lemma get_batch_id b s r : get_batch b s = Some r -> sb_batch_id r = b.
Proof. intros [_ Hk]%find_Some. by apply has_key_iff in Hk. Qed.
Lemma get_instruction_id i s r : get_instruction i s = Some r -> si_instruction_id r = i.
Proof. intros [_ Hk]%find_Some. by apply has_key_iff in Hk. Qed.

Lemma get_batch_same b s s' : ss_batches s' = ss_batches s -> get_batch b s' = get_batch b s.
Proof. unfold get_batch. by intros ->. Qed.

Lemma get_put_batch k r s :
  get_batch k (put_batch r s) = (if String.eqb (sb_batch_id r) k then fun _ => r else id) <$> get_batch k s.
Proof. apply (find_put sb_batch_id). Qed.
Lemma get_put_instruction k r s :
  get_instruction k (put_instruction r s) =
  (if String.eqb (si_instruction_id r) k then fun _ => r else id) <$> get_instruction k s.
Proof. apply (find_put si_instruction_id). Qed.

Lemma batch_replace_id r c : sb_batch_id (batch_replace r c) = sb_batch_id r.
Proof. by destruct c. Qed.
Lemma instruction_replace_id r c : si_instruction_id (instruction_replace r c) = si_instruction_id r.
Proof. by destruct c. Qed.
Lemma batch_replaces_id cs r : sb_batch_id (foldl batch_replace r cs) = sb_batch_id r.
Proof. revert r. induction cs as [|c cs IH]; intros r; [done|]. cbn [foldl]. by rewrite IH, batch_replace_id. Qed.
Lemma instruction_replaces_id cs r : si_instruction_id (foldl instruction_replace r cs) = si_instruction_id r.
Proof. revert r. induction cs as [|c cs IH]; intros r; [done|]. cbn [foldl]. by rewrite IH, instruction_replace_id. Qed.

Lemma update_batch_Ok b cs s r s' : update_batch b cs s = Ok (r, s') ->
  exists row, get_batch b s = Some row /\ r = foldl batch_replace row cs /\ s' = put_batch r s.
Proof.
  unfold update_batch, _checked_changes. destruct (get_batch b s) as [row|]; [|done]. intros Hu. inv_res. eauto.
Qed.

Lemma update_instruction_Ok i cs s r s' : update_instruction i cs s = Ok (r, s') ->
  exists row, get_instruction i s = Some row /\ r = foldl instruction_replace row cs /\ s' = put_instruction r s.
Proof.
  unfold update_instruction, _checked_changes. destruct (get_instruction i s) as [row|]; [|done]. intros Hu. inv_res. eauto.
Qed.

Lemma insert_batch_Ok r s s' : insert_batch r s = Ok s' ->
  get_batch (sb_batch_id r) s = None /\ s' = mk_SettlementStore (ss_batches s ++ [r]) (ss_instructions s) (ss_fee_rules s).
Proof.
  unfold insert_batch. intros Hi. inv_res. split; [|done]. bool_prop. by apply eq_None_not_Some.
Qed.

Lemma insert_instruction_Ok r s s' : insert_instruction r s = Ok s' ->
  get_instruction (si_instruction_id r) s = None /\ si_net_payout_minor r = si_amount_minor r - si_fee_minor r /\
  (forall e, e ∈ ss_instructions s -> si_connector_ref e <> si_connector_ref r) /\
  s' = mk_SettlementStore (ss_batches s) (ss_instructions s ++ [r]) (ss_fee_rules s).
Proof.
  unfold insert_instruction. intros Hi. inv_res. bool_prop. split_and!; [by apply eq_None_not_Some|done| |done].
  intros e He. eapply not_existsb in He; [|done]. cbn in He. by apply String.eqb_neq.
Qed.

Lemma get_snoc_batch k r s : get_batch (sb_batch_id r) s = None ->
  get_batch k (mk_SettlementStore (ss_batches s ++ [r]) (ss_instructions s) (ss_fee_rules s)) =
  if String.eqb (sb_batch_id r) k then Some r else get_batch k s.
Proof.
  intros Hn. unfold get_batch. cbn. rewrite find_snoc. unfold has_key at 2.
  destruct (String.eqb_spec (sb_batch_id r) k) as [<-|]; [|by destruct (List.find _ _)].
  fold (get_batch (sb_batch_id r) s). by rewrite Hn.
Qed.

Lemma get_snoc_instruction k r s : get_instruction (si_instruction_id r) s = None ->
  get_instruction k (mk_SettlementStore (ss_batches s) (ss_instructions s ++ [r]) (ss_fee_rules s)) =
  if String.eqb (si_instruction_id r) k then Some r else get_instruction k s.
Proof.
  intros Hn. unfold get_instruction. cbn. rewrite find_snoc. unfold has_key at 2.
  destruct (String.eqb_spec (si_instruction_id r) k) as [<-|]; [|by destruct (List.find _ _)].
  fold (get_instruction (si_instruction_id r) s). by rewrite Hn.
Qed.
End StoreLemmas.

(** * Moves *)

Definition edge_in (table : SettlementTable) (st st' : string) : Prop := exists trigger, allowed table st trigger st' = true.
Definition batch_edge : string -> string -> Prop := edge_in BATCH_TRANSITIONS.
Definition instruction_edge : string -> string -> Prop := edge_in INSTRUCTION_TRANSITIONS.

(** The columns outside [_BATCH_MUTABLE] and [_INSTRUCTION_MUTABLE]. *)
Definition batch_core (r : SettlementBatchRow) :=
  (sb_batch_id r, sb_rail r, sb_cycle_date r, sb_session r, sb_currency r, sb_created_at r, sb_produced_by r, sb_schema_version r).
Definition instruction_core (r : SettlementInstructionRow) :=
  (si_instruction_id r, si_payment_intent_id r, si_merchant_id r, si_direction r, si_amount_minor r, si_fee_minor r,
   si_net_payout_minor r, si_fee_rule_id r, si_currency r, si_rail r, si_beneficiary_account_ref r, si_mcc_category r,
   si_high_value r, si_latest_release_at r, si_connector_ref r, si_created_at r, si_produced_by r, si_schema_version r).

Record batch_step (r r' : SettlementBatchRow) : Prop := {
  bs_status : rtc batch_edge (sb_status r) (sb_status r');
  bs_core : batch_core r' = batch_core r
}.
Record instruction_step (r r' : SettlementInstructionRow) : Prop := {
  is_status : rtc instruction_edge (si_status r) (si_status r');
  is_core : instruction_core r' = instruction_core r
}.

Record batch_born (r : SettlementBatchRow) : Prop := {
  bb_status : rtc batch_edge "OPEN" (sb_status r)
}.
(** What intake admitted. *)
Record instruction_born (r : SettlementInstructionRow) : Prop := {
  ib_status : rtc instruction_edge "QUEUED" (si_status r);
  ib_net : si_net_payout_minor r = si_amount_minor r - si_fee_minor r;
  ib_amounts : 0 < si_amount_minor r /\ 0 <= si_fee_minor r <= si_amount_minor r;
  ib_rail : si_rail r ∈ RAILS;
  ib_direction : si_direction r ∈ DIRECTIONS
}.

#[export] Instance batch_step_preorder : PreOrder batch_step.
Proof. split; [by intros r|]. intros a b c [H1 C1] [H2 C2]. split; [by etrans|congruence]. Qed.
#[export] Instance instruction_step_preorder : PreOrder instruction_step.
Proof. split; [by intros r|]. intros a b c [H1 C1] [H2 C2]. split; [by etrans|congruence]. Qed.

Lemma batch_born_step r r' : batch_born r -> batch_step r r' -> batch_born r'.
Proof. intros [H] [H' _]. split. by etrans. Qed.
Lemma instruction_born_step r r' : instruction_born r -> instruction_step r r' -> instruction_born r'.
Proof.
  intros [H1 H2 H3 H4 H5] [H' Hc]. unfold instruction_core in Hc. simplify_eq. split; [by etrans|congruence..].
Qed.

(** Keyed rows: none disappears, each makes a step, a new one is as born. *)
Definition rows_evolve {A} (step : A -> A -> Prop) (born : A -> Prop) (f f' : string -> option A) : Prop :=
  forall k, match f k with
            | Some r => exists r', f' k = Some r' /\ step r r'
            | None => forall r', f' k = Some r' -> born r'
            end.

Section RowsEvolve.
Context {A} (step : A -> A -> Prop) (born : A -> Prop) `{!PreOrder step}.
Context (Hborn : forall r r', born r -> step r r' -> born r').

Lemma rows_evolve_refl f : rows_evolve step born f f.
Proof using PreOrder0. intros k. destruct (f k) as [r|]; [|done]. exists r. by split. Qed.

Lemma rows_evolve_trans f1 f2 f3 : rows_evolve step born f1 f2 -> rows_evolve step born f2 f3 -> rows_evolve step born f1 f3.
Proof using PreOrder0 Hborn.
  intros H12 H23 k. specialize (H12 k). specialize (H23 k). destruct (f1 k) as [r|].
  - destruct H12 as (r2 & Hr2 & H2). rewrite Hr2 in H23. destruct H23 as (r3 & Hr3 & H3). exists r3. split; [done|by etrans].
  - intros r3 Hr3. destruct (f2 k) as [r2|]; [|by apply H23]. destruct H23 as (r3' & Hr3' & H3). simplify_eq. eauto.
Qed.
End RowsEvolve.

Definition ids_unique (s : SettlementStore) : Prop :=
  NoDup (sb_batch_id <$> ss_batches s) /\ NoDup (si_instruction_id <$> ss_instructions s).

Record store_evolves (s s' : SettlementStore) : Prop := {
  se_unique : ids_unique s';
  se_batches : rows_evolve batch_step batch_born (fun b => get_batch b s) (fun b => get_batch b s');
  se_instructions : rows_evolve instruction_step instruction_born (fun i => get_instruction i s) (fun i => get_instruction i s')
}.

Section Moves.

(** A move of the world whose rows are keyed. *)
Definition smoves (w w' : SWorld) : Prop :=
  ids_unique (sw_store w) -> store_evolves (sw_store w) (sw_store w').

Lemma store_evolves_refl s : ids_unique s -> store_evolves s s.
Proof. intros Hu. split; [done|apply rows_evolve_refl; apply _..]. Qed.

Lemma store_evolves_trans s1 s2 s3 : store_evolves s1 s2 -> store_evolves s2 s3 -> store_evolves s1 s3.
Proof.
  intros [U1 B1 I1] [U2 B2 I2]. split; [done| |].
  - eapply (rows_evolve_trans _ _ batch_born_step); [exact B1|exact B2].
  - eapply (rows_evolve_trans _ _ instruction_born_step); [exact I1|exact I2].
Qed.

#[export] Instance smoves_preorder : PreOrder smoves.
Proof.
  split.
  - intros w Hu. by apply store_evolves_refl.
  - intros w1 w2 w3 H12 H23 Hu. specialize (H12 Hu). specialize (H23 (se_unique _ _ H12)). by eapply store_evolves_trans.
Qed.

(** ** Reads and quiet steps *)

Definition same_store (w w' : SWorld) : Prop := sw_store w' = sw_store w.
#[export] Instance same_store_preorder : PreOrder same_store.
Proof. split; unfold same_store; congruence. Qed.

Definition only_instruction (i : string) (w w' : SWorld) : Prop :=
  (forall k, k <> i -> get_instruction k (sw_store w') = get_instruction k (sw_store w)).
#[export] Instance only_instruction_preorder i : PreOrder (only_instruction i).
Proof. split; unfold only_instruction; [done|]. intros w1 w2 w3 H12 H23 k Hk. by rewrite H23, H12. Qed.

Definition same_batches (w w' : SWorld) : Prop := ss_batches (sw_store w') = ss_batches (sw_store w).
#[export] Instance same_batches_preorder : PreOrder same_batches.
Proof. split; unfold same_batches; congruence. Qed.

Lemma from_unique {A} (c : seff A) w : (ids_unique (sw_store w) -> from w smoves c) -> from w smoves c.
Proof. intros Hc Hu. by apply Hc. Qed.

Lemma on_ledger_store {A} (f : Store -> LedgerStore.outcome A) : within same_store (on_ledger f).
Proof. intros w. unfold on_ledger. by destruct (f (sw_led w)). Qed.
Lemma alert_store kind payload : within same_store (_alert kind payload).
Proof. by intros w. Qed.

(** Relations that see the settlement store only. *)
Class StoreRel (R : SWorld -> SWorld -> Prop) : Prop := store_rel w w' : same_store w w' -> R w w'.

#[export] Instance smoves_store : StoreRel smoves.
Proof. intros w w' Hs Hu. rewrite Hs. by apply store_evolves_refl. Qed.
#[export] Instance only_store i : StoreRel (only_instruction i).
Proof. intros w w' Hs k Hk. by rewrite Hs. Qed.
#[export] Instance same_batches_store : StoreRel same_batches.
Proof. intros w w' Hs. unfold same_batches. by rewrite Hs. Qed.
#[export] Instance keeps_store (J : SettlementStore -> Prop) : StoreRel (keeps (fun w => J (sw_store w))).
Proof. intros w w' Hs. unfold keeps. by rewrite Hs. Qed.

Lemma quiet_within {A} R `{!StoreRel R} (c : seff A) : within same_store c -> within R c.
Proof. intros Hc w. apply store_rel, Hc. Qed.

Lemma from_bind_read {A B} R (f : SettlementStore -> A) (k : A -> seff B) w :
  from w R (k (f (sw_store w))) -> from w R (ebind (read_store f) k).
Proof. done. Qed.
Lemma from_bind_read_ledger {A B} R (f : Store -> A) (k : A -> seff B) w :
  from w R (k (f (sw_led w))) -> from w R (ebind (read_ledger f) k).
Proof. done. Qed.

Lemma from_bind_batch {B} R `{!PreOrder R} b (k : SettlementBatchRow -> seff B) w :
  (forall r, get_batch b (sw_store w) = Some r -> from w R (k r)) -> from w R (ebind (_require_batch b) k).
Proof.
  intros Hk. unfold from, _require_batch, read_store. rewrite !ebind_eq. cbn.
  destruct (get_batch b (sw_store w)); [by apply Hk|reflexivity].
Qed.
Lemma from_bind_instruction {B} R `{!PreOrder R} i (k : SettlementInstructionRow -> seff B) w :
  (forall r, get_instruction i (sw_store w) = Some r -> from w R (k r)) -> from w R (ebind (_require_instruction i) k).
Proof.
  intros Hk. unfold from, _require_instruction, read_store. rewrite !ebind_eq. cbn.
  destruct (get_instruction i (sw_store w)); [by apply Hk|reflexivity].
Qed.

Lemma from_bind_quiet {A B} R `{!PreOrder R} `{!StoreRel R} (c : seff A) (k : A -> seff B) w :
  within same_store c -> (forall a w', sw_store w' = sw_store w -> from w' R (k a)) -> from w R (ebind c k).
Proof.
  intros Hs Hk. apply from_bind; [done|exact (store_rel _ _ (Hs w))|]. intros a w' Hc. apply Hk. specialize (Hs w). by rewrite Hc in Hs.
Qed.

(** ** Writes *)

Lemma batch_replaces_core cs r : batch_core (foldl batch_replace r cs) = batch_core r.
Proof. revert r. induction cs as [|c cs IH]; intros r; [done|]. cbn [foldl]. rewrite IH. by destruct c. Qed.
Lemma instruction_replaces_core cs r : instruction_core (foldl instruction_replace r cs) = instruction_core r.
Proof. revert r. induction cs as [|c cs IH]; intros r; [done|]. cbn [foldl]. rewrite IH. by destruct c. Qed.

Lemma put_batch_evolves r r' s : ids_unique s -> get_batch (sb_batch_id r') s = Some r -> batch_step r r' ->
  store_evolves s (put_batch r' s).
Proof.
  intros [Ub Ui] Hg Hs. split.
  - split; [|done]. cbn. by rewrite put_keys.
  - intros k. rewrite get_put_batch. destruct (get_batch k s) as [x|] eqn:Hx; [|done]. cbn.
    destruct (String.eqb_spec (sb_batch_id r') k) as [Hk|Hk]; [|by exists x]. subst k. simplify_eq. by exists r'.
  - apply rows_evolve_refl, _.
Qed.

Lemma put_instruction_evolves r r' s : ids_unique s -> get_instruction (si_instruction_id r') s = Some r -> instruction_step r r' ->
  store_evolves s (put_instruction r' s).
Proof.
  intros [Ub Ui] Hg Hs. split.
  - split; [done|]. cbn. by rewrite put_keys.
  - apply rows_evolve_refl, _.
  - intros k. rewrite get_put_instruction. destruct (get_instruction k s) as [x|] eqn:Hx; [|done]. cbn.
    destruct (String.eqb_spec (si_instruction_id r') k) as [Hk|Hk]; [|by exists x]. subst k. simplify_eq. by exists r'.
Qed.

(** The status after a change list stays or follows an edge. *)
Definition keeps_or {T} (edge : T -> T -> Prop) (st st' : T) : Prop := st' = st \/ edge st st'.

Lemma from_update_batch {B} R `{!PreOrder R} b cs (k : SettlementBatchRow -> seff B) w :
  from w R (update_batch_ b cs) ->
  (forall r r' w', get_batch b (sw_store w) = Some r -> r' = foldl batch_replace r cs ->
     w' = mk_SWorld (put_batch r' (sw_store w)) (sw_led w) (sw_alerts w) -> get_batch b (sw_store w') = Some r' ->
     from w' R (k r')) ->
  from w R (ebind (update_batch_ b cs) k).
Proof.
  intros Hm Hk. apply from_bind; [done|done|]. intros r' w' Hu. unfold update_batch_, on_store in Hu.
  destruct (update_batch b cs (sw_store w)) as [[x s']|] eqn:Hb; [|done]. injection Hu as -> <-.
  apply update_batch_Ok in Hb as (r & Hg & -> & ->). eapply Hk; [exact Hg|done|done|]. cbn [sw_store]. rewrite get_put_batch, Hg. cbn [fmap option_fmap option_map].
  by rewrite batch_replaces_id, (get_batch_id _ _ _ Hg), String.eqb_refl.
Qed.

Lemma update_batch_moves b cs w r : get_batch b (sw_store w) = Some r ->
  keeps_or batch_edge (sb_status r) (sb_status (foldl batch_replace r cs)) -> from w smoves (update_batch_ b cs).
Proof.
  intros Hg Hst Hu. unfold update_batch_, on_store. destruct (update_batch b cs (sw_store w)) as [[x s']|] eqn:Hb.
  - cbn. apply update_batch_Ok in Hb as (r0 & Hg' & -> & ->). simplify_eq.
    eapply put_batch_evolves; [done|by rewrite batch_replaces_id, (get_batch_id _ _ _ Hg)|].
    split; [|apply batch_replaces_core]. destruct Hst as [->|He]; [done|by apply rtc_once].
  - by apply store_evolves_refl.
Qed.

Lemma update_instruction_moves i cs w r : get_instruction i (sw_store w) = Some r ->
  keeps_or instruction_edge (si_status r) (si_status (foldl instruction_replace r cs)) -> from w smoves (update_instruction_ i cs).
Proof.
  intros Hg Hst Hu. unfold update_instruction_, on_store. destruct (update_instruction i cs (sw_store w)) as [[x s']|] eqn:Hb.
  - cbn. apply update_instruction_Ok in Hb as (r0 & Hg' & -> & ->). simplify_eq.
    eapply put_instruction_evolves; [done|by rewrite instruction_replaces_id, (get_instruction_id _ _ _ Hg)|].
    split; [|apply instruction_replaces_core]. destruct Hst as [->|He]; [done|by apply rtc_once].
  - by apply store_evolves_refl.
Qed.

(** A change list without a status keeps it. *)
Lemma update_batch_quiet b cs w :
  (forall r, sb_status (foldl batch_replace r cs) = sb_status r) -> from w smoves (update_batch_ b cs).
Proof.
  intros Hst. destruct (get_batch b (sw_store w)) as [r|] eqn:Hg.
  - eapply update_batch_moves; [exact Hg|]. left. apply Hst.
  - intros Hu. unfold update_batch_, on_store, update_batch. rewrite Hg. by apply store_evolves_refl.
Qed.
Lemma update_instruction_quiet i cs w :
  (forall r, si_status (foldl instruction_replace r cs) = si_status r) -> from w smoves (update_instruction_ i cs).
Proof.
  intros Hst. destruct (get_instruction i (sw_store w)) as [r|] eqn:Hg.
  - eapply update_instruction_moves; [exact Hg|]. left. apply Hst.
  - intros Hu. unfold update_instruction_, on_store, update_instruction. rewrite Hg. by apply store_evolves_refl.
Qed.

Lemma update_instruction_only i cs : within (only_instruction i) (update_instruction_ i cs).
Proof.
  intros w k Hk. unfold update_instruction_, on_store. destruct (update_instruction i cs (sw_store w)) as [[x s']|] eqn:Hb; [|done].
  apply update_instruction_Ok in Hb as (r & Hg & -> & ->). cbn [snd sw_store]. rewrite get_put_instruction, instruction_replaces_id.
  rewrite (get_instruction_id _ _ _ Hg). apply not_eq_sym, String.eqb_neq in Hk. rewrite Hk. by destruct (get_instruction k _).
Qed.
Lemma update_batch_only b cs i : within (only_instruction i) (update_batch_ b cs).
Proof.
  intros w k Hk. unfold update_batch_, on_store. destruct (update_batch b cs (sw_store w)) as [[x s']|] eqn:Hb; [|done].
  by apply update_batch_Ok in Hb as (r & Hg & -> & ->).
Qed.
Lemma update_instruction_batches i cs : within same_batches (update_instruction_ i cs).
Proof.
  intros w. unfold update_instruction_, on_store. destruct (update_instruction i cs (sw_store w)) as [[x s']|] eqn:Hb; [|done].
  by apply update_instruction_Ok in Hb as (r & Hg & -> & ->).
Qed.

(** ** Loops over rows that were read *)

Definition current (w : SWorld) (r : SettlementInstructionRow) : Prop := get_instruction (si_instruction_id r) (sw_store w) = Some r.

Lemma listed_current b st pi u w : ids_unique (sw_store w) ->
  Forall (current w) (list_instructions b st pi u (sw_store w)) /\
  NoDup (si_instruction_id <$> list_instructions b st pi u (sw_store w)).
Proof.
  intros [_ Ui]. split.
  - apply Forall_forall. intros r Hr. unfold list_instructions in Hr. apply list_elem_of_In, filter_In in Hr as [Hr _].
    apply (find_key si_instruction_id); [done|]. split; [by apply list_elem_of_In|done].
  - unfold list_instructions. generalize dependent (ss_instructions (sw_store w)). intros l.
    match goal with |- context [List.filter ?f _] => generalize f end. intros f.
    induction l as [|x l IH]; [done|]. csimpl. rewrite NoDup_cons. intros [Hx Hl]. destruct (f x); [|by apply IH].
    csimpl. apply NoDup_cons. split; [|by apply IH]. intros Hin. apply Hx. apply list_elem_of_fmap in Hin as (y & -> & Hy).
    apply list_elem_of_fmap. exists y. split; [done|]. apply list_elem_of_In, filter_In in Hy as [Hy _]. by apply list_elem_of_In.
Qed.

Lemma current_after {A} (c : seff A) i w r : within (only_instruction i) c -> si_instruction_id r <> i -> current w r -> current (c w).2 r.
Proof. intros Hc Hi Hr. unfold current. by rewrite (Hc w). Qed.

Lemma from_each R `{!PreOrder R} (body : SettlementInstructionRow -> seff unit) rows w :
  (forall r, within (only_instruction (si_instruction_id r)) (body r)) ->
  (forall r w, r ∈ rows -> current w r -> from w R (body r)) ->
  Forall (current w) rows -> NoDup (si_instruction_id <$> rows) -> from w R (each body rows).
Proof.
  intros Ho Hb. revert w. induction rows as [|r rows IH]; intros w Hc Hn; [apply from_within, within_ret, _|].
  apply Forall_cons in Hc as [Hr Hc]. csimpl in Hn. apply NoDup_cons in Hn as [Hx Hn]. cbn [each].
  apply from_bind; [done|apply Hb; [apply list_elem_of_here|done]|]. intros u w' Hw. apply IH; [|apply Forall_forall; intros x Hin|done].
  - intros x w0 Hin. apply Hb. by apply list_elem_of_further.
  - pose proof (current_after (body r) _ w x (Ho r)) as Ha. rewrite Hw in Ha. apply Ha.
    + intros He. apply Hx. rewrite <- He. by apply list_elem_of_fmap_2.
    + by apply (proj1 (Forall_forall _ _) Hc).
Qed.

(** ** The operations *)

Context `{HashFn} `{CheckpointSigner} `{Redactor} `{DhakaTz} `{HostTz} (E : Engine).

Lemma audit_batch_store clock b f t d o : within same_store (_audit_batch E clock b f t d o).
Proof. apply within_bind; [apply _|apply on_ledger_store|intros; apply within_ret, _]. Qed.
Lemma audit_instruction_store clock i f t d o : within same_store (_audit_instruction E clock i f t d o).
Proof. apply within_bind; [apply _|apply on_ledger_store|intros; apply within_ret, _]. Qed.
Lemma emit_store clock et st si d o : within same_store (_emit E clock et st si d o).
Proof. apply within_bind; [apply _|apply on_ledger_store|intros; apply within_ret, _]. Qed.
End Moves.

#[export] Hint Resolve audit_batch_store audit_instruction_store emit_store on_ledger_store alert_store
  update_instruction_only update_batch_only update_instruction_batches : settle.

(** Walk through a call that is followed at every state. *)
Ltac swalk_step :=
  match goal with
  | |- within _ (ebind (elift _) _) => apply within_bind_lift; [try apply _ ..|intros ? ?]
  | |- within _ (ebind _ _) => apply within_bind; [try apply _ ..|]
  | |- within _ (eret _) => apply within_ret; try apply _
  | |- within _ (elift _) => apply within_lift; try apply _
  | |- within _ eget => apply within_get; try apply _
  | |- within _ (if ?b then _ else _) => destruct b eqn:?
  | |- within _ (match ?x with _ => _ end) => destruct x eqn:?
  | |- within _ (let _ := _ in _) => cbv zeta
  | |- within _ (read_store _) => unfold read_store
  | |- within _ (read_ledger _) => unfold read_ledger
  | |- within _ (_require_batch _) => unfold _require_batch
  | |- within _ (_require_instruction _) => unfold _require_instruction
  | |- forall _, within _ _ => intros ?; cbv beta
  | |- within _ _ => solve [eauto with settle]
  end.
Ltac swalk := repeat swalk_step.

(** Walk through a call from one state, keeping what was read. *)
Ltac sfrom_step :=
  match goal with
  | |- from _ _ (ebind (_require_batch _) _) => apply from_bind_batch; [try apply _|intros ? ?]
  | |- from _ _ (ebind (_require_instruction _) _) => apply from_bind_instruction; [try apply _|intros ? ?]
  | |- from _ _ (ebind (elift _) _) => apply from_bind_lift; [try apply _|intros ? ?]
  | |- from _ _ (ebind (read_store _) _) => apply from_bind_read
  | |- from _ _ (ebind (read_ledger _) _) => apply from_bind_read_ledger
  | |- from _ _ (ebind (eret _) _) => apply from_bind_ret
  | |- from _ _ (ebind (ebind _ _) _) => apply from_bind_assoc
  | |- from _ _ (ebind (if ?b then _ else _) _) => destruct b eqn:?
  | |- from _ _ (ebind (match ?x with _ => _ end) _) => destruct x eqn:?
  | |- from _ _ (ebind (update_batch_ _ _) _) => apply from_update_batch; [apply _| |intros ? ? ? ? ? ? ?]
  | |- from _ _ (ebind _ _) =>
      apply from_bind_quiet; [try apply _|try apply _|solve [eauto with settle]|intros ? ? ?]
  | |- from _ _ (eret _) => apply from_within, within_ret; try apply _
  | |- from _ _ (elift _) => apply from_within, within_lift; try apply _
  | |- from _ _ (if ?b then _ else _) => destruct b eqn:?
  | |- from _ _ (match ?x with _ => _ end) => destruct x eqn:?
  | |- from _ _ (let _ := _ in _) => cbv zeta
  | |- from _ _ _ => solve [apply from_within, quiet_within; [apply _|]; eauto with settle]
  end.
Ltac sfrom := repeat sfrom_step.

Section Quiet.
Context `{HashFn} `{CheckpointSigner} `{Redactor} `{DhakaTz} `{HostTz} (E : Engine).

Lemma within_each {A} R `{!PreOrder R} (body : A -> seff unit) l : (forall x, within R (body x)) -> within R (each body l).
Proof. intros Hb. induction l as [|x l IH]; cbn [each]; swalk. Qed.

(** The steps that write to the ledger only. *)
Lemma reversals_store clock b : within same_store (_post_batch_open_reversals E clock b).
Proof. unfold _post_batch_open_reversals. swalk. apply within_each; [apply _|]. intros je. unfold reverse_open_entry. swalk. Qed.

Lemma audit_statutory_store clock st i : within same_store (audit_statutory E clock st i).
Proof. unfold audit_statutory. swalk. Qed.

Lemma post_close_store clock b key ps : within same_store (post_close E clock b key ps).
Proof.
  intros w. unfold post_close.
  pose proof (on_ledger_store (fun s => post_journal_entry (en_cfg E) s (close_spec E b key ps) clock) w) as Hs.
  destruct (on_ledger _ w) as [[|e] w']; [done|]. destruct e; try done. destruct e; try done. by case_bool_decide.
Qed.
Lemma close_batch_store clock b rows : within same_store (close_batch E clock b rows).
Proof. unfold close_batch. swalk. apply post_close_store. Qed.

Lemma reconcile_rows_store clock b rows x : within same_store (reconcile_rows E clock b rows x).
Proof.
  revert x. induction rows as [|r rows IH]; intros x; cbn [reconcile_rows]; swalk.
  unfold reconcile_instruction. swalk.
Qed.
Lemma reconcile_settled_store clock b : within same_store (_reconcile_settled_instruction_events E clock b).
Proof. unfold _reconcile_settled_instruction_events. swalk. apply reconcile_rows_store. Qed.
Lemma reconcile_batch_store clock b : within same_store (_reconcile_batch_confirmed_events E clock b).
Proof. unfold _reconcile_batch_confirmed_events. swalk. Qed.
Lemma events_exist_store clock b : within same_store (_batch_confirmed_events_exist E clock b).
Proof. unfold _batch_confirmed_events_exist. swalk. Qed.
End Quiet.

#[export] Hint Resolve reversals_store audit_statutory_store post_close_store reconcile_rows_store close_batch_store reconcile_settled_store reconcile_batch_store events_exist_store : settle.

(** The operations, opened down to their loops. *)
Create HintDb settle_ops.
#[export] Hint Unfold update_batch_ update_instruction_ store_put void reject register_succeeded_payment set_aml_hold confirm_delivery
  assign_due_instructions assign_one audit_statutory flag_large _get_or_create_open_batch cutoff grant_approval try_dispatch hold_batch release_held confirm
  commit_confirmation finish_confirmation close_batch settle_one _reconcile_settled_instruction_events
  _reconcile_batch_confirmed_events _batch_confirmed_events_exist resume_confirmations resume_confirmed resume_dispatched
  _fail_batch fail_one timeout_check manual_retry exhaust_batch requeue_batch reset_one cancel cancel_one
  on_rail_confirmed on_rail_returned on_rail_rejected _post_batch_open_reversals reverse_open_entry reconcile_instruction : settle_ops.

Ltac lwalk := repeat (autounfold with settle_ops; swalk; try (apply within_each; [apply _|intros ?])).
