(* ===== verification/SettlementTables.v ===== *)
(** The settlement engine refines its two transition tables: each operation of
    the engine is a move of the store, and so is every history. *)
From S2P Require Import Prelude Effects Rows Exceptions DateTime Sha256 Canonical Json LedgerTypes LedgerStore HashChain LedgerService LedgerOps.
From S2P Require Import Fees Calendar Settlement SettlementEngine SettlementMoves.
Open Scope Z_scope.

(** * The operations move *)

Lemma batch_transition_edge r trigger st u : _batch_transition r trigger st = Ok u -> batch_edge (sb_status r) st.
Proof. unfold _batch_transition. intros Hu. inv_res. bool_prop. by exists trigger. Qed.
Lemma instruction_transition_edge r trigger st u : _instruction_transition r trigger st = Ok u -> instruction_edge (si_status r) st.
Proof. unfold _instruction_transition. intros Hu. inv_res. bool_prop. by exists trigger. Qed.
#[export] Hint Resolve batch_transition_edge instruction_transition_edge : settle.

(** Rows found again after quiet steps. *)
Ltac same_rows :=
  repeat match goal with
  | H : sw_store ?w' = sw_store ?w |- context [sw_store ?w'] => rewrite H
  | H : sw_store ?w' = sw_store ?w, H' : context [sw_store ?w'] |- _ => rewrite H in H'
  end.

#[export] Hint Extern 5 (within (only_instruction _) _) => apply quiet_within; [apply _|] : settle.
#[export] Hint Extern 5 (within same_batches _) => apply quiet_within; [apply _|] : settle.

Ltac smove :=
  match goal with
  | |- from _ smoves (update_batch_ _ _) =>
      first [by apply update_batch_quiet|eapply update_batch_moves; [same_rows; eassumption|right; cbn; eauto with settle; fail]]
  | |- from _ smoves (update_instruction_ _ _) =>
      first [by apply update_instruction_quiet
            |eapply update_instruction_moves; [same_rows; eassumption|right; cbn; eauto with settle; fail]]
  end.

(** Confirmation evidence: the sponsor's reference and the rail's ids, no status. *)
Lemma record_txid_evolves s kv s' : ids_unique s -> record_txid s kv = Ok s' -> store_evolves s s' /\ ss_batches s' = ss_batches s.
Proof.
  intros Hu. unfold record_txid. destruct (get_instruction kv.1 s) as [r|] eqn:Hr; [|done].
  destruct (_ && _); intros Hs; [|simplify_eq; split; [by apply store_evolves_refl|done]].
  destruct (update_instruction _ _ s) as [[x t]|] eqn:Hx; [|done]. injection Hs as <-.
  apply update_instruction_Ok in Hx as (r0 & Hr0 & -> & ->). simplify_eq. split; [|done].
  eapply put_instruction_evolves; [done|by rewrite instruction_replaces_id, (get_instruction_id _ _ _ Hr)|].
  split; [done|apply instruction_replaces_core].
Qed.

Lemma record_txid_batches s kv s' : record_txid s kv = Ok s' -> ss_batches s' = ss_batches s.
Proof.
  unfold record_txid. destruct (get_instruction kv.1 s) as [r|]; [|done]. destruct (_ && _); intros Hs; [|by simplify_eq].
  destruct (update_instruction _ _ s) as [[x t]|] eqn:Hx; [|done]. injection Hs as <-.
  by apply update_instruction_Ok in Hx as (r0 & Hr0 & -> & ->).
Qed.

Lemma record_txids_batches l s s' : rfold record_txid s l = Ok s' -> ss_batches s' = ss_batches s.
Proof.
  revert s. induction l as [|kv l IH]; intros s; cbn [rfold]; [by intros [= <-]|].
  destruct (record_txid s kv) as [t|] eqn:Ht; [|done]. cbn [rbind]. intros Hl. rewrite (IH t Hl). by eapply record_txid_batches.
Qed.

Lemma record_txids_evolve l s s' : ids_unique s -> rfold record_txid s l = Ok s' -> store_evolves s s' /\ ss_batches s' = ss_batches s.
Proof.
  revert s. induction l as [|kv l IH]; intros s Hu; cbn [rfold]; [intros [= <-]; split; [by apply store_evolves_refl|done]|].
  destruct (record_txid s kv) as [t|] eqn:Hs1; [|done]. cbn [rbind]. intros Hs2.
  destruct (record_txid_evolves _ _ _ Hu Hs1) as [E1 B1]. destruct (IH t (se_unique _ _ E1) Hs2) as [E2 B2].
  split; [by eapply store_evolves_trans|congruence].
Qed.

Lemma persist_Ok b ref txids s r s' : ids_unique s -> persist_confirmation_evidence b ref txids s = Ok (r, s') ->
  exists r0, get_batch b s = Some r0 /\ r = batch_replace r0 (B_sponsor_bank_ref (Some ref)) /\ store_evolves s s' /\
    get_batch b s' = Some r.
Proof.
  intros Hu. unfold persist_confirmation_evidence. destruct (get_batch b s) as [r0|] eqn:Hr; [|done]. intros Hp. inv_res.
  match goal with H : update_batch _ _ _ = Ok _ |- _ => apply update_batch_Ok in H as (r1 & Hr1 & -> & ->) end.
  simplify_eq. cbn [foldl] in *.
  assert (E1 : store_evolves s (put_batch (batch_replace r0 (B_sponsor_bank_ref (Some ref))) s)).
  { eapply put_batch_evolves; [done|by rewrite batch_replace_id, (get_batch_id _ _ _ Hr)|]. by split. }
  match goal with H : rfold record_txid _ _ = Ok _ |- _ => apply record_txids_evolve in H as [E2 B2]; [|apply E1] end.
  eexists. split_and!; [done..|by eapply store_evolves_trans|]. erewrite get_batch_same by exact B2.
  rewrite get_put_batch, Hr. cbn. by rewrite (get_batch_id _ _ _ Hr), String.eqb_refl.
Qed.

Lemma persist_moves b ref txids w : from w smoves (on_store (persist_confirmation_evidence b ref txids)).
Proof.
  intros Hu. unfold on_store. destruct (persist_confirmation_evidence b ref txids (sw_store w)) as [[r s']|] eqn:Hp.
  - by apply persist_Ok in Hp as (? & _ & _ & He & _).
  - by apply store_evolves_refl.
Qed.

Lemma on_store_Ok {A} f w (a : A) w' : on_store f w = (Ok a, w') ->
  f (sw_store w) = Ok (a, sw_store w') /\ sw_led w' = sw_led w.
Proof. unfold on_store. destruct (f (sw_store w)) as [[x s]|]; [|done]. intros [= -> <-]. done. Qed.

Lemma insert_batch_evolves r s s' : ids_unique s -> insert_batch r s = Ok s' -> sb_status r = "OPEN"%string -> store_evolves s s'.
Proof.
  intros [Ub Ui] Hi Hst. apply insert_batch_Ok in Hi as [Hn ->]. split.
  - split; [|done]. apply NoDup_fmap_snoc; [done|]. intros y Hy Hk.
    eapply find_None in Hn; [|exact Hy]. apply not_true_iff_false in Hn. by rewrite has_key_iff in Hn.
  - intros k. rewrite get_snoc_batch by done. destruct (get_batch k s) as [x|] eqn:Hx.
    + exists x. split; [|done]. destruct (String.eqb_spec (sb_batch_id r) k); [congruence|done].
    + intros r'. destruct (String.eqb _ k); [|done]. intros [= <-]. split. by rewrite Hst.
  - apply rows_evolve_refl, _.
Qed.

Lemma insert_instruction_evolves r s s' : ids_unique s -> insert_instruction r s = Ok s' -> instruction_born r -> store_evolves s s'.
Proof.
  intros [Ub Ui] Hi Hb. apply insert_instruction_Ok in Hi as (Hn & _ & _ & ->). split.
  - split; [done|]. apply NoDup_fmap_snoc; [done|]. intros y Hy Hk.
    eapply find_None in Hn; [|exact Hy]. apply not_true_iff_false in Hn. by rewrite has_key_iff in Hn.
  - apply rows_evolve_refl, _.
  - intros k. rewrite get_snoc_instruction by done. destruct (get_instruction k s) as [x|] eqn:Hx.
    + exists x. split; [|done]. destruct (String.eqb_spec (si_instruction_id r) k); [congruence|done].
    + intros r'. destruct (String.eqb _ k); [|done]. by intros [= <-].
Qed.

Lemma store_put_moves f w : (forall s', ids_unique (sw_store w) -> f (sw_store w) = Ok s' -> store_evolves (sw_store w) s') ->
  from w smoves (store_put f).
Proof.
  intros Hf Hu. unfold store_put, on_store. destruct (f (sw_store w)) as [s'|] eqn:Hs; cbn; [by apply Hf|by apply store_evolves_refl].
Qed.

Section Ops.
Context `{HashFn} `{CheckpointSigner} `{Redactor} `{DhakaTz} `{HostTz} (E : Engine).

Lemma from_update_instruction {B} R `{!PreOrder R} i cs (k : SettlementInstructionRow -> seff B) w :
  from w R (update_instruction_ i cs) -> (forall r w', from w' R (k r)) -> from w R (ebind (update_instruction_ i cs) k).
Proof. intros Hm Hk. apply from_bind; [done|done|]. auto. Qed.

(** The bodies of the loops over instructions. *)
Lemma settle_one_moves clock now b txids r w : current w r -> from w smoves (settle_one E clock now b txids r).
Proof. intros Hc. unfold settle_one. sfrom. apply from_update_instruction; [apply _|smove|]. intros. sfrom. Qed.
Lemma settle_one_only clock now b txids r : within (only_instruction (si_instruction_id r)) (settle_one E clock now b txids r).
Proof. unfold settle_one. swalk. Qed.

Lemma fail_one_moves clock now r w : current w r -> from w smoves (fail_one E clock now r).
Proof. intros Hc. unfold fail_one. sfrom. apply from_update_instruction; [apply _|smove|]. intros. sfrom. Qed.
Lemma fail_one_only clock now r : within (only_instruction (si_instruction_id r)) (fail_one E clock now r).
Proof. unfold fail_one. swalk. Qed.

Lemma reset_one_moves clock n r w : current w r -> from w smoves (reset_one E clock n r).
Proof. intros Hc. unfold reset_one. sfrom. apply from_update_instruction; [apply _|smove|]. intros. sfrom. Qed.
Lemma reset_one_only clock n r : within (only_instruction (si_instruction_id r)) (reset_one E clock n r).
Proof. unfold reset_one. swalk. Qed.

Lemma cancel_one_moves clock r w : instruction_edge (si_status r) "CANCELLED" -> current w r -> from w smoves (cancel_one E clock r).
Proof. intros He Hc. unfold cancel_one. apply from_update_instruction; [apply _|smove|]. intros. sfrom. Qed.
Lemma cancel_one_only clock r : within (only_instruction (si_instruction_id r)) (cancel_one E clock r).
Proof. unfold cancel_one. swalk. Qed.

Lemma submit_loop_moves clock now rows acc w :
  Forall (current w) rows -> NoDup (si_instruction_id <$> rows) -> from w smoves (submit_loop E clock now rows acc).
Proof.
  revert acc w. induction rows as [|r rows IH]; intros acc w Hc Hn; cbn [submit_loop]; [sfrom|].
  apply Forall_cons in Hc as [Hr Hc]. csimpl in Hn. apply NoDup_cons in Hn as [Hx Hn]. sfrom_step.
  apply from_bind; [apply _|smove|]. intros r' w' Hw. sfrom_step. sfrom_step. apply IH; [|done].
  apply Forall_forall. intros x Hin. unfold current. same_rows.
  pose proof (current_after _ _ w x (update_instruction_only (si_instruction_id r) [I_status "SUBMITTED"; I_submitted_at (Some now)])) as Ha.
  rewrite Hw in Ha. apply Ha; [|by apply (proj1 (Forall_forall _ _) Hc)].
  intros He. apply Hx. rewrite <- He. by apply list_elem_of_fmap_2.
Qed.

Ltac enter := apply within_from; intros w; apply from_unique; intros Hu.
Ltac one_instruction := sfrom; apply from_update_instruction; [apply _|smove|intros; sfrom].

(** Triggers on one instruction. *)
Lemma on_rail_confirmed_moves clock i t now : within smoves (on_rail_confirmed E clock i t now).
Proof. enter. unfold on_rail_confirmed. one_instruction. Qed.
Lemma on_rail_returned_moves clock i t now : within smoves (on_rail_returned E clock i t now).
Proof. enter. unfold on_rail_returned. one_instruction. Qed.
Lemma on_rail_rejected_moves clock i t now : within smoves (on_rail_rejected E clock i t now).
Proof. enter. unfold on_rail_rejected. one_instruction. Qed.

(** Triggers on one batch. *)
Lemma cutoff_moves clock b now : within smoves (cutoff E clock b now).
Proof. enter. unfold cutoff. sfrom; smove. Qed.
Lemma grant_approval_moves clock b a : within smoves (grant_approval E clock b a).
Proof. enter. unfold grant_approval. sfrom; smove. Qed.
Lemma release_held_moves clock gate b now : within smoves (release_held E clock gate b now).
Proof. enter. unfold release_held. sfrom; smove. Qed.
Lemma hold_batch_moves clock now r b gate w : get_batch b (sw_store w) = Some r ->
  from w smoves (hold_batch E clock now r b gate).
Proof. intros Hr. unfold hold_batch. sfrom; smove. Qed.

(** A loop over the rows just read. *)
Lemma each_listed (body : SettlementInstructionRow -> seff unit) b st pi u w :
  (forall r, within (only_instruction (si_instruction_id r)) (body r)) ->
  (forall r w, si_status r = default (si_status r) st -> current w r -> from w smoves (body r)) ->
  from w smoves (each body (list_instructions b st pi u (sw_store w))).
Proof.
  intros Ho Hb. apply from_unique. intros Hu. destruct (listed_current b st pi u w Hu) as [Hc Hn].
  apply from_each; [apply _|done| |done..]. intros r w' Hr Hcur. apply Hb; [|done].
  unfold list_instructions in Hr. apply list_elem_of_In, filter_In in Hr as [_ Hr]. destruct st; [|done]. by bool_prop.
Qed.

Lemma try_dispatch_moves clock gate b now : within smoves (try_dispatch E clock gate b now).
Proof.
  enter. unfold try_dispatch. do 6 sfrom_step.
  - apply from_bind; [apply _|by apply hold_batch_moves|]. intros. sfrom.
  - sfrom_step; [smove|]. sfrom_step. apply from_unique. intros Hu'.
    destruct (listed_current (Some b) (Some "QUEUED"%string) None false w' Hu') as [Hc Hn].
    apply from_bind; [apply _|by apply submit_loop_moves|]. intros. sfrom.
Qed.

Lemma fail_batch_moves clock b trigger reason now : within smoves (_fail_batch E clock b trigger reason now).
Proof.
  enter. unfold _fail_batch. do 4 sfrom_step. sfrom_step; [smove|]. sfrom_step.
  apply from_bind; [apply _|apply each_listed; auto using fail_one_only, fail_one_moves|]. intros. sfrom.
Qed.

Lemma requeue_batch_moves clock b r r' w : get_batch b (sw_store w) = Some r' -> sb_status r' = sb_status r ->
  from w smoves (requeue_batch E clock r b).
Proof.
  intros Hr' Hst. unfold requeue_batch. sfrom_step. sfrom_step.
  - eapply update_batch_moves; [exact Hr'|]. right. cbn. rewrite Hst. eauto with settle.
  - sfrom_step. sfrom_step. apply from_bind; [apply _|apply each_listed; auto using reset_one_only, reset_one_moves|].
    intros. sfrom.
Qed.

Lemma manual_retry_moves clock b ok now : within smoves (manual_retry E clock b ok now).
Proof.
  enter. unfold manual_retry, exhaust_batch. sfrom_step. sfrom_step. sfrom_step; [sfrom; smove|]. sfrom_step; [sfrom|].
  sfrom_step; sfrom_step.
  - sfrom_step; [smove|]. sfrom_step. eapply requeue_batch_moves; [eassumption|]. subst. by simplify_eq.
  - by eapply requeue_batch_moves.
Qed.

Lemma cancel_moves_s clock b ok now : within smoves (cancel E clock b ok now).
Proof.
  enter. unfold cancel. do 5 sfrom_step. set (queued := list_instructions _ _ _ _ _).
  destruct (listed_current (Some b) (Some "QUEUED"%string) None false w Hu) as [Hc Hn]. fold queued in Hc, Hn.
  assert (Hq : Forall (fun r => si_status r = "QUEUED"%string) queued).
  { apply Forall_forall. intros x Hx. subst queued. unfold list_instructions in Hx.
    apply list_elem_of_In, filter_In in Hx as [_ Hx]. by bool_prop. }
  apply from_bind_quiet; [apply _..|apply within_each; [apply _|]; intros; apply within_lift, _|]. intros _ w1 Hw1.
  sfrom_step. apply from_bind; [apply _| |].
  - apply from_each; [apply _|apply cancel_one_only| | |done].
    + intros x w2 Hx Hcur. apply cancel_one_moves; [|done].
      exists "batch_cancelled"%string. by rewrite (proj1 (Forall_forall _ _) Hq x Hx).
    + eapply Forall_impl; [exact Hc|]. intros x. unfold current. by same_rows.
  - intros u w3 Hw3.
    assert (Hb : get_batch b (sw_store w3) = Some r).
    { assert (Hs : within same_batches (each (cancel_one E clock) queued)).
      { apply within_each; [apply _|]. intros x. unfold cancel_one. swalk. }
      specialize (Hs w'). rewrite Hw3 in Hs. erewrite get_batch_same by exact Hs. by same_rows. }
    sfrom; smove.
Qed.

Lemma commit_Ok clock now b ref txids w r rows w' : ids_unique (sw_store w) ->
  commit_confirmation E clock now b ref txids w = (Ok (r, rows), w') ->
  exists s1, store_evolves (sw_store w) s1 /\ rows = submitted_of b s1 /\ ss_instructions (sw_store w') = ss_instructions s1.
Proof.
  intros Hu. unfold commit_confirmation. destruct ref as [ref|]; [|done]. intros Hc.
  rewrite ebind_eq in Hc. destruct (on_store _ w) as [[x|] w1] eqn:Hp; [|done].
  apply on_store_Ok in Hp as [Hp _]. apply persist_Ok in Hp as (r0 & Hr0 & -> & Hev & Hr1); [|done].
  exists (sw_store w1). split; [done|]. unfold read_store in Hc. rewrite !ebind_eq in Hc. cbn in Hc. rewrite ebind_eq in Hc.
  pose proof (close_batch_store E clock b (submitted_of b (sw_store w1)) w1) as Hq.
  destruct (close_batch _ _ _ _ w1) as [[u|] w2]; [|done].
  cbn in Hq. rewrite ebind_eq in Hc. destruct (update_batch_ _ _ w2) as [[y|] w3] eqn:Hb; [|done].
  unfold eret in Hc. injection Hc as -> <- <-. split; [done|].
  apply on_store_Ok in Hb as [Hb _]. apply update_batch_Ok in Hb as (? & _ & _ & ->). cbn. by rewrite Hq.
Qed.

Lemma commit_moves clock now b ref txids r w : get_batch b (sw_store w) = Some r -> batch_edge (sb_status r) "CONFIRMED" ->
  from w smoves (commit_confirmation E clock now b ref txids).
Proof.
  intros Hr He. apply from_unique. intros Hu. unfold commit_confirmation. destruct ref as [ref|]; [|sfrom].
  apply from_bind; [apply _|apply persist_moves|]. intros x w1 Hw1. apply on_store_Ok in Hw1 as [Hp _].
  apply persist_Ok in Hp as (r0 & Hr0 & -> & Hev & Hr1); [|done]. simplify_eq. sfrom.
  eapply update_batch_moves; [same_rows; exact Hr1|]. by right.
Qed.

Lemma finish_moves clock now b txids r rows w : Forall (current w) rows -> NoDup (si_instruction_id <$> rows) ->
  from w smoves (finish_confirmation E clock now b txids r rows).
Proof.
  intros Hc Hn. unfold finish_confirmation.
  apply from_bind; [apply _|apply from_each; [apply _|apply settle_one_only| |done..]|].
  - intros. by apply settle_one_moves.
  - intros. sfrom.
Qed.

Lemma current_same w w' r : ss_instructions (sw_store w') = ss_instructions (sw_store w) -> current w r -> current w' r.
Proof. unfold current, get_instruction. by intros ->. Qed.

Lemma confirm_moves_s clock b ref txids now : within smoves (confirm E clock b ref txids now).
Proof.
  enter. unfold confirm. do 5 sfrom_step.
  - sfrom_step. destruct (listed_current (Some b) (Some "SUBMITTED"%string) None false w Hu). by apply finish_moves.
  - apply from_bind; [apply _|eapply commit_moves; eauto with settle|]. intros [r' rows] w' Hw.
    apply commit_Ok in Hw as (s1 & Hev & -> & Hi); [|done]. cbn [fst snd].
    destruct (listed_current (Some b) (Some "SUBMITTED"%string) None false (mk_SWorld s1 (sw_led w) []) (se_unique _ _ Hev)) as [Hc Hn].
    apply finish_moves; [|exact Hn]. eapply Forall_impl; [exact Hc|]. intros x. by apply current_same.
Qed.

(** The scheduled scans. *)
Lemma resume_loop_moves body batches acc : (forall x l, within smoves (body x l)) -> within smoves (resume_loop body batches acc).
Proof.
  intros Hb. revert acc. induction batches as [|x l IH]; intros acc; cbn [resume_loop]; swalk.
Qed.

Lemma quiet_moves {A} (c : seff A) : within same_store c -> within smoves c.
Proof. apply quiet_within, _. Qed.

Lemma resume_confirmations_moves clock now : within smoves (resume_confirmations E clock now).
Proof.
  unfold resume_confirmations. swalk; apply resume_loop_moves; intros x l.
  - unfold resume_confirmed. swalk; auto using confirm_moves_s, quiet_moves with settle.
  - unfold resume_dispatched. swalk; auto using confirm_moves_s, quiet_moves with settle.
Qed.

Lemma timeout_check_moves clock now : within smoves (timeout_check E clock now).
Proof.
  unfold timeout_check. swalk. generalize (@nil string). induction a0 as [|x l IH]; intros acc; cbn [timeout_loop]; swalk.
  apply fail_batch_moves.
Qed.

(** Intake and accumulation. *)
Lemma register_moves clock p : within smoves (register_succeeded_payment E clock p).
Proof.
  enter. unfold register_succeeded_payment. do 11 sfrom_step.
  apply from_bind; [apply _|apply store_put_moves|intros; sfrom]. intros s' Hu' Hi.
  eapply insert_instruction_evolves; [done|exact Hi|]. unfold str_in in *. bool_prop. split; cbn; try done; try lia.
Qed.

Lemma set_aml_hold_moves pi hold : within smoves (set_aml_hold pi hold).
Proof.
  unfold set_aml_hold. swalk. apply within_each; [apply _|]. intros r. apply within_from. intros w. apply from_update_instruction; [apply _|smove|].
  intros. sfrom.
Qed.

Lemma confirm_delivery_moves_s pi t : within smoves (confirm_delivery E pi t).
Proof.
  unfold confirm_delivery. swalk. apply within_each; [apply _|]. intros r. apply within_from. intros w.
  sfrom_step. sfrom_step. apply from_update_instruction; [apply _|smove|]. intros. sfrom.
Qed.

Lemma get_or_create_moves clock rail day session : within smoves (_get_or_create_open_batch E clock rail day session).
Proof.
  enter. unfold _get_or_create_open_batch. sfrom. apply from_bind; [apply _|apply store_put_moves|intros; sfrom].
  intros s' Hu' Hi. by eapply insert_batch_evolves.
Qed.

Lemma assign_one_moves clock now day r : within smoves (assign_one E clock now day r).
Proof.
  apply within_from. intros w. unfold assign_one. sfrom_step. sfrom_step.
  apply from_bind; [apply _|apply get_or_create_moves|]. intros b w1 _. sfrom_step; [|sfrom]. sfrom_step.
  sfrom_step. sfrom_step; [smove|]. apply from_update_instruction; [apply _| |].
  - destruct a; smove.
  - intros. sfrom_step. unfold flag_large. sfrom. smove.
Qed.

Lemma assign_due_moves clock now : within smoves (assign_due_instructions E clock now).
Proof.
  unfold assign_due_instructions. swalk. generalize (@nil string). induction a0 as [|r l IH]; intros acc; cbn [assign_loop]; swalk.
  apply assign_one_moves.
Qed.

#[local] Hint Resolve register_moves set_aml_hold_moves confirm_delivery_moves_s assign_due_moves cutoff_moves grant_approval_moves
  try_dispatch_moves release_held_moves confirm_moves_s resume_confirmations_moves fail_batch_moves timeout_check_moves
  manual_retry_moves cancel_moves_s on_rail_confirmed_moves on_rail_returned_moves on_rail_rejected_moves : settle.

Lemma sinvoke_moves clock c : within smoves (sinvoke E clock c).
Proof. destruct c; cbn [sinvoke]; unfold void, reject; swalk. intros w. by apply store_rel. Qed.

Lemma sact_moves w a : smoves w (sact E w a).
Proof. apply sinvoke_moves. Qed.

Lemma run_moves calls w : smoves w (foldl (sact E) w calls).
Proof. revert w. induction calls as [|a l IH]; intros w; [reflexivity|]. cbn [foldl]. etrans; [apply sact_moves|apply IH]. Qed.

(** ** The ledger under the engine *)

Definition led_moves (w w' : SWorld) : Prop := rtc (step (en_cfg E)) (sw_led w) (sw_led w').
#[local] Instance led_moves_preorder : PreOrder led_moves.
Proof. split; unfold led_moves; [by intros w|]. intros w1 w2 w3 H12 H23. by etrans. Qed.

Lemma on_store_led {A} (f : SettlementStore -> res sexn (A * SettlementStore)) : within led_moves (on_store f).
Proof. intros w. unfold on_store. unfold led_moves. destruct (f (sw_store w)) as [[a s]|]; reflexivity. Qed.
Lemma alert_led kind payload : within led_moves (_alert kind payload).
Proof. intros w. unfold led_moves. reflexivity. Qed.

(** A step of the ledger service. *)
Lemma on_ledger_led {A} (f : Store -> LedgerStore.outcome A) :
  (forall s, exists op, (f s).2 = run (en_cfg E) s op) -> within led_moves (on_ledger f).
Proof.
  intros Hf w. unfold on_ledger. destruct (Hf (sw_led w)) as [op Hop]. destruct (f (sw_led w)) as [r s']. cbn in Hop. subst s'.
  apply rtc_once. constructor.
Qed.
Lemma post_led spec clock : within led_moves (on_ledger (fun s => post_journal_entry (en_cfg E) s spec clock)).
Proof. apply on_ledger_led. intros s. by eexists (OpPostJournalEntry _ _). Qed.
Lemma trial_balance_led clock : within led_moves (on_ledger (fun s => trial_balance_assertion s clock)).
Proof. apply on_ledger_led. intros s. by eexists (OpTrialBalanceAssertion _). Qed.
Lemma audit_batch_led clock b f t d o : within led_moves (_audit_batch E clock b f t d o).
Proof. unfold _audit_batch. swalk. apply on_ledger_led. intros s. by eexists (OpWriteAuditEvent _ _ _). Qed.
Lemma audit_instruction_led clock i f t d o : within led_moves (_audit_instruction E clock i f t d o).
Proof. unfold _audit_instruction. swalk. apply on_ledger_led. intros s. by eexists (OpWriteAuditEvent _ _ _). Qed.
Lemma emit_led clock et st si d o : within led_moves (_emit E clock et st si d o).
Proof. unfold _emit. swalk. apply on_ledger_led. intros s. by eexists (OpEmitEvent _ _ _ _ _ _ _ _). Qed.
Lemma audit_statutory_led clock st i : within led_moves (audit_statutory E clock st i).
Proof. unfold audit_statutory. swalk; apply audit_instruction_led. Qed.
Lemma post_close_led clock b key ps : within led_moves (post_close E clock b key ps).
Proof.
  intros w. unfold post_close. pose proof (post_led (close_spec E b key ps) clock w) as Hp.
  destruct (on_ledger _ w) as [[|e] w']; [done|]. destruct e; try done. destruct e; try done. by case_bool_decide.
Qed.
#[local] Hint Resolve on_store_led alert_led post_led trial_balance_led audit_batch_led audit_instruction_led emit_led
  post_close_led within_each led_moves_preorder : settle.
Lemma reconcile_rows_led clock b rows x : within led_moves (reconcile_rows E clock b rows x).
Proof. revert x. induction rows as [|r rows IH]; intros x; cbn [reconcile_rows]; lwalk. Qed.
Lemma submit_loop_led clock now rows acc : within led_moves (submit_loop E clock now rows acc).
Proof. revert acc. induction rows as [|r rows IH]; intros acc; cbn [submit_loop]; lwalk. Qed.
Lemma assign_loop_led clock now day rows acc : within led_moves (assign_loop E clock now day rows acc).
Proof. revert acc. induction rows as [|r rows IH]; intros acc; cbn [assign_loop]; lwalk. Qed.
Lemma timeout_loop_led clock now batches acc : within led_moves (timeout_loop E clock now batches acc).
Proof. revert acc. induction batches as [|r l IH]; intros acc; cbn [timeout_loop]; lwalk. Qed.
#[local] Hint Resolve reconcile_rows_led submit_loop_led assign_loop_led timeout_loop_led : settle.
Lemma resume_loop_led body batches acc : (forall x l, within led_moves (body x l)) -> within led_moves (resume_loop body batches acc).
Proof. intros Hb. revert acc. induction batches as [|x l IH]; intros acc; cbn [resume_loop]; swalk. Qed.

Lemma sinvoke_led clock c : within led_moves (sinvoke E clock c).
Proof.
  destruct c; cbn [sinvoke]; lwalk; try (apply resume_loop_led; intros; lwalk).
  intros w. apply rtc_once. constructor.
Qed.

Lemma run_led calls w : led_moves w (foldl (sact E) w calls).
Proof. revert w. induction calls as [|a l IH]; intros w; [reflexivity|]. cbn [foldl]. etrans; [apply sinvoke_led|apply IH]. Qed.

Lemma shistory_app calls later : shistory E (calls ++ later) = foldl (sact E) (shistory E calls) later.
Proof. apply foldl_app. Qed.

Lemma shistory_evolves calls : store_evolves empty_settlement (sw_store (shistory E calls)).
Proof. apply (run_moves calls sstart). split; constructor. Qed.
End Ops.

#[export] Existing Instance led_moves_preorder.
#[export] Hint Resolve on_store_led alert_led post_led trial_balance_led audit_batch_led audit_instruction_led emit_led
  audit_statutory_led post_close_led reconcile_rows_led submit_loop_led assign_loop_led timeout_loop_led : settle.

(** * What the tables say *)

Lemma aget_elem {K A} `{EqDecision K} (k : K) (l : list (K * A)) v : aget k l = Some v -> (k, v) ∈ l.
Proof.
  induction l as [|[k' v'] l IH]; [done|]. cbn. case_bool_decide; [intros [= <-]; subst; apply list_elem_of_here|].
  intros Ha. by apply list_elem_of_further, IH.
Qed.

(** No row of the table leaves the state. *)
Definition closed_state (table : SettlementTable) (st : string) : bool :=
  forallb (fun row => negb (String.eqb row.1.1 st) || forallb (String.eqb st) row.2) table.

Lemma closed_stays table st st' : closed_state table st = true -> rtc (edge_in table) st st' -> st' = st.
Proof.
  intros Hc. induction 1 as [|x y z [trigger Ht] _ IH]; [done|].
  assert (Hy : x = y); [|by subst; auto]. unfold allowed in Ht. destruct (aget (x, trigger) table) as [tos|] eqn:Ha; [|done].
  apply aget_elem in Ha. unfold closed_state in Hc. eapply forallb_forall in Hc; [|by apply list_elem_of_In].
  cbn in Hc. rewrite String.eqb_refl in Hc. cbn in Hc. unfold str_in in Ht. apply bool_decide_eq_true in Ht.
  eapply forallb_forall in Hc; [|apply list_elem_of_In, Ht]. by apply String.eqb_eq.
Qed.

(** The statuses a row can have. *)
Definition within_states (table : SettlementTable) (states : list string) : bool :=
  forallb (fun row => forallb (fun st => str_in st states) row.2) table.

Lemma stays_within table states st st' : within_states table states = true -> st ∈ states -> rtc (edge_in table) st st' -> st' ∈ states.
Proof.
  intros Hw Hst. induction 1 as [|x y z [trigger Ht] _ IH]; [done|]. apply IH. unfold allowed in Ht.
  destruct (aget (x, trigger) table) as [tos|] eqn:Ha; [|done]. apply aget_elem in Ha. unfold within_states in Hw.
  eapply forallb_forall in Hw; [|by apply list_elem_of_In]. unfold str_in in Ht. apply bool_decide_eq_true in Ht.
  eapply forallb_forall in Hw; [|apply list_elem_of_In, Ht]. unfold str_in in Hw. by apply bool_decide_eq_true in Hw.
Qed.

Section Theorem1.
Context `{HashFn} `{CheckpointSigner} `{Redactor} `{DhakaTz} `{HostTz} (E : Engine).

(** C12: the settlement engine refines its two transition tables.  In every history
    of calls, errors raised half way and ledger use by others: each batch and each
    instruction is in a declared status, and any later history moves it along its
    table only and leaves its amounts, its rail, its merchant and its statutory
    deadline as they were; a CONFIRMED or CANCELLED batch and a SETTLED, RETURNED
    or CANCELLED instruction are final; no row disappears; and the ledger is one
    its own operations reach. *)
Theorem settlement_follows_its_tables calls later :
  let w := shistory E calls in let w' := shistory E (calls ++ later) in
  (forall b r, get_batch b (sw_store w) = Some r ->
     sb_status r ∈ BATCH_STATES /\
     exists r', get_batch b (sw_store w') = Some r' /\ batch_step r r' /\
       (sb_status r ∈ BATCH_TERMINAL_STATES -> sb_status r' = sb_status r)) /\
  (forall i r, get_instruction i (sw_store w) = Some r ->
     instruction_born r /\ si_status r ∈ INSTRUCTION_STATES /\
     exists r', get_instruction i (sw_store w') = Some r' /\ instruction_step r r' /\
       (si_status r ∈ ["SETTLED"; "RETURNED"; "CANCELLED"]%string -> si_status r' = si_status r)) /\
  reachable (en_cfg E) (sw_led w').
Proof.
  intros w w'. pose proof (shistory_evolves E calls) as [Hu Hb Hi].
  assert (Hev : store_evolves (sw_store w) (sw_store w')).
  { subst w w'. rewrite shistory_app. by apply run_moves. }
  split_and!.
  - intros b r Hr. specialize (Hb b). cbn in Hb. pose proof (bb_status _ (Hb r Hr)) as Hst. split.
    + eapply (stays_within BATCH_TRANSITIONS); [reflexivity|apply list_elem_of_here|exact Hst].
    + pose proof (se_batches _ _ Hev b) as Hn. cbn in Hn. rewrite Hr in Hn. destruct Hn as (r' & Hr' & Hs). exists r'.
      split_and!; [done..|]. intros Ht. eapply (closed_stays BATCH_TRANSITIONS); [|apply Hs].
      unfold BATCH_TERMINAL_STATES in Ht. rewrite !elem_of_cons, elem_of_nil in Ht. by destruct Ht as [->|[->|[]]].
  - intros i r Hr. specialize (Hi i). cbn in Hi. pose proof (Hi r Hr) as Hborn. split; [done|]. split.
    + eapply (stays_within INSTRUCTION_TRANSITIONS); [reflexivity|apply list_elem_of_here|apply Hborn].
    + pose proof (se_instructions _ _ Hev i) as Hn. cbn in Hn. rewrite Hr in Hn. destruct Hn as (r' & Hr' & Hs). exists r'.
      split_and!; [done..|]. intros Ht. eapply (closed_stays INSTRUCTION_TRANSITIONS); [|apply Hs].
      rewrite !elem_of_cons, elem_of_nil in Ht. by destruct Ht as [->|[->|[->|[]]]].
  - apply (run_led E (calls ++ later) sstart).
Qed.
End Theorem1.
