(* ===== verification/SettlementBooks.v ===== *)
(** The books of the settlement store: what a batch says of its members, and the
    bounds on release times and retries, kept by every operation. *)
From S2P Require Import Prelude Effects Rows Exceptions DateTime Sha256 Canonical Json LedgerTypes LedgerStore HashChain LedgerService LedgerOps.
From S2P Require Import Fees Calendar Settlement SettlementEngine SettlementMoves SettlementTables.
Open Scope Z_scope.

(** The sum of [f] over the members of a batch. *)
Definition member_sum (f : SettlementInstructionRow -> Z) (b : string) (s : SettlementStore) : Z :=
  sumZ (fun i => if bool_decide (si_batch_id i = Some b) then f i else 0) (ss_instructions s).

Definition max_retries (rail : string) : Z := default 3 (aget rail MAX_RETRIES).

Lemma max_retries_nonneg rail : 0 <= max_retries rail.
Proof.
  unfold max_retries. destruct (aget rail MAX_RETRIES) as [n|] eqn:Ha; [|done]. apply aget_elem in Ha. cbn.
  unfold MAX_RETRIES in Ha. rewrite !elem_of_cons, elem_of_nil in Ha. naive_solver lia.
Qed.

Record batch_ok (s : SettlementStore) (r : SettlementBatchRow) : Prop := {
  bk_count : sb_instruction_count r = member_sum (fun _ => 1) (sb_batch_id r) s;
  bk_credit : sb_total_credit_minor r = member_sum (if_direction "CREDIT") (sb_batch_id r) s;
  bk_debit : sb_total_debit_minor r = member_sum (if_direction "DEBIT") (sb_batch_id r) s;
  bk_retries : 0 <= sb_retry_count r <= max_retries (sb_rail r)
}.

Record books_ok (s : SettlementStore) : Prop := {
  bo_unique : ids_unique s;
  bo_batches : forall b r, get_batch b s = Some r -> batch_ok s r;
  bo_members : forall i, i ∈ ss_instructions s -> forall b, si_batch_id i = Some b ->
                 exists r, get_batch b s = Some r /\ sb_rail r = si_rail i;
  bo_release : forall i, i ∈ ss_instructions s -> micros (si_earliest_release_at i) <= micros (si_latest_release_at i)
}.

(** The members of a batch, in insertion order. *)
Definition members_of (b : string) (s : SettlementStore) : list SettlementInstructionRow :=
  List.filter (fun i => bool_decide (si_batch_id i = Some b)) (ss_instructions s).

Lemma member_sum_filter f b s : member_sum f b s = sumZ f (members_of b s).
Proof.
  unfold member_sum, members_of, sumZ. induction (ss_instructions s) as [|x l IH]; [done|]. cbn [List.filter foldr].
  rewrite IH. case_bool_decide; cbn [foldr]; lia.
Qed.

(** * Writing one row *)

Lemma sumZ_put {A} (key : A -> string) (g : A -> Z) (r r' : A) l : NoDup (key <$> l) -> r ∈ l -> key r' = key r ->
  sumZ g (replace_row key (key r') (fun _ => r') l) = sumZ g l + (g r' - g r).
Proof.
  intros Hn Hr Hk. unfold replace_row. induction l as [|x l IH]; [by apply not_elem_of_nil in Hr|].
  csimpl in Hn. apply NoDup_cons in Hn as [Hx Hn]. csimpl. cbn [sumZ foldr]. unfold sumZ in *. cbn [foldr].
  apply elem_of_cons in Hr as [<-|Hr].
  - rewrite <- Hk, String.eqb_refl. replace (foldr _ 0 _) with (foldr (fun y acc => g y + acc) 0 l); [lia|].
    f_equal. symmetry. rewrite <- (list_fmap_id l) at 2. apply list_fmap_ext. intros _ y Hy%list_elem_of_lookup_2. cbn.
    destruct (String.eqb_spec (key y) (key r')) as [He|]; [|done]. exfalso. apply Hx. rewrite <- Hk, <- He. by apply list_elem_of_fmap_2.
  - destruct (String.eqb_spec (key x) (key r')) as [He|]; [|rewrite IH by done; lia].
    exfalso. apply Hx. rewrite He, Hk. by apply list_elem_of_fmap_2.
Qed.

Lemma unique_put_batch r s : ids_unique s -> ids_unique (put_batch r s).
Proof. intros [Ub Ui]. split; [|done]. cbn. by rewrite put_keys. Qed.
Lemma unique_put_instruction r s : ids_unique s -> ids_unique (put_instruction r s).
Proof. intros [Ub Ui]. split; [done|]. cbn. by rewrite put_keys. Qed.

Lemma get_batch_elem b s r : get_batch b s = Some r -> r ∈ ss_batches s.
Proof. by intros [? _]%find_Some. Qed.
Lemma get_instruction_elem i s r : get_instruction i s = Some r -> r ∈ ss_instructions s.
Proof. by intros [? _]%find_Some. Qed.

Lemma member_sum_put f b r r' s : ids_unique s -> get_instruction (si_instruction_id r') s = Some r ->
  member_sum f b (put_instruction r' s) = member_sum f b s +
    ((if bool_decide (si_batch_id r' = Some b) then f r' else 0) - (if bool_decide (si_batch_id r = Some b) then f r else 0)).
Proof.
  intros [_ Ui] Hg. unfold member_sum. cbn [ss_instructions put_instruction].
  rewrite (sumZ_put si_instruction_id _ r); [done|exact Ui|by eapply get_instruction_elem|by rewrite (get_instruction_id _ _ _ Hg)].
Qed.

Lemma batch_ok_same s s' r : ss_instructions s' = ss_instructions s -> batch_ok s r -> batch_ok s' r.
Proof. intros Hs [? ? ? ?]. split; unfold member_sum in *; by rewrite ?Hs. Qed.

(** A batch row that keeps its identity and its sums. *)
Lemma books_put_batch s r r' : books_ok s -> get_batch (sb_batch_id r') s = Some r -> batch_core r' = batch_core r ->
  batch_ok s r' -> books_ok (put_batch r' s).
Proof.
  intros [Hu Hb Hm Hr] Hg Hc Hok. split.
  - by apply unique_put_batch.
  - intros b x. rewrite get_put_batch. destruct (get_batch b s) as [y|] eqn:Hy; [|done]. cbn. intros [= <-].
    destruct (String.eqb_spec (sb_batch_id r') b); [by apply (batch_ok_same s)|apply (batch_ok_same s); [done|exact (Hb _ _ Hy)]].
  - intros i Hi b Hib. destruct (Hm i Hi b Hib) as (y & Hy & Hrail). rewrite get_put_batch, Hy. cbn.
    destruct (String.eqb_spec (sb_batch_id r') b) as [He|]; [|by exists y]. exists r'. split; [done|].
    rewrite He in Hg. simplify_eq. unfold batch_core in Hc. congruence.
  - exact Hr.
Qed.

(** An instruction row that stays in its batch. *)
Lemma books_put_instruction s r r' : books_ok s -> get_instruction (si_instruction_id r') s = Some r ->
  instruction_core r' = instruction_core r -> si_batch_id r' = si_batch_id r ->
  micros (si_earliest_release_at r') <= micros (si_latest_release_at r') -> books_ok (put_instruction r' s).
Proof.
  intros [Hu Hb Hm Hr] Hg Hc Hbid Hrel.
  assert (Hel : forall i, i ∈ ss_instructions (put_instruction r' s) -> i = r' \/ i ∈ ss_instructions s).
  { intros i Hi. apply elem_of_replace_row in Hi as (y & Hy & ->). destruct (String.eqb _ _); auto. }
  assert (Hcore : si_direction r' = si_direction r /\ si_net_payout_minor r' = si_net_payout_minor r /\ si_rail r' = si_rail r).
  { unfold instruction_core in Hc. split_and!; congruence. }
  destruct Hcore as (Hd & Hn & Hra). split.
  - by apply unique_put_instruction.
  - intros b x Hx. specialize (Hb b x Hx). destruct Hb as [Kc Kr Kd Kt].
    assert (Hs : forall f, f r' = f r -> member_sum f (sb_batch_id x) (put_instruction r' s) = member_sum f (sb_batch_id x) s).
    { intros f Hf. rewrite (member_sum_put f _ r) by done. rewrite Hbid, Hf. case_bool_decide; lia. }
    split; [rewrite Hs; done| | |done]; rewrite Hs; try done; unfold if_direction; by rewrite Hd, Hn.
  - intros i Hi b Hib. destruct (Hel i Hi) as [->|Hi']; [|by apply Hm]. rewrite Hra.
    apply (Hm r (get_instruction_elem _ _ _ Hg)). congruence.
  - intros i Hi. destruct (Hel i Hi) as [->|Hi']; [done|by apply Hr].
Qed.

(** * The operations keep the books *)

Definition bkeeps : SWorld -> SWorld -> Prop := keeps (fun w => books_ok (sw_store w)).
#[export] Instance bkeeps_preorder : PreOrder bkeeps.
Proof. apply keeps_preorder. Qed.
#[export] Instance bkeeps_store : StoreRel bkeeps.
Proof. apply keeps_store. Qed.

Lemma books_update_batch b cs w :
  (forall r, get_batch b (sw_store w) = Some r -> batch_ok (sw_store w) r -> batch_ok (sw_store w) (foldl batch_replace r cs)) ->
  from w bkeeps (update_batch_ b cs).
Proof.
  intros Hcs Hb. unfold update_batch_, on_store. destruct (update_batch b cs (sw_store w)) as [[x s']|] eqn:Hu; [|done].
  apply update_batch_Ok in Hu as (r & Hg & -> & ->). cbn [snd sw_store]. eapply books_put_batch; [done| |apply batch_replaces_core|].
  - by rewrite batch_replaces_id, (get_batch_id _ _ _ Hg).
  - apply Hcs; [done|]. by eapply bo_batches.
Qed.

Lemma books_update_instruction i cs w :
  (forall r, get_instruction i (sw_store w) = Some r -> micros (si_earliest_release_at r) <= micros (si_latest_release_at r) ->
     si_batch_id (foldl instruction_replace r cs) = si_batch_id r /\
     micros (si_earliest_release_at (foldl instruction_replace r cs)) <=
     micros (si_latest_release_at (foldl instruction_replace r cs))) ->
  from w bkeeps (update_instruction_ i cs).
Proof.
  intros Hcs Hb. unfold update_instruction_, on_store. destruct (update_instruction i cs (sw_store w)) as [[x s']|] eqn:Hu; [|done].
  apply update_instruction_Ok in Hu as (r & Hg & -> & ->). cbn [snd sw_store].
  destruct (Hcs r Hg (bo_release _ Hb _ (get_instruction_elem _ _ _ Hg))) as [Hbid Hrel].
  eapply books_put_instruction; [done| |apply instruction_replaces_core|done..].
  by rewrite instruction_replaces_id, (get_instruction_id _ _ _ Hg).
Qed.

#[export] Hint Extern 1 (within bkeeps (on_store (update_batch _ _))) =>
  solve [apply within_from; intros ?; apply books_update_batch; intros ? ? [? ? ? ?]; split; done] : settle.
#[export] Hint Extern 1 (within bkeeps (on_store (update_instruction _ _))) =>
  solve [apply within_from; intros ?; apply books_update_instruction; intros ? ? ?; split; done] : settle.
#[export] Hint Extern 5 (within bkeeps _) => solve [apply quiet_within; [apply _|eauto with settle]] : settle.

(** ** Intake, batches, evidence *)

Lemma on_store_books {A} (f : SettlementStore -> res sexn (A * SettlementStore)) w :
  (forall a s', books_ok (sw_store w) -> f (sw_store w) = Ok (a, s') -> books_ok s') -> from w bkeeps (on_store f).
Proof. intros Hf Hb. unfold on_store. destruct (f (sw_store w)) as [[a s']|] eqn:Hs; [|done]. by eapply Hf. Qed.

Lemma insert_instruction_books r s s' : books_ok s -> insert_instruction r s = Ok s' -> si_batch_id r = None ->
  micros (si_earliest_release_at r) <= micros (si_latest_release_at r) -> books_ok s'.
Proof.
  intros [Hu Hb Hm Hr] Hi Hn Hrel. pose proof Hi as Hi'. apply insert_instruction_Ok in Hi' as (Hfresh & _ & _ & ->).
  assert (Hsum : forall f b, member_sum f b (mk_SettlementStore (ss_batches s) (ss_instructions s ++ [r]) (ss_fee_rules s)) = member_sum f b s).
  { intros f b. unfold member_sum. cbn [ss_instructions]. rewrite sumZ_app. cbn. rewrite Hn. case_bool_decide; [done|lia]. }
  split.
  - destruct Hu as [Ub Ui]. split; [done|]. apply NoDup_fmap_snoc; [done|]. intros y Hy Hk.
    eapply find_None in Hfresh; [|exact Hy]. apply not_true_iff_false in Hfresh. by rewrite has_key_iff in Hfresh.
  - intros b x Hx. destruct (Hb b x Hx) as [Kc Kr Kd Kt]. split; rewrite ?Hsum; done.
  - intros i [Hi'|Hi']%elem_of_app b Hib; [by apply Hm|]. apply list_elem_of_singleton in Hi' as ->. congruence.
  - intros i [Hi'|Hi']%elem_of_app; [by apply Hr|]. by apply list_elem_of_singleton in Hi' as ->.
Qed.

Lemma member_sum_fresh f b s : books_ok s -> get_batch b s = None -> member_sum f b s = 0.
Proof.
  intros Hb Hn. unfold member_sum. apply sumZ_zero. intros i Hi. case_bool_decide as Hib; [|done].
  destruct (bo_members _ Hb i Hi b Hib) as (r & Hr & _). congruence.
Qed.

Lemma insert_batch_books E b rail day session now s s' : books_ok s -> insert_batch (open_row E b rail day session now) s = Ok s' -> books_ok s'.
Proof.
  intros Hok Hi. pose proof Hok as [Hu Hb Hm Hr]. apply insert_batch_Ok in Hi as [Hfresh ->]. cbn in Hfresh. split.
  - destruct Hu as [Ub Ui]. split; [|done]. apply NoDup_fmap_snoc; [done|]. intros y Hy Hk.
    eapply find_None in Hfresh; [|exact Hy]. apply not_true_iff_false in Hfresh. by rewrite has_key_iff in Hfresh.
  - intros k x. rewrite get_snoc_batch by done. cbn [sb_batch_id open_row]. destruct (String.eqb_spec b k) as [<-|].
    + intros [= <-]. apply (batch_ok_same s); [done|]. pose proof (max_retries_nonneg rail).
      split; cbn [sb_instruction_count sb_total_credit_minor sb_total_debit_minor sb_batch_id sb_retry_count sb_rail open_row];
        rewrite ?member_sum_fresh by done; try done; lia.
    + intros Hx. apply (batch_ok_same s); [done|]. by apply (Hb k).
  - intros i Hi k Hk. destruct (Hm i Hi k Hk) as (x & Hx & Hrail). exists x. split; [|done].
    rewrite get_snoc_batch by done. cbn. destruct (String.eqb_spec b k); [congruence|done].
  - exact Hr.
Qed.

Lemma record_txid_books s kv s' : books_ok s -> record_txid s kv = Ok s' -> books_ok s'.
Proof.
  intros Hb. unfold record_txid. destruct (get_instruction kv.1 s) as [r|] eqn:Hr; [|done].
  destruct (_ && _); intros Hs; [|by simplify_eq]. destruct (update_instruction _ _ s) as [[x t]|] eqn:Hx; [|done]. injection Hs as <-.
  apply update_instruction_Ok in Hx as (r0 & Hr0 & -> & ->). simplify_eq.
  eapply books_put_instruction; [done|by rewrite instruction_replaces_id, (get_instruction_id _ _ _ Hr)|apply instruction_replaces_core|done|].
  cbn. by eapply bo_release, get_instruction_elem.
Qed.

Lemma persist_books b ref txids w : from w bkeeps (on_store (persist_confirmation_evidence b ref txids)).
Proof.
  apply on_store_books. intros a s' Hb. unfold persist_confirmation_evidence. destruct (get_batch b _) as [r0|] eqn:Hr; [|done].
  intros Hp. inv_res.
  match goal with H : update_batch _ _ _ = Ok _ |- _ => apply update_batch_Ok in H as (r1 & Hr1 & -> & ->) end. simplify_eq.
  match goal with H : rfold record_txid ?s0 _ = Ok _ |- _ => assert (Hb0 : books_ok s0); [|revert H Hb0; generalize s0] end.
  - eapply books_put_batch; [done|by rewrite batch_replaces_id, (get_batch_id _ _ _ Hr)|apply batch_replaces_core|].
    destruct (bo_batches _ Hb _ _ Hr). by split.
  - clear. revert s'. induction txids as [|kv l IH]; intros s' s0; cbn [rfold]; [by intros [= <-]|].
    destruct (record_txid s0 kv) as [t|] eqn:Ht; [|done]. cbn [rbind]. intros Hl Hb0. eapply IH; [exact Hl|].
    by eapply record_txid_books.
Qed.

Lemma dt_min_le a b c : dt_min a b = Ok c -> micros c <= micros b.
Proof. unfold dt_min, dt_le. intros Hm. inv_res. destruct (Z.leb_spec (micros a) (micros b)); lia. Qed.

#[export] Hint Extern 1 (within bkeeps (on_store (persist_confirmation_evidence _ _ _))) =>
  solve [apply within_from; intros ?; apply persist_books] : settle.

Section Ops.
Context `{HashFn} `{CheckpointSigner} `{Redactor} `{DhakaTz} `{HostTz} (E : Engine).

Lemma register_books clock p : within bkeeps (register_succeeded_payment E clock p).
Proof.
  lwalk. apply within_from. intros w. apply on_store_books. intros u s' Hb Hi. inv_res.
  eapply insert_instruction_books; [exact Hb|eassumption|done|]. cbn. by eapply dt_min_le.
Qed.

Lemma from_books {A} (c : seff A) w : (books_ok (sw_store w) -> from w bkeeps c) -> from w bkeeps c.
Proof. intros Hc Hb. by apply Hc. Qed.

Lemma confirm_delivery_books pi t : within bkeeps (confirm_delivery E pi t).
Proof.
  apply within_from. intros w. apply from_books. intros Hb. unfold confirm_delivery. sfrom_step.
  destruct (listed_current None (Some "QUEUED"%string) (Some pi) false w (bo_unique _ Hb)) as [Hc Hn].
  apply from_bind; [apply _| |intros; sfrom]. apply from_each; [apply _| | |done..].
  - intros r. swalk.
  - intros r w' _ Hcur. sfrom_step. sfrom_step. apply from_bind; [apply _| |intros; sfrom]. apply books_update_instruction.
    intros r' Hr' _. unfold current in Hcur. simplify_eq. split; [done|]. cbn. by eapply dt_min_le.
Qed.

Lemma requeue_books clock r r' b w : get_batch b (sw_store w) = Some r' -> sb_retry_count r' = sb_retry_count r ->
  0 <= sb_retry_count r < max_retries (sb_rail r') -> from w bkeeps (requeue_batch E clock r b).
Proof.
  intros Hr Hc Hlt. unfold requeue_batch. sfrom_step. apply from_bind; [apply _| |].
  - apply books_update_batch. intros x Hx [? ? ? ?]. simplify_eq. split; [done..|].
    change (0 <= sb_retry_count r + 1 <= max_retries (sb_rail r')). lia.
  - intros. apply from_within. lwalk.
Qed.

Lemma manual_retry_books clock b ok now : within bkeeps (manual_retry E clock b ok now).
Proof.
  apply within_from. intros w. apply from_books. intros Hb. unfold manual_retry. apply from_bind_batch; [apply _|]. intros r Hr.
  pose proof (bk_retries _ _ (bo_batches _ Hb _ _ Hr)) as Hret. unfold max_retries in Hret. sfrom_step.
  destruct (Z.leb_spec (default 3 (aget (sb_rail r) MAX_RETRIES)) (sb_retry_count r)); [apply from_within; lwalk|].
  sfrom_step; [sfrom|]. sfrom_step; sfrom_step.
  - sfrom_step; [apply books_update_batch; intros ? ? [? ? ? ?]; by split|]. sfrom_step. subst. simplify_eq.
    eapply requeue_books; [eassumption|done|]. change (0 <= sb_retry_count r < default 3 (aget (sb_rail r) MAX_RETRIES)). lia.
  - eapply requeue_books; [eassumption|done|]. unfold max_retries. lia.
Qed.

(** ** One instruction joins a batch *)

(** The batch [assign_one] works on: OPEN, of the rail, and the instructions are
    untouched. *)
Lemma get_or_create_Ok clock rail day session w r w' :
  _get_or_create_open_batch E clock rail day session w = (Ok r, w') -> ids_unique (sw_store w) ->
  get_batch (sb_batch_id r) (sw_store w') = Some r /\ sb_status r = "OPEN"%string /\ sb_rail r = rail /\ sb_cycle_date r = day /\
  sb_session r = session /\ ss_instructions (sw_store w') = ss_instructions (sw_store w) /\ sw_led w' = sw_led w.
Proof.
  intros Hg Hu. unfold _get_or_create_open_batch, read_store in Hg. rewrite ebind_eq in Hg. cbn in Hg.
  destruct (find_open_batch rail day session (sw_store w)) as [x|] eqn:Hf.
  - unfold eret in Hg. injection Hg as -> ->. apply find_Some in Hf as [Hin Hf]. bool_prop. split_and!; try done.
    apply (find_key sb_batch_id); [apply Hu|]. done.
  - inv_eff. unfold store_put in *.
    match goal with H : on_store _ _ = (Ok _, _) |- _ => apply on_store_Ok in H as [Hs Hl] end. inv_res.
    match goal with H : insert_batch _ _ = Ok _ |- _ => apply insert_batch_Ok in H as [Hn Hs'] end. rewrite Hs'. split_and!; try done.
    rewrite get_snoc_batch by done. by rewrite String.eqb_refl.
Qed.

Lemma get_or_create_books clock rail day session : within bkeeps (_get_or_create_open_batch E clock rail day session).
Proof.
  lwalk. apply within_from. intros w. apply on_store_books. intros u s' Hb Hi. inv_res. by eapply insert_batch_books.
Qed.

(** The two writes of an assignment, on a stored OPEN batch and a queued row. *)
Lemma join_books s r i cs : books_ok s -> get_batch (sb_batch_id r) s = Some r -> get_instruction (si_instruction_id i) s = Some i ->
  si_batch_id i = None -> sb_rail r = si_rail i -> (cs = [] \/ cs = [I_delivery_hold_cleared true]) ->
  books_ok (put_instruction (foldl instruction_replace i (I_batch_id (Some (sb_batch_id r)) :: cs))
    (put_batch (foldl batch_replace r [B_instruction_count (sb_instruction_count r + 1);
         B_total_credit_minor (sb_total_credit_minor r + if_direction "CREDIT" i);
         B_total_debit_minor (sb_total_debit_minor r + if_direction "DEBIT" i)]) s)).
Proof.
  intros Hok Hr Hi Hn Hrail Hcs. set (i' := foldl instruction_replace i _). set (r' := foldl batch_replace r _).
  pose proof Hok as [Hu Hb Hm Hrel].
  assert (Hi' : si_batch_id i' = Some (sb_batch_id r) /\ si_instruction_id i' = si_instruction_id i /\ si_rail i' = si_rail i /\
    si_earliest_release_at i' = si_earliest_release_at i /\ si_latest_release_at i' = si_latest_release_at i /\
    forall d, if_direction d i' = if_direction d i) by (by destruct Hcs as [-> | ->]).
  destruct Hi' as (Hbid & Hid & Hra & He & Hl & Hd).
  assert (Hsum : forall f b, f i' = f i -> member_sum f b (put_instruction i' (put_batch r' s)) =
    member_sum f b s + (if bool_decide (sb_batch_id r = b) then f i else 0)).
  { intros f b Hf. rewrite (member_sum_put f b i); [|by apply unique_put_batch|by rewrite Hid].
    rewrite Hbid, Hn, Hf. unfold member_sum. cbn [put_batch ss_instructions].
    rewrite (bool_decide_ext (Some (sb_batch_id r) = Some b) (sb_batch_id r = b)) by naive_solver.
    rewrite (bool_decide_false (None = Some b)) by done. lia. }
  split.
  - by apply unique_put_instruction, unique_put_batch.
  - intros b x Hx. change (get_batch b (put_batch r' s) = Some x) in Hx. rewrite get_put_batch in Hx.
    destruct (get_batch b s) as [y|] eqn:Hy; [|done]. cbn in Hx. injection Hx as <-.
    destruct (String.eqb_spec (sb_batch_id r) b) as [Hb'|Hb'].
    + subst b. simplify_eq. destruct (Hb _ _ Hr) as [Kc Kr Kd Kt].
      split; [rewrite Hsum by done|rewrite Hsum by apply Hd|rewrite Hsum by apply Hd|exact Kt]; cbn; rewrite bool_decide_true by done; lia.
    + destruct (Hb _ _ Hy) as [Kc Kr Kd Kt]. pose proof (get_batch_id _ _ _ Hy) as Hyb. unfold id.
      split; [rewrite Hsum by done|rewrite Hsum by apply Hd|rewrite Hsum by apply Hd|exact Kt]; rewrite bool_decide_false by congruence; lia.
  - intros j Hj b Hjb. change (exists x, get_batch b (put_batch r' s) = Some x /\ sb_rail x = si_rail j).
    apply elem_of_replace_row in Hj as (y & Hy & ->). destruct (String.eqb_spec (si_instruction_id y) (si_instruction_id i')).
    + rewrite Hbid in Hjb. injection Hjb as <-. rewrite get_put_batch, Hr. exists r'.
      split; [|rewrite Hra; exact Hrail]. change (sb_batch_id r') with (sb_batch_id r). by rewrite String.eqb_refl.
    + destruct (Hm y Hy b Hjb) as (x & Hx & Hxr). rewrite get_put_batch, Hx. cbn.
      destruct (String.eqb_spec (sb_batch_id r) b) as [<-|]; [|by exists x]. exists r'. split; [done|]. by simplify_eq.
  - intros j Hj. apply elem_of_replace_row in Hj as (y & Hy & ->). destruct (String.eqb _ _); [|by apply Hrel].
    rewrite He, Hl. by eapply Hrel, get_instruction_elem.
Qed.

Definition joined_batch (r : SettlementBatchRow) (i : SettlementInstructionRow) : SettlementBatchRow :=
  foldl batch_replace r [B_instruction_count (sb_instruction_count r + 1);
    B_total_credit_minor (sb_total_credit_minor r + if_direction "CREDIT" i);
    B_total_debit_minor (sb_total_debit_minor r + if_direction "DEBIT" i)].
Definition joined_row (b : string) (statutory : bool) (i : SettlementInstructionRow) : SettlementInstructionRow :=
  foldl instruction_replace i (I_batch_id (Some b) :: if statutory then [I_delivery_hold_cleared true] else []).

Lemma join_batch_eq r i w : get_batch (sb_batch_id r) (sw_store w) = Some r ->
  update_batch_ (sb_batch_id r) [B_instruction_count (sb_instruction_count r + 1);
    B_total_credit_minor (sb_total_credit_minor r + if_direction "CREDIT" i);
    B_total_debit_minor (sb_total_debit_minor r + if_direction "DEBIT" i)] w =
  (Ok (joined_batch r i), mk_SWorld (put_batch (joined_batch r i) (sw_store w)) (sw_led w) (sw_alerts w)).
Proof. intros Hg. unfold update_batch_, on_store, update_batch. rewrite Hg. reflexivity. Qed.

Lemma join_row_eq b (statutory : bool) i w : get_instruction (si_instruction_id i) (sw_store w) = Some i ->
  update_instruction_ (si_instruction_id i) (I_batch_id (Some b) :: if statutory then [I_delivery_hold_cleared true] else []) w =
  (Ok (joined_row b statutory i), mk_SWorld (put_instruction (joined_row b statutory i) (sw_store w)) (sw_led w) (sw_alerts w)).
Proof. intros Hg. unfold update_instruction_, on_store, update_instruction. rewrite Hg. by destruct statutory. Qed.

Lemma assign_one_books clock now day i w : current w i -> si_batch_id i = None -> from w bkeeps (assign_one E clock now day i).
Proof.
  intros Hcur Hn. apply from_books. intros Hb. unfold assign_one. sfrom_step. sfrom_step.
  apply from_bind; [apply _|apply get_or_create_books|]. intros r w1 Hg.
  pose proof (get_or_create_books clock (si_rail i) day a0 w Hb) as Hb1. rewrite Hg in Hb1. cbn in Hb1.
  apply get_or_create_Ok in Hg as (Hr & _ & Hrail & _ & _ & Hins & _); [|apply Hb].
  sfrom_step; [|sfrom]. sfrom_step. sfrom_step.
  assert (Hr' : get_batch (sb_batch_id r) (sw_store w') = Some r) by (by same_rows).
  assert (Hi' : get_instruction (si_instruction_id i) (sw_store w') = Some i).
  { same_rows. unfold current, get_instruction in *. by rewrite Hins. }
  unfold from. rewrite ebind_eq, (join_batch_eq r i) by done. cbv beta iota. rewrite ebind_eq, (join_row_eq _ a i) by done.
  cbv beta iota. match goal with |- bkeeps _ (?c ?w2).2 => assert (Hc : within bkeeps c) by lwalk; etrans; [|exact (Hc w2)] end.
  intros Hb2. cbn [sw_store]. eapply (join_books _ r i); try done. destruct a; auto.
Qed.

Lemma get_or_create_only clock rail day session i : within (only_instruction i) (_get_or_create_open_batch E clock rail day session).
Proof.
  lwalk. intros w k Hk. unfold on_store. destruct (insert_batch _ (sw_store w)) as [s'|] eqn:Hs; [|done].
  by apply insert_batch_Ok in Hs as [_ ->].
Qed.

Lemma assign_one_only clock now day i : within (only_instruction (si_instruction_id i)) (assign_one E clock now day i).
Proof. unfold assign_one. swalk; [apply get_or_create_only|]. unfold flag_large. swalk. Qed.

Definition unassigned (r : SettlementInstructionRow) : Prop := si_status r = "QUEUED"%string /\ si_batch_id r = None.

Lemma listed_unassigned w : Forall unassigned (list_instructions None (Some "QUEUED"%string) None true (sw_store w)).
Proof.
  apply Forall_forall. intros r Hr. unfold list_instructions in Hr. apply list_elem_of_In, filter_In in Hr as [_ Hr].
  cbn in Hr. bool_prop. split; [done|]. by apply eq_None_not_Some.
Qed.

(** The rows of the loop stay current, as each turn writes its own. *)
Lemma from_assign_loop R `{!PreOrder R} clock now day rows acc w :
  (forall r w, unassigned r -> current w r -> from w R (assign_one E clock now day r)) ->
  Forall (current w) rows -> Forall unassigned rows -> NoDup (si_instruction_id <$> rows) ->
  from w R (assign_loop E clock now day rows acc).
Proof.
  intros Hone. revert acc w. induction rows as [|r rows IH]; intros acc w Hc Hq Hn; cbn [assign_loop]; [sfrom|].
  apply Forall_cons in Hc as [Hr Hc]. apply Forall_cons in Hq as [Hr' Hq]. csimpl in Hn. apply NoDup_cons in Hn as [Hx Hn].
  sfrom_step. sfrom_step; [by apply IH|]. apply from_bind; [done|by apply Hone|]. intros u w' Hw.
  apply IH; [|done..]. apply Forall_forall. intros x Hin.
  pose proof (current_after _ _ w x (assign_one_only clock now day r)) as Ha. rewrite Hw in Ha. apply Ha.
  - intros He. apply Hx. rewrite <- He. by apply list_elem_of_fmap_2.
  - by apply (proj1 (Forall_forall _ _) Hc).
Qed.

Lemma assign_loop_books clock now day rows acc w : Forall (current w) rows -> Forall unassigned rows ->
  NoDup (si_instruction_id <$> rows) -> from w bkeeps (assign_loop E clock now day rows acc).
Proof. apply from_assign_loop; [apply _|]. intros r w' [_ Hr] Hc. by apply assign_one_books. Qed.

Lemma assign_due_books clock now : within bkeeps (assign_due_instructions E clock now).
Proof.
  apply within_from. intros w. apply from_books. intros Hb. unfold assign_due_instructions. sfrom_step. sfrom_step.
  destruct (listed_current None (Some "QUEUED"%string) None true w (bo_unique _ Hb)). apply assign_loop_books; [done| |done].
  apply listed_unassigned.
Qed.

(** ** Every call *)

Lemma submit_loop_books clock now rows acc : within bkeeps (submit_loop E clock now rows acc).
Proof. revert acc. induction rows as [|r rows IH]; intros acc; cbn [submit_loop]; lwalk. Qed.
Lemma timeout_loop_books clock now batches acc : within bkeeps (timeout_loop E clock now batches acc).
Proof. revert acc. induction batches as [|r l IH]; intros acc; cbn [timeout_loop]; lwalk. Qed.
Lemma resume_loop_books body batches acc : (forall x l, within bkeeps (body x l)) -> within bkeeps (resume_loop body batches acc).
Proof. intros Hb. revert acc. induction batches as [|x l IH]; intros acc; cbn [resume_loop]; swalk. Qed.
#[local] Hint Resolve submit_loop_books timeout_loop_books register_books confirm_delivery_books assign_due_books manual_retry_books
  : settle.

Lemma confirm_books clock b ref txids now : within bkeeps (confirm E clock b ref txids now).
Proof. lwalk. Qed.
#[local] Hint Resolve confirm_books : settle.

Lemma resume_confirmations_books clock now : within bkeeps (resume_confirmations E clock now).
Proof.
  unfold resume_confirmations. swalk; apply resume_loop_books; intros x l; unfold resume_confirmed, resume_dispatched; swalk.
Qed.
#[local] Hint Resolve resume_confirmations_books : settle.

Lemma sinvoke_books clock c : within bkeeps (sinvoke E clock c).
Proof. destruct c; cbn [sinvoke]; unfold void; swalk; lwalk. intros w. by apply store_rel. Qed.

Lemma run_books calls w : bkeeps w (foldl (sact E) w calls).
Proof. revert w. induction calls as [|a l IH]; intros w; [reflexivity|]. cbn [foldl]. etrans; [apply sinvoke_books|apply IH]. Qed.

Lemma empty_books : books_ok empty_settlement.
Proof. split; [by split; constructor|done| |]; intros i Hi; by apply not_elem_of_nil in Hi. Qed.

Lemma shistory_books calls : books_ok (sw_store (shistory E calls)).
Proof. apply (run_books calls sstart), empty_books. Qed.

(** C10: A batch's books are its members'.  In every history, also one with calls
    that raised half way: a batch's count and its two totals are the count and the
    sums of the net payouts of exactly the instructions assigned to it, an
    assigned instruction is in a stored batch of its own rail, no instruction's
    release time is past its statutory deadline, and no batch is retried more
    often than its rail allows. *)
Theorem batch_totals_are_their_members calls :
  let s := sw_store (shistory E calls) in
  (forall b r, get_batch b s = Some r ->
     let members := members_of b s in
     sb_instruction_count r = Z.of_nat (length members) /\
     sb_total_credit_minor r = sumZ (if_direction "CREDIT") members /\
     sb_total_debit_minor r = sumZ (if_direction "DEBIT") members /\
     0 <= sb_retry_count r <= max_retries (sb_rail r)) /\
  (forall i, i ∈ ss_instructions s ->
     (forall b, si_batch_id i = Some b -> exists r, get_batch b s = Some r /\ sb_rail r = si_rail i) /\
     micros (si_earliest_release_at i) <= micros (si_latest_release_at i)).
Proof.
  intros s. pose proof (shistory_books calls) as [Hu Hb Hm Hr]. fold s in Hu, Hb, Hm, Hr. split.
  - intros b r Hg members. destruct (Hb b r Hg) as [Kc Kr Kd Kt]. rewrite (get_batch_id _ _ _ Hg) in *.
    pose proof (fun f => member_sum_filter f b s : member_sum f b s = sumZ f members) as Hs.
    rewrite <- !Hs. split_and!; try done; try lia. rewrite Kc, Hs. clear. unfold sumZ.
    induction members as [|x l IH]; [done|]. cbn [foldr length]. lia.
  - intros i Hi. split; [by apply Hm|by apply Hr].
Qed.
End Ops.
