(* ===== verification/SettlementControls.v ===== *)
(** The controls on a payout batch: what an assignment does, that a large batch is
    not dispatched without a second approval, and that the trust-account gate
    decides between dispatch and hold. *)
From S2P Require Import Prelude Effects Rows Exceptions DateTime Sha256 Canonical Json LedgerTypes LedgerStore HashChain LedgerService LedgerOps.
From S2P Require Import Fees Calendar Settlement SettlementEngine SettlementMoves SettlementTables SettlementBooks.
Open Scope Z_scope.

(** * One assignment that returns *)

(** The batch row after the assignment. *)
Definition flagged (r : SettlementBatchRow) : SettlementBatchRow :=
  if DISPATCH_TWO_EYES_THRESHOLD_MINOR <? sb_total_credit_minor r then batch_replace r (B_two_eyes_required true) else r.

Section Assign.
Context `{HashFn} `{CheckpointSigner} `{Redactor} `{DhakaTz} `{HostTz} (E : Engine).

(** What [assign_one] has done when it returns. *)
Record assigned_to (clock now : datetime) (day : Z) (i : SettlementInstructionRow) (w w' : SWorld) (r : SettlementBatchRow)
    (statutory : bool) (key transit entry_id : string) : Prop := {
  at_open : sb_status r = "OPEN"%string;
  at_rail : sb_rail r = si_rail i;
  at_day : sb_cycle_date r = day;
  at_statutory : statutory_release i now = Ok statutory;
  at_batch : get_batch (sb_batch_id r) (sw_store w') = Some (flagged (joined_batch r i));
  at_others : forall b, b <> sb_batch_id r -> get_batch b (sw_store w') = get_batch b (sw_store w);
  at_found : get_batch (sb_batch_id r) (sw_store w) = Some r \/
             get_batch (sb_batch_id r) (sw_store w) = None /\ sb_approval_request_id r = None /\ sb_total_credit_minor r = 0;
  at_row : get_instruction (si_instruction_id i) (sw_store w') = Some (joined_row (sb_batch_id r) statutory i);
  at_rows : forall k, k <> si_instruction_id i -> get_instruction k (sw_store w') = get_instruction k (sw_store w);
  at_key : open_key (sb_batch_id r) (si_instruction_id i) = Ok key;
  at_transit : aget (si_rail i) (en_transit_accounts E) = Some transit;
  at_posted : exists led, post_journal_entry (en_cfg E) (sw_led w) (open_spec E (sb_batch_id r) key transit (si_net_payout_minor i)) clock =
                (Ok entry_id, led) /\ rtc (step (en_cfg E)) led (sw_led w')
}.

Lemma on_ledger_Ok {A} (f : Store -> LedgerStore.outcome A) w a w' : on_ledger f w = (Ok a, w') ->
  f (sw_led w) = (Ok a, sw_led w') /\ sw_store w' = sw_store w.
Proof.
  unfold on_ledger. destruct (f (sw_led w)) as [[x|e] s]; cbn; [|done]. intros [= -> <-]. done.
Qed.

Lemma get_or_create_found clock rail day session w r w' :
  _get_or_create_open_batch E clock rail day session w = (Ok r, w') -> ids_unique (sw_store w) ->
  (get_batch (sb_batch_id r) (sw_store w) = Some r /\ w' = w) \/
  (get_batch (sb_batch_id r) (sw_store w) = None /\ sb_approval_request_id r = None /\ sb_total_credit_minor r = 0 /\
   forall b, b <> sb_batch_id r -> get_batch b (sw_store w') = get_batch b (sw_store w)).
Proof.
  intros Hg Hu. unfold _get_or_create_open_batch, read_store in Hg. rewrite ebind_eq in Hg. cbn in Hg.
  destruct (find_open_batch rail day session (sw_store w)) as [x|] eqn:Hf.
  - unfold eret in Hg. injection Hg as -> ->. apply find_Some in Hf as [Hin Hf]. left. split; [|done].
    apply (find_key sb_batch_id); [apply Hu|]. done.
  - inv_eff. unfold store_put in *.
    match goal with H : on_store _ _ = (Ok _, _) |- _ => apply on_store_Ok in H as [Hs _] end. inv_res.
    match goal with H : insert_batch _ _ = Ok _ |- _ => apply insert_batch_Ok in H as [Hn Hs'] end. right. split_and!; try done.
    intros b Hb. rewrite Hs', get_snoc_batch by done. apply not_eq_sym, String.eqb_neq in Hb. cbn in *. by rewrite Hb.
Qed.

Lemma assign_one_Ok clock now day i w u w' : ids_unique (sw_store w) -> current w i ->
  assign_one E clock now day i w = (Ok u, w') -> exists r st key transit id, assigned_to clock now day i w w' r st key transit id.
Proof.
  intros Hu Hcur Ha. unfold assign_one in Ha. inv_eff. rename E2 into Hg, a into st, a1 into r.
  destruct (aget (si_rail i) (en_transit_accounts E)) as [transit|] eqn:Ht; [|done]. rewrite ebind_eq in Ha.
  destruct (elift _ s1) as [[key|] w1] eqn:Hk; [|done]. apply elift_Ok in Hk as [Hk <-].
  rewrite ebind_eq in Ha. destruct (on_ledger _ s1) as [[eid|] w2] eqn:Hp; [|done]. apply on_ledger_Ok in Hp as [Hp Hs2].
  pose proof (get_or_create_found _ _ _ _ _ _ _ Hg Hu) as Hfound.
  apply get_or_create_Ok in Hg as (Hr & Hopen & Hrail & Hday & _ & Hins & Hled); [|done].
  assert (Hr2 : get_batch (sb_batch_id r) (sw_store w2) = Some r) by (by rewrite Hs2).
  assert (Hi2 : get_instruction (si_instruction_id i) (sw_store w2) = Some i).
  { rewrite Hs2. unfold current, get_instruction in *. by rewrite Hins. }
  rewrite ebind_eq, (join_batch_eq r i) in Ha by done. cbv beta iota in Ha.
  rewrite ebind_eq, (join_row_eq _ st i) in Ha by done. cbv beta iota in Ha.
  set (w3 := mk_SWorld _ _ _) in Ha. rewrite ebind_eq in Ha.
  pose proof (audit_statutory_store E clock st i w3) as Hs4. pose proof (audit_statutory_led E clock st i w3) as Hl4.
  destruct (audit_statutory E clock st i w3) as [[u4|] w4]; [|done]. cbn in Hs4, Hl4.
  assert (Hb4 : get_batch (sb_batch_id r) (sw_store w4) = Some (joined_batch r i)).
  { rewrite Hs4. change (get_batch (sb_batch_id r) (put_batch (joined_batch r i) (sw_store w2)) = Some (joined_batch r i)).
    rewrite get_put_batch, Hr2. cbn. by rewrite String.eqb_refl. }
  assert (Hend : sw_led w' = sw_led w4 /\ ss_instructions (sw_store w') = ss_instructions (sw_store w4) /\
    get_batch (sb_batch_id r) (sw_store w') = Some (flagged (joined_batch r i)) /\
    forall b, b <> sb_batch_id r -> get_batch b (sw_store w') = get_batch b (sw_store w4)).
  { unfold flag_large in Ha. unfold flagged. destruct (_ <? _); [|by injection Ha as <- <-].
    rewrite ebind_eq in Ha. unfold update_batch_, on_store, update_batch in Ha. rewrite Hb4 in Ha. cbn in Ha. injection Ha as <- <-.
    cbn [sw_led sw_store]. split_and!; [done..| |]; [rewrite get_put_batch, Hb4; cbn; by rewrite String.eqb_refl|].
    intros b Hb. rewrite get_put_batch. cbn. apply not_eq_sym, String.eqb_neq in Hb. rewrite Hb. by destruct (get_batch b _). }
  destruct Hend as (Hled' & Hins' & Hb' & Ho'). exists r, st, key, transit, eid. split; try done.
  - intros b Hb. rewrite Ho' by done. rewrite Hs4. change (get_batch b (put_batch (joined_batch r i) (sw_store w2)) = get_batch b (sw_store w)).
    rewrite get_put_batch. pose proof (not_eq_sym Hb) as Hb2. apply String.eqb_neq in Hb2. cbn. rewrite Hb2, Hs2.
    destruct Hfound as [[_ ->]|(_ & _ & _ & Hf)]; [by destruct (get_batch b _)|]. rewrite Hf by done. by destruct (get_batch b _).
  - destruct Hfound as [[? _]|(? & ? & ? & _)]; auto.
  - unfold get_instruction. rewrite Hins', Hs4. fold (get_instruction (si_instruction_id i) (sw_store w3)).
    cbn [w3 sw_store]. rewrite get_put_instruction.
    assert (Hid : si_instruction_id (joined_row (sb_batch_id r) st i) = si_instruction_id i) by (by destruct st).
    rewrite Hid, String.eqb_refl. change (get_instruction (si_instruction_id i) (put_batch (joined_batch r i) (sw_store w2)))
      with (get_instruction (si_instruction_id i) (sw_store w2)). by rewrite Hi2.
  - intros k Hk'. unfold get_instruction at 1. rewrite Hins', Hs4. fold (get_instruction k (sw_store w3)).
    cbn [w3 sw_store]. rewrite get_put_instruction.
    assert (Hid : si_instruction_id (joined_row (sb_batch_id r) st i) = si_instruction_id i) by (by destruct st).
    rewrite Hid. apply not_eq_sym, String.eqb_neq in Hk'. rewrite Hk'.
    change (id <$> get_instruction k (sw_store w2) = get_instruction k (sw_store w)). rewrite Hs2. unfold get_instruction. rewrite Hins.
    by destruct (List.find _ _).
  - unfold s_res in Hk. destruct (open_key _ _); congruence.
  - exists (sw_led w2). rewrite <- Hled. split; [done|]. rewrite Hled'. exact Hl4.
Qed.
End Assign.

(** * Two eyes *)

(** A batch over the threshold waits for its second approval or has it. *)
Definition eyes_ok (r : SettlementBatchRow) : Prop :=
  DISPATCH_TWO_EYES_THRESHOLD_MINOR < sb_total_credit_minor r ->
  (sb_two_eyes_required r = true /\ sb_status r ∈ ["OPEN"; "PENDING_DISPATCH"; "CANCELLED"]%string) \/
  is_Some (sb_approval_request_id r).

Definition all_eyes (s : SettlementStore) : Prop := forall b r, get_batch b s = Some r -> eyes_ok r.

Definition ekeeps : SWorld -> SWorld -> Prop := keeps (fun w => all_eyes (sw_store w)).
#[export] Instance ekeeps_preorder : PreOrder ekeeps.
Proof. apply keeps_preorder. Qed.
#[export] Instance ekeeps_store : StoreRel ekeeps.
Proof. apply keeps_store. Qed.

Lemma eyes_put s r' : all_eyes s -> eyes_ok r' -> all_eyes (put_batch r' s).
Proof.
  intros Ha Hr b x. rewrite get_put_batch. destruct (get_batch b s) as [y|] eqn:Hy; [|done]. cbn. intros [= <-].
  destruct (String.eqb _ b); [done|exact (Ha _ _ Hy)].
Qed.

Lemma eyes_update_batch b cs w :
  (forall r, get_batch b (sw_store w) = Some r -> eyes_ok r -> eyes_ok (foldl batch_replace r cs)) -> from w ekeeps (update_batch_ b cs).
Proof.
  intros Hcs Ha. unfold update_batch_, on_store. destruct (update_batch b cs (sw_store w)) as [[x s']|] eqn:Hu; [|done].
  apply update_batch_Ok in Hu as (r & Hg & -> & ->). cbn [snd sw_store]. apply eyes_put; [done|]. apply Hcs; [done|]. by eapply Ha.
Qed.

(** What does not touch a batch, and the statuses before dispatch. *)
Lemma batches_eyes {A} (c : seff A) : within same_batches c -> within ekeeps c.
Proof. intros Hc w Ha b r. specialize (Hc w). rewrite (get_batch_same _ _ _ Hc). apply Ha. Qed.

Ltac eyes_auto := apply within_from; intros ?; apply eyes_update_batch; intros ? _ Hok Hlt; cbn in *;
  destruct (Hok Hlt) as [[? ?]|?]; [first [right; eexists; reflexivity|left; split; first [done|set_solver]]|right; first [done|eexists; reflexivity]].
#[export] Hint Extern 1 (within ekeeps (on_store (update_batch _ _))) => solve [eyes_auto] : settle.
#[export] Hint Extern 1 (within ekeeps (on_store (update_instruction _ _))) =>
  solve [apply batches_eyes, update_instruction_batches] : settle.
#[export] Hint Extern 5 (within ekeeps _) => solve [apply quiet_within; [apply _|eauto with settle]] : settle.

(** The states a table enters a state from. *)
Definition sources (table : SettlementTable) (st' : string) : list string :=
  omap (fun row : (string * string) * list string => if str_in st' row.2 then Some row.1.1 else None) table.

Lemma edge_source table st st' : edge_in table st st' -> st ∈ sources table st'.
Proof.
  intros [trigger Ht]. unfold allowed in Ht. destruct (aget (st, trigger) table) as [tos|] eqn:Ha; [|done].
  apply aget_elem in Ha. apply list_elem_of_omap. eexists. split; [exact Ha|]. cbn. by rewrite Ht.
Qed.

(** Past the dispatch the approval is there. *)
Lemma eyes_past r cs st' : eyes_ok r -> batch_edge (sb_status r) st' -> (st' = "CONFIRMED" \/ st' = "FAILED")%string ->
  sb_total_credit_minor (foldl batch_replace r cs) = sb_total_credit_minor r ->
  sb_approval_request_id (foldl batch_replace r cs) = sb_approval_request_id r -> eyes_ok (foldl batch_replace r cs).
Proof.
  intros Hok He Hst Ht Hap Hlt. rewrite Ht in Hlt. rewrite Hap. right. destruct (Hok Hlt) as [[_ Hs]|?]; [|done]. exfalso.
  rewrite !elem_of_cons, elem_of_nil in Hs. apply edge_source in He. apply (bool_decide_eq_true_2 _) in He.
  destruct Hst as [-> | ->], Hs as [Hs|[Hs|[Hs|[]]]]; rewrite Hs in He; by vm_compute in He.
Qed.

Section Eyes.
Context `{HashFn} `{CheckpointSigner} `{Redactor} `{DhakaTz} `{HostTz} (E : Engine).

Lemma on_store_batches {A} (f : SettlementStore -> res sexn (A * SettlementStore)) :
  (forall s a s', f s = Ok (a, s') -> ss_batches s' = ss_batches s) -> within same_batches (on_store f).
Proof. intros Hf w. unfold on_store. destruct (f (sw_store w)) as [[a s']|] eqn:Hs; [|done]. by eapply Hf. Qed.

Lemma register_eyes clock p : within ekeeps (register_succeeded_payment E clock p).
Proof.
  lwalk. apply batches_eyes, on_store_batches. intros s u s' Hs. inv_res.
  by match goal with H : insert_instruction _ _ = Ok _ |- _ => apply insert_instruction_Ok in H as (_ & _ & _ & ->) end.
Qed.

Lemma hold_batch_eyes clock now r b gate w : get_batch b (sw_store w) = Some r -> sb_two_eyes_required r = false ->
  from w ekeeps (hold_batch E clock now r b gate).
Proof.
  intros Hr He. unfold hold_batch. sfrom_step. apply from_bind; [apply _| |intros; apply from_within; lwalk].
  apply eyes_update_batch. intros r' Hr' Hok Hlt. simplify_eq. cbn in *. destruct (Hok Hlt) as [[? ?]|?]; [congruence|by right].
Qed.

Lemma submit_loop_eyes clock now rows acc : within ekeeps (submit_loop E clock now rows acc).
Proof. revert acc. induction rows as [|r rows IH]; intros acc; cbn [submit_loop]; lwalk. Qed.
#[local] Hint Resolve submit_loop_eyes : settle.

Lemma try_dispatch_eyes clock gate b now : within ekeeps (try_dispatch E clock gate b now).
Proof.
  apply within_from. intros w. unfold try_dispatch. apply from_bind_batch; [apply _|]. intros r Hr. sfrom_step.
  destruct (sb_two_eyes_required r) eqn:He; [sfrom|]. do 3 sfrom_step.
  - apply from_bind; [apply _|by apply hold_batch_eyes|]. intros. sfrom.
  - apply from_bind; [apply _| |intros; apply from_within; lwalk].
    apply eyes_update_batch. intros r' Hr' Hok Hlt. simplify_eq. cbn in *. destruct (Hok Hlt) as [[? ?]|?]; [congruence|by right].
Qed.

Lemma fail_batch_eyes clock b trigger reason now : within ekeeps (_fail_batch E clock b trigger reason now).
Proof.
  apply within_from. intros w. unfold _fail_batch. apply from_bind_batch; [apply _|]. intros r Hr. sfrom_step. sfrom_step; [sfrom|].
  sfrom_step. apply from_bind; [apply _| |intros; apply from_within; lwalk].
  apply eyes_update_batch. intros r' Hr' Hok. simplify_eq. eapply eyes_past; [done|by eapply batch_transition_edge|auto..].
Qed.

Lemma persist_eyes b ref txids w : from w ekeeps (on_store (persist_confirmation_evidence b ref txids)).
Proof.
  intros Ha. unfold on_store. destruct (persist_confirmation_evidence b ref txids (sw_store w)) as [[a s']|] eqn:Hp; [|done].
  unfold persist_confirmation_evidence in Hp. destruct (get_batch b _) as [r0|] eqn:Hr; [|done]. inv_res.
  match goal with H : update_batch _ _ _ = Ok _ |- _ => apply update_batch_Ok in H as (r1 & Hr1 & -> & ->) end. simplify_eq.
  cbn [snd sw_store].
  match goal with H : rfold record_txid ?s0 _ = Ok _ |- _ => assert (Hb0 : all_eyes s0); [|revert H Hb0; generalize s0] end.
  - apply eyes_put; [done|]. exact (Ha _ _ Hr).
  - clear. revert s'. induction txids as [|kv l IH]; intros s' s0; cbn [rfold]; [by intros [= <-]|].
    destruct (record_txid s0 kv) as [t|] eqn:Ht; [|done]. cbn [rbind]. intros Hl Hb0. eapply IH; [exact Hl|].
    intros x r. erewrite (get_batch_same _ s0); [apply Hb0|]. by eapply record_txid_batches.
Qed.

Lemma commit_eyes clock now b ref txids r w : get_batch b (sw_store w) = Some r -> batch_edge (sb_status r) "CONFIRMED" ->
  from w ekeeps (commit_confirmation E clock now b ref txids).
Proof.
  intros Hr He. unfold commit_confirmation. destruct ref as [ref|]; [|sfrom].
  apply from_bind; [apply _|apply persist_eyes|]. intros x w1 Hw1. apply on_store_Ok in Hw1 as [Hp _].
  assert (Hr1 : get_batch b (sw_store w1) = Some (batch_replace r (B_sponsor_bank_ref (Some ref)))).
  { unfold persist_confirmation_evidence in Hp. rewrite Hr in Hp. inv_res.
    match goal with H : update_batch _ _ _ = Ok _ |- _ => apply update_batch_Ok in H as (r1 & Hr1 & -> & ->) end. simplify_eq.
    match goal with H : rfold record_txid _ _ = Ok _ |- _ => apply record_txids_batches in H; rewrite (get_batch_same _ _ _ H) end.
    rewrite get_put_batch, Hr. cbn. by rewrite (get_batch_id _ _ _ Hr), String.eqb_refl. }
  do 2 sfrom_step. apply from_bind; [apply _| |intros; sfrom]. apply eyes_update_batch. intros r' Hr' Hok. same_rows. simplify_eq.
  eapply eyes_past; [done|exact He|auto..].
Qed.

Lemma confirm_eyes clock b ref txids now : within ekeeps (confirm E clock b ref txids now).
Proof.
  apply within_from. intros w. unfold confirm. apply from_bind_batch; [apply _|]. intros r Hr. do 3 sfrom_step.
  sfrom_step; [apply from_within; lwalk|].
  apply from_bind; [apply _|eapply commit_eyes; eauto with settle|]. intros. apply from_within. lwalk.
Qed.

Lemma resume_loop_eyes body batches acc : (forall x l, within ekeeps (body x l)) -> within ekeeps (resume_loop body batches acc).
Proof. intros Hb. revert acc. induction batches as [|x l IH]; intros acc; cbn [resume_loop]; swalk. Qed.
#[local] Hint Resolve register_eyes try_dispatch_eyes fail_batch_eyes confirm_eyes : settle.

Lemma timeout_loop_eyes clock now batches acc : within ekeeps (timeout_loop E clock now batches acc).
Proof. revert acc. induction batches as [|r l IH]; intros acc; cbn [timeout_loop]; swalk. Qed.
Lemma resume_confirmations_eyes clock now : within ekeeps (resume_confirmations E clock now).
Proof.
  unfold resume_confirmations. swalk; apply resume_loop_eyes; intros x l; unfold resume_confirmed, resume_dispatched; swalk.
Qed.
#[local] Hint Resolve timeout_loop_eyes resume_confirmations_eyes : settle.

(** Every call but an assignment keeps the control, also when it raises. *)
Lemma sinvoke_eyes clock c : match c with Assign _ => True | _ => within ekeeps (sinvoke E clock c) end.
Proof. destruct c; try exact I; cbn [sinvoke]; unfold void, reject; swalk; lwalk. intros w. by apply store_rel. Qed.

(** An assignment keeps it when it returns. *)
Lemma assign_one_eyes clock now day i w u w' : ids_unique (sw_store w) -> current w i ->
  assign_one E clock now day i w = (Ok u, w') -> all_eyes (sw_store w) -> all_eyes (sw_store w').
Proof.
  intros Hu Hcur Ha He. apply assign_one_Ok in Ha as (r & st & key & transit & id & [Hopen _ _ _ Hb Ho Hf _ _ _ _ _]); [|done..].
  intros b x Hx. destruct (decide (b = sb_batch_id r)) as [->|Hne]; [|rewrite Ho in Hx by done; by apply (He b)].
  rewrite Hb in Hx. injection Hx as <-. unfold flagged. destruct (Z.ltb_spec DISPATCH_TWO_EYES_THRESHOLD_MINOR (sb_total_credit_minor (joined_batch r i))).
  - intros _. left. split; [done|]. cbn. rewrite Hopen. apply list_elem_of_here.
  - intros Hlt. lia.
Qed.

Lemma assign_loop_eyes clock now day rows acc w l w' : books_ok (sw_store w) -> Forall (current w) rows -> Forall unassigned rows ->
  NoDup (si_instruction_id <$> rows) -> assign_loop E clock now day rows acc w = (Ok l, w') -> all_eyes (sw_store w) -> all_eyes (sw_store w').
Proof.
  revert acc w. induction rows as [|r rows IH]; intros acc w Hbk Hc Hq Hn Hl; cbn [assign_loop] in Hl; [by unfold eret in Hl; simplify_eq|].
  apply Forall_cons in Hc as [Hr Hc]. apply Forall_cons in Hq as [Hr' Hq]. csimpl in Hn. apply NoDup_cons in Hn as [Hx Hn].
  rewrite ebind_eq in Hl. unfold elift at 1 in Hl. destruct (_releasable r now) as [ok|]; [|done]. destruct (negb ok); [by eapply IH|].
  rewrite ebind_eq in Hl. destruct (assign_one E clock now day r w) as [[u|] w1] eqn:Hw1; [|done]. intros He.
  pose proof (assign_one_books E clock now day r w Hr (proj2 Hr') Hbk) as Hb1. rewrite Hw1 in Hb1.
  eapply (IH _ w1); [exact Hb1| |done..|exact Hl|].
  - apply Forall_forall. intros x Hin. pose proof (current_after _ _ w x (assign_one_only E clock now day r)) as Ha. rewrite Hw1 in Ha.
    apply Ha; [|by apply (proj1 (Forall_forall _ _) Hc)]. intros He'. apply Hx. rewrite <- He'. by apply list_elem_of_fmap_2.
  - eapply assign_one_eyes; [apply Hbk|exact Hr|exact Hw1|done].
Qed.

Lemma assign_due_eyes clock now w l w' : books_ok (sw_store w) -> assign_due_instructions E clock now w = (Ok l, w') ->
  all_eyes (sw_store w) -> all_eyes (sw_store w').
Proof.
  intros Hb Ha. unfold assign_due_instructions, read_store in Ha. inv_eff.
  destruct (listed_current None (Some "QUEUED"%string) None true w (bo_unique _ Hb)).
  eapply assign_loop_eyes; try done. apply listed_unassigned.
Qed.

(** The assignment calls of a history return. *)
Fixpoint assigns_return (w : SWorld) (calls : list (datetime * scall)) : bool :=
  match calls with
  | [] => true
  | a :: l => (match a.2 with Assign _ => is_ok (sinvoke E a.1 a.2 w).1 | _ => true end) && assigns_return (sact E w a) l
  end.

Lemma run_eyes calls w : books_ok (sw_store w) -> all_eyes (sw_store w) -> assigns_return w calls = true ->
  all_eyes (sw_store (foldl (sact E) w calls)).
Proof.
  revert w. induction calls as [|a l IH]; intros w Hb He Hr; [done|]. cbn [foldl assigns_return] in *.
  apply andb_prop in Hr as [Ha Hr]. apply IH; [by apply sinvoke_books| |done]. unfold sact. pose proof (sinvoke_eyes a.1 a.2) as Hs.
  destruct a.2; try exact (Hs w He). cbn [sinvoke] in *. unfold void in *. rewrite ebind_eq in Ha |- *.
  destruct (assign_due_instructions E a.1 now w) as [[x|] w1] eqn:Hw; [|done]. by eapply assign_due_eyes.
Qed.
End Eyes.

(** * Dispatch *)

Definition dispatched (b : string) (s : SettlementStore) : Prop := exists r, get_batch b s = Some r /\ sb_status r = "DISPATCHED"%string.

(** No batch is dispatched by the move. *)
Definition no_dispatch (w w' : SWorld) : Prop := forall b, dispatched b (sw_store w') -> dispatched b (sw_store w).
#[export] Instance no_dispatch_preorder : PreOrder no_dispatch.
Proof. split; unfold no_dispatch; auto. Qed.
#[export] Instance no_dispatch_store : StoreRel no_dispatch.
Proof. intros w w' Hs b. by rewrite Hs. Qed.

Lemma batches_no_dispatch {A} (c : seff A) : within same_batches c -> within no_dispatch c.
Proof. intros Hc w b (r & Hr & Hst). exists r. specialize (Hc w). by rewrite <- (get_batch_same _ _ _ Hc). Qed.

Lemma update_no_dispatch b cs w :
  (forall r, sb_status (foldl batch_replace r cs) = "DISPATCHED"%string -> sb_status r = "DISPATCHED"%string) ->
  from w no_dispatch (update_batch_ b cs).
Proof.
  intros Hcs. unfold from, update_batch_, on_store. destruct (update_batch b cs (sw_store w)) as [[x s']|] eqn:Hu; [|done].
  apply update_batch_Ok in Hu as (r & Hg & -> & ->). intros k (y & Hy & Hst). cbn [snd sw_store] in Hy. rewrite get_put_batch in Hy.
  destruct (get_batch k (sw_store w)) as [z|] eqn:Hz; [|done]. cbn in Hy. injection Hy as <-. exists z. split; [done|].
  destruct (String.eqb_spec (sb_batch_id (foldl batch_replace r cs)) k) as [He|]; [|done].
  rewrite batch_replaces_id, (get_batch_id _ _ _ Hg) in He. subst k. simplify_eq. by apply Hcs.
Qed.

#[export] Hint Extern 1 (within no_dispatch (on_store (update_batch _ _))) =>
  solve [apply within_from; intros ?; apply update_no_dispatch; intros ?; done] : settle.
#[export] Hint Extern 1 (within no_dispatch (on_store (update_instruction _ _))) =>
  solve [apply batches_no_dispatch, update_instruction_batches] : settle.
#[export] Hint Extern 5 (within no_dispatch _) => solve [apply quiet_within; [apply _|eauto with settle]] : settle.

Section Dispatch.
Context `{HashFn} `{CheckpointSigner} `{Redactor} `{DhakaTz} `{HostTz} (E : Engine).

Lemma insert_no_dispatch w f :
  (forall s s', f s = Ok s' -> (exists r, insert_batch r s = Ok s' /\ sb_status r = "OPEN"%string) \/ ss_batches s' = ss_batches s) ->
  from w no_dispatch (store_put f).
Proof.
  intros Hf. unfold from, store_put, on_store. destruct (f (sw_store w)) as [s'|] eqn:Hs; cbn; [|done].
  intros b (x & Hx & Hst). cbn in Hx. apply Hf in Hs as [(r & Hi & Ho)|Hs].
  - apply insert_batch_Ok in Hi as [Hn ->]. rewrite get_snoc_batch in Hx by done.
    destruct (String.eqb (sb_batch_id r) b); [simplify_eq; congruence|by exists x].
  - exists x. by rewrite <- (get_batch_same _ _ _ Hs).
Qed.

Lemma persist_no_dispatch b ref txids : within no_dispatch (on_store (persist_confirmation_evidence b ref txids)).
Proof.
  intros w. unfold on_store. destruct (persist_confirmation_evidence b ref txids (sw_store w)) as [[a s']|] eqn:Hp; [|done].
  unfold persist_confirmation_evidence in Hp. destruct (get_batch b _) as [r0|] eqn:Hr; [|done]. inv_res.
  match goal with H : update_batch _ _ _ = Ok _ |- _ => apply update_batch_Ok in H as (r1 & Hr1 & -> & ->) end. simplify_eq.
  match goal with H : rfold record_txid _ _ = Ok _ |- _ => apply record_txids_batches in H as Hbs end.
  intros k (y & Hy & Hst). cbn [snd sw_store] in Hy. rewrite (get_batch_same _ _ _ Hbs), get_put_batch in Hy.
  destruct (get_batch k (sw_store w)) as [z|] eqn:Hz; [|done]. cbn in Hy. injection Hy as <-. exists z. split; [done|].
  destruct (String.eqb_spec (sb_batch_id r0) k) as [He|]; [|done].
  rewrite (get_batch_id _ _ _ Hr) in He. subst k. by simplify_eq.
Qed.
#[local] Hint Resolve persist_no_dispatch : settle.

Lemma get_or_create_no_dispatch clock rail day session : within no_dispatch (_get_or_create_open_batch E clock rail day session).
Proof.
  unfold _get_or_create_open_batch. swalk. apply within_from. intros w. apply insert_no_dispatch. intros s s' Hs. left. eauto.
Qed.
Lemma register_no_dispatch clock p : within no_dispatch (register_succeeded_payment E clock p).
Proof.
  unfold register_succeeded_payment. swalk. apply within_from. intros w. apply insert_no_dispatch. intros s s' Hs. right.
  by apply insert_instruction_Ok in Hs as (_ & _ & _ & ->).
Qed.
#[local] Hint Resolve get_or_create_no_dispatch register_no_dispatch : settle.

Lemma assign_loop_no_dispatch clock now day rows acc : within no_dispatch (assign_loop E clock now day rows acc).
Proof.
  revert acc. induction rows as [|r rows IH]; intros acc; cbn [assign_loop]; swalk. unfold assign_one. swalk; lwalk.
Qed.
Lemma timeout_loop_no_dispatch clock now batches acc : within no_dispatch (timeout_loop E clock now batches acc).
Proof. revert acc. induction batches as [|r l IH]; intros acc; cbn [timeout_loop]; lwalk. Qed.
Lemma resume_loop_no_dispatch body batches acc :
  (forall x l, within no_dispatch (body x l)) -> within no_dispatch (resume_loop body batches acc).
Proof. intros Hb. revert acc. induction batches as [|x l IH]; intros acc; cbn [resume_loop]; swalk. Qed.
Lemma confirm_no_dispatch clock b ref txids now : within no_dispatch (confirm E clock b ref txids now).
Proof. lwalk. Qed.
#[local] Hint Resolve assign_loop_no_dispatch timeout_loop_no_dispatch confirm_no_dispatch : settle.
Lemma resume_no_dispatch clock now : within no_dispatch (resume_confirmations E clock now).
Proof.
  unfold resume_confirmations. swalk; apply resume_loop_no_dispatch; intros x l; unfold resume_confirmed, resume_dispatched; swalk.
Qed.
#[local] Hint Resolve resume_no_dispatch : settle.

Lemma sinvoke_no_dispatch clock c : match c with Dispatch _ _ _ => True | _ => within no_dispatch (sinvoke E clock c) end.
Proof. destruct c; try exact I; cbn [sinvoke]; unfold void, reject; swalk; lwalk. intros w. by apply store_rel. Qed.

(** The batches dispatched by the move satisfy [P]. *)
Definition dispatch_only (P : string -> Prop) (w w' : SWorld) : Prop :=
  forall b, dispatched b (sw_store w') -> dispatched b (sw_store w) \/ P b.
#[local] Instance dispatch_only_preorder P : PreOrder (dispatch_only P).
Proof. split; unfold dispatch_only; [by left|]. intros w1 w2 w3 H12 H23 b Hb. destruct (H23 b Hb) as [Hb'|]; [by apply H12|by right]. Qed.
#[local] Instance dispatch_only_store P : StoreRel (dispatch_only P).
Proof. intros w w' Hs b Hb. left. by rewrite <- Hs. Qed.

Lemma no_dispatch_only P {A} (c : seff A) : within no_dispatch c -> within (dispatch_only P) c.
Proof. intros Hc w b Hb. left. by apply Hc. Qed.

Lemma submit_loop_no_dispatch clock now rows acc : within no_dispatch (submit_loop E clock now rows acc).
Proof. revert acc. induction rows as [|r rows IH]; intros acc; cbn [submit_loop]; lwalk. Qed.
#[local] Hint Resolve submit_loop_no_dispatch : settle.

(** The gate answered, and is clear. *)
Definition gate_clear (gate : res sexn TcsaGateResult) : Prop := exists g, gate = Ok g /\ tg_clear g = true.

(** A dispatch call that dispatches: the gate was clear, the batch was pending and
    free of the two-eyes flag, and it is the batch that was named. *)
Definition may_dispatch (gate : res sexn TcsaGateResult) (b : string) (w : SWorld) (k : string) : Prop :=
  k = b /\ gate_clear gate /\
  exists r, get_batch b (sw_store w) = Some r /\ sb_status r = "PENDING_DISPATCH"%string /\ sb_two_eyes_required r = false.

Lemma update_dispatch_only P b cs w : P b -> from w (dispatch_only P) (update_batch_ b cs).
Proof.
  intros HP. unfold from, update_batch_, on_store. destruct (update_batch b cs (sw_store w)) as [[x s']|] eqn:Hu; [|by left].
  apply update_batch_Ok in Hu as (r & Hg & -> & ->). intros k (y & Hy & Hst). cbn [snd sw_store] in Hy. rewrite get_put_batch in Hy.
  rewrite batch_replaces_id, (get_batch_id _ _ _ Hg) in Hy. destruct (String.eqb_spec b k) as [->|]; [by right|].
  left. exists y. by destruct (get_batch k (sw_store w)).
Qed.

Lemma pending_source r u : _batch_transition r "dispatch_triggered" "DISPATCHED" = Ok u -> sb_status r = "PENDING_DISPATCH"%string.
Proof.
  intros Hu. apply batch_transition_edge, edge_source in Hu. apply (bool_decide_eq_true_2 _) in Hu.
  assert (Hs : sb_status r ∈ ["PENDING_DISPATCH"%string]) by (by apply bool_decide_eq_true in Hu). by apply list_elem_of_singleton in Hs.
Qed.

Lemma try_dispatch_into clock gate b now w : from w (dispatch_only (may_dispatch gate b w)) (try_dispatch E clock gate b now).
Proof.
  unfold try_dispatch. apply from_bind_batch; [apply _|]. intros r Hr. sfrom_step. destruct (sb_two_eyes_required r) eqn:He; [sfrom|].
  apply from_bind_lift; [apply _|]. intros u Hu%pending_source. apply from_bind_lift; [apply _|]. intros g ->.
  destruct (tg_clear g) eqn:Hg; cbn [negb].
  - apply from_bind; [apply _|apply update_dispatch_only; unfold may_dispatch, gate_clear; eauto 10|].
    intros. apply from_within, no_dispatch_only. lwalk.
  - apply from_within, no_dispatch_only. lwalk.
Qed.

(** Only a dispatch of the batch dispatches it, and its gate was clear. *)
Lemma dispatch_is_gated clock c w b : dispatched b (sw_store (sinvoke E clock c w).2) -> ~ dispatched b (sw_store w) ->
  exists gate now, c = Dispatch gate b now /\ gate_clear gate /\
    exists r, get_batch b (sw_store w) = Some r /\ sb_status r = "PENDING_DISPATCH"%string /\ sb_two_eyes_required r = false.
Proof.
  intros Hd Hn. pose proof (sinvoke_no_dispatch clock c) as Hnd. destruct c; try (by exfalso; apply Hn, Hnd).
  cbn [sinvoke] in Hd. unfold void in Hd. rewrite ebind_eq in Hd.
  pose proof (try_dispatch_into clock gate batch_id now w b) as Hinto.
  destruct (try_dispatch E clock gate batch_id now w) as [[x|] w1]; destruct (Hinto Hd) as [?|(-> & Hg & Hr)]; try done; eauto.
Qed.

(** C11: payouts leave only through both controls.  In a history in which no
    assignment raised half way: when a call puts a batch in DISPATCHED, the call is
    a dispatch of that batch, the trust-account gate it consulted was clear, and
    the batch was PENDING_DISPATCH with no approval outstanding; and whatever the
    batch's path, one whose credits exceed the threshold has an approval on record
    from the moment it has left PENDING_DISPATCH for the bank. *)
Theorem dispatch_needs_gate_and_second_eyes calls clock c b :
  assigns_return E sstart calls = true ->
  let w := shistory E calls in let w' := sact E w (clock, c) in
  (dispatched b (sw_store w') -> ~ dispatched b (sw_store w) ->
     exists gate now, c = Dispatch gate b now /\ gate_clear gate /\
       exists r, get_batch b (sw_store w) = Some r /\ sb_status r = "PENDING_DISPATCH"%string /\ sb_two_eyes_required r = false) /\
  (forall r, get_batch b (sw_store w) = Some r -> DISPATCH_TWO_EYES_THRESHOLD_MINOR < sb_total_credit_minor r ->
     sb_status r ∈ ["HELD"; "DISPATCHED"; "CONFIRMED"; "FAILED"]%string -> is_Some (sb_approval_request_id r)).
Proof.
  intros Hret w w'. split.
  - intros Hd Hn. exact (dispatch_is_gated clock c w b Hd Hn).
  - intros r Hr Hlt Hst. assert (He : all_eyes (sw_store w)).
    { apply run_eyes; [apply empty_books|by intros ? ? ?|done]. }
    destruct (He b r Hr Hlt) as [[_ Hs]|?]; [|done]. exfalso.
    repeat (apply elem_of_cons in Hst as [Hst|Hst]); try (by apply not_elem_of_nil in Hst);
    repeat (apply elem_of_cons in Hs as [Hs|Hs]); try (by apply not_elem_of_nil in Hs); congruence.
Qed.
End Dispatch.
