(* ===== verification/SettlementRelease.v ===== *)
(** The payout mandate: what a run of [assign_due_instructions] releases, and that
    every released payout is backed by an entry that stages its float. *)
From S2P Require Import Prelude Effects Rows Exceptions DateTime Sha256 Canonical Json LedgerTypes LedgerStore HashChain LedgerService LedgerOps LedgerHistory LedgerPosting.
From S2P Require Import Fees Calendar Settlement SettlementEngine SettlementMoves SettlementTables SettlementBooks SettlementControls.
Open Scope Z_scope.

(** The batch [b] takes instructions of the rail on that day. *)
Definition takes_payouts (b rail : string) (day : Z) (s : SettlementStore) : Prop :=
  exists r, get_batch b s = Some r /\ sb_status r = "OPEN"%string /\ sb_rail r = rail /\ sb_cycle_date r = day.

(** [i] is a member of such a batch. *)
Definition released (day : Z) (i : SettlementInstructionRow) (s : SettlementStore) : Prop :=
  exists i' b, get_instruction (si_instruction_id i) s = Some i' /\ si_batch_id i' = Some b /\ instruction_core i' = instruction_core i /\
    si_status i' = si_status i /\ takes_payouts b (si_rail i) day s.

Definition is_releasable (now : datetime) (i : SettlementInstructionRow) : bool :=
  match _releasable i now with Ok ok => ok | Err _ => false end.

Section Release.
Context `{HashFn} `{CheckpointSigner} `{Redactor} `{DhakaTz} `{HostTz} (E : Engine).

Lemma flagged_core r i : let r' := flagged (joined_batch r i) in
  sb_status r' = sb_status r /\ sb_rail r' = sb_rail r /\ sb_cycle_date r' = sb_cycle_date r.
Proof. unfold flagged. by destruct (_ <? _). Qed.

Lemma assigned_open clock now day i w w' r st key transit id b rail :
  assigned_to E clock now day i w w' r st key transit id -> takes_payouts b rail day (sw_store w) -> takes_payouts b rail day (sw_store w').
Proof.
  intros Ha (x & Hx & Ho & Hr & Hd). destruct (flagged_core r i) as (Fs & Fr & Fd).
  destruct (decide (b = sb_batch_id r)) as [->|Hne]; [|exists x; by rewrite (at_others _ _ _ _ _ _ _ _ _ _ _ _ Ha)].
  exists (flagged (joined_batch r i)). split; [by apply (at_batch _ _ _ _ _ _ _ _ _ _ _ _ Ha)|].
  destruct (at_found _ _ _ _ _ _ _ _ _ _ _ _ Ha) as [Hf|(Hf & _)]; [|congruence]. simplify_eq. split_and!; congruence.
Qed.

Lemma assigned_released clock now day i w w' r st key transit id :
  assigned_to E clock now day i w w' r st key transit id -> released day i (sw_store w').
Proof.
  intros [Ho Hr Hd _ Hb _ _ Hi _ _ _ _]. destruct (flagged_core r i) as (Fs & Fr & Fd).
  exists (joined_row (sb_batch_id r) st i), (sb_batch_id r). split_and!; [done|by destruct st..|].
  exists (flagged (joined_batch r i)). split_and!; congruence.
Qed.

(** A later assignment of another instruction keeps what was released. *)
Lemma released_later clock now day i j w w' r st key transit id :
  assigned_to E clock now day j w w' r st key transit id -> si_instruction_id i <> si_instruction_id j ->
  released day i (sw_store w) -> released day i (sw_store w').
Proof.
  intros Ha Hne (i' & b & Hi & Hb & Hc & Hs & Ho). exists i', b. split_and!; try done.
  - by rewrite (at_rows _ _ _ _ _ _ _ _ _ _ _ _ Ha).
  - by eapply assigned_open.
Qed.

Lemma assign_loop_releases clock now day rows acc w l w' : books_ok (sw_store w) -> Forall (current w) rows -> Forall unassigned rows ->
  NoDup (si_instruction_id <$> rows) -> assign_loop E clock now day rows acc w = (Ok l, w') ->
  l = acc ++ (si_instruction_id <$> List.filter (is_releasable now) rows) /\
  (forall i, i ∈ rows -> if is_releasable now i then released day i (sw_store w') else current w' i) /\
  (forall k, k ∉ si_instruction_id <$> rows -> get_instruction k (sw_store w') = get_instruction k (sw_store w)) /\
  (forall k i, k ∉ si_instruction_id <$> rows -> si_instruction_id i = k -> released day i (sw_store w) -> released day i (sw_store w')).
Proof.
  revert acc w. induction rows as [|r rows IH]; intros acc w Hbk Hc Hq Hn Hl; cbn [assign_loop] in Hl.
  { unfold eret in Hl. injection Hl as <- <-. rewrite app_nil_r. split_and!; try done. intros i Hi. by apply not_elem_of_nil in Hi. }
  apply Forall_cons in Hc as [Hr Hc]. apply Forall_cons in Hq as [Hr' Hq]. csimpl in Hn. apply NoDup_cons in Hn as [Hx Hn].
  rewrite ebind_eq in Hl. unfold elift at 1 in Hl. destruct (_releasable r now) as [ok|] eqn:Hok; [|done].
  assert (Hrel : is_releasable now r = ok) by (unfold is_releasable; by rewrite Hok). cbn [List.filter]. rewrite Hrel. csimpl.
  destruct ok; cbn [negb] in Hl.
  - rewrite ebind_eq in Hl. destruct (assign_one E clock now day r w) as [[u|] w1] eqn:Hw1; [|done].
    pose proof (assign_one_books E clock now day r w Hr (proj2 Hr') Hbk) as Hb1. rewrite Hw1 in Hb1.
    apply assign_one_Ok in Hw1 as (br & st & key & transit & id & Ha); [|apply Hbk|done].
    assert (Hcur : Forall (current w1) rows).
    { apply Forall_forall. intros x Hin. unfold current. rewrite (at_rows _ _ _ _ _ _ _ _ _ _ _ _ Ha).
      - by apply (proj1 (Forall_forall _ _) Hc).
      - intros He. apply Hx. rewrite <- He. by apply list_elem_of_fmap_2. }
    destruct (IH _ w1 Hb1 Hcur Hq Hn Hl) as (-> & Hall & Hoth & Hkeep). rewrite <- app_assoc. split_and!; [done| | |].
    + intros i [->|Hi]%elem_of_cons; [|by apply Hall]. rewrite Hrel. apply (Hkeep (si_instruction_id r)); [done..|]. by eapply assigned_released.
    + intros k Hk. apply not_elem_of_cons in Hk as [Hk1 Hk2]. rewrite Hoth by done. by rewrite (at_rows _ _ _ _ _ _ _ _ _ _ _ _ Ha).
    + intros k i Hk Hik Hi. apply not_elem_of_cons in Hk as [Hk1 Hk2]. apply (Hkeep k); [done..|]. eapply released_later; [done|congruence|done].
  - destruct (IH _ w Hbk Hc Hq Hn Hl) as (-> & Hall & Hoth & Hkeep). split_and!; [done| | |].
    + intros i [->|Hi]%elem_of_cons; [|by apply Hall]. rewrite Hrel. unfold current. rewrite Hoth by done. exact Hr.
    + intros k Hk. apply not_elem_of_cons in Hk as [Hk1 Hk2]. by apply Hoth.
    + intros k i Hk Hik Hi. apply not_elem_of_cons in Hk as [Hk1 Hk2]. by apply (Hkeep k).
Qed.

(** C13: the payout mandate.  When [assign_due_instructions] returns, it returns
    exactly the queued, unassigned instructions that are releasable at that
    instant, in order, and each of them, its amounts unchanged, is now in an OPEN
    batch of its own rail and of the day; every other instruction is as it was.
    An instruction under an anti-money-laundering hold is not released whatever
    its deadline; past the statutory deadline any other one is, delivered or not;
    before it, only one whose delivery hold is cleared and whose release time has
    come. *)
Theorem assignment_releases_what_is_due calls clock now t ids w' :
  let w := shistory E calls in
  assign_due_instructions E clock now w = (Ok ids, w') -> now_or now clock = Ok t ->
  let queue := list_instructions None (Some "QUEUED"%string) None true (sw_store w) in
  ids = (si_instruction_id <$> List.filter (is_releasable t) queue) /\
  (forall i, i ∈ queue -> if is_releasable t i then released (dhaka_date t) i (sw_store w') else current w' i) /\
  (forall k, k ∉ si_instruction_id <$> queue -> get_instruction k (sw_store w') = get_instruction k (sw_store w)) /\
  (forall i, i ∈ queue -> tz_aware t = tz_aware (si_latest_release_at i) -> tz_aware t = tz_aware (si_earliest_release_at i) ->
     is_releasable t i = negb (si_aml_hold i) && ((micros (si_latest_release_at i) <=? micros t) ||
       (si_delivery_hold_cleared i && (micros (si_earliest_release_at i) <=? micros t)))).
Proof.
  intros w Ha Ht queue. pose proof (shistory_books E calls) as Hb. fold w in Hb.
  unfold assign_due_instructions, read_store in Ha. inv_eff. rewrite Ht in *. simplify_eq.
  destruct (listed_current None (Some "QUEUED"%string) None true w (bo_unique _ Hb)) as [Hc Hn]. fold queue in Hc, Hn.
  destruct (assign_loop_releases _ _ _ _ _ _ _ _ Hb Hc (listed_unassigned w) Hn Ha) as (-> & Hall & Hoth & _).
  split_and!; [done..|]. intros i Hi Ha1 Ha2. pose proof (listed_unassigned w) as Hq. fold queue in Hq.
  apply (proj1 (Forall_forall _ _) Hq) in Hi as [Hst Hb0]. unfold is_releasable, _releasable, hold_over, dt_le.
  rewrite Hst, Hb0, <- Ha1, <- Ha2, eqb_reflx. cbn. by destruct (si_aml_hold i), (_ <=? _), (si_delivery_hold_cleared i), (_ <=? _).
Qed.
End Release.
