(* ===== verification/SettlementStaging.v ===== *)
(** The float behind a payout: every member of a batch was staged in the ledger
    before it joined, in every history. *)
From S2P Require Import Prelude Effects Rows Exceptions DateTime Sha256 Canonical Json LedgerTypes LedgerStore HashChain LedgerService LedgerCommit ChainInvariant JournalCommit LedgerInvariant LedgerOps LedgerHistory.
From S2P Require Import Fees Calendar Settlement SettlementEngine SettlementMoves SettlementTables SettlementBooks SettlementControls.
Open Scope Z_scope.

(** * An entry in the books *)

(** The entry [id] has a row of this side and amount on the account. *)
Definition entry_posts (s : Store) (id account side : string) (amount : Z) : Prop :=
  exists p, s_postings s !! po_posting_id p = Some p /\ po_entry_id p = id /\ po_account_id p = account /\ po_side p = side /\
    po_amount_minor p = amount.

(** The ledger holds the entry of [spec], found under its idempotency key, and a
    row of the entry for each of its postings. *)
Definition recorded (s : Store) (spec : JournalEntrySpec) : Prop :=
  exists id je, s_journal_by_idem s !! js_idempotency_key spec = Some id /\ s_journal s !! id = Some je /\
    je_reference_id je = js_reference_id spec /\ je_entry_type je = js_entry_type spec /\
    forall sp, sp ∈ js_postings spec -> entry_posts s id (ps_account_id sp) (ps_side sp) (ps_amount_minor sp).

Lemma recorded_extends s s' spec : extends s s' -> recorded s spec -> recorded s' spec.
Proof.
  intros He (id & je & Hk & Hj & Hr & Ht & Hp). exists id, je. split_and!; [by eapply lookup_weaken, He..|done|done|].
  intros sp Hsp. destruct (Hp sp Hsp) as (p & Hl & Hrest). exists p. split; [|done]. by eapply lookup_weaken, He.
Qed.

Section Posted.
Context `{HashFn} `{CheckpointSigner} `{Redactor} (cfg : LedgerCfg).

Lemma post_recorded s spec clock id s' : post_journal_entry cfg s spec clock = (Ok id, s') -> recorded s' spec.
Proof.
  intros (rows & tx & Hst & Hcm)%post_journal_entry_Ok. exists id, (entry_row s spec clock id). split_and!; [| |done..|].
  - rewrite (ce_idem _ _ _ _ _ _ _ _ _ Hst Hcm). apply lookup_insert_eq.
  - rewrite (ce_journal _ _ _ _ _ _ _ _ _ Hst Hcm). apply lookup_insert_eq.
  - intros sp Hsp. apply list_elem_of_lookup_1 in Hsp as [n Hn]. destruct (jg_rows _ _ _ _ _ _ _ Hst).
    destruct (Forall2_lookup_l _ _ _ _ _ pg_rows Hn) as (p & Hp & He & Ha & Hs & Hm & _). exists p. split_and!; try done.
    apply (ce_new _ _ _ _ _ _ _ _ _ Hst Hcm). by eapply list_elem_of_lookup_2.
Qed.
End Posted.

(** * Staged members *)

Section Staging.
Context `{HashFn} `{CheckpointSigner} `{Redactor} `{DhakaTz} `{HostTz} (E : Engine).

(** The entry that moved the net payout of [i] from its rail's transit account to
    the trust account, for the batch [b]. *)
Definition staged (led : Store) (i : SettlementInstructionRow) (b : string) : Prop :=
  exists key transit, open_key b (si_instruction_id i) = Ok key /\ aget (si_rail i) (en_transit_accounts E) = Some transit /\
    recorded led (open_spec E b key transit (si_net_payout_minor i)).

Definition all_staged (w : SWorld) : Prop :=
  forall i b, i ∈ ss_instructions (sw_store w) -> si_batch_id i = Some b -> staged (sw_led w) i b.

Definition skeeps : SWorld -> SWorld -> Prop := keeps all_staged.
#[local] Instance skeeps_preorder : PreOrder skeeps.
Proof. apply keeps_preorder. Qed.

(** Every member of the later store was one of the earlier. *)
Definition members_from (s s' : SettlementStore) : Prop :=
  forall i b, i ∈ ss_instructions s' -> si_batch_id i = Some b ->
    exists j, j ∈ ss_instructions s /\ si_batch_id j = Some b /\ instruction_core j = instruction_core i.
Definition msteps (w w' : SWorld) : Prop := members_from (sw_store w) (sw_store w').
#[local] Instance msteps_preorder : PreOrder msteps.
Proof.
  split; unfold msteps; [by intros w i b Hi Hb; exists i|]. intros w1 w2 w3 H12 H23 i b Hi Hb.
  destruct (H23 i b Hi Hb) as (j & Hj & Hjb & Hc). destruct (H12 j b Hj Hjb) as (k & Hk & Hkb & Hc'). exists k. split_and!; [done..|congruence].
Qed.
#[local] Instance msteps_store : StoreRel msteps.
Proof. intros w w' Hs i b. rewrite Hs. intros Hi Hb. by exists i. Qed.

Lemma staged_core led i j b : instruction_core i = instruction_core j -> staged led i b -> staged led j b.
Proof.
  unfold instruction_core, staged. intros Hc (key & transit & Hk & Ht & Hr). exists key, transit.
  replace (si_instruction_id j) with (si_instruction_id i) by congruence. replace (si_rail j) with (si_rail i) by congruence.
  by replace (si_net_payout_minor j) with (si_net_payout_minor i) by congruence.
Qed.

Lemma staged_later w w' : led_moves E w w' -> msteps w w' -> skeeps w w'.
Proof.
  intros Hl Hm Hs i b Hi Hb. destruct (Hm i b Hi Hb) as (j & Hj & Hjb & Hc). eapply staged_core; [exact Hc|].
  destruct (Hs j b Hj Hjb) as (key & transit & Hk & Ht & Hr). exists key, transit. split_and!; [done..|].
  eapply recorded_extends; [by eapply steps_extend|exact Hr].
Qed.

Lemma within_staged {A} (c : seff A) : within (led_moves E) c -> within msteps c -> within skeeps c.
Proof. intros Hl Hm w. by apply staged_later. Qed.

(** ** Writes *)

Lemma instructions_same w w' : ss_instructions (sw_store w') = ss_instructions (sw_store w) -> msteps w w'.
Proof. intros Hs i b. rewrite Hs. intros Hi Hb. by exists i. Qed.

Lemma put_instruction_members r r' s : get_instruction (si_instruction_id r') s = Some r -> instruction_core r' = instruction_core r ->
  (forall b, si_batch_id r' = Some b -> si_batch_id r = Some b) -> members_from s (put_instruction r' s).
Proof.
  intros Hg Hc Hb i b Hi Hib. apply elem_of_replace_row in Hi as (y & Hy & ->). destruct (String.eqb _ _).
  - exists r. split_and!; [by eapply get_instruction_elem|by apply Hb|done].
  - by exists y.
Qed.

Lemma update_instruction_members i cs :
  (forall r, si_batch_id (foldl instruction_replace r cs) = si_batch_id r) -> within msteps (on_store (update_instruction i cs)).
Proof.
  intros Hcs w. unfold on_store. destruct (update_instruction i cs (sw_store w)) as [[x s']|] eqn:Hu; [|reflexivity].
  apply update_instruction_Ok in Hu as (r & Hg & -> & ->). unfold msteps. cbn [snd sw_store].
  eapply put_instruction_members; [by rewrite instruction_replaces_id, (get_instruction_id _ _ _ Hg)|apply instruction_replaces_core|].
  by rewrite Hcs.
Qed.
Lemma update_batch_members b cs : within msteps (on_store (update_batch b cs)).
Proof.
  intros w. unfold on_store. destruct (update_batch b cs (sw_store w)) as [[x s']|] eqn:Hu; [|reflexivity].
  apply update_batch_Ok in Hu as (r & Hg & -> & ->). by apply instructions_same.
Qed.

Lemma record_txid_members s kv s' : record_txid s kv = Ok s' -> members_from s s'.
Proof.
  unfold record_txid. destruct (get_instruction kv.1 s) as [r|] eqn:Hr; [|done].
  destruct (_ && _); intros Hs; [|simplify_eq; by intros i b Hi Hb; exists i].
  destruct (update_instruction _ _ s) as [[x t]|] eqn:Hx; [|done]. injection Hs as <-.
  apply update_instruction_Ok in Hx as (r0 & Hr0 & -> & ->). simplify_eq.
  eapply put_instruction_members; [by rewrite instruction_replaces_id, (get_instruction_id _ _ _ Hr)|apply instruction_replaces_core|done].
Qed.

Lemma persist_members b ref txids : within msteps (on_store (persist_confirmation_evidence b ref txids)).
Proof.
  intros w. unfold on_store. destruct (persist_confirmation_evidence b ref txids (sw_store w)) as [[a s']|] eqn:Hp; [|reflexivity].
  unfold persist_confirmation_evidence in Hp. destruct (get_batch b _) as [r0|] eqn:Hr; [|done]. inv_res.
  match goal with H : update_batch _ _ _ = Ok _ |- _ => apply update_batch_Ok in H as (r1 & Hr1 & -> & ->) end.
  unfold msteps. cbn [snd sw_store].
  match goal with H : rfold record_txid ?s0 _ = Ok _ |- _ => change (members_from s0 s'); revert H; generalize s0 end.
  clear. revert s'. induction txids as [|kv l IH]; intros s' s0; cbn [rfold]; [intros [= <-] i b Hi Hb; by exists i|].
  destruct (record_txid s0 kv) as [t|] eqn:Ht; [|done]. cbn [rbind]. intros Hl.
  apply record_txid_members in Ht. apply IH in Hl. intros i b0 Hi Hb0. destruct (Hl i b0 Hi Hb0) as (j & Hj & Hjb & Hc).
  destruct (Ht j b0 Hj Hjb) as (k & Hk & Hkb & Hc'). exists k. split_and!; [done..|congruence].
Qed.

Lemma insert_instruction_members r : si_batch_id r = None -> within msteps (store_put (insert_instruction r)).
Proof.
  intros Hn w. unfold store_put, on_store. destruct (insert_instruction r (sw_store w)) as [s'|] eqn:Hi; [|reflexivity]. cbn.
  apply insert_instruction_Ok in Hi as (_ & _ & _ & ->). intros i b [Hi|Hi]%elem_of_app Hib; [by exists i|].
  apply list_elem_of_singleton in Hi as ->. congruence.
Qed.
Lemma insert_batch_members r : within msteps (on_store (fun s => let* s' := insert_batch r s in Ok (tt, s'))).
Proof.
  intros w. unfold on_store. destruct (insert_batch r (sw_store w)) as [s'|] eqn:Hi; [|reflexivity]. cbn.
  apply insert_batch_Ok in Hi as [_ ->]. by apply instructions_same.
Qed.

(** ** The operations *)

#[local] Hint Extern 1 (within msteps (on_store (update_instruction _ _))) =>
  solve [apply update_instruction_members; intros ?; done] : settle.
#[local] Hint Resolve update_batch_members persist_members insert_batch_members : settle.
#[local] Hint Extern 5 (within msteps _) => solve [apply quiet_within; [apply _|eauto with settle]] : settle.

Lemma submit_loop_members clock now rows acc : within msteps (submit_loop E clock now rows acc).
Proof. revert acc. induction rows as [|r rows IH]; intros acc; cbn [submit_loop]; lwalk. Qed.
Lemma timeout_loop_members clock now batches acc : within msteps (timeout_loop E clock now batches acc).
Proof. revert acc. induction batches as [|r l IH]; intros acc; cbn [timeout_loop]; lwalk. Qed.
Lemma resume_loop_members body batches acc : (forall x l, within msteps (body x l)) -> within msteps (resume_loop body batches acc).
Proof. intros Hb. revert acc. induction batches as [|x l IH]; intros acc; cbn [resume_loop]; swalk. Qed.
#[local] Hint Resolve submit_loop_members timeout_loop_members : settle.

Lemma register_members clock p : within msteps (register_succeeded_payment E clock p).
Proof. unfold register_succeeded_payment. swalk. by apply insert_instruction_members. Qed.
#[local] Hint Resolve register_members : settle.

Lemma sinvoke_members clock c : match c with Assign _ => True | _ => within msteps (sinvoke E clock c) end.
Proof.
  destruct c; try exact I; cbn [sinvoke]; unfold void, reject; swalk; lwalk; try (apply resume_loop_members; intros; lwalk).
  intros w. by apply store_rel.
Qed.

(** ** Assignment *)

(** An instruction joins a batch after its float was staged. *)
Lemma join_staged w i b cs : current w i -> staged (sw_led w) i b ->
  (forall r, si_batch_id (foldl instruction_replace r cs) = si_batch_id r) ->
  from w skeeps (update_instruction_ (si_instruction_id i) (I_batch_id (Some b) :: cs)).
Proof.
  intros Hcur Hst Hcs Hall. unfold update_instruction_, on_store.
  destruct (update_instruction _ _ (sw_store w)) as [[x s']|] eqn:Hu; [|done].
  apply update_instruction_Ok in Hu as (r & Hg & -> & ->). unfold current in Hcur. simplify_eq.
  set (i' := foldl _ _ _). assert (Hc : instruction_core i' = instruction_core i) by apply instruction_replaces_core.
  assert (Hb : si_batch_id i' = Some b) by (unfold i'; cbn [foldl]; by rewrite Hcs).
  intros j b' Hj Hjb. cbn [snd sw_store sw_led] in *. apply elem_of_replace_row in Hj as (y & Hy & ->). destruct (String.eqb _ _).
  - rewrite Hb in Hjb. injection Hjb as <-. by eapply staged_core.
  - by apply Hall.
Qed.

(** Calls that leave the members alone. *)
#[local] Hint Extern 6 (within skeeps _) => solve [apply within_staged; lwalk] : settle.

(** [from_bind] with what the first call did to the members and to the ledger. *)
Lemma assign_one_staged clock now day i w : ids_unique (sw_store w) -> current w i -> from w skeeps (assign_one E clock now day i).
Proof.
  intros Hu Hcur. unfold assign_one. do 2 sfrom_step. apply from_bind; [apply _|apply from_within; solve [eauto with settle]|].
  intros r w1 Hg. apply get_or_create_Ok in Hg as (Hr & _ & _ & _ & _ & Hins & _); [|done].
  destruct (aget (si_rail i) (en_transit_accounts E)) as [transit|] eqn:Ht; [|sfrom]. sfrom_step.
  apply from_bind; [apply _|apply from_within; solve [eauto with settle]|]. intros id w2 Hp. apply on_ledger_Ok in Hp as [Hp Hs2].
  apply post_recorded in Hp. apply from_bind; [apply _|apply from_within; autounfold with settle_ops; solve [eauto with settle]|].
  intros x w3 Hb. unfold update_batch_ in Hb. apply on_store_Ok in Hb as [Hb Hl3]. apply update_batch_Ok in Hb as (r1 & _ & _ & Hs3).
  apply from_bind; [apply _| |intros; apply from_within; solve [eauto with settle]]. apply join_staged.
  - unfold current, get_instruction in *. rewrite Hs3. cbn [put_batch ss_instructions]. by rewrite Hs2, Hins.
  - exists a1, transit. rewrite Hl3. split_and!; [|done..]. unfold s_res in *. by destruct (open_key _ _); simplify_eq.
  - intros y. by destruct a.
Qed.

Definition staged_books (w : SWorld) : Prop := books_ok (sw_store w) /\ all_staged w.

Lemma assign_due_staged clock now : within (keeps staged_books) (assign_due_instructions E clock now).
Proof.
  intros w Hst. pose proof (proj1 Hst) as Hb. destruct (listed_current None (Some "QUEUED"%string) None true w (bo_unique _ Hb)).
  assert (Hf : from w (keeps staged_books) (assign_due_instructions E clock now)); [|exact (Hf Hst)].
  unfold assign_due_instructions. do 2 sfrom_step. apply from_assign_loop; [apply _| |done|apply listed_unassigned|done].
  intros r w' [_ Hr] Hc [Hb' Hs']. split; [by apply assign_one_books|by apply assign_one_staged; [apply Hb'|..]].
Qed.

Lemma sinvoke_staged clock c : within (keeps staged_books) (sinvoke E clock c).
Proof.
  intros w [Hb Hs]. destruct c; try (split; [by apply sinvoke_books|]; eapply staged_later; [apply sinvoke_led| |exact Hs];
    match goal with |- msteps _ (sinvoke _ _ ?c _).2 => exact (sinvoke_members clock c w) end).
  cbn [sinvoke]. unfold void. apply (within_bind (keeps staged_books)); [apply assign_due_staged|intros; apply within_ret, _|by split].
Qed.

Lemma shistory_staged calls : staged_books (shistory E calls).
Proof.
  unfold shistory. assert (Hst : staged_books sstart) by (split; [apply empty_books|intros i b Hi; by apply not_elem_of_nil in Hi]).
  revert Hst. generalize sstart. induction calls as [|a l IH]; intros w Hst; [done|]. cbn [foldl]. apply IH. by apply sinvoke_staged.
Qed.

(** C7: no payout without its float.  In every history, also one in which calls
    raised half way: an instruction that is in a batch has its open entry in the
    ledger, found under the key derived from the batch and the instruction, that
    debits the trust account and credits the transit account of the instruction's
    rail, each with its net payout. *)
Theorem members_are_staged calls k i b :
  let w := shistory E calls in
  get_instruction k (sw_store w) = Some i -> si_batch_id i = Some b ->
  exists key transit id je, open_key b (si_instruction_id i) = Ok key /\ aget (si_rail i) (en_transit_accounts E) = Some transit /\
    s_journal_by_idem (sw_led w) !! key = Some id /\ s_journal (sw_led w) !! id = Some je /\
    je_reference_id je = b /\ je_entry_type je = "settlement_batch_open"%string /\
    entry_posts (sw_led w) id (en_tcsa_account_id E) "DEBIT" (si_net_payout_minor i) /\
    entry_posts (sw_led w) id transit "CREDIT" (si_net_payout_minor i).
Proof.
  intros w Hi Hb. destruct (shistory_staged calls) as [_ Hst].
  destruct (Hst i b (get_instruction_elem _ _ _ Hi) Hb) as (key & transit & Hk & Ht & id & je & Hkey & Hj & Hr & Hty & Hp).
  exists key, transit, id, je. split_and!; [done..| |]; apply (Hp (posting _ _ _)); set_solver.
Qed.
End Staging.
