(* ===== verification/SettlementConfirm.v ===== *)
(** The bank's confirmation: what [confirm] does to the batch, its members and the
    ledger, and that [resume_confirmations] finishes what a crash cut short. *)
From S2P Require Import Prelude Effects Rows Exceptions DateTime Sha256 Canonical Json LedgerTypes LedgerStore HashChain LedgerService LedgerCommit ChainInvariant JournalCommit LedgerInvariant LedgerOps LedgerHistory Fees Calendar Settlement SettlementEngine SettlementMoves SettlementTables SettlementBooks SettlementControls SettlementStaging.
Open Scope Z_scope.

(** * Rows, one by one *)

Abbreviation rows_by R s s' := (Forall2 R (ss_instructions s) (ss_instructions s')).

Lemma put_rows_by (R : SettlementInstructionRow -> SettlementInstructionRow -> Prop) r r' s :
  ids_unique s -> get_instruction (si_instruction_id r') s = Some r -> R r r' -> 
  (forall x, si_instruction_id x <> si_instruction_id r' -> R x x) -> rows_by R s (put_instruction r' s).
Proof.
  intros [_ Hu] Hg Hr Hx. cbn [put_instruction ss_instructions]. apply Forall2_fmap_r, Forall2_same_length_lookup_2; [done|].
  intros n x y Hn Hn'. assert (x = y) as -> by congruence. cbn. destruct (String.eqb_spec (si_instruction_id y) (si_instruction_id r')) as [He|]; [|by apply Hx].
  assert (Hy : get_instruction (si_instruction_id r') s = Some y); [|by simplify_eq].
  apply (find_key si_instruction_id); [done|]. split; [by eapply list_elem_of_lookup_2|done].
Qed.

Lemma rows_by_refl R s : (forall r, R r r) -> rows_by R s s.
Proof. intros Hr. by apply Forall_Forall2_diag, Forall_forall. Qed.

(** The sum of the confirmation: a submitted member of [b] is settled, its identity
    and its amounts stay, and an instruction of another batch is not touched. *)
Definition is_submitted (b : string) (r : SettlementInstructionRow) : bool :=
  bool_decide (si_batch_id r = Some b) && String.eqb (si_status r) "SUBMITTED".

(** The transaction is the recorded one or the one given for the instruction. *)
Definition tx_from (txids : list (string * string)) (r : SettlementInstructionRow) (tx : option string) : Prop :=
  forall t, tx = Some t -> si_rail_transaction_id r = Some t \/ (si_instruction_id r, t) ∈ txids.

(** The settled row: status, time and rail transaction are written, a transaction
    already on record is kept, and nothing else changes. *)
Definition settled_copy (txids : list (string * string)) (r r' : SettlementInstructionRow) : Prop :=
  exists settled_at tx,
    r' = foldl instruction_replace r [I_status "SETTLED"; I_settled_at (Some settled_at); I_rail_transaction_id tx] /\
    tx_from txids r tx /\ forall t, si_rail_transaction_id r = Some t -> truthy t = true -> tx = Some t.

Record confirm_row (b : string) (txids : list (string * string)) (r r' : SettlementInstructionRow) : Prop := {
  cr_settled : is_submitted b r = true -> settled_copy txids r r';
  cr_other : is_submitted b r = false -> r' = r
}.

(** Before the members are settled: at most the rail transaction of a submitted
    member that had none is recorded. *)
Record evidence_row (b : string) (txids : list (string * string)) (r r' : SettlementInstructionRow) : Prop := {
  er_submitted : exists tx, r' = instruction_replace r (I_rail_transaction_id tx) /\ tx_from txids r tx /\
    forall t, si_rail_transaction_id r = Some t -> tx = Some t;
  er_other : is_submitted b r = false -> r' = r
}.

(** The rows of [ids] are settled. *)
Record settled_row (txids : list (string * string)) (ids : list string) (r r' : SettlementInstructionRow) : Prop := {
  st_settled : si_instruction_id r ∈ ids -> settled_copy txids r r';
  st_other : si_instruction_id r ∉ ids -> r' = r
}.

Lemma settled_copy_kept txids r r' : settled_copy txids r r' ->
  instruction_core r' = instruction_core r /\ si_batch_id r' = si_batch_id r /\ si_status r' = "SETTLED"%string.
Proof. by intros (d & tx & -> & _). Qed.

Lemma confirm_row_kept txids b r r' : confirm_row b txids r r' ->
  instruction_core r' = instruction_core r /\ si_batch_id r' = si_batch_id r /\
  si_status r' = if is_submitted b r then "SETTLED"%string else si_status r.
Proof.
  intros [Hs Ho]. destruct (is_submitted b r); [by eapply settled_copy_kept, Hs|]. by rewrite Ho.
Qed.

Lemma evidence_row_kept txids b r r' : evidence_row b txids r r' ->
  instruction_core r' = instruction_core r /\ si_batch_id r' = si_batch_id r /\ si_status r' = si_status r.
Proof. by intros [(tx & -> & _) _]. Qed.

Lemma is_submitted_same b r r' : si_batch_id r' = si_batch_id r -> si_status r' = si_status r -> is_submitted b r' = is_submitted b r.
Proof. unfold is_submitted. by intros -> ->. Qed.

Lemma tx_from_trans txids r r' tx tx' : si_rail_transaction_id r' = tx -> si_instruction_id r' = si_instruction_id r ->
  tx_from txids r tx -> tx_from txids r' tx' -> tx_from txids r tx'.
Proof. intros He Hi Hf Hf' t Ht. destruct (Hf' t Ht) as [Hr|Hin]; [apply Hf; congruence|right; congruence]. Qed.

#[local] Instance evidence_row_preorder b txids : PreOrder (evidence_row b txids).
Proof.
  split.
  - intros r. split; [|done]. exists (si_rail_transaction_id r). split_and!; [by destruct r|by left|done].
  - intros r1 r2 r3 E1 E2. pose proof (evidence_row_kept _ _ _ _ E1) as (_ & Hb & Hs).
    pose proof (is_submitted_same b _ _ Hb Hs) as Hsub.
    destruct E1 as [(tx & -> & Hf & Ht) O1], E2 as [(tx' & -> & Hf' & Ht') O2]. split.
    + exists tx'. split_and!; [done|refine (tx_from_trans _ _ _ _ _ _ _ Hf Hf'); reflexivity|]. intros t Hr. apply Ht'. by apply Ht.
    + intros Hn. rewrite O2 by congruence. by apply O1.
Qed.

Lemma core_id r r' : instruction_core r' = instruction_core r -> si_instruction_id r' = si_instruction_id r.
Proof. unfold instruction_core. congruence. Qed.

Lemma settled_copy_trans txids r1 r2 r3 : settled_copy txids r1 r2 -> settled_copy txids r2 r3 -> settled_copy txids r1 r3.
Proof.
  intros (d1 & t1 & -> & F1 & H1) (d2 & t2 & -> & F2 & H2). exists d2, t2. split_and!; [done|refine (tx_from_trans _ _ _ _ _ _ _ F1 F2); reflexivity|]. intros t Ht Htr. apply H2; [|done]. by apply H1.
Qed.

Lemma settled_row_id txids ids r r' : settled_row txids ids r r' -> si_instruction_id r' = si_instruction_id r.
Proof.
  intros [Hs Ho]. destruct (decide (si_instruction_id r ∈ ids)) as [Hi|Hi]; [|by rewrite Ho].
  apply core_id. by eapply settled_copy_kept, Hs.
Qed.

Lemma settled_row_cons txids i ids r1 r2 r3 : settled_row txids [i] r1 r2 -> settled_row txids ids r2 r3 -> settled_row txids (i :: ids) r1 r3.
Proof.
  intros S1 S2. pose proof (settled_row_id _ _ _ _ S1) as Hid. destruct S1 as [H1 O1], S2 as [H2 O2]. rewrite Hid in *. split.
  - rewrite elem_of_cons. intros Hin.
    destruct (decide (si_instruction_id r1 = i)) as [Hi|Hi]; [|rewrite <- O1; [apply H2|]; set_solver].
    specialize (H1 ltac:(set_solver)). destruct (decide (si_instruction_id r1 ∈ ids)) as [Hd|Hd]; [|by rewrite O2].
    eapply settled_copy_trans; [done|by apply H2].
  - intros Hn. rewrite O2, O1; set_solver.
Qed.

(** The same rows are found under the same ids. *)
Lemma rows_by_get (R : SettlementInstructionRow -> SettlementInstructionRow -> Prop) s s' k :
  (forall r r', R r r' -> si_instruction_id r' = si_instruction_id r) -> rows_by R s s' ->
  option_Forall2 R (get_instruction k s) (get_instruction k s').
Proof.
  intros Hid Hr. unfold get_instruction. induction Hr as [|r r' l l' Hrr _ IH]; [constructor|]. cbn [List.find].
  unfold has_key at 1 3. rewrite (Hid _ _ Hrr). destruct (String.eqb _ k); [by constructor|done].
Qed.

Lemma rows_by_trans (R1 R2 R3 : SettlementInstructionRow -> SettlementInstructionRow -> Prop) s1 s2 s3 :
  (forall x y z, R1 x y -> R2 y z -> R3 x z) -> rows_by R1 s1 s2 -> rows_by R2 s2 s3 -> rows_by R3 s1 s3.
Proof. intros Ht H12 H23. eapply Forall2_trans; [exact Ht|exact H12|exact H23]. Qed.

(** * Evidence *)

Lemma record_txid_rows txids b s kv s' : ids_unique s -> kv ∈ txids -> (exists r, get_instruction kv.1 s = Some r /\ si_batch_id r = Some b) ->
  record_txid s kv = Ok s' -> rows_by (evidence_row b txids) s s' /\ ids_unique s'.
Proof.
  intros Hu Hkv (r & Hr & Hb). unfold record_txid. rewrite Hr. destruct (_ && _) eqn:Hsub; intros Hs.
  - bool_prop. destruct (update_instruction _ _ s) as [[x t]|] eqn:Hx; [|done]. injection Hs as <-.
    apply update_instruction_Ok in Hx as (r0 & Hr0 & -> & ->). simplify_eq. split; [|by apply unique_put_instruction].
    eapply put_rows_by; [done|by rewrite instruction_replaces_id, (get_instruction_id _ _ _ Hr)| |by intros].
    split; [exists (Some kv.2); split_and!; [done| |congruence]|].
    { intros t [= <-]. right. rewrite (get_instruction_id _ _ _ Hr). by destruct kv. }
    unfold is_submitted. rewrite bool_decide_eq_true_2 by done.
    cbn [andb]. intros Hf. by apply String.eqb_neq in Hf.
  - simplify_eq. split; [|done]. by apply rows_by_refl.
Qed.

Lemma record_txids_rows txids b l s s' : ids_unique s -> l ⊆ txids ->
  (forall kv, kv ∈ l -> exists r, get_instruction kv.1 s = Some r /\ si_batch_id r = Some b) ->
  rfold record_txid s l = Ok s' -> rows_by (evidence_row b txids) s s' /\ ids_unique s'.
Proof.
  revert s. induction l as [|kv l IH]; intros s Hu Hsub Hl; cbn [rfold].
  { intros [= <-]. split; [|done]. by apply rows_by_refl. }
  destruct (record_txid s kv) as [t|] eqn:Ht; [|done]. cbn [rbind]. intros Hs.
  apply (record_txid_rows txids b) in Ht as [Hrows Hut]; [|done|apply Hsub, list_elem_of_here|apply Hl, list_elem_of_here].
  apply IH in Hs as [Hrest Hu']; [|done|set_solver|].
  - split; [|done]. eapply rows_by_trans; [|exact Hrows|exact Hrest]. intros x y z. apply transitivity.
  - intros kv' Hkv. destruct (Hl kv') as (r & Hr & Hb); [by apply list_elem_of_further|].
    pose proof (rows_by_get _ _ _ kv'.1 (fun r r' He => core_id _ _ (proj1 (evidence_row_kept _ _ _ _ He))) Hrows) as Hg. rewrite Hr in Hg.
    inversion Hg as [? r' He|]. subst. exists r'. split; [done|]. by destruct (evidence_row_kept _ _ _ _ He) as (_ & -> & _).
Qed.

(** * Settling the members *)

Section Confirm.
Context `{HashFn} `{CheckpointSigner} `{Redactor} `{DhakaTz} `{HostTz} (E : Engine).

Lemma within_same_store {A} (c : seff A) w a w' : within same_store c -> c w = (Ok a, w') -> sw_store w' = sw_store w.
Proof. intros Hc Hw. specialize (Hc w). by rewrite Hw in Hc. Qed.

Lemma update_instruction_rows i cs w r w' : current w i -> update_instruction_ (si_instruction_id i) cs w = (Ok r, w') ->
  sw_store w' = put_instruction (foldl instruction_replace i cs) (sw_store w).
Proof.
  intros Hc Hu. apply on_store_Ok in Hu as [Hu _]. apply update_instruction_Ok in Hu as (x & Hx & -> & ->).
  unfold current in Hc. by simplify_eq.
Qed.

Lemma settle_one_Ok clock now b txids i w u w' : ids_unique (sw_store w) -> current w i -> settle_one E clock now b txids i w = (Ok u, w') ->
  rows_by (settled_row txids [si_instruction_id i]) (sw_store w) (sw_store w') /\ ss_batches (sw_store w') = ss_batches (sw_store w) /\
  ids_unique (sw_store w').
Proof.
  intros Hu Hc Hs. unfold settle_one in Hs. inv_eff.
  match goal with H : update_instruction_ _ _ _ = _ |- _ => apply update_instruction_rows in H; [|done] end.
  repeat match goal with H : _audit_instruction _ _ _ _ _ _ _ _ = _ |- _ => apply within_same_store in H; [|eauto with settle] end.
  apply within_same_store in Hs; [|eauto with settle].
  match goal with H : sw_store _ = put_instruction ?r _ |- _ => set (i' := r) in * end.
  assert (Hst : sw_store w' = put_instruction i' (sw_store w)) by congruence. rewrite Hst. split_and!; [|done|by apply unique_put_instruction].
  eapply put_rows_by; [done|exact Hc| |].
  - split; [|intros Hn; exfalso; apply Hn, list_elem_of_here]. intros _. eexists _, _. split_and!; [reflexivity| |].
    { intros t Ht. unfold opt_or in Ht. destruct (si_rail_transaction_id i) as [x|]; [destruct (truthy x)|];
        (by left) || (right; by apply aget_elem). }
    intros t Ht Htr. rewrite Ht. unfold opt_or. by rewrite Htr.
  - intros x Hx. change (si_instruction_id x <> si_instruction_id i) in Hx. split; [|done]. by rewrite list_elem_of_singleton.
Qed.

Lemma settle_rows_Ok clock now b txids rows w u w' : ids_unique (sw_store w) -> Forall (current w) rows -> NoDup (si_instruction_id <$> rows) ->
  each (settle_one E clock now b txids) rows w = (Ok u, w') ->
  rows_by (settled_row txids (si_instruction_id <$> rows)) (sw_store w) (sw_store w') /\ ss_batches (sw_store w') = ss_batches (sw_store w) /\
  ids_unique (sw_store w').
Proof.
  revert w. induction rows as [|i rows IH]; intros w Hu Hc Hn; cbn [each].
  { intros [= _ <-]. split_and!; [|done..]. apply rows_by_refl. split; [by intros ?%not_elem_of_nil|done]. }
  apply Forall_cons in Hc as [Hi Hc]. csimpl in Hn. apply NoDup_cons in Hn as [Hx Hn]. rewrite ebind_eq.
  destruct (settle_one E clock now b txids i w) as [[v|] w1] eqn:Hw1; [|done]. intros Hs.
  apply settle_one_Ok in Hw1 as (Hr1 & Hb1 & Hu1); [|done..].
  apply IH in Hs as (Hr2 & Hb2 & Hu2); [|done| |done].
  - split_and!; [|congruence|done]. eapply rows_by_trans; [|exact Hr1|exact Hr2]. intros x y z. apply settled_row_cons.
  - apply Forall_forall. intros x Hin. apply (proj1 (Forall_forall _ _) Hc) in Hin as Hcx.
    pose proof (rows_by_get _ _ _ (si_instruction_id x) (settled_row_id _ _) Hr1) as Hg.
    unfold current in *. rewrite Hcx in Hg. inversion Hg as [? y Hy|]. subst. f_equal. apply (st_other _ _ _ _ Hy).
    rewrite list_elem_of_singleton. intros He. apply Hx. rewrite <- He. by apply list_elem_of_fmap_2.
Qed.

Lemma submitted_elem b s r : r ∈ submitted_of b s <-> r ∈ ss_instructions s /\ is_submitted b r = true.
Proof.
  unfold submitted_of, list_instructions, is_submitted. rewrite list_elem_of_In, filter_In, <- list_elem_of_In. cbn.
  by rewrite !andb_true_r.
Qed.

(** The loop of [confirm] settles exactly the submitted members. *)
Lemma settled_are_submitted txids b s s' : ids_unique s -> rows_by (settled_row txids (si_instruction_id <$> submitted_of b s)) s s' ->
  rows_by (confirm_row b txids) s s'.
Proof.
  intros Hu Hr. apply Forall2_same_length_lookup. split; [by eapply Forall2_length|]. intros n r r' Hn Hn'.
  destruct (Forall2_lookup_lr _ _ _ _ _ _ Hr Hn Hn') as [S O]. apply list_elem_of_lookup_2 in Hn as Hin.
  assert (Hiff : si_instruction_id r ∈ si_instruction_id <$> submitted_of b s <-> is_submitted b r = true).
  { rewrite list_elem_of_fmap. split.
    - intros (x & He & Hx). apply submitted_elem in Hx as [Hx Hs].
      assert (x = r) as ->; [|done]. destruct Hu as [_ Hu]. by eapply (NoDup_fmap_eq si_instruction_id).
    - intros Hs. exists r. split; [done|]. by apply submitted_elem. }
  split; [intros Hs; by apply S, Hiff|]. intros Hs. apply O. rewrite Hiff. by rewrite Hs.
Qed.

(** * The close entry *)

(** An entry of the batch that clears the merchants' balances. *)
Definition closed_in (led : Store) (b : string) : Prop :=
  exists id je, s_journal led !! id = Some je /\ je_reference_id je = b /\ je_entry_type je = "settlement_batch_close"%string.

Lemma closed_in_extends s s' b : extends s s' -> closed_in s b -> closed_in s' b.
Proof. intros He (id & je & Hj & Hrest). exists id, je. split; [|done]. by eapply lookup_weaken, He. Qed.

Lemma closed_listed led b : list_journal_entries_by_reference_and_type led b "settlement_batch_close" <> [] <-> closed_in led b.
Proof.
  unfold list_journal_entries_by_reference_and_type, closed_in. split.
  - destruct (sort_by _ _ _) as [|je l] eqn:Hl; [done|]. intros _.
    assert (Hin : je ∈ sort_by Z.le je_entry_index (filter (fun r => je_reference_id r = b /\ je_entry_type r = "settlement_batch_close"%string)
      (map_to_list (s_journal led)).*2)) by (rewrite Hl; apply list_elem_of_here).
    rewrite sort_by_perm, list_elem_of_filter in Hin. destruct Hin as [[Hr Ht] Hin].
    apply list_elem_of_fmap in Hin as ([id x] & -> & Hx). apply elem_of_map_to_list in Hx. by exists id, x.
  - intros (id & je & Hj & Hr & Ht) Hn.
    assert (Hin : je ∈ sort_by Z.le je_entry_index (filter (fun r => je_reference_id r = b /\ je_entry_type r = "settlement_batch_close"%string)
      (map_to_list (s_journal led)).*2)).
    { rewrite sort_by_perm, list_elem_of_filter. split; [done|]. apply list_elem_of_fmap. exists (id, je). split; [done|].
      by apply elem_of_map_to_list. }
    rewrite Hn in Hin. by apply not_elem_of_nil in Hin.
Qed.

Lemma recorded_closed led b key ps : recorded led (close_spec E b key ps) -> closed_in led b.
Proof. intros (id & je & _ & Hj & Hr & Ht & _). by exists id, je. Qed.

(** The close of [rows]: posted now, or found by its reference and type. *)
Definition close_of (led led' : Store) (b : string) (rows : list SettlementInstructionRow) : Prop :=
  closed_in led b \/ exists key ps, close_key b = Ok key /\ close_postings E rows = Ok ps /\ recorded led' (close_spec E b key ps).

Lemma close_batch_Ok clock b rows w u w' : close_batch E clock b rows w = (Ok u, w') -> rows <> [] ->
  close_of (sw_led w) (sw_led w') b rows.
Proof.
  intros Hc Hne. unfold close_batch in Hc. rewrite bool_decide_eq_false_2 in Hc by done. inv_eff. unfold post_close in Hc.
  rename E0 into Hps. match goal with H : s_res (close_key b) = Ok _ |- _ => rename H into Hk end.
  destruct (on_ledger _ w) as [[id|e] w1] eqn:Hp.
  - injection Hc as <- <-. apply on_ledger_Ok in Hp as [Hp _]. apply post_recorded in Hp. right. eexists _, _. split_and!; [|exact Hps|exact Hp].
    unfold s_res in Hk. destruct (close_key b); congruence.
  - destruct e as [| | | |e| | | |]; try done. destruct e; try done. case_bool_decide as Hl; [done|]. injection Hc as <- <-. left.
    apply closed_listed. unfold on_ledger in Hp. destruct (post_journal_entry _ _ _ _) as [[|] s] eqn:Hpost; [done|].
    apply post_journal_entry_Err in Hpost as ->. injection Hp as _ <-. exact Hl.
Qed.

Lemma close_of_later led led1 led2 b rows : extends led1 led2 -> close_of led led1 b rows -> close_of led led2 b rows.
Proof.
  intros He [Hc|(key & ps & Hk & Hp & Hr)]; [by left|]. right. exists key, ps. split_and!; [done..|]. by eapply recorded_extends.
Qed.

Lemma submitted_evidence txids b s s' : rows_by (evidence_row b txids) s s' -> Forall2 (evidence_row b txids) (submitted_of b s) (submitted_of b s').
Proof.
  unfold submitted_of, list_instructions. induction 1 as [|r r' l l' Hr _ IH]; [constructor|]. cbn [List.filter].
  destruct (evidence_row_kept _ _ _ _ Hr) as (_ & -> & ->). destruct (_ && _); [by constructor|done].
Qed.

(** The close entry is a function of the members' merchants and payouts. *)
Lemma close_postings_evidence txids b rows rows' : Forall2 (evidence_row b txids) rows rows' -> close_postings E rows' = close_postings E rows.
Proof.
  intros Hr. unfold close_postings. replace (per_merchant rows') with (per_merchant rows); [done|]. unfold per_merchant.
  generalize (@nil (string * Z)). induction Hr as [|r r' l l' Hrr _ IH]; intros d; [done|]. cbn [foldl]. rewrite IH.
  destruct (evidence_row_kept _ _ _ _ Hrr) as [C _].
  unfold instruction_core in C. by replace (si_merchant_id r') with (si_merchant_id r) by congruence;
    replace (si_net_payout_minor r') with (si_net_payout_minor r) by congruence.
Qed.

(** * The confirmation as a whole *)

Lemma confirm_source r u : _batch_transition r "sponsor_bank_confirmed" "CONFIRMED" = Ok u ->
  sb_status r = "DISPATCHED"%string \/ sb_status r = "CONFIRMED"%string.
Proof.
  intros Hu. apply batch_transition_edge, edge_source in Hu. apply (bool_decide_eq_true_2 _) in Hu.
  assert (Hs : sb_status r ∈ ["DISPATCHED"; "CONFIRMED"]%string) by (by apply bool_decide_eq_true in Hu).
  rewrite !elem_of_cons, elem_of_nil in Hs. naive_solver.
Qed.

Lemma finish_Ok clock now b txids upd rows w x w' : ids_unique (sw_store w) -> rows = submitted_of b (sw_store w) ->
  finish_confirmation E clock now b txids upd rows w = (Ok x, w') ->
  rows_by (confirm_row b txids) (sw_store w) (sw_store w') /\ ss_batches (sw_store w') = ss_batches (sw_store w) /\ ids_unique (sw_store w').
Proof.
  intros Hu -> Hf. unfold finish_confirmation in Hf. rewrite ebind_eq in Hf.
  destruct (each _ _ w) as [[v|] w1] eqn:Hw1; [|done].
  destruct (listed_current (Some b) (Some "SUBMITTED"%string) None false w Hu) as [Hc Hn].
  apply settle_rows_Ok in Hw1 as (Hr & Hb & Hu1); [|done..]. apply within_same_store in Hf; [|swalk].
  rewrite Hf. split_and!; [|done..]. by apply settled_are_submitted.
Qed.

Lemma finish_led clock now b txids upd rows w x w' : finish_confirmation E clock now b txids upd rows w = (Ok x, w') ->
  extends (sw_led w) (sw_led w').
Proof.
  intros Hf. assert (Hl : within (led_moves E) (finish_confirmation E clock now b txids upd rows)) by lwalk.
  specialize (Hl w). rewrite Hf in Hl. by eapply steps_extend.
Qed.

Lemma persist_rows b ref txids s r s' a : ids_unique s -> get_batch b s = Some r -> persist_confirmation_evidence b ref txids s = Ok (a, s') ->
  rows_by (evidence_row b txids) s s' /\ ids_unique s' /\ get_batch b s' = Some (batch_replace r (B_sponsor_bank_ref (Some ref))) /\
  forall k, k <> b -> get_batch k s' = get_batch k s.
Proof.
  intros Hu Hr Hp. unfold persist_confirmation_evidence in Hp. rewrite Hr in Hp. inv_res.
  match goal with H : update_batch _ _ _ = Ok _ |- _ => apply update_batch_Ok in H as (r1 & Hr1 & -> & ->) end. simplify_eq.
  match goal with H : rfold record_txid _ _ = Ok _ |- _ => pose proof (record_txids_batches _ _ _ H) as Hb;
    apply (record_txids_rows txids b) in H; [destruct H as [Hrows Hu']|..] end.
  - split_and!; [done..| |]; [|intros k Hk]; rewrite (get_batch_same _ _ _ Hb), get_put_batch.
    + rewrite Hr. cbn. by rewrite (get_batch_id _ _ _ Hr), String.eqb_refl.
    + cbn. rewrite (get_batch_id _ _ _ Hr). apply not_eq_sym, String.eqb_neq in Hk. rewrite Hk. by destruct (get_batch k s).
  - by apply unique_put_batch.
  - done.
  - intros kv Hkv. match goal with H : existsb _ _ = false |- _ => eapply not_existsb in H; [|exact Hkv] end.
    unfold evidence_refused in *. change (get_instruction kv.1 (put_batch _ s)) with (get_instruction kv.1 s).
    destruct (get_instruction kv.1 s) as [i|]; [|done]. exists i. split; [done|]. bool_prop. done.
Qed.

(** What a confirmation has done when it returns. *)
Record confirmed_to (b : string) (txids : list (string * string)) (w w' : SWorld) (r r' : SettlementBatchRow) : Prop := {
  ct_before : get_batch b (sw_store w) = Some r;
  ct_after : get_batch b (sw_store w') = Some r';
  ct_status : sb_status r' = "CONFIRMED"%string;
  ct_from : (sb_status r = "CONFIRMED"%string /\ r' = r) \/
    (sb_status r = "DISPATCHED"%string /\ is_Some (sb_sponsor_bank_ref r') /\
     (submitted_of b (sw_store w) <> [] -> close_of (sw_led w) (sw_led w') b (submitted_of b (sw_store w))));
  ct_batches : forall k, k <> b -> get_batch k (sw_store w') = get_batch k (sw_store w);
  ct_rows : rows_by (confirm_row b txids) (sw_store w) (sw_store w');
  ct_unique : ids_unique (sw_store w')
}.

Lemma evidence_then_confirm txids b r1 r2 r3 : evidence_row b txids r1 r2 -> confirm_row b txids r2 r3 -> confirm_row b txids r1 r3.
Proof.
  intros E1 [S2 O2]. destruct (evidence_row_kept _ _ _ _ E1) as (_ & Hb & Hs).
  pose proof (is_submitted_same b _ _ Hb Hs) as Hsub. rewrite Hsub in *. destruct E1 as [(tx & -> & Hf & Ht) O1]. split.
  - intros Hi. destruct (S2 Hi) as (d & tx' & -> & Hf' & Ht'). exists d, tx'.
    split_and!; [done|refine (tx_from_trans _ _ _ _ _ _ _ Hf Hf'); reflexivity|]. intros t Hr. apply Ht'. by apply Ht.
  - intros Hi. rewrite O2 by done. by apply O1.
Qed.

Lemma commit_rows clock now b ref txids w r x w' : ids_unique (sw_store w) -> get_batch b (sw_store w) = Some r ->
  commit_confirmation E clock now b ref txids w = (Ok x, w') ->
  rows_by (evidence_row b txids) (sw_store w) (sw_store w') /\ ids_unique (sw_store w') /\ x.2 = submitted_of b (sw_store w') /\
  (exists r', get_batch b (sw_store w') = Some r' /\ sb_status r' = "CONFIRMED"%string /\ is_Some (sb_sponsor_bank_ref r')) /\
  (forall k, k <> b -> get_batch k (sw_store w') = get_batch k (sw_store w)) /\
  (submitted_of b (sw_store w) <> [] -> close_of (sw_led w) (sw_led w') b (submitted_of b (sw_store w))).
Proof.
  intros Hu Hr Hc. unfold commit_confirmation in Hc. destruct ref as [ref|]; [|done]. unfold read_store in Hc. inv_eff.
  rename s into w1, s1 into w2, s2 into w', E0 into Hp, E2 into Hclose, E3 into Hupd. apply on_store_Ok in Hp as [Hp Hl1].
  apply (persist_rows _ _ _ _ r) in Hp as (Hrows & Hu1 & Hb1 & Ho1); [|done..].
  pose proof (within_same_store _ _ _ _ (close_batch_store E clock b _) Hclose) as Hs2.
  apply on_store_Ok in Hupd as [Hupd Hl3].
  apply update_batch_Ok in Hupd as (r1 & Hr1 & Hx & Hs3). rewrite Hs2, Hb1 in Hr1. injection Hr1 as <-.
  assert (Hins : ss_instructions (sw_store w') = ss_instructions (sw_store w1)) by (rewrite Hs3; cbn; by rewrite Hs2).
  pose proof (submitted_evidence _ _ _ _ Hrows) as Hsub. rewrite Hins, Hs3. split_and!.
  - done.
  - apply unique_put_batch. by rewrite Hs2.
  - cbn. unfold submitted_of, list_instructions. cbn. by rewrite Hs2.
  - exists a2. rewrite get_put_batch, Hs2, Hb1, Hx, batch_replaces_id. cbn. rewrite (get_batch_id _ _ _ Hr), String.eqb_refl. by eauto.
  - intros k Hk. rewrite get_put_batch, Hs2, Ho1, Hx, batch_replaces_id by done. cbn. rewrite (get_batch_id _ _ _ Hr).
    apply not_eq_sym, String.eqb_neq in Hk. rewrite Hk. by destruct (get_batch k _).
  - intros Hne. rewrite Hl3. apply close_batch_Ok in Hclose; [|intros He; rewrite He in Hsub; by apply Forall2_nil_inv_r in Hsub].
    rewrite Hl1 in Hclose. destruct Hclose as [?|(key & ps & Hk & Hps & Hrec)]; [by left|]. right. exists key, ps. split_and!; [done| |done].
    by rewrite <- (close_postings_evidence _ _ _ _ Hsub).
Qed.

Lemma confirm_Ok clock b ref txids now w x w' : ids_unique (sw_store w) -> confirm E clock b ref txids now w = (Ok x, w') ->
  exists r r', confirmed_to b txids w w' r r'.
Proof.
  intros Hu Hc. unfold confirm, _require_batch, read_store in Hc. inv_eff.
  destruct (get_batch b (sw_store w)) as [r|] eqn:Hr; [|done]. inv_eff.
  match goal with H : _batch_transition _ _ _ = Ok _ |- _ => apply confirm_source in H as Hst end. exists r.
  destruct (String.eqb_spec (sb_status r) "CONFIRMED") as [Hconf|Hconf].
  - inv_eff. apply finish_Ok in Hc as (Hrows & Hb & Hu'); [|done..]. exists r.
    split; try done; [by rewrite (get_batch_same _ _ _ Hb)|by left|intros k _; by apply get_batch_same].
  - destruct Hst as [Hdisp|?]; [|done]. rewrite ebind_eq in Hc.
    destruct (commit_confirmation _ _ _ _ _ _ w) as [[c|] w1] eqn:Hw1; [|done].
    apply (commit_rows _ _ _ _ _ _ r) in Hw1 as (Hrows & Hu1 & Hsub & (r' & Hr' & Hs' & Href) & Ho & Hclose); [|done..].
    apply finish_led in Hc as Hled. apply finish_Ok in Hc as (Hrows2 & Hb2 & Hu2); [|done..]. exists r'.
    split; try done; [by rewrite (get_batch_same _ _ _ Hb2)| | |].
    + right. split_and!; [done..|]. intros Hne. eapply close_of_later; [exact Hled|by apply Hclose].
    + intros k Hk. rewrite (get_batch_same _ _ _ Hb2). by apply Ho.
    + eapply rows_by_trans; [|exact Hrows|exact Hrows2]. apply evidence_then_confirm.
Qed.

(** ** What the close entry says *)

Lemma add_to_sum m a d : sumZ snd (add_to m a d) = sumZ snd d + a.
Proof. unfold sumZ. induction d as [|[k v] d IH]; cbn; [lia|]. destruct (String.eqb k m); cbn; lia. Qed.

Lemma add_to_get m a d k : aget k (add_to m a d) = if String.eqb m k then Some (default 0 (aget k d) + a) else aget k d.
Proof.
  induction d as [|[x v] d IH]; cbn [add_to aget].
  - by destruct (String.eqb_spec m k); case_bool_decide.
  - destruct (String.eqb_spec x m) as [->|Hx]; cbn [aget].
    + destruct (String.eqb_spec m k); case_bool_decide; try congruence. done.
    + rewrite IH. case_bool_decide; [|done]. destruct (String.eqb_spec m k); congruence.
Qed.

Definition paid_to (m : string) (i : SettlementInstructionRow) : Z := if String.eqb (si_merchant_id i) m then si_net_payout_minor i else 0.

Lemma per_merchant_spec rows d : let d' := foldl (fun d row => add_to (si_merchant_id row) (si_net_payout_minor row) d) d rows in
  sumZ snd d' = sumZ snd d + sumZ si_net_payout_minor rows /\
  (forall m, default 0 (aget m d') = default 0 (aget m d) + sumZ (paid_to m) rows) /\
  (forall m, is_Some (aget m d) \/ m ∈ si_merchant_id <$> rows -> is_Some (aget m d')).
Proof.
  revert d. induction rows as [|i rows IH]; intros d; cbn [foldl].
  { cbn. split_and!; [lia|intros; lia|]. intros m [?|Hm]; [done|by apply not_elem_of_nil in Hm]. }
  destruct (IH (add_to (si_merchant_id i) (si_net_payout_minor i) d)) as (Hs & Hg & Hi). split_and!.
  - rewrite Hs, add_to_sum. unfold sumZ. cbn [foldr]. lia.
  - intros m. rewrite Hg, add_to_get. unfold sumZ. cbn [foldr]. unfold paid_to at 2. destruct (String.eqb _ m); cbn; lia.
  - intros m Hm. apply Hi. rewrite add_to_get. destruct (String.eqb_spec (si_merchant_id i) m) as [|Hne]; [left; eauto|].
    csimpl in Hm. rewrite elem_of_cons in Hm. naive_solver.
Qed.

Lemma rmap_elem {A B} (f : A -> res sexn B) l l' x : rmap f l = Ok l' -> x ∈ l -> exists y, f x = Ok y /\ y ∈ l'.
Proof.
  revert l'. induction l as [|a l IH]; intros l'; [by intros _ ?%not_elem_of_nil|]. cbn [rmap]. intros Hl. inv_res.
  rewrite elem_of_cons. intros [->|Hx]; [eexists; split; [done|apply list_elem_of_here]|].
  destruct (IH _ eq_refl Hx) as (y & Hy & Hin). exists y. split; [done|by apply list_elem_of_further].
Qed.

(** The merchants' balances are debited by merchant, the trust account credited
    with the sum. *)
Definition closes (led : Store) (b : string) (rows : list SettlementInstructionRow) : Prop :=
  exists key id, close_key b = Ok key /\ s_journal_by_idem led !! key = Some id /\
    entry_posts led id (en_tcsa_account_id E) "CREDIT" (sumZ si_net_payout_minor rows) /\
    forall i, i ∈ rows -> exists account, en_merchant_account E (si_merchant_id i) = Ok account /\
      entry_posts led id account "DEBIT" (sumZ (paid_to (si_merchant_id i)) rows).

Lemma recorded_closes led b key ps rows : close_key b = Ok key -> close_postings E rows = Ok ps ->
  recorded led (close_spec E b key ps) -> closes led b rows.
Proof.
  intros Hk Hps (id & je & Hkey & _ & _ & _ & Hp). exists key, id. unfold close_postings in Hps. inv_res. cbn in Hkey, Hp.
  destruct (per_merchant_spec rows []) as (Hs & Hg & Hi). fold (per_merchant rows) in *. split_and!; [done..| |].
  - rewrite Z.add_0_l in Hs. rewrite <- Hs. apply (Hp (posting _ _ _)). apply elem_of_app. right. apply list_elem_of_here.
  - intros i Hin. destruct (Hi (si_merchant_id i)) as [v Hv]; [right; by apply list_elem_of_fmap_2|].
    specialize (Hg (si_merchant_id i)). rewrite Hv, Z.add_0_l in Hg. cbn [default] in Hg. apply aget_elem in Hv.
    assert (Hin' : (si_merchant_id i, v) ∈ sort_items (per_merchant rows)) by (unfold sort_items; by rewrite sort_by_perm).
    match goal with H : rmap _ _ = Ok _ |- _ => destruct (rmap_elem _ _ _ _ H Hin') as (y & Hy & Hel) end.
    unfold merchant_debit in Hy. cbn in Hy. unfold s_res in Hy. destruct (en_merchant_account E (si_merchant_id i)) as [account|] eqn:Ha; [|done].
    injection Hy as <-. exists account. split; [done|]. rewrite <- Hg. apply (Hp (posting _ _ _)). apply elem_of_app. by left.
Qed.

(** C8: the bank's confirmation.  When [confirm] returns, the batch is CONFIRMED
    and every other batch is as it was; every member that was SUBMITTED is SETTLED,
    its row unchanged but for the status, the time of settlement and the rail
    transaction, which stays if one (not the empty text) was on record and is
    otherwise the recorded one or one given for that instruction; every other
    instruction, members in another status included, is the same row as before; and
    if the batch was dispatched with members to pay, its close entry is in the
    ledger, one that, unless an earlier run had already posted it, debits each
    merchant's settlement account with the sum of that merchant's payouts and
    credits the trust account with the total. *)
Theorem confirmation_settles_and_closes calls clock b ref txids now x w' :
  let w := shistory E calls in
  confirm E clock b ref txids now w = (Ok x, w') ->
  exists r r', get_batch b (sw_store w) = Some r /\ get_batch b (sw_store w') = Some r' /\ sb_status r' = "CONFIRMED"%string /\
    (forall k, k <> b -> get_batch k (sw_store w') = get_batch k (sw_store w)) /\
    (forall k, option_Forall2 (confirm_row b txids) (get_instruction k (sw_store w)) (get_instruction k (sw_store w'))) /\
    let rows := submitted_of b (sw_store w) in
    (sb_status r = "DISPATCHED"%string -> rows <> [] ->
       closed_in (sw_led w') b /\ (~ closed_in (sw_led w) b -> closes (sw_led w') b rows)).
Proof.
  intros w Hc. pose proof (shistory_books E calls) as Hb. fold w in Hb. assert (Hl : extends (sw_led w) (sw_led w')).
  { apply (steps_extend (en_cfg E)). pose proof (sinvoke_led E clock (BankConfirms b ref txids now) w) as Hm.
    cbn [sinvoke] in Hm. unfold void in Hm. rewrite ebind_eq, Hc in Hm. exact Hm. }
  apply confirm_Ok in Hc as (r & r' & [Hr Hr' Hs Hfrom Ho Hrows _]); [|apply Hb]. exists r, r'. split_and!; try done.
  - intros k. apply rows_by_get; [|done]. intros i i' Hi. by eapply core_id, confirm_row_kept.
  - intros rows Hd Hne. destruct Hfrom as [[? _]|(_ & _ & Hcl)]; [congruence|].
    destruct (Hcl Hne) as [Hcl'|(key & ps & Hk & Hps & Hrec)]; [split; [by eapply closed_in_extends|done]|].
    split; [by eapply recorded_closed|]. intros _. by eapply recorded_closes.
Qed.
End Confirm.

Section Resume.
Context `{HashFn} `{CheckpointSigner} `{Redactor} `{DhakaTz} `{HostTz} (E : Engine).

(** * What a turn of the two loops may do *)

Definition status_is (st b : string) (s : SettlementStore) (r : SettlementBatchRow) : Prop := get_batch b s = Some r /\ sb_status r = st.

(** Confirmed batches stay as they are, a batch that becomes confirmed has no
    member left to settle, no batch becomes dispatched, no member submitted. *)
Record resumes (s s' : SettlementStore) : Prop := {
  rs_unique : ids_unique s';
  rs_confirmed : forall b r, status_is "CONFIRMED" b s r -> status_is "CONFIRMED" b s' r;
  rs_became : forall b r, status_is "CONFIRMED" b s' r -> status_is "CONFIRMED" b s r \/ submitted_of b s' = [];
  rs_dispatched : forall b r, status_is "DISPATCHED" b s' r -> status_is "DISPATCHED" b s r;
  rs_members : forall b, submitted_of b s = [] -> submitted_of b s' = []
}.

Lemma resumes_refl s : ids_unique s -> resumes s s.
Proof. intros Hu. split; auto. Qed.

Lemma resumes_trans s1 s2 s3 : resumes s1 s2 -> resumes s2 s3 -> resumes s1 s3.
Proof.
  intros [U1 C1 B1 D1 M1] [U2 C2 B2 D2 M2]. split; auto. intros b r Hr. destruct (B2 b r Hr) as [Hr'|]; [|by right].
  destruct (B1 b r Hr') as [|Hm]; [by left|]. right. by apply M2.
Qed.

(** No member is submitted after the confirmation of its batch; elsewhere none
    becomes so. *)
Lemma confirm_submitted txids b s s' k : rows_by (confirm_row b txids) s s' -> k = b \/ submitted_of k s = [] -> submitted_of k s' = [].
Proof.
  intros Hr Hk. destruct (submitted_of k s') as [|r' l] eqn:Hl; [done|]. exfalso.
  assert (Hin : r' ∈ submitted_of k s') by (rewrite Hl; apply list_elem_of_here). apply submitted_elem in Hin as [Hin Hs].
  apply list_elem_of_lookup_1 in Hin as [n Hn]. destruct (Forall2_lookup_r _ _ _ _ _ Hr Hn) as (r & Hr' & (_ & Hb & Hst)%confirm_row_kept).
  unfold is_submitted in Hs. rewrite Hb, Hst in Hs. destruct (is_submitted b r) eqn:Hsub; [by rewrite andb_false_r in Hs|].
  fold (is_submitted k r) in Hs. destruct Hk as [->|Hk]; [congruence|].
  assert (Hx : r ∈ submitted_of k s) by (apply submitted_elem; split; [by eapply list_elem_of_lookup_2|done]).
  rewrite Hk in Hx. by apply not_elem_of_nil in Hx.
Qed.

Lemma confirmed_resumes txids b w w' r r' : confirmed_to E b txids w w' r r' -> resumes (sw_store w) (sw_store w') /\ submitted_of b (sw_store w') = [].
Proof.
  intros [Hr Hr' Hs Hfrom Ho Hrows Hu]. assert (Hb : submitted_of b (sw_store w') = []) by (eapply confirm_submitted; [exact Hrows|by left]).
  split; [|done]. split; [done| | | |].
  - intros k x [Hx Hst]. split; [|done]. destruct (decide (k = b)) as [->|Hk]; [|by rewrite Ho]. simplify_eq.
    destruct Hfrom as [[_ ->]|(? & _)]; congruence.
  - intros k x [Hx Hst]. destruct (decide (k = b)) as [->|Hk]; [by right|]. left. split; [|done]. by rewrite <- Ho.
  - intros k x [Hx Hst]. destruct (decide (k = b)) as [->|Hk]; [congruence|]. split; [|done]. by rewrite <- Ho.
  - intros k Hk. eapply confirm_submitted; [exact Hrows|by right].
Qed.

Lemma confirm_resumes clock b ref txids now w x w' : ids_unique (sw_store w) -> confirm E clock b ref txids now w = (Ok x, w') ->
  resumes (sw_store w) (sw_store w') /\ submitted_of b (sw_store w') = [] /\ exists r', status_is "CONFIRMED" b (sw_store w') r'.
Proof.
  intros Hu Hc. apply confirm_Ok in Hc as (r & r' & Hc); [|done]. destruct (confirmed_resumes _ _ _ _ _ _ Hc) as [Hr Hs].
  split_and!; [done..|]. exists r'. split; apply Hc.
Qed.

(** * The loops *)

Section Loop.
Context (body : SettlementBatchRow -> list string -> seff (list string)) (done_with : SettlementBatchRow -> SettlementStore -> Prop).
Hypothesis Hbody : forall bt acc w l w', ids_unique (sw_store w) -> body bt acc w = (Ok l, w') ->
  resumes (sw_store w) (sw_store w') /\ done_with bt (sw_store w').
Hypothesis Hkeep : forall bt s s', resumes s s' -> done_with bt s -> done_with bt s'.

Lemma resume_loop_Ok batches acc w l w' : ids_unique (sw_store w) -> resume_loop body batches acc w = (Ok l, w') ->
  resumes (sw_store w) (sw_store w') /\ Forall (fun bt => done_with bt (sw_store w')) batches.
Proof using Hbody Hkeep.
  revert acc w. induction batches as [|bt batches IH]; intros acc w Hu Hl; cbn [resume_loop] in Hl.
  { injection Hl as <- <-. split; [by apply resumes_refl|constructor]. }
  rewrite ebind_eq in Hl. destruct (body bt acc w) as [[acc'|] w1] eqn:Hb; [|done].
  apply Hbody in Hb as [Hw1 Hd]; [|done]. apply IH in Hl as [Hw2 Hall]; [|apply Hw1].
  split; [by eapply resumes_trans|]. constructor; [by eapply Hkeep|done].
Qed.
End Loop.

Lemma resume_confirmed_Ok clock now bt acc w l w' : ids_unique (sw_store w) -> resume_confirmed E clock now bt acc w = (Ok l, w') ->
  resumes (sw_store w) (sw_store w') /\ submitted_of (sb_batch_id bt) (sw_store w') = [].
Proof.
  intros Hu Hr. unfold resume_confirmed in Hr. rewrite ebind_eq in Hr.
  change (read_store _ w) with (@Ok sexn _ (submitted_of (sb_batch_id bt) (sw_store w)), w) in Hr. cbv beta iota in Hr. rewrite ebind_eq in Hr.
  match type of Hr with (let (_, _) := ?c in _) = _ => destruct c as [[acc1|] w1] eqn:Hc end; [|done].
  apply within_same_store in Hr; [|swalk]. rewrite Hr. case_bool_decide as Hn.
  - injection Hc as <- <-. split; [by apply resumes_refl|done].
  - inv_eff. match goal with H : confirm _ _ _ _ _ _ _ = _ |- _ => apply confirm_resumes in H as (? & ? & _); [|done] end. done.
Qed.

Lemma resume_dispatched_Ok clock now bt acc w l w' : ids_unique (sw_store w) -> resume_dispatched E clock now bt acc w = (Ok l, w') ->
  resumes (sw_store w) (sw_store w') /\
  (is_Some (sb_sponsor_bank_ref bt) -> exists r, status_is "CONFIRMED" (sb_batch_id bt) (sw_store w') r).
Proof.
  intros Hu Hr. unfold resume_dispatched in Hr. rewrite ebind_eq in Hr. cbn [read_ledger ebind eget eret] in Hr. destruct (sb_sponsor_bank_ref bt) as [ref|].
  - inv_eff. match goal with H : confirm _ _ _ _ _ _ _ = _ |- _ => apply confirm_resumes in H as (? & _ & ?); [|done] end. done.
  - apply within_same_store in Hr; [|swalk]. rewrite Hr. split; [by apply resumes_refl|by intros []].
Qed.

Lemma listed_batches st b r s : status_is st b s r -> r ∈ list_batches (Some st) s.
Proof.
  intros [Hr <-]. unfold list_batches. rewrite sort_by_perm, list_elem_of_In, filter_In, <- list_elem_of_In, String.eqb_refl.
  split; [by eapply get_batch_elem|done].
Qed.

(** C9: crash recovery is complete.  From any state the engine can be left in,
    calls that raised between their writes included: when [resume_confirmations]
    returns, no CONFIRMED batch has a member still SUBMITTED, no DISPATCHED batch
    has the bank's reference on record, and a batch that was CONFIRMED is as it
    was. *)
Theorem resume_completes_confirmations calls clock now l w' :
  let w := shistory E calls in
  resume_confirmations E clock now w = (Ok l, w') ->
  (forall b r, get_batch b (sw_store w') = Some r -> sb_status r = "CONFIRMED"%string -> submitted_of b (sw_store w') = []) /\
  (forall b r, get_batch b (sw_store w') = Some r -> sb_status r = "DISPATCHED"%string -> sb_sponsor_bank_ref r = None) /\
  (forall b r, get_batch b (sw_store w) = Some r -> sb_status r = "CONFIRMED"%string -> get_batch b (sw_store w') = Some r).
Proof.
  intros w Hr. pose proof (bo_unique _ (shistory_books E calls)) as Hu. fold w in Hu.
  unfold resume_confirmations, read_store in Hr. inv_eff.
  match goal with H : resume_loop (resume_confirmed _ _ _) _ _ _ = (Ok _, ?w0) |- _ => rename H into Hl1, w0 into w1 end.
  apply (resume_loop_Ok _ (fun bt s => submitted_of (sb_batch_id bt) s = [])) in Hl1 as [R1 D1]; [|apply resume_confirmed_Ok| |done].
  2: { intros bt s s' Hrs. apply Hrs. }
  apply (resume_loop_Ok _ (fun bt s => is_Some (sb_sponsor_bank_ref bt) -> exists r, status_is "CONFIRMED" (sb_batch_id bt) s r)) in Hr
    as [R2 D2]; [|apply resume_dispatched_Ok| |apply R1].
  2: { intros bt s s' Hrs Hd Hs. destruct (Hd Hs) as [r Hc]. exists r. by apply Hrs. }
  rewrite Forall_forall in D1, D2. split_and!.
  - intros b r Hb Hst. destruct (rs_became _ _ R2 b r) as [[Hb1 _]|]; [done| |done]. apply (rs_members _ _ R2).
    destruct (rs_became _ _ R1 b r) as [Hb0|]; [done| |done]. rewrite <- (get_batch_id _ _ _ Hb). apply D1. by eapply listed_batches.
  - intros b r Hb Hst. destruct (sb_sponsor_bank_ref r) eqn:Href; [|done]. exfalso.
    assert (Hd : status_is "DISPATCHED" b (sw_store w1) r) by (by apply (rs_dispatched _ _ R2)).
    destruct (D2 r (listed_batches _ _ _ _ Hd)) as (x & Hx & Hsx); [by rewrite Href|].
    rewrite (get_batch_id _ _ _ Hb) in Hx. simplify_eq. congruence.
  - intros b r Hb Hst. apply (rs_confirmed _ _ R2), (rs_confirmed _ _ R1). by split.
Qed.
End Resume.
