(* ===== verification/SettlementHandoff.v ===== *)
(** What leaves for the bank: the fixed-width amount field of a BEFTN entry, the
    entries of a batch, and that a dispatch hands over exactly its members. *)
From S2P Require Import Prelude Effects Rows Exceptions DateTime Sha256 Canonical Json LedgerTypes LedgerStore HashChain LedgerService LedgerOps.
From S2P Require Import Fees Calendar Settlement SettlementEngine SettlementMoves SettlementTables SettlementBooks SettlementControls SettlementStaging SettlementConfirm.
Open Scope Z_scope.

(** * The amount field *)

Lemma digits_val_app acc s t : digits_val acc (s +:+ t) = digits_val (digits_val acc s) t.
Proof. revert acc. induction s as [|c s IH]; intros acc; [done|]. apply IH. Qed.

Lemma digits_val_shift acc s : digits_val acc s = acc * 10 ^ Z.of_nat (String.length s) + digits_val 0 s.
Proof.
  revert acc. induction s as [|c s IH]; intros acc; cbn [digits_val String.length]; [rewrite Z.pow_0_r; lia|].
  rewrite IH, (IH (10 * 0 + _)), Nat2Z.inj_succ, Z.pow_succ_r by lia. lia.
Qed.

Lemma amount_field_Ok n f : beftn_amount_field n = Ok f ->
  1 <= n <= _MAX_AMOUNT_MINOR /\ String.length f = 10%nat /\ all_chars is_digit f = true /\ int_of_digits f = n.
Proof.
  unfold beftn_amount_field. intros Hf. inv_res. bool_prop. unfold _MAX_AMOUNT_MINOR in *.
  assert (Hq : 0 <= n / 100 < 10 ^ Z.of_nat 8) by (change (10 ^ Z.of_nat 8) with 100000000; lia).
  assert (Hr : 0 <= n mod 100 < 10 ^ Z.of_nat 2) by (change (10 ^ Z.of_nat 2) with 100; lia).
  split_and!; [lia..| | |].
  - by rewrite str_length_app, !zpad_length by (done || lia).
  - by rewrite all_chars_app, !zpad_digits by lia.
  - unfold int_of_digits. rewrite digits_val_app, digits_val_shift, zpad_length by (done || lia).
    fold (int_of_digits (zpad 8 (n / 100))) (int_of_digits (zpad 2 (n mod 100))). rewrite !int_of_digits_zpad by lia.
    change (10 ^ Z.of_nat 2) with 100. lia.
Qed.

Lemma amount_field_refused n : beftn_amount_field n = Err BeftnFormatError <-> n <= 0 \/ _MAX_AMOUNT_MINOR < n.
Proof.
  unfold beftn_amount_field. destruct (Z.leb_spec n 0); [split; [by left|done]|].
  destruct (Z.ltb_spec _MAX_AMOUNT_MINOR n); [split; [by right|done]|]. split; [done|lia].
Qed.

(** * The entries of a batch *)

(** The entry [e] at position [sequence] of the file pays the instruction [i]. *)
Record pays (sequence : nat) (i : SettlementInstructionRow) (e : BeftnEntry) : Prop := {
  py_ref : be_entry_ref e = si_instruction_id i /\ be_instruction_id e = si_instruction_id i;
  py_account : be_beneficiary_account_ref e = si_beneficiary_account_ref i;
  py_code : (si_direction i = "CREDIT"%string /\ be_transaction_code e = "22"%string) \/
            (si_direction i = "DEBIT"%string /\ be_transaction_code e = "27"%string);
  py_amount : be_amount_minor e = si_net_payout_minor i;
  py_field : String.length (be_amount_field e) = 10%nat /\ int_of_digits (be_amount_field e) = si_net_payout_minor i;
  py_trace : be_trace_sequence e = zpad 7 (Z.of_nat sequence)
}.

Lemma beftn_entry_Ok names n i e : beftn_entry names n i = Ok e -> pays n i e.
Proof.
  unfold beftn_entry. destruct (aget (si_direction i) _TRANSACTION_CODES) as [code|] eqn:Hc; [|done]. intros He. inv_res.
  match goal with H : beftn_amount_field _ = Ok _ |- _ => apply amount_field_Ok in H as (_ & Hl & _ & Hv) end.
  split; try done. apply aget_elem in Hc. unfold _TRANSACTION_CODES in Hc. rewrite !elem_of_cons, elem_of_nil in Hc. cbn. naive_solver.
Qed.

Lemma beftn_entries_Ok names n l es : beftn_entries_from names n l = Ok es ->
  length es = length l /\ forall k i e, l !! k = Some i -> es !! k = Some e -> pays (n + k) i e.
Proof.
  revert n es. induction l as [|i l IH]; intros n es; cbn [beftn_entries_from].
  { intros [= <-]. done. }
  intros He. inv_res. match goal with H : beftn_entries_from _ _ _ = Ok _ |- _ => apply IH in H as [Hlen Hall] end.
  match goal with H : beftn_entry _ _ _ = Ok _ |- _ => apply beftn_entry_Ok in H as Hpay end.
  split; [cbn; congruence|]. intros [|k] j e Hj He; cbn in Hj, He.
  - simplify_eq. by rewrite Nat.add_0_r.
  - rewrite <- Nat.add_succ_comm. by apply Hall.
Qed.

Lemma handoff_Ok batch rows names h : build_handoff batch rows names = Ok h ->
  bh_batch_id h = sb_batch_id batch /\ sb_session batch = Some (bh_session h) /\ bh_effective_date h = date_iso (sb_cycle_date batch) /\
  length (bh_entries h) = length rows /\ forall k i e, rows !! k = Some i -> bh_entries h !! k = Some e -> pays (S k) i e.
Proof.
  unfold build_handoff, build_beftn_entries. destruct (sb_session batch) as [session|]; [|done]. intros Hh. inv_res.
  match goal with H : beftn_entries_from _ _ _ = Ok _ |- _ => apply beftn_entries_Ok in H as [Hlen Hall] end. done.
Qed.

(** * Dispatch *)

Definition sent_row (now : datetime) (i : SettlementInstructionRow) : SettlementInstructionRow :=
  foldl instruction_replace i [I_status "SUBMITTED"; I_submitted_at (Some now)].

Lemma pays_sent n t i e : pays n (sent_row t i) e -> pays n i e.
Proof. intros [? ? ? ? ? ?]. by split. Qed.

Section Dispatch.
Context `{HashFn} `{CheckpointSigner} `{Redactor} `{DhakaTz} `{HostTz} (E : Engine).

Lemma submit_loop_Ok clock now rows acc w out w' : ids_unique (sw_store w) -> Forall (current w) rows -> NoDup (si_instruction_id <$> rows) ->
  submit_loop E clock now rows acc w = (Ok out, w') ->
  out = acc ++ (sent_row now <$> rows) /\
  (forall i, i ∈ rows -> get_instruction (si_instruction_id i) (sw_store w') = Some (sent_row now i)) /\
  (forall k, k ∉ si_instruction_id <$> rows -> get_instruction k (sw_store w') = get_instruction k (sw_store w)) /\
  ss_batches (sw_store w') = ss_batches (sw_store w).
Proof.
  revert acc w. induction rows as [|i rows IH]; intros acc w Hu Hc Hn; cbn [submit_loop].
  { intros [= <- <-]. rewrite app_nil_r. split_and!; try done. intros i Hi. by apply not_elem_of_nil in Hi. }
  apply Forall_cons in Hc as [Hi Hc]. csimpl in Hn. apply NoDup_cons in Hn as [Hx Hn]. intros Hs.
  rewrite ebind_eq in Hs. unfold elift at 1 in Hs. destruct (_instruction_transition i _ _); [|done]. rewrite ebind_eq in Hs.
  destruct (update_instruction_ _ _ w) as [[r|] w1] eqn:Hw1; [|done]. apply update_instruction_rows in Hw1; [|done].
  fold (sent_row now i) in Hw1. rewrite ebind_eq in Hs.
  destruct (_audit_instruction _ _ _ _ _ _ _ w1) as [[u|] w2] eqn:Hw2; [|done]. apply within_same_store in Hw2; [|eauto with settle].
  assert (Hget : forall k, get_instruction k (sw_store w2) =
    if String.eqb (si_instruction_id i) k then Some (sent_row now i) else get_instruction k (sw_store w)).
  { intros k. rewrite Hw2, Hw1, get_put_instruction. change (si_instruction_id (sent_row now i)) with (si_instruction_id i).
    destruct (String.eqb_spec (si_instruction_id i) k) as [<-|]; [by rewrite Hi|by destruct (get_instruction k _)]. }
  rewrite ebind_eq in Hs. unfold _require_instruction, read_store in Hs. rewrite !ebind_eq in Hs. cbn in Hs.
  rewrite Hget, String.eqb_refl in Hs. cbn in Hs.
  apply IH in Hs as (-> & Hall & Hoth & Hb); [| | |done].
  - rewrite <- app_assoc. split_and!; [done| | |].
    + intros j [->|Hj]%elem_of_cons; [|by apply Hall]. rewrite Hoth by done. by rewrite Hget, String.eqb_refl.
    + intros k Hk. apply not_elem_of_cons in Hk as [Hk1 Hk2]. rewrite Hoth by done. rewrite Hget.
      apply not_eq_sym, String.eqb_neq in Hk1. by rewrite Hk1.
    + by rewrite Hb, Hw2, Hw1.
  - rewrite Hw2, Hw1. by apply unique_put_instruction.
  - apply Forall_forall. intros x Hin. unfold current. rewrite Hget. destruct (String.eqb_spec (si_instruction_id i) (si_instruction_id x)) as [He|].
    + exfalso. apply Hx. rewrite He. by apply list_elem_of_fmap_2.
    + by apply (proj1 (Forall_forall _ _) Hc).
Qed.

(** C14: the hand-off is the batch.  When a dispatch returns a file for the bank, it
    carries the batch's id, one entry per QUEUED member in order, numbered from
    one, each with that member's beneficiary, the code of its direction, its net
    payout and a ten-digit field that reads back as that payout; those members are
    SUBMITTED, every other instruction is as it was, and the gate was clear. *)
Theorem dispatch_hands_over_the_batch calls clock gate b now t r' h w' :
  let w := shistory E calls in
  try_dispatch E clock gate b now w = (Ok (r', Some h), w') -> now_or now clock = Ok t ->
  let queued := list_instructions (Some b) (Some "QUEUED"%string) None false (sw_store w) in
  gate_clear gate /\ bh_batch_id h = b /\ get_batch b (sw_store w') = Some r' /\ sb_status r' = "DISPATCHED"%string /\
  length (bh_entries h) = length queued /\
  (forall k i e, queued !! k = Some i -> bh_entries h !! k = Some e -> pays (S k) i e) /\
  (forall i, i ∈ queued -> get_instruction (si_instruction_id i) (sw_store w') = Some (sent_row t i)) /\
  (forall k, k ∉ si_instruction_id <$> queued -> get_instruction k (sw_store w') = get_instruction k (sw_store w)).
Proof.
  intros w Hd Ht queued. pose proof (bo_unique _ (shistory_books E calls)) as Hu. fold w in Hu.
  unfold try_dispatch, _require_batch, read_store in Hd. inv_eff.
  destruct (get_batch b (sw_store w)) as [r|] eqn:Hr; [|done]. inv_eff. rewrite Ht in *. simplify_eq.
  match type of Hd with context [tg_clear ?x] => rename x into g end.
  destruct (tg_clear g) eqn:Hg; cbn [negb] in Hd; [|inv_eff; done]. inv_eff.
  destruct (String.eqb _ _); inv_eff. subst w'. rename E0 into Hupd, E3 into Hsub, E1 into Hh.
  apply within_same_store in E4; [|eauto with settle]. apply within_same_store in E5; [|eauto with settle].
  apply on_store_Ok in Hupd as [Hupd _]. apply update_batch_Ok in Hupd as (r0 & Hr0 & Hx & Hs). rewrite Hr in Hr0. injection Hr0 as <-.
  assert (Hq : list_instructions (Some b) (Some "QUEUED"%string) None false (sw_store s) = queued) by (by rewrite Hs).
  rewrite Hq in Hsub. destruct (listed_current (Some b) (Some "QUEUED"%string) None false w Hu) as [Hcur Hn]. fold queued in Hcur, Hn.
  apply submit_loop_Ok in Hsub as (-> & Hall & Hoth & Hb); [|rewrite Hs; by apply unique_put_batch|
    eapply Forall_impl; [exact Hcur|]; intros i Hi; unfold current; by rewrite Hs|done].
  apply handoff_Ok in Hh as (Hid & _ & _ & Hlen & Hpays). cbn [app] in Hlen, Hpays. rewrite length_fmap in Hlen.
  assert (Hend : sw_store s3 = sw_store s1) by congruence. rewrite Hend. split_and!; try done.
  - by exists g.
  - rewrite Hid, Hx, batch_replaces_id. by eapply get_batch_id.
  - rewrite (get_batch_same _ _ _ Hb), Hs, get_put_batch, Hr, Hx, batch_replaces_id. cbn. by rewrite (get_batch_id _ _ _ Hr), String.eqb_refl.
  - by rewrite Hx.
  - intros k i e Hk He. eapply pays_sent, Hpays; [|exact He]. cbn. by rewrite list_lookup_fmap, Hk.
  - intros k Hk. rewrite Hoth by done. by rewrite Hs.
Qed.
End Dispatch.
