(* ===== verification/Tcsa.v ===== *)
(** The trust-account monitor and the dispatch gate (ledger/tcsa.py), and the
    settlement engine behind that gate.

    A snapshot compares the trust account's balance with what is owed to merchants
    and, in PSP mode, to customers; the gate lets payouts start only on a fresh
    snapshot without a shortfall. *)
From S2P Require Import Prelude Effects Rows Exceptions DateTime Sha256 Canonical Json LedgerTypes LedgerStore HashChain LedgerService LedgerOps Fees Calendar Settlement SettlementEngine SettlementMoves SettlementTables SettlementBooks SettlementControls.
Open Scope Z_scope.

Definition TCSA_PRODUCER : string := "tcsa-monitor@1".

Definition SLF_RATE_BPS_DEFAULT : Z := 1150.
Definition TSA_SHORTFALL_MAX_PENALTY_MINOR : Z := 300000000.
Definition EXTENDED_SHORTFALL_DAILY_FINE_MINOR : Z := 1000000.
Definition EXTENDED_SHORTFALL_DAYS_THRESHOLD : Z := 14.
Definition SNAPSHOT_MAX_AGE_SECONDS : Z := 90.

Record TcsaSnapshotRow : Type := mk_TcsaSnapshotRow {
  ts_snapshot_id : string;
  ts_snapshotted_at : datetime;
  ts_platform_mode : string;
  ts_tcsa_balance_minor : Z;
  ts_currency : string;
  ts_outstanding_merchant_liability_minor : Z;
  ts_outstanding_customer_float_minor : Z;
  ts_total_outstanding_liability_minor : Z;
  ts_coverage_surplus_minor : Z;
  ts_coverage_ratio_bps : option Z;
  ts_status : string;
  ts_shortfall_minor : Z;
  ts_shortfall_days_running : Z;
  ts_penalty_exposure_minor : Z;
  ts_payout_initiation_blocked : bool;
  ts_alert_dispatched : bool;
  ts_ledger_chain_index_at_snap : Z;
  ts_ledger_chain_hash_at_snap : string;
  ts_produced_by : string;
  ts_schema_version : Z
}.

Inductive texn : Type :=
| TcsaError
| TAssertionError
| TLedger (e : exn).

(** * [InMemoryTcsaStore] *)

Definition insert_snapshot (row : TcsaSnapshotRow) (rows : list TcsaSnapshotRow) : res texn (list TcsaSnapshotRow) :=
  raise TcsaError when (existsb (has_key ts_snapshot_id (ts_snapshot_id row)) rows) else Ok (rows ++ [row]).

Definition latest_snapshot (rows : list TcsaSnapshotRow) : option TcsaSnapshotRow := last rows.

(** * The gate *)

(** [TcsaDispatchGate.__call__]; ages are compared in microseconds. *)
Definition dispatch_gate (max_age : Z) (rows : list TcsaSnapshotRow) (clock : datetime) : res sexn TcsaGateResult :=
  match latest_snapshot rows with
  | None => Ok (mk_TcsaGateResult false None 0 false)
  | Some snapshot =>
      let* age := dt_sub clock (ts_snapshotted_at snapshot) in
      if max_age * 1000000 <? age then
        Ok (mk_TcsaGateResult false (Some (ts_snapshot_id snapshot)) (ts_shortfall_minor snapshot) true)
      else if ts_payout_initiation_blocked snapshot then
        Ok (mk_TcsaGateResult false (Some (ts_snapshot_id snapshot)) (ts_shortfall_minor snapshot) false)
      else Ok (mk_TcsaGateResult true (Some (ts_snapshot_id snapshot)) 0 false)
  end.

(** * The monitor *)

Definition compute_penalty_exposure_minor (shortfall_minor days_running slf_rate_bps : Z) : Z :=
  if shortfall_minor <=? 0 then 0
  else
    let rate_based := slf_rate_bps * shortfall_minor / 10000 in
    let base_penalty := Z.min TSA_SHORTFALL_MAX_PENALTY_MINOR rate_based in
    let extra_days := Z.max 0 (days_running - EXTENDED_SHORTFALL_DAYS_THRESHOLD) in
    base_penalty + extra_days * EXTENDED_SHORTFALL_DAILY_FINE_MINOR.

(** [TcsaMonitor.__init__] *)
Record Monitor : Type := mk_Monitor {
  tm_cfg : LedgerCfg;
  tm_platform_mode : string;
  tm_slf_rate_bps : Z;
  tm_producer : string;
  tm_metrics : bool
}.

(** The settlement engine's world, the snapshots, the monitor's alerts, and its two
    metrics: completed cycles and the coverage gauge. *)
Record TWorld : Type := mk_TWorld {
  tw_settle : SWorld;
  tw_snapshots : list TcsaSnapshotRow;
  tw_alerts : list (string * pyobj);
  tw_cycles : Z;
  tw_gauge : option Z
}.

Definition teff := eff TWorld texn.

Definition t_led (w : TWorld) : Store := sw_led (tw_settle w).

Definition t_ledger {A} (f : Store -> LedgerStore.outcome A) : teff A := fun w =>
  let s := tw_settle w in
  let '(r, led) := f (sw_led s) in
  (match r with Ok a => Ok a | Err e => Err (TLedger e) end,
   mk_TWorld (mk_SWorld (sw_store s) led (sw_alerts s)) (tw_snapshots w) (tw_alerts w) (tw_cycles w) (tw_gauge w)).

Definition t_insert (row : TcsaSnapshotRow) : teff unit := fun w =>
  match insert_snapshot row (tw_snapshots w) with
  | Ok rows => (Ok tt, mk_TWorld (tw_settle w) rows (tw_alerts w) (tw_cycles w) (tw_gauge w))
  | Err e => (Err e, w)
  end.

Definition t_alert (kind : string) (payload : pyobj) : teff unit := fun w =>
  (Ok tt, mk_TWorld (tw_settle w) (tw_snapshots w) (tw_alerts w ++ [(kind, payload)]) (tw_cycles w) (tw_gauge w)).

Definition t_read {A} (f : Store -> A) : teff A := do* w := eget in eret (f (t_led w)).

(** [_now()] *)
Definition tcsa_now (clock : datetime) : res texn datetime := raise TcsaError when (negb (tz_aware clock)) else Ok clock.

Definition utc_day (d : datetime) : Z := micros d / micros_per_day.

Definition _shortfall_days_running (previous : option TcsaSnapshotRow) (currently_in_shortfall : bool) (now : datetime) : Z :=
  if negb currently_in_shortfall then 0
  else match previous with
       | None => 1
       | Some p =>
           if ts_shortfall_minor p =? 0 then 1
           else if utc_day (ts_snapshotted_at p) <? utc_day now then ts_shortfall_days_running p + 1
           else Z.max (ts_shortfall_days_running p) 1
       end.

Definition outstanding_float (mode : string) (s : Store) : Z :=
  if String.eqb mode "PSP" then sum_balance_by_subtype s "CUSTOMER_FLOAT" else 0.

Definition coverage_ratio (tcsa_balance total_liability : Z) : option Z :=
  if 0 <? total_liability then Some (tcsa_balance * 10000 / total_liability) else None.

Definition snapshot_payload (now : datetime) (mode : string) (balance merchant float shortfall index : Z) (status : string) : pyobj :=
  dict [("snapshotted_at", PDatetime now); ("platform_mode", PStr mode); ("tcsa_balance_minor", PInt balance);
    ("outstanding_merchant_liability_minor", PInt merchant); ("outstanding_customer_float_minor", PInt float);
    ("status", PStr status); ("shortfall_minor", PInt shortfall); ("ledger_chain_index_at_snap", PInt index)].

Section Tcsa.
Context `{HashFn} `{CheckpointSigner} `{Redactor} (T : Monitor).

(** The tip of the MONEY chain, which is started if there is none. *)
Definition money_tip (clock : datetime) : teff ChainEntryRow :=
  do* tip := t_read (fun s => max_chain_index s MONEY_DOMAIN) in
  do* index := match tip with
    | Some i => eret i
    | None =>
        do* _ := t_ledger (fun s => initialize_chain (tm_cfg T) s MONEY_DOMAIN clock) in
        do* tip := t_read (fun s => max_chain_index s MONEY_DOMAIN) in
        match tip with Some i => eret i | None => elift (Err TAssertionError) end
    end in
  do* row := t_read (fun s => get_chain_entry s MONEY_DOMAIN index) in
  match row with Some r => eret r | None => elift (Err TAssertionError) end.

Definition count_cycle (ratio : option Z) : teff unit := fun w =>
  (Ok tt, if tm_metrics T then mk_TWorld (tw_settle w) (tw_snapshots w) (tw_alerts w) (tw_cycles w + 1) (Some (default 10000 ratio)) else w).

Definition tcsa_emit (clock : datetime) (event_type subject_id : string) (payload : pyobj) : teff unit :=
  do* _ := t_ledger (fun s => emit_event (tm_cfg T) s event_type "TcsaSnapshot" subject_id payload "settlement.events"
    (Some (tm_producer T)) None clock) in eret tt.

Definition tcsa_audit (clock : datetime) (event_type subject_id : string) (payload : pyobj) : teff unit :=
  do* _ := t_ledger (fun s => write_audit_event (tm_cfg T) s
    (mk_AuditEventSpec event_type (tm_producer T) "SERVICE" "TcsaSnapshot" subject_id None None payload) None clock) in eret tt.

(** The announcements of a shortfall and of its end; the row is stored first. *)
Definition announce_shortfall (clock : datetime) (row : TcsaSnapshotRow) : teff unit :=
  do* _ := tcsa_emit clock "tcsa_snapshot.shortfall_detected" (ts_snapshot_id row)
    (dict [("shortfall_minor", PInt (ts_shortfall_minor row)); ("penalty_exposure_minor", PInt (ts_penalty_exposure_minor row));
           ("shortfall_days_running", PInt (ts_shortfall_days_running row)); ("payout_initiation_blocked", PBool true)]) in
  do* _ := tcsa_audit clock "TCSA_SHORTFALL_DETECTED" (ts_snapshot_id row) (dict [("shortfall_minor", PInt (ts_shortfall_minor row))]) in
  t_alert "tcsa-shortfall" (dict [("snapshot_id", PStr (ts_snapshot_id row)); ("shortfall_minor", PInt (ts_shortfall_minor row))]).

Definition announce_recovery (clock : datetime) (row : TcsaSnapshotRow) : teff unit :=
  do* _ := tcsa_emit clock "tcsa_snapshot.shortfall_resolved" (ts_snapshot_id row) (dict [("payout_initiation_blocked", PBool false)]) in
  tcsa_audit clock "TCSA_SHORTFALL_RESOLVED" (ts_snapshot_id row) (dict []).

Definition run_once (clock : datetime) : teff TcsaSnapshotRow :=
  do* now := elift (tcsa_now clock) in
  do* tcsa_balance := t_read (fun s => sum_balance_by_subtype s "SPONSOR_BANK_TCSA") in
  do* merchant_liability := t_read (fun s => sum_balance_by_subtype s "MERCHANT_SETTLEMENT") in
  do* customer_float := t_read (outstanding_float (tm_platform_mode T)) in
  let total_liability := merchant_liability + customer_float in
  let shortfall := Z.max 0 (total_liability - tcsa_balance) in
  let status := if shortfall =? 0 then "OK"%string else "SHORTFALL"%string in
  let ratio := coverage_ratio tcsa_balance total_liability in
  do* w := eget in
  let previous := latest_snapshot (tw_snapshots w) in
  let days := _shortfall_days_running previous (0 <? shortfall) now in
  let penalty := compute_penalty_exposure_minor shortfall days (tm_slf_rate_bps T) in
  do* tip := money_tip clock in
  do* snapshot_id := elift (match make_id "tcsa" (snapshot_payload now (tm_platform_mode T) tcsa_balance merchant_liability customer_float
    shortfall (c_chain_index tip) status) with Ok i => Ok i | Err e => Err (TLedger e) end) in
  let row := mk_TcsaSnapshotRow snapshot_id now (tm_platform_mode T) tcsa_balance "BDT" merchant_liability customer_float total_liability
    (tcsa_balance - total_liability) ratio status shortfall days penalty (0 <? shortfall) false (c_chain_index tip) (c_chain_hash tip)
    (tm_producer T) 1 in
  do* _ := count_cycle ratio in
  let was_blocked := match previous with Some p => ts_payout_initiation_blocked p | None => false end in
  do* _ := t_insert row in
  do* _ := (if (0 <? shortfall) && negb was_blocked then announce_shortfall clock row
            else if (shortfall =? 0) && was_blocked then announce_recovery clock row else eret tt) in
  eret row.
End Tcsa.

(** * What a snapshot says *)

Lemma penalty_bounds shortfall days rate : 0 <= rate -> 0 <= days ->
  0 <= compute_penalty_exposure_minor shortfall days rate <=
  TSA_SHORTFALL_MAX_PENALTY_MINOR + Z.max 0 (days - EXTENDED_SHORTFALL_DAYS_THRESHOLD) * EXTENDED_SHORTFALL_DAILY_FINE_MINOR.
Proof.
  intros Hr Hd. unfold compute_penalty_exposure_minor, TSA_SHORTFALL_MAX_PENALTY_MINOR, EXTENDED_SHORTFALL_DAILY_FINE_MINOR.
  destruct (Z.leb_spec shortfall 0); [lia|]. assert (0 <= rate * shortfall / 10000) by (apply Z.div_pos; lia). lia.
Qed.

(** The gate is clear exactly on a fresh snapshot without a block. *)
Lemma gate_clear_iff max_age rows clock : gate_clear (dispatch_gate max_age rows clock) <->
  exists row, latest_snapshot rows = Some row /\ tz_aware clock = tz_aware (ts_snapshotted_at row) /\
    micros clock - micros (ts_snapshotted_at row) <= max_age * 1000000 /\ ts_payout_initiation_blocked row = false.
Proof.
  unfold gate_clear, dispatch_gate, dt_sub. destruct (latest_snapshot rows) as [row|]; [|split; [intros (g & [= <-] & ?); done|by intros (? & ? & _)]].
  split.
  - intros (g & Hg & Hc). inv_res. exists row. bool_prop. apply eqb_prop in G. split_and!; try done.
    all: destruct (Z.ltb_spec (max_age * 1000000) (micros clock - micros (ts_snapshotted_at row))); [inv_res; done|].
    all: destruct (ts_payout_initiation_blocked row); inv_res; done.
  - intros (x & [= <-] & Ha & Hage & Hb). rewrite Ha, eqb_reflx. cbn. rewrite Hb.
    destruct (Z.ltb_spec (max_age * 1000000) (micros clock - micros (ts_snapshotted_at row))); [lia|]. by eexists.
Qed.

(** The trust account holds what is owed. *)
Definition covered (mode : string) (s : Store) : Prop :=
  sum_balance_by_subtype s "MERCHANT_SETTLEMENT" + outstanding_float mode s <= sum_balance_by_subtype s "SPONSOR_BANK_TCSA".

(** The row a monitor run on the ledger [s] at time [t] makes. *)
Definition snapshot_of (mode : string) (s : Store) (t : datetime) (row : TcsaSnapshotRow) : Prop :=
  ts_snapshotted_at row = t /\ ts_tcsa_balance_minor row = sum_balance_by_subtype s "SPONSOR_BANK_TCSA" /\
  ts_total_outstanding_liability_minor row = sum_balance_by_subtype s "MERCHANT_SETTLEMENT" + outstanding_float mode s /\
  (ts_payout_initiation_blocked row = false <-> covered mode s).

Section Gate.
Context `{HashFn} `{CheckpointSigner} `{Redactor} `{DhakaTz} `{HostTz} (E : Engine) (T : Monitor) (max_age : Z).

(** * A run of the monitor *)

(** Nothing is stored, or one row that says what the ledger said. *)
Definition snaps (s : Store) (t : datetime) (w w' : TWorld) : Prop :=
  sw_store (tw_settle w') = sw_store (tw_settle w) /\
  (tw_snapshots w' = tw_snapshots w \/ exists row, tw_snapshots w' = tw_snapshots w ++ [row] /\ snapshot_of (tm_platform_mode T) s t row).

(** Steps that leave both stores alone. *)
Definition tquiet (w w' : TWorld) : Prop := sw_store (tw_settle w') = sw_store (tw_settle w) /\ tw_snapshots w' = tw_snapshots w.
#[local] Instance tquiet_preorder : PreOrder tquiet.
Proof. split; unfold tquiet; [done|]. intros w1 w2 w3 [? ?] [? ?]. split; congruence. Qed.

Lemma t_ledger_quiet {A} (f : Store -> LedgerStore.outcome A) : within tquiet (t_ledger f).
Proof. intros w. unfold t_ledger. by destruct (f (sw_led (tw_settle w))). Qed.
Lemma t_alert_quiet kind payload : within tquiet (t_alert kind payload).
Proof. by intros w. Qed.
Lemma count_cycle_quiet ratio : within tquiet (count_cycle T ratio).
Proof. intros w. unfold count_cycle. by destruct (tm_metrics T). Qed.
#[local] Hint Resolve t_ledger_quiet t_alert_quiet count_cycle_quiet : settle.

Lemma money_tip_quiet clock : within tquiet (money_tip T clock).
Proof. unfold money_tip, t_read. swalk. Qed.
Lemma announce_shortfall_quiet clock row : within tquiet (announce_shortfall T clock row).
Proof. unfold announce_shortfall, tcsa_emit, tcsa_audit. swalk. Qed.
Lemma announce_recovery_quiet clock row : within tquiet (announce_recovery T clock row).
Proof. unfold announce_recovery, tcsa_emit, tcsa_audit. swalk. Qed.
#[local] Hint Resolve money_tip_quiet announce_shortfall_quiet announce_recovery_quiet : settle.

Lemma quiet_snaps s t w w' : tquiet w w' -> snaps s t w w'.
Proof. intros [? ?]. by split; [|left]. Qed.
Lemma snaps_after s t w w1 w' : tquiet w w1 -> snaps s t w1 w' -> snaps s t w w'.
Proof. intros [Ha Hb] [Hc Hd]. split; [congruence|]. by rewrite <- Hb. Qed.
Lemma snaps_then s t w w1 w' : snaps s t w w1 -> tquiet w1 w' -> snaps s t w w'.
Proof. intros [Ha Hb] [Hc Hd]. split; [congruence|]. by rewrite Hd. Qed.

(** Sequencing: quiet, then a step that may store the row. *)
Lemma from_snaps {A B} s t (c : teff A) (k : A -> teff B) w :
  within tquiet c -> (forall a w', tquiet w w' -> from w' (snaps s t) (k a)) -> from w (snaps s t) (ebind c k).
Proof.
  intros Hc Hk. unfold from. rewrite ebind_eq. specialize (Hc w). destruct (c w) as [[a|e] w1]; [|by apply quiet_snaps].
  eapply snaps_after; [exact Hc|by apply Hk].
Qed.
Lemma from_t_read {A B} R (f : Store -> A) (k : A -> teff B) w : from w R (k (f (t_led w))) -> from w R (ebind (t_read f) k).
Proof. done. Qed.

(** The row is stored, and what follows is quiet. *)
Lemma from_insert {B} s t row (k : unit -> teff B) w : snapshot_of (tm_platform_mode T) s t row -> (forall u, within tquiet (k u)) ->
  from w (snaps s t) (ebind (t_insert row) k).
Proof.
  intros Hrow Hk. unfold from. rewrite ebind_eq. unfold t_insert, insert_snapshot. destruct (existsb _ _); [by apply quiet_snaps|].
  eapply snaps_then; [|apply Hk]. split; [done|]. right. by exists row.
Qed.

Lemma run_once_snaps clock w : from w (snaps (t_led w) clock) (run_once T clock).
Proof.
  unfold run_once. unfold from at 1. rewrite ebind_eq. unfold tcsa_now, elift at 1. destruct (tz_aware clock); cbn [negb]; [|by apply quiet_snaps].
  match goal with |- snaps ?s ?t ?w (?c ?w).2 => change (from w (snaps s t) c) end. do 3 apply from_t_read. cbv zeta.
  apply from_snaps; [apply within_get, _|]. intros w0 w1 _. do 3 (apply from_snaps; [swalk|intros ? ? _]). apply from_insert; [|intros; swalk].
  split_and!; try done. unfold covered. cbn [ts_payout_initiation_blocked]. rewrite Z.ltb_ge. lia.
Qed.

(** * The composed system *)

Inductive tcall : Type :=
| TakeSnapshot
| Settle (c : scall).

(** The gate the engine is constructed with answers in place of the call's. *)
Definition wired (w : TWorld) (clock : datetime) (c : scall) : scall :=
  match c with
  | Dispatch _ b now => Dispatch (dispatch_gate max_age (tw_snapshots w) clock) b now
  | ReleaseHeld _ b now => ReleaseHeld (dispatch_gate max_age (tw_snapshots w) clock) b now
  | c => c
  end.

Definition tact (w : TWorld) (a : datetime * tcall) : TWorld :=
  match a.2 with
  | TakeSnapshot => (run_once T a.1 w).2
  | Settle c => mk_TWorld (sact E (tw_settle w) (a.1, wired w a.1 c)) (tw_snapshots w) (tw_alerts w) (tw_cycles w) (tw_gauge w)
  end.

Definition tstart : TWorld := mk_TWorld sstart [] [] 0 None.
Definition thistory (calls : list (datetime * tcall)) : TWorld := foldl tact tstart calls.

(** Every snapshot on record was taken by a call of the history, on the ledger as it
    was then. *)
Lemma snapshots_were_taken calls row : row ∈ tw_snapshots (thistory calls) -> exists before t rest,
  calls = before ++ (t, TakeSnapshot) :: rest /\ snapshot_of (tm_platform_mode T) (t_led (thistory before)) t row.
Proof.
  revert row. induction calls as [|[t c] calls IH] using rev_ind; intros row; [by intros ?%not_elem_of_nil|].
  unfold thistory. rewrite foldl_app. cbn [foldl]. fold (thistory calls). intros Hin.
  assert (Hcase : row ∈ tw_snapshots (thistory calls) \/
    (c = TakeSnapshot /\ snapshot_of (tm_platform_mode T) (t_led (thistory calls)) t row)).
  { destruct c as [|c]; [|by left]. destruct (run_once_snaps t (thistory calls)) as [_ [Hs|(x & Hs & Hx)]].
    - left. unfold tact in Hin. cbn [fst snd] in Hin. by rewrite Hs in Hin.
    - unfold tact in Hin. cbn [fst snd] in Hin. rewrite Hs, elem_of_app, list_elem_of_singleton in Hin. destruct Hin as [?|Hx']; [by left|subst x; by right]. }
  destruct Hcase as [Hold|[-> Hs]].
  - destruct (IH row Hold) as (before & t' & rest & -> & Hs). exists before, t', (rest ++ [(t, c)]). split; [|done].
    by rewrite <- app_assoc.
  - exists calls, t, []. done.
Qed.

(** C15: payouts leave only on a covered trust account.  In every history of the
    settlement engine, the monitor and other users of the ledger: when a call puts a
    batch in DISPATCHED, some earlier call of the monitor, at most the allowed age
    before it, found in the ledger as it stood that the trust account's balance was
    at least what was owed to merchants and, in PSP mode, to customers. *)
Theorem payouts_need_a_covered_trust_account calls clock c b :
  let w := thistory calls in let w' := tact w (clock, c) in
  dispatched b (sw_store (tw_settle w')) -> ~ dispatched b (sw_store (tw_settle w)) ->
  exists before t rest, calls = before ++ (t, TakeSnapshot) :: rest /\ covered (tm_platform_mode T) (t_led (thistory before)) /\
    micros clock - micros t <= max_age * 1000000.
Proof.
  intros w w' Hd Hn. destruct c as [|c].
  { destruct (run_once_snaps clock w) as [Hs _]. exfalso. apply Hn. unfold w', tact in Hd. cbn [fst snd] in Hd. by rewrite <- Hs. }
  unfold w', tact in Hd. cbn [fst snd tw_settle] in Hd. unfold sact in Hd. cbn [fst snd] in Hd.
  destruct (dispatch_is_gated E clock (wired w clock c) (tw_settle w) b Hd Hn) as (gate & now & Hc & Hg & _).
  assert (Hgate : gate = dispatch_gate max_age (tw_snapshots w) clock) by (destruct c; cbn in Hc; congruence). subst gate.
  apply gate_clear_iff in Hg as (row & Hl & _ & Hage & Hb).
  destruct (snapshots_were_taken calls row) as (before & t & rest & -> & Ht & _ & _ & Hcov); [by eapply last_Some_elem_of|].
  exists before, t, rest. split; [done|]. split; [by apply Hcov|]. by rewrite <- Ht.
Qed.
End Gate.
