(* ===== verification/Recon.v ===== *)
(** Reconciliation (ledger/reconciliation/types.py, store.py, engine.py): the lines of a
    rail's settlement file against the settlement instructions.

    The engine reads the settlement store and writes its own store and the ledger, with
    no transaction over the two: what an operation wrote before it raised stays.  Lines
    arrive normalised.  An operation reads the clock once; [now] is the caller's
    instant, if it passes one; an aware datetime is an instant, written in UTC. *)
From S2P Require Import Prelude Effects Rows Exceptions DateTime Sha256 Canonical Json LedgerTypes LedgerStore HashChain LedgerService.
From S2P Require Import Fees Calendar Settlement SettlementEngine.
Open Scope Z_scope.

Definition RECON_PRODUCER : string := "reconciliation-service@1".

(** * Tables *)

Definition RECORD_STATES : list string := ["INGESTED"; "MATCHED"; "TIMING_GAP"; "UNMATCHED"; "AMOUNT_MISMATCH"; "DEAD_LETTER"].
Definition RECORD_TERMINAL_STATES : list string := ["MATCHED"; "DEAD_LETTER"].

Definition RECORD_TRANSITIONS : SettlementTable :=
  [(("INGESTED", "match_cascade_run"), ["MATCHED"; "TIMING_GAP"; "UNMATCHED"; "AMOUNT_MISMATCH"; "DEAD_LETTER"]);
   (("TIMING_GAP", "auto_retry_match"), ["MATCHED"]);
   (("TIMING_GAP", "timing_window_expired"), ["UNMATCHED"]);
   (("UNMATCHED", "finance_resolved"), ["MATCHED"; "DEAD_LETTER"]);
   (("AMOUNT_MISMATCH", "finance_resolved"), ["MATCHED"; "DEAD_LETTER"])].

Definition EXCEPTION_STATES : list string := ["OPEN"; "IN_REVIEW"; "RESOLVED"; "ESCALATED"; "CLOSED"].
Definition EXCEPTION_TERMINAL_STATES : list string := ["RESOLVED"; "CLOSED"].

Definition EXCEPTION_TRANSITIONS : SettlementTable :=
  [(("OPEN", "auto_timing_gap_resolved"), ["CLOSED"]);
   (("OPEN", "assigned_to_finance"), ["IN_REVIEW"]);
   (("OPEN", "aml_suspicion_flagged"), ["ESCALATED"]);
   (("IN_REVIEW", "resolved"), ["RESOLVED"]);
   (("IN_REVIEW", "escalated_from_review"), ["ESCALATED"]);
   (("ESCALATED", "camlco_resolved"), ["RESOLVED"])].

Definition RESOLUTION_TIERS : list string := ["AUTO_TIMING_GAP"; "FINANCE_QUEUE"; "DEAD_LETTER"].

Definition REASON_CODES : list string :=
  ["PARSE_ERROR"; "RAIL_RETURN"; "RAIL_REJECT"; "AMOUNT_MISMATCH"; "AMBIGUOUS_MATCH"; "TIMING_GAP_EXPIRED"; "TIMING_GAP";
   "AML_SUSPICIOUS"; "NO_MATCH_DEAD_LETTER"; "BATCH_FAILED"].

Definition RESOLUTION_ACTIONS : list string := ["WRITE_OFF"; "CHASE_RAIL"; "REVERSE_INTERNAL"; "SUSPENSE_TRANSFER"; "CLOSE_NO_ACTION"].

Definition AML_ESCALATION_DELTA_MINOR : Z := 5000000.
Definition RECON_ADJUSTMENT_APPROVAL_THRESHOLD_MINOR : Z := 50000.

(** * Rows *)

Record NormalizedReconLine : Type := mk_NormalizedReconLine {
  nl_rail : string;
  nl_rail_transaction_id : option string;
  nl_rail_amount_minor : option Z;
  nl_rail_direction : option string;
  nl_rail_effective_date : option Z;
  nl_rail_merchant_ref : option string;
  nl_raw_line_hash : string;
  nl_parse_failed : bool;
  nl_parse_error : option string
}.

Record ReconciliationRecordRow : Type := mk_ReconciliationRecordRow {
  rr_record_id : string;
  rr_batch_id : option string;
  rr_rail : string;
  rr_rail_transaction_id : option string;
  rr_rail_amount_minor : option Z;
  rr_rail_direction : option string;
  rr_rail_effective_date : option Z;
  rr_rail_merchant_ref : option string;
  rr_raw_line_hash : string;
  rr_parse_failed : bool;
  rr_parse_error : option string;
  rr_match_status : string;
  rr_match_level : option Z;
  rr_matched_instruction_id : option string;
  rr_delta_minor : option Z;
  rr_ingested_at : datetime;
  rr_matched_at : option datetime;
  rr_produced_by : string;
  rr_schema_version : Z
}.

Record ReconciliationExceptionRow : Type := mk_ReconciliationExceptionRow {
  rx_exception_id : string;
  rx_record_id : string;
  rx_resolution_tier : string;
  rx_reason_code : string;
  rx_rail_amount_minor : option Z;
  rx_internal_amount_minor : option Z;
  rx_delta_minor : option Z;
  rx_status : string;
  rx_assigned_to : option string;
  rx_raised_at : datetime;
  rx_due_by : datetime;
  rx_resolved_at : option datetime;
  rx_closed_at : option datetime;
  rx_resolution_action : option string;
  rx_adjustment_amount_minor : option Z;
  rx_journal_entry_id : option string;
  rx_approval_request_id : option string;
  rx_notes : option string;
  rx_supporting_ref : option string;
  rx_resolved_by : option string;
  rx_aml_alert_id : option string;
  rx_produced_by : string;
  rx_schema_version : Z
}.

(** * Column updates *)

Definition _RECORD_MUTABLE : list string :=
  ["match_status"; "match_level"; "matched_instruction_id"; "delta_minor"; "matched_at"].

Definition _EXCEPTION_MUTABLE : list string :=
  ["status"; "assigned_to"; "resolved_at"; "closed_at"; "resolution_action"; "adjustment_amount_minor";
   "journal_entry_id"; "approval_request_id"; "notes"; "supporting_ref"; "resolved_by"; "aml_alert_id";
   "resolution_tier"].

(** One keyword argument of [update_record]. *)
Inductive record_change : Type :=
| R_match_status (v : string)
| R_match_level (v : option Z)
| R_matched_instruction_id (v : option string)
| R_delta_minor (v : option Z)
| R_matched_at (v : option datetime)
| R_other (column : string).

Definition r_column (c : record_change) : string :=
  match c with
  | R_match_status _ => "match_status"
  | R_match_level _ => "match_level"
  | R_matched_instruction_id _ => "matched_instruction_id"
  | R_delta_minor _ => "delta_minor"
  | R_matched_at _ => "matched_at"
  | R_other column => column
  end.

(** [dataclasses.replace(row, column=v)]; [R_other] is refused before it gets here. *)
Definition record_replace (r : ReconciliationRecordRow) (c : record_change) : ReconciliationRecordRow :=
  match c with
  | R_match_status v =>
      mk_ReconciliationRecordRow (rr_record_id r) (rr_batch_id r) (rr_rail r) (rr_rail_transaction_id r)
        (rr_rail_amount_minor r) (rr_rail_direction r) (rr_rail_effective_date r) (rr_rail_merchant_ref r)
        (rr_raw_line_hash r) (rr_parse_failed r) (rr_parse_error r) v (rr_match_level r)
        (rr_matched_instruction_id r) (rr_delta_minor r) (rr_ingested_at r) (rr_matched_at r) (rr_produced_by r)
        (rr_schema_version r)
  | R_match_level v =>
      mk_ReconciliationRecordRow (rr_record_id r) (rr_batch_id r) (rr_rail r) (rr_rail_transaction_id r)
        (rr_rail_amount_minor r) (rr_rail_direction r) (rr_rail_effective_date r) (rr_rail_merchant_ref r)
        (rr_raw_line_hash r) (rr_parse_failed r) (rr_parse_error r) (rr_match_status r) v
        (rr_matched_instruction_id r) (rr_delta_minor r) (rr_ingested_at r) (rr_matched_at r) (rr_produced_by r)
        (rr_schema_version r)
  | R_matched_instruction_id v =>
      mk_ReconciliationRecordRow (rr_record_id r) (rr_batch_id r) (rr_rail r) (rr_rail_transaction_id r)
        (rr_rail_amount_minor r) (rr_rail_direction r) (rr_rail_effective_date r) (rr_rail_merchant_ref r)
        (rr_raw_line_hash r) (rr_parse_failed r) (rr_parse_error r) (rr_match_status r) (rr_match_level r) v
        (rr_delta_minor r) (rr_ingested_at r) (rr_matched_at r) (rr_produced_by r) (rr_schema_version r)
  | R_delta_minor v =>
      mk_ReconciliationRecordRow (rr_record_id r) (rr_batch_id r) (rr_rail r) (rr_rail_transaction_id r)
        (rr_rail_amount_minor r) (rr_rail_direction r) (rr_rail_effective_date r) (rr_rail_merchant_ref r)
        (rr_raw_line_hash r) (rr_parse_failed r) (rr_parse_error r) (rr_match_status r) (rr_match_level r)
        (rr_matched_instruction_id r) v (rr_ingested_at r) (rr_matched_at r) (rr_produced_by r)
        (rr_schema_version r)
  | R_matched_at v =>
      mk_ReconciliationRecordRow (rr_record_id r) (rr_batch_id r) (rr_rail r) (rr_rail_transaction_id r)
        (rr_rail_amount_minor r) (rr_rail_direction r) (rr_rail_effective_date r) (rr_rail_merchant_ref r)
        (rr_raw_line_hash r) (rr_parse_failed r) (rr_parse_error r) (rr_match_status r) (rr_match_level r)
        (rr_matched_instruction_id r) (rr_delta_minor r) (rr_ingested_at r) v (rr_produced_by r)
        (rr_schema_version r)
  | R_other _ => r
  end.

(** One keyword argument of [update_exception]. *)
Inductive exception_change : Type :=
| X_resolution_tier (v : string)
| X_status (v : string)
| X_assigned_to (v : option string)
| X_resolved_at (v : option datetime)
| X_closed_at (v : option datetime)
| X_resolution_action (v : option string)
| X_adjustment_amount_minor (v : option Z)
| X_journal_entry_id (v : option string)
| X_approval_request_id (v : option string)
| X_notes (v : option string)
| X_supporting_ref (v : option string)
| X_resolved_by (v : option string)
| X_aml_alert_id (v : option string)
| X_other (column : string).

Definition x_column (c : exception_change) : string :=
  match c with
  | X_resolution_tier _ => "resolution_tier"
  | X_status _ => "status"
  | X_assigned_to _ => "assigned_to"
  | X_resolved_at _ => "resolved_at"
  | X_closed_at _ => "closed_at"
  | X_resolution_action _ => "resolution_action"
  | X_adjustment_amount_minor _ => "adjustment_amount_minor"
  | X_journal_entry_id _ => "journal_entry_id"
  | X_approval_request_id _ => "approval_request_id"
  | X_notes _ => "notes"
  | X_supporting_ref _ => "supporting_ref"
  | X_resolved_by _ => "resolved_by"
  | X_aml_alert_id _ => "aml_alert_id"
  | X_other column => column
  end.

(** [dataclasses.replace(row, column=v)]; [X_other] is refused before it gets here. *)
Definition exception_replace (r : ReconciliationExceptionRow) (c : exception_change) : ReconciliationExceptionRow :=
  match c with
  | X_resolution_tier v =>
      mk_ReconciliationExceptionRow (rx_exception_id r) (rx_record_id r) v (rx_reason_code r)
        (rx_rail_amount_minor r) (rx_internal_amount_minor r) (rx_delta_minor r) (rx_status r) (rx_assigned_to
        r) (rx_raised_at r) (rx_due_by r) (rx_resolved_at r) (rx_closed_at r) (rx_resolution_action r)
        (rx_adjustment_amount_minor r) (rx_journal_entry_id r) (rx_approval_request_id r) (rx_notes r)
        (rx_supporting_ref r) (rx_resolved_by r) (rx_aml_alert_id r) (rx_produced_by r) (rx_schema_version r)
  | X_status v =>
      mk_ReconciliationExceptionRow (rx_exception_id r) (rx_record_id r) (rx_resolution_tier r) (rx_reason_code
        r) (rx_rail_amount_minor r) (rx_internal_amount_minor r) (rx_delta_minor r) v (rx_assigned_to r)
        (rx_raised_at r) (rx_due_by r) (rx_resolved_at r) (rx_closed_at r) (rx_resolution_action r)
        (rx_adjustment_amount_minor r) (rx_journal_entry_id r) (rx_approval_request_id r) (rx_notes r)
        (rx_supporting_ref r) (rx_resolved_by r) (rx_aml_alert_id r) (rx_produced_by r) (rx_schema_version r)
  | X_assigned_to v =>
      mk_ReconciliationExceptionRow (rx_exception_id r) (rx_record_id r) (rx_resolution_tier r) (rx_reason_code
        r) (rx_rail_amount_minor r) (rx_internal_amount_minor r) (rx_delta_minor r) (rx_status r) v
        (rx_raised_at r) (rx_due_by r) (rx_resolved_at r) (rx_closed_at r) (rx_resolution_action r)
        (rx_adjustment_amount_minor r) (rx_journal_entry_id r) (rx_approval_request_id r) (rx_notes r)
        (rx_supporting_ref r) (rx_resolved_by r) (rx_aml_alert_id r) (rx_produced_by r) (rx_schema_version r)
  | X_resolved_at v =>
      mk_ReconciliationExceptionRow (rx_exception_id r) (rx_record_id r) (rx_resolution_tier r) (rx_reason_code
        r) (rx_rail_amount_minor r) (rx_internal_amount_minor r) (rx_delta_minor r) (rx_status r)
        (rx_assigned_to r) (rx_raised_at r) (rx_due_by r) v (rx_closed_at r) (rx_resolution_action r)
        (rx_adjustment_amount_minor r) (rx_journal_entry_id r) (rx_approval_request_id r) (rx_notes r)
        (rx_supporting_ref r) (rx_resolved_by r) (rx_aml_alert_id r) (rx_produced_by r) (rx_schema_version r)
  | X_closed_at v =>
      mk_ReconciliationExceptionRow (rx_exception_id r) (rx_record_id r) (rx_resolution_tier r) (rx_reason_code
        r) (rx_rail_amount_minor r) (rx_internal_amount_minor r) (rx_delta_minor r) (rx_status r)
        (rx_assigned_to r) (rx_raised_at r) (rx_due_by r) (rx_resolved_at r) v (rx_resolution_action r)
        (rx_adjustment_amount_minor r) (rx_journal_entry_id r) (rx_approval_request_id r) (rx_notes r)
        (rx_supporting_ref r) (rx_resolved_by r) (rx_aml_alert_id r) (rx_produced_by r) (rx_schema_version r)
  | X_resolution_action v =>
      mk_ReconciliationExceptionRow (rx_exception_id r) (rx_record_id r) (rx_resolution_tier r) (rx_reason_code
        r) (rx_rail_amount_minor r) (rx_internal_amount_minor r) (rx_delta_minor r) (rx_status r)
        (rx_assigned_to r) (rx_raised_at r) (rx_due_by r) (rx_resolved_at r) (rx_closed_at r) v
        (rx_adjustment_amount_minor r) (rx_journal_entry_id r) (rx_approval_request_id r) (rx_notes r)
        (rx_supporting_ref r) (rx_resolved_by r) (rx_aml_alert_id r) (rx_produced_by r) (rx_schema_version r)
  | X_adjustment_amount_minor v =>
      mk_ReconciliationExceptionRow (rx_exception_id r) (rx_record_id r) (rx_resolution_tier r) (rx_reason_code
        r) (rx_rail_amount_minor r) (rx_internal_amount_minor r) (rx_delta_minor r) (rx_status r)
        (rx_assigned_to r) (rx_raised_at r) (rx_due_by r) (rx_resolved_at r) (rx_closed_at r)
        (rx_resolution_action r) v (rx_journal_entry_id r) (rx_approval_request_id r) (rx_notes r)
        (rx_supporting_ref r) (rx_resolved_by r) (rx_aml_alert_id r) (rx_produced_by r) (rx_schema_version r)
  | X_journal_entry_id v =>
      mk_ReconciliationExceptionRow (rx_exception_id r) (rx_record_id r) (rx_resolution_tier r) (rx_reason_code
        r) (rx_rail_amount_minor r) (rx_internal_amount_minor r) (rx_delta_minor r) (rx_status r)
        (rx_assigned_to r) (rx_raised_at r) (rx_due_by r) (rx_resolved_at r) (rx_closed_at r)
        (rx_resolution_action r) (rx_adjustment_amount_minor r) v (rx_approval_request_id r) (rx_notes r)
        (rx_supporting_ref r) (rx_resolved_by r) (rx_aml_alert_id r) (rx_produced_by r) (rx_schema_version r)
  | X_approval_request_id v =>
      mk_ReconciliationExceptionRow (rx_exception_id r) (rx_record_id r) (rx_resolution_tier r) (rx_reason_code
        r) (rx_rail_amount_minor r) (rx_internal_amount_minor r) (rx_delta_minor r) (rx_status r)
        (rx_assigned_to r) (rx_raised_at r) (rx_due_by r) (rx_resolved_at r) (rx_closed_at r)
        (rx_resolution_action r) (rx_adjustment_amount_minor r) (rx_journal_entry_id r) v (rx_notes r)
        (rx_supporting_ref r) (rx_resolved_by r) (rx_aml_alert_id r) (rx_produced_by r) (rx_schema_version r)
  | X_notes v =>
      mk_ReconciliationExceptionRow (rx_exception_id r) (rx_record_id r) (rx_resolution_tier r) (rx_reason_code
        r) (rx_rail_amount_minor r) (rx_internal_amount_minor r) (rx_delta_minor r) (rx_status r)
        (rx_assigned_to r) (rx_raised_at r) (rx_due_by r) (rx_resolved_at r) (rx_closed_at r)
        (rx_resolution_action r) (rx_adjustment_amount_minor r) (rx_journal_entry_id r) (rx_approval_request_id
        r) v (rx_supporting_ref r) (rx_resolved_by r) (rx_aml_alert_id r) (rx_produced_by r) (rx_schema_version
        r)
  | X_supporting_ref v =>
      mk_ReconciliationExceptionRow (rx_exception_id r) (rx_record_id r) (rx_resolution_tier r) (rx_reason_code
        r) (rx_rail_amount_minor r) (rx_internal_amount_minor r) (rx_delta_minor r) (rx_status r)
        (rx_assigned_to r) (rx_raised_at r) (rx_due_by r) (rx_resolved_at r) (rx_closed_at r)
        (rx_resolution_action r) (rx_adjustment_amount_minor r) (rx_journal_entry_id r) (rx_approval_request_id
        r) (rx_notes r) v (rx_resolved_by r) (rx_aml_alert_id r) (rx_produced_by r) (rx_schema_version r)
  | X_resolved_by v =>
      mk_ReconciliationExceptionRow (rx_exception_id r) (rx_record_id r) (rx_resolution_tier r) (rx_reason_code
        r) (rx_rail_amount_minor r) (rx_internal_amount_minor r) (rx_delta_minor r) (rx_status r)
        (rx_assigned_to r) (rx_raised_at r) (rx_due_by r) (rx_resolved_at r) (rx_closed_at r)
        (rx_resolution_action r) (rx_adjustment_amount_minor r) (rx_journal_entry_id r) (rx_approval_request_id
        r) (rx_notes r) (rx_supporting_ref r) v (rx_aml_alert_id r) (rx_produced_by r) (rx_schema_version r)
  | X_aml_alert_id v =>
      mk_ReconciliationExceptionRow (rx_exception_id r) (rx_record_id r) (rx_resolution_tier r) (rx_reason_code
        r) (rx_rail_amount_minor r) (rx_internal_amount_minor r) (rx_delta_minor r) (rx_status r)
        (rx_assigned_to r) (rx_raised_at r) (rx_due_by r) (rx_resolved_at r) (rx_closed_at r)
        (rx_resolution_action r) (rx_adjustment_amount_minor r) (rx_journal_entry_id r) (rx_approval_request_id
        r) (rx_notes r) (rx_supporting_ref r) (rx_resolved_by r) v (rx_produced_by r) (rx_schema_version r)
  | X_other _ => r
  end.

(** What a call of the engine raises.  The first two are [ReconciliationError] and its
    subclass. *)
Inductive rexn : Type :=
| ReconciliationError
| ReconInvalidTransitionError
| ReconGuardError            (* [SettlementGuardError] *)
| RSettle (e : sexn)         (* raised by the ledger, the calendar or a comparison of datetimes *)
| RAssertionError
| ROverflowError.            (* a date out of range *)

(** The counters of a run; an error is kept as the line's hash prefix and the exception. *)
Record ReconcileReport : Type := mk_ReconcileReport {
  n_lines : Z;
  n_matched : Z;
  n_amount_mismatch : Z;
  n_timing_gap : Z;
  n_unmatched : Z;
  n_ambiguous : Z;
  n_dead_letter : Z;
  errors : list (string * rexn)
}.

Definition empty_report : ReconcileReport := mk_ReconcileReport 0 0 0 0 0 0 0 [].

Definition one_line (r : ReconcileReport) : ReconcileReport :=
  mk_ReconcileReport (n_lines r + 1) (n_matched r) (n_amount_mismatch r) (n_timing_gap r) (n_unmatched r) (n_ambiguous r) (n_dead_letter r) (errors r).
Definition one_matched (r : ReconcileReport) : ReconcileReport :=
  mk_ReconcileReport (n_lines r) (n_matched r + 1) (n_amount_mismatch r) (n_timing_gap r) (n_unmatched r) (n_ambiguous r) (n_dead_letter r) (errors r).
Definition one_mismatch (r : ReconcileReport) : ReconcileReport :=
  mk_ReconcileReport (n_lines r) (n_matched r) (n_amount_mismatch r + 1) (n_timing_gap r) (n_unmatched r) (n_ambiguous r) (n_dead_letter r) (errors r).
Definition one_gap (r : ReconcileReport) : ReconcileReport :=
  mk_ReconcileReport (n_lines r) (n_matched r) (n_amount_mismatch r) (n_timing_gap r + 1) (n_unmatched r) (n_ambiguous r) (n_dead_letter r) (errors r).
Definition one_unmatched (r : ReconcileReport) : ReconcileReport :=
  mk_ReconcileReport (n_lines r) (n_matched r) (n_amount_mismatch r) (n_timing_gap r) (n_unmatched r + 1) (n_ambiguous r) (n_dead_letter r) (errors r).
Definition one_ambiguous (r : ReconcileReport) : ReconcileReport :=
  mk_ReconcileReport (n_lines r) (n_matched r) (n_amount_mismatch r) (n_timing_gap r) (n_unmatched r) (n_ambiguous r + 1) (n_dead_letter r) (errors r).
Definition one_dead (r : ReconcileReport) : ReconcileReport :=
  mk_ReconcileReport (n_lines r) (n_matched r) (n_amount_mismatch r) (n_timing_gap r) (n_unmatched r) (n_ambiguous r) (n_dead_letter r + 1) (errors r).
Definition one_error (hash : string) (e : rexn) (r : ReconcileReport) : ReconcileReport :=
  mk_ReconcileReport (n_lines r) (n_matched r) (n_amount_mismatch r) (n_timing_gap r) (n_unmatched r) (n_ambiguous r) (n_dead_letter r)
    (errors r ++ [(str_take 12 hash, e)]).

(** * [InMemoryReconStore] *)

Record ReconStore : Type := mk_ReconStore {
  rs_records : list ReconciliationRecordRow;
  rs_exceptions : list ReconciliationExceptionRow
}.

Definition empty_recon : ReconStore := mk_ReconStore [] [].

Definition record_status_known (c : record_change) : bool := match c with R_match_status v => str_in v RECORD_STATES | _ => true end.
Definition exception_status_known (c : exception_change) : bool := match c with X_status v => str_in v EXCEPTION_STATES | _ => true end.

Definition _checked {C} (column : C -> string) (allowed : list string) (changes : list C) : res rexn (list C) :=
  raise ReconciliationError when (negb (forallb (fun c => str_in (column c) allowed) changes)) else Ok changes.

Section ReconStore.
Implicit Types (s : ReconStore).

Definition get_record (record_id : string) s : option ReconciliationRecordRow := List.find (has_key rr_record_id record_id) (rs_records s).
Definition get_exception (exception_id : string) s : option ReconciliationExceptionRow :=
  List.find (has_key rx_exception_id exception_id) (rs_exceptions s).

Definition insert_record (row : ReconciliationRecordRow) s : res rexn ReconStore :=
  raise ReconciliationError when (bool_decide (is_Some (get_record (rr_record_id row) s))) else
  raise ReconciliationError when (negb (str_in (rr_match_status row) RECORD_STATES)) else
  Ok (mk_ReconStore (rs_records s ++ [row]) (rs_exceptions s)).

(** [self._records[record_id] = row] for a stored id. *)
Definition put_record (row : ReconciliationRecordRow) s : ReconStore :=
  mk_ReconStore (replace_row rr_record_id (rr_record_id row) (fun _ => row) (rs_records s)) (rs_exceptions s).
Definition put_exception (row : ReconciliationExceptionRow) s : ReconStore :=
  mk_ReconStore (rs_records s) (replace_row rx_exception_id (rx_exception_id row) (fun _ => row) (rs_exceptions s)).

Definition update_record (record_id : string) (changes : list record_change) s : res rexn (ReconciliationRecordRow * ReconStore) :=
  match get_record record_id s with
  | None => Err ReconciliationError
  | Some row =>
      let* checked := _checked r_column _RECORD_MUTABLE changes in
      raise ReconciliationError when (negb (forallb record_status_known checked)) else
      let updated := foldl record_replace row checked in
      Ok (updated, put_record updated s)
  end.

(** [a is not None and row.column != a] lets the row through or not. *)
Definition wanted (a : option string) (column : option string) : bool :=
  match a with None => true | Some v => bool_decide (column = Some v) end.

Definition list_records (batch_id match_status : option string) s : list ReconciliationRecordRow :=
  List.filter (fun row => wanted batch_id (rr_batch_id row) && wanted match_status (Some (rr_match_status row))) (rs_records s).

Definition insert_exception (row : ReconciliationExceptionRow) s : res rexn ReconStore :=
  raise ReconciliationError when (bool_decide (is_Some (get_exception (rx_exception_id row) s))) else
  raise ReconciliationError when (negb (str_in (rx_status row) EXCEPTION_STATES)) else
  Ok (mk_ReconStore (rs_records s) (rs_exceptions s ++ [row])).

Definition update_exception (exception_id : string) (changes : list exception_change) s : res rexn (ReconciliationExceptionRow * ReconStore) :=
  match get_exception exception_id s with
  | None => Err ReconciliationError
  | Some row =>
      let* checked := _checked x_column _EXCEPTION_MUTABLE changes in
      raise ReconciliationError when (negb (forallb exception_status_known checked)) else
      let updated := foldl exception_replace row checked in
      Ok (updated, put_exception updated s)
  end.

Definition list_exceptions (status resolution_tier : option string) s : list ReconciliationExceptionRow :=
  List.filter (fun row => wanted status (Some (rx_status row)) && wanted resolution_tier (Some (rx_resolution_tier row))) (rs_exceptions s).

Definition find_exception_for_record (record_id : string) s : option ReconciliationExceptionRow :=
  List.find (fun row => String.eqb (rx_record_id row) record_id && str_in (rx_status row) ["OPEN"; "IN_REVIEW"; "ESCALATED"]) (rs_exceptions s).
End ReconStore.

(** * The engine *)

(** The constructor's arguments; [rc_metrics]: a metrics registry is given. *)
Record ReconEngine : Type := mk_ReconEngine {
  rc_cfg : LedgerCfg;
  rc_calendar : BangladeshBankCalendar;
  rc_suspense_account_id : string;
  rc_tcsa_account_id : string;
  rc_mdr_income_account_id : string;
  rc_producer : string;
  rc_metrics : bool
}.

(** The engine's store, the settlement world it reads and whose ledger it shares, and
    the counter [reconciliation_exceptions_total]. *)
Record RWorld : Type := mk_RWorld {
  rw_store : ReconStore;
  rw_settle : SWorld;
  rw_raised : Z
}.

Definition reff := eff RWorld rexn.

Definition r_res {A} (c : res sexn A) : res rexn A := match c with Ok a => Ok a | Err e => Err (RSettle e) end.

Definition on_recon {A} (f : ReconStore -> res rexn (A * ReconStore)) : reff A := fun w =>
  match f (rw_store w) with
  | Ok (a, s) => (Ok a, mk_RWorld s (rw_settle w) (rw_raised w))
  | Err e => (Err e, w)
  end.
Definition recon_put (f : ReconStore -> res rexn ReconStore) : reff unit := on_recon (fun s => let* s' := f s in Ok (tt, s')).
Definition read_recon {A} (f : ReconStore -> A) : reff A := do* w := eget in eret (f (rw_store w)).
Definition read_settle {A} (f : SettlementStore -> A) : reff A := do* w := eget in eret (f (sw_store (rw_settle w))).

(** A call of the ledger service. *)
Definition r_ledger {A} (f : Store -> LedgerStore.outcome A) : reff A := fun w =>
  let '(r, s) := f (sw_led (rw_settle w)) in
  (r_res (s_res r), mk_RWorld (rw_store w) (mk_SWorld (sw_store (rw_settle w)) s (sw_alerts (rw_settle w))) (rw_raised w)).

Definition count_raised (metrics : bool) : reff unit := fun w =>
  (Ok tt, if metrics then mk_RWorld (rw_store w) (rw_settle w) (rw_raised w + 1) else w).

(** [day + timedelta(days=n)] *)
Definition shift_day (day n : Z) : res rexn Z := raise ROverflowError when ((day + n <? 0) || (last_day <? day + n)) else Ok (day + n).

(** [_MatchResult] *)
Record MatchResult : Type := mk_MatchResult {
  mr_status : string;
  mr_instruction_id : option string;
  mr_match_level : option Z;
  mr_delta_minor : option Z;
  mr_candidates : list string
}.

(** [except ReconciliationError] *)
Definition is_recon_error (e : rexn) : bool := match e with ReconciliationError | ReconInvalidTransitionError => true | _ => false end.
Definition catching {A} (c : reff A) (handler : rexn -> A) : reff A := fun w =>
  match c w with
  | (Err e, w') => if is_recon_error e then (Ok (handler e), w') else (Err e, w')
  | o => o
  end.

Definition _LEDGER_ACTIONS : list string := ["WRITE_OFF"; "SUSPENSE_TRANSFER"].

Definition _record_transition (row : ReconciliationRecordRow) (trigger to_state : string) : res rexn unit :=
  raise ReconInvalidTransitionError when (negb (allowed RECORD_TRANSITIONS (rr_match_status row) trigger to_state)) else Ok tt.

Definition _exception_transition (row : ReconciliationExceptionRow) (trigger to_state : string) : res rexn unit :=
  raise ReconInvalidTransitionError when (negb (allowed EXCEPTION_TRANSITIONS (rx_status row) trigger to_state)) else Ok tt.

(** [{"AUTO_TIMING_GAP": 2, "FINANCE_QUEUE": 2, "DEAD_LETTER": 5}[tier]], after the tier was checked. *)
Definition tier_days (tier : string) : Z := if String.eqb tier "DEAD_LETTER" then 5 else 2.

Section ReconEngine.
Context `{HashFn} `{CheckpointSigner} `{Redactor} `{DhakaTz} `{HostTz} (R : ReconEngine).

Definition recon_now (clock : datetime) : res rexn datetime := raise ReconciliationError when (negb (tz_aware clock)) else Ok clock.
Definition recon_now_or (now : option datetime) (clock : datetime) : res rexn datetime :=
  match now with Some t => Ok t | None => recon_now clock end.

Definition recon_audit_spec (subject_type subject_id : string) (from_state : option string) (to_state : string) (detail : pyobj) : AuditEventSpec :=
  mk_AuditEventSpec
    (if String.eqb subject_type "ReconciliationRecord" then "RECONCILIATION_RECORD_STATE_TRANSITION"
     else "RECONCILIATION_EXCEPTION_STATE_TRANSITION")
    (rc_producer R) "SERVICE" subject_type subject_id from_state (Some to_state) detail.

Definition recon_audit (clock : datetime) (subject_type subject_id : string) (from_state : option string) (to_state : string)
    (detail : pyobj) : reff unit :=
  do* _ := r_ledger (fun s => write_audit_event (rc_cfg R) s (recon_audit_spec subject_type subject_id from_state to_state detail) None clock) in
  eret tt.

Definition recon_emit (clock : datetime) (event_type subject_type subject_id : string) (payload : pyobj) : reff unit :=
  do* _ := r_ledger (fun s => emit_event (rc_cfg R) s event_type subject_type subject_id payload "recon.events" (Some (rc_producer R)) None clock) in
  eret tt.

Definition _require_exception (exception_id : string) : reff ReconciliationExceptionRow :=
  do* row := read_recon (get_exception exception_id) in
  match row with None => elift (Err ReconciliationError) | Some r => eret r end.

(** ** The cascade *)

Definition age_in_business_days (day : Z) (now : datetime) : Z := business_days_between (rc_calendar R) day (dhaka_date now).

(** Levels 2 and 3. *)
Definition fuzzy_match (st : SettlementStore) (line : NormalizedReconLine) (now : datetime) : res rexn MatchResult :=
  match nl_rail_effective_date line, nl_rail_amount_minor line with
  | Some day, Some amount =>
      let* date_from := shift_day day (-2) in
      let* date_to := shift_day day 2 in
      match find_instructions_for_match (nl_rail line) amount date_from date_to (nl_rail_direction line) st with
      | [c] => Ok (mk_MatchResult "MATCHED" (Some (si_instruction_id c)) (Some 2) None [])
      | [] => Ok (mk_MatchResult (if age_in_business_days day now <=? 2 then "TIMING_GAP" else "UNMATCHED") None None None [])
      | cs => Ok (mk_MatchResult "AMOUNT_MISMATCH" None (Some 2) None (si_instruction_id <$> cs))
      end
  | _, _ => Err RAssertionError
  end.

Definition _match_cascade (st : SettlementStore) (line : NormalizedReconLine) (now : datetime) : res rexn MatchResult :=
  match (txid ← nl_rail_transaction_id line; find_instruction_by_rail_txid txid (nl_rail_direction line) st) with
  | Some i =>
      match nl_rail_amount_minor line with
      | None => Err RAssertionError
      | Some amount =>
          if si_net_payout_minor i =? amount then Ok (mk_MatchResult "MATCHED" (Some (si_instruction_id i)) (Some 1) None [])
          else Ok (mk_MatchResult "AMOUNT_MISMATCH" (Some (si_instruction_id i)) (Some 1) (Some (amount - si_net_payout_minor i)) [])
      end
  | None => fuzzy_match st line now
  end.

(** ** Exceptions *)

Definition _due_by (tier : string) (now : datetime) : res rexn datetime :=
  let* due_date := r_res (s_cal (add_working_days (rc_calendar R) (dhaka_date now) (tier_days tier))) in
  Ok (combine_utc due_date 0).

Definition exception_row (record : ReconciliationRecordRow) (exception_id tier reason_code : string) (internal_amount_minor : option Z)
    (now due_by : datetime) : ReconciliationExceptionRow :=
  mk_ReconciliationExceptionRow exception_id (rr_record_id record) tier reason_code (rr_rail_amount_minor record) internal_amount_minor
    (rr_delta_minor record) "OPEN" None now due_by None None None None None None None None None None (rc_producer R) 1.

(** Large deltas go to the anti-money-laundering officer. *)
Definition escalate (clock : datetime) (row : ReconciliationExceptionRow) (delta : Z) : reff ReconciliationExceptionRow :=
  do* _ := elift (_exception_transition row "aml_suspicion_flagged" "ESCALATED") in
  do* escalated := on_recon (update_exception (rx_exception_id row) [X_status "ESCALATED"]) in
  do* _ := recon_audit clock "ReconciliationException" (rx_exception_id row) (Some "OPEN"%string) "ESCALATED" (dict [("delta_minor", PInt delta)]) in
  do* _ := recon_emit clock "reconciliation_exception.escalated" "ReconciliationException" (rx_exception_id row)
    (dict [("reason", PStr "delta_above_aml_threshold")]) in
  eret escalated.

Definition _raise_exception (clock : datetime) (record : ReconciliationRecordRow) (tier reason_code : string)
    (internal_amount_minor : option Z) (now : datetime) : reff ReconciliationExceptionRow :=
  refuse ReconciliationError when (negb (str_in tier RESOLUTION_TIERS)) else
  refuse ReconciliationError when (negb (str_in reason_code REASON_CODES)) else
  do* exception_id := elift (r_res (s_res (make_id "rexc" (dict [("record_id", PStr (rr_record_id record)); ("reason_code", PStr reason_code)])))) in
  do* due_by := elift (_due_by tier now) in
  let row := exception_row record exception_id tier reason_code internal_amount_minor now due_by in
  do* _ := recon_put (insert_exception row) in
  do* _ := count_raised (rc_metrics R) in
  do* _ := recon_audit clock "ReconciliationException" exception_id None "OPEN"
    (dict [("resolution_tier", PStr tier); ("reason_code", PStr reason_code)]) in
  do* _ := recon_emit clock "reconciliation_exception.raised" "ReconciliationException" exception_id
    (dict [("record_id", PStr (rr_record_id record)); ("resolution_tier", PStr tier); ("reason_code", PStr reason_code);
           ("raised_at", PStr (isoformat now)); ("due_by", PStr (isoformat due_by))]) in
  match rr_delta_minor record with
  | Some delta => if AML_ESCALATION_DELTA_MINOR <? Z.abs delta then escalate clock row delta else eret row
  | None => eret row
  end.

(** ** Ingestion *)

Definition _record_row (record_id : string) (batch_id : option string) (line : NormalizedReconLine) (now : datetime) (match_status : string) :
    ReconciliationRecordRow :=
  mk_ReconciliationRecordRow record_id batch_id (nl_rail line) (nl_rail_transaction_id line) (nl_rail_amount_minor line)
    (nl_rail_direction line) (nl_rail_effective_date line) (nl_rail_merchant_ref line) (nl_raw_line_hash line) (nl_parse_failed line)
    (nl_parse_error line) match_status None None None now None (rc_producer R) 1.

Definition record_id_of (line : NormalizedReconLine) : res exn string :=
  make_id "recon" (dict [("raw_line_hash", PStr (nl_raw_line_hash line)); ("rail", PStr (nl_rail line))]).

(** The branches of [_ingest_line], by what the cascade answered. *)

Definition ingest_dead (clock : datetime) (record_id : string) (batch_id : option string) (line : NormalizedReconLine) (now : datetime)
    (report : ReconcileReport) : reff ReconcileReport :=
  let row := _record_row record_id batch_id line now "DEAD_LETTER" in
  do* _ := recon_put (insert_record row) in
  do* _ := recon_audit clock "ReconciliationRecord" record_id None "DEAD_LETTER"
    (dict [("parse_error", PStr (or_str (nl_parse_error line) "parse failed"))]) in
  do* _ := _raise_exception clock row "DEAD_LETTER" "PARSE_ERROR" None now in
  eret (one_dead report).

Definition matched_payload (batch_id : option string) (rail : string) (result : MatchResult) : pyobj :=
  dict [("batch_id", POpt batch_id); ("rail", PStr rail); ("match_level", POptZ (mr_match_level result));
        ("matched_instruction_id", POpt (mr_instruction_id result))].

Definition ingest_matched (clock : datetime) (record_id : string) (batch_id : option string) (line : NormalizedReconLine) (now : datetime)
    (result : MatchResult) (report : ReconcileReport) : reff ReconcileReport :=
  do* _ := on_recon (update_record record_id [R_match_status "MATCHED"; R_match_level (mr_match_level result);
    R_matched_instruction_id (mr_instruction_id result); R_matched_at (Some now)]) in
  do* _ := recon_audit clock "ReconciliationRecord" record_id (Some "INGESTED"%string) "MATCHED" (dict [("match_level", POptZ (mr_match_level result))]) in
  do* _ := recon_emit clock "reconciliation_record.matched" "ReconciliationRecord" record_id (matched_payload batch_id (nl_rail line) result) in
  eret (one_matched report).

Definition ingest_ambiguous (clock : datetime) (record_id : string) (now : datetime) (result : MatchResult) (report : ReconcileReport) :
    reff ReconcileReport :=
  do* updated := on_recon (update_record record_id [R_match_status "AMOUNT_MISMATCH"; R_match_level (mr_match_level result)]) in
  do* _ := recon_audit clock "ReconciliationRecord" record_id (Some "INGESTED"%string) "AMOUNT_MISMATCH"
    (dict [("candidates", PList (PStr <$> mr_candidates result))]) in
  do* _ := _raise_exception clock updated "FINANCE_QUEUE" "AMBIGUOUS_MATCH" None now in
  eret (one_ambiguous report).

Definition ingest_mismatch (clock : datetime) (record_id : string) (now : datetime) (result : MatchResult) (report : ReconcileReport) :
    reff ReconcileReport :=
  do* instruction := match mr_instruction_id result with
    | Some i => if truthy i then read_settle (get_instruction i) else eret None
    | None => eret None
    end in
  do* updated := on_recon (update_record record_id [R_match_status "AMOUNT_MISMATCH"; R_match_level (mr_match_level result);
    R_matched_instruction_id (mr_instruction_id result); R_delta_minor (mr_delta_minor result)]) in
  do* _ := recon_audit clock "ReconciliationRecord" record_id (Some "INGESTED"%string) "AMOUNT_MISMATCH"
    (dict [("delta_minor", POptZ (mr_delta_minor result))]) in
  do* _ := recon_emit clock "reconciliation_record.amount_mismatch" "ReconciliationRecord" record_id
    (dict [("matched_instruction_id", POpt (mr_instruction_id result)); ("delta_minor", POptZ (mr_delta_minor result))]) in
  do* _ := _raise_exception clock updated "FINANCE_QUEUE" "AMOUNT_MISMATCH" (si_net_payout_minor <$> instruction) now in
  eret (one_mismatch report).

Definition ingest_gap (clock : datetime) (record_id : string) (batch_id : option string) (line : NormalizedReconLine) (now : datetime)
    (report : ReconcileReport) : reff ReconcileReport :=
  do* updated := on_recon (update_record record_id [R_match_status "TIMING_GAP"]) in
  do* _ := recon_audit clock "ReconciliationRecord" record_id (Some "INGESTED"%string) "TIMING_GAP" (dict []) in
  do* _ := recon_emit clock "reconciliation_record.timing_gap" "ReconciliationRecord" record_id
    (dict [("batch_id", POpt batch_id); ("rail", PStr (nl_rail line)); ("rail_transaction_id", POpt (nl_rail_transaction_id line));
           ("ingested_at", PStr (isoformat now))]) in
  do* _ := _raise_exception clock updated "AUTO_TIMING_GAP" "TIMING_GAP" None now in
  eret (one_gap report).

Definition ingest_unmatched (clock : datetime) (record_id : string) (batch_id : option string) (line : NormalizedReconLine) (now : datetime)
    (report : ReconcileReport) : reff ReconcileReport :=
  do* updated := on_recon (update_record record_id [R_match_status "UNMATCHED"]) in
  do* _ := recon_audit clock "ReconciliationRecord" record_id (Some "INGESTED"%string) "UNMATCHED" (dict []) in
  do* _ := recon_emit clock "reconciliation_record.unmatched" "ReconciliationRecord" record_id
    (dict [("batch_id", POpt batch_id); ("rail", PStr (nl_rail line))]) in
  do* _ := _raise_exception clock updated "FINANCE_QUEUE" "TIMING_GAP_EXPIRED" None now in
  eret (one_unmatched report).

Definition ingest_result (clock : datetime) (record_id : string) (batch_id : option string) (line : NormalizedReconLine) (now : datetime)
    (result : MatchResult) (report : ReconcileReport) : reff ReconcileReport :=
  if String.eqb (mr_status result) "MATCHED" then ingest_matched clock record_id batch_id line now result report
  else if String.eqb (mr_status result) "AMOUNT_MISMATCH" && negb (bool_decide (mr_candidates result = [])) then
    ingest_ambiguous clock record_id now result report
  else if String.eqb (mr_status result) "AMOUNT_MISMATCH" then ingest_mismatch clock record_id now result report
  else if String.eqb (mr_status result) "TIMING_GAP" then ingest_gap clock record_id batch_id line now report
  else ingest_unmatched clock record_id batch_id line now report.

Definition _ingest_line (clock : datetime) (batch_id : option string) (line : NormalizedReconLine) (now : datetime) (report : ReconcileReport) :
    reff ReconcileReport :=
  do* record_id := elift (r_res (s_res (record_id_of line))) in
  do* existing := read_recon (get_record record_id) in
  match existing with
  | Some _ => eret report
  | None =>
      if nl_parse_failed line then ingest_dead clock record_id batch_id line now report
      else
        do* st := read_settle id in
        do* result := elift (_match_cascade st line now) in
        let row := _record_row record_id batch_id line now "INGESTED" in
        do* _ := recon_put (insert_record row) in
        do* _ := elift (_record_transition row "match_cascade_run" (mr_status result)) in
        ingest_result clock record_id batch_id line now result report
  end.

Fixpoint ingest_loop (clock : datetime) (batch_id : option string) (lines : list NormalizedReconLine) (now : datetime) (report : ReconcileReport) :
    reff ReconcileReport :=
  match lines with
  | [] => eret report
  | line :: r =>
      let report := one_line report in
      do* report := catching (_ingest_line clock batch_id line now report) (fun e => one_error (nl_raw_line_hash line) e report) in
      ingest_loop clock batch_id r now report
  end.

Definition ingest (clock : datetime) (batch_id : option string) (lines : list NormalizedReconLine) (now : option datetime) : reff ReconcileReport :=
  do* now := elift (recon_now_or now clock) in
  ingest_loop clock batch_id lines now empty_report.

(** ** The exception queue *)

Definition assign (clock : datetime) (exception_id operator_id : string) : reff ReconciliationExceptionRow :=
  do* row := _require_exception exception_id in
  do* _ := elift (_exception_transition row "assigned_to_finance" "IN_REVIEW") in
  do* updated := on_recon (update_exception exception_id [X_status "IN_REVIEW"; X_assigned_to (Some operator_id)]) in
  do* _ := recon_audit clock "ReconciliationException" exception_id (Some "OPEN"%string) "IN_REVIEW" (dict [("assigned", PBool true)]) in
  eret updated.

Definition line_of (record : ReconciliationRecordRow) : NormalizedReconLine :=
  mk_NormalizedReconLine (rr_rail record) (rr_rail_transaction_id record) (rr_rail_amount_minor record) (rr_rail_direction record)
    (rr_rail_effective_date record) (rr_rail_merchant_ref record) (rr_raw_line_hash record) false None.

(** [if exception is not None] after a late match. *)
Definition close_gap (clock now : datetime) (exception : ReconciliationExceptionRow) : reff unit :=
  do* _ := elift (_exception_transition exception "auto_timing_gap_resolved" "CLOSED") in
  do* _ := on_recon (update_exception (rx_exception_id exception)
    [X_status "CLOSED"; X_closed_at (Some now); X_notes (Some "TIMING_GAP_AUTO_RESOLVED"%string)]) in
  recon_audit clock "ReconciliationException" (rx_exception_id exception) (Some "OPEN"%string) "CLOSED"
    (dict [("reason", PStr "TIMING_GAP_AUTO_RESOLVED")]).

Definition retry_matched (clock now : datetime) (record : ReconciliationRecordRow) (exception : option ReconciliationExceptionRow)
    (result : MatchResult) : reff unit :=
  do* _ := elift (_record_transition record "auto_retry_match" "MATCHED") in
  do* _ := on_recon (update_record (rr_record_id record) [R_match_status "MATCHED"; R_match_level (mr_match_level result);
    R_matched_instruction_id (mr_instruction_id result); R_matched_at (Some now)]) in
  do* _ := recon_audit clock "ReconciliationRecord" (rr_record_id record) (Some "TIMING_GAP"%string) "MATCHED" (dict []) in
  do* _ := recon_emit clock "reconciliation_record.matched" "ReconciliationRecord" (rr_record_id record)
    (matched_payload (rr_batch_id record) (rr_rail record) result) in
  match exception with Some x => close_gap clock now x | None => eret tt end.

Definition retry_expired (clock : datetime) (record : ReconciliationRecordRow) (exception : option ReconciliationExceptionRow) : reff unit :=
  do* _ := elift (_record_transition record "timing_window_expired" "UNMATCHED") in
  do* _ := on_recon (update_record (rr_record_id record) [R_match_status "UNMATCHED"]) in
  do* _ := recon_audit clock "ReconciliationRecord" (rr_record_id record) (Some "TIMING_GAP"%string) "UNMATCHED" (dict []) in
  do* _ := recon_emit clock "reconciliation_record.unmatched" "ReconciliationRecord" (rr_record_id record)
    (dict [("batch_id", POpt (rr_batch_id record)); ("rail", PStr (rr_rail record))]) in
  match exception with
  | Some x =>
      do* _ := on_recon (update_exception (rx_exception_id x) [X_resolution_tier "FINANCE_QUEUE"; X_notes (Some "TIMING_GAP_EXPIRED"%string)]) in
      eret tt
  | None => eret tt
  end.

Definition retry_one (clock now : datetime) (record : ReconciliationRecordRow) (report : ReconcileReport) : reff ReconcileReport :=
  do* st := read_settle id in
  do* result := elift (_match_cascade st (line_of record) now) in
  do* exception := read_recon (find_exception_for_record (rr_record_id record)) in
  if String.eqb (mr_status result) "MATCHED" then
    do* _ := retry_matched clock now record exception result in
    eret (one_matched report)
  else
    match rr_rail_effective_date record with
    | None => elift (Err RAssertionError)
    | Some day =>
        if 2 <? age_in_business_days day now then
          do* _ := retry_expired clock record exception in
          eret (one_unmatched report)
        else eret (one_gap report)
    end.

Fixpoint retry_gaps_loop (clock now : datetime) (records : list ReconciliationRecordRow) (report : ReconcileReport) : reff ReconcileReport :=
  match records with
  | [] => eret report
  | record :: r =>
      do* report := retry_one clock now record (one_line report) in
      retry_gaps_loop clock now r report
  end.

Definition retry_timing_gaps (clock : datetime) (now : option datetime) : reff ReconcileReport :=
  do* now := elift (recon_now_or now clock) in
  do* records := read_recon (list_records None (Some "TIMING_GAP"%string)) in
  retry_gaps_loop clock now records empty_report.

(** ** Resolution *)

Definition resolution_key (exception_id action : string) : res exn string :=
  make_id "idem" (dict [("exception_id", PStr exception_id); ("action", PStr action)]).

(** The entry of a resolution: an unknown credit is parked in suspense, or suspense is
    written off to income. *)
Definition resolution_entry (exception_id action key : string) (amount_minor : Z) : JournalEntrySpec :=
  let transfer := String.eqb action "SUSPENSE_TRANSFER" in
  mk_JournalEntrySpec exception_id "ADJUSTMENT" (if transfer then "suspense_entry" else "suspense_cleared")
    ("reconciliation exception resolution: " +:+ action) (rc_producer R) key
    (if transfer then [posting (rc_tcsa_account_id R) "DEBIT" amount_minor; posting (rc_suspense_account_id R) "CREDIT" amount_minor]
     else [posting (rc_suspense_account_id R) "DEBIT" amount_minor; posting (rc_mdr_income_account_id R) "CREDIT" amount_minor]).

Definition _post_resolution_entry (clock : datetime) (exception_id action : string) (amount_minor : Z) : reff string :=
  do* key := elift (r_res (s_res (resolution_key exception_id action))) in
  r_ledger (fun s => post_journal_entry (rc_cfg R) s (resolution_entry exception_id action key amount_minor) clock).

(** The guards of a ledger action and its entry. *)
Definition ledger_action (clock : datetime) (exception_id action : string) (adjustment_amount_minor : option Z)
    (approval_request_id : option string) : reff string :=
  match adjustment_amount_minor with
  | None => elift (Err ReconciliationError)
  | Some amount =>
      refuse ReconciliationError when (amount <=? 0) else
      refuse ReconGuardError when ((RECON_ADJUSTMENT_APPROVAL_THRESHOLD_MINOR <? Z.abs amount) && bool_decide (approval_request_id = None)) else
      _post_resolution_entry clock exception_id action amount
  end.

(** The record of a resolved exception. *)
Definition resolve_record (clock now : datetime) (record : ReconciliationRecordRow) (record_outcome resolution_action : string) : reff unit :=
  do* _ := elift (_record_transition record "finance_resolved" record_outcome) in
  do* _ := on_recon (update_record (rr_record_id record)
    (R_match_status record_outcome :: (if String.eqb record_outcome "MATCHED" then [R_matched_at (Some now)] else []))) in
  recon_audit clock "ReconciliationRecord" (rr_record_id record) (Some (rr_match_status record)) record_outcome
    (dict [("resolution_action", PStr resolution_action)]).

Definition resolve (clock : datetime) (exception_id resolution_action resolved_by record_outcome : string)
    (adjustment_amount_minor : option Z) (approval_request_id notes supporting_ref : option string) (now : option datetime) :
    reff ReconciliationExceptionRow :=
  do* now := elift (recon_now_or now clock) in
  refuse ReconciliationError when (negb (str_in resolution_action RESOLUTION_ACTIONS)) else
  do* row := _require_exception exception_id in
  do* _ := elift (_exception_transition row (if String.eqb (rx_status row) "ESCALATED" then "camlco_resolved" else "resolved") "RESOLVED") in
  do* journal_entry_id := (if str_in resolution_action _LEDGER_ACTIONS then
    do* id := ledger_action clock exception_id resolution_action adjustment_amount_minor approval_request_id in eret (Some id)
    else eret None) in
  do* record := read_recon (get_record (rx_record_id row)) in
  do* _ := match record with
    | Some r => if str_in (rr_match_status r) ["UNMATCHED"; "AMOUNT_MISMATCH"] then resolve_record clock now r record_outcome resolution_action else eret tt
    | None => eret tt
    end in
  do* updated := on_recon (update_exception exception_id
    [X_status "RESOLVED"; X_resolved_at (Some now); X_resolution_action (Some resolution_action);
     X_adjustment_amount_minor adjustment_amount_minor; X_journal_entry_id journal_entry_id; X_approval_request_id approval_request_id;
     X_notes notes; X_supporting_ref supporting_ref; X_resolved_by (Some resolved_by)]) in
  do* _ := recon_audit clock "ReconciliationException" exception_id (Some (rx_status row)) "RESOLVED"
    (dict [("resolution_action", PStr resolution_action)]) in
  do* _ := recon_emit clock "reconciliation_exception.resolved" "ReconciliationException" exception_id
    (dict [("resolution_action", PStr resolution_action); ("journal_entry_id", POpt journal_entry_id); ("resolved_at", PStr (isoformat now))]) in
  eret updated.

(** ** Overdue exceptions *)

Fixpoint sla_loop (clock now : datetime) (rows : list ReconciliationExceptionRow) (breached : list string) : reff (list string) :=
  match rows with
  | [] => eret breached
  | row :: r =>
      do* late := elift (r_res (dt_sub now (rx_due_by row))) in
      if 0 <? late then
        do* _ := recon_emit clock "reconciliation_exception.sla_breached" "ReconciliationException" (rx_exception_id row)
          (dict [("resolution_tier", PStr (rx_resolution_tier row)); ("days_overdue", PInt (late / micros_per_day))]) in
        sla_loop clock now r (breached ++ [rx_exception_id row])
      else sla_loop clock now r breached
  end.

Definition sla_check (clock : datetime) (now : option datetime) : reff (list string) :=
  do* now := elift (recon_now_or now clock) in
  do* opened := read_recon (list_exceptions (Some "OPEN"%string) None) in
  do* breached := sla_loop clock now opened [] in
  do* reviewed := read_recon (list_exceptions (Some "IN_REVIEW"%string) None) in
  sla_loop clock now reviewed breached.
End ReconEngine.
