(* ===== verification/SettlementDemo.v ===== *)
(** A small settlement run for the witnesses: two merchants, a payout over the
    two-eyes threshold, the bank's confirmation. *)
From S2P Require Import Prelude Effects Rows Exceptions DateTime Sha256 Canonical Json LedgerTypes LedgerStore HashChain LedgerService LedgerOps Demo.
From S2P Require Import Fees Calendar Settlement SettlementEngine SettlementMoves SettlementTables SettlementBooks SettlementControls SettlementRelease SettlementStaging SettlementConfirm SettlementHandoff Tcsa.
Open Scope Z_scope.

#[local] Existing Instance quick_hash.

(** The host runs in UTC. *)
#[export] Instance utc_host : HostTz := {| host_utc := fun u => u |}.

Definition transit : string := match system_account_id "IN_TRANSIT" "beftn_transit" with Ok a => a | Err _ => "" end.
Definition tcsa : string := match system_account_id "SPONSOR_BANK_TCSA" "demo" with Ok a => a | Err _ => "" end.

Definition demo_engine : Engine :=
  mk_Engine demo_cfg (mk_Calendar [] 0 1 0) [("beftn_batch_v2"%string, transit)] merchant_settlement_id tcsa SETTLEMENT_PRODUCER.

Definition merchant_books (owner : string) : AccountSpec :=
  mk_AccountSpec "LIABILITY" "MERCHANT_SETTLEMENT" (Some owner) (Some "MERCHANT"%string) None (Some "settlement_main"%string) false "BDT".

Definition at_second (seconds : Z) : datetime := mk_datetime true (micros demo_clock + seconds * 1000000).

Definition settle_books : list (datetime * scall) :=
  (fun op => (demo_clock, OtherLedger op)) <$>
  [OpInitializeChain "MONEY" demo_clock; OpInitializeChain "AUDIT" demo_clock;
   OpCreateAccount (demo_account "ASSET" "IN_TRANSIT" "beftn_transit") demo_clock;
   OpCreateAccount (demo_account "ASSET" "SPONSOR_BANK_TCSA" "demo") demo_clock;
   OpCreateAccount (merchant_books "mer_1") demo_clock; OpCreateAccount (merchant_books "mer_2") demo_clock].

Definition payment (intent merchant : string) (amount fee : Z) (category : string) : SucceededPayment :=
  mk_SucceededPayment intent merchant amount fee "beftn_batch_v2" ("acct-" +:+ merchant) category demo_clock None None "CREDIT".

(** Two payments that may go out at once, one whose delivery is awaited. *)
Definition settle_intake : list (datetime * scall) :=
  settle_books ++ [(at_second 1, Register (payment "pi_1" "mer_1" 600000000 1000 "OTHER"));
    (at_second 2, Register (payment "pi_2" "mer_2" 20000 500 "OTHER"));
    (at_second 3, Register (payment "pi_3" "mer_2" 7000 0 "DIRECT_MERCHANT"))].

Definition settle_open : list (datetime * scall) := settle_intake ++ [(at_second 4, Assign None)].

Abbreviation at_settlement := (shistory demo_engine).

Definition first_batch (w : SWorld) : string := match ss_batches (sw_store w) with b :: _ => sb_batch_id b | [] => "" end.
Definition demo_batch : string := Eval vm_compute in first_batch (at_settlement settle_open).

Definition clear_gate : res sexn TcsaGateResult := Ok (mk_TcsaGateResult true (Some "tcsa_1"%string) 0 false).

Definition settle_ready : list (datetime * scall) :=
  settle_open ++ [(at_second 5, Cutoff demo_batch None); (at_second 6, Dispatch clear_gate demo_batch None);
    (at_second 7, Approve demo_batch "appr_1")].
Definition settle_dispatched : list (datetime * scall) := settle_ready ++ [(at_second 8, Dispatch clear_gate demo_batch None)].
Definition settle_confirmed : list (datetime * scall) :=
  settle_dispatched ++ [(at_second 9, BankConfirms demo_batch (Some "bank-ref"%string) [] None)].

Definition settle_view (w : SWorld) : list (string * Z * Z * bool) * list (string * Z) :=
  ((fun b => (sb_status b, sb_instruction_count b, sb_total_credit_minor b, sb_two_eyes_required b)) <$> ss_batches (sw_store w),
   (fun i => (si_status i, si_net_payout_minor i)) <$> ss_instructions (sw_store w)).

Example settle_views :
  (settle_view (at_settlement settle_open), settle_view (at_settlement settle_ready), settle_view (at_settlement settle_confirmed)) =
  (([("OPEN", 2, 600018500, true)], [("QUEUED", 599999000); ("QUEUED", 19500); ("QUEUED", 7000)]),
   ([("PENDING_DISPATCH", 2, 600018500, false)], [("QUEUED", 599999000); ("QUEUED", 19500); ("QUEUED", 7000)]),
   ([("CONFIRMED", 2, 600018500, false)], [("SETTLED", 599999000); ("SETTLED", 19500); ("QUEUED", 7000)]))%string.
Proof. vm_compute. reflexivity. Qed.

Definition is_dispatched (b : string) (s : SettlementStore) : bool :=
  match get_batch b s with Some r => String.eqb (sb_status r) "DISPATCHED" | None => false end.

Lemma dispatched_iff b s : dispatched b s <-> is_dispatched b s = true.
Proof.
  unfold dispatched, is_dispatched. split.
  - intros (r & -> & ->). apply String.eqb_refl.
  - destruct (get_batch b s) as [r|]; [|done]. intros He%String.eqb_eq. eauto.
Qed.

Lemma not_dispatched b s : is_dispatched b s = false -> ~ dispatched b s.
Proof. intros Hf Hd%dispatched_iff. congruence. Qed.

Lemma dispatch_needs_gate_and_second_eyes_witness :
  dispatched demo_batch (sw_store (sact demo_engine (at_settlement settle_ready) (at_second 8, Dispatch clear_gate demo_batch None))) /\
  exists r, get_batch demo_batch (sw_store (at_settlement settle_ready)) = Some r /\ sb_two_eyes_required r = false.
Proof.
  assert (Hd : dispatched demo_batch
    (sw_store (sact demo_engine (at_settlement settle_ready) (at_second 8, Dispatch clear_gate demo_batch None)))).
  { apply dispatched_iff. vm_compute. reflexivity. }
  assert (Hn : ~ dispatched demo_batch (sw_store (at_settlement settle_ready))).
  { apply not_dispatched. vm_compute. reflexivity. }
  assert (Ha : assigns_return demo_engine sstart settle_ready = true) by (vm_compute; reflexivity).
  split; [exact Hd|].
  destruct (dispatch_needs_gate_and_second_eyes demo_engine settle_ready (at_second 8) (Dispatch clear_gate demo_batch None)
    demo_batch Ha) as [Hdisp _].
  destruct (Hdisp Hd Hn) as (g & now & _ & _ & r & Hr & _ & He). exists r. split; [exact Hr|exact He].
Defined.

(** The queue of the assignment: the two payments that may go out come first. *)
Definition demo_queue : list SettlementInstructionRow :=
  list_instructions None (Some "QUEUED"%string) None true (sw_store (at_settlement settle_intake)).

Lemma assignment_releases_what_is_due_witness : exists ids w',
  assign_due_instructions demo_engine (at_second 4) None (at_settlement settle_intake) = (Ok ids, w') /\
  ids = (si_instruction_id <$> List.filter (is_releasable (at_second 4)) demo_queue) /\ length ids = 2%nat /\ length demo_queue = 3%nat.
Proof.
  assert (Hv : match (assign_due_instructions demo_engine (at_second 4) None (at_settlement settle_intake)).1 with
    Ok l => length l | Err _ => 0%nat end = 2%nat) by (vm_compute; reflexivity).
  destruct (assign_due_instructions demo_engine (at_second 4) None (at_settlement settle_intake)) as [[ids|e] w'] eqn:Ha; [|discriminate Hv].
  exists ids, w'. split; [reflexivity|].
  destruct (assignment_releases_what_is_due demo_engine settle_intake (at_second 4) None (at_second 4) ids w' Ha eq_refl) as [Hids _].
  split; [exact Hids|]. split; [exact Hv|vm_compute; reflexivity].
Defined.

(** ** Staging, hand-off, confirmation *)

Definition first_instruction (w : SWorld) : string := match ss_instructions (sw_store w) with i :: _ => si_instruction_id i | [] => "" end.
Definition demo_instruction : string := Eval vm_compute in first_instruction (at_settlement settle_open).

(** A fact about a row that was found, by evaluation. *)
Lemma found_row {A B} (f : A -> B) (o : option A) (x : A) (v : option B) : o = Some x -> f <$> o = v -> v = Some (f x).
Proof. by intros -> <-. Qed.

Lemma members_are_staged_witness : exists id, entry_posts (sw_led (at_settlement settle_open)) id transit "CREDIT" 599999000.
Proof.
  destruct (get_instruction demo_instruction (sw_store (at_settlement settle_open))) as [i|] eqn:Hi; [|vm_compute in Hi; discriminate Hi].
  pose proof (found_row si_batch_id _ _ (Some (Some demo_batch)) Hi ltac:(vm_compute; reflexivity)) as Hb. injection Hb as Hb.
  pose proof (found_row si_net_payout_minor _ _ (Some 599999000) Hi ltac:(vm_compute; reflexivity)) as Hn. injection Hn as Hn.
  pose proof (found_row si_rail _ _ (Some "beftn_batch_v2"%string) Hi ltac:(vm_compute; reflexivity)) as Hr. injection Hr as Hr.
  destruct (members_are_staged demo_engine settle_open demo_instruction i demo_batch Hi (eq_sym Hb))
    as (key & tr & id & je & _ & Ht & _ & _ & _ & _ & _ & Hc).
  exists id. rewrite <- Hn in Hc. rewrite <- Hr in Ht. injection Ht as <-. exact Hc.
Defined.

Lemma dispatch_hands_over_the_batch_witness : exists r h w',
  try_dispatch demo_engine (at_second 8) clear_gate demo_batch None (at_settlement settle_ready) = (Ok (r, Some h), w') /\
  bh_batch_id h = demo_batch /\ length (bh_entries h) = 2%nat.
Proof.
  assert (Hv : match (try_dispatch demo_engine (at_second 8) clear_gate demo_batch None (at_settlement settle_ready)).1 with
    Ok (_, Some _) => true | _ => false end = true) by (vm_compute; reflexivity).
  destruct (try_dispatch demo_engine (at_second 8) clear_gate demo_batch None (at_settlement settle_ready)) as [[[r [h|]]|e] w'] eqn:Hd;
    [|discriminate Hv..].
  exists r, h, w'. split; [reflexivity|].
  destruct (dispatch_hands_over_the_batch demo_engine settle_ready (at_second 8) clear_gate demo_batch None (at_second 8) r h w' Hd eq_refl)
    as (_ & Hid & _ & _ & Hlen & _).
  split; [exact Hid|]. rewrite Hlen. vm_compute. reflexivity.
Defined.

Lemma confirmation_settles_and_closes_witness : exists x w',
  confirm demo_engine (at_second 9) demo_batch (Some "bank-ref"%string) [] None (at_settlement settle_dispatched) = (Ok x, w') /\
  closed_in (sw_led w') demo_batch.
Proof.
  assert (Hv : is_ok (confirm demo_engine (at_second 9) demo_batch (Some "bank-ref"%string) [] None (at_settlement settle_dispatched)).1 = true)
    by (vm_compute; reflexivity).
  assert (Hst : sb_status <$> get_batch demo_batch (sw_store (at_settlement settle_dispatched)) = Some "DISPATCHED"%string)
    by (vm_compute; reflexivity).
  assert (Hn : length (submitted_of demo_batch (sw_store (at_settlement settle_dispatched))) = 2%nat) by (vm_compute; reflexivity).
  destruct (confirm demo_engine (at_second 9) demo_batch (Some "bank-ref"%string) [] None (at_settlement settle_dispatched)) as [[x|e] w'] eqn:Hc;
    [|discriminate Hv].
  exists x, w'. split; [reflexivity|].
  destruct (confirmation_settles_and_closes demo_engine settle_dispatched (at_second 9) demo_batch (Some "bank-ref"%string) [] None x w' Hc)
    as (r & r' & Hr & _ & _ & _ & _ & Hclose).
  rewrite Hr in Hst. injection Hst as Hst. apply Hclose; [exact Hst|]. intros He. rewrite He in Hn. discriminate Hn.
Defined.

(** A confirmation cut short: the close entry is refused, as the ledger's clock reads
    a naive time; the bank's reference is on record and nothing is settled. *)
Definition settle_cut_short : list (datetime * scall) :=
  settle_dispatched ++ [(mk_datetime false 0, BankConfirms demo_batch (Some "bank-ref"%string) [] (Some (at_second 9)))].

Lemma resume_completes_confirmations_witness : exists l w',
  resume_confirmations demo_engine (at_second 10) None (at_settlement settle_cut_short) = (Ok l, w') /\
  submitted_of demo_batch (sw_store w') = [] /\ length (submitted_of demo_batch (sw_store (at_settlement settle_cut_short))) = 2%nat.
Proof.
  assert (Hv : (let o := resume_confirmations demo_engine (at_second 10) None (at_settlement settle_cut_short) in
    (is_ok o.1, sb_status <$> get_batch demo_batch (sw_store o.2))) = (true, Some "CONFIRMED"%string)) by (vm_compute; reflexivity).
  assert (Hn : length (submitted_of demo_batch (sw_store (at_settlement settle_cut_short))) = 2%nat) by (vm_compute; reflexivity).
  cbv zeta in Hv.
  destruct (resume_confirmations demo_engine (at_second 10) None (at_settlement settle_cut_short)) as [[l|e] w'] eqn:Hr; [|discriminate Hv].
  exists l, w'. split; [reflexivity|]. split; [|exact Hn].
  destruct (resume_completes_confirmations demo_engine settle_cut_short (at_second 10) None l w' Hr) as [Hdone _].
  injection Hv as Hv. destruct (get_batch demo_batch (sw_store w')) as [r|] eqn:Hb; [|discriminate Hv].
  injection Hv as Hv. exact (Hdone demo_batch r Hb Hv).
Defined.

(** ** What the runs show *)

(** How the last call of a run ends, and the run's view. *)
Definition last_ends (calls : list (datetime * scall)) (clock : datetime) (c : scall) : option sexn :=
  match (sinvoke demo_engine clock c (at_settlement calls)).1 with Ok _ => None | Err e => Some e end.

(** A payment of the same day, after the cutoff of its session: the new batch would
    have the id of the old one, and the assignment raises. *)
Example late_payment_is_stuck :
  last_ends (settle_ready ++ [(at_second 8, Register (payment "pi_4" "mer_1" 9000 100 "OTHER"))]) (at_second 9) (Assign None) = Some SettlementError.
Proof. vm_compute. reflexivity. Qed.

(** A payment whose fee takes all of it is admitted; no entry of zero can be posted
    for it, and the payment behind it is not assigned either. *)
Example zero_payout_blocks_the_queue :
  let calls := settle_books ++ [(at_second 1, Register (payment "pi_1" "mer_1" 500 500 "OTHER"));
    (at_second 2, Register (payment "pi_2" "mer_2" 20000 500 "OTHER"))] in
  is_ok (sinvoke demo_engine (at_second 3) (Assign None) (at_settlement calls)).1 = false /\
  settle_view (at_settlement (calls ++ [(at_second 3, Assign None)])) = ([("OPEN"%string, 0, 0, false)], [("QUEUED"%string, 0); ("QUEUED"%string, 19500)]).
Proof. vm_compute. split; reflexivity. Qed.

(** A payout of more than the field holds: the batch is DISPATCHED and its member
    SUBMITTED when the hand-off raises, so no file leaves for the bank. *)
Example oversized_payout_is_dispatched_without_a_file :
  let calls := settle_books ++ [(at_second 1, Register (payment "pi_1" "mer_1" 10000000000 0 "OTHER")); (at_second 2, Assign None);
    (at_second 3, Cutoff demo_batch None); (at_second 4, Approve demo_batch "appr_1")] in
  last_ends calls (at_second 5) (Dispatch clear_gate demo_batch None) = Some BeftnFormatError /\
  settle_view (at_settlement (calls ++ [(at_second 5, Dispatch clear_gate demo_batch None)])) =
    ([("DISPATCHED"%string, 1, 10000000000, false)], [("SUBMITTED"%string, 10000000000)]).
Proof. vm_compute. split; reflexivity. Qed.

Definition demo_members : list string := Eval vm_compute in si_instruction_id <$> take 2 (ss_instructions (sw_store (at_settlement settle_open))).

(** The rail confirms each payout, then the bank the batch: all is settled and no
    close entry was ever posted. *)
Definition settle_by_rail : list (datetime * scall) :=
  settle_dispatched ++ ((fun i => (at_second 9, RailConfirmed i "tx" None)) <$> demo_members) ++
  [(at_second 10, BankConfirms demo_batch (Some "bank-ref"%string) [] None)].

Example settled_by_the_rail_is_never_closed :
  settle_view (at_settlement settle_by_rail) =
    ([("CONFIRMED"%string, 2, 600018500, false)], [("SETTLED"%string, 599999000); ("SETTLED"%string, 19500); ("QUEUED"%string, 7000)]) /\
  list_journal_entries_by_reference_and_type (sw_led (at_settlement settle_by_rail)) demo_batch "settlement_batch_close" = [].
Proof. vm_compute. split; reflexivity. Qed.

(** ** Behind the gate *)

Definition demo_monitor : Monitor := mk_Monitor demo_cfg "PSP" SLF_RATE_BPS_DEFAULT TCSA_PRODUCER true.

Abbreviation at_gate := (thistory demo_engine demo_monitor SNAPSHOT_MAX_AGE_SECONDS).

Definition gated_ready : list (datetime * tcall) :=
  ((fun a => (a.1, Settle a.2)) <$> settle_ready) ++ [(at_second 7, TakeSnapshot)].
Definition gated_dispatch : datetime * tcall := (at_second 8, Settle (Dispatch (Err STypeError) demo_batch None)).

Lemma payouts_need_a_covered_trust_account_witness : exists before t rest, gated_ready = before ++ (t, TakeSnapshot) :: rest /\
  covered "PSP" (t_led (at_gate before)).
Proof.
  assert (Hd : dispatched demo_batch (sw_store (tw_settle (tact demo_engine demo_monitor SNAPSHOT_MAX_AGE_SECONDS (at_gate gated_ready) gated_dispatch)))).
  { apply dispatched_iff. vm_compute. reflexivity. }
  assert (Hn : ~ dispatched demo_batch (sw_store (tw_settle (at_gate gated_ready)))).
  { apply not_dispatched. vm_compute. reflexivity. }
  destruct (payouts_need_a_covered_trust_account demo_engine demo_monitor SNAPSHOT_MAX_AGE_SECONDS gated_ready (at_second 8)
    (Settle (Dispatch (Err STypeError) demo_batch None)) demo_batch Hd Hn) as (before & t & rest & Hc & Hcov & _).
  exists before, t, rest. split; [exact Hc|exact Hcov].
Defined.

(** Without a run of the monitor every dispatch ends in HELD. *)
Example no_monitor_holds_every_batch :
  sb_status <$> get_batch demo_batch (sw_store (tw_settle (at_gate (((fun a => (a.1, Settle a.2)) <$> settle_ready) ++ [gated_dispatch])))) =
  Some "HELD"%string.
Proof. vm_compute. reflexivity. Qed.
