(* ===== verification/ReconFacts.v ===== *)
(** Reconciliation, in every history with the settlement engine: the two transition
    tables are followed, an automatic match is exact, an adjustment is approved and in
    the books, and no line of a file is lost. *)
From S2P Require Import Prelude Effects Rows Exceptions DateTime Sha256 Canonical Json LedgerTypes LedgerStore HashChain LedgerService LedgerCommit ChainInvariant JournalCommit LedgerInvariant LedgerOps LedgerHistory Demo.
From S2P Require Import Fees Calendar Settlement SettlementEngine SettlementMoves SettlementTables SettlementStaging Recon SettlementDemo.
Open Scope Z_scope.

(** * The machine *)

Inductive rcall : Type :=
| Ingest (batch_id : option string) (lines : list NormalizedReconLine) (now : option datetime)
| AssignTo (exception_id operator_id : string)
| RetryGaps (now : option datetime)
| Resolve (exception_id resolution_action resolved_by record_outcome : string) (adjustment_amount_minor : option Z)
    (approval_request_id notes supporting_ref : option string) (now : option datetime)
| SlaCheck (now : option datetime)
| Settling (c : scall).                        (* the settlement engine, or another user of the ledger *)

Section Machine.
Context `{HashFn} `{CheckpointSigner} `{Redactor} `{DhakaTz} `{HostTz} (E : Engine) (R : ReconEngine).

Definition discard {A} (c : reff A) : reff unit := do* _ := c in eret tt.

Definition rinvoke (clock : datetime) (c : rcall) : reff unit :=
  match c with
  | Ingest b lines now => discard (ingest R clock b lines now)
  | AssignTo x op => discard (assign R clock x op)
  | RetryGaps now => discard (retry_timing_gaps R clock now)
  | Resolve x action who outcome amount approval notes ref now => discard (resolve R clock x action who outcome amount approval notes ref now)
  | SlaCheck now => discard (sla_check R clock now)
  | Settling c => fun w => (Ok tt, mk_RWorld (rw_store w) (sact E (rw_settle w) (clock, c)) (rw_raised w))
  end.

Definition ract (w : RWorld) (a : datetime * rcall) : RWorld := (rinvoke a.1 a.2 w).2.
Definition rstart : RWorld := mk_RWorld empty_recon sstart 0.
Definition rhistory (calls : list (datetime * rcall)) : RWorld := foldl ract rstart calls.
End Machine.

(** * The store *)

Section Stores.
Implicit Types (s : ReconStore).

Lemma get_record_id k s r : get_record k s = Some r -> rr_record_id r = k.
Proof. intros [_ Hk]%find_Some. by apply has_key_iff in Hk. Qed.
Lemma get_exception_id k s r : get_exception k s = Some r -> rx_exception_id r = k.
Proof. intros [_ Hk]%find_Some. by apply has_key_iff in Hk. Qed.

(** The columns outside the white lists. *)
Definition record_core (r : ReconciliationRecordRow) :=
  (rr_record_id r, rr_batch_id r, rr_rail r, rr_rail_transaction_id r, rr_rail_amount_minor r, rr_rail_direction r, rr_rail_effective_date r,
   rr_rail_merchant_ref r, rr_raw_line_hash r, rr_parse_failed r, rr_parse_error r, rr_ingested_at r).
Definition exception_core (x : ReconciliationExceptionRow) :=
  (rx_exception_id x, rx_record_id x, rx_reason_code x, rx_rail_amount_minor x, rx_internal_amount_minor x, rx_delta_minor x, rx_raised_at x, rx_due_by x).

Lemma record_replaces_core cs r : record_core (foldl record_replace r cs) = record_core r.
Proof. revert r. induction cs as [|c cs IH]; intros r; [done|]. cbn [foldl]. rewrite IH. by destruct c. Qed.
Lemma exception_replaces_core cs x : exception_core (foldl exception_replace x cs) = exception_core x.
Proof. revert x. induction cs as [|c cs IH]; intros x; [done|]. cbn [foldl]. rewrite IH. by destruct c. Qed.
Lemma record_replaces_id cs r : rr_record_id (foldl record_replace r cs) = rr_record_id r.
Proof. pose proof (record_replaces_core cs r) as Hc. unfold record_core in Hc. congruence. Qed.
Lemma exception_replaces_id cs x : rx_exception_id (foldl exception_replace x cs) = rx_exception_id x.
Proof. pose proof (exception_replaces_core cs x) as Hc. unfold exception_core in Hc. congruence. Qed.

Lemma update_record_Ok k cs s r s' : update_record k cs s = Ok (r, s') ->
  exists row, get_record k s = Some row /\ r = foldl record_replace row cs /\ s' = put_record r s.
Proof. unfold update_record, _checked. destruct (get_record k s) as [row|]; [|done]. intros Hu. inv_res. eauto. Qed.
Lemma update_exception_Ok k cs s r s' : update_exception k cs s = Ok (r, s') ->
  exists row, get_exception k s = Some row /\ r = foldl exception_replace row cs /\ s' = put_exception r s.
Proof. unfold update_exception, _checked. destruct (get_exception k s) as [row|]; [|done]. intros Hu. inv_res. eauto. Qed.

Lemma insert_record_Ok r s s' : insert_record r s = Ok s' ->
  get_record (rr_record_id r) s = None /\ s' = mk_ReconStore (rs_records s ++ [r]) (rs_exceptions s).
Proof. unfold insert_record. intros Hi. inv_res. bool_prop. split; [by apply eq_None_not_Some|done]. Qed.
Lemma insert_exception_Ok r s s' : insert_exception r s = Ok s' ->
  get_exception (rx_exception_id r) s = None /\ s' = mk_ReconStore (rs_records s) (rs_exceptions s ++ [r]).
Proof. unfold insert_exception. intros Hi. inv_res. bool_prop. split; [by apply eq_None_not_Some|done]. Qed.
End Stores.

(** Keyed lists: overwriting the row of a key, and a row with a new key. *)
Section Keyed.
Context {A} (key : A -> string) (step : A -> A -> Prop) (born : A -> Prop) `{!PreOrder step}.
Abbreviation at_key l := (fun k => List.find (has_key key k) l).

Lemma evolve_put r r' l : at_key l (key r') = Some r -> step r r' ->
  rows_evolve step born (at_key l) (at_key (replace_row key (key r') (fun _ => r') l)).
Proof using PreOrder0.
  intros Hg Hs k. cbn. rewrite find_put. destruct (List.find (has_key key k) l) as [x|] eqn:Hx; [|done]. cbn.
  destruct (String.eqb_spec (key r') k) as [Hk|Hk]; [|by exists x]. subst k. simplify_eq. by exists r'.
Qed.

Lemma evolve_snoc r l : at_key l (key r) = None -> born r -> rows_evolve step born (at_key l) (at_key (l ++ [r])).
Proof using PreOrder0.
  intros Hn Hb k. cbn. rewrite find_snoc. destruct (List.find (has_key key k) l) as [x|] eqn:Hx; [by exists x|].
  intros r'. destruct (has_key key k r) eqn:Hk; [by intros [= <-]|done].
Qed.

Lemma keys_snoc r l : NoDup (key <$> l) -> at_key l (key r) = None -> NoDup (key <$> (l ++ [r])).
Proof using.
  intros Hn Hf. apply NoDup_fmap_snoc; [done|]. intros y Hy Hk. eapply find_None in Hf; [|exact Hy].
  apply not_true_iff_false in Hf. by rewrite has_key_iff in Hf.
Qed.
End Keyed.

(** * Moves *)

Definition record_edge : string -> string -> Prop := edge_in RECORD_TRANSITIONS.
Definition exception_edge : string -> string -> Prop := edge_in EXCEPTION_TRANSITIONS.

(** The record names this instruction, whose direction is the line's; the line says [amount]. *)
Definition names (st : SettlementStore) (r : ReconciliationRecordRow) (row : SettlementInstructionRow) (amount : Z) : Prop :=
  row ∈ ss_instructions st /\ rr_matched_instruction_id r = Some (si_instruction_id row) /\ rr_rail_amount_minor r = Some amount /\
  (forall d, rr_rail_direction r = Some d -> si_direction row = d).

(** It pays what the line says, or the difference is on record. *)
Definition exact (st : SettlementStore) (r : ReconciliationRecordRow) : Prop :=
  rr_delta_minor r = None /\ exists row, names st r row (si_net_payout_minor row).
Definition off_by (st : SettlementStore) (r : ReconciliationRecordRow) : Prop :=
  exists row amount, names st r row amount /\ rr_delta_minor r = Some (amount - si_net_payout_minor row) /\ amount <> si_net_payout_minor row.

Definition record_sound (st : SettlementStore) (r : ReconciliationRecordRow) : Prop :=
  match rr_matched_instruction_id r with
  | None => rr_delta_minor r = None
  | Some _ => exact st r /\ rr_match_status r = "MATCHED"%string \/
              off_by st r /\ rr_match_status r ∈ ["AMOUNT_MISMATCH"; "MATCHED"; "DEAD_LETTER"]%string
  end.

(** [fin]: the records a finance resolution is about. *)
Record record_step (st : SettlementStore) (fin : string -> Prop) (r r' : ReconciliationRecordRow) : Prop := {
  rs_status : rtc record_edge (rr_match_status r) (rr_match_status r');
  rs_core : record_core r' = record_core r;
  rs_sound : record_sound st r -> record_sound st r';
  rs_exact : exact st r -> exact st r';
  rs_matched : rr_match_status r' = "MATCHED"%string -> rr_match_status r = "MATCHED"%string \/ exact st r' \/ fin (rr_record_id r')
}.

Record record_born (st : SettlementStore) (fin : string -> Prop) (r : ReconciliationRecordRow) : Prop := {
  rb_status : rtc record_edge "INGESTED" (rr_match_status r);
  rb_sound : record_sound st r;
  rb_matched : rr_match_status r = "MATCHED"%string -> exact st r \/ fin (rr_record_id r)
}.

#[export] Instance record_step_preorder st fin : PreOrder (record_step st fin).
Proof.
  split; [by intros r; split; auto|]. intros a b c [S1 C1 J1 X1 M1] [S2 C2 J2 X2 M2]. split; [by etrans|congruence|auto..].
  intros Hc. destruct (M2 Hc) as [Hb|[?|?]]; [|by auto..]. destruct (M1 Hb) as [?|[?|Hf]]; [by auto..|].
  right; right. unfold record_core in C2. by replace (rr_record_id c) with (rr_record_id b) by congruence.
Qed.

Lemma record_born_step st fin r r' : record_born st fin r -> record_step st fin r r' -> record_born st fin r'.
Proof.
  intros [S1 J1 M1] [S2 C2 J2 X2 M2]. split; [by etrans|by auto|]. intros Hm. destruct (M2 Hm) as [Hr|[?|?]]; [|by auto..].
  destruct (M1 Hr) as [?|?]; [by auto|]. right. unfold record_core in C2. by replace (rr_record_id r') with (rr_record_id r) by congruence.
Qed.

Section Facts.
Context `{HashFn} `{CheckpointSigner} `{Redactor} `{DhakaTz} `{HostTz} (E : Engine) (R : ReconEngine).

(** A resolution that moved money: the amount is positive, has an approval above the
    threshold, and the ledger holds the entry that is on record. *)
Definition adjusted (led : Store) (x : ReconciliationExceptionRow) : Prop :=
  rx_status x = "RESOLVED"%string -> forall action, rx_resolution_action x = Some action -> str_in action _LEDGER_ACTIONS = true ->
  exists amount key, rx_adjustment_amount_minor x = Some amount /\ 0 < amount /\
    (RECON_ADJUSTMENT_APPROVAL_THRESHOLD_MINOR < amount -> is_Some (rx_approval_request_id x)) /\
    resolution_key (rx_exception_id x) action = Ok key /\ recorded led (resolution_entry R (rx_exception_id x) action key amount) /\
    s_journal_by_idem led !! key = rx_journal_entry_id x.

Record exception_step (led : Store) (x x' : ReconciliationExceptionRow) : Prop := {
  xs_status : rtc exception_edge (rx_status x) (rx_status x');
  xs_core : exception_core x' = exception_core x;
  xs_adjusted : forall led', extends led led' -> adjusted led' x -> adjusted led' x'
}.
Record exception_born (led : Store) (x : ReconciliationExceptionRow) : Prop := {
  xb_status : rtc exception_edge "OPEN" (rx_status x);
  xb_adjusted : forall led', extends led led' -> adjusted led' x
}.

#[local] Instance exception_step_preorder led : PreOrder (exception_step led).
Proof. split; [by intros x|]. intros a b c [S1 C1 A1] [S2 C2 A2]. split; [by etrans|congruence|auto]. Qed.

Lemma exception_born_step led x x' : exception_born led x -> exception_step led x x' -> exception_born led x'.
Proof. intros [S1 A1] [S2 C2 A2]. split; [by etrans|auto]. Qed.
Lemma exception_step_later led led' x x' : extends led led' -> exception_step led x x' -> exception_step led' x x'.
Proof. intros He [S1 C1 A1]. split; [done..|]. intros l Hl. apply A1. by etrans. Qed.
Lemma exception_born_later led led' x : extends led led' -> exception_born led x -> exception_born led' x.
Proof. intros He [S1 A1]. split; [done|]. intros l Hl. apply A1. by etrans. Qed.

Definition runique (s : ReconStore) : Prop := NoDup (rr_record_id <$> rs_records s) /\ NoDup (rx_exception_id <$> rs_exceptions s).

Abbreviation st_of w := (sw_store (rw_settle w)).
Abbreviation led_of w := (sw_led (rw_settle w)).
Abbreviation rec_of w := (fun k => get_record k (rw_store w)).
Abbreviation exc_of w := (fun k => get_exception k (rw_store w)).

Record recon_evolves (fin : string -> Prop) (w w' : RWorld) : Prop := {
  re_unique : runique (rw_store w');
  re_settle : st_of w' = st_of w;
  re_ledger : extends (led_of w) (led_of w');
  re_records : rows_evolve (record_step (st_of w) fin) (record_born (st_of w) fin) (rec_of w) (rec_of w');
  re_exceptions : rows_evolve (exception_step (led_of w')) (exception_born (led_of w')) (exc_of w) (exc_of w')
}.

Definition all_sound (w : RWorld) : Prop := forall k r, get_record k (rw_store w) = Some r -> record_sound (st_of w) r.

Definition rmoves (fin : string -> Prop) (w w' : RWorld) : Prop := runique (rw_store w) -> all_sound w -> recon_evolves fin w w'.

Lemma evolves_sound fin w w' : all_sound w -> recon_evolves fin w w' -> all_sound w'.
Proof.
  intros Hs [_ Ht _ Hr _] k r Hg. rewrite Ht. specialize (Hr k). cbn in Hr. destruct (get_record k (rw_store w)) as [r0|] eqn:Hr0.
  - destruct Hr as (r' & Hr' & Hst). simplify_eq. by eapply rs_sound, Hs.
  - by eapply rb_sound, Hr.
Qed.

Lemma rows_evolve_weaken {A} (step step' : A -> A -> Prop) (born born' : A -> Prop) f f' :
  (forall r r', step r r' -> step' r r') -> (forall r, born r -> born' r) -> rows_evolve step born f f' -> rows_evolve step' born' f f'.
Proof.
  intros Hs Hb Hr k. specialize (Hr k). destruct (f k) as [r|]; [|by auto]. destruct Hr as (r' & Hr' & Hst). exists r'. auto.
Qed.

#[local] Instance rmoves_preorder fin : PreOrder (rmoves fin).
Proof.
  split.
  - intros w Hu _. split; [done..|apply rows_evolve_refl, _|apply rows_evolve_refl, _].
  - intros w1 w2 w3 H12 H23 Hu Hs. pose proof (evolves_sound _ _ _ Hs (H12 Hu Hs)) as Hs2.
    destruct (H12 Hu Hs) as [U2 S2 L2 R2 X2]. destruct (H23 U2 Hs2) as [U3 S3 L3 R3 X3]. rewrite S2 in R3.
    split; [done|congruence|by etrans| |].
    + eapply (rows_evolve_trans _ _ (record_born_step _ _)); [exact R2|exact R3].
    + eapply (rows_evolve_trans _ _ (exception_born_step _)); [|exact X3].
      eapply rows_evolve_weaken; [| |exact X2]; [intros; by eapply exception_step_later|intros; by eapply exception_born_later].
Qed.

(** ** The cascade *)

(** The instruction a line is about. *)
Definition line_names (st : SettlementStore) (line : NormalizedReconLine) (row : SettlementInstructionRow) (amount : Z) : Prop :=
  row ∈ ss_instructions st /\ nl_rail_amount_minor line = Some amount /\ (forall d, nl_rail_direction line = Some d -> si_direction row = d).

Inductive verdict (st : SettlementStore) (line : NormalizedReconLine) : MatchResult -> Prop :=
| VMatched row level : line_names st line row (si_net_payout_minor row) ->
    verdict st line (mk_MatchResult "MATCHED" (Some (si_instruction_id row)) (Some level) None [])
| VMismatch row amount : line_names st line row amount -> amount <> si_net_payout_minor row ->
    verdict st line (mk_MatchResult "AMOUNT_MISMATCH" (Some (si_instruction_id row)) (Some 1) (Some (amount - si_net_payout_minor row)) [])
| VAmbiguous c1 c2 cs : verdict st line (mk_MatchResult "AMOUNT_MISMATCH" None (Some 2) None (c1 :: c2 :: cs))
| VGap : verdict st line (mk_MatchResult "TIMING_GAP" None None None [])
| VUnmatched : verdict st line (mk_MatchResult "UNMATCHED" None None None []).

Lemma direction_ok direction (row : SettlementInstructionRow) :
  match direction with None => true | Some d => String.eqb (si_direction row) d end = true -> forall d, direction = Some d -> si_direction row = d.
Proof. intros Hd d ->. by apply String.eqb_eq. Qed.

Lemma fuzzy_verdict st line now res : fuzzy_match R st line now = Ok res -> verdict st line res.
Proof.
  unfold fuzzy_match. destruct (nl_rail_effective_date line) as [day|]; [|done]. destruct (nl_rail_amount_minor line) as [amount|] eqn:Ha; [|done].
  intros Hm. inv_res. match type of Hm with context [find_instructions_for_match ?a ?b ?c ?d ?e ?s] => set (l := find_instructions_for_match a b c d e s) in Hm;
    assert (Hl : forall x, x ∈ l -> x ∈ find_instructions_for_match a b c d e s) by done; clearbody l end.
  destruct l as [|c [|c' cs]]; inv_res.
  - destruct (_ <=? _); constructor.
  - pose proof (Hl c (list_elem_of_here _ _)) as Hin. apply list_elem_of_In, filter_In in Hin as [Hin Hf]. bool_prop. constructor. split_and!; [by apply list_elem_of_In| |by apply direction_ok].
    congruence.
  - apply VAmbiguous.
Qed.

Lemma cascade_verdict st line now res : _match_cascade R st line now = Ok res -> verdict st line res.
Proof.
  unfold _match_cascade. destruct (nl_rail_transaction_id line ≫= _) as [row|] eqn:Hf; [|apply fuzzy_verdict].
  destruct (nl_rail_transaction_id line) as [txid|]; [|done]. cbn in Hf. apply find_Some in Hf as [Hin Hq]. bool_prop.
  destruct (nl_rail_amount_minor line) as [amount|] eqn:Ha; [|done]. destruct (Z.eqb_spec (si_net_payout_minor row) amount) as [He|He]; intros [= <-].
  - constructor. split_and!; [done|congruence|by apply direction_ok].
  - constructor; [|done]. split_and!; [done..|by apply direction_ok].
Qed.

(** ** Steps of the world *)

Definition rquiet (w w' : RWorld) : Prop := rw_store w' = rw_store w /\ st_of w' = st_of w /\ extends (led_of w) (led_of w').
#[local] Instance rquiet_preorder : PreOrder rquiet.
Proof. split; unfold rquiet; [done|]. intros w1 w2 w3 (A1 & B1 & C1) (A2 & B2 & C2). split_and!; [congruence..|by etrans]. Qed.

Lemma rquiet_moves fin w w' : rquiet w w' -> rmoves fin w w'.
Proof.
  intros (Hs & Ht & Hl) Hu _. split; [by rewrite Hs|done..|rewrite Hs; apply rows_evolve_refl, _|rewrite Hs; apply rows_evolve_refl, _].
Qed.

Lemma r_ledger_quiet {A} (f : Store -> LedgerStore.outcome A) : (forall s, extends s (f s).2) -> within rquiet (r_ledger f).
Proof. intros Hf w. unfold r_ledger. specialize (Hf (led_of w)). by destruct (f (led_of w)). Qed.
Lemma recon_audit_quiet clock ty id f t d : within rquiet (recon_audit R clock ty id f t d).
Proof. apply within_bind; [apply _|apply r_ledger_quiet; intros; apply write_audit_event_extends|intros; apply within_ret, _]. Qed.
Lemma recon_emit_quiet clock et ty id p : within rquiet (recon_emit R clock et ty id p).
Proof. apply within_bind; [apply _|apply r_ledger_quiet; intros; apply emit_event_extends|intros; apply within_ret, _]. Qed.
Lemma count_raised_quiet m : within rquiet (count_raised m).
Proof. intros w. unfold count_raised. by destruct m. Qed.

Lemma post_quiet clock x action amount : within rquiet (_post_resolution_entry R clock x action amount).
Proof.
  unfold _post_resolution_entry. apply within_bind_lift; [apply _|]. intros key _. apply r_ledger_quiet.
  intros s. exact (run_extends (rc_cfg R) s (OpPostJournalEntry _ _)).
Qed.

(** ** Writes *)

Lemma update_record_moves fin k cs w r : get_record k (rw_store w) = Some r ->
  record_step (st_of w) fin r (foldl record_replace r cs) -> from w (rmoves fin) (on_recon (update_record k cs)).
Proof.
  intros Hg Hs Hu Hj. unfold on_recon. destruct (update_record k cs (rw_store w)) as [[x s']|e] eqn:Hx; [|by apply (rquiet_moves fin w w)].
  apply update_record_Ok in Hx as (r0 & Hg' & -> & ->). simplify_eq. destruct Hu as [Ur Ux]. cbn [snd]. split; cbn [rw_store rw_settle put_record rs_records rs_exceptions].
  - split; [cbn; by rewrite put_keys|done].
  - done.
  - done.
  - refine (evolve_put rr_record_id _ _ r (foldl record_replace r cs) (rs_records (rw_store w)) _ Hs). by rewrite record_replaces_id, (get_record_id _ _ _ Hg).
  - apply rows_evolve_refl, _.
Qed.

Lemma update_exception_moves fin k cs w x : get_exception k (rw_store w) = Some x ->
  exception_step (led_of w) x (foldl exception_replace x cs) -> from w (rmoves fin) (on_recon (update_exception k cs)).
Proof.
  intros Hg Hs Hu Hj. unfold on_recon. destruct (update_exception k cs (rw_store w)) as [[y s']|e] eqn:Hx; [|by apply (rquiet_moves fin w w)].
  apply update_exception_Ok in Hx as (r0 & Hg' & -> & ->). simplify_eq. destruct Hu as [Ur Ux]. cbn [snd]. split; cbn [rw_store rw_settle put_exception rs_records rs_exceptions].
  - split; [done|cbn; by rewrite put_keys].
  - done.
  - done.
  - apply rows_evolve_refl, _.
  - refine (evolve_put rx_exception_id _ _ x (foldl exception_replace x cs) (rs_exceptions (rw_store w)) _ Hs). by rewrite exception_replaces_id, (get_exception_id _ _ _ Hg).
Qed.

Lemma insert_record_moves fin r w : record_born (st_of w) fin r -> from w (rmoves fin) (recon_put (insert_record r)).
Proof.
  intros Hb Hu Hj. unfold recon_put, on_recon. destruct (insert_record r (rw_store w)) as [s'|e] eqn:Hx; cbn [rbind]; [|by apply (rquiet_moves fin w w)].
  apply insert_record_Ok in Hx as [Hn ->]. destruct Hu as [Ur Ux]. cbn [snd]. split; cbn [rw_store rw_settle rs_records rs_exceptions].
  - split; [exact (keys_snoc rr_record_id _ _ Ur Hn)|done].
  - done.
  - done.
  - exact (evolve_snoc rr_record_id _ _ r (rs_records (rw_store w)) Hn Hb).
  - apply rows_evolve_refl, _.
Qed.

Lemma insert_exception_moves fin x w : exception_born (led_of w) x -> from w (rmoves fin) (recon_put (insert_exception x)).
Proof.
  intros Hb Hu Hj. unfold recon_put, on_recon. destruct (insert_exception x (rw_store w)) as [s'|e] eqn:Hx; cbn [rbind]; [|by apply (rquiet_moves fin w w)].
  apply insert_exception_Ok in Hx as [Hn ->]. destruct Hu as [Ur Ux]. cbn [snd]. split; cbn [rw_store rw_settle rs_records rs_exceptions].
  - split; [done|exact (keys_snoc rx_exception_id _ _ Ux Hn)].
  - done.
  - done.
  - apply rows_evolve_refl, _.
  - exact (evolve_snoc rx_exception_id _ _ x (rs_exceptions (rw_store w)) Hn Hb).
Qed.

(** ** Sequencing *)

Lemma from_r_quiet {A B} fin (c : reff A) (k : A -> reff B) w :
  within rquiet c -> (forall a w', rquiet w w' -> from w' (rmoves fin) (k a)) -> from w (rmoves fin) (ebind c k).
Proof.
  intros Hq Hk. apply from_bind; [apply _|apply rquiet_moves, Hq|]. intros a w' Hc. apply Hk. specialize (Hq w). by rewrite Hc in Hq.
Qed.

Lemma from_r_end {A} fin (c : reff A) w : within rquiet c -> from w (rmoves fin) c.
Proof. intros Hq. apply rquiet_moves, Hq. Qed.

Lemma from_read_recon {A B} (P : RWorld -> RWorld -> Prop) (f : ReconStore -> A) (k : A -> reff B) w : from w P (k (f (rw_store w))) -> from w P (ebind (read_recon f) k).
Proof. done. Qed.
Lemma from_read_settle {A B} (P : RWorld -> RWorld -> Prop) (f : SettlementStore -> A) (k : A -> reff B) w : from w P (k (f (st_of w))) -> from w P (ebind (read_settle f) k).
Proof. done. Qed.

Lemma from_require {B} fin x (k : ReconciliationExceptionRow -> reff B) w :
  (forall row, get_exception x (rw_store w) = Some row -> from w (rmoves fin) (k row)) -> from w (rmoves fin) (ebind (_require_exception x) k).
Proof.
  intros Hk. unfold from, _require_exception, read_recon. rewrite !ebind_eq. cbn.
  destruct (get_exception x (rw_store w)); [by apply Hk|by apply (rquiet_moves fin w w)].
Qed.

Lemma from_r_update_record {B} fin k cs (K : ReconciliationRecordRow -> reff B) w r : get_record k (rw_store w) = Some r ->
  record_step (st_of w) fin r (foldl record_replace r cs) ->
  (forall w', st_of w' = st_of w -> rs_exceptions (rw_store w') = rs_exceptions (rw_store w) -> led_of w' = led_of w ->
     from w' (rmoves fin) (K (foldl record_replace r cs))) ->
  from w (rmoves fin) (ebind (on_recon (update_record k cs)) K).
Proof.
  intros Hg Hs HK. apply from_bind; [apply _|by eapply update_record_moves|]. intros a w' Hc. unfold on_recon in Hc.
  destruct (update_record k cs (rw_store w)) as [[x s']|e] eqn:Hx; [|done]. injection Hc as <- <-.
  apply update_record_Ok in Hx as (r0 & Hg' & -> & ->). simplify_eq. by apply HK.
Qed.

Lemma from_r_update_exception {B} fin k cs (K : ReconciliationExceptionRow -> reff B) w x : get_exception k (rw_store w) = Some x ->
  exception_step (led_of w) x (foldl exception_replace x cs) -> (forall y w', from w' (rmoves fin) (K y)) ->
  from w (rmoves fin) (ebind (on_recon (update_exception k cs)) K).
Proof. intros Hg Hs HK. apply from_bind; [apply _|by eapply update_exception_moves|]. auto. Qed.

Lemma from_r_insert_record {B} fin r (K : unit -> reff B) w : record_born (st_of w) fin r ->
  (forall w', st_of w' = st_of w -> get_record (rr_record_id r) (rw_store w') = Some r -> from w' (rmoves fin) (K tt)) ->
  from w (rmoves fin) (ebind (recon_put (insert_record r)) K).
Proof.
  intros Hb HK. apply from_bind; [apply _|by apply insert_record_moves|]. intros [] w' Hc. unfold recon_put, on_recon in Hc.
  destruct (insert_record r (rw_store w)) as [s'|e] eqn:Hx; cbn [rbind] in Hc; [|done]. injection Hc as <-. apply insert_record_Ok in Hx as [Hn ->].
  apply HK; [done|]. unfold get_record in *. cbn [rw_store rs_records]. rewrite find_snoc, Hn. unfold has_key. by rewrite String.eqb_refl.
Qed.

Lemma from_r_insert_exception {B} fin x (K : unit -> reff B) w : exception_born (led_of w) x ->
  (forall w', get_exception (rx_exception_id x) (rw_store w') = Some x -> from w' (rmoves fin) (K tt)) ->
  from w (rmoves fin) (ebind (recon_put (insert_exception x)) K).
Proof.
  intros Hb HK. apply from_bind; [apply _|by apply insert_exception_moves|]. intros [] w' Hc. unfold recon_put, on_recon in Hc.
  destruct (insert_exception x (rw_store w)) as [s'|e] eqn:Hx; cbn [rbind] in Hc; [|done]. injection Hc as <-. apply insert_exception_Ok in Hx as [Hn ->].
  apply HK. unfold get_exception in *. cbn [rw_store rs_exceptions]. rewrite find_snoc, Hn. unfold has_key. by rewrite String.eqb_refl.
Qed.

Lemma from_sound {A} fin (c : reff A) w : (all_sound w -> runique (rw_store w) -> from w (rmoves fin) c) -> from w (rmoves fin) c.
Proof. intros Hc Hu Hs. by apply Hc. Qed.

(** ** Steps of a record *)

Lemma names_core st r r' row amount : record_core r' = record_core r -> rr_matched_instruction_id r' = rr_matched_instruction_id r ->
  names st r row amount -> names st r' row amount.
Proof.
  unfold record_core, names. intros Hc Hi (Hin & Hid & Ha & Hd). split_and!; [done|congruence|congruence|].
  intros d Hr. apply Hd. congruence.
Qed.

(** A change of status alone. *)
Lemma status_step st fin r r' : record_core r' = record_core r -> rr_matched_instruction_id r' = rr_matched_instruction_id r ->
  rr_delta_minor r' = rr_delta_minor r -> record_edge (rr_match_status r) (rr_match_status r') ->
  rr_matched_instruction_id r = None \/ rr_match_status r ∈ ["UNMATCHED"; "AMOUNT_MISMATCH"]%string /\ rr_match_status r' ∈ ["MATCHED"; "DEAD_LETTER"]%string ->
  (rr_match_status r' = "MATCHED"%string -> fin (rr_record_id r')) -> record_step st fin r r'.
Proof.
  intros Hc Hi Hd He Hcase Hf. assert (Hx : exact st r -> exact st r').
  { intros [Hn (row & Hr)]. split; [congruence|]. exists row. by eapply names_core. }
  split; [by apply rtc_once|done| |done|by auto].
  unfold record_sound. rewrite Hi. destruct (rr_matched_instruction_id r) as [i|] eqn:Hr; [|congruence].
  destruct Hcase as [?|[Hst Hst']]; [done|]. intros [[_ Hm]|[(row & amount & Hn & Hdl & Hne) _]].
  - exfalso. rewrite Hm in Hst. apply list_elem_of_In in Hst. cbn in Hst. by destruct Hst as [?|[?|[]]].
  - right. split; [|by apply list_elem_of_further]. exists row, amount. split_and!; [eapply names_core; [done|congruence|done]|congruence|done].
Qed.

(** The cascade named an instruction. *)
Lemma line_names_record st line r row amount : line_names st line row amount -> rr_rail_amount_minor r = nl_rail_amount_minor line ->
  rr_rail_direction r = nl_rail_direction line -> rr_matched_instruction_id r = Some (si_instruction_id row) -> names st r row amount.
Proof. intros (Hin & Ha & Hd) Ea Ed Hi. split_and!; [done..|congruence|]. intros d Hr. apply Hd. congruence. Qed.

Lemma named_step st fin r r' : record_core r' = record_core r -> record_edge (rr_match_status r) (rr_match_status r') ->
  (exact st r -> exact st r') -> exact st r' /\ rr_match_status r' = "MATCHED"%string \/ off_by st r' /\ rr_match_status r' = "AMOUNT_MISMATCH"%string ->
  record_step st fin r r'.
Proof.
  intros Hc He Hx Hcase. assert (Hs : record_sound st r').
  { unfold record_sound. destruct Hcase as [[(Hd & row & Hn) Hm]|[(row & amount & Hn & Hd & Hne) Hm]].
    - rewrite (proj1 (proj2 Hn)). left. split; [|done]. split; [done|by exists row].
    - rewrite (proj1 (proj2 Hn)). right. split; [by exists row, amount|rewrite Hm; apply list_elem_of_here]. }
  split; [by apply rtc_once|done|by intros|done|]. destruct Hcase as [[? ?]|[_ Hm]]; [by auto|]. by rewrite Hm.
Qed.

(** ** Steps of an exception *)

Lemma unresolved_step led x x' : exception_core x' = exception_core x -> exception_edge (rx_status x) (rx_status x') ->
  rx_status x' <> "RESOLVED"%string -> exception_step led x x'.
Proof. intros Hc He Hn. split; [by apply rtc_once|done|]. by intros led' _ _ Hr. Qed.

Lemma exception_transition_edge x trigger st' u : _exception_transition x trigger st' = Ok u -> exception_edge (rx_status x) st'.
Proof. unfold _exception_transition. intros Hu. inv_res. bool_prop. by exists trigger. Qed.
Lemma record_transition_edge r trigger st' u : _record_transition r trigger st' = Ok u -> record_edge (rr_match_status r) st'.
Proof. unfold _record_transition. intros Hu. inv_res. bool_prop. by exists trigger. Qed.

(** Walk through quiet steps from one state. *)
Ltac rquiet_auto := solve [eauto using recon_audit_quiet, recon_emit_quiet, count_raised_quiet, post_quiet].
Ltac rstep :=
  match goal with
  | |- from _ _ (ebind (elift _) _) => apply from_bind_lift; [apply _|intros ? ?]
  | |- from _ _ (ebind (read_recon _) _) => apply from_read_recon
  | |- from _ _ (ebind (read_settle _) _) => apply from_read_settle
  | |- from _ _ (ebind (eret _) _) => apply from_bind_ret
  | |- from _ _ (ebind (ebind _ _) _) => apply from_bind_assoc
  | |- from _ _ (ebind (_require_exception _) _) => apply from_require; intros ? ?
  | |- from _ _ (ebind _ _) => apply from_r_quiet; [rquiet_auto|intros ? ? (? & ? & ?)]
  | |- from _ _ (eret _) => apply from_within, within_ret, _
  | |- from _ _ (elift _) => apply from_within, within_lift, _
  | |- from _ _ (if ?b then elift (Err _) else _) => destruct b eqn:?
  | |- from _ _ (let _ := _ in _) => cbv zeta
  | |- from _ _ _ => apply from_r_end; rquiet_auto
  end.
Ltac rwalk := repeat rstep.

Lemma escalate_moves fin clock x delta w : get_exception (rx_exception_id x) (rw_store w) = Some x ->
  from w (rmoves fin) (escalate R clock x delta).
Proof.
  intros Hg. unfold escalate. rwalk. eapply from_r_update_exception; [exact Hg| |intros; rwalk].
  apply unresolved_step; [done|by eapply exception_transition_edge|done].
Qed.

Lemma raise_moves fin clock record tier reason amount now w : from w (rmoves fin) (_raise_exception R clock record tier reason amount now).
Proof.
  unfold _raise_exception. rwalk. apply from_r_insert_exception; [by split; [|intros ? _ ?]|]. intros w1 Hg. rwalk.
  destruct (rr_delta_minor record) as [delta|]; [|rwalk]. destruct (_ <? _); [|rwalk]. apply escalate_moves. congruence.
Qed.

Lemma from_raise {B} fin clock record tier reason amount now (k : ReconciliationExceptionRow -> reff B) w :
  (forall x w', from w' (rmoves fin) (k x)) -> from w (rmoves fin) (ebind (_raise_exception R clock record tier reason amount now) k).
Proof. intros Hk. apply from_bind; [apply _|apply raise_moves|]. auto. Qed.

(** ** Ingestion *)

Lemma ingest_result_moves fin clock id batch line now result report w u :
  let row := _record_row R id batch line now "INGESTED" in
  get_record id (rw_store w) = Some row -> verdict (st_of w) line result -> _record_transition row "match_cascade_run" (mr_status result) = Ok u ->
  from w (rmoves fin) (ingest_result R clock id batch line now result report).
Proof.
  intros row Hg Hv He%record_transition_edge. destruct Hv as [i level Hn|i amount Hn Hne|c1 c2 cs| |]; cbn [mr_status] in He;
    unfold ingest_result; cbn [mr_status mr_candidates String.eqb Ascii.eqb Bool.eqb andb negb].
  - unfold ingest_matched. eapply from_r_update_record; [exact Hg| |intros; rwalk]. apply named_step; [done|exact He|by intros [_ (? & _ & ? & _)]|].
    left. split; [|done]. split; [done|]. exists i. by eapply line_names_record.
  - rewrite bool_decide_eq_true_2 by done. cbn [negb]. unfold ingest_mismatch. cbn [mr_instruction_id]. destruct (truthy _); rwalk.
    all: eapply from_r_update_record; [exact Hg| |intros; rwalk; apply from_raise; intros; rwalk].
    all: apply named_step; [done|exact He|by intros [_ (? & _ & ? & _)]|]. all: right; split; [|done]; exists i, amount. all: split_and!; try done.
    all: by eapply line_names_record.
  - rewrite bool_decide_eq_false_2 by done. cbn [negb]. unfold ingest_ambiguous.
    eapply from_r_update_record; [exact Hg| |intros; rwalk; apply from_raise; intros; rwalk]. apply status_step; try done. by left.
  - unfold ingest_gap. eapply from_r_update_record; [exact Hg| |intros; rwalk; apply from_raise; intros; rwalk]. apply status_step; try done. by left.
  - unfold ingest_unmatched. eapply from_r_update_record; [exact Hg| |intros; rwalk; apply from_raise; intros; rwalk]. apply status_step; try done. by left.
Qed.

Lemma ingest_line_moves fin clock batch line now report w : from w (rmoves fin) (_ingest_line R clock batch line now report).
Proof.
  unfold _ingest_line. rwalk. destruct (get_record _ _) as [r|] eqn:Hr; [rwalk|]. destruct (nl_parse_failed line).
  - unfold ingest_dead. apply from_r_insert_record; [|intros; rwalk; apply from_raise; intros; rwalk].
    split; [apply rtc_once; by exists "match_cascade_run"%string|done|done].
  - rwalk. apply from_r_insert_record; [by split|]. intros w1 Ht Hg. rwalk. eapply ingest_result_moves; [exact Hg| |done].
    rewrite Ht. by eapply cascade_verdict.
Qed.

Lemma from_catching {A} P (c : reff A) h w : from w P c -> from w P (catching c h).
Proof. unfold from, catching. by destruct (c w) as [[a|e] w']; [|destruct (is_recon_error e)]. Qed.

Lemma ingest_loop_moves fin clock batch lines now report : within (rmoves fin) (ingest_loop R clock batch lines now report).
Proof.
  revert report. induction lines as [|line lines IH]; intros report; [apply within_ret, _|]. cbn [ingest_loop]. cbv zeta.
  apply within_bind; [apply _| |intros; apply IH]. intros w. apply from_catching, ingest_line_moves.
Qed.

(** ** Retries *)

Lemma gap_is_bare st r : record_sound st r -> rr_match_status r = "TIMING_GAP"%string -> rr_matched_instruction_id r = None /\ rr_delta_minor r = None.
Proof.
  unfold record_sound. intros Hs Hst. destruct (rr_matched_instruction_id r); [|done]. exfalso. rewrite Hst in Hs. destruct Hs as [[_ ?]|[_ Hin]]; [done|].
  apply list_elem_of_In in Hin. cbn in Hin. by destruct Hin as [?|[?|[?|[]]]].
Qed.

Lemma close_gap_moves fin clock now x w : get_exception (rx_exception_id x) (rw_store w) = Some x -> from w (rmoves fin) (close_gap R clock now x).
Proof.
  intros Hg. unfold close_gap. rwalk. eapply from_r_update_exception; [exact Hg| |intros; rwalk].
  apply unresolved_step; [done|by eapply exception_transition_edge|done].
Qed.

(** The exception found for a record is stored under its own id. *)
Lemma found_exception record_id s x : runique s -> find_exception_for_record record_id s = Some x ->
  get_exception (rx_exception_id x) s = Some x /\ rx_record_id x = record_id.
Proof.
  intros [_ Ux] [Hin Hq]%find_Some. bool_prop. split; [|done]. by apply (find_key rx_exception_id).
Qed.

Lemma retry_matched_moves fin clock now record x result w u : get_record (rr_record_id record) (rw_store w) = Some record ->
  rr_match_status record = "TIMING_GAP"%string -> x = find_exception_for_record (rr_record_id record) (rw_store w) ->
  verdict (st_of w) (line_of record) result -> mr_status result = "MATCHED"%string -> _record_transition record "auto_retry_match" "MATCHED" = Ok u ->
  from w (rmoves fin) (retry_matched R clock now record x result).
Proof.
  intros Hg Hst Hx Hv Hm Ht. apply from_sound. intros Hs Hu. destruct (gap_is_bare _ _ (Hs _ _ Hg) Hst) as [Hi Hd].
  destruct Hv as [i level Hn| | | |]; try discriminate Hm. unfold retry_matched. apply from_bind_lift; [apply _|]. intros ? ?.
  eapply from_r_update_record; [exact Hg| |].
  - apply named_step; [done|by eapply record_transition_edge|by intros [_ (? & _ & ? & _)]; congruence|].
    left. split; [|done]. split; [done|]. exists i. by eapply line_names_record.
  - intros w1 Ht1 Hx1 _. rwalk. destruct x as [x|]; [|rwalk]. symmetry in Hx. apply found_exception in Hx as [Hx _]; [|done].
    apply close_gap_moves. unfold get_exception in *. by simplify_eq/=; congruence.
Qed.

Lemma retry_expired_moves fin clock record x w : get_record (rr_record_id record) (rw_store w) = Some record ->
  rr_match_status record = "TIMING_GAP"%string -> x = find_exception_for_record (rr_record_id record) (rw_store w) ->
  from w (rmoves fin) (retry_expired R clock record x).
Proof.
  intros Hg Hst Hx. apply from_sound. intros Hs Hu. destruct (gap_is_bare _ _ (Hs _ _ Hg) Hst) as [Hi Hd]. unfold retry_expired. rwalk.
  eapply from_r_update_record; [exact Hg| |].
  - apply status_step; try done; [by eapply record_transition_edge|by left].
  - intros w1 Ht1 Hx1 _. rwalk. destruct x as [x|]; [|rwalk]. symmetry in Hx. apply found_exception in Hx as [Hx _]; [|done].
    apply (from_r_update_exception _ _ _ _ _ x); [|by split|intros; rwalk]. unfold get_exception in *. by simplify_eq/=; congruence.
Qed.

Lemma retry_one_moves fin clock now record report w : get_record (rr_record_id record) (rw_store w) = Some record ->
  rr_match_status record = "TIMING_GAP"%string -> from w (rmoves fin) (retry_one R clock now record report).
Proof.
  intros Hg Hst. unfold retry_one. rwalk. destruct (String.eqb_spec (mr_status a) "MATCHED") as [Hm|_].
  - apply from_bind; [apply _| |intros; rwalk]. eapply retry_matched_moves; [done..|by eapply cascade_verdict|done|].
    unfold _record_transition. by rewrite Hst.
  - destruct (rr_rail_effective_date record); [|rwalk]. destruct (_ <? _); [|rwalk].
    apply from_bind; [apply _|by apply retry_expired_moves|intros; rwalk].
Qed.

Definition only_record (k : string) (w w' : RWorld) : Prop := forall k', k' <> k -> get_record k' (rw_store w') = get_record k' (rw_store w).
#[local] Instance only_record_preorder k : PreOrder (only_record k).
Proof. split; unfold only_record; [done|]. intros w1 w2 w3 H12 H23 k' Hk. by rewrite H23, H12. Qed.

Lemma quiet_only {A} k (c : reff A) : within rquiet c -> within (only_record k) c.
Proof. intros Hc w k' _. by rewrite (proj1 (Hc w)). Qed.
Lemma update_record_only k cs : within (only_record k) (on_recon (update_record k cs)).
Proof.
  intros w k' Hk. unfold on_recon. destruct (update_record k cs (rw_store w)) as [[x s']|e] eqn:Hx; [|done].
  apply update_record_Ok in Hx as (r & Hg & -> & ->). cbn [snd rw_store]. unfold get_record, put_record. cbn [rs_records].
  rewrite find_put, record_replaces_id, (get_record_id _ _ _ Hg). apply not_eq_sym, String.eqb_neq in Hk. rewrite Hk. by destruct (List.find _ _).
Qed.
Lemma update_exception_only k x cs : within (only_record k) (on_recon (update_exception x cs)).
Proof.
  intros w k' Hk. unfold on_recon. destruct (update_exception x cs (rw_store w)) as [[y s']|e] eqn:Hx; [|done].
  by apply update_exception_Ok in Hx as (r & Hg & -> & ->).
Qed.

Ltac only_step :=
  match goal with
  | |- within _ (ebind (elift _) _) => apply within_bind_lift; [apply _|intros ? ?]
  | |- within _ (ebind _ _) => apply within_bind; [apply _| |intros ?]
  | |- within _ (eret _) => apply within_ret, _
  | |- within _ (elift _) => apply within_lift, _
  | |- within _ (read_recon _) => intros ?; reflexivity
  | |- within _ (read_settle _) => intros ?; reflexivity
  | |- within _ (on_recon (update_record _ _)) => apply update_record_only
  | |- within _ (on_recon (update_exception _ _)) => apply update_exception_only
  | |- within _ (match ?x with _ => _ end) => destruct x
  | |- within _ _ => apply quiet_only; rquiet_auto
  end.

Lemma retry_one_only clock now record report : within (only_record (rr_record_id record)) (retry_one R clock now record report).
Proof. unfold retry_one, retry_matched, retry_expired, close_gap. repeat only_step. Qed.

Lemma retry_loop_moves fin clock now records : NoDup (rr_record_id <$> records) -> forall report w,
  Forall (fun r => get_record (rr_record_id r) (rw_store w) = Some r /\ rr_match_status r = "TIMING_GAP"%string) records ->
  from w (rmoves fin) (retry_gaps_loop R clock now records report).
Proof.
  intros Hn. induction records as [|r records IH]; intros report w Hc; [apply from_within, within_ret, _|].
  csimpl in Hn. apply NoDup_cons in Hn as [Hx Hn]. apply Forall_cons in Hc as [[Hg Hst] Hc]. cbn [retry_gaps_loop].
  apply from_bind; [apply _|by apply retry_one_moves|]. intros rep w' Hw. apply IH; [done|]. eapply Forall_impl; [exact (proj2 (Forall_forall _ _) (fun x Hx => conj (proj1 (Forall_forall _ _) Hc x Hx) Hx))|].
  intros y [[Hy Hsy] Hin]. split; [|done]. pose proof (retry_one_only clock now r (one_line report) w (rr_record_id y)) as Ho. rewrite Hw in Ho.
  cbn [snd] in Ho. rewrite Ho; [done|]. intros He. apply Hx. rewrite <- He. by apply list_elem_of_fmap_2.
Qed.

Lemma NoDup_filter_keys {A} (key : A -> string) f l : NoDup (key <$> l) -> NoDup (key <$> List.filter f l).
Proof.
  induction l as [|x l IH]; [done|]. csimpl. rewrite NoDup_cons. intros [Hx Hl]. destruct (f x); [|by apply IH].
  csimpl. apply NoDup_cons. split; [|by apply IH]. intros Hin. apply Hx. apply list_elem_of_fmap in Hin as (y & -> & Hy).
  apply list_elem_of_fmap. exists y. split; [done|]. apply list_elem_of_In, filter_In in Hy as [Hy _]. by apply list_elem_of_In.
Qed.

Lemma retry_moves fin clock now w : from w (rmoves fin) (retry_timing_gaps R clock now).
Proof.
  apply from_sound. intros _ [Ur _]. unfold retry_timing_gaps. rwalk. apply retry_loop_moves; [by apply NoDup_filter_keys|].
  apply Forall_forall. intros r Hr. unfold list_records in Hr. apply list_elem_of_In, filter_In in Hr as [Hr Hq]. bool_prop. split.
  - apply (find_key rr_record_id); [done|]. split; [by apply list_elem_of_In|done].
  - cbn in *. bool_prop. congruence.
Qed.

Lemma assign_moves fin clock x op w : from w (rmoves fin) (assign R clock x op).
Proof.
  unfold assign. rwalk. eapply from_r_update_exception; [done| |intros; rwalk].
  apply unresolved_step; [done|by eapply exception_transition_edge|done].
Qed.

Lemma sla_loop_quiet clock now rows breached : within rquiet (sla_loop R clock now rows breached).
Proof.
  revert breached. induction rows as [|row rows IH]; intros breached; cbn [sla_loop]; [apply within_ret, _|].
  apply within_bind_lift; [apply _|]. intros late _. destruct (_ <? _); [|apply IH]. apply within_bind; [apply _|rquiet_auto|intros; apply IH].
Qed.
Lemma sla_moves fin clock now w : from w (rmoves fin) (sla_check R clock now).
Proof. unfold sla_check. rwalk. apply from_r_quiet; [apply sla_loop_quiet|]. intros l w' _. rwalk. apply from_r_end, sla_loop_quiet. Qed.

(** ** Resolution *)

Lemma post_idem s spec clock id s' : post_journal_entry (rc_cfg R) s spec clock = (Ok id, s') -> s_journal_by_idem s' !! js_idempotency_key spec = Some id.
Proof. intros (rows & tx & Hst & Hcm)%post_journal_entry_Ok. rewrite (ce_idem _ _ _ _ _ _ _ _ _ Hst Hcm). apply lookup_insert_eq. Qed.

(** What a ledger action that returned has checked and posted. *)
Definition action_done (led : Store) (x action : string) (amount : option Z) (approval entry : option string) : Prop :=
  exists a key, amount = Some a /\ 0 < a /\ (RECON_ADJUSTMENT_APPROVAL_THRESHOLD_MINOR < a -> is_Some approval) /\
    resolution_key x action = Ok key /\ recorded led (resolution_entry R x action key a) /\ s_journal_by_idem led !! key = entry /\ is_Some entry.

Lemma action_done_later led led' x action amount approval entry : extends led led' ->
  action_done led x action amount approval entry -> action_done led' x action amount approval entry.
Proof.
  intros He (a & key & Ha & Hpos & Hap & Hk & Hr & Hi & id & Hid). subst entry. exists a, key. split_and!; try done.
  - by eapply recorded_extends.
  - rewrite Hid. eapply lookup_weaken; [exact Hid|apply He].
Qed.

Lemma ledger_action_Ok clock x action amount approval w id w' : ledger_action R clock x action amount approval w = (Ok id, w') ->
  rquiet w w' /\ action_done (led_of w') x action amount approval (Some id).
Proof.
  unfold ledger_action. destruct amount as [a|]; [|by intros ?; inv_eff]. destruct (Z.leb_spec a 0) as [|Hpos]; [by intros ?; inv_eff|].
  destruct (_ && _) eqn:Hg; [by intros ?; inv_eff|]. intros Hc.
  split; [pose proof (post_quiet clock x action a w) as Hq; by rewrite Hc in Hq|].
  unfold _post_resolution_entry in Hc. inv_eff. unfold r_res, s_res in *. destruct (resolution_key x action) as [key|] eqn:Hk; [|done]. simplify_eq.
  unfold r_ledger in Hc. destruct (post_journal_entry _ _ _ _) as [[id'|] s'] eqn:Hp; [|done]. cbn in Hc. simplify_eq. cbn [rw_settle sw_led].
  exists a, a0. split_and!; try done; [|by eapply post_recorded|by apply post_idem in Hp].
  intros Ht. apply andb_false_iff in Hg as [Hg|Hg]; [apply Z.ltb_ge in Hg; lia|]. bool_prop. by apply not_eq_None_Some.
Qed.

Lemma finance_outcome st' outcome : allowed RECORD_TRANSITIONS st' "finance_resolved" outcome = true -> outcome ∈ ["MATCHED"; "DEAD_LETTER"]%string.
Proof.
  unfold allowed. destruct (aget _ _) as [tos|] eqn:Ha; [|done]. unfold str_in. intros Ho%bool_decide_eq_true. apply aget_elem, list_elem_of_In in Ha.
  cbn in Ha. destruct Ha as [?|[?|[?|[?|[?|[]]]]]]; by simplify_eq.
Qed.

Lemma resolve_record_moves (fin : string -> Prop) clock now record outcome action w : get_record (rr_record_id record) (rw_store w) = Some record ->
  str_in (rr_match_status record) ["UNMATCHED"; "AMOUNT_MISMATCH"]%string = true -> fin (rr_record_id record) ->
  from w (rmoves fin) (resolve_record R clock now record outcome action).
Proof.
  intros Hg Hst Hf. unfold resolve_record. rwalk. assert (Hedge := record_transition_edge _ _ _ _ H4).
  assert (Ho : outcome ∈ ["MATCHED"; "DEAD_LETTER"]%string).
  { unfold _record_transition in H4. inv_res. bool_prop. by eapply finance_outcome. }
  eapply from_r_update_record; [exact Hg| |intros; rwalk].
  destruct (String.eqb outcome "MATCHED"); apply status_step; try done; right; unfold str_in in Hst; by bool_prop.
Qed.

(** The records a resolution is about. *)
Definition resolves (w : RWorld) (x id : string) : Prop := exists e, get_exception x (rw_store w) = Some e /\ rx_record_id e = id.

(** The exceptions stay as they are while the record is resolved. *)
Definition same_exceptions (w w' : RWorld) : Prop := rs_exceptions (rw_store w') = rs_exceptions (rw_store w) /\ extends (led_of w) (led_of w').
#[local] Instance same_exceptions_preorder : PreOrder same_exceptions.
Proof. split; unfold same_exceptions; [done|]. intros w1 w2 w3 [? ?] [? ?]. split; [congruence|by etrans]. Qed.

Lemma resolve_record_exceptions clock now record outcome action : within same_exceptions (resolve_record R clock now record outcome action).
Proof.
  unfold resolve_record. apply within_bind_lift; [apply _|]. intros u _. apply within_bind; [apply _| |intros r; intros w].
  - intros w. unfold on_recon. destruct (update_record _ _ _) as [[y s']|e] eqn:Hx; [|done]. by apply update_record_Ok in Hx as (r & _ & -> & ->).
  - destruct (recon_audit_quiet clock "ReconciliationRecord" (rr_record_id record) (Some (rr_match_status record)) outcome
      (dict [("resolution_action"%string, PStr action)]) w) as (Hs & _ & He). split; [by rewrite Hs|done].
Qed.

(** The entry, if the action needs one. *)
Definition entry_of (clock : datetime) (x action : string) (amount : option Z) (approval : option string) : reff (option string) :=
  if str_in action _LEDGER_ACTIONS then do* id := ledger_action R clock x action amount approval in eret (Some id) else eret None.

Lemma entry_of_quiet clock x action amount approval : within rquiet (entry_of clock x action amount approval).
Proof.
  unfold entry_of. destruct (str_in _ _); [|apply within_ret, _]. apply within_bind; [apply _| |intros; apply within_ret, _].
  unfold ledger_action. destruct amount; [|apply within_lift, _]. destruct (_ <=? _); [apply within_lift, _|].
  destruct (_ && _); [apply within_lift, _|apply post_quiet].
Qed.
Lemma entry_of_Ok clock x action amount approval w entry w' : entry_of clock x action amount approval w = (Ok entry, w') ->
  str_in action _LEDGER_ACTIONS = true -> action_done (led_of w') x action amount approval entry.
Proof. unfold entry_of. intros Hc Ha. rewrite Ha in Hc. inv_eff. by eapply ledger_action_Ok. Qed.

Lemma resolved_step led row cs x action amount approval entry : rx_exception_id row = x -> exception_edge (rx_status row) "RESOLVED" ->
  (str_in action _LEDGER_ACTIONS = true -> action_done led x action amount approval entry) ->
  (let x' := foldl exception_replace row cs in rx_status x' = "RESOLVED"%string /\ rx_resolution_action x' = Some action /\
   rx_adjustment_amount_minor x' = amount /\ rx_approval_request_id x' = approval /\ rx_journal_entry_id x' = entry) ->
  exception_step led row (foldl exception_replace row cs).
Proof.
  intros Hid He Hd (Hs & Ha & Hm & Hap & Hj). split; [rewrite Hs; by apply rtc_once|apply exception_replaces_core|].
  intros led' Hext _ _ act Hact Hin. rewrite Ha in Hact. injection Hact as <-. rewrite exception_replaces_id, Hid, Hm, Hap, Hj.
  destruct (action_done_later _ _ _ _ _ _ _ Hext (Hd Hin)) as (a & key & ? & ? & ? & ? & ? & ? & _). by exists a, key.
Qed.

Lemma resolve_moves clock x action who outcome amount approval notes ref now w :
  from w (rmoves (resolves w x)) (resolve R clock x action who outcome amount approval notes ref now).
Proof.
  unfold resolve. rwalk. match goal with |- from _ _ (ebind ?c _) => change c with (entry_of clock x action amount approval) end.
  assert (Hedge : exception_edge (rx_status row) "RESOLVED") by (by eapply exception_transition_edge).
  apply from_bind; [apply _|apply rquiet_moves, entry_of_quiet|]. intros entry w1 Hentry.
  pose proof (entry_of_quiet clock x action amount approval w) as Hq. rewrite Hentry in Hq. destruct Hq as (Hs1 & Ht1 & Hl1). cbn [snd] in Hs1, Ht1, Hl1.
  pose proof (entry_of_Ok _ _ _ _ _ _ _ _ Hentry) as Hdone. rwalk.
  apply from_bind; [apply _| |].
  - rewrite Hs1. destruct (get_record _ _) as [r|] eqn:Hr; [|rwalk]. destruct (str_in (rr_match_status r) _) eqn:Hst; [|rwalk].
    apply resolve_record_moves; [rewrite Hs1; by rewrite (get_record_id _ _ _ Hr)|done|]. exists row. split; [done|].
    by rewrite (get_record_id _ _ _ Hr).
  - intros u w2 Hw2. assert (Hx2 : same_exceptions w1 w2).
    { destruct (get_record _ (rw_store w1)) as [r|]; [|by inv_eff]. destruct (str_in (rr_match_status r) _); [|by inv_eff].
      pose proof (resolve_record_exceptions clock a r outcome action w1) as Hx. by rewrite Hw2 in Hx. }
    destruct Hx2 as [Hx2 Hl2]. apply (from_r_update_exception _ _ _ _ _ row); [| |intros; rwalk].
    + unfold get_exception in *. by rewrite Hx2, Hs1.
    + eapply (resolved_step _ _ _ x action amount approval entry); [by eapply get_exception_id|done| |done].
      intros Ha. by eapply action_done_later, Hdone.
Qed.

(** * Histories *)

Definition fin_of (w : RWorld) (c : rcall) : string -> Prop := match c with Resolve x _ _ _ _ _ _ _ _ => resolves w x | _ => fun _ => False end.

Lemma discard_from {A} (P : RWorld -> RWorld -> Prop) (c : reff A) w : from w P c -> from w P (discard c).
Proof. unfold from, discard. rewrite ebind_eq. by destruct (c w) as [[a|e] w']. Qed.

Lemma rinvoke_moves clock c w : (forall s, c <> Settling s) -> from w (rmoves (fin_of w c)) (rinvoke E R clock c).
Proof.
  intros Hc. destruct c as [b lines now|x op|now|x action who outcome amount approval notes ref now|now|c]; [..|by destruct (Hc c)]; apply discard_from.
  - unfold ingest. rwalk. apply from_within, ingest_loop_moves.
  - apply assign_moves.
  - apply retry_moves.
  - apply resolve_moves.
  - apply sla_moves.
Qed.

(** ** The settlement engine's moves, seen from here *)

Lemma names_later st st' r row amount : ids_unique st -> store_evolves st st' -> names st r row amount ->
  exists row', names st' r row' amount /\ si_net_payout_minor row' = si_net_payout_minor row.
Proof.
  intros [_ Ui] [[_ Ui'] _ Hi] (Hin & Hid & Ha & Hd). specialize (Hi (si_instruction_id row)). cbn in Hi.
  assert (Hg : get_instruction (si_instruction_id row) st = Some row) by (by apply (find_key si_instruction_id)). rewrite Hg in Hi.
  destruct Hi as (row' & Hg' & [_ Hc]). apply (find_key si_instruction_id) in Hg' as [Hin' Hid']; [|done]. unfold instruction_core in Hc.
  exists row'. split; [|congruence]. split_and!; [done|congruence|done|]. intros d Hr. rewrite <- (Hd d Hr). congruence.
Qed.

Lemma exact_later st st' r : ids_unique st -> store_evolves st st' -> exact st r -> exact st' r.
Proof.
  intros Hu He [Hd (row & Hn)]. destruct (names_later _ _ _ _ _ Hu He Hn) as (row' & Hn' & Hnet). split; [done|]. exists row'. by rewrite Hnet.
Qed.
Lemma record_sound_later st st' r : ids_unique st -> store_evolves st st' -> record_sound st r -> record_sound st' r.
Proof.
  intros Hu He. unfold record_sound. destruct (rr_matched_instruction_id r); [|done]. intros [[Hx Hm]|[(row & amount & Hn & Hd & Hne) Hin]].
  - left. split; [by eapply exact_later|done].
  - right. split; [|done]. destruct (names_later _ _ _ _ _ Hu He Hn) as (row' & Hn' & Hnet). exists row', amount. split_and!; [done|congruence..].
Qed.

(** ** One call *)

Record record_move (r r' : ReconciliationRecordRow) : Prop := {
  rm_status : rtc record_edge (rr_match_status r) (rr_match_status r');
  rm_core : record_core r' = record_core r
}.
Record exception_move (x x' : ReconciliationExceptionRow) : Prop := {
  xm_status : rtc exception_edge (rx_status x) (rx_status x');
  xm_core : exception_core x' = exception_core x
}.
Definition record_from_start (r : ReconciliationRecordRow) : Prop := rtc record_edge "INGESTED" (rr_match_status r).
Definition exception_from_start (x : ReconciliationExceptionRow) : Prop := rtc exception_edge "OPEN" (rx_status x).

#[local] Instance record_move_preorder : PreOrder record_move.
Proof. split; [by intros r|]. intros a b c [S1 C1] [S2 C2]. split; [by etrans|congruence]. Qed.
#[local] Instance exception_move_preorder : PreOrder exception_move.
Proof. split; [by intros r|]. intros a b c [S1 C1] [S2 C2]. split; [by etrans|congruence]. Qed.

Definition tables_followed (w w' : RWorld) : Prop :=
  rows_evolve record_move record_from_start (rec_of w) (rec_of w') /\ rows_evolve exception_move exception_from_start (exc_of w) (exc_of w').
#[local] Instance tables_followed_preorder : PreOrder tables_followed.
Proof.
  split; [intros w; split; apply rows_evolve_refl, _|]. intros w1 w2 w3 [R1 X1] [R2 X2]. split.
  - refine (rows_evolve_trans _ _ _ _ _ _ R1 R2). intros r r' Hb [Hs _]. unfold record_from_start in *. by etrans.
  - refine (rows_evolve_trans _ _ _ _ _ _ X1 X2). intros r r' Hb [Hs _]. unfold exception_from_start in *. by etrans.
Qed.

Definition rwf (w : RWorld) : Prop := ids_unique (st_of w) /\ runique (rw_store w) /\ all_sound w.

Lemma ract_step w a : rwf w -> rwf (ract E R w a) /\ tables_followed w (ract E R w a) /\
  store_evolves (st_of w) (st_of (ract E R w a)) /\ extends (led_of w) (led_of (ract E R w a)).
Proof.
  intros (Hi & Hu & Hs). destruct a as [clock c].
  assert (Hcase : (exists s, c = Settling s) \/ forall s, c <> Settling s) by (destruct c; eauto; right; done). destruct Hcase as [[s ->]|Hc].
  - unfold ract. cbn [fst snd rinvoke rw_store rw_settle]. assert (He : store_evolves (st_of w) (sw_store (sact E (rw_settle w) (clock, s)))).
    { by apply (run_moves E [(clock, s)] (rw_settle w)). }
    split_and!; [|split; apply rows_evolve_refl, _|done|exact (steps_extend _ _ _ (run_led E [(clock, s)] (rw_settle w)))]. split; [apply He|]. split; [done|].
    intros k r Hg. cbn [rw_settle rw_store] in *. eapply record_sound_later; [done..|by eapply Hs].
  - pose proof (rinvoke_moves clock c w) as Hm. specialize (Hm Hc Hu Hs). unfold ract. cbn [fst snd].
    pose proof (evolves_sound _ _ _ Hs Hm) as Hs'. destruct Hm as [U' T' L' R' X']. split_and!.
    + split_and!; [by rewrite T'|done..].
    + split; [eapply rows_evolve_weaken; [| |exact R']|eapply rows_evolve_weaken; [| |exact X']].
      * by intros r r' [? ? _ _ _].
      * by intros r [? _ _].
      * by intros r r' [? ? _].
      * by intros r [? _].
    + rewrite T'. by apply store_evolves_refl.
    + done.
Qed.

Lemma rwf_start : rwf rstart.
Proof. split_and!; [split; constructor|split; constructor|done]. Qed.

Lemma rhistory_snoc calls a : rhistory E R (calls ++ [a]) = ract E R (rhistory E R calls) a.
Proof. unfold rhistory. by rewrite foldl_app. Qed.

Lemma rhistory_wf calls : rwf (rhistory E R calls).
Proof. induction calls as [|a calls IH] using rev_ind; [apply rwf_start|]. rewrite rhistory_snoc. by apply ract_step. Qed.

Lemma run_followed later : forall w, rwf w -> tables_followed w (foldl (ract E R) w later).
Proof.
  induction later as [|a later IH]; intros w Hw; [reflexivity|]. destruct (ract_step w a Hw) as (Hw' & Hf & _). cbn [foldl].
  etrans; [exact Hf|by apply IH].
Qed.

(** A resolution names the same record ever after. *)
Lemma resolves_later w w' x k : tables_followed w w' -> resolves w x k -> resolves w' x k.
Proof.
  intros [_ Hx] (e & Hg & Hr). specialize (Hx x). cbn in Hx. rewrite Hg in Hx. destruct Hx as (e' & Hg' & [_ Hc]). exists e'. split; [done|].
  unfold exception_core in Hc. congruence.
Qed.

(** Finance resolved an exception of the record. *)
Definition resolved_by_finance (calls : list (datetime * rcall)) (w : RWorld) (k : string) : Prop :=
  exists t x action who outcome amount approval notes ref now,
    (t, Resolve x action who outcome amount approval notes ref now) ∈ calls /\ resolves w x k.

Lemma by_finance_later calls a w w' k : tables_followed w w' -> resolved_by_finance calls w k -> resolved_by_finance (calls ++ [a]) w' k.
Proof.
  intros Hf (t & x & act & who & out & amt & app & nts & ref & now & Hin & Hr). exists t, x, act, who, out, amt, app, nts, ref, now.
  split; [apply elem_of_app; by left|by eapply resolves_later].
Qed.

Lemma fin_of_finance calls t c w w' k : tables_followed w w' -> fin_of w c k -> resolved_by_finance (calls ++ [(t, c)]) w' k.
Proof.
  intros Hf Hc. destruct c as [| | |x act who out amt app nts ref now| |]; try done. exists t, x, act, who, out, amt, app, nts, ref, now.
  split; [apply elem_of_app; right; apply list_elem_of_singleton; done|by eapply resolves_later].
Qed.

Lemma matched_history calls : let w := rhistory E R calls in forall k r, get_record k (rw_store w) = Some r ->
  rr_match_status r = "MATCHED"%string -> exact (st_of w) r \/ resolved_by_finance calls w k.
Proof.
  induction calls as [|[t c] calls IH] using rev_ind; [done|]. cbv zeta in *. intros k r. rewrite rhistory_snoc. pose proof (rhistory_wf calls) as Hw.
  set (w := rhistory E R calls) in *. intros Hg Hm. destruct (ract_step w (t, c) Hw) as (_ & Hf & He & _).
  assert (Hcase : (exists s, c = Settling s) \/ forall s, c <> Settling s) by (destruct c; eauto; right; done). destruct Hcase as [[s ->]|Hc].
  { destruct (IH k r Hg Hm) as [Hx|Hx]; [left; eapply exact_later; [apply Hw|exact He|done]|right; by eapply by_finance_later]. }
  destruct Hw as (Hi & Hu & Hs). pose proof (rinvoke_moves t c w Hc Hu Hs) as [_ T' _ R' _]. specialize (R' k). cbn in R'.
  change (rinvoke E R t c w).2 with (ract E R w (t, c)) in *. rewrite T'. destruct (get_record k (rw_store w)) as [r0|] eqn:Hr0.
  - destruct R' as (r1 & Hr1 & [_ Hcore _ Hx1 Hm1]). simplify_eq. destruct (Hm1 Hm) as [Hm0|[Hx|Hfin]]; [|by left|].
    + destruct (IH k r0 Hr0 Hm0) as [Hx|Hx]; [left; by apply Hx1|right; by eapply by_finance_later].
    + right. rewrite (get_record_id _ _ _ Hg) in Hfin. by eapply fin_of_finance.
  - destruct (rb_matched _ _ _ (R' r Hg) Hm) as [Hx|Hfin]; [by left|]. right. rewrite (get_record_id _ _ _ Hg) in Hfin. by eapply fin_of_finance.
Qed.

Lemma adjusted_later led led' x : extends led led' -> adjusted led x -> adjusted led' x.
Proof.
  intros He Ha Hst action Hact Hin. destruct (Ha Hst action Hact Hin) as (amount & key & Hm & Hpos & Hap & Hk & Hr & Hj).
  exists amount, key. split_and!; try done; [by eapply recorded_extends|]. destruct Hr as (id & _ & Hid & _). cbn in Hid. rewrite <- Hj, Hid.
  by eapply lookup_weaken, He.
Qed.

Lemma adjusted_history calls : let w := rhistory E R calls in forall k x, get_exception k (rw_store w) = Some x -> adjusted (led_of w) x.
Proof.
  induction calls as [|[t c] calls IH] using rev_ind; [done|]. cbv zeta in *. intros k x. rewrite rhistory_snoc. pose proof (rhistory_wf calls) as Hw.
  set (w := rhistory E R calls) in *. intros Hg. destruct (ract_step w (t, c) Hw) as (_ & _ & _ & Hl).
  assert (Hcase : (exists s, c = Settling s) \/ forall s, c <> Settling s) by (destruct c; eauto; right; done). destruct Hcase as [[s ->]|Hc].
  { by eapply adjusted_later, IH. }
  destruct Hw as (Hi & Hu & Hs). pose proof (rinvoke_moves t c w Hc Hu Hs) as [_ _ L' _ X']. specialize (X' k). cbn in X'.
  change (rinvoke E R t c w).2 with (ract E R w (t, c)) in *. destruct (get_exception k (rw_store w)) as [x0|] eqn:Hx0.
  - destruct X' as (x1 & Hx1 & [_ _ Ha]). simplify_eq. apply Ha; [done|]. by eapply adjusted_later, IH.
  - by apply (xb_adjusted _ _ (X' x Hg)).
Qed.

(** * Files *)

Lemma quiet_Ok {A} (c : reff A) w a w' : within rquiet c -> c w = (Ok a, w') -> rw_store w' = rw_store w /\ st_of w' = st_of w.
Proof. intros Hq Hc. specialize (Hq w). rewrite Hc in Hq. by destruct Hq as (? & ? & _). Qed.

Ltac quiet_eqs :=
  repeat match goal with
  | H : recon_audit _ _ _ _ _ _ _ _ = (Ok _, _) |- _ => apply quiet_Ok in H as [? ?]; [|apply recon_audit_quiet]
  | H : recon_emit _ _ _ _ _ _ _ = (Ok _, _) |- _ => apply quiet_Ok in H as [? ?]; [|apply recon_emit_quiet]
  | H : count_raised _ _ = (Ok _, _) |- _ => apply quiet_Ok in H as [? ?]; [|apply count_raised_quiet]
  end.

Lemma on_recon_Ok {A} f w (a : A) w' : on_recon f w = (Ok a, w') -> f (rw_store w) = Ok (a, rw_store w').
Proof. unfold on_recon. destruct (f (rw_store w)) as [[x s]|]; [|done]. by intros [= -> <-]. Qed.
Lemma recon_put_Ok f w u w' : recon_put f w = (Ok u, w') -> f (rw_store w) = Ok (rw_store w').
Proof. unfold recon_put. intros Hp%on_recon_Ok. destruct (f (rw_store w)); [|done]. cbn in Hp. by simplify_eq. Qed.

Lemma get_after_put x x0 k s : get_exception k s = Some x0 -> rx_exception_id x = k -> get_exception k (put_exception x s) = Some x.
Proof.
  intros Hg <-. unfold get_exception, put_exception in *. cbn [rs_exceptions]. rewrite find_put, Hg. cbn. by rewrite String.eqb_refl.
Qed.
Lemma get_record_after_put r r0 k s : get_record k s = Some r0 -> rr_record_id r = k -> get_record k (put_record r s) = Some r.
Proof.
  intros Hg <-. unfold get_record, put_record in *. cbn [rs_records]. rewrite find_put, Hg. cbn. by rewrite String.eqb_refl.
Qed.

(** An exception of the record awaits somebody. *)
Definition awaits (s : ReconStore) (record_id : string) : Prop :=
  exists k x, get_exception k s = Some x /\ rx_record_id x = record_id /\ rx_status x ∈ ["OPEN"; "ESCALATED"]%string.

Lemma raise_Ok clock record tier reason amount now w x w' : _raise_exception R clock record tier reason amount now w = (Ok x, w') ->
  rs_records (rw_store w') = rs_records (rw_store w) /\ awaits (rw_store w') (rr_record_id record).
Proof.
  unfold _raise_exception. intros Hc. inv_eff. match goal with H : recon_put _ _ = _ |- _ => apply recon_put_Ok, insert_exception_Ok in H as [Hn Hs] end. quiet_eqs.
  match goal with Hs : rw_store ?s = mk_ReconStore _ (_ ++ [?y]) |- _ => set (row := y) in *; assert (Hg : get_exception (rx_exception_id row) (rw_store s) = Some row) end.
  { unfold get_exception in *. rewrite Hs. cbn [rs_exceptions]. rewrite find_snoc, Hn. unfold has_key. by rewrite String.eqb_refl. }
  destruct (rr_delta_minor record) as [delta|].
  - destruct (_ <? _).
    + unfold escalate in Hc. inv_eff. match goal with H : on_recon _ _ = _ |- _ => apply on_recon_Ok, update_exception_Ok in H as (x0 & Hx0 & -> & Hput) end. quiet_eqs. simplify_eq.
      assert (x0 = row) as -> by congruence.
      match goal with |- rs_records (rw_store ?w6) = _ /\ _ => match type of Hs with rw_store ?w1 = _ =>
        assert (rw_store w6 = put_exception (exception_replace row (X_status "ESCALATED")) (rw_store w1)) as -> by (cbn [foldl] in *; congruence) end end.
      split; [by rewrite Hs|]. exists (rx_exception_id row), (exception_replace row (X_status "ESCALATED")).
      split; [by eapply get_after_put|]. split; [done|apply list_elem_of_further, list_elem_of_here].
    + inv_eff. split; [repeat match goal with H : rw_store _ = _ |- _ => rewrite H; clear H end; done|].
      exists (rx_exception_id row), row. split; [congruence|]. split; [done|apply list_elem_of_here].
  - inv_eff. split; [repeat match goal with H : rw_store _ = _ |- _ => rewrite H; clear H end; done|].
    exists (rx_exception_id row), row. split; [congruence|]. split; [done|apply list_elem_of_here].
Qed.

(** The line has its verdict: a match, or an exception that awaits somebody. *)
Definition answered (s : ReconStore) (id : string) : Prop :=
  exists r, get_record id s = Some r /\ rr_match_status r <> "INGESTED"%string /\ (rr_match_status r = "MATCHED"%string \/ awaits s id).

(** An update of the record to MATCHED and quiet steps. *)
Lemma answered_matched id r cs w w1 w' : get_record id (rw_store w) = Some r ->
  on_recon (update_record id cs) w = (Ok (foldl record_replace r cs), w1) -> rw_store w' = rw_store w1 ->
  rr_match_status (foldl record_replace r cs) = "MATCHED"%string -> answered (rw_store w') id.
Proof.
  intros Hg Hu Hq Hst. apply on_recon_Ok, update_record_Ok in Hu as (r0 & Hg0 & _ & Hput). exists (foldl record_replace r cs).
  split_and!; [|by rewrite Hst|by left]. rewrite Hq, Hput. eapply get_record_after_put; [done|]. rewrite record_replaces_id. by eapply get_record_id.
Qed.

(** An update of the record, quiet steps, and an exception for it. *)
Lemma answered_raise clock id r cs tier reason amount now w x w1 w2 w' : get_record id (rw_store w) = Some r ->
  on_recon (update_record id cs) w = (Ok (foldl record_replace r cs), w1) -> rw_store w2 = rw_store w1 ->
  _raise_exception R clock (foldl record_replace r cs) tier reason amount now w2 = (Ok x, w') ->
  rr_match_status (foldl record_replace r cs) <> "INGESTED"%string -> answered (rw_store w') id.
Proof.
  intros Hg Hu Hq Hr Hst. apply on_recon_Ok, update_record_Ok in Hu as (r0 & Hg0 & _ & Hput). apply raise_Ok in Hr as [Hrec Haw].
  assert (Hid : rr_record_id (foldl record_replace r cs) = id) by (rewrite record_replaces_id; by eapply get_record_id).
  exists (foldl record_replace r cs). split_and!; [|done|right; by rewrite <- Hid].
  unfold get_record. rewrite Hrec, Hq, Hput. by eapply get_record_after_put.
Qed.

Lemma update_record_Some id cs w r a w' : get_record id (rw_store w) = Some r -> on_recon (update_record id cs) w = (Ok a, w') ->
  a = foldl record_replace r cs.
Proof. intros Hg Hu. apply on_recon_Ok, update_record_Ok in Hu as (r0 & Hg0 & -> & _). by simplify_eq. Qed.

Ltac ingested_steps Hg :=
  inv_eff;
  repeat match goal with
  | H : on_recon (update_record ?id ?cs) ?w = (Ok ?a, _), Hg : get_record ?id (rw_store ?w) = Some ?r |- _ =>
      lazymatch a with foldl _ _ _ => fail | _ => let Ha := fresh in pose proof (update_record_Some _ _ _ _ _ _ Hg H) as Ha; subst a end
  end; quiet_eqs.

Lemma ingest_result_Ok clock id batch line now result report w rep w' row :
  get_record id (rw_store w) = Some row -> verdict (st_of w) line result ->
  ingest_result R clock id batch line now result report w = (Ok rep, w') ->
  answered (rw_store w') id /\ errors rep = errors report /\ n_lines rep = n_lines report.
Proof.
  intros Hg Hv. unfold ingest_result. destruct Hv as [i level Hn|i amount Hn Hne|c1 c2 cs| |];
    cbn [mr_status mr_candidates String.eqb Ascii.eqb Bool.eqb andb negb]; intros Hc.
  - unfold ingest_matched in Hc. ingested_steps Hg. split; [|done].
    eapply answered_matched; [exact Hg|done| |done]. congruence.
  - rewrite bool_decide_eq_true_2 in Hc by done. cbn [negb] in Hc. unfold ingest_mismatch in Hc. cbn [mr_instruction_id] in Hc.
    rewrite ebind_eq in Hc. destruct (truthy _); cbn in Hc.
    all: ingested_steps Hg; split; [|done]; eapply answered_raise; [exact Hg|done| |done|done]; congruence.
  - rewrite bool_decide_eq_false_2 in Hc by done. cbn [negb] in Hc. unfold ingest_ambiguous in Hc.
    ingested_steps Hg. split; [|done]. eapply answered_raise; [exact Hg|done| |done|done]; congruence.
  - unfold ingest_gap in Hc. ingested_steps Hg. split; [|done]. eapply answered_raise; [exact Hg|done| |done|done]; congruence.
  - unfold ingest_unmatched in Hc. ingested_steps Hg. split; [|done]. eapply answered_raise; [exact Hg|done| |done|done]; congruence.
Qed.

(** ** What a file leaves alone *)

Definition holds (s0 : ReconStore) (w : RWorld) : Prop :=
  (forall k r, get_record k s0 = Some r -> get_record k (rw_store w) = Some r) /\
  (forall k x, get_exception k s0 = Some x -> get_exception k (rw_store w) = Some x).

Lemma quiet_holds {A} s0 (c : reff A) : within rquiet c -> within (keeps (holds s0)) c.
Proof. intros Hq w Hh. unfold holds in *. by rewrite (proj1 (Hq w)). Qed.

Lemma insert_record_holds s0 r : within (keeps (holds s0)) (recon_put (insert_record r)).
Proof.
  intros w [Hr Hx]. unfold recon_put, on_recon. destruct (insert_record r (rw_store w)) as [s'|e] eqn:Hi; [|done]. cbn [rbind snd].
  apply insert_record_Ok in Hi as [Hn ->]. split; [|done]. intros k r' Hk. unfold get_record in *. cbn [rw_store rs_records]. rewrite find_snoc.
  by rewrite (Hr k r' Hk).
Qed.
Lemma insert_exception_holds s0 x : within (keeps (holds s0)) (recon_put (insert_exception x)).
Proof.
  intros w [Hr Hx]. unfold recon_put, on_recon. destruct (insert_exception x (rw_store w)) as [s'|e] eqn:Hi; [|done]. cbn [rbind snd].
  apply insert_exception_Ok in Hi as [Hn ->]. split; [done|]. intros k r' Hk. unfold get_exception in *. cbn [rw_store rs_exceptions]. rewrite find_snoc.
  by rewrite (Hx k r' Hk).
Qed.
Lemma update_record_holds s0 k cs : get_record k s0 = None -> within (keeps (holds s0)) (on_recon (update_record k cs)).
Proof.
  intros Hn w Hh. destruct Hh as [Hr Hx]. split.
  - intros k' r Hk. rewrite (update_record_only k cs w k'); [by apply Hr|]. intros ->. congruence.
  - unfold on_recon. destruct (update_record k cs (rw_store w)) as [[y s']|e] eqn:Hy; [|done].
    by apply update_record_Ok in Hy as (r & Hg & -> & ->).
Qed.
Lemma update_exception_holds s0 k cs : get_exception k s0 = None -> within (keeps (holds s0)) (on_recon (update_exception k cs)).
Proof.
  intros Hn w [Hr Hx]. unfold on_recon. destruct (update_exception k cs (rw_store w)) as [[y s']|e] eqn:Hy; [|done].
  apply update_exception_Ok in Hy as (x0 & Hg & -> & ->). split; [done|]. intros k' x Hk. cbn [snd rw_store]. unfold get_exception, put_exception in *.
  cbn [rs_exceptions]. rewrite find_put, (Hx k' x Hk), exception_replaces_id, (get_exception_id _ _ _ Hg). cbn.
  destruct (String.eqb_spec k k') as [->|]; [congruence|done].
Qed.

Ltac hstep :=
  match goal with
  | |- within _ (ebind (elift _) _) => apply within_bind_lift; [apply _|intros ? ?]
  | |- within _ (ebind _ _) => apply within_bind; [apply _| |intros ?]
  | |- within _ (eret _) => apply within_ret, _
  | |- within _ (elift _) => apply within_lift, _
  | |- within _ (read_settle _) => by intros ? ?
  | |- within _ (let _ := _ in _) => cbv zeta
  | |- within _ (if _ then elift (Err _) else _) => destruct (_ : bool)
  | |- within _ (recon_put (insert_record _)) => apply insert_record_holds
  | |- within _ (on_recon (update_record _ _)) => by apply update_record_holds
  | |- within _ (on_recon (update_exception _ _)) => by apply update_exception_holds
  | |- within _ _ => apply quiet_holds; rquiet_auto
  end.

Lemma escalate_holds s0 clock x delta : get_exception (rx_exception_id x) s0 = None -> within (keeps (holds s0)) (escalate R clock x delta).
Proof. intros Hn. unfold escalate. repeat hstep. Qed.

Lemma raise_holds s0 clock record tier reason amount now : within (keeps (holds s0)) (_raise_exception R clock record tier reason amount now).
Proof.
  unfold _raise_exception. do 2 (destruct (negb _); [apply within_lift, _|]). do 2 hstep. cbv zeta. intros w Hh.
  set (row := exception_row _ _ _ _ _ _ _ _). rewrite ebind_eq. pose proof (insert_exception_holds s0 row w Hh) as Hi.
  destruct (recon_put (insert_exception row) w) as [[u|e] w1] eqn:Hp; [|done].
  apply recon_put_Ok, insert_exception_Ok in Hp as [Hn _]. assert (Hn0 : get_exception (rx_exception_id row) s0 = None).
  { destruct (get_exception (rx_exception_id row) s0) as [y|] eqn:Hy; [|done]. destruct Hh as [_ Hx]. rewrite (Hx _ _ Hy) in Hn. discriminate Hn. }
  revert w1 Hi. match goal with |- forall w1, _ -> holds s0 (?c w1).2 => change (within (keeps (holds s0)) c) end.
  repeat hstep. destruct (rr_delta_minor record) as [delta|]; [|hstep]. destruct (_ <? _); [by apply escalate_holds|hstep].
Qed.

Lemma ingest_result_holds s0 clock id batch line now result report : get_record id s0 = None ->
  within (keeps (holds s0)) (ingest_result R clock id batch line now result report).
Proof.
  intros Hn. unfold ingest_result, ingest_matched, ingest_ambiguous, ingest_mismatch, ingest_gap, ingest_unmatched.
  repeat (match goal with |- within _ (if ?b then _ else _) => destruct b | |- within _ (match ?x with _ => _ end) => destruct x end || apply raise_holds || hstep).
Qed.

Lemma ingest_line_holds s0 clock batch line now report : within (keeps (holds s0)) (_ingest_line R clock batch line now report).
Proof.
  unfold _ingest_line. hstep. intros w Hh. rewrite ebind_eq. unfold read_recon at 1. rewrite ebind_eq. cbn [eget eret].
  destruct (get_record a (rw_store w)) as [r|] eqn:Hr; [done|]. assert (Hn : get_record a s0 = None).
  { destruct (get_record a s0) as [y|] eqn:Hy; [|done]. destruct Hh as [Hx _]. rewrite (Hx _ _ Hy) in Hr. discriminate Hr. }
  revert w Hh Hr. match goal with |- forall w, _ -> _ -> holds s0 (?c w).2 => intros w Hh _; revert w Hh; change (within (keeps (holds s0)) c) end.
  destruct (nl_parse_failed line).
  - unfold ingest_dead. repeat (apply raise_holds || hstep).
  - repeat hstep. by apply ingest_result_holds.
Qed.

Lemma answered_later s0 w id : holds s0 w -> answered s0 id -> answered (rw_store w) id.
Proof.
  intros [Hr Hx] (r & Hg & Hst & Hc). exists r. split_and!; [by apply Hr|done|]. destruct Hc as [?|(k & x & Hk & Hrest)]; [by left|].
  right. exists k, x. split; [by apply Hx|done].
Qed.

(** ** One line *)

(** What a line that raised nothing has: a record, and an answer if the record is new. *)
Definition line_done (s0 s : ReconStore) (line : NormalizedReconLine) : Prop :=
  exists id, record_id_of line = Ok id /\ is_Some (get_record id s) /\ (get_record id s0 = None -> answered s id).

Lemma ingest_line_Ok clock batch line now report w rep w' : _ingest_line R clock batch line now report w = (Ok rep, w') ->
  line_done (rw_store w) (rw_store w') line /\ errors rep = errors report /\ n_lines rep = n_lines report.
Proof.
  unfold _ingest_line. intros Hc. rewrite ebind_eq in Hc. unfold elift at 1 in Hc. unfold r_res, s_res in Hc.
  destruct (record_id_of line) as [id|] eqn:Hid; [|done]. unfold read_recon in Hc. rewrite !ebind_eq in Hc. cbn [eget eret] in Hc.
  destruct (get_record id (rw_store w)) as [r|] eqn:Hr.
  { inv_eff. split; [|done]. exists id. split_and!; [done|by exists r|congruence]. }
  assert (Hdone : answered (rw_store w') id /\ errors rep = errors report /\ n_lines rep = n_lines report ->
    line_done (rw_store w) (rw_store w') line /\ errors rep = errors report /\ n_lines rep = n_lines report).
  { intros [Ha Hrest]. split; [|done]. exists id. split_and!; [done| |done]. destruct Ha as (y & Hy & _). by exists y. }
  apply Hdone. destruct (nl_parse_failed line).
  - unfold ingest_dead in Hc. inv_eff. match goal with H : recon_put _ _ = _ |- _ => apply recon_put_Ok, insert_record_Ok in H as [Hn Hs] end. quiet_eqs.
    match goal with H : _raise_exception _ _ _ _ _ _ _ _ = _ |- _ => apply raise_Ok in H as [Hrec Haw] end. split; [|done].
    exists (_record_row R id batch line now "DEAD_LETTER"). split_and!; [|done|right; exact Haw].
    unfold get_record. rewrite Hrec. match goal with |- context [rw_store ?a] => match type of Hs with rw_store ?b = _ => assert (rw_store a = rw_store b) as -> by congruence end end.
    rewrite Hs. cbn [rs_records]. rewrite find_snoc. unfold get_record in Hr. rewrite Hr. unfold has_key. cbn. by rewrite String.eqb_refl.
  - inv_eff. match goal with H : read_settle _ _ = _ |- _ => unfold read_settle in H; inv_eff end.
    match goal with H : recon_put _ _ = (_, ?x) |- _ => assert (Ht : st_of x = st_of w) by (unfold recon_put, on_recon in H; destruct (insert_record _ _); [|done]; cbn in H; by simplify_eq);
      apply recon_put_Ok, insert_record_Ok in H as [Hn Hs] end.
    eapply ingest_result_Ok; [| |exact Hc].
    + rewrite Hs. unfold get_record in *. cbn [rs_records]. rewrite find_snoc, Hr. unfold has_key. cbn. by rewrite String.eqb_refl.
    + rewrite Ht. by eapply cascade_verdict.
Qed.

Lemma insert_record_only r : within (only_record (rr_record_id r)) (recon_put (insert_record r)).
Proof.
  intros w k Hk. unfold recon_put, on_recon. destruct (insert_record r (rw_store w)) as [s'|e] eqn:Hi; [|done]. cbn [rbind snd rw_store].
  apply insert_record_Ok in Hi as [Hn ->]. unfold get_record. cbn [rs_records]. rewrite find_snoc. unfold has_key at 2.
  apply not_eq_sym, String.eqb_neq in Hk. rewrite Hk. by destruct (List.find _ _).
Qed.
Lemma insert_exception_only k x : within (only_record k) (recon_put (insert_exception x)).
Proof.
  intros w k' Hk. unfold recon_put, on_recon. destruct (insert_exception x (rw_store w)) as [s'|e] eqn:Hi; [|done].
  by apply insert_exception_Ok in Hi as [Hn ->].
Qed.
Lemma raise_only k clock record tier reason amount now : within (only_record k) (_raise_exception R clock record tier reason amount now).
Proof. unfold _raise_exception, escalate. repeat (cbv zeta || apply insert_exception_only || only_step). Qed.

Lemma ingest_line_only clock batch line now report id : record_id_of line = Ok id -> within (only_record id) (_ingest_line R clock batch line now report).
Proof.
  intros Hid. unfold _ingest_line. rewrite Hid. cbn [s_res r_res]. apply within_bind_lift; [apply _|]. intros k [= <-].
  unfold ingest_dead, ingest_result, ingest_matched, ingest_ambiguous, ingest_mismatch, ingest_gap, ingest_unmatched.
  repeat (cbv zeta || apply raise_only || match goal with |- within _ (recon_put (insert_record ?r)) => exact (insert_record_only r) end || only_step).
Qed.

(** ** A file *)

(** Every record that is not in [s0] has its answer. *)
Definition new_answered (s0 : ReconStore) (w : RWorld) : Prop :=
  forall id, get_record id s0 = None -> is_Some (get_record id (rw_store w)) -> answered (rw_store w) id.

Lemma ingest_line_answers s0 clock batch line now report w rep w' : _ingest_line R clock batch line now report w = (Ok rep, w') ->
  new_answered s0 w -> new_answered s0 w'.
Proof.
  intros Hc Hn k Hk Hs. pose proof (ingest_line_holds (rw_store w) clock batch line now report w (conj (fun _ _ h => h) (fun _ _ h => h))) as Hh.
  rewrite Hc in Hh. cbn [snd] in Hh. destruct (get_record k (rw_store w)) as [r|] eqn:Hr; [eapply answered_later; [exact Hh|]; apply Hn; [done|by exists r]|].
  destruct (ingest_line_Ok _ _ _ _ _ _ _ _ Hc) as [(id & Hid & _ & Ha) _]. destruct (decide (k = id)) as [->|Hne]; [by apply Ha|].
  pose proof (ingest_line_only clock batch line now report id Hid w k Hne) as Ho. rewrite Hc in Ho. cbn [snd] in Ho. rewrite Ho, Hr in Hs. by destruct Hs.
Qed.

Lemma ingest_loop_Ok clock batch lines now : forall report w rep w', ingest_loop R clock batch lines now report w = (Ok rep, w') -> errors rep = [] ->
  errors report = [] /\ holds (rw_store w) w' /\ n_lines rep = n_lines report + Z.of_nat (length lines) /\
  (forall s0, new_answered s0 w -> new_answered s0 w') /\
  forall line, line ∈ lines -> exists id, record_id_of line = Ok id /\ is_Some (get_record id (rw_store w')).
Proof.
  induction lines as [|line lines IH]; intros report w rep w' Hc He.
  { cbn in Hc. inv_eff. split_and!; [done|by split|cbn; lia|done|by intros ? ?%not_elem_of_nil]. }
  cbn [ingest_loop] in Hc. cbv zeta in Hc. rewrite ebind_eq in Hc. unfold catching in Hc.
  pose proof (ingest_line_holds (rw_store w) clock batch line now (one_line report) w (conj (fun _ _ h => h) (fun _ _ h => h))) as Hh.
  destruct (_ingest_line R clock batch line now (one_line report) w) as [[rep1|e] w1] eqn:Hline; cbn [snd] in Hh.
  - destruct (IH _ _ _ _ Hc He) as (He1 & Hh1 & Hn1 & Ha1 & Hl1). destruct (ingest_line_Ok _ _ _ _ _ _ _ _ Hline) as [(id & Hid & Hs & _) [Herr Hn]].
    split_and!; [rewrite <- He1, Herr; done| |rewrite Hn1, Hn; cbn; lia| |].
    + destruct Hh as [Hr Hx], Hh1 as [Hr1 Hx1]. split; auto.
    + intros s0 Hs0. eapply Ha1, ingest_line_answers; [exact Hline|done].
    + intros l [->|Hl]%elem_of_cons; [|by apply Hl1]. exists id. split; [done|]. destruct Hs as [r Hr]. exists r. by apply Hh1.
  - destruct (is_recon_error e); [|done]. destruct (IH _ _ _ _ Hc He) as (He1 & _). cbn in He1. by destruct (errors report).
Qed.

(** A file whose lines are all on record changes nothing. *)
Lemma reingest_loop clock batch lines now w : (forall line, line ∈ lines -> exists id, record_id_of line = Ok id /\ is_Some (get_record id (rw_store w))) ->
  forall report, ingest_loop R clock batch lines now report w = (Ok (Nat.iter (length lines) one_line report), w).
Proof.
  induction lines as [|line lines IH]; intros Hl report; [done|]. cbn [ingest_loop]. cbv zeta. destruct (Hl line (list_elem_of_here _ _)) as (id & Hid & r & Hr).
  rewrite ebind_eq. unfold catching, _ingest_line. rewrite ebind_eq. rewrite Hid. cbn [s_res r_res elift]. rewrite ebind_eq. unfold read_recon.
  rewrite ebind_eq. cbn [eget eret]. rewrite Hr. unfold eret. cbv beta iota. rewrite IH by (intros l Hin; by apply Hl, list_elem_of_further). cbn [length]. by rewrite Nat.iter_succ_r.
Qed.

(** * Theorems *)

(** Reconciliation refines its two transition tables.  In every history of calls,
    errors raised half way and settlement activity: each record and each exception is
    in a declared state; any later history moves it along its table only and leaves the
    line it was read from, its reason and its deadline as they were; a MATCHED or
    DEAD_LETTER record and a RESOLVED or CLOSED exception are final; none disappears. *)
Theorem recon_follows_its_tables calls later :
  let w := rhistory E R calls in let w' := rhistory E R (calls ++ later) in
  (forall k r, get_record k (rw_store w) = Some r -> rr_match_status r ∈ RECORD_STATES /\
     exists r', get_record k (rw_store w') = Some r' /\ record_move r r' /\
       (rr_match_status r ∈ RECORD_TERMINAL_STATES -> rr_match_status r' = rr_match_status r)) /\
  (forall k x, get_exception k (rw_store w) = Some x -> rx_status x ∈ EXCEPTION_STATES /\
     exists x', get_exception k (rw_store w') = Some x' /\ exception_move x x' /\
       (rx_status x ∈ EXCEPTION_TERMINAL_STATES -> rx_status x' = rx_status x)).
Proof.
  intros w w'. destruct (run_followed calls rstart rwf_start) as [Hr0 Hx0]. fold (rhistory E R calls) in Hr0, Hx0. fold w in Hr0, Hx0.
  assert (Hf : tables_followed w w').
  { unfold w', rhistory. rewrite foldl_app. apply run_followed, rhistory_wf. }
  destruct Hf as [Hr Hx]. split.
  - intros k r Hg. specialize (Hr0 k). cbn in Hr0. split; [eapply (stays_within RECORD_TRANSITIONS); [reflexivity|apply list_elem_of_here|by apply Hr0]|].
    specialize (Hr k). cbn in Hr. rewrite Hg in Hr. destruct Hr as (r' & Hg' & Hm). exists r'. split_and!; [done..|]. intros Ht.
    eapply (closed_stays RECORD_TRANSITIONS); [|apply Hm]. apply list_elem_of_In in Ht. cbn in Ht. by destruct Ht as [<-|[<-|[]]].
  - intros k x Hg. specialize (Hx0 k). cbn in Hx0. split; [eapply (stays_within EXCEPTION_TRANSITIONS); [reflexivity|apply list_elem_of_here|by apply Hx0]|].
    specialize (Hx k). cbn in Hx. rewrite Hg in Hx. destruct Hx as (x' & Hg' & Hm). exists x'. split_and!; [done..|]. intros Ht.
    eapply (closed_stays EXCEPTION_TRANSITIONS); [|apply Hm]. apply list_elem_of_In in Ht. cbn in Ht. by destruct Ht as [<-|[<-|[]]].
Qed.

(** C16: a match is exact or a person's.  In every history with the settlement engine, a
    record in MATCHED either names a settlement instruction that exists, goes in the
    line's direction and pays exactly the amount of the line, with no difference on
    record, or a call of [resolve] was made on an exception of that record.  A record
    that carries a difference names an instruction whose payout differs from the line by
    just that. *)
Theorem matches_are_exact calls k r : let w := rhistory E R calls in get_record k (rw_store w) = Some r ->
  (rr_match_status r = "MATCHED"%string -> exact (sw_store (rw_settle w)) r \/ resolved_by_finance calls w k) /\
  (is_Some (rr_delta_minor r) -> off_by (sw_store (rw_settle w)) r).
Proof.
  intros w Hg. split; [by apply matched_history|]. intros [d Hd]. destruct (rhistory_wf calls) as (_ & _ & Hs). specialize (Hs k r Hg).
  unfold record_sound in Hs. destruct (rr_matched_instruction_id r); [|congruence]. destruct Hs as [[[Hn _] _]|[Ho _]]; [congruence|done].
Qed.

(** C17: an adjustment is approved and in the books.  In every history, an exception that
    was resolved by a write-off or a transfer to suspense records a positive amount, an
    approval if the amount is above the two-eyes threshold, and the id of a journal entry;
    the ledger holds that entry, posted for exactly this amount between the accounts of
    the action. *)
Theorem adjustments_are_approved_and_booked calls : let w := rhistory E R calls in
  forall k x, get_exception k (rw_store w) = Some x -> adjusted (sw_led (rw_settle w)) x.
Proof. apply adjusted_history. Qed.

(** C18: no line of a file is lost.  When an ingestion returns a report without errors, the
    report counts every line and every line has its record; a record that was not there
    before is matched or has an exception that is open or escalated.  Ingesting the file
    again, then or after later changes that keep the records, answers a report without
    any finding and changes nothing. *)
Theorem no_line_is_lost clock batch lines now w rep w' : ingest R clock batch lines now w = (Ok rep, w') -> errors rep = [] ->
  n_lines rep = Z.of_nat (length lines) /\
  (forall line, line ∈ lines -> exists id, record_id_of line = Ok id /\ is_Some (get_record id (rw_store w')) /\
     (get_record id (rw_store w) = None -> answered (rw_store w') id)) /\
  (forall clock2 batch2 t w2, (forall id, is_Some (get_record id (rw_store w')) -> is_Some (get_record id (rw_store w2))) ->
     ingest R clock2 batch2 lines (Some t) w2 = (Ok (Nat.iter (length lines) one_line empty_report), w2)).
Proof.
  unfold ingest. intros Hc He. inv_eff. destruct (ingest_loop_Ok _ _ _ _ _ _ _ _ Hc He) as (_ & Hh & Hn & Ha & Hl). split_and!; [done| |].
  - intros line Hin. destruct (Hl line Hin) as (id & Hid & Hs). exists id. split_and!; [done..|]. intros Hnew.
    apply (Ha (rw_store w)); [|done..]. intros k Hk [r Hr]. congruence.
  - intros clock2 batch2 t w2 Hkeep. rewrite ebind_eq. cbn [recon_now_or elift]. apply reingest_loop. intros line Hin.
    destruct (Hl line Hin) as (id & Hid & Hs). eauto.
Qed.
End Facts.

(** * A reconciliation run *)

#[local] Existing Instance quick_hash.

Definition suspense : string := match system_account_id "SUSPENSE" "recon_suspense" with Ok a => a | Err _ => "" end.
Definition mdr : string := match system_account_id "MDR_INCOME" "mdr_earned" with Ok a => a | Err _ => "" end.

Definition demo_recon : ReconEngine := mk_ReconEngine demo_cfg (mk_Calendar [] 0 1 0) suspense tcsa mdr RECON_PRODUCER true.

Definition cycle_day : Z := Eval vm_compute in match ss_batches (sw_store (shistory demo_engine settle_open)) with b :: _ => sb_cycle_date b | [] => 0 end.

Definition bank_line (amount day : Z) (hash : string) : NormalizedReconLine :=
  mk_NormalizedReconLine "beftn_batch_v2" None (Some amount) (Some "CREDIT"%string) (Some day) None hash false None.
Definition bad_line : NormalizedReconLine := mk_NormalizedReconLine "beftn_batch_v2" None None None None None "h-bad" true (Some "no amount"%string).

Definition recon_books : list (datetime * rcall) :=
  ((fun op => (demo_clock, Settling (OtherLedger op))) <$>
    [OpCreateAccount (demo_account "ASSET" "SUSPENSE" "recon_suspense") demo_clock; OpCreateAccount (demo_account "INCOME" "MDR_INCOME" "mdr_earned") demo_clock]).
Definition recon_settled : list (datetime * rcall) := ((fun a => (a.1, Settling a.2)) <$> settle_confirmed) ++ recon_books.

Abbreviation at_recon := (rhistory demo_engine demo_recon).

(** A payout, one the bank knows alone, an old one, and a line that cannot be read. *)
Definition demo_file : list NormalizedReconLine :=
  [bank_line 19500 cycle_day "h-1"; bank_line 77 cycle_day "h-2"; bank_line 60000 (cycle_day - 30) "h-3"; bad_line].
Definition recon_read : list (datetime * rcall) := recon_settled ++ [(at_second 20, Ingest (Some demo_batch) demo_file None)].

Definition recon_view (w : RWorld) : list (string * option Z) * list (string * string) :=
  ((fun r => (rr_match_status r, rr_match_level r)) <$> rs_records (rw_store w), (fun x => (rx_reason_code x, rx_status x)) <$> rs_exceptions (rw_store w)).

Example demo_file_is_read : recon_view (at_recon recon_read) =
  ([("MATCHED", Some 2); ("TIMING_GAP", None); ("UNMATCHED", None); ("DEAD_LETTER", None)],
   [("TIMING_GAP", "OPEN"); ("TIMING_GAP_EXPIRED", "OPEN"); ("PARSE_ERROR", "OPEN")])%string.
Proof. vm_compute. reflexivity. Qed.

Definition demo_record : ReconciliationRecordRow :=
  Eval vm_compute in List.hd (_record_row demo_recon "" None bad_line demo_clock "") (rs_records (rw_store (at_recon recon_read))).

Lemma matches_are_exact_witness : get_record (rr_record_id demo_record) (rw_store (at_recon recon_read)) = Some demo_record /\
  (exact (sw_store (rw_settle (at_recon recon_read))) demo_record \/ resolved_by_finance recon_read (at_recon recon_read) (rr_record_id demo_record)).
Proof.
  assert (Hg : get_record (rr_record_id demo_record) (rw_store (at_recon recon_read)) = Some demo_record) by (vm_compute; reflexivity).
  split; [exact Hg|]. apply (matches_are_exact demo_engine demo_recon recon_read (rr_record_id demo_record) demo_record Hg). reflexivity.
Defined.

(** The old line is parked in suspense, above the threshold and so with an approval. *)
Definition expired_id : string :=
  Eval vm_compute in match rs_exceptions (rw_store (at_recon recon_read)) with _ :: x :: _ => rx_exception_id x | _ => "" end.
Definition park (approval : option string) (outcome : string) : rcall :=
  Resolve expired_id "SUSPENSE_TRANSFER" "op_1" outcome (Some 60000) approval None None None.
Definition recon_assigned : list (datetime * rcall) := recon_read ++ [(at_second 21, AssignTo expired_id "op_1")].
Definition recon_parked : list (datetime * rcall) := recon_assigned ++ [(at_second 22, park (Some "appr_9"%string) "DEAD_LETTER")].
Definition parked : ReconciliationExceptionRow :=
  Eval vm_compute in default (exception_row demo_recon demo_record "" "" "" None demo_clock demo_clock) (get_exception expired_id (rw_store (at_recon recon_parked))).

Example parking_needs_approval : (rinvoke demo_engine demo_recon (at_second 22) (park None "DEAD_LETTER") (at_recon recon_assigned)).1 = Err ReconGuardError.
Proof. vm_compute. reflexivity. Qed.

Lemma adjustments_are_approved_and_booked_witness : get_exception expired_id (rw_store (at_recon recon_parked)) = Some parked /\
  rx_status parked = "RESOLVED"%string /\ exists amount key, rx_adjustment_amount_minor parked = Some amount /\
    RECON_ADJUSTMENT_APPROVAL_THRESHOLD_MINOR < amount /\
    recorded (sw_led (rw_settle (at_recon recon_parked))) (resolution_entry demo_recon (rx_exception_id parked) "SUSPENSE_TRANSFER" key amount).
Proof.
  assert (Hg : get_exception expired_id (rw_store (at_recon recon_parked)) = Some parked) by (vm_compute; reflexivity).
  split; [exact Hg|]. split; [reflexivity|].
  destruct (adjustments_are_approved_and_booked demo_engine demo_recon recon_parked expired_id parked Hg eq_refl "SUSPENSE_TRANSFER" eq_refl eq_refl)
    as (amount & key & Ha & _ & _ & _ & Hr & _).
  exists amount, key. split; [exact Ha|]. split; [injection Ha as <-; reflexivity|exact Hr].
Defined.

Lemma no_line_is_lost_witness : exists rep w', ingest demo_recon (at_second 20) None demo_file None (at_recon recon_settled) = (Ok rep, w') /\
  errors rep = [] /\ n_lines rep = 4 /\
  ingest demo_recon (at_second 30) None demo_file (Some (at_second 30)) w' = (Ok (Nat.iter 4 one_line empty_report), w').
Proof.
  destruct (ingest demo_recon (at_second 20) None demo_file None (at_recon recon_settled)) as [[rep|e] w'] eqn:Hc.
  2: { exfalso. assert (Hf : match (ingest demo_recon (at_second 20) None demo_file None (at_recon recon_settled)).1 with Ok _ => True | Err _ => False end)
         by (vm_compute; exact I). rewrite Hc in Hf. exact Hf. }
  assert (He : match (ingest demo_recon (at_second 20) None demo_file None (at_recon recon_settled)).1 with Ok rep => errors rep = [] | Err _ => False end)
    by (vm_compute; reflexivity).
  rewrite Hc in He. exists rep, w'. split; [reflexivity|]. split; [exact He|].
  destruct (no_line_is_lost demo_recon (at_second 20) None demo_file None (at_recon recon_settled) rep w' Hc He) as (Hn & _ & Hagain).
  split; [exact Hn|]. apply Hagain. auto.
Defined.

(** * Findings *)

(** A timing gap that somebody looks into stops the automatic retry: the payout settles,
    the record is matched, and the call raises because the exception is no longer OPEN. *)
Definition gap_read : list (datetime * rcall) :=
  ((fun a => (a.1, Settling a.2)) <$> settle_dispatched) ++ [(at_second 20, Ingest (Some demo_batch) [bank_line 19500 cycle_day "h-1"] None)].
Definition gap_id : string := Eval vm_compute in match rs_exceptions (rw_store (at_recon gap_read)) with x :: _ => rx_exception_id x | _ => "" end.
Definition gap_reviewed : list (datetime * rcall) :=
  gap_read ++ [(at_second 21, AssignTo gap_id "op_1"); (at_second 22, Settling (BankConfirms demo_batch (Some "bank-ref"%string) [] None))].

Example reviewed_gap_stops_the_retry :
  ((rinvoke demo_engine demo_recon (at_second 23) (RetryGaps None) (at_recon gap_reviewed)).1,
   recon_view (at_recon (gap_reviewed ++ [(at_second 23, RetryGaps None)]))) =
  (Err ReconInvalidTransitionError, ([("MATCHED", Some 2)], [("TIMING_GAP", "IN_REVIEW")])%string).
Proof. vm_compute. reflexivity. Qed.

(** A resolution with a record outcome the table refuses raises after its entry was
    posted; the same action is refused as a duplicate from then on. *)
Definition suspense_balance (w : RWorld) : Z := store_get_balance (sw_led (rw_settle w)) suspense.
Definition recon_refused : list (datetime * rcall) := recon_assigned ++ [(at_second 22, park (Some "appr_9"%string) "MATCHD")].

Definition is_duplicate {A} (r : res rexn A) : bool := match r with Err (RSettle (SLedger (LedgerDuplicateError _ _))) => true | _ => false end.

Example refused_resolution_moves_money :
  ((rinvoke demo_engine demo_recon (at_second 22) (park (Some "appr_9"%string) "MATCHD") (at_recon recon_assigned)).1,
   suspense_balance (at_recon recon_refused), rx_status <$> get_exception expired_id (rw_store (at_recon recon_refused)),
   is_duplicate (rinvoke demo_engine demo_recon (at_second 23) (park (Some "appr_9"%string) "DEAD_LETTER") (at_recon recon_refused)).1) =
  (Err ReconInvalidTransitionError, -60000, Some "IN_REVIEW"%string, true).
Proof. vm_compute. reflexivity. Qed.

(** Two credits of one payout both match its one instruction. *)
Example paid_twice_is_matched_twice :
  rr_matched_instruction_id <$> rs_records (rw_store (at_recon (recon_settled ++
    [(at_second 20, Ingest None [bank_line 19500 cycle_day "h-1"; bank_line 19500 cycle_day "h-1b"] None)]))) =
  [rr_matched_instruction_id demo_record; rr_matched_instruction_id demo_record].
Proof. vm_compute. reflexivity. Qed.
