(* ===== verification/KernelModels.v ===== *)
(** Records and store of the payment kernel: kernel/models.py, the in-memory
    store of kernel/repository.py and the kernel's additive ids (kernel/ids_ext.py).
    A dictionary is the list of its rows in insertion order. *)
From S2P Require Import Prelude Rows Exceptions DateTime Sha256 Canonical Fsm PaymentStates Outbox.
Open Scope Z_scope.

(** The exceptions of the kernel, with the machine-readable code where there is one. *)
Inductive kexn : Type :=
| InvalidRequestError (code : string)
| NotFoundError
| ConflictError (code : string)
| IdempotencyConflictError
| LimitExceededError (code : string)
| SanctionsBlockError (code : string)
| AmlBlockError (code : string)
| NoConnectorAvailableError
| TransitionDenied (d : TransitionDeniedError)   (* a [ConflictError] *)
| ValueError
| RuntimeError (failures : nat)
| RailError (message : string)                  (* the connector runner raised *)
| KOutbox (e : ob_error)
| KRaised (e : exn).

Definition MAX_METADATA_KEYS : nat := 10.
Definition MAX_METADATA_VALUE_LENGTH : nat := 64.

Definition _require_positive_minor (value : Z) : res kexn unit :=
  raise (InvalidRequestError "amount_not_positive") when (value <=? 0) else Ok tt.

Definition k_require_aware (d : datetime) : res kexn unit :=
  raise (InvalidRequestError "invalid_request") when (negb (tz_aware d)) else Ok tt.

Definition validate_metadata (metadata : list (string * string)) : res kexn unit :=
  raise (InvalidRequestError "metadata_invalid") when (MAX_METADATA_KEYS <? length metadata)%nat else
  raise (InvalidRequestError "metadata_invalid")
    when (List.existsb (fun kv => (MAX_METADATA_VALUE_LENGTH <? py_len kv.2)%nat) metadata) else
  Ok tt.

Record PaymentIntentRecord : Type := mk_PaymentIntentRecord {
  pi_payment_intent_id : string;
  pi_merchant_id : string;
  pi_amount_minor : Z;
  pi_method : string;
  pi_expires_at : datetime;
  pi_created_at : datetime;
  pi_updated_at : datetime;
  pi_customer_id : option string;
  pi_currency : string;
  pi_capture_method : string;
  pi_status : string;
  pi_description : option string;
  pi_statement_descriptor : option string;
  pi_metadata : list (string * string);
  pi_idempotency_key : option string;
  pi_client_secret_hash : option string;
  pi_latest_attempt_id : option string;
  pi_succeeded_at : option datetime;
  pi_delivery_confirmed_at : option datetime;
  pi_cancelled_at : option datetime;
  pi_reversed_at : option datetime;
  pi_deferred_until : option datetime;
  pi_schema_version : Z
}.

Definition pi_set_status (v_status : string) (v_updated_at : datetime) (r : PaymentIntentRecord) : PaymentIntentRecord :=
  mk_PaymentIntentRecord (pi_payment_intent_id r) (pi_merchant_id r) (pi_amount_minor r) (pi_method r)
    (pi_expires_at r) (pi_created_at r) v_updated_at (pi_customer_id r) (pi_currency r) (pi_capture_method
    r) v_status (pi_description r) (pi_statement_descriptor r) (pi_metadata r) (pi_idempotency_key r)
    (pi_client_secret_hash r) (pi_latest_attempt_id r) (pi_succeeded_at r) (pi_delivery_confirmed_at r)
    (pi_cancelled_at r) (pi_reversed_at r) (pi_deferred_until r) (pi_schema_version r).
Definition pi_set_method (v_method : string) (r : PaymentIntentRecord) : PaymentIntentRecord :=
  mk_PaymentIntentRecord (pi_payment_intent_id r) (pi_merchant_id r) (pi_amount_minor r) v_method
    (pi_expires_at r) (pi_created_at r) (pi_updated_at r) (pi_customer_id r) (pi_currency r)
    (pi_capture_method r) (pi_status r) (pi_description r) (pi_statement_descriptor r) (pi_metadata r)
    (pi_idempotency_key r) (pi_client_secret_hash r) (pi_latest_attempt_id r) (pi_succeeded_at r)
    (pi_delivery_confirmed_at r) (pi_cancelled_at r) (pi_reversed_at r) (pi_deferred_until r)
    (pi_schema_version r).
Definition pi_set_deferred (v_deferred_until : option datetime) (v_updated_at : datetime) (r : PaymentIntentRecord) : PaymentIntentRecord :=
  mk_PaymentIntentRecord (pi_payment_intent_id r) (pi_merchant_id r) (pi_amount_minor r) (pi_method r)
    (pi_expires_at r) (pi_created_at r) v_updated_at (pi_customer_id r) (pi_currency r) (pi_capture_method
    r) (pi_status r) (pi_description r) (pi_statement_descriptor r) (pi_metadata r) (pi_idempotency_key r)
    (pi_client_secret_hash r) (pi_latest_attempt_id r) (pi_succeeded_at r) (pi_delivery_confirmed_at r)
    (pi_cancelled_at r) (pi_reversed_at r) v_deferred_until (pi_schema_version r).
Definition pi_set_latest (v_latest_attempt_id : option string) (r : PaymentIntentRecord) : PaymentIntentRecord :=
  mk_PaymentIntentRecord (pi_payment_intent_id r) (pi_merchant_id r) (pi_amount_minor r) (pi_method r)
    (pi_expires_at r) (pi_created_at r) (pi_updated_at r) (pi_customer_id r) (pi_currency r)
    (pi_capture_method r) (pi_status r) (pi_description r) (pi_statement_descriptor r) (pi_metadata r)
    (pi_idempotency_key r) (pi_client_secret_hash r) v_latest_attempt_id (pi_succeeded_at r)
    (pi_delivery_confirmed_at r) (pi_cancelled_at r) (pi_reversed_at r) (pi_deferred_until r)
    (pi_schema_version r).
Definition pi_set_amount (v_amount_minor : Z) (v_updated_at : datetime) (r : PaymentIntentRecord) : PaymentIntentRecord :=
  mk_PaymentIntentRecord (pi_payment_intent_id r) (pi_merchant_id r) v_amount_minor (pi_method r)
    (pi_expires_at r) (pi_created_at r) v_updated_at (pi_customer_id r) (pi_currency r) (pi_capture_method
    r) (pi_status r) (pi_description r) (pi_statement_descriptor r) (pi_metadata r) (pi_idempotency_key r)
    (pi_client_secret_hash r) (pi_latest_attempt_id r) (pi_succeeded_at r) (pi_delivery_confirmed_at r)
    (pi_cancelled_at r) (pi_reversed_at r) (pi_deferred_until r) (pi_schema_version r).
Definition pi_set_delivered (v_delivery_confirmed_at : option datetime) (v_updated_at : datetime) (r : PaymentIntentRecord) : PaymentIntentRecord :=
  mk_PaymentIntentRecord (pi_payment_intent_id r) (pi_merchant_id r) (pi_amount_minor r) (pi_method r)
    (pi_expires_at r) (pi_created_at r) v_updated_at (pi_customer_id r) (pi_currency r) (pi_capture_method
    r) (pi_status r) (pi_description r) (pi_statement_descriptor r) (pi_metadata r) (pi_idempotency_key r)
    (pi_client_secret_hash r) (pi_latest_attempt_id r) (pi_succeeded_at r) v_delivery_confirmed_at
    (pi_cancelled_at r) (pi_reversed_at r) (pi_deferred_until r) (pi_schema_version r).
Definition pi_set_succeeded (v_succeeded_at : option datetime) (r : PaymentIntentRecord) : PaymentIntentRecord :=
  mk_PaymentIntentRecord (pi_payment_intent_id r) (pi_merchant_id r) (pi_amount_minor r) (pi_method r)
    (pi_expires_at r) (pi_created_at r) (pi_updated_at r) (pi_customer_id r) (pi_currency r)
    (pi_capture_method r) (pi_status r) (pi_description r) (pi_statement_descriptor r) (pi_metadata r)
    (pi_idempotency_key r) (pi_client_secret_hash r) (pi_latest_attempt_id r) v_succeeded_at
    (pi_delivery_confirmed_at r) (pi_cancelled_at r) (pi_reversed_at r) (pi_deferred_until r)
    (pi_schema_version r).
Definition pi_set_cancelled (v_cancelled_at : option datetime) (r : PaymentIntentRecord) : PaymentIntentRecord :=
  mk_PaymentIntentRecord (pi_payment_intent_id r) (pi_merchant_id r) (pi_amount_minor r) (pi_method r)
    (pi_expires_at r) (pi_created_at r) (pi_updated_at r) (pi_customer_id r) (pi_currency r)
    (pi_capture_method r) (pi_status r) (pi_description r) (pi_statement_descriptor r) (pi_metadata r)
    (pi_idempotency_key r) (pi_client_secret_hash r) (pi_latest_attempt_id r) (pi_succeeded_at r)
    (pi_delivery_confirmed_at r) v_cancelled_at (pi_reversed_at r) (pi_deferred_until r) (pi_schema_version
    r).
Definition pi_set_reversed (v_reversed_at : option datetime) (r : PaymentIntentRecord) : PaymentIntentRecord :=
  mk_PaymentIntentRecord (pi_payment_intent_id r) (pi_merchant_id r) (pi_amount_minor r) (pi_method r)
    (pi_expires_at r) (pi_created_at r) (pi_updated_at r) (pi_customer_id r) (pi_currency r)
    (pi_capture_method r) (pi_status r) (pi_description r) (pi_statement_descriptor r) (pi_metadata r)
    (pi_idempotency_key r) (pi_client_secret_hash r) (pi_latest_attempt_id r) (pi_succeeded_at r)
    (pi_delivery_confirmed_at r) (pi_cancelled_at r) v_reversed_at (pi_deferred_until r) (pi_schema_version
    r).
Definition pi_set_expires (v_expires_at : datetime) (r : PaymentIntentRecord) : PaymentIntentRecord :=
  mk_PaymentIntentRecord (pi_payment_intent_id r) (pi_merchant_id r) (pi_amount_minor r) (pi_method r)
    v_expires_at (pi_created_at r) (pi_updated_at r) (pi_customer_id r) (pi_currency r) (pi_capture_method
    r) (pi_status r) (pi_description r) (pi_statement_descriptor r) (pi_metadata r) (pi_idempotency_key r)
    (pi_client_secret_hash r) (pi_latest_attempt_id r) (pi_succeeded_at r) (pi_delivery_confirmed_at r)
    (pi_cancelled_at r) (pi_reversed_at r) (pi_deferred_until r) (pi_schema_version r).

Record PaymentAttemptRecord : Type := mk_PaymentAttemptRecord {
  pa_attempt_id : string;
  pa_payment_intent_id : string;
  pa_attempt_number : Z;
  pa_connector_id : string;
  pa_instruction_id : string;
  pa_connector_ref : string;
  pa_amount_minor : Z;
  pa_created_at : datetime;
  pa_updated_at : datetime;
  pa_status : string;
  pa_currency : string;
  pa_rail_transaction_id : option string;
  pa_error_code : option string;
  pa_raw_response_hash : option string;
  pa_poll_count : Z;
  pa_authorized_at : option datetime;
  pa_auth_expires_at : option datetime;
  pa_charged_at : option datetime;
  pa_failed_at : option datetime;
  pa_schema_version : Z
}.

Definition pa_set_status (v_status : string) (v_updated_at : datetime) (r : PaymentAttemptRecord) : PaymentAttemptRecord :=
  mk_PaymentAttemptRecord (pa_attempt_id r) (pa_payment_intent_id r) (pa_attempt_number r) (pa_connector_id
    r) (pa_instruction_id r) (pa_connector_ref r) (pa_amount_minor r) (pa_created_at r) v_updated_at
    v_status (pa_currency r) (pa_rail_transaction_id r) (pa_error_code r) (pa_raw_response_hash r)
    (pa_poll_count r) (pa_authorized_at r) (pa_auth_expires_at r) (pa_charged_at r) (pa_failed_at r)
    (pa_schema_version r).
Definition pa_set_reply (v_rail_transaction_id : option string) (v_error_code : option string) (v_raw_response_hash : option string) (v_updated_at : datetime) (r : PaymentAttemptRecord) : PaymentAttemptRecord :=
  mk_PaymentAttemptRecord (pa_attempt_id r) (pa_payment_intent_id r) (pa_attempt_number r) (pa_connector_id
    r) (pa_instruction_id r) (pa_connector_ref r) (pa_amount_minor r) (pa_created_at r) v_updated_at
    (pa_status r) (pa_currency r) v_rail_transaction_id v_error_code v_raw_response_hash (pa_poll_count r)
    (pa_authorized_at r) (pa_auth_expires_at r) (pa_charged_at r) (pa_failed_at r) (pa_schema_version r).
Definition pa_set_poll_reply (v_rail_transaction_id : option string) (v_raw_response_hash : option string) (v_updated_at : datetime) (r : PaymentAttemptRecord) : PaymentAttemptRecord :=
  mk_PaymentAttemptRecord (pa_attempt_id r) (pa_payment_intent_id r) (pa_attempt_number r) (pa_connector_id
    r) (pa_instruction_id r) (pa_connector_ref r) (pa_amount_minor r) (pa_created_at r) v_updated_at
    (pa_status r) (pa_currency r) v_rail_transaction_id (pa_error_code r) v_raw_response_hash (pa_poll_count
    r) (pa_authorized_at r) (pa_auth_expires_at r) (pa_charged_at r) (pa_failed_at r) (pa_schema_version r).
Definition pa_set_polls (v_poll_count : Z) (v_updated_at : datetime) (r : PaymentAttemptRecord) : PaymentAttemptRecord :=
  mk_PaymentAttemptRecord (pa_attempt_id r) (pa_payment_intent_id r) (pa_attempt_number r) (pa_connector_id
    r) (pa_instruction_id r) (pa_connector_ref r) (pa_amount_minor r) (pa_created_at r) v_updated_at
    (pa_status r) (pa_currency r) (pa_rail_transaction_id r) (pa_error_code r) (pa_raw_response_hash r)
    v_poll_count (pa_authorized_at r) (pa_auth_expires_at r) (pa_charged_at r) (pa_failed_at r)
    (pa_schema_version r).
Definition pa_set_amount (v_amount_minor : Z) (v_updated_at : datetime) (r : PaymentAttemptRecord) : PaymentAttemptRecord :=
  mk_PaymentAttemptRecord (pa_attempt_id r) (pa_payment_intent_id r) (pa_attempt_number r) (pa_connector_id
    r) (pa_instruction_id r) (pa_connector_ref r) v_amount_minor (pa_created_at r) v_updated_at (pa_status
    r) (pa_currency r) (pa_rail_transaction_id r) (pa_error_code r) (pa_raw_response_hash r) (pa_poll_count
    r) (pa_authorized_at r) (pa_auth_expires_at r) (pa_charged_at r) (pa_failed_at r) (pa_schema_version r).
Definition pa_set_authorized (v_authorized_at : option datetime) (v_auth_expires_at : option datetime) (r : PaymentAttemptRecord) : PaymentAttemptRecord :=
  mk_PaymentAttemptRecord (pa_attempt_id r) (pa_payment_intent_id r) (pa_attempt_number r) (pa_connector_id
    r) (pa_instruction_id r) (pa_connector_ref r) (pa_amount_minor r) (pa_created_at r) (pa_updated_at r)
    (pa_status r) (pa_currency r) (pa_rail_transaction_id r) (pa_error_code r) (pa_raw_response_hash r)
    (pa_poll_count r) v_authorized_at v_auth_expires_at (pa_charged_at r) (pa_failed_at r)
    (pa_schema_version r).
Definition pa_set_charged (v_charged_at : option datetime) (r : PaymentAttemptRecord) : PaymentAttemptRecord :=
  mk_PaymentAttemptRecord (pa_attempt_id r) (pa_payment_intent_id r) (pa_attempt_number r) (pa_connector_id
    r) (pa_instruction_id r) (pa_connector_ref r) (pa_amount_minor r) (pa_created_at r) (pa_updated_at r)
    (pa_status r) (pa_currency r) (pa_rail_transaction_id r) (pa_error_code r) (pa_raw_response_hash r)
    (pa_poll_count r) (pa_authorized_at r) (pa_auth_expires_at r) v_charged_at (pa_failed_at r)
    (pa_schema_version r).
Definition pa_set_failed (v_failed_at : option datetime) (r : PaymentAttemptRecord) : PaymentAttemptRecord :=
  mk_PaymentAttemptRecord (pa_attempt_id r) (pa_payment_intent_id r) (pa_attempt_number r) (pa_connector_id
    r) (pa_instruction_id r) (pa_connector_ref r) (pa_amount_minor r) (pa_created_at r) (pa_updated_at r)
    (pa_status r) (pa_currency r) (pa_rail_transaction_id r) (pa_error_code r) (pa_raw_response_hash r)
    (pa_poll_count r) (pa_authorized_at r) (pa_auth_expires_at r) (pa_charged_at r) v_failed_at
    (pa_schema_version r).

Record RefundRecord : Type := mk_RefundRecord {
  rf_refund_id : string;
  rf_payment_intent_id : string;
  rf_attempt_id : string;
  rf_amount_minor : Z;
  rf_reason : string;
  rf_created_at : datetime;
  rf_updated_at : datetime;
  rf_status : string;
  rf_currency : string;
  rf_connector_id : option string;
  rf_connector_ref : option string;
  rf_instruction_id : option string;
  rf_rail_transaction_id : option string;
  rf_raw_response_hash : option string;
  rf_retry_count : Z;
  rf_metadata : list (string * string);
  rf_idempotency_key : option string;
  rf_succeeded_at : option datetime;
  rf_failed_at : option datetime;
  rf_schema_version : Z
}.

Definition rf_set_status (v_status : string) (v_updated_at : datetime) (r : RefundRecord) : RefundRecord :=
  mk_RefundRecord (rf_refund_id r) (rf_payment_intent_id r) (rf_attempt_id r) (rf_amount_minor r) (rf_reason
    r) (rf_created_at r) v_updated_at v_status (rf_currency r) (rf_connector_id r) (rf_connector_ref r)
    (rf_instruction_id r) (rf_rail_transaction_id r) (rf_raw_response_hash r) (rf_retry_count r)
    (rf_metadata r) (rf_idempotency_key r) (rf_succeeded_at r) (rf_failed_at r) (rf_schema_version r).
Definition rf_set_reply (v_rail_transaction_id : option string) (v_raw_response_hash : option string) (v_succeeded_at : option datetime) (v_updated_at : datetime) (r : RefundRecord) : RefundRecord :=
  mk_RefundRecord (rf_refund_id r) (rf_payment_intent_id r) (rf_attempt_id r) (rf_amount_minor r) (rf_reason
    r) (rf_created_at r) v_updated_at (rf_status r) (rf_currency r) (rf_connector_id r) (rf_connector_ref r)
    (rf_instruction_id r) v_rail_transaction_id v_raw_response_hash (rf_retry_count r) (rf_metadata r)
    (rf_idempotency_key r) v_succeeded_at (rf_failed_at r) (rf_schema_version r).
Definition rf_set_failed_at (v_failed_at : option datetime) (r : RefundRecord) : RefundRecord :=
  mk_RefundRecord (rf_refund_id r) (rf_payment_intent_id r) (rf_attempt_id r) (rf_amount_minor r) (rf_reason
    r) (rf_created_at r) (rf_updated_at r) (rf_status r) (rf_currency r) (rf_connector_id r)
    (rf_connector_ref r) (rf_instruction_id r) (rf_rail_transaction_id r) (rf_raw_response_hash r)
    (rf_retry_count r) (rf_metadata r) (rf_idempotency_key r) (rf_succeeded_at r) v_failed_at
    (rf_schema_version r).
Definition rf_set_failed (v_failed_at : option datetime) (v_updated_at : datetime) (r : RefundRecord) : RefundRecord :=
  mk_RefundRecord (rf_refund_id r) (rf_payment_intent_id r) (rf_attempt_id r) (rf_amount_minor r) (rf_reason
    r) (rf_created_at r) v_updated_at (rf_status r) (rf_currency r) (rf_connector_id r) (rf_connector_ref r)
    (rf_instruction_id r) (rf_rail_transaction_id r) (rf_raw_response_hash r) (rf_retry_count r)
    (rf_metadata r) (rf_idempotency_key r) (rf_succeeded_at r) v_failed_at (rf_schema_version r).
Definition rf_set_retry (v_retry_count : Z) (v_updated_at : datetime) (r : RefundRecord) : RefundRecord :=
  mk_RefundRecord (rf_refund_id r) (rf_payment_intent_id r) (rf_attempt_id r) (rf_amount_minor r) (rf_reason
    r) (rf_created_at r) v_updated_at (rf_status r) (rf_currency r) (rf_connector_id r) (rf_connector_ref r)
    (rf_instruction_id r) (rf_rail_transaction_id r) (rf_raw_response_hash r) v_retry_count (rf_metadata r)
    (rf_idempotency_key r) (rf_succeeded_at r) (rf_failed_at r) (rf_schema_version r).

(** * Validation at construction ([__post_init__]), run by [replace] too *)

Definition intent_post_init (r : PaymentIntentRecord) : res kexn PaymentIntentRecord :=
  let* _ := _require_positive_minor (pi_amount_minor r) in
  raise (InvalidRequestError "currency_unsupported") when (negb (String.eqb (pi_currency r) "BDT")) else
  raise (InvalidRequestError "method_unsupported") when (negb (str_in (pi_method r) PAYMENT_METHODS)) else
  raise (InvalidRequestError "capture_method_invalid")
    when (negb (str_in (pi_capture_method r) CAPTURE_METHODS)) else
  raise (InvalidRequestError "invalid_request") when (negb (str_in (pi_status r) INTENT_STATES)) else
  let* _ := validate_metadata (pi_metadata r) in
  let* _ := k_require_aware (pi_expires_at r) in
  let* _ := k_require_aware (pi_created_at r) in
  let* _ := k_require_aware (pi_updated_at r) in
  Ok r.

Definition attempt_post_init (r : PaymentAttemptRecord) : res kexn PaymentAttemptRecord :=
  let* _ := _require_positive_minor (pa_amount_minor r) in
  raise (InvalidRequestError "invalid_request")
    when (negb ((1 <=? pa_attempt_number r) && (pa_attempt_number r <=? 10))) else
  raise (InvalidRequestError "invalid_request") when (negb (str_in (pa_status r) ATTEMPT_STATES)) else
  raise (InvalidRequestError "invalid_request") when (pa_poll_count r <? 0) else
  let* _ := k_require_aware (pa_created_at r) in
  let* _ := k_require_aware (pa_updated_at r) in
  Ok r.

Definition refund_post_init (r : RefundRecord) : res kexn RefundRecord :=
  let* _ := _require_positive_minor (rf_amount_minor r) in
  raise (InvalidRequestError "refund_reason_invalid") when (negb (str_in (rf_reason r) REFUND_REASONS)) else
  raise (InvalidRequestError "invalid_request") when (negb (str_in (rf_status r) REFUND_STATES)) else
  raise (InvalidRequestError "invalid_request") when (rf_retry_count r <? 0) else
  let* _ := validate_metadata (rf_metadata r) in
  let* _ := k_require_aware (rf_created_at r) in
  let* _ := k_require_aware (rf_updated_at r) in
  Ok r.

(** * Ids *)

Definition KERNEL_PREFIXES : list string :=
  ["cref"; "doc"; "ubon"; "uboe"; "mccr"; "agr"; "agrac"; "kybr"; "plv"; "apik"; "vcref"; "kycdoc"; "kycbio";
   "kycrev"; "kyccfg"].

Section KernelIds.
Context `{HashFn}.

Definition make_kernel_id (prefix : string) (payload : pyobj) : res exn string :=
  if str_in prefix PREFIXES then make_id prefix payload
  else
    raise IdPrefixError when (negb (str_in prefix KERNEL_PREFIXES)) else
    raise TypeError when (negb (is_dict payload)) else
    let* h := sha256_canonical payload in
    Ok (prefix +:+ "_" +:+ str_take HASH_LENGTH h).
End KernelIds.

(** * The in-memory store *)

Record PaymentStore : Type := mk_PaymentStore {
  intents : list PaymentIntentRecord;
  attempts : list PaymentAttemptRecord;
  refunds : list RefundRecord
}.

Definition empty_payments : PaymentStore := mk_PaymentStore [] [] [].

Definition set_intents l s := mk_PaymentStore l (attempts s) (refunds s).
Definition set_attempts l s := mk_PaymentStore (intents s) l (refunds s).
Definition set_refunds l s := mk_PaymentStore (intents s) (attempts s) l.

Definition TTL_SWEEP_STATES : list string :=
  ["CREATED"; "REQUIRES_PAYMENT_METHOD"; "REQUIRES_CONFIRMATION"; "PRE_FLIGHT"; "REQUIRES_ACTION"; "PROCESSING";
   "REQUIRES_CAPTURE"].

(** [d[key] = record] where the key is present. *)
Definition put_intent (r : PaymentIntentRecord) (s : PaymentStore) : PaymentStore :=
  set_intents (replace_row pi_payment_intent_id (pi_payment_intent_id r) (fun _ => r) (intents s)) s.
Definition put_attempt (r : PaymentAttemptRecord) (s : PaymentStore) : PaymentStore :=
  set_attempts (replace_row pa_attempt_id (pa_attempt_id r) (fun _ => r) (attempts s)) s.
Definition put_refund (r : RefundRecord) (s : PaymentStore) : PaymentStore :=
  set_refunds (replace_row rf_refund_id (rf_refund_id r) (fun _ => r) (refunds s)) s.

Definition get_intent (i : string) (s : PaymentStore) : option PaymentIntentRecord :=
  List.find (has_key pi_payment_intent_id i) (intents s).
Definition get_attempt (i : string) (s : PaymentStore) : option PaymentAttemptRecord :=
  List.find (has_key pa_attempt_id i) (attempts s).
Definition get_refund (i : string) (s : PaymentStore) : option RefundRecord :=
  List.find (has_key rf_refund_id i) (refunds s).

(** No concurrent transaction in memory: locking is reading. *)
Definition lock_intent (i : string) (s : PaymentStore) : option PaymentIntentRecord := get_intent i s.

Definition find_intent_by_idempotency_key (merchant key : string) (s : PaymentStore) : option PaymentIntentRecord :=
  List.find (fun r => String.eqb (pi_merchant_id r) merchant && bool_decide (pi_idempotency_key r = Some key))
    (intents s).

Definition is_some {A} (o : option A) : bool := match o with Some _ => true | None => false end.

Definition insert_intent (r : PaymentIntentRecord) (s : PaymentStore) : res kexn PaymentStore :=
  raise (ConflictError "duplicate_intent") when (is_some (get_intent (pi_payment_intent_id r) s)) else
  raise (ConflictError "duplicate_idempotency_key")
    when (match pi_idempotency_key r with
          | Some key => is_some (find_intent_by_idempotency_key (pi_merchant_id r) key s)
          | None => false
          end) else
  Ok (set_intents (intents s ++ [r]) s).

Definition update_intent (r : PaymentIntentRecord) (expected : string) (s : PaymentStore) : res kexn PaymentStore :=
  match get_intent (pi_payment_intent_id r) s with
  | None => Err NotFoundError
  | Some current =>
      raise (ConflictError "stale_state_transition") when (negb (String.eqb (pi_status current) expected)) else
      Ok (put_intent r s)
  end.

Definition list_expired_intents (now : datetime) (s : PaymentStore) : list PaymentIntentRecord :=
  sort_by Z.le (fun r => micros (pi_created_at r))
    (List.filter (fun r => str_in (pi_status r) TTL_SWEEP_STATES && dt_leb (pi_expires_at r) now) (intents s)).

(** Lexicographic order of [(created_at, id)]. *)
Definition le_key (a b : Z * string) : Prop := a.1 < b.1 \/ (a.1 = b.1 /\ String.le a.2 b.2).

#[export] Instance le_key_dec : RelDecision le_key.
Proof. intros a b. unfold le_key. apply _. Defined.

Definition opt_is (o : option string) (x : string) : bool :=
  match o with Some y => String.eqb x y | None => true end.

Definition page {A} (limit offset : nat) (l : list A) : list A := take limit (drop offset l).

Definition list_intents (merchant customer status : option string) (limit offset : nat) (s : PaymentStore) :
    list PaymentIntentRecord :=
  page limit offset
    (sort_by le_key (fun r => (micros (pi_created_at r), pi_payment_intent_id r))
      (List.filter (fun r => opt_is merchant (pi_merchant_id r) &&
                             match customer with Some c => bool_decide (pi_customer_id r = Some c) | None => true end &&
                             opt_is status (pi_status r)) (intents s))).

Definition insert_attempt (r : PaymentAttemptRecord) (s : PaymentStore) : res kexn PaymentStore :=
  raise (ConflictError "conflict") when (is_some (get_attempt (pa_attempt_id r) s)) else
  raise (ConflictError "duplicate_connector_ref")
    when (List.existsb (has_key pa_connector_ref (pa_connector_ref r)) (attempts s)) else
  let s := set_attempts (attempts s ++ [r]) s in
  match get_intent (pa_payment_intent_id r) s with
  | None => Ok s
  | Some intent =>
      let* intent := intent_post_init (pi_set_latest (Some (pa_attempt_id r)) intent) in Ok (put_intent intent s)
  end.

Definition find_attempt_by_connector_ref (connector ref : string) (s : PaymentStore) : option PaymentAttemptRecord :=
  List.find (fun a => String.eqb (pa_connector_id a) connector && String.eqb (pa_connector_ref a) ref) (attempts s).

Definition update_attempt (r : PaymentAttemptRecord) (expected : string) (s : PaymentStore) : res kexn PaymentStore :=
  match get_attempt (pa_attempt_id r) s with
  | None => Err NotFoundError
  | Some current =>
      raise (ConflictError "stale_state_transition") when (negb (String.eqb (pa_status current) expected)) else
      Ok (put_attempt r s)
  end.

Definition list_attempts (pid : string) (s : PaymentStore) : list PaymentAttemptRecord :=
  sort_by Z.le pa_attempt_number (List.filter (has_key pa_payment_intent_id pid) (attempts s)).

Definition list_charged_since (since : datetime) (s : PaymentStore) :
    list (PaymentIntentRecord * PaymentAttemptRecord) :=
  sort_by Z.le (fun p => default 0 (micros <$> pa_charged_at p.2))
    (omap (fun a => match pa_charged_at a with
                    | Some t => if dt_leb since t
                                then (fun i => (i, a)) <$> get_intent (pa_payment_intent_id a) s else None
                    | None => None
                    end) (attempts s)).

Definition find_refund_by_idempotency_key (pid key : string) (s : PaymentStore) : option RefundRecord :=
  List.find (fun r => String.eqb (rf_payment_intent_id r) pid && bool_decide (rf_idempotency_key r = Some key))
    (refunds s).

Definition insert_refund (r : RefundRecord) (s : PaymentStore) : res kexn PaymentStore :=
  raise (ConflictError "conflict") when (is_some (get_refund (rf_refund_id r) s)) else
  raise (ConflictError "duplicate_idempotency_key")
    when (match rf_idempotency_key r with
          | Some key => is_some (find_refund_by_idempotency_key (rf_payment_intent_id r) key s)
          | None => false
          end) else
  Ok (set_refunds (refunds s ++ [r]) s).

Definition find_refund_by_connector_ref (connector ref : string) (s : PaymentStore) : option RefundRecord :=
  List.find (fun r => bool_decide (rf_connector_id r = Some connector) && bool_decide (rf_connector_ref r = Some ref))
    (refunds s).

Definition update_refund (r : RefundRecord) (expected : string) (s : PaymentStore) : res kexn PaymentStore :=
  match get_refund (rf_refund_id r) s with
  | None => Err NotFoundError
  | Some current =>
      raise (ConflictError "stale_state_transition") when (negb (String.eqb (rf_status current) expected)) else
      Ok (put_refund r s)
  end.

Definition list_refunds (pid : string) (s : PaymentStore) : list RefundRecord :=
  sort_by Z.le (fun r => micros (rf_created_at r)) (List.filter (has_key rf_payment_intent_id pid) (refunds s)).

(** Ownership of a refund is that of its intent. *)
Definition list_refunds_for_customer (customer : string) (status : option string) (limit offset : nat)
    (s : PaymentStore) : list RefundRecord :=
  page limit offset
    (sort_by le_key (fun r => (micros (rf_created_at r), rf_refund_id r))
      (List.filter (fun r =>
         match get_intent (rf_payment_intent_id r) s with
         | Some i => bool_decide (pi_customer_id i = Some customer)
         | None => false
         end && opt_is status (rf_status r)) (refunds s))).

Definition list_refunds_for_merchant (merchant status : option string) (limit offset : nat) (s : PaymentStore) :
    list RefundRecord :=
  page limit offset
    (sort_by le_key (fun r => (micros (rf_created_at r), rf_refund_id r))
      (List.filter (fun r =>
         match merchant with
         | None => true
         | Some m => match get_intent (rf_payment_intent_id r) s with
                     | Some i => String.eqb (pi_merchant_id i) m
                     | None => false
                     end
         end && opt_is status (rf_status r)) (refunds s))).

(** [intent_ttl_default]: thirty minutes. *)
Definition intent_ttl_default (created_at : datetime) : res exn datetime := dt_add_seconds created_at 1800.
