(* ===== verification/Preflight.v ===== *)
(** The pre-flight pipeline (kernel/preflight.py) and connector selection
    (kernel/routing.py).  The ports the pipeline reads (merchant gates, eKYC
    records, totals, the sanctions screen, the AML monitor) and the connector
    health view answer per call: each is a field of a record the call takes. *)
From S2P Require Import Prelude Rows Exceptions DateTime Sha256 Canonical KernelModels.
Open Scope Z_scope.

(** * Limits *)

Record NpsbCaps : Type := mk_NpsbCaps { per_txn_minor : Z; daily_minor : Z; daily_count : Z }.

(** [NPSB_LIMITS["CORPORATE"]], [NPSB_LIMITS["INDIVIDUAL"]] *)
Definition NPSB_LIMITS (corporate : bool) : NpsbCaps :=
  if corporate then mk_NpsbCaps 50000000 250000000 20 else mk_NpsbCaps 30000000 100000000 10.

Definition BANGLA_QR_STATIC_PER_TXN_MINOR : Z := 2020000.

Definition _REDIRECT_METHODS : list string := ["BKASH"; "NAGAD"; "ROCKET"].

Record MerchantGates : Type := mk_MerchantGates {
  kyb_active : bool;
  payout_blocked : bool;
  sanctions_cleared : bool;
  agreement_signed : bool
}.

Record KycTierInfo : Type := mk_KycTierInfo { tier : string; is_corporate : bool }.

(** [settings.ekyc_simplified] *)
Record EkycLimits : Type := mk_EkycLimits {
  ekyc_per_txn_minor : Z;
  ekyc_monthly_minor : Z;
  wallet_balance_cap_minor : Z
}.

Record AmlVerdict : Type := mk_AmlVerdict { allow : bool; aml_reason : option string; defer_async : bool }.

(** What the ports answer during one call. *)
Record Ports : Type := mk_Ports {
  gates : string -> option MerchantGates;
  is_frozen : option (string -> string -> bool);        (* [None]: no subject-control port *)
  kyc_tier : string -> option KycTierInfo;
  wallet_balance_minor : string -> Z;
  month_total_minor : string -> string -> Z;
  succeeded_count_24h : string -> string -> datetime -> Z;
  succeeded_amount_24h_minor : string -> string -> datetime -> Z;
  check_sync : option string -> string -> option bool;  (* [None]: the screener raised *)
  aml_preflight : string -> option string -> string -> Z -> string -> datetime -> AmlVerdict
}.

Record LimitContext : Type := mk_LimitContext {
  lc_merchant_id : string;
  lc_customer_id : option string;
  lc_amount_minor : Z;
  lc_method : string;
  lc_credits_customer_wallet : bool
}.

Section Enforcer.
Context (limits : EkycLimits) (ports : Ports).

Definition _check_merchant_gates (merchant : string) : res kexn unit :=
  match gates ports merchant with
  | None => Err (LimitExceededError "merchant_not_active")
  | Some g =>
      raise (LimitExceededError "merchant_not_active") when (negb (kyb_active g)) else
      raise (LimitExceededError "merchant_blocked") when (payout_blocked g) else
      raise (LimitExceededError "merchant_not_active") when (negb (sanctions_cleared g)) else
      raise (LimitExceededError "merchant_not_active") when (negb (agreement_signed g)) else
      Ok tt
  end.

Definition _check_subject_controls (ctx : LimitContext) : res kexn unit :=
  match is_frozen ports with
  | None => Ok tt
  | Some frozen =>
      raise (SanctionsBlockError "subject_frozen") when (frozen "Merchant"%string (lc_merchant_id ctx)) else
      raise (SanctionsBlockError "subject_frozen")
        when (match lc_customer_id ctx with Some c => frozen "Customer"%string c | None => false end) else
      Ok tt
  end.

(** [now.strftime("%Y-%m")], for a year of four digits. *)
Definition year_month (now : datetime) : string := str_take 7 (iso_date (ord2ymd (micros now / micros_per_day))).

Definition _check_tier_limits (ctx : LimitContext) (customer : string) (now : datetime) : res kexn unit :=
  match kyc_tier ports customer with
  | None => Err (LimitExceededError "kyc_record_missing")
  | Some t =>
      let* _ := (if String.eqb (tier t) "SIMPLIFIED" then
          raise (LimitExceededError "kyc_tier_limit_exceeded")
            when (ekyc_per_txn_minor limits <? lc_amount_minor ctx) else
          raise (LimitExceededError "kyc_tier_monthly_limit_exceeded")
            when (ekyc_monthly_minor limits <?
                    month_total_minor ports customer (year_month now) + lc_amount_minor ctx) else
          Ok tt
        else Ok tt) in
      raise (LimitExceededError "wallet_balance_cap_exceeded")
        when (lc_credits_customer_wallet ctx &&
              (wallet_balance_cap_minor limits <? wallet_balance_minor ports customer + lc_amount_minor ctx)) else
      Ok tt
  end.

Definition _check_method_caps (ctx : LimitContext) (now : datetime) : res kexn unit :=
  raise (LimitExceededError "method_txn_limit_exceeded")
    when (String.eqb (lc_method ctx) "BANGLA_QR" && (BANGLA_QR_STATIC_PER_TXN_MINOR <? lc_amount_minor ctx)) else
  match lc_customer_id ctx with
  | None => Ok tt
  | Some customer =>
      if negb (String.eqb (lc_method ctx) "NPSB_IBFT") then Ok tt
      else
        let caps := NPSB_LIMITS (match kyc_tier ports customer with Some t => is_corporate t | None => false end) in
        raise (LimitExceededError "method_txn_limit_exceeded") when (per_txn_minor caps <? lc_amount_minor ctx) else
        raise (LimitExceededError "velocity_limit_exceeded")
          when (daily_minor caps <?
                  succeeded_amount_24h_minor ports customer (lc_method ctx) now + lc_amount_minor ctx) else
        raise (LimitExceededError "velocity_limit_exceeded")
          when (daily_count caps <? succeeded_count_24h ports customer (lc_method ctx) now + 1) else
        Ok tt
  end.

(** [LimitEnforcer.check] *)
Definition check_limits (ctx : LimitContext) (now : datetime) : res kexn unit :=
  let* _ := _check_merchant_gates (lc_merchant_id ctx) in
  let* _ := _check_subject_controls ctx in
  let* _ := match lc_customer_id ctx with Some c => _check_tier_limits ctx c now | None => Ok tt end in
  _check_method_caps ctx now.
End Enforcer.

(** * Authentication *)

Record ActionRequirement : Type := mk_ActionRequirement { action_type : string; action_token : string }.

Record PreflightResult : Type := mk_PreflightResult {
  action : option ActionRequirement;
  aml_deferred_async : bool
}.

(** [details.get(key)] of a dict of strings. *)
Definition sget (key : string) (l : list (string * string)) : option string :=
  snd <$> List.find (fun kv => String.eqb kv.1 key) l.

Section Pipeline.
Context `{HashFn}.

Definition resolve_authentication (intent_id method : string) (details : list (string * string))
    (expires_at : datetime) : res exn (option ActionRequirement) :=
  let needs_redirect := str_in method _REDIRECT_METHODS in
  let needs_3ds := String.eqb method "CARD" &&
    negb (String.eqb (default "true"%string (sget "requires_3ds" details)) "false") in
  let needs_otp := bool_decide (sget "otp_required" details = Some "true"%string) in
  if negb (needs_redirect || needs_3ds || needs_otp) then Ok None
  else
    let* digest := sha256_canonical
      (dict [("intent_id", PStr intent_id); ("expires_at", PDatetime expires_at); ("purpose", PStr "customer_action")]) in
    let kind : string := if needs_otp && negb needs_redirect && negb needs_3ds then "otp" else "redirect_to_url" in
    Ok (Some (mk_ActionRequirement kind ("act_" +:+ str_take 24 digest))).

Definition k_res {A} (c : res exn A) : res kexn A :=
  match c with Ok a => Ok a | Err e => Err (KRaised e) end.

(** [PreflightPipeline.run]: limits, sanctions, AML, authentication, in that order. *)
Definition run_preflight (limits : EkycLimits) (ports : Ports) (intent_id merchant_id : string)
    (customer_id : option string) (amount_minor : Z) (method : string) (details : list (string * string))
    (expires_at : datetime) (credits_customer_wallet : bool) (now : datetime) : res kexn PreflightResult :=
  let* _ := check_limits limits ports
    (mk_LimitContext merchant_id customer_id amount_minor method credits_customer_wallet) now in
  match check_sync ports customer_id merchant_id with
  | None => Err (SanctionsBlockError "sanctions_screen_unavailable")
  | Some hit =>
      raise (SanctionsBlockError "sanctions_screen_hit") when hit else
      let verdict := aml_preflight ports intent_id customer_id merchant_id amount_minor method now in
      raise (AmlBlockError (match aml_reason verdict with
                            | Some r => if truthy r then r else "aml_preflight_hold"
                            | None => "aml_preflight_hold"
                            end)) when (negb (allow verdict)) else
      let* a := k_res (resolve_authentication intent_id method details expires_at) in
      Ok (mk_PreflightResult a (defer_async verdict))
  end.
End Pipeline.

(** * Routing *)

Definition METHOD_CONNECTORS : list (string * list string) :=
  [("NPSB_IBFT", ["npsb_iso8583_v28"]); ("BEFTN_CREDIT", ["beftn_batch_v2"]); ("BKASH", ["bkash_pgw_v2"]);
   ("NAGAD", ["nagad_pgw_v33"]); ("CARD", ["card_acquirer_v1"]); ("BANGLA_QR", ["npsb_iso8583_v28"]);
   ("ROCKET", ["rocket_aggregator_v1"])].

Definition STORE_AND_FORWARD : string := "STORE_AND_FORWARD".
Definition _DEFERRABLE_METHODS : list string := ["BEFTN_CREDIT"].

Record RoutingWeights : Type := mk_RoutingWeights {
  success_bps : Z; health_bps_w : Z; fee_bps : Z; latency_bps : Z
}.

Record RoutingCandidateSignal : Type := mk_Signal {
  sg_connector_id : string;
  sg_success_rate_bps : Z;
  sg_health_bps : Z;
  sg_fee_minor : Z;
  sg_latency_ms : Z
}.

Record RoutingCandidateScore : Type := mk_Score { sc_connector_id : string; sc_score_bps : Z }.

(** [RoutingEngine]: the candidates per method and, when smart routing is on,
    the active policy's weights and the signal of a connector. *)
Record RoutingEngine : Type := mk_RoutingEngine {
  method_connectors : list (string * list string);
  smart : option (string -> option RoutingWeights)
}.

Definition default_engine : RoutingEngine := mk_RoutingEngine METHOD_CONNECTORS None.

(** [sorted(set(values))] *)
Definition unique_values (vs : list Z) : list Z := sort_by Z.le id (remove_dups vs).

Fixpoint index_of (v : Z) (l : list Z) : Z :=
  match l with [] => 0 | x :: r => if x =? v then 0 else 1 + index_of v r end.

Definition _rank_low_is_good (vs : list Z) (v : Z) : Z :=
  let u := unique_values vs in
  if (length u =? 1)%nat then 0 else index_of v u * 10000 / (Z.of_nat (length u) - 1).

Definition score (w : RoutingWeights) (signals : list RoutingCandidateSignal) (s : RoutingCandidateSignal) : Z :=
  (success_bps w * sg_success_rate_bps s + health_bps_w w * sg_health_bps s +
   fee_bps w * (10000 - _rank_low_is_good (sg_fee_minor <$> signals) (sg_fee_minor s)) +
   latency_bps w * (10000 - _rank_low_is_good (sg_latency_ms <$> signals) (sg_latency_ms s))) / 10000.

(** Highest score first, ties by connector id. *)
Definition _score_candidates (w : RoutingWeights) (signals : list RoutingCandidateSignal) : list RoutingCandidateScore :=
  sort_by le_key (fun r => (- sc_score_bps r, sc_connector_id r))
    ((fun s => mk_Score (sg_connector_id s) (score w signals s)) <$> signals).

Definition _no_passing_connector (method : string) : res kexn string :=
  if str_in method _DEFERRABLE_METHODS then Ok STORE_AND_FORWARD else Err NoConnectorAvailableError.

Fixpoint mget {A} (key : string) (l : list (string * A)) : option A :=
  match l with [] => None | (k, v) :: r => if String.eqb k key then Some v else mget key r end.

(** The signal of every candidate, or [None] when one is missing. *)
Fixpoint all_signals (signal_for : string -> option RoutingCandidateSignal) (l : list string) :
    option (list RoutingCandidateSignal) :=
  match l with
  | [] => Some []
  | c :: r => match signal_for c, all_signals signal_for r with
              | Some s, Some ss => Some (s :: ss)
              | _, _ => None
              end
  end.

(** [select_connector], without [payment_attempt_id]: no decision is recorded. *)
Definition select_connector (e : RoutingEngine) (dispatchable : string -> bool)
    (signal_for : string -> option RoutingCandidateSignal) (method : string) (amount_minor : option Z) :
    res kexn string :=
  match mget method (method_connectors e) with
  | None => Err (InvalidRequestError "method_unsupported")
  | Some candidates =>
      match List.filter dispatchable candidates with
      | [] => _no_passing_connector method
      | [only] => Ok only
      | (first :: _) as passing =>
          match smart e with
          | None => Ok first
          | Some policy =>
              match policy method, amount_minor with
              | Some w, Some _ =>
                  match all_signals signal_for passing with
                  | None => Ok first
                  | Some signals => match _score_candidates w signals with s :: _ => Ok (sc_connector_id s) | [] => Ok first end
                  end
              | _, _ => Ok first
              end
          end
      end
  end.
