(* ===== verification/Sdk.v ===== *)
(** The connector contract (connectors/sdk.py): what the kernel hands to a rail
    and what it gets back. *)
From S2P Require Import Prelude.
Open Scope Z_scope.

Inductive ConnectorStatus : Type := SUCCESS | PENDING | FAILED | REJECTED | TIMED_OUT | REVERSED.

#[export] Instance ConnectorStatus_eq_dec : EqDecision ConnectorStatus.
Proof. solve_decision. Defined.

(** [ConnectorStatus.value] *)
Definition status_value (s : ConnectorStatus) : string :=
  match s with
  | SUCCESS => "success" | PENDING => "pending" | FAILED => "failed" | REJECTED => "rejected"
  | TIMED_OUT => "timed_out" | REVERSED => "reversed"
  end.

Lemma status_value_inj : Inj eq eq status_value.
Proof. by intros [] []. Qed.

Record PaymentInstruction : Type := mk_PaymentInstruction {
  in_instruction_id : string;
  in_connector_ref : string;
  in_amount_minor : Z;
  in_method : string;
  in_sender_ref : string;
  in_beneficiary_ref : string;
  in_rail : string;
  in_instruction_at : string;
  in_metadata : list (string * string)
}.

Record ConnectorResult : Type := mk_ConnectorResult {
  cr_instruction_id : string;
  cr_connector_ref : string;
  cr_status : ConnectorStatus;
  cr_rail_transaction_id : option string;
  cr_responded_at : option string;
  cr_error_code : option string;
  cr_raw_response_hash : string
}.

#[export] Instance ConnectorResult_eq_dec : EqDecision ConnectorResult.
Proof. solve_decision. Defined.
#[export] Instance PaymentInstruction_eq_dec : EqDecision PaymentInstruction.
Proof. solve_decision. Defined.
