(* ===== verification/Orchestrator.v ===== *)
(** The payment orchestrator (kernel/orchestrator.py) over the in-memory payment
    store, the ledger service behind its port adapters (app.py) and the outbox:
    the composition the platform builds for [database_url == "memory://"], where
    nothing is rolled back when an operation raises.

    An operation runs without interruption up to the point where it awaits the
    connector runner.  There it stops with a [flight], the suspended coroutine;
    the continuation takes the runner's answer, at any later moment and in any
    order with other operations.  An uninterrupted piece reads its clock once. *)
From S2P Require Import Prelude Rows Exceptions DateTime Sha256 Canonical LedgerTypes LedgerStore HashChain LedgerService.
From S2P Require Import Outbox Fsm PaymentStates Money Fees Calendar KernelModels Preflight Sdk.
Open Scope Z_scope.

Definition KERNEL_PRODUCER : string := "payment-orchestrator@1".
Definition MAX_ATTEMPTS_PER_INTENT : Z := 3.
Definition MAX_STATUS_POLLS : Z := 3.
Definition MAX_REFUND_RETRIES : Z := 3.
Definition REVERSAL_PENDING_RETRY_AFTER : Z := 300.   (* seconds *)
Definition AUTH_HOLD_DEFAULT : Z := 7.                (* days *)
Definition RAIL_REF_PROOF_PREFIX : string := "rrh_".

(** * Connectors *)

(** The calls the kernel makes on the connector runner. *)
Inductive rail_call : Type :=
| Submit (i : PaymentInstruction)
| QueryStatus (connector_id connector_ref : string) (rail_transaction_id : option string)
| Reverse (connector_id connector_ref : string) (rail_transaction_id : option string) (amount_minor : Z) (reason : string).

(** * State *)

Record World : Type := mk_World {
  w_pay : PaymentStore;
  w_led : Store;
  w_box : Queue;
  w_rail : list rail_call
}.

Definition keff := eff World kexn.

(** A coroutine suspended on the runner. *)
Inductive flight : Type :=
| FSubmit (intent : PaymentIntentRecord) (attempt : PaymentAttemptRecord)
| FQuery (attempt_id : string)
| FReverse (payment_intent_id : string)
| FRefund (refund_id : string).

Inductive progress (A : Type) : Type :=
| Done (a : A)
| Waiting (f : flight).
Arguments Done {A} _.
Arguments Waiting {A} _.

Record MerchantFeeProfile : Type := mk_MerchantFeeProfile { mp_merchant_class : option string; mp_mcc : option string }.

(** The constructor's arguments. *)
Record Kernel : Type := mk_Kernel {
  k_cfg : LedgerCfg;
  k_psp_license_active : bool;
  k_fee_rules : list FeeRule;
  k_limits : EkycLimits;
  k_engine : RoutingEngine;
  k_calendar : BangladeshBankCalendar
}.

(** What the world answers during one uninterrupted piece. *)
Record Env : Type := mk_Env {
  e_now : datetime;
  e_ports : Ports;
  e_port_audits : list AuditEventSpec;   (* rows the screening ports append *)
  e_dispatchable : string -> bool;
  e_signal : string -> option RoutingCandidateSignal;
  e_profile : string -> option MerchantFeeProfile
}.

Record PaymentIntentRequest : Type := mk_PaymentIntentRequest {
  rq_merchant_id : string;
  rq_amount_minor : Z;
  rq_method : string;
  rq_idempotency_key : string;
  rq_customer_id : option string;
  rq_currency : string;
  rq_capture_method : string;
  rq_description : option string;
  rq_statement_descriptor : option string;
  rq_metadata : list (string * string)
}.

Record ConfirmOutcome : Type := mk_ConfirmOutcome {
  co_payment_intent_id : string;
  co_status : string;
  co_next_action : option ActionRequirement
}.

Definition on_pay (f : PaymentStore -> res kexn PaymentStore) : keff unit := fun w =>
  match f (w_pay w) with
  | Ok p => (Ok tt, mk_World p (w_led w) (w_box w) (w_rail w))
  | Err e => (Err e, w)
  end.

Definition on_led {A} (f : Store -> LedgerStore.outcome A) : keff A := fun w =>
  let '(r, s) := f (w_led w) in (k_res r, mk_World (w_pay w) s (w_box w) (w_rail w)).

Definition call_rail (c : rail_call) : keff unit := fun w =>
  (Ok tt, mk_World (w_pay w) (w_led w) (w_box w) (w_rail w ++ [c])).

Definition pay : keff PaymentStore := do* w := eget in eret (w_pay w).

(** [try: c except Exception as exc: handler(exc); raise] *)
Definition on_error {A} (c : keff A) (handler : kexn -> keff unit) : keff A := fun w =>
  match c w with
  | (Ok a, w') => (Ok a, w')
  | (Err e, w') => (Err e, (handler e w').2)
  end.

(** [try: c except Exception: log] *)
Definition swallow (c : keff unit) : keff unit := fun w => (Ok tt, (c w).2).

(** * Accounts and fees *)

Definition _TRANSIT_ACCOUNT_BY_METHOD : list (string * (string * string)) :=
  [("NPSB_IBFT", ("IN_TRANSIT", "npsb_transit")); ("BEFTN_CREDIT", ("IN_TRANSIT", "beftn_transit"));
   ("RTGS", ("IN_TRANSIT", "rtgs_transit")); ("BANGLA_QR", ("IN_TRANSIT", "npsb_transit"));
   ("BKASH", ("CONNECTOR_CLEARING", "bkash_clearing")); ("NAGAD", ("CONNECTOR_CLEARING", "nagad_clearing"));
   ("ROCKET", ("CONNECTOR_CLEARING", "rocket_clearing")); ("CARD", ("CONNECTOR_CLEARING", "card_clearing"))].

Definition _FEE_METHOD_BY_KERNEL_METHOD : list (string * string) :=
  [("NPSB_IBFT", "NPSB_IBFT"); ("BEFTN_CREDIT", "BEFTN_CREDIT"); ("BKASH", "BKASH"); ("NAGAD", "NAGAD");
   ("ROCKET", "ROCKET"); ("CARD", "CARD_DOMESTIC"); ("BANGLA_QR", "BANGLA_QR")].

Definition _WALLET_METHODS : list string := ["BKASH"; "NAGAD"; "ROCKET"].

Definition _CARD_FUNDING_CLASS : list (string * string) :=
  [("debit", "DEBIT_PREPAID"); ("prepaid", "DEBIT_PREPAID"); ("credit", "CREDIT")].

Definition fee_method_for (method : string) : res kexn string :=
  match mget method _FEE_METHOD_BY_KERNEL_METHOD with
  | Some m => Ok m
  | None => Err (InvalidRequestError "method_unsupported")
  end.

Definition derive_instrument_class (method : string) (metadata : list (string * string)) : option string :=
  let explicit := sget "instrument_class" metadata in
  if match explicit with Some c => str_in c INSTRUMENT_CLASSES | None => false end then explicit
  else if str_in method _WALLET_METHODS then Some "MFS_PSP_WALLET"%string
  else if match sget "wallet_provider" metadata with Some p => truthy p | None => false end
  then Some "MFS_PSP_WALLET"%string
  else mget (lower (default ""%string (sget "card_funding" metadata))) _CARD_FUNDING_CLASS.

Record Accounts : Type := mk_Accounts {
  ac_in_transit : string;
  ac_mdr_income : string;
  ac_merchant_settlement : string;
  ac_merchant_hold_reserve : string
}.

Section Orchestrator.
Context `{HashFn} `{CheckpointSigner} `{Redactor} `{DhakaTz} (exc_text : kexn -> string) (K : Kernel).

Definition transit_account_for (method : option string) : res kexn string :=
  match method with
  | None => k_res (system_account_id "IN_TRANSIT" "npsb_transit")
  | Some m =>
      match mget m _TRANSIT_ACCOUNT_BY_METHOD with
      | None => Err (InvalidRequestError "method_unsupported")
      | Some (subtype, purpose) => k_res (system_account_id subtype purpose)
      end
  end.

Definition kernel_accounts (merchant_id method : string) : res kexn Accounts :=
  let* in_transit := transit_account_for (Some method) in
  let* mdr_income := k_res (system_account_id "MDR_INCOME" "mdr_earned") in
  let* settlement := k_res (merchant_settlement_id merchant_id) in
  let* reserve := k_res (merchant_hold_reserve_id merchant_id) in
  Ok (mk_Accounts in_transit mdr_income settlement reserve).

(** Eight groups of eight hex digits. *)
Fixpoint chunks (n : nat) (s : string) : list string :=
  match n with O => [] | S n' => str_take 8 s :: chunks n' (str_drop 8 s) end.

Definition rail_ref_proof (rail_transaction_id payment_intent_id : string) : res exn string :=
  let* digest := sha256_canonical
    (dict [("rail_transaction_id", PStr rail_transaction_id); ("payment_intent_id", PStr payment_intent_id)]) in
  Ok (RAIL_REF_PROOF_PREFIX +:+ String.concat "-" (chunks 8 digest)).

(** * Shared internals *)

Definition _require_psp_license : res kexn unit :=
  raise (ConflictError "psp_license_not_active") when (negb (k_psp_license_active K)) else Ok tt.

(** [_AuditPortAdapter.append] of app.py, with the spec's own checks. *)
Definition audit_append (event_type subject_type subject_id : string) (from_state : option string) (to_state : string)
    (payload : pyobj) (now : datetime) : keff unit :=
  refuse ValueError when (negb (truthy event_type) || negb (truthy subject_type) || negb (truthy subject_id)) else
  do* _ := on_led (fun s => write_audit_event (k_cfg K) s
    (mk_AuditEventSpec event_type KERNEL_PRODUCER "SERVICE" subject_type subject_id from_state (Some to_state) payload)
    None now) in
  eret tt.

Definition _audit_transition (intent : PaymentIntentRecord) (from_state : option string) (to_state event_type : string)
    (now : datetime) : keff unit :=
  audit_append event_type "PaymentIntent" (pi_payment_intent_id intent) from_state to_state
    (dict [("merchant_id", PStr (pi_merchant_id intent))]) now.

(** The payload with its strings redacted, unless the key names an identifier. *)
Definition clean_payload (payload : list (string * pyobj)) : pyobj :=
  dict ((fun kv : string * pyobj =>
    (kv.1, match kv.2 with
           | PStr v => if is_opaque_identifier_key kv.1 then PStr v else PStr (redact v)
           | v => v
           end)) <$> payload).

Definition _emit (event_type : string) (intent : PaymentIntentRecord) (payload : list (string * pyobj))
    (subject_type : string) (subject_id : option string) (topic : string) (now : datetime) : keff unit := fun w =>
  match build_event event_type subject_type (or_str subject_id (pi_payment_intent_id intent)) KERNEL_PRODUCER topic
          (clean_payload payload) now with
  | Err e => (Err (KOutbox e), w)
  | Ok event => (Ok tt, mk_World (w_pay w) (w_led w) (enqueue event (w_box w)) (w_rail w))
  end.

(** [_emit] with its defaults. *)
Definition emit (event_type : string) (intent : PaymentIntentRecord) (payload : list (string * pyobj)) (now : datetime) :
    keff unit := _emit event_type intent payload "PaymentIntent" None "payment.events" now.

Definition _emit_attempt (event_type : string) (intent : PaymentIntentRecord) (attempt : PaymentAttemptRecord)
    (now : datetime) : keff unit :=
  _emit event_type intent
    [("payment_intent_id", PStr (pi_payment_intent_id intent)); ("attempt_id", PStr (pa_attempt_id attempt));
     ("merchant_id", PStr (pi_merchant_id intent)); ("customer_id", POpt (pi_customer_id intent));
     ("amount_minor", PInt (pa_amount_minor attempt)); ("currency", PStr (pa_currency attempt));
     ("connector_id", PStr (pa_connector_id attempt)); ("rail_transaction_id", POpt (pa_rail_transaction_id attempt));
     ("method", PStr (pi_method intent)); ("direction", PStr "OUTBOUND"); ("sender_ref", POpt (pi_customer_id intent));
     ("beneficiary_ref", PStr (pi_merchant_id intent))]
    "PaymentAttempt" (Some (pa_attempt_id attempt)) "payment.events" now.

(** [TABLE.resolve(...).to_state] *)
Definition resolve_in (table : res TableError TransitionTable) (from trig : string) (g : option string) :
    res kexn string :=
  match table with
  | Err _ => Err ValueError
  | Ok t => match resolve t from trig g with Ok rule => Ok (to_state rule) | Err d => Err (TransitionDenied d) end
  end.

Definition _require_intent (i : string) : keff PaymentIntentRecord :=
  do* p := pay in
  match get_intent i p with None => elift (Err NotFoundError) | Some r => eret r end.

Definition last_attempt (i : string) (p : PaymentStore) : option PaymentAttemptRecord := last (list_attempts i p).

Definition _charged_attempt (i : string) (p : PaymentStore) : option PaymentAttemptRecord :=
  List.find (fun a => String.eqb (pa_status a) "CHARGED") (reverse (list_attempts i p)).

Definition _advance_intent (intent : PaymentIntentRecord) (trig : string) (g : option string) (defer_audit : bool)
    (stamp : PaymentIntentRecord -> PaymentIntentRecord) (now : datetime) : keff PaymentIntentRecord :=
  do* to := elift (resolve_in INTENT_TABLE (pi_status intent) trig g) in
  do* updated := elift (intent_post_init (stamp (pi_set_status to now intent))) in
  do* _ := on_pay (update_intent updated (pi_status intent)) in
  do* _ := (if defer_audit then eret tt
            else _audit_transition updated (Some (pi_status intent)) to "PAYMENT_STATE_TRANSITION" now) in
  eret updated.

(** The common form: no guard, audited. *)
Definition advance_intent (intent : PaymentIntentRecord) (trig : string) (now : datetime) : keff PaymentIntentRecord :=
  _advance_intent intent trig None false id now.

Definition _advance_attempt (attempt : PaymentAttemptRecord) (trig : string) (g : option string)
    (stamp : PaymentAttemptRecord -> PaymentAttemptRecord) (now : datetime) : keff PaymentAttemptRecord :=
  do* to := elift (resolve_in ATTEMPT_TABLE (pa_status attempt) trig g) in
  do* updated := elift (attempt_post_init (stamp (pa_set_status to now attempt))) in
  do* _ := on_pay (update_attempt updated (pa_status attempt)) in
  do* _ := audit_append "PAYMENT_STATE_TRANSITION" "PaymentAttempt" (pa_attempt_id updated) (Some (pa_status attempt)) to
             (dict [("trigger", PStr trig)]) now in
  eret updated.

Definition _advance_refund (refund : RefundRecord) (trig : string) (now : datetime) : keff RefundRecord :=
  do* to := elift (resolve_in REFUND_TABLE (rf_status refund) trig None) in
  do* updated := elift (refund_post_init (rf_set_status to now refund)) in
  do* _ := on_pay (update_refund updated (rf_status refund)) in
  do* _ := audit_append "PAYMENT_STATE_TRANSITION" "Refund" (rf_refund_id updated) (Some (rf_status refund)) to
             (dict [("trigger", PStr trig)]) now in
  eret updated.

(** * Posting *)

(** The checks of platform/interfaces.py on a [PostingSpec] and a [JournalEntrySpec]. *)
Definition port_posting_ok (p : PostingSpec) : bool :=
  str_in (ps_side p) SIDES && (0 <? ps_amount_minor p) && String.eqb (ps_currency p) "BDT" && truthy (ps_account_id p).

Definition side_sum (side : string) (ps : list PostingSpec) : Z :=
  sumZ (fun p => if String.eqb (ps_side p) side then ps_amount_minor p else 0) ps.

Definition port_spec_ok (spec : JournalEntrySpec) : bool :=
  List.forallb port_posting_ok (js_postings spec) && (2 <=? length (js_postings spec))%nat &&
  (side_sum "DEBIT" (js_postings spec) =? side_sum "CREDIT" (js_postings spec)).

(** [_LedgerPortAdapter.post_journal_entry] *)
Definition port_post (spec : JournalEntrySpec) (now : datetime) : keff string :=
  refuse ValueError when (negb (port_spec_ok spec)) else
  on_led (fun s => post_journal_entry (k_cfg K) s spec now).

(** An entry of the kernel: two legs of one amount. *)
Definition kernel_entry (reference_id reference_type entry_type description key debit credit : string) (amount : Z) :
    JournalEntrySpec :=
  mk_JournalEntrySpec reference_id reference_type entry_type description KERNEL_PRODUCER key
    [posting debit "DEBIT" amount; posting credit "CREDIT" amount].

(** [make_id("je", {subject: id, "entry_type": entry_type})] *)
Definition entry_key (subject id entry_type : string) : res kexn string :=
  k_res (make_id "je" (dict [(subject, PStr id); ("entry_type", PStr entry_type)])).

Definition _record_ledger_post_failure (intent : PaymentIntentRecord) (attempt : PaymentAttemptRecord) (now : datetime)
    (exc : kexn) : keff unit :=
  swallow (
    do* proof := elift (k_res (rail_ref_proof (default ""%string (pa_rail_transaction_id attempt))
                                 (pi_payment_intent_id intent))) in
    _emit "payment_intent.ledger_post_failed" intent
      [("payment_intent_id", PStr (pi_payment_intent_id intent)); ("attempt_id", PStr (pa_attempt_id attempt));
       ("merchant_id", PStr (pi_merchant_id intent)); ("amount_minor", PInt (pa_amount_minor attempt));
       ("method", PStr (pi_method intent)); ("money_moved", PBool true); ("rail_ref_proof", PStr proof);
       ("ledger_error", PStr (exc_text exc))]
      "PaymentAttempt" (Some (pa_attempt_id attempt)) "payment.events" now).

Definition _resolve_capture_fee (e : Env) (intent : PaymentIntentRecord) (attempt : PaymentAttemptRecord) :
    res kexn (Z * string) :=
  let profile := e_profile e (pi_merchant_id intent) in
  let* method := fee_method_for (pi_method intent) in
  let* rule := k_res (resolve_fee_rule (pi_merchant_id intent)
    (match profile with Some p => mp_mcc p | None => None end)
    (match profile with Some p => mp_merchant_class p | None => None end)
    (derive_instrument_class (pi_method intent) (pi_metadata intent)) (k_fee_rules K) method (e_now e)) in
  k_res (compute_fee (ArgInt (pa_amount_minor attempt)) rule).

Definition post_fee (intent : PaymentIntentRecord) (attempt : PaymentAttemptRecord) (acc : Accounts) (fee_minor : Z)
    (fee_rule_id : string) (now : datetime) : keff unit :=
  if 0 <? fee_minor then
    do* key := elift (entry_key "attempt_id" (pa_attempt_id attempt) "fee_collected") in
    do* _ := port_post (kernel_entry (pi_payment_intent_id intent) "FEE" "fee_collected"
      ("MDR fee collected at capture (" +:+ fee_rule_id +:+ ")") key
      (ac_merchant_settlement acc) (ac_mdr_income acc) fee_minor) now in
    eret tt
  else eret tt.

(** The end of both settlements: the intent succeeds, with its events. *)
Definition succeed (intent : PaymentIntentRecord) (attempt : PaymentAttemptRecord) (trig : string) (fee_minor : Z)
    (fee_rule_id : string) (now : datetime) : keff PaymentIntentRecord :=
  do* intent := _advance_intent intent trig None false (pi_set_succeeded (Some now)) now in
  do* _ := _emit_attempt "payment_attempt.charged" intent attempt now in
  do* _ := emit "payment_intent.succeeded" intent
    [("payment_intent_id", PStr (pi_payment_intent_id intent)); ("merchant_id", PStr (pi_merchant_id intent));
     ("amount_minor", PInt (pa_amount_minor attempt)); ("method", PStr (pi_method intent));
     ("fee_minor", PInt fee_minor); ("fee_rule_id", PStr fee_rule_id); ("succeeded_at", PDatetime now)] now in
  eret intent.

Definition _settle_charge (e : Env) (intent : PaymentIntentRecord) (attempt : PaymentAttemptRecord) (trig : string) :
    keff PaymentIntentRecord :=
  let now := e_now e in
  do* _ := elift _require_psp_license in
  do* acc := elift (kernel_accounts (pi_merchant_id intent) (pi_method intent)) in
  do* _ := elift (k_res (money (ArgInt (pa_amount_minor attempt)) BDT false)) in
  do* fee := elift (_resolve_capture_fee e intent attempt) in
  do* _ := on_error
    (do* key := elift (entry_key "attempt_id" (pa_attempt_id attempt) "payment_captured") in
     do* _ := port_post (kernel_entry (pi_payment_intent_id intent) "PAYMENT" "payment_captured" "payment captured" key
       (ac_in_transit acc) (ac_merchant_settlement acc) (pa_amount_minor attempt)) now in
     post_fee intent attempt acc fee.1 fee.2 now)
    (_record_ledger_post_failure intent attempt now) in
  succeed intent attempt trig fee.1 fee.2 now.

Definition _open_authorization_hold (intent : PaymentIntentRecord) (attempt : PaymentAttemptRecord) (now : datetime) :
    keff string :=
  do* acc := elift (kernel_accounts (pi_merchant_id intent) (pi_method intent)) in
  on_led (fun s => open_hold (k_cfg K) s (ac_merchant_settlement acc) (pa_amount_minor attempt) "PAYMENT_AUTHORIZATION"
    (pi_payment_intent_id intent) (Some (ac_in_transit acc)) (Some (ac_merchant_hold_reserve acc))
    (pa_auth_expires_at attempt) now).

Definition open_hold_of (intent : PaymentIntentRecord) : keff (option string) :=
  do* w := eget in eret (get_open_hold_id (w_led w) (pi_payment_intent_id intent)).

Definition _settle_authorized_charge (e : Env) (intent : PaymentIntentRecord) (attempt : PaymentAttemptRecord)
    (trig : string) : keff PaymentIntentRecord :=
  let now := e_now e in
  do* _ := elift _require_psp_license in
  do* acc := elift (kernel_accounts (pi_merchant_id intent) (pi_method intent)) in
  do* fee := elift (_resolve_capture_fee e intent attempt) in
  do* hold := open_hold_of intent in
  match hold with
  | None => elift (Err (ConflictError "authorization_hold_missing"))
  | Some hold_id =>
      do* _ := on_error
        (do* _ := on_led (fun s => release_hold (k_cfg K) s hold_id "CAPTURED" (Some (pa_amount_minor attempt)) now) in
         post_fee intent attempt acc fee.1 fee.2 now)
        (_record_ledger_post_failure intent attempt now) in
      succeed intent attempt trig fee.1 fee.2 now
  end.

Definition _post_reversal_entries (intent : PaymentIntentRecord) (attempt : PaymentAttemptRecord) (now : datetime) :
    keff unit :=
  do* acc := elift (kernel_accounts (pi_merchant_id intent) (pi_method intent)) in
  do* key := elift (entry_key "attempt_id" (pa_attempt_id attempt) "payment_reversed") in
  do* _ := port_post (kernel_entry (pi_payment_intent_id intent) "REVERSAL" "payment_reversed" "post-charge reversal" key
    (ac_merchant_settlement acc) (ac_in_transit acc) (pa_amount_minor attempt)) now in
  eret tt.

Definition _post_refund_entries (intent : PaymentIntentRecord) (refund : RefundRecord) (now : datetime) : keff unit :=
  do* acc := elift (kernel_accounts (pi_merchant_id intent) (pi_method intent)) in
  do* key := elift (entry_key "refund_id" (rf_refund_id refund) "refund_settled") in
  do* _ := port_post (kernel_entry (rf_refund_id refund) "REFUND" "refund_settled" "refund settled (new offsetting flow)" key
    (ac_merchant_settlement acc) (ac_in_transit acc) (rf_amount_minor refund)) now in
  eret tt.

(** * Intents *)

Definition create_intent (e : Env) (rq : PaymentIntentRequest) : keff PaymentIntentRecord :=
  let now := e_now e in
  refuse (InvalidRequestError "idempotency_key_required") when (negb (truthy (rq_idempotency_key rq))) else
  do* p := pay in
  match find_intent_by_idempotency_key (rq_merchant_id rq) (rq_idempotency_key rq) p with
  | Some existing =>
      refuse IdempotencyConflictError
        when (negb (pi_amount_minor existing =? rq_amount_minor rq) ||
              negb (String.eqb (pi_method existing) (rq_method rq)) ||
              negb (bool_decide (pi_customer_id existing = rq_customer_id rq))) else
      eret existing
  | None =>
      do* intent_id := elift (k_res (make_id "pi"
        (dict [("merchant_id", PStr (rq_merchant_id rq)); ("customer_id", POpt (rq_customer_id rq));
               ("amount_minor", PInt (rq_amount_minor rq)); ("currency", PStr (rq_currency rq));
               ("method", PStr (rq_method rq)); ("idempotency_key", PStr (rq_idempotency_key rq));
               ("created_at", PDatetime now)]))) in
      do* secret := elift (k_res (sha256_canonical
        (dict [("intent_id", PStr intent_id); ("purpose", PStr "client_secret"); ("created_at", PDatetime now)]))) in
      do* expires_at := elift (k_res (intent_ttl_default now)) in
      do* record := elift (intent_post_init
        (mk_PaymentIntentRecord intent_id (rq_merchant_id rq) (rq_amount_minor rq) (rq_method rq) expires_at now now
           (rq_customer_id rq) (rq_currency rq) (rq_capture_method rq) "CREATED" (rq_description rq)
           (rq_statement_descriptor rq) (rq_metadata rq) (Some (rq_idempotency_key rq)) (Some secret)
           None None None None None None 1)) in
      do* _ := on_pay (insert_intent record) in
      do* _ := _audit_transition record None "CREATED" "PAYMENT_STATE_TRANSITION" now in
      do* _ := emit "payment_intent.created" record
        [("payment_intent_id", PStr intent_id); ("merchant_id", PStr (pi_merchant_id record));
         ("amount_minor", PInt (pi_amount_minor record)); ("currency", PStr (pi_currency record));
         ("method", PStr (pi_method record))] now in
      eret record
  end.

Definition id_payload (intent : PaymentIntentRecord) : list (string * pyobj) :=
  [("payment_intent_id", PStr (pi_payment_intent_id intent))].

Definition supply_method (e : Env) (i method : string) : keff PaymentIntentRecord :=
  do* intent := _require_intent i in
  do* to := elift (resolve_in INTENT_TABLE (pi_status intent) "method_supplied" None) in
  do* updated := elift (intent_post_init (pi_set_method method (pi_set_status to (e_now e) intent))) in
  do* _ := on_pay (update_intent updated (pi_status intent)) in
  do* _ := _audit_transition updated (Some (pi_status intent)) to "PAYMENT_STATE_TRANSITION" (e_now e) in
  eret updated.

(** * Dispatch and connector results *)

(** [datetime.isoformat()] of a UTC instant. *)
Definition isoformat (d : datetime) : string :=
  let us := micros d mod micros_per_day in
  let frac := us mod 1000000 in
  iso_date (ord2ymd (micros d / micros_per_day)) +:+ "T" +:+ str_take 8 (iso_time us) +:+
  (if frac =? 0 then "" else "." +:+ zpad 6 frac) +:+ "+00:00".

Definition cal_res {A} (c : res cal_error A) : res kexn A :=
  match c with
  | Ok a => Ok a
  | Err CalValueError => Err ValueError
  | Err CalOverflow => Err (KRaised OverflowError)
  end.

(** [_next_rail_window] *)
Definition _next_rail_window (now : datetime) : res kexn datetime := cal_res (next_beftn_cutoff (k_calendar K) now).

(** [_dispatch] up to the submission. *)
Definition _dispatch (e : Env) (intent : PaymentIntentRecord) (attempt_number : Z) : keff (progress PaymentIntentRecord) :=
  let now := e_now e in
  do* _ := elift _require_psp_license in
  do* connector_id := elift (select_connector (k_engine K) (e_dispatchable e) (e_signal e) (pi_method intent) None) in
  if String.eqb connector_id STORE_AND_FORWARD then
    do* deferred_until := elift (_next_rail_window now) in
    do* intent := elift (intent_post_init (pi_set_deferred (Some deferred_until) now intent)) in
    do* _ := on_pay (update_intent intent (pi_status intent)) in
    do* _ := emit "payment_intent.deferred" intent
      (id_payload intent ++ [("rail", PStr (pi_method intent)); ("deferred_until", PStr (_rfc3339_ms deferred_until))])
      now in
    eret (Done intent)
  else
    do* intent := match pi_deferred_until intent with
      | None => eret intent
      | Some _ =>
          do* intent := elift (intent_post_init (pi_set_deferred None now intent)) in
          do* _ := on_pay (update_intent intent (pi_status intent)) in
          eret intent
      end in
    do* attempt_id := elift (k_res (make_id "pa"
      (dict [("payment_intent_id", PStr (pi_payment_intent_id intent)); ("attempt_number", PInt attempt_number);
             ("connector_id", PStr connector_id); ("created_at", PDatetime now)]))) in
    do* connector_ref := elift (k_res (make_kernel_id "cref"
      (dict [("attempt_id", PStr attempt_id); ("connector_id", PStr connector_id)]))) in
    do* instruction_id := elift (k_res (make_id "ins" (dict [("connector_ref", PStr connector_ref)]))) in
    do* attempt := elift (attempt_post_init
      (mk_PaymentAttemptRecord attempt_id (pi_payment_intent_id intent) attempt_number connector_id instruction_id
         connector_ref (pi_amount_minor intent) now now "STARTED" "BDT" None None None 0 None None None None 1)) in
    do* _ := on_pay (insert_attempt attempt) in
    do* intent := elift (intent_post_init (pi_set_latest (Some attempt_id) intent)) in
    do* attempt := _advance_attempt attempt "submitted" None id now in
    do* _ := call_rail (Submit
      (mk_PaymentInstruction (pa_instruction_id attempt) connector_ref (pi_amount_minor intent) (pi_method intent)
         (or_str (pi_customer_id intent) (pi_merchant_id intent)) (pi_merchant_id intent) connector_id (isoformat now)
         (pi_metadata intent))) in
    eret (Waiting (FSubmit intent attempt)).

Definition emit_failed (intent : PaymentIntentRecord) (failure_code : string) (now : datetime) : keff unit :=
  emit "payment_intent.failed" intent (id_payload intent ++ [("failure_code", PStr failure_code)]) now.

Definition _apply_connector_result (e : Env) (intent : PaymentIntentRecord) (attempt : PaymentAttemptRecord)
    (result : ConnectorResult) : keff (progress PaymentIntentRecord) :=
  let now := e_now e in
  do* attempt := elift (attempt_post_init
    (pa_set_reply (cr_rail_transaction_id result) (cr_error_code result) (Some (cr_raw_response_hash result)) now attempt)) in
  match cr_status result with
  | SUCCESS =>
      if String.eqb (pi_capture_method intent) "manual" then
        do* auth_expires_at := elift (k_res (dt_add_days now AUTH_HOLD_DEFAULT)) in
        do* attempt := _advance_attempt attempt "connector_authorized" None
          (pa_set_authorized (Some now) (Some auth_expires_at)) now in
        do* _ := on_error (_open_authorization_hold intent attempt now) (_record_ledger_post_failure intent attempt now) in
        do* _ := _emit_attempt "payment_attempt.authorized" intent attempt now in
        do* intent := _advance_intent intent "attempt_authorized" None false (pi_set_expires auth_expires_at) now in
        eret (Done intent)
      else
        do* attempt := _advance_attempt attempt "connector_success_direct" None (pa_set_charged (Some now)) now in
        do* intent := _settle_charge e intent attempt "attempt_charged" in
        eret (Done intent)
  | PENDING =>
      do* _ := on_pay (update_attempt attempt (pa_status attempt)) in
      eret (Done intent)
  | REJECTED =>
      do* attempt := _advance_attempt attempt "connector_rejected" None (pa_set_failed (Some now)) now in
      do* _ := _emit_attempt "payment_attempt.hard_declined" intent attempt now in
      do* intent := advance_intent intent "attempt_hard_declined" now in
      do* _ := emit_failed intent (or_str (pa_error_code attempt) "hard_declined") now in
      eret (Done intent)
  | FAILED =>
      do* attempt := _advance_attempt attempt "connector_failed" None (pa_set_failed (Some now)) now in
      if pa_attempt_number attempt <? MAX_ATTEMPTS_PER_INTENT then
        do* intent := advance_intent intent "attempt_failed_retryable" now in
        _dispatch e intent (pa_attempt_number attempt + 1)
      else
        do* intent := advance_intent intent "attempt_hard_declined" now in
        do* _ := emit_failed intent "retries_exhausted" now in
        eret (Done intent)
  | TIMED_OUT =>
      do* _ := _advance_attempt attempt "connector_timeout" None id now in
      do* intent := advance_intent intent "attempt_timed_out" now in
      eret (Done intent)
  | REVERSED => elift (Err (ConflictError "connector_status_unknown"))
  end.

Definition emit_reversal_initiated (intent : PaymentIntentRecord) (attempt_id : option string) (now : datetime) : keff unit :=
  emit "payment_intent.reversal_initiated" intent (id_payload intent ++ [("attempt_id", POpt attempt_id)]) now.

(** [a or b] on optional values. *)
Definition or_opt (a b : option string) : option string :=
  match a with Some x => if truthy x then a else b | None => b end.

Definition _apply_status_poll_result (e : Env) (attempt_id : string) (result : ConnectorResult) : keff PaymentIntentRecord :=
  let now := e_now e in
  do* p := pay in
  match get_attempt attempt_id p with
  | None => elift (Err NotFoundError)
  | Some attempt =>
      do* intent := _require_intent (pa_payment_intent_id attempt) in
      let replied := pa_set_poll_reply (or_opt (cr_rail_transaction_id result) (pa_rail_transaction_id attempt))
                       (Some (cr_raw_response_hash result)) now attempt in
      match cr_status result with
      | SUCCESS =>
          do* attempt := elift (attempt_post_init replied) in
          do* attempt := _advance_attempt attempt "poll_success" (Some "charged"%string) (pa_set_charged (Some now)) now in
          _settle_charge e intent attempt "attempt_charged"
      | REVERSED =>
          do* attempt := elift (attempt_post_init replied) in
          do* attempt := _advance_attempt attempt "poll_reversed" None id now in
          do* intent := advance_intent intent "reversal_triggered" now in
          do* _ := emit_reversal_initiated intent (Some (pa_attempt_id attempt)) now in
          eret intent
      | PENDING =>
          do* attempt := elift (attempt_post_init (pa_set_polls (pa_poll_count attempt + 1) now attempt)) in
          if MAX_STATUS_POLLS <=? pa_poll_count attempt then
            do* attempt := _advance_attempt attempt "poll_exhausted" None (pa_set_failed (Some now)) now in
            do* intent := advance_intent intent "reversal_triggered" now in
            do* _ := emit_reversal_initiated intent (Some (pa_attempt_id attempt)) now in
            eret intent
          else
            do* _ := _advance_attempt attempt "poll_pending" None id now in
            eret intent
      | FAILED | REJECTED | TIMED_OUT =>
          do* _ := _advance_attempt attempt "poll_failed" None (pa_set_failed (Some now)) now in
          do* intent := advance_intent intent "attempt_hard_declined" now in
          do* _ := emit_failed intent (or_str (cr_error_code result) "poll_failed") now in
          eret intent
      end
  end.

(** [poll_timed_out_attempt] up to the query. *)
Definition poll_timed_out_attempt (attempt_id : string) : keff (progress PaymentIntentRecord) :=
  do* p := pay in
  match get_attempt attempt_id p with
  | None => elift (Err NotFoundError)
  | Some attempt =>
      do* _ := _require_intent (pa_payment_intent_id attempt) in
      do* _ := call_rail (QueryStatus (pa_connector_id attempt) (pa_connector_ref attempt) (pa_rail_transaction_id attempt)) in
      eret (Waiting (FQuery attempt_id))
  end.

(** * Confirmation *)

Definition preflight_trigger (x : kexn) : option string :=
  match x with
  | LimitExceededError _ => Some "limit_exceeded"%string
  | SanctionsBlockError _ => Some "sanctions_hit"%string
  | AmlBlockError _ => Some "aml_block"%string
  | _ => None
  end.

(** The audit rows the screening ports write on their own connection. *)
Definition port_audits (e : Env) : keff unit := fun w =>
  (Ok tt, mk_World (w_pay w)
     (foldl (fun s spec => (write_audit_event (k_cfg K) s spec None (e_now e)).2) (w_led w) (e_port_audits e))
     (w_box w) (w_rail w)).

Definition confirm_outcome (p : progress PaymentIntentRecord) : progress ConfirmOutcome :=
  match p with
  | Done intent => Done (mk_ConfirmOutcome (pi_payment_intent_id intent) (pi_status intent) None)
  | Waiting f => Waiting f
  end.

Definition confirm (e : Env) (i : string) (details : list (string * string)) (credits_customer_wallet : bool) :
    keff (progress ConfirmOutcome) :=
  let now := e_now e in
  do* intent := _require_intent i in
  refuse (ConflictError "invalid_state_transition") when (String.eqb (pi_status intent) "REQUIRES_PAYMENT_METHOD") else
  do* _ := elift _require_psp_license in
  let pre_confirm_status := pi_status intent in
  do* intent := _advance_intent intent "confirm" None true id now in
  do* _ := port_audits e in
  let audited := _audit_transition intent (Some pre_confirm_status) (pi_status intent) "PAYMENT_STATE_TRANSITION" now in
  match run_preflight (k_limits K) (e_ports e) (pi_payment_intent_id intent) (pi_merchant_id intent)
          (pi_customer_id intent) (pi_amount_minor intent) (pi_method intent) details (pi_expires_at intent)
          credits_customer_wallet now with
  | Err refusal =>
      match preflight_trigger refusal with
      | None => elift (Err refusal)
      | Some trig =>
          do* _ := audited in
          do* failed := advance_intent intent trig now in
          do* _ := emit_failed failed trig now in
          elift (Err refusal)
      end
  | Ok result =>
      do* _ := audited in
      match action result with
      | Some a =>
          do* intent := advance_intent intent "action_required" now in
          eret (Done (mk_ConfirmOutcome (pi_payment_intent_id intent) (pi_status intent) (Some a)))
      | None =>
          do* intent := advance_intent intent "preflight_passed" now in
          do* _ := emit "payment_intent.processing" intent (id_payload intent) now in
          do* p := _dispatch e intent 1 in
          eret (confirm_outcome p)
      end
  end.

Definition complete_action (e : Env) (i : string) (success : bool) : keff (progress ConfirmOutcome) :=
  let now := e_now e in
  do* intent := _require_intent i in
  if negb success then
    do* intent := advance_intent intent "action_failed" now in
    do* _ := emit_failed intent "action_failed" now in
    eret (Done (mk_ConfirmOutcome (pi_payment_intent_id intent) (pi_status intent) None))
  else
    do* _ := elift _require_psp_license in
    do* intent := advance_intent intent "action_completed" now in
    do* _ := emit "payment_intent.processing" intent (id_payload intent) now in
    do* p := _dispatch e intent 1 in
    eret (confirm_outcome p).

(** * Capture, void, cancel *)

Definition capture (e : Env) (i : string) (amount_minor : option Z) : keff PaymentIntentRecord :=
  let now := e_now e in
  do* intent := _require_intent i in
  refuse (ConflictError "invalid_capture_state") when (negb (String.eqb (pi_status intent) "REQUIRES_CAPTURE")) else
  do* p := pay in
  match last_attempt (pi_payment_intent_id intent) p with
  | None => elift (Err (ConflictError "invalid_capture_state"))
  | Some attempt =>
      refuse (ConflictError "invalid_capture_state") when (negb (String.eqb (pa_status attempt) "AUTHORIZED")) else
      let capture_minor := default (pi_amount_minor intent) amount_minor in
      refuse (ConflictError "invalid_capture_state")
        when (negb ((0 <? capture_minor) && (capture_minor <=? pa_amount_minor attempt))) else
      do* _ := elift _require_psp_license in
      do* attempt := _advance_attempt attempt "capture_submitted" None id now in
      do* attempt := _advance_attempt attempt "capture_confirmed" None (pa_set_charged (Some now)) now in
      do* (intent, attempt) :=
        (if capture_minor =? pi_amount_minor intent then eret (intent, attempt)
         else
           do* intent := elift (intent_post_init (pi_set_amount capture_minor now intent)) in
           do* _ := on_pay (update_intent intent (pi_status intent)) in
           do* attempt := elift (attempt_post_init (pa_set_amount capture_minor now attempt)) in
           do* _ := on_pay (update_attempt attempt (pa_status attempt)) in
           eret (intent, attempt)) in
      _settle_authorized_charge e intent attempt "capture_requested"
  end.

Definition emit_cancelled (intent : PaymentIntentRecord) (reason : string) (now : datetime) : keff unit :=
  emit "payment_intent.cancelled" intent (id_payload intent ++ [("reason", PStr reason)]) now.

Definition _void (e : Env) (intent : PaymentIntentRecord) : keff PaymentIntentRecord :=
  let now := e_now e in
  do* p := pay in
  do* _ := match last_attempt (pi_payment_intent_id intent) p with
    | None => eret tt
    | Some attempt =>
        if negb (String.eqb (pa_status attempt) "AUTHORIZED") then eret tt
        else
          do* hold := open_hold_of intent in
          match hold with
          | None => elift (Err (ConflictError "authorization_hold_missing"))
          | Some hold_id =>
              do* _ := on_led (fun s => release_hold (k_cfg K) s hold_id "VOIDED" None now) in
              do* attempt := _advance_attempt attempt "void_submitted" None id now in
              _emit_attempt "payment_attempt.voided" intent attempt now
          end
    end in
  do* intent := _advance_intent intent "void_requested" None false (pi_set_cancelled (Some now)) now in
  do* _ := emit_cancelled intent "void" now in
  eret intent.

Definition cancel (e : Env) (i : string) : keff PaymentIntentRecord :=
  let now := e_now e in
  do* intent := _require_intent i in
  if String.eqb (pi_status intent) "REQUIRES_CAPTURE" then _void e intent
  else
    do* intent := _advance_intent intent "cancel_requested" None false (pi_set_cancelled (Some now)) now in
    do* _ := emit_cancelled intent "merchant_cancel" now in
    eret intent.

(** * Reversal *)

Definition _claim_reversal_dispatch (e : Env) (i : string) : keff (PaymentIntentRecord * PaymentAttemptRecord) :=
  let now := e_now e in
  do* p := pay in
  match lock_intent i p with
  | None => elift (Err NotFoundError)
  | Some intent =>
      do* intent :=
        (if String.eqb (pi_status intent) "REVERSAL_INITIATED" then advance_intent intent "reversal_dispatch_claimed" now
         else if String.eqb (pi_status intent) "REVERSAL_PENDING" then
           do* retry_at := elift (k_res (dt_add_seconds (pi_updated_at intent) REVERSAL_PENDING_RETRY_AFTER)) in
           do* early := elift (k_res (dt_less now retry_at)) in
           refuse (ConflictError "reversal_already_in_progress") when early else
           advance_intent intent "reversal_dispatch_claimed" now
         else elift (Err (ConflictError "invalid_state_transition"))) in
      do* p := pay in
      match last_attempt (pi_payment_intent_id intent) p with
      | None => elift (Err (ConflictError "invalid_state_transition"))
      | Some attempt => eret (intent, attempt)
      end
  end.

(** [execute_reversal] up to the rail call. *)
Definition execute_reversal (e : Env) (i reason : string) : keff (progress PaymentIntentRecord) :=
  do* _ := elift _require_psp_license in
  do* (_, attempt) := _claim_reversal_dispatch e i in
  do* _ := call_rail (Reverse (pa_connector_id attempt) (pa_connector_ref attempt) (pa_rail_transaction_id attempt)
    (pa_amount_minor attempt) reason) in
  eret (Waiting (FReverse i)).

Definition _apply_reversal_result (e : Env) (i : string) (result : ConnectorResult) : keff PaymentIntentRecord :=
  let now := e_now e in
  do* intent := _require_intent i in
  refuse (ConflictError "invalid_state_transition")
    when (negb (str_in (pi_status intent) ["REVERSAL_INITIATED"; "REVERSAL_PENDING"])) else
  do* p := pay in
  match last_attempt (pi_payment_intent_id intent) p with
  | None => elift (Err (ConflictError "invalid_state_transition"))
  | Some attempt =>
      if bool_decide (cr_status result = REVERSED) || bool_decide (cr_status result = SUCCESS) then
        do* attempt :=
          (if String.eqb (pa_status attempt) "CHARGED" then
             do* attempt := _advance_attempt attempt "reversal_submitted" None id now in
             do* _ := _post_reversal_entries intent attempt now in
             do* _ := _emit_attempt "payment_attempt.reversed" intent attempt now in
             eret attempt
           else if String.eqb (pa_status attempt) "AUTHORIZED" then
             do* hold := open_hold_of intent in
             do* _ := match hold with
               | None => eret tt
               | Some hold_id => on_led (fun s => release_hold (k_cfg K) s hold_id "VOIDED" None now)
               end in
             do* attempt := _advance_attempt attempt "void_submitted" None id now in
             do* _ := _emit_attempt "payment_attempt.voided" intent attempt now in
             eret attempt
           else eret attempt) in
        do* intent := _advance_intent intent "reversal_confirmed" None false (pi_set_reversed (Some now)) now in
        do* _ := emit "payment_intent.reversed" intent
          (id_payload intent ++ [("attempt_id", PStr (pa_attempt_id attempt)); ("amount_minor", PInt (pa_amount_minor attempt))])
          now in
        eret intent
      else
        do* intent := advance_intent intent "reversal_failed" now in
        do* compensation_id := elift (k_res (make_kernel_id "cref"
          (dict (id_payload intent ++ [("purpose", PStr "compensation")])))) in
        do* _ := _emit "compensation_item.queued" intent
          [("compensation_id", PStr compensation_id); ("resolution_kind", PStr "manual_reversal");
           ("amount_minor", PInt (pa_amount_minor attempt))]
          "PaymentIntent" None "platform.events" now in
        eret intent
  end.

(** * The TTL sweep *)

(** One turn of the loop; [false] when the intent is skipped. *)
Definition sweep_one (e : Env) (intent : PaymentIntentRecord) : keff bool :=
  let now := e_now e in
  if str_in (pi_status intent) ["CREATED"; "REQUIRES_PAYMENT_METHOD"; "REQUIRES_CONFIRMATION"] then
    do* updated := _advance_intent intent "ttl_expired" None false (pi_set_cancelled (Some now)) now in
    do* _ := emit "payment_intent.expired" updated (id_payload updated) now in
    eret true
  else if String.eqb (pi_status intent) "REQUIRES_ACTION" then
    do* updated := advance_intent intent "ttl_expired" now in
    do* _ := emit_failed updated "action_ttl_expired" now in
    eret true
  else if str_in (pi_status intent) ["PROCESSING"; "REQUIRES_CAPTURE"] then
    do* updated := advance_intent intent "ttl_expired" now in
    do* _ := emit_reversal_initiated updated (pi_latest_attempt_id updated) now in
    eret true
  else eret false.

Fixpoint sweep_loop (e : Env) (l : list PaymentIntentRecord) (moved : Z) : keff Z :=
  match l with
  | [] => eret moved
  | intent :: rest =>
      do* m := sweep_one e intent in
      sweep_loop e rest (if m then moved + 1 else moved)
  end.

Definition sweep_expired_intents (e : Env) : keff Z :=
  do* p := pay in
  sweep_loop e (list_expired_intents (e_now e) p) 0.

(** * Delivery *)

Definition confirm_delivery (e : Env) (i : string) (delivered_at : datetime) : keff PaymentIntentRecord :=
  let now := e_now e in
  do* intent := _require_intent i in
  refuse (ConflictError "intent_not_succeeded")
    when (negb (str_in (pi_status intent) ["SUCCEEDED"; "PARTIALLY_REFUNDED"])) else
  do* future := elift (k_res (dt_less now delivered_at)) in
  refuse (InvalidRequestError "delivered_at_in_future") when future else
  match pi_delivery_confirmed_at intent with
  | Some _ => eret intent
  | None =>
      do* updated := elift (intent_post_init (pi_set_delivered (Some now) now intent)) in
      do* _ := on_pay (update_intent updated (pi_status intent)) in
      do* _ := _audit_transition updated (Some (pi_status intent)) (pi_status intent) "DELIVERY_CONFIRMED" now in
      do* _ := emit "payment_intent.delivery_confirmed" updated
        (id_payload updated ++ [("delivery_confirmed_at", PDatetime now)]) now in
      eret updated
  end.

(** * Refunds *)

Definition _refunded_total (i : string) (p : PaymentStore) : Z :=
  sumZ (fun r => if String.eqb (rf_status r) "REFUND_SUCCEEDED" then rf_amount_minor r else 0) (list_refunds i p).

Definition _reserved_refund_total (i : string) (p : PaymentStore) : Z :=
  sumZ (fun r => if String.eqb (rf_status r) "REFUND_FAILED" then 0 else rf_amount_minor r) (list_refunds i p).

Definition emit_refund (event_type : string) (intent : PaymentIntentRecord) (refund_id : string)
    (payload : list (string * pyobj)) (now : datetime) : keff unit :=
  _emit event_type intent payload "Refund" (Some refund_id) "payment.events" now.

Definition create_refund (e : Env) (i : string) (amount_minor : Z) (reason : string) (key : option string) :
    keff RefundRecord :=
  let now := e_now e in
  do* _ := elift _require_psp_license in
  refuse (InvalidRequestError "idempotency_key_required")
    when (match key with Some k => negb (truthy k) | None => false end) else
  do* p := pay in
  match lock_intent i p with
  | None => elift (Err NotFoundError)
  | Some intent =>
      match match key with Some k => find_refund_by_idempotency_key i k p | None => None end with
      | Some existing =>
          refuse IdempotencyConflictError
            when (negb (rf_amount_minor existing =? amount_minor) || negb (String.eqb (rf_reason existing) reason)) else
          eret existing
      | None =>
          refuse (ConflictError "invalid_state_transition")
            when (negb (str_in (pi_status intent) ["SUCCEEDED"; "PARTIALLY_REFUNDED"])) else
          match _charged_attempt (pi_payment_intent_id intent) p with
          | None => elift (Err (ConflictError "invalid_state_transition"))
          | Some charged =>
              let remaining := pi_amount_minor intent - _reserved_refund_total (pi_payment_intent_id intent) p in
              refuse (LimitExceededError "refund_exceeds_captured") when (remaining <? amount_minor) else
              do* refund_id := elift (k_res (make_id "rfnd"
                (dict [("payment_intent_id", PStr (pi_payment_intent_id intent)); ("attempt_id", PStr (pa_attempt_id charged));
                       ("amount_minor", PInt amount_minor); ("created_at", PDatetime now)]))) in
              do* connector_ref := elift (k_res (make_kernel_id "cref"
                (dict [("refund_id", PStr refund_id); ("connector_id", PStr (pa_connector_id charged))]))) in
              do* instruction_id := elift (k_res (make_id "ins"
                (dict [("connector_ref", PStr connector_ref); ("operation", PStr "refund")]))) in
              do* refund := elift (refund_post_init
                (mk_RefundRecord refund_id (pi_payment_intent_id intent) (pa_attempt_id charged) amount_minor reason now now
                   "REFUND_INITIATED" "BDT" (Some (pa_connector_id charged)) (Some connector_ref) (Some instruction_id)
                   None None 0 [] key None None 1)) in
              do* _ := on_pay (insert_refund refund) in
              do* intent := advance_intent intent "refund_initiated" now in
              do* _ := emit_refund "refund.initiated" intent refund_id
                [("refund_id", PStr refund_id); ("payment_intent_id", PStr (pi_payment_intent_id intent));
                 ("amount_minor", PInt amount_minor); ("reason", PStr reason)] now in
              eret refund
          end
      end
  end.

(** [process_refund] up to the rail call. *)
Definition process_refund (e : Env) (refund_id : string) : keff (progress RefundRecord) :=
  do* _ := elift _require_psp_license in
  do* p := pay in
  match get_refund refund_id p with
  | None => elift (Err NotFoundError)
  | Some refund =>
      do* _ := _require_intent (rf_payment_intent_id refund) in
      do* refund := (if String.eqb (rf_status refund) "REFUND_INITIATED"
                     then _advance_refund refund "connector_dispatched" (e_now e) else eret refund) in
      do* _ := call_rail (Reverse (default ""%string (rf_connector_id refund))
        (or_str (rf_connector_ref refund) (rf_refund_id refund)) (rf_rail_transaction_id refund)
        (rf_amount_minor refund) (rf_reason refund)) in
      eret (Waiting (FRefund refund_id))
  end.

Definition _return_intent_after_refund_failure (e : Env) (intent : PaymentIntentRecord) (refund : RefundRecord) : keff unit :=
  do* p := pay in
  let g : string := if 0 <? _refunded_total (pi_payment_intent_id intent) p then "prior_partial" else "no_prior_partial" in
  do* intent := _advance_intent intent "refund_failed" (Some g) false id (e_now e) in
  emit_refund "refund.failed" intent (rf_refund_id refund)
    [("refund_id", PStr (rf_refund_id refund)); ("error_code", PStr "refund_failed")] (e_now e).

Definition _apply_refund_result (e : Env) (refund_id : string) (result : ConnectorResult) : keff RefundRecord :=
  let now := e_now e in
  do* p := pay in
  match get_refund refund_id p with
  | None => elift (Err NotFoundError)
  | Some refund =>
      match lock_intent (rf_payment_intent_id refund) p with
      | None => elift (Err NotFoundError)
      | Some intent =>
          let pid := pi_payment_intent_id intent in
          if bool_decide (cr_status result = SUCCESS) || bool_decide (cr_status result = REVERSED) then
            refuse (LimitExceededError "refund_exceeds_captured")
              when (pi_amount_minor intent <? _refunded_total pid p + rf_amount_minor refund) else
            do* refund := elift (refund_post_init
              (rf_set_reply (cr_rail_transaction_id result) (Some (cr_raw_response_hash result)) (Some now) now refund)) in
            do* refund := _advance_refund refund "connector_success" now in
            do* _ := _post_refund_entries intent refund now in
            do* p := pay in
            do* intent :=
              (if pi_amount_minor intent <=? _refunded_total pid p
               then advance_intent intent "refund_full_succeeded" now
               else advance_intent intent "refund_partial_succeeded" now) in
            do* _ := emit_refund "refund.succeeded" intent (rf_refund_id refund)
              [("refund_id", PStr (rf_refund_id refund)); ("payment_intent_id", PStr (pi_payment_intent_id intent));
               ("amount_minor", PInt (rf_amount_minor refund))] now in
            eret refund
          else if bool_decide (cr_status result = REJECTED) then
            do* refund := elift (refund_post_init (rf_set_failed (Some now) now refund)) in
            do* refund := _advance_refund refund "connector_rejected" now in
            do* _ := _return_intent_after_refund_failure e intent refund in
            eret refund
          else
            do* refund := elift (refund_post_init (rf_set_retry (rf_retry_count refund + 1) now refund)) in
            if MAX_REFUND_RETRIES <=? rf_retry_count refund then
              do* refund := elift (refund_post_init (rf_set_failed_at (Some now) refund)) in
              do* refund := _advance_refund refund "retries_exhausted" now in
              do* _ := _return_intent_after_refund_failure e intent refund in
              eret refund
            else
              _advance_refund refund
                (if bool_decide (cr_status result = TIMED_OUT) then "connector_timeout" else "connector_failed") now
      end
  end.

(** * Callbacks *)

Definition skipped : keff (progress string) := eret (Done "SKIPPED"%string).

(** [DISPATCHED] comes after the nested dispatch, if any, has ended. *)
Definition apply_inbound_connector_result (e : Env) (connector_id : string) (result : ConnectorResult) :
    keff (progress string) :=
  do* p := pay in
  match find_attempt_by_connector_ref connector_id (cr_connector_ref result) p with
  | Some attempt =>
      if negb (String.eqb (pa_instruction_id attempt) (cr_instruction_id result)) then skipped
      else if String.eqb (pa_status attempt) "AUTHORIZATION_PENDING" then
        do* intent := _require_intent (pa_payment_intent_id attempt) in
        do* r := _apply_connector_result e intent attempt result in
        eret (match r with Done _ => Done "DISPATCHED"%string | Waiting f => Waiting f end)
      else if String.eqb (pa_status attempt) "TIMED_OUT" then
        do* _ := _apply_status_poll_result e (pa_attempt_id attempt) result in
        eret (Done "DISPATCHED"%string)
      else skipped
  | None =>
      match find_refund_by_connector_ref connector_id (cr_connector_ref result) p with
      | None => skipped
      | Some refund =>
          if match rf_instruction_id refund with
             | Some x => negb (String.eqb x (cr_instruction_id result))
             | None => false
             end then skipped
          else if negb (String.eqb (rf_status refund) "REFUND_PENDING_CONNECTOR") then skipped
          else
            do* _ := _apply_refund_result e (rf_refund_id refund) result in
            eret (Done "DISPATCHED"%string)
      end
  end.

(** * Continuations *)

(** The runner answers a flight with a result or raises. *)
Definition resume (e : Env) (f : flight) (reply : res string ConnectorResult) : keff (option flight) :=
  match reply with
  | Err m => elift (Err (RailError m))
  | Ok result =>
      match f with
      | FSubmit intent attempt =>
          do* p := _apply_connector_result e intent attempt result in
          eret (match p with Done _ => None | Waiting f' => Some f' end)
      | FQuery attempt_id => do* _ := _apply_status_poll_result e attempt_id result in eret None
      | FReverse i => do* _ := _apply_reversal_result e i result in eret None
      | FRefund refund_id => do* _ := _apply_refund_result e refund_id result in eret None
      end
  end.

(** * The reversal task *)

(** [dispatch_pending_reversals], the runner's answers given by [rail]: the
    number of failures and the intents that were dispatched. *)
Fixpoint reversal_loop (e : Env) (rail : string -> res string ConnectorResult) (l : list PaymentIntentRecord)
    (failures : nat) (dispatched : list string) : World -> (nat * list string) * World := fun w =>
  match l with
  | [] => ((failures, dispatched), w)
  | intent :: rest =>
      let i := pi_payment_intent_id intent in
      match (do* p := execute_reversal e i "scheduler_reversal" in
             match p with
             | Done _ => eret None
             | Waiting f => resume e f (rail i)
             end) w with
      | (Ok _, w') => reversal_loop e rail rest failures (dispatched ++ [i]) w'
      | (Err x, w') =>
          let hot := match x with ConflictError c => String.eqb c "reversal_already_in_progress" | _ => false end in
          reversal_loop e rail rest (if hot then failures else S failures) dispatched w'
      end
  end.

Definition dispatch_pending_reversals (e : Env) (rail : string -> res string ConnectorResult) : keff (list string) := fun w =>
  let todo := list_intents None None (Some "REVERSAL_INITIATED"%string) 100 0 (w_pay w) ++
              list_intents None None (Some "REVERSAL_PENDING"%string) 100 0 (w_pay w) in
  let '((failures, dispatched), w') := reversal_loop e rail todo 0 [] w in
  match failures with
  | O => (Ok dispatched, w')
  | _ => (Err (RuntimeError failures), w')
  end.
End Orchestrator.
