(* ===== verification/Chart.v ===== *)
(** The chart of accounts (ledger/chart.py): its bootstrap, the accounts of a merchant
    and of a customer, and that they are the accounts the payment kernel posts to. *)
From S2P Require Import Prelude Exceptions DateTime Sha256 Canonical LedgerTypes LedgerStore HashChain LedgerService LedgerOps LedgerHistory Demo.
From S2P Require Import Outbox Fsm PaymentStates Money Fees Calendar KernelModels Preflight Sdk Orchestrator.
Open Scope Z_scope.

(** [(account_subtype, account_type, purpose_tag)] *)
Definition SYSTEM_ACCOUNTS : list (string * string * string) :=
  [("SPONSOR_BANK_TCSA", "ASSET", "tcsa_main"); ("IN_TRANSIT", "ASSET", "npsb_transit"); ("IN_TRANSIT", "ASSET", "beftn_transit");
   ("IN_TRANSIT", "ASSET", "rtgs_transit"); ("FEE_RECEIVABLE", "ASSET", "mdr_receivable"); ("SUSPENSE", "ASSET", "recon_suspense");
   ("CONNECTOR_CLEARING", "ASSET", "bkash_clearing"); ("CONNECTOR_CLEARING", "ASSET", "card_clearing");
   ("CONNECTOR_CLEARING", "ASSET", "nagad_clearing"); ("CONNECTOR_CLEARING", "ASSET", "rocket_clearing");
   ("REFUND_RESERVE", "LIABILITY", "refund_reserve_main"); ("MDR_INCOME", "INCOME", "mdr_earned");
   ("SWITCHING_FEE_INCOME", "INCOME", "switching_fee_earned"); ("INTERCHANGE_INCOME", "INCOME", "interchange_earned");
   ("FLOAT_INTEREST_INCOME", "INCOME", "tcsa_interest"); ("SPONSOR_BANK_FEE", "EXPENSE", "sponsor_bank_fee");
   ("NETWORK_FEE", "EXPENSE", "scheme_fee"); ("REFUND_EXPENSE", "EXPENSE", "refund_cost"); ("RETAINED_EARNINGS", "EQUITY", "retained");
   ("PAID_UP_CAPITAL", "EQUITY", "paid_up"); ("OFFER_COMMISSION_INCOME", "INCOME", "offer_commission");
   ("OFFER_MARKETING_EXPENSE", "EXPENSE", "offer_subsidy")].

Section Chart.
Context `{HashFn} `{CheckpointSigner} `{Redactor} (cfg : LedgerCfg).

(** The message of the one refusal that is not passed on says "already exists". *)
Definition _create_or_get (s : Store) (spec : AccountSpec) (clock : datetime) : outcome string :=
  match create_account s spec clock with
  | (Err (LedgerValidationError (AccountAlreadyExists _)), s') =>
      (HashChain.account_id (acs_account_subtype spec) (acs_purpose_tag spec) (acs_owner_id spec) (acs_currency spec), s')
  | o => o
  end.

Definition system_spec (row : string * string * string) : AccountSpec :=
  mk_AccountSpec row.1.2 row.1.1 None (Some "SYSTEM"%string) None (Some row.2) true "BDT".

(** [out[key] = _create_or_get(...)] for the rows that are left. *)
Fixpoint bootstrap_loop (s : Store) (rows : list (string * string * string)) (clock : datetime) (out : list ((string * string) * string)) :
    outcome (list ((string * string) * string)) :=
  match rows with
  | [] => (Ok out, s)
  | row :: r =>
      match _create_or_get s (system_spec row) clock with
      | (Ok id, s') => bootstrap_loop s' r clock (out ++ [((row.1.1, row.2), id)])
      | (Err e, s') => (Err e, s')
      end
  end.

Definition bootstrap_chart_of_accounts (s : Store) (clock : datetime) : outcome (list ((string * string) * string)) :=
  bootstrap_loop s SYSTEM_ACCOUNTS clock [].

Definition owned_spec (subtype owner owner_type tag : string) (parent : option string) : AccountSpec :=
  mk_AccountSpec "LIABILITY" subtype (Some owner) (Some owner_type) parent (Some tag) false "BDT".

(** [x = c; k(x)] on calls of the service. *)
Definition then_ {A B} (o : outcome A) (k : A -> Store -> outcome B) : outcome B :=
  match o with (Ok a, s) => k a s | (Err e, s) => (Err e, s) end.

Definition open_merchant_accounts (s : Store) (merchant_id : string) (clock : datetime) : outcome (list (string * string)) :=
  then_ (_create_or_get s (owned_spec "MERCHANT_SETTLEMENT" merchant_id "MERCHANT" "settlement_main" None) clock) (fun settlement s =>
  then_ (_create_or_get s (owned_spec "MERCHANT_HOLD_RESERVE" merchant_id "MERCHANT" "hold_reserve" (Some settlement)) clock) (fun hold s =>
  then_ (_create_or_get s (owned_spec "MERCHANT_ROLLING_RESERVE" merchant_id "MERCHANT" "rolling_reserve" (Some settlement)) clock) (fun rolling s =>
  (Ok [("MERCHANT_SETTLEMENT"%string, settlement); ("MERCHANT_HOLD_RESERVE"%string, hold); ("MERCHANT_ROLLING_RESERVE"%string, rolling)], s)))).

Definition open_customer_accounts (s : Store) (customer_id : string) (clock : datetime) : outcome (list (string * string)) :=
  then_ (_create_or_get s (owned_spec "CUSTOMER_FLOAT" customer_id "CUSTOMER" "float_main" None) clock) (fun float_acct s =>
  then_ (_create_or_get s (owned_spec "CUSTOMER_HOLD_RESERVE" customer_id "CUSTOMER" "hold_reserve" (Some float_acct)) clock) (fun hold s =>
  (Ok [("CUSTOMER_FLOAT"%string, float_acct); ("CUSTOMER_HOLD_RESERVE"%string, hold)], s))).

(** * One account *)

Definition spec_id (spec : AccountSpec) : res exn string :=
  HashChain.account_id (acs_account_subtype spec) (acs_purpose_tag spec) (acs_owner_id spec) (acs_currency spec).

Definition has_account (s : Store) (id : string) : Prop := is_Some (s_accounts s !! id).

(** A spec the service accepts. *)
Definition sound_spec (s : Store) (spec : AccountSpec) : Prop :=
  str_in (acs_account_type spec) ACCOUNT_TYPES = true /\ str_in (acs_account_subtype spec) ACCOUNT_SUBTYPES = true /\
  (exists t, acs_owner_type spec = Some t /\ str_in t OWNER_TYPES = true) /\ acs_currency spec = "BDT"%string /\
  match acs_parent_id spec with Some p => has_account s p | None => True end.

(** The row [create_account] stores. *)
Definition account_row (spec : AccountSpec) (id : string) (clock : datetime) : AccountRow :=
  mk_AccountRow id (acs_account_type spec) (acs_account_subtype spec) (acs_currency spec) (acs_owner_id spec) (acs_owner_type spec)
    (acs_parent_id spec) (acs_purpose_tag spec) (acs_is_system spec) clock None 1.

(** What opening an account keeps: the accounts there are, and that none of them is closed; no money moves. *)
Definition grows (s s' : Store) : Prop :=
  s_accounts s ⊆ s_accounts s' /\ s_journal s' = s_journal s /\ s_postings s' = s_postings s /\ s_balances s' = s_balances s.

Definition all_open (s : Store) : Prop := map_Forall (fun _ row => ac_closed_at row = None) (s_accounts s).

Lemma create_or_get_Ok s spec clock id : sound_spec s spec -> spec_id spec = Ok id -> tz_aware clock = true ->
  exists s', _create_or_get s spec clock = (Ok id, s') /\ (has_account s id -> s' = s) /\
    (s_accounts s !! id = None -> s_accounts s' = <[id := account_row spec id clock]> (s_accounts s) /\ grows s s').
Proof.
  intros (Ht & Hs & (o & Ho & Hown) & Hc & Hp) Hid Hclock. unfold _create_or_get, create_account, spec_id in *.
  rewrite Ht, Hs, Ho, Hown. cbn [negb]. rewrite bool_decide_eq_true_2 by done. cbn [negb]. rewrite Hid. cbn [attempt].
  unfold _now. rewrite Hclock. cbn [negb attempt]. unfold transaction, tx_get_account, has_account in *. cbn [t_accounts new_tx]. rewrite !lookup_empty.
  cbn [staged_or]. destruct (s_accounts s !! id) as [row|] eqn:Hrow.
  - rewrite bool_decide_eq_true_2 by eauto. exists s. by split_and!.
  - rewrite bool_decide_eq_false_2 by (by intros []).
    assert (Hpar : match acs_parent_id spec with Some p => bool_decide (staged_or ((∅ : gmap string AccountRow) !! p) (s_accounts s !! p) = None) | None => false end = false).
    { destruct (acs_parent_id spec) as [p|]; [|done]. rewrite lookup_empty. cbn. apply bool_decide_eq_false_2. by destruct Hp as [? ->]. }
    rewrite Hpar. unfold insert_account, tx_get_account. cbn [ac_account_id t_accounts new_tx]. rewrite lookup_empty. cbn [staged_or]. rewrite Hrow.
    rewrite bool_decide_eq_false_2 by (by intros []). cbn [rbind].
    eexists. split; [reflexivity|]. split; [by intros []|]. intros _. unfold grows, account_row. cbn. rewrite Ho, <- insert_union_l, !(left_id_L ∅ (∪)).
    split_and!; try done. by apply insert_subseteq.
Qed.

Lemma grows_refl s : grows s s.
Proof. done. Qed.

Lemma grows_trans s1 s2 s3 : grows s1 s2 -> grows s2 s3 -> grows s1 s3.
Proof. intros (A1 & B1 & C1 & D1) (A2 & B2 & C2 & D2). split_and!; [by etrans|congruence..]. Qed.

(** The accounts that were there are there, whatever was posted since. *)
Definition keeps (s s' : Store) : Prop := s_accounts s ⊆ s_accounts s'.

Lemma grows_keeps s s' : grows s s' -> keeps s s'.
Proof. by intros [? _]. Qed.

Lemma keeps_trans s1 s2 s3 : keeps s1 s2 -> keeps s2 s3 -> keeps s1 s3.
Proof. unfold keeps. by etrans. Qed.

Lemma keeps_has s s' id : keeps s s' -> has_account s id -> has_account s' id.
Proof. intros Hsub [row Hrow]. exists row. by eapply lookup_weaken. Qed.

Lemma grows_has s s' id : grows s s' -> has_account s id -> has_account s' id.
Proof. intros Hg. by apply keeps_has, grows_keeps. Qed.

(** An account that is opened is there from then on. *)
Lemma opened s spec clock id : sound_spec s spec -> spec_id spec = Ok id -> tz_aware clock = true ->
  exists s', _create_or_get s spec clock = (Ok id, s') /\ grows s s' /\ has_account s' id /\ (all_open s -> all_open s').
Proof.
  intros Hs Hid Hclock. destruct (create_or_get_Ok s spec clock id Hs Hid Hclock) as (s' & Hc & Hold & Hnew). exists s'. split; [done|].
  destruct (s_accounts s !! id) as [row|] eqn:Hrow.
  - rewrite Hold by (by exists row). split_and!; [apply grows_refl|by exists row|done].
  - destruct (Hnew eq_refl) as [Heq Hg]. split_and!; [done| |].
    + unfold has_account. rewrite Heq, lookup_insert_eq. eauto.
    + intros Ho. unfold all_open. rewrite Heq. by apply map_Forall_insert_2.
Qed.

(** One that is there already is found. *)
Lemma found_again s spec clock id : sound_spec s spec -> spec_id spec = Ok id -> tz_aware clock = true -> has_account s id ->
  _create_or_get s spec clock = (Ok id, s).
Proof. intros Hs Hid Hclock Hhas. destruct (create_or_get_Ok s spec clock id Hs Hid Hclock) as (s' & Hc & Hold & _). by rewrite Hc, Hold. Qed.

Lemma spec_id_total spec : exists id, spec_id spec = Ok id.
Proof. unfold spec_id, HashChain.account_id. apply make_id_total; [reflexivity|]. by destruct (acs_owner_id spec), (acs_purpose_tag spec). Qed.

Lemma sound_owned s subtype owner owner_type tag parent : str_in subtype ACCOUNT_SUBTYPES = true -> str_in owner_type OWNER_TYPES = true ->
  match parent with Some p => has_account s p | None => True end -> sound_spec s (owned_spec subtype owner owner_type tag parent).
Proof. intros Hs Ho Hp. split_and!; cbn; eauto. Qed.

(** * The bootstrap *)

Definition sound_row (row : string * string * string) : bool := str_in row.1.2 ACCOUNT_TYPES && str_in row.1.1 ACCOUNT_SUBTYPES.

Lemma sound_system s row : sound_row row = true -> sound_spec s (system_spec row).
Proof. intros [Ht Hs]%andb_prop. split_and!; cbn; eauto. Qed.

Lemma bootstrap_opens rows clock : forallb sound_row rows = true -> tz_aware clock = true ->
  forall s out, exists ids s', Forall2 (fun row id => system_account_id row.1.1 row.2 = Ok id) rows ids /\
    bootstrap_loop s rows clock out = (Ok (out ++ zip ((fun row => (row.1.1, row.2)) <$> rows) ids), s') /\
    grows s s' /\ Forall (has_account s') ids /\ (all_open s -> all_open s').
Proof.
  intros Hrows Hclock. induction rows as [|row rows IH]; intros s out.
  { exists [], s. cbn. rewrite app_nil_r. split_and!; try done. }
  apply andb_prop in Hrows as [Hrow Hrows]. destruct (spec_id_total (system_spec row)) as [id Hid].
  destruct (opened s _ clock id (sound_system s row Hrow) Hid Hclock) as (s1 & Hc & Hg1 & Hhas & Ho1).
  destruct (IH Hrows s1 (out ++ [((row.1.1, row.2), id)])) as (ids & s2 & Hids & Hloop & Hg2 & Hall & Ho2).
  exists (id :: ids), s2. cbn. rewrite Hc, Hloop, <- app_assoc. split_and!; [by constructor|done|by eapply grows_trans| |by auto].
  constructor; [|done]. by eapply grows_has.
Qed.

Lemma bootstrap_finds rows ids clock s : forallb sound_row rows = true -> tz_aware clock = true ->
  Forall2 (fun row id => system_account_id row.1.1 row.2 = Ok id) rows ids -> Forall (has_account s) ids ->
  forall out, bootstrap_loop s rows clock out = (Ok (out ++ zip ((fun row => (row.1.1, row.2)) <$> rows) ids), s).
Proof.
  intros Hrows Hclock Hids Hall. induction Hids as [|row id rows ids Hid Hids IH]; intros out; [by rewrite app_nil_r|].
  apply andb_prop in Hrows as [Hrow Hrows]. apply Forall_cons in Hall as [Hhas Hall]. cbn.
  rewrite (found_again s _ clock id (sound_system s row Hrow) Hid Hclock Hhas), (IH Hrows Hall), <- app_assoc. done.
Qed.

(** A system account of the table is open after the bootstrap. *)
Lemma bootstrap_has s ids subtype tag : Forall2 (fun row id => system_account_id row.1.1 row.2 = Ok id) SYSTEM_ACCOUNTS ids ->
  Forall (has_account s) ids -> (subtype, tag) ∈ ((fun row => (row.1.1, row.2)) <$> SYSTEM_ACCOUNTS) ->
  exists id, system_account_id subtype tag = Ok id /\ has_account s id.
Proof.
  intros Hids Hall ([[subtype' ty] tag'] & [= -> ->] & Hin)%list_elem_of_fmap. apply list_elem_of_lookup in Hin as [i Hi].
  destruct (Forall2_lookup_l _ _ _ _ _ Hids Hi) as (id & Hid & Hok). exists id. split; [done|]. by eapply Forall_lookup in Hall.
Qed.

(** * The accounts of an owner *)

Definition owner_account (owner subtype tag : string) : res exn string := HashChain.account_id subtype (Some tag) (Some owner) "BDT".

Lemma owner_account_total owner subtype tag : exists id, owner_account owner subtype tag = Ok id.
Proof. exact (spec_id_total (owned_spec subtype owner "" tag None)). Qed.

(** Opening an owner's account, with a parent that is there: it is there afterwards, and opening it again finds it. *)
Lemma owned_opens s clock subtype owner owner_type tag parent : str_in subtype ACCOUNT_SUBTYPES = true -> str_in owner_type OWNER_TYPES = true ->
  match parent with Some p => has_account s p | None => True end -> tz_aware clock = true ->
  exists id s', owner_account owner subtype tag = Ok id /\ _create_or_get s (owned_spec subtype owner owner_type tag parent) clock = (Ok id, s') /\
    grows s s' /\ has_account s' id /\ (all_open s -> all_open s') /\
    (forall s2 clock2, keeps s' s2 -> tz_aware clock2 = true -> _create_or_get s2 (owned_spec subtype owner owner_type tag parent) clock2 = (Ok id, s2)).
Proof.
  intros Hsub Hown Hp Hclock. destruct (owner_account_total owner subtype tag) as [id Hid].
  destruct (opened s (owned_spec subtype owner owner_type tag parent) clock id) as (s' & Hc & Hg & Hhas & Ho); [by apply sound_owned|done..|].
  exists id, s'. split_and!; try done. intros s2 clock2 Hg2 Hclock2. apply found_again; [|done|done|by eapply keeps_has].
  apply sound_owned; [done..|]. destruct parent as [p|]; [|done]. eapply keeps_has; [done|]. by eapply grows_has.
Qed.

Lemma merchant_accounts_open s m clock : tz_aware clock = true ->
  exists settlement hold rolling s', let out := [("MERCHANT_SETTLEMENT"%string, settlement); ("MERCHANT_HOLD_RESERVE"%string, hold);
      ("MERCHANT_ROLLING_RESERVE"%string, rolling)] in
    open_merchant_accounts s m clock = (Ok out, s') /\ merchant_settlement_id m = Ok settlement /\ merchant_hold_reserve_id m = Ok hold /\
    grows s s' /\ Forall (has_account s') [settlement; hold; rolling] /\ (all_open s -> all_open s') /\
    (forall s2 clock2, keeps s' s2 -> tz_aware clock2 = true -> open_merchant_accounts s2 m clock2 = (Ok out, s2)).
Proof.
  intros Hclock. unfold open_merchant_accounts.
  destruct (owned_opens s clock "MERCHANT_SETTLEMENT" m "MERCHANT" "settlement_main" None) as (i1 & s1 & Hi1 & E1 & G1 & P1 & O1 & F1); [done..|].
  destruct (owned_opens s1 clock "MERCHANT_HOLD_RESERVE" m "MERCHANT" "hold_reserve" (Some i1)) as (i2 & s2 & Hi2 & E2 & G2 & P2 & O2 & F2); [done..|].
  destruct (owned_opens s2 clock "MERCHANT_ROLLING_RESERVE" m "MERCHANT" "rolling_reserve" (Some i1)) as (i3 & s3 & Hi3 & E3 & G3 & P3 & O3 & F3);
    [done|done|by eapply grows_has|done|].
  exists i1, i2, i3, s3. cbn zeta. split_and!; [|done|done|eauto using grows_trans| |by auto|].
  { rewrite E1. cbn [then_]. rewrite E2. cbn [then_]. by rewrite E3. }
  { repeat constructor; eauto using grows_has. }
  intros s4 clock4 Hg Hc4. rewrite F1 by eauto using keeps_trans, grows_keeps. cbn [then_]. rewrite F2 by eauto using keeps_trans, grows_keeps. cbn [then_]. by rewrite F3.
Qed.

Lemma customer_accounts_open s c clock : tz_aware clock = true ->
  exists float hold s', let out := [("CUSTOMER_FLOAT"%string, float); ("CUSTOMER_HOLD_RESERVE"%string, hold)] in
    open_customer_accounts s c clock = (Ok out, s') /\ grows s s' /\ Forall (has_account s') [float; hold] /\ (all_open s -> all_open s') /\
    (forall s2 clock2, keeps s' s2 -> tz_aware clock2 = true -> open_customer_accounts s2 c clock2 = (Ok out, s2)).
Proof.
  intros Hclock. unfold open_customer_accounts.
  destruct (owned_opens s clock "CUSTOMER_FLOAT" c "CUSTOMER" "float_main" None) as (i1 & s1 & Hi1 & E1 & G1 & P1 & O1 & F1); [done..|].
  destruct (owned_opens s1 clock "CUSTOMER_HOLD_RESERVE" c "CUSTOMER" "hold_reserve" (Some i1)) as (i2 & s2 & Hi2 & E2 & G2 & P2 & O2 & F2); [done..|].
  exists i1, i2, s2. cbn zeta. split_and!; [|eauto using grows_trans| |by auto|].
  { rewrite E1. cbn [then_]. by rewrite E2. }
  { repeat constructor; eauto using grows_has. }
  intros s4 clock4 Hg Hc4. rewrite F1 by eauto using keeps_trans, grows_keeps. cbn [then_]. by rewrite F2.
Qed.

(** * The kernel's accounts *)

(** The transit account of every method is a row of the chart. *)
Lemma transit_is_charted : forallb (fun '(_, acct) => bool_decide (acct ∈ ((fun row => (row.1.1, row.2)) <$> SYSTEM_ACCOUNTS))) _TRANSIT_ACCOUNT_BY_METHOD = true.
Proof. reflexivity. Qed.

Lemma system_accounts_sound : forallb sound_row SYSTEM_ACCOUNTS = true.
Proof. reflexivity. Qed.

Lemma mget_forallb {A} (f : A -> bool) key (l : list (string * A)) v : forallb (fun '(_, x) => f x) l = true -> mget key l = Some v -> f v = true.
Proof.
  induction l as [|[k x] l IH]; [done|]. cbn. intros [Hx Hl]%andb_prop Hg. destruct (String.eqb k key); [by simplify_eq|by apply IH].
Qed.

(** C19: the chart holds what the kernel posts to.  From any ledger, with a clock that has
    a timezone, the bootstrap and then the opening of a merchant's accounts both succeed;
    they move no money, keep every account there was, and open none that is closed.  For
    every method the kernel takes, the four accounts [kernel_accounts] computes by itself
    (the method's transit account, the fee income, the merchant's settlement and reserve)
    are then among the ledger's accounts.  Running either again, then or after any number
    of calls of the ledger service (posts, holds, audit events, further accounts), answers
    the same ids and changes nothing. *)
Theorem chart_holds_the_kernels_accounts s clock merchant_id : tz_aware clock = true ->
  exists chart s1 accounts s2, bootstrap_chart_of_accounts s clock = (Ok chart, s1) /\
    open_merchant_accounts s1 merchant_id clock = (Ok accounts, s2) /\ grows s s2 /\ (all_open s -> all_open s2) /\
    (forall method, is_Some (mget method _TRANSIT_ACCOUNT_BY_METHOD) ->
      exists acc, kernel_accounts merchant_id method = Ok acc /\
        Forall (has_account s2) [ac_in_transit acc; ac_mdr_income acc; ac_merchant_settlement acc; ac_merchant_hold_reserve acc]) /\
    (forall s3 later, rtc (step cfg) s2 s3 -> tz_aware later = true ->
      bootstrap_chart_of_accounts s3 later = (Ok chart, s3) /\ open_merchant_accounts s3 merchant_id later = (Ok accounts, s3)).
Proof.
  intros Hclock. destruct (bootstrap_opens _ clock system_accounts_sound Hclock s []) as (ids & s1 & Hids & Hb & Hg1 & Hall & Ho1).
  destruct (merchant_accounts_open s1 merchant_id clock Hclock) as (a1 & a2 & a3 & s2 & Hm & Hi1 & Hi2 & Hg2 & Hhas & Ho2 & Hagain).
  eexists _, s1, _, s2. split_and!; [exact Hb|exact Hm|by eapply grows_trans|by auto| |].
  - intros method [[subtype tag] Hmethod]. assert (Hall2 : Forall (has_account s2) ids) by eauto using Forall_impl, grows_has.
    pose proof (mget_forallb _ _ _ _ transit_is_charted Hmethod) as Hin%bool_decide_eq_true.
    destruct (bootstrap_has s2 ids _ _ Hids Hall2 Hin) as (t & Ht & Hht).
    destruct (bootstrap_has s2 ids "MDR_INCOME" "mdr_earned" Hids Hall2) as (f & Hf & Hhf); [by apply (bool_decide_unpack _)|].
    exists (mk_Accounts t f a1 a2). unfold kernel_accounts, transit_account_for. rewrite Hmethod, Ht, Hf, Hi1, Hi2. cbn.
    split; [done|]. repeat constructor; [done|done|by eapply Forall_inv|by eapply Forall_inv, Forall_inv_tail].
  - intros s3 later Hsteps Hlater. assert (Hk3 : keeps s2 s3) by (by eapply ex_accounts, steps_extend).
    split; [|by apply Hagain]. apply (bootstrap_finds _ ids); [reflexivity|done|done|].
    eauto using Forall_impl, keeps_has, keeps_trans, grows_keeps.
Qed.
End Chart.

(** On an empty ledger the chart is twenty-two accounts, a merchant three more. *)
Example fresh_chart : (size (s_accounts (bootstrap_chart_of_accounts (H := quick_hash) empty_store demo_clock).2),
  size (s_accounts (open_merchant_accounts (H := quick_hash) (bootstrap_chart_of_accounts (H := quick_hash) empty_store demo_clock).2 "mer_1" demo_clock).2)) = (22, 25)%nat.
Proof. vm_compute. reflexivity. Qed.

Lemma chart_holds_the_kernels_accounts_witness : tz_aware demo_clock = true /\ all_open empty_store /\
  exists chart s1 accounts s2, bootstrap_chart_of_accounts (H := quick_hash) empty_store demo_clock = (Ok chart, s1) /\
    open_merchant_accounts (H := quick_hash) s1 "mer_1" demo_clock = (Ok accounts, s2) /\ all_open s2 /\
    exists acc, kernel_accounts (H := quick_hash) "mer_1" "BKASH" = Ok acc /\
      Forall (has_account s2) [ac_in_transit acc; ac_mdr_income acc; ac_merchant_settlement acc; ac_merchant_hold_reserve acc].
Proof.
  split; [reflexivity|]. split; [apply map_Forall_empty|].
  destruct (chart_holds_the_kernels_accounts (H := quick_hash) demo_cfg empty_store demo_clock "mer_1" eq_refl)
    as (chart & s1 & accounts & s2 & Hb & Hm & _ & Ho & Hk & _).
  exists chart, s1, accounts, s2. split; [exact Hb|]. split; [exact Hm|]. split; [apply Ho, map_Forall_empty|].
  apply (Hk "BKASH"). by exists ("CONNECTOR_CLEARING", "bkash_clearing").
Defined.
