(* ===== verification/KernelMachine.v ===== *)
(** The kernel as a machine: its world and the coroutines suspended on the rail,
    moved by calls, by the runner's answers in any order and by other users of the
    ledger; and the logic of Effects.v at the kernel's primitives. *)
From S2P Require Import Prelude Effects Rows Exceptions DateTime Sha256 Canonical LedgerTypes LedgerStore HashChain LedgerService LedgerOps.
From S2P Require Import Outbox Fsm PaymentStates Money Fees Calendar KernelModels Preflight Sdk Orchestrator.
Open Scope Z_scope.

(** * The machine *)

Inductive call : Type :=
| CreateIntent (rq : PaymentIntentRequest)
| SupplyMethod (i method : string)
| Confirm (i : string) (details : list (string * string)) (credits_customer_wallet : bool)
| CompleteAction (i : string) (success : bool)
| Capture (i : string) (amount_minor : option Z)
| Cancel (i : string)
| ExecuteReversal (i reason : string)
| SweepExpired
| PollTimedOut (attempt_id : string)
| ConfirmDelivery (i : string) (delivered_at : datetime)
| CreateRefund (i : string) (amount_minor : Z) (reason : string) (key : option string)
| ProcessRefund (refund_id : string)
| Inbound (connector_id : string) (result : ConnectorResult)
| DispatchPendingReversals (rail : string -> res string ConnectorResult).

Definition ended {A} (c : keff A) : keff (option flight) := do* _ := c in eret None.
Definition suspended {A} (c : keff (progress A)) : keff (option flight) :=
  do* p := c in eret (match p with Done _ => None | Waiting f => Some f end).

(** A state: the world and the suspended coroutines, oldest first. *)
Record Machine : Type := mk_Machine { m_world : World; m_flights : list flight }.

Inductive action : Type :=
| ACall (e : Env) (c : call)
| AReply (e : Env) (n : nat) (reply : res string ConnectorResult)   (* the runner answers the [n]-th flight *)
| ALedger (op : Op).                                                (* another component uses the ledger *)

Section Machine.
Context `{HashFn} `{CheckpointSigner} `{Redactor} `{DhakaTz} (exc_text : kexn -> string) (K : Kernel).

Definition invoke (e : Env) (c : call) : keff (option flight) :=
  match c with
  | CreateIntent rq => ended (create_intent K e rq)
  | SupplyMethod i m => ended (supply_method K e i m)
  | Confirm i details credits => suspended (confirm K e i details credits)
  | CompleteAction i success => suspended (complete_action K e i success)
  | Capture i amount => ended (capture exc_text K e i amount)
  | Cancel i => ended (cancel K e i)
  | ExecuteReversal i reason => suspended (execute_reversal K e i reason)
  | SweepExpired => ended (sweep_expired_intents K e)
  | PollTimedOut a => suspended (poll_timed_out_attempt a)
  | ConfirmDelivery i t => ended (confirm_delivery K e i t)
  | CreateRefund i amount reason key => ended (create_refund K e i amount reason key)
  | ProcessRefund r => suspended (process_refund K e r)
  | Inbound connector result => suspended (apply_inbound_connector_result exc_text K e connector result)
  | DispatchPendingReversals rail => ended (dispatch_pending_reversals exc_text K e rail)
  end.

Definition launched (r : res kexn (option flight)) : list flight :=
  match r with Ok (Some f) => [f] | _ => [] end.

(** Run a piece and keep the coroutine it leaves. *)
Definition run_piece (c : keff (option flight)) (w : World) (fs : list flight) : Machine :=
  let '(r, w') := c w in mk_Machine w' (fs ++ launched r).

Definition act (m : Machine) (a : action) : Machine :=
  match a with
  | ACall e c => run_piece (invoke e c) (m_world m) (m_flights m)
  | AReply e n reply =>
      match m_flights m !! n with
      | None => m
      | Some f => run_piece (resume exc_text K e f reply) (m_world m) (delete n (m_flights m))
      end
  | ALedger op =>
      let w := m_world m in mk_Machine (mk_World (w_pay w) (run (k_cfg K) (w_led w) op) (w_box w) (w_rail w)) (m_flights m)
  end.

Definition start : Machine := mk_Machine (mk_World empty_payments empty_store [] []) [].

Definition history (actions : list action) : Machine := foldl act start actions.

(** An invariant of the world and the flights, kept by every piece. *)
Lemma history_inv (J : World -> Prop) (F : flight -> World -> Prop) :
  J (m_world start) ->
  (forall e c w r w', J w -> invoke e c w = (r, w') -> J w' /\ Forall (fun f => F f w') (launched r)) ->
  (forall e f reply w r w', J w -> F f w -> resume exc_text K e f reply w = (r, w') ->
     J w' /\ Forall (fun f => F f w') (launched r)) ->
  (forall w op, J w -> J (mk_World (w_pay w) (run (k_cfg K) (w_led w) op) (w_box w) (w_rail w))) ->
  (forall f e c w, J w -> F f w -> F f (invoke e c w).2) ->
  (forall f e g reply w, J w -> F f w -> F g w -> F f (resume exc_text K e g reply w).2) ->
  (forall f w op, J w -> F f w -> F f (mk_World (w_pay w) (run (k_cfg K) (w_led w) op) (w_box w) (w_rail w))) ->
  forall actions, J (m_world (history actions)) /\
    Forall (fun f => F f (m_world (history actions))) (m_flights (history actions)).
Proof.
  intros Hstart Hcall Hreply Hled Fcall Freply Fled actions. unfold history.
  assert (Hs : J (m_world start) /\ Forall (fun f => F f (m_world start)) (m_flights start)) by (by split).
  revert Hs. generalize start. induction actions as [|a l IH]; intros m [HJ HF]; [done|]. cbn [foldl]. apply IH.
  destruct m as [w fs], a as [e c|e n reply|op]; cbn [act m_world m_flights] in *.
  - unfold run_piece. destruct (invoke e c w) as [r w'] eqn:Hi. cbn [m_world m_flights].
    destruct (Hcall _ _ _ _ _ HJ Hi) as [HJ' HF']. split; [done|]. apply Forall_app. split; [|done].
    eapply Forall_impl; [exact HF|]. intros f Hf. specialize (Fcall f e c w HJ Hf). by rewrite Hi in Fcall.
  - destruct (fs !! n) as [f|] eqn:Hn; [|by split]. unfold run_piece.
    destruct (resume exc_text K e f reply w) as [r w'] eqn:Hi. cbn [m_world m_flights].
    assert (Hf : F f w) by (rewrite Forall_forall in HF; by apply HF; eapply list_elem_of_lookup_2).
    destruct (Hreply _ _ _ _ _ _ HJ Hf Hi) as [HJ' HF']. split; [done|]. apply Forall_app. split; [|done].
    eapply Forall_impl; [apply Forall_delete, HF|]. intros g Hg. specialize (Freply g e f reply w HJ Hg Hf).
    by rewrite Hi in Freply.
  - split; [by apply Hled|]. eapply Forall_impl; [exact HF|]. intros f Hf. by apply Fled.
Qed.
End Machine.

(** * The logic, at the kernel's primitives *)

Section Within.
Context (R : World -> World -> Prop) `{!PreOrder R}.

Lemma within_pay : within R pay.
Proof. intros w. reflexivity. Qed.

Lemma within_swallow c : within R c -> within R (swallow c).
Proof. intros Hc w. apply Hc. Qed.

Lemma within_on_error {A} (c : keff A) h : within R c -> (forall e, within R (h e)) -> within R (on_error c h).
Proof.
  intros Hc Hh w. unfold on_error. specialize (Hc w). destruct (c w) as [[a|e] w']; [done|]. etrans; [exact Hc|apply Hh].
Qed.

Lemma from_bind_pay {B} (k : PaymentStore -> keff B) w : from w R (k (w_pay w)) -> from w R (ebind pay k).
Proof. intros Hk. exact Hk. Qed.

Lemma from_bind_require {B} i (k : PaymentIntentRecord -> keff B) w :
  (forall x, get_intent i (w_pay w) = Some x -> from w R (k x)) -> from w R (ebind (_require_intent i) k).
Proof.
  unfold from, _require_intent, pay. intros Hk. rewrite !ebind_eq. cbn.
  destruct (get_intent i (w_pay w)); [by apply Hk|reflexivity].
Qed.
End Within.

Ltac from_step :=
  match goal with
  | |- from _ _ (ebind pay _) => apply from_bind_pay
  | |- from _ _ (ebind (_require_intent _) _) => apply from_bind_require; [try apply _ ..|intros ? ?]
  | |- from _ _ (ebind (elift _) _) => apply from_bind_lift; [try apply _ ..|intros ? ?]
  | |- from _ _ (if ?b then _ else _) => destruct b eqn:?
  | |- from _ _ (match ?x with _ => _ end) => destruct x eqn:?
  | |- from _ _ (let _ := _ in _) => cbv zeta
  | |- from _ _ (eret _) => apply from_within, within_ret; try apply _
  | |- from _ _ (elift _) => apply from_within, within_lift; try apply _
  end.

(** Walk through an operation; what is left are its primitives. *)
Ltac walk_step :=
  match goal with
  | |- within _ (ebind (elift _) _) => apply within_bind_lift; [try apply _ ..|intros ? ?]
  | |- within _ (ebind _ _) => apply within_bind; [try apply _ ..|]
  | |- within _ (eret _) => apply within_ret; try apply _
  | |- within _ (elift _) => apply within_lift; try apply _
  | |- within _ eget => apply within_get; try apply _
  | |- within _ pay => apply within_pay; try apply _
  | |- within _ (swallow _) => apply within_swallow
  | |- within _ (on_error _ _) => apply within_on_error; [try apply _ ..|intros ?]
  | |- within _ (if ?b then _ else _) => destruct b eqn:?
  | |- within _ (match ?x with _ => _ end) => destruct x eqn:?
  | |- within _ (let _ := _ in _) => cbv zeta
  | |- forall _, within _ _ => intros ?; cbv beta
  end.

(** Helpers of the orchestrator that are transparent to a walk. *)
Create HintDb orch.
#[export] Hint Unfold ended suspended _require_intent _emit_attempt emit emit_failed emit_cancelled emit_refund
  emit_reversal_initiated _audit_transition advance_intent open_hold_of skipped : orch.

(** Two lemmas for the loops. *)
Lemma within_sweep `{HashFn} `{CheckpointSigner} `{Redactor} R `{!PreOrder R} K e :
  (forall i, within R (sweep_one K e i)) -> within R (sweep_expired_intents K e).
Proof.
  intros Hone. unfold sweep_expired_intents. repeat walk_step. generalize 0.
  induction (list_expired_intents (e_now e) _) as [|i l IH]; intros n; cbn [sweep_loop]; repeat walk_step; auto.
Qed.

Lemma within_reversal_loop `{HashFn} `{CheckpointSigner} `{Redactor} `{DhakaTz} R `{!PreOrder R} exc_text K e rail :
  (forall i, within R (execute_reversal K e i "scheduler_reversal")) ->
  (forall i result, within R (_apply_reversal_result K e i result)) ->
  within R (dispatch_pending_reversals exc_text K e rail).
Proof.
  intros Hex Happ w. unfold dispatch_pending_reversals.
  generalize (list_intents None None (Some "REVERSAL_INITIATED"%string) 100 0 (w_pay w) ++
    list_intents None None (Some "REVERSAL_PENDING"%string) 100 0 (w_pay w)).
  intros l. assert (Hl : R w (reversal_loop exc_text K e rail l 0 [] w).2).
  { generalize 0%nat (@nil string). revert w. induction l as [|i l IH]; intros w n d; cbn [reversal_loop]; [reflexivity|].
    assert (Hs : R w ((do* p := execute_reversal K e (pi_payment_intent_id i) "scheduler_reversal" in
      match p with Done _ => eret None | Waiting f => resume exc_text K e f (rail (pi_payment_intent_id i)) end) w).2).
    { rewrite ebind_eq. specialize (Hex (pi_payment_intent_id i) w).
      destruct (execute_reversal _ _ _ _ w) as [[p|x] w'] eqn:He; [|exact Hex]. etrans; [exact Hex|].
      assert (p = Waiting (FReverse (pi_payment_intent_id i))) as ->.
      { unfold execute_reversal in He. repeat (inv_eff; repeat case_match); simplify_eq; done. }
      cbn [resume]. destruct (rail _); [|reflexivity].
      revert w' He Hex. intros w' _ _. revert w'. apply within_bind; [apply _|apply Happ|]. intros. by apply within_ret. }
    destruct (ebind _ _ w) as [[?|?] w']; (etrans; [exact Hs|apply IH]). }
  destruct (reversal_loop _ _ _ _ _ _ _ _) as [[[|n] d] w']; exact Hl.
Qed.
