(* ===== verification/KernelMoves.v ===== *)
(** What every operation of the orchestrator does to the state, whatever the
    world answers: records move along the declared tables, the ledger by its own
    operations, the outbox and the list of rail calls only grow. *)
From S2P Require Import Prelude Effects Rows Exceptions DateTime Sha256 Canonical LedgerTypes LedgerStore HashChain LedgerService LedgerOps.
From S2P Require Import Outbox Fsm PaymentStates Money Fees Calendar KernelModels Preflight Sdk Orchestrator KernelMachine.
Open Scope Z_scope.

Create HintDb moves.

(** * Statuses *)

Definition intent_status (i : string) (p : PaymentStore) : option string := pi_status <$> get_intent i p.
Definition attempt_status (a : string) (p : PaymentStore) : option string := pa_status <$> get_attempt a p.
Definition refund_status (r : string) (p : PaymentStore) : option string := rf_status <$> get_refund r p.

(** A run of a table from one status to another. *)
Definition along (table : res TableError TransitionTable) (s s' : string) : Prop :=
  exists t path, table = Ok t /\ run_of t s path s'.

Class Accepted (table : res TableError TransitionTable) : Prop := accepted_table : is_ok table = true.
#[export] Instance INTENT_accepted : Accepted INTENT_TABLE.
Proof. vm_compute. reflexivity. Qed.
#[export] Instance ATTEMPT_accepted : Accepted ATTEMPT_TABLE.
Proof. vm_compute. reflexivity. Qed.
#[export] Instance REFUND_accepted : Accepted REFUND_TABLE.
Proof. vm_compute. reflexivity. Qed.
#[local] Opaque INTENT_TABLE ATTEMPT_TABLE REFUND_TABLE.

#[export] Instance along_preorder table `{!Accepted table} : PreOrder (along table).
Proof.
  split.
  - intros s. destruct (table_ok table) as [t Ht]; [done|]. exists t, []. split; [done|constructor].
  - intros s1 s2 s3 (t & p1 & Ht & H1) (t' & p2 & Ht' & H2). simplify_eq.
    eexists _, (p1 ++ p2). split; [done|]. by eapply run_app.
Qed.

Lemma resolve_in_along table s trig g s' : resolve_in table s trig g = Ok s' -> along table s s'.
Proof.
  unfold resolve_in. intros Hr. destruct table as [t|]; [|done].
  destruct (resolve t s trig g) as [r|] eqn:He; simplify_eq. exists t, [r]. split; [done|].
  econstructor; [exact He|constructor].
Qed.

(** The row behind a transition. *)
Lemma resolve_in_row name st te rs s trig g s' :
  resolve_in (transition_table name st te rs) s trig g = Ok s' ->
  exists r, r ∈ rs /\ from_state r = s /\ trigger r = trig /\ guard r = g /\ to_state r = s'.
Proof.
  unfold resolve_in. destruct (transition_table name st te rs) as [t|] eqn:Ht; [|done].
  destruct (resolve t s trig g) as [r|] eqn:Hr; intros Hs; simplify_eq.
  destruct (resolve_sound _ _ _ _ _ Ht _ _ _ _ Hr) as (? & ? & ? & ? & _). eauto 10.
Qed.

(** A map of statuses: every key stays and its status moves along the table, and
    a new key is born in the initial state. *)
Definition all_along (table : res TableError TransitionTable) (init : string) (f f' : string -> option string) : Prop :=
  forall k, match f k with
            | Some s => exists s', f' k = Some s' /\ along table s s'
            | None => forall s', f' k = Some s' -> along table init s'
            end.

#[export] Instance all_along_preorder table init `{!Accepted table} : PreOrder (all_along table init).
Proof.
  split.
  - intros f k. destruct (f k) as [s|] eqn:Hs; [|done]. exists s. split; [done|reflexivity].
  - intros f1 f2 f3 H12 H23 k. specialize (H12 k). specialize (H23 k). destruct (f1 k) as [s|].
    + destruct H12 as (s2 & Hs2 & H2). rewrite Hs2 in H23. destruct H23 as (s3 & Hs3 & H3).
      exists s3. split; [done|by etrans].
    + intros s3 Hs3. destruct (f2 k) as [s2|]; [|by apply H23]. destruct H23 as (s3' & Hs3' & H3). simplify_eq.
      etrans; [by apply H12|done].
Qed.

(** * Records that pass their checks *)

Lemma intent_post_init_Ok r r' : intent_post_init r = Ok r' -> r' = r /\ 0 < pi_amount_minor r.
Proof. unfold intent_post_init, _require_positive_minor. intros Hp. inv_res. bool_prop. done. Qed.

Lemma attempt_post_init_Ok r r' : attempt_post_init r = Ok r' -> r' = r.
Proof. unfold attempt_post_init. intros Hp. by inv_res. Qed.

Lemma refund_post_init_Ok r r' : refund_post_init r = Ok r' -> r' = r /\ 0 < rf_amount_minor r.
Proof. unfold refund_post_init, _require_positive_minor. intros Hp. inv_res. bool_prop. done. Qed.

(** The intent of a new attempt is told its id. *)
Lemma insert_attempt_Ok r p p' :
  insert_attempt r p = Ok p' ->
  get_attempt (pa_attempt_id r) p = None /\ attempts p' = attempts p ++ [r] /\ refunds p' = refunds p /\
  (get_intent (pa_payment_intent_id r) p = None /\ intents p' = intents p \/
   exists i, get_intent (pa_payment_intent_id r) p = Some i /\
     let i' := pi_set_latest (Some (pa_attempt_id r)) i in
     intents p' = replace_row pi_payment_intent_id (pi_payment_intent_id i') (fun _ => i') (intents p)).
Proof.
  unfold insert_attempt. intros Hu. do 2 res_step.
  change (get_intent ?x (set_attempts _ p)) with (get_intent x p) in Hu.
  assert (Hn : get_attempt (pa_attempt_id r) p = None) by (by destruct (get_attempt _ p)).
  destruct (get_intent (pa_payment_intent_id r) p) as [i|] eqn:Hi.
  - inv_res. destruct (intent_post_init_Ok _ _ E) as [-> _]. split_and!; [done..|]. right. eauto.
  - inv_res. split_and!; [done..|]. by left.
Qed.

(** Records a walk has built: their checks tell what they are. *)
Ltac built := repeat match goal with
  | Hp : intent_post_init _ = Ok _ |- _ => apply intent_post_init_Ok in Hp as [-> _]
  | Hp : attempt_post_init _ = Ok _ |- _ => apply attempt_post_init_Ok in Hp as ->
  | Hp : refund_post_init _ = Ok _ |- _ => apply refund_post_init_Ok in Hp as [-> _]
  end.

(** * Moves of the world *)

Section Moves.
Context `{HashFn} `{CheckpointSigner} `{Redactor} `{DhakaTz} (exc_text : kexn -> string) (K : Kernel).

Record moves (w w' : World) : Prop := {
  mv_intents : all_along INTENT_TABLE "CREATED" (fun i => intent_status i (w_pay w)) (fun i => intent_status i (w_pay w'));
  mv_attempts : all_along ATTEMPT_TABLE "STARTED" (fun a => attempt_status a (w_pay w)) (fun a => attempt_status a (w_pay w'));
  mv_refunds : all_along REFUND_TABLE "REFUND_INITIATED" (fun r => refund_status r (w_pay w)) (fun r => refund_status r (w_pay w'));
  mv_ledger : rtc (step (k_cfg K)) (w_led w) (w_led w');
  mv_outbox : exists events, w_box w' = foldl (fun q ev => enqueue ev q) (w_box w) events;
  mv_rail : w_rail w `prefix_of` w_rail w'
}.

#[export] Instance moves_preorder : PreOrder moves.
Proof.
  split.
  - intros w. split; try reflexivity. by exists [].
  - intros w1 w2 w3 [? ? ? ? [e1 He1] ?] [? ? ? ? [e2 He2] ?]. split; try by etrans.
    exists (e1 ++ e2). by rewrite foldl_app, <- He1.
Qed.

(** The primitives. *)
Lemma moves_pay p p' led box rail :
  all_along INTENT_TABLE "CREATED" (fun i => intent_status i p) (fun i => intent_status i p') ->
  all_along ATTEMPT_TABLE "STARTED" (fun a => attempt_status a p) (fun a => attempt_status a p') ->
  all_along REFUND_TABLE "REFUND_INITIATED" (fun r => refund_status r p) (fun r => refund_status r p') ->
  moves (mk_World p led box rail) (mk_World p' led box rail).
Proof. split; try done. by exists []. Qed.

Lemma on_pay_moves f :
  (forall p p', f p = Ok p' ->
     all_along INTENT_TABLE "CREATED" (fun i => intent_status i p) (fun i => intent_status i p') /\
     all_along ATTEMPT_TABLE "STARTED" (fun a => attempt_status a p) (fun a => attempt_status a p') /\
     all_along REFUND_TABLE "REFUND_INITIATED" (fun r => refund_status r p) (fun r => refund_status r p')) ->
  within moves (on_pay f).
Proof.
  intros Hf [p led box rail]. unfold on_pay. cbn [w_pay w_led w_box w_rail].
  destruct (f p) as [p'|] eqn:Hp; [|reflexivity]. destruct (Hf _ _ Hp) as (? & ? & ?). by apply moves_pay.
Qed.

(** Updating the row of a key. *)
Lemma put_along {A} table init `{!Accepted table} (key status : A -> string) (r r0 : A) (l : list A) :
  List.find (has_key key (key r)) l = Some r0 -> along table (status r0) (status r) ->
  all_along table init (fun k => status <$> List.find (has_key key k) l)
    (fun k => status <$> List.find (has_key key k) (replace_row key (key r) (fun _ => r) l)).
Proof.
  intros Hr Hs k. rewrite find_put. destruct (String.eqb_spec (key r) k) as [<-|?].
  - rewrite Hr. cbn. eauto.
  - rewrite option_fmap_id. destruct (status <$> List.find (has_key key k) l); [|done]. eexists. split; [done|reflexivity].
Qed.

(** A new row. *)
Lemma snoc_along {A} table `{!Accepted table} (key status : A -> string) (r : A) (l : list A) :
  all_along table (status r) (fun k => status <$> List.find (has_key key k) l)
    (fun k => status <$> List.find (has_key key k) (l ++ [r])).
Proof.
  intros k. rewrite find_snoc. destruct (List.find _ l); cbn; [eexists; split; [done|reflexivity]|].
  destruct (has_key key k r); cbn; [|done]. intros s' Hs'. simplify_eq. reflexivity.
Qed.

Lemma update_intent_moves r expected :
  along INTENT_TABLE expected (pi_status r) -> within moves (on_pay (update_intent r expected)).
Proof.
  intros Ha. apply on_pay_moves. unfold update_intent. intros p p' Hu.
  destruct (get_intent (pi_payment_intent_id r) p) as [r0|] eqn:Hr; [|done]. inv_res. bool_prop. subst.
  split_and!; [|reflexivity..]. by apply (put_along _ _ pi_payment_intent_id pi_status r r0).
Qed.

Lemma update_attempt_moves r expected :
  along ATTEMPT_TABLE expected (pa_status r) -> within moves (on_pay (update_attempt r expected)).
Proof.
  intros Ha. apply on_pay_moves. unfold update_attempt. intros p p' Hu.
  destruct (get_attempt (pa_attempt_id r) p) as [r0|] eqn:Hr; [|done]. inv_res. bool_prop. subst.
  split_and!; [reflexivity| |reflexivity]. by apply (put_along _ _ pa_attempt_id pa_status r r0).
Qed.

Lemma update_refund_moves r expected :
  along REFUND_TABLE expected (rf_status r) -> within moves (on_pay (update_refund r expected)).
Proof.
  intros Ha. apply on_pay_moves. unfold update_refund. intros p p' Hu.
  destruct (get_refund (rf_refund_id r) p) as [r0|] eqn:Hr; [|done]. inv_res. bool_prop. subst.
  split_and!; [reflexivity..|]. by apply (put_along _ _ rf_refund_id rf_status r r0).
Qed.

Lemma insert_intent_moves r : pi_status r = "CREATED"%string -> within moves (on_pay (insert_intent r)).
Proof.
  intros Hr. apply on_pay_moves. unfold insert_intent. intros p p' Hu. inv_res.
  split_and!; [|reflexivity..]. rewrite <- Hr. apply (snoc_along _ pi_payment_intent_id pi_status).
Qed.

Lemma insert_refund_moves r : rf_status r = "REFUND_INITIATED"%string -> within moves (on_pay (insert_refund r)).
Proof.
  intros Hr. apply on_pay_moves. unfold insert_refund. intros p p' Hu. inv_res.
  split_and!; [reflexivity..|]. rewrite <- Hr. apply (snoc_along _ rf_refund_id rf_status).
Qed.

Lemma insert_attempt_moves r : pa_status r = "STARTED"%string -> within moves (on_pay (insert_attempt r)).
Proof.
  intros Hs. apply on_pay_moves. intros p p' (_ & Ha & Hrf & Hi)%insert_attempt_Ok.
  unfold intent_status, attempt_status, refund_status, get_attempt, get_refund. rewrite Ha, Hrf.
  split_and!; [|rewrite <- Hs; apply (snoc_along _ pa_attempt_id pa_status)|reflexivity]. unfold get_intent.
  destruct Hi as [[_ ->]|(i & Hi & ->)]; [reflexivity|].
  apply (put_along _ _ pi_payment_intent_id pi_status _ i); [|reflexivity].
  cbn [pi_set_latest pi_payment_intent_id]. unfold get_intent in Hi. pose proof Hi as Hi'.
  by apply find_Some in Hi' as [_ ->%has_key_iff].
Qed.

Lemma on_led_moves {A} (f : Store -> LedgerStore.outcome A) :
  (forall s, exists op, (f s).2 = run (k_cfg K) s op) -> within moves (on_led f).
Proof.
  intros Hf w. unfold on_led. destruct (Hf (w_led w)) as [op Hop]. destruct (f (w_led w)) as [r s']. cbn in Hop. subst s'.
  split; try reflexivity; [|by exists []]. cbn. apply rtc_once. constructor.
Qed.

Lemma emit_moves et intent payload st si topic now : within moves (_emit et intent payload st si topic now).
Proof.
  intros w. unfold _emit. destruct (build_event _ _ _ _ _ _ _) as [ev|]; [|reflexivity].
  split; try reflexivity. by exists [ev].
Qed.

Lemma call_rail_moves c : within moves (call_rail c).
Proof. intros w. split; try reflexivity; [by exists []|]. cbn. by eexists. Qed.

Lemma audit_append_moves et st si f t payload now : within moves (audit_append K et st si f t payload now).
Proof.
  unfold audit_append. repeat walk_step. apply on_led_moves. intros s.
  by eexists (OpWriteAuditEvent _ None now).
Qed.

Lemma port_post_moves spec now : within moves (port_post K spec now).
Proof.
  unfold port_post. repeat walk_step. apply on_led_moves. intros s. by eexists (OpPostJournalEntry _ _).
Qed.

Lemma open_hold_moves a m reason ref src rsv exp now :
  within moves (on_led (fun s => open_hold (k_cfg K) s a m reason ref src rsv exp now)).
Proof. apply on_led_moves. intros s. by eexists (OpOpenHold _ _ _ _ _ _ _ _). Qed.

Lemma release_hold_moves h outcome m now :
  within moves (on_led (fun s => release_hold (k_cfg K) s h outcome m now)).
Proof. apply on_led_moves. intros s. by eexists (OpReleaseHold _ _ _ _). Qed.

Lemma port_audits_moves e : within moves (port_audits K e).
Proof.
  intros w. unfold port_audits. split; try reflexivity; [|by exists []]. cbn.
  generalize (w_led w). induction (e_port_audits e) as [|spec l IH]; intros s; [reflexivity|]. cbn [foldl].
  etrans; [|apply IH]. apply rtc_once. apply (step_op _ s (OpWriteAuditEvent spec None (e_now e))).
Qed.

Lemma advance_intent_moves intent trig g d stamp now :
  (forall r, pi_status (stamp r) = pi_status r) -> within moves (_advance_intent K intent trig g d stamp now).
Proof.
  intros Hs. unfold _advance_intent. repeat walk_step; [|apply audit_append_moves].
  match goal with Hp : intent_post_init _ = Ok _ |- _ => apply intent_post_init_Ok in Hp as [-> _] end.
  apply update_intent_moves. rewrite Hs. by eapply resolve_in_along.
Qed.

Lemma advance_attempt_moves attempt trig g stamp now :
  (forall r, pa_status (stamp r) = pa_status r) -> within moves (_advance_attempt K attempt trig g stamp now).
Proof.
  intros Hs. unfold _advance_attempt. repeat walk_step; [|apply audit_append_moves].
  match goal with Hp : attempt_post_init _ = Ok _ |- _ => apply attempt_post_init_Ok in Hp as -> end.
  apply update_attempt_moves. rewrite Hs. by eapply resolve_in_along.
Qed.

Lemma advance_refund_moves refund trig now : within moves (_advance_refund K refund trig now).
Proof.
  unfold _advance_refund. repeat walk_step; [|apply audit_append_moves].
  match goal with Hp : refund_post_init _ = Ok _ |- _ => apply refund_post_init_Ok in Hp as [-> _] end.
  apply update_refund_moves. by eapply resolve_in_along.
Qed.

(** An update that keeps the status. *)
Lemma same_intent_moves r s : pi_status r = s -> within moves (on_pay (update_intent r s)).
Proof. intros <-. apply update_intent_moves. reflexivity. Qed.
Lemma same_attempt_moves r s : pa_status r = s -> within moves (on_pay (update_attempt r s)).
Proof. intros <-. apply update_attempt_moves. reflexivity. Qed.

Hint Resolve insert_intent_moves insert_attempt_moves insert_refund_moves emit_moves call_rail_moves
  audit_append_moves port_post_moves open_hold_moves release_hold_moves port_audits_moves advance_intent_moves
  advance_attempt_moves advance_refund_moves same_intent_moves same_attempt_moves : moves.

Ltac walk := repeat walk_step; auto with moves.

(** * The operations *)

Lemma post_fee_moves intent attempt acc fee rule now : within moves (post_fee K intent attempt acc fee rule now).
Proof. unfold post_fee. walk. Qed.

Lemma succeed_moves intent attempt trig fee rule now : within moves (succeed K intent attempt trig fee rule now).
Proof. unfold succeed, _emit_attempt, emit. walk. Qed.

Lemma ledger_failure_moves intent attempt now x :
  within moves (_record_ledger_post_failure exc_text intent attempt now x).
Proof. unfold _record_ledger_post_failure. walk. Qed.
Hint Resolve post_fee_moves succeed_moves ledger_failure_moves : moves.

Lemma settle_charge_moves e intent attempt trig : within moves (_settle_charge exc_text K e intent attempt trig).
Proof. unfold _settle_charge. walk. Qed.

Lemma settle_authorized_moves e intent attempt trig :
  within moves (_settle_authorized_charge exc_text K e intent attempt trig).
Proof. unfold _settle_authorized_charge, open_hold_of. walk. Qed.
Hint Resolve settle_charge_moves settle_authorized_moves : moves.

Lemma dispatch_moves e intent n : within moves (_dispatch K e intent n).
Proof. unfold _dispatch, emit. walk; built; auto with moves. Qed.
Hint Resolve dispatch_moves : moves.

Lemma apply_connector_result_moves e intent attempt result :
  within moves (_apply_connector_result exc_text K e intent attempt result).
Proof.
  unfold _apply_connector_result, _emit_attempt, emit_failed, emit, advance_intent, _open_authorization_hold.
  walk; built; auto with moves.
Qed.

Lemma apply_status_poll_result_moves e a result : within moves (_apply_status_poll_result exc_text K e a result).
Proof.
  unfold _apply_status_poll_result, _require_intent, emit_failed, emit_reversal_initiated, emit, advance_intent. walk.
Qed.

Lemma poll_moves a : within moves (poll_timed_out_attempt a).
Proof. unfold poll_timed_out_attempt, _require_intent. walk. Qed.
Hint Resolve apply_connector_result_moves apply_status_poll_result_moves poll_moves : moves.

Lemma create_intent_moves e rq : within moves (create_intent K e rq).
Proof. unfold create_intent, _audit_transition, emit. walk; built; auto with moves. Qed.

Lemma supply_method_moves e i m : within moves (supply_method K e i m).
Proof.
  unfold supply_method, _require_intent, _audit_transition. walk; built.
  apply update_intent_moves. by eapply resolve_in_along.
Qed.

Lemma confirm_moves e i details credits : within moves (confirm K e i details credits).
Proof.
  unfold confirm, _require_intent, advance_intent, _audit_transition, emit_failed, emit. walk.
Qed.

Lemma complete_action_moves e i success : within moves (complete_action K e i success).
Proof. unfold complete_action, _require_intent, advance_intent, emit_failed, emit. walk. Qed.

Lemma capture_moves e i amount : within moves (capture exc_text K e i amount).
Proof. unfold capture, _require_intent. walk; built; auto with moves. Qed.

Lemma cancel_moves e i : within moves (cancel K e i).
Proof. unfold cancel, _void, _require_intent, open_hold_of, _emit_attempt, emit_cancelled, emit. walk. Qed.

Lemma execute_reversal_moves e i reason : within moves (execute_reversal K e i reason).
Proof. unfold execute_reversal, _claim_reversal_dispatch, advance_intent. walk. Qed.

Lemma apply_reversal_result_moves e i result : within moves (_apply_reversal_result K e i result).
Proof.
  unfold _apply_reversal_result, _require_intent, _post_reversal_entries, open_hold_of, _emit_attempt, emit, advance_intent.
  walk.
Qed.

Lemma sweep_moves e : within moves (sweep_expired_intents K e).
Proof. apply within_sweep; [apply _|]. intros i. unfold sweep_one; autounfold with orch. walk. Qed.

Lemma confirm_delivery_moves e i t : within moves (confirm_delivery K e i t).
Proof. unfold confirm_delivery, _require_intent, _audit_transition, emit. walk; built; auto with moves. Qed.

Lemma create_refund_moves e i amount reason key : within moves (create_refund K e i amount reason key).
Proof. unfold create_refund, advance_intent, emit_refund. walk; built; auto with moves. Qed.

Lemma process_refund_moves e r : within moves (process_refund K e r).
Proof. unfold process_refund, _require_intent. walk. Qed.

Lemma apply_refund_result_moves e r result : within moves (_apply_refund_result K e r result).
Proof.
  unfold _apply_refund_result, _return_intent_after_refund_failure, _post_refund_entries, emit_refund, advance_intent. walk.
Qed.
Hint Resolve create_intent_moves supply_method_moves confirm_moves complete_action_moves capture_moves cancel_moves
  execute_reversal_moves apply_reversal_result_moves sweep_moves confirm_delivery_moves create_refund_moves
  process_refund_moves apply_refund_result_moves : moves.

Lemma inbound_moves e c result : within moves (apply_inbound_connector_result exc_text K e c result).
Proof. unfold apply_inbound_connector_result, _require_intent, skipped. walk. Qed.

Lemma resume_moves e f reply : within moves (resume exc_text K e f reply).
Proof. unfold resume. walk. Qed.
Hint Resolve inbound_moves resume_moves : moves.

Lemma dispatch_pending_reversals_moves e rail : within moves (dispatch_pending_reversals exc_text K e rail).
Proof. apply within_reversal_loop; auto with moves typeclass_instances. Qed.
Hint Resolve dispatch_pending_reversals_moves : moves.

Lemma invoke_moves e c : within moves (invoke exc_text K e c).
Proof. destruct c; cbn [invoke]; unfold ended, suspended; walk. Qed.

(** * Histories *)

Lemma act_moves m a : moves (m_world m) (m_world (act exc_text K m a)).
Proof.
  destruct m as [w fs], a as [e c|e n reply|op]; cbn [act m_world m_flights].
  - unfold run_piece. pose proof (invoke_moves e c w) as Hm. by destruct (invoke _ _ _ _ w).
  - destruct (fs !! n) as [f|]; [|reflexivity]. unfold run_piece. pose proof (resume_moves e f reply w) as Hm.
    by destruct (resume _ _ _ _ _ w).
  - split; try reflexivity; [|by exists []]. apply rtc_once. constructor.
Qed.

Lemma history_moves actions m : moves (m_world m) (m_world (foldl (act exc_text K) m actions)).
Proof.
  revert m. induction actions as [|a l IH]; intros m; [reflexivity|]. cbn [foldl]. etrans; [apply act_moves|apply IH].
Qed.

#[local] Transparent INTENT_TABLE ATTEMPT_TABLE REFUND_TABLE.

Lemma terminal_stays table name states terminal rs s s' :
  table = transition_table name states terminal rs -> along table s s' -> s ∈ terminal -> s' = s.
Proof.
  intros Ht (t & path & Hok & Hr) Hs. rewrite Ht in Hok. eapply run_from_terminal; [exact Hok|exact Hr|].
  destruct (transition_table_Ok _ _ _ _ _ Hok) as (_ & _ & -> & _). by apply elem_of_list_to_set.
Qed.

(** The statuses of the records of one kind are those their table reaches. *)
Definition reached (table : res TableError TransitionTable) (init : string) (f : string -> option string) : Prop :=
  forall k s, f k = Some s -> along table init s.

(** A terminal status is never left. *)
Definition frozen_when (terminal : list string) (f f' : string -> option string) : Prop :=
  forall k s, f k = Some s -> s ∈ terminal -> f' k = Some s.

Lemma all_along_frozen table init name states terminal rs f f' :
  table = transition_table name states terminal rs -> all_along table init f f' -> frozen_when terminal f f'.
Proof.
  intros Ht Ha k s Hs Hin. specialize (Ha k). rewrite Hs in Ha. destruct Ha as (s' & Hs' & Hal).
  by rewrite (terminal_stays _ _ _ _ _ _ _ Ht Hal Hin) in Hs'.
Qed.

Lemma all_along_reached table init f f' : (forall k, f k = None) -> all_along table init f f' -> reached table init f'.
Proof. intros Hf Ha k s Hs. specialize (Ha k). rewrite Hf in Ha. by apply Ha. Qed.

(** C5: the orchestrator refines the declared machines.  In every history of calls,
    rail answers in any order, raised errors and ledger use by others: each
    intent, attempt and refund is in a status its table reaches from the initial
    one, and any later history moves it along that table only, so a terminal
    status is final and no record disappears; the ledger is always one its own
    operations reach, and the rail calls already made stay made. *)
Theorem kernel_follows_its_tables actions later :
  let w := m_world (history exc_text K actions) in
  let w' := m_world (history exc_text K (actions ++ later)) in
  let p := w_pay w in let p' := w_pay w' in
  reached INTENT_TABLE "CREATED" (fun i => intent_status i p) /\
  reached ATTEMPT_TABLE "STARTED" (fun a => attempt_status a p) /\
  reached REFUND_TABLE "REFUND_INITIATED" (fun r => refund_status r p) /\
  moves w w' /\
  frozen_when INTENT_TERMINAL (fun i => intent_status i p) (fun i => intent_status i p') /\
  frozen_when ATTEMPT_TERMINAL (fun a => attempt_status a p) (fun a => attempt_status a p') /\
  frozen_when REFUND_TERMINAL (fun r => refund_status r p) (fun r => refund_status r p') /\
  reachable (k_cfg K) (w_led w').
Proof.
  intros w w' p p'. pose proof (history_moves actions start) as Hpast. fold (history exc_text K actions) in Hpast.
  assert (Hnext : moves w w').
  { subst w w'. unfold history. rewrite foldl_app. apply history_moves. }
  assert (Hempty : forall k : string, @None string = None) by done. split_and!.
  - exact (all_along_reached _ _ _ _ Hempty (mv_intents _ _ Hpast)).
  - exact (all_along_reached _ _ _ _ Hempty (mv_attempts _ _ Hpast)).
  - exact (all_along_reached _ _ _ _ Hempty (mv_refunds _ _ Hpast)).
  - exact Hnext.
  - exact (all_along_frozen _ _ _ _ _ _ _ _ eq_refl (mv_intents _ _ Hnext)).
  - exact (all_along_frozen _ _ _ _ _ _ _ _ eq_refl (mv_attempts _ _ Hnext)).
  - exact (all_along_frozen _ _ _ _ _ _ _ _ eq_refl (mv_refunds _ _ Hnext)).
  - unfold reachable. etrans; [apply (mv_ledger _ _ Hpast)|apply (mv_ledger _ _ Hnext)].
Qed.
End Moves.
