(* ===== verification/KernelSteps.v ===== *)
(** What the steps of the orchestrator do to the payment store, one by one. *)
From S2P Require Import Prelude Effects Rows Exceptions DateTime Sha256 Canonical LedgerTypes LedgerStore HashChain LedgerService LedgerOps.
From S2P Require Import Outbox Fsm PaymentStates Money Fees Calendar KernelModels Preflight Sdk Orchestrator KernelMachine KernelMoves.
Open Scope Z_scope.

(** Prove a decidable closed statement by evaluating it. *)
Ltac by_compute := match goal with |- ?P => refine (proj1 (bool_decide_eq_true P) _); vm_compute; reflexivity end.

(** * Store operations *)

Lemma get_put_intent i r p :
  get_intent i (put_intent r p) = (if String.eqb (pi_payment_intent_id r) i then fun _ => r else id) <$> get_intent i p.
Proof. apply find_put. Qed.
Lemma get_put_attempt i r p :
  get_attempt i (put_attempt r p) = (if String.eqb (pa_attempt_id r) i then fun _ => r else id) <$> get_attempt i p.
Proof. apply find_put. Qed.
Lemma get_put_refund i r p :
  get_refund i (put_refund r p) = (if String.eqb (rf_refund_id r) i then fun _ => r else id) <$> get_refund i p.
Proof. apply find_put. Qed.

Lemma get_intent_id i p x : get_intent i p = Some x -> pi_payment_intent_id x = i.
Proof. by intros [_ ?%has_key_iff]%find_Some. Qed.
Lemma get_attempt_id i p x : get_attempt i p = Some x -> pa_attempt_id x = i.
Proof. by intros [_ ?%has_key_iff]%find_Some. Qed.
Lemma get_refund_id i p x : get_refund i p = Some x -> rf_refund_id x = i.
Proof. by intros [_ ?%has_key_iff]%find_Some. Qed.

Lemma update_intent_Ok r s p p' : update_intent r s p = Ok p' ->
  exists x, get_intent (pi_payment_intent_id r) p = Some x /\ pi_status x = s /\ p' = put_intent r p.
Proof.
  unfold update_intent. intros Hu. destruct (get_intent _ p) as [x|]; [|done]. inv_res. bool_prop. eauto.
Qed.
Lemma update_attempt_Ok r s p p' : update_attempt r s p = Ok p' ->
  exists x, get_attempt (pa_attempt_id r) p = Some x /\ pa_status x = s /\ p' = put_attempt r p.
Proof.
  unfold update_attempt. intros Hu. destruct (get_attempt _ p) as [x|]; [|done]. inv_res. bool_prop. eauto.
Qed.
Lemma update_refund_Ok r s p p' : update_refund r s p = Ok p' ->
  exists x, get_refund (rf_refund_id r) p = Some x /\ rf_status x = s /\ p' = put_refund r p.
Proof.
  unfold update_refund. intros Hu. destruct (get_refund _ p) as [x|]; [|done]. inv_res. bool_prop. eauto.
Qed.

(** * Stateful calls *)

Lemma on_pay_Ok f w u w' : on_pay f w = (Ok u, w') ->
  exists p, f (w_pay w) = Ok p /\ w' = mk_World p (w_led w) (w_box w) (w_rail w).
Proof. unfold on_pay. destruct (f (w_pay w)); intros [= <- <-]. eauto. Qed.

Lemma on_pay_from w (P : PaymentStore -> Prop) f :
  (forall p', f (w_pay w) = Ok p' -> P (w_pay w) -> P p') -> from w (keeps (fun w => P (w_pay w))) (on_pay f).
Proof. unfold from, on_pay, keeps. intros Hf. destruct (f (w_pay w)) eqn:He; cbn; auto. Qed.

(** Auditing, posting and emitting leave the payments alone. *)
Definition same_pay (w w' : World) : Prop := w_pay w' = w_pay w.

#[export] Instance same_pay_preorder : PreOrder same_pay.
Proof. split; [done|]. intros w1 w2 w3 H12 H23. unfold same_pay in *. congruence. Qed.

Section Steps.
Context `{HashFn} `{CheckpointSigner} `{Redactor} (K : Kernel).

Lemma on_led_pay {A} (f : Store -> LedgerStore.outcome A) : within same_pay (on_led f).
Proof. intros w. unfold on_led, same_pay. by destruct (f _). Qed.
Lemma emit_pay et intent payload st si topic now : within same_pay (_emit et intent payload st si topic now).
Proof. intros w. unfold _emit, same_pay. by destruct (build_event _ _ _ _ _ _ _). Qed.
Lemma audit_append_pay et st si f t payload now : within same_pay (audit_append K et st si f t payload now).
Proof. unfold audit_append. repeat walk_step. apply on_led_pay. Qed.
Lemma port_post_pay spec now : within same_pay (port_post K spec now).
Proof. unfold port_post. repeat walk_step. apply on_led_pay. Qed.

Lemma within_pay_eq {A} (c : keff A) w r w' : within same_pay c -> c w = (r, w') -> w_pay w' = w_pay w.
Proof. intros Hc Hr. specialize (Hc w). by rewrite Hr in Hc. Qed.

Lemma advance_intent_Ok intent trig g d stamp now w r w' :
  _advance_intent K intent trig g d stamp now w = (Ok r, w') ->
  exists to x, resolve_in INTENT_TABLE (pi_status intent) trig g = Ok to /\
    r = stamp (pi_set_status to now intent) /\ 0 < pi_amount_minor r /\
    get_intent (pi_payment_intent_id r) (w_pay w) = Some x /\ pi_status x = pi_status intent /\
    w_pay w' = put_intent r (w_pay w).
Proof.
  unfold _advance_intent. intros Ha. inv_eff. apply intent_post_init_Ok in E0 as [-> Hpos].
  apply on_pay_Ok in E1 as (p & (x & Hx & Hs & ->)%update_intent_Ok & ->).
  apply within_pay_eq in E2; [by eauto 10|]. destruct d; [apply within_ret, _|apply audit_append_pay].
Qed.

Lemma advance_attempt_Ok attempt trig g stamp now w r w' :
  _advance_attempt K attempt trig g stamp now w = (Ok r, w') ->
  exists to x, resolve_in ATTEMPT_TABLE (pa_status attempt) trig g = Ok to /\
    r = stamp (pa_set_status to now attempt) /\
    get_attempt (pa_attempt_id r) (w_pay w) = Some x /\ pa_status x = pa_status attempt /\
    w_pay w' = put_attempt r (w_pay w).
Proof.
  unfold _advance_attempt. intros Ha. inv_eff. apply attempt_post_init_Ok in E0 as ->.
  apply on_pay_Ok in E1 as (p & (x & Hx & Hs & ->)%update_attempt_Ok & ->).
  apply within_pay_eq in E2; [|apply audit_append_pay]. eauto 10.
Qed.

Lemma advance_refund_Ok refund trig now w r w' :
  _advance_refund K refund trig now w = (Ok r, w') ->
  exists to x, resolve_in REFUND_TABLE (rf_status refund) trig None = Ok to /\
    r = rf_set_status to now refund /\
    get_refund (rf_refund_id r) (w_pay w) = Some x /\ rf_status x = rf_status refund /\
    w_pay w' = put_refund r (w_pay w).
Proof.
  unfold _advance_refund. intros Ha. inv_eff. apply refund_post_init_Ok in E0 as [-> Hpos].
  apply on_pay_Ok in E1 as (p & (x & Hx & Hs & ->)%update_refund_Ok & ->).
  apply within_pay_eq in E2; [|apply audit_append_pay]. eauto 10.
Qed.

(** The triggers of a dispatch leave the intent in [PROCESSING]. *)
Definition dispatch_triggers : list string := ["preflight_passed"; "action_completed"; "attempt_failed_retryable"].

Lemma dispatch_trigger_to s trig g s' :
  resolve_in INTENT_TABLE s trig g = Ok s' -> trig ∈ dispatch_triggers -> s' = "PROCESSING"%string.
Proof.
  assert (Hall : Forall (fun r => trigger r ∈ dispatch_triggers -> to_state r = "PROCESSING"%string) INTENT_RULES) by check_rows.
  rewrite Forall_forall in Hall. by intros (r & Hr & _ & <- & _ & <-)%resolve_in_row ?; apply Hall.
Qed.

Lemma advance_intent_processing intent trig now :
  trig ∈ dispatch_triggers -> yields (_advance_intent K intent trig None false id now) (fun r => pi_status r = "PROCESSING"%string).
Proof.
  intros Ht w r w' Ha. apply advance_intent_Ok in Ha as (to & x & Hr & Heq & _).
  apply (f_equal pi_status) in Heq. cbn [id pi_set_status pi_status] in Heq. rewrite Heq. by eapply dispatch_trigger_to.
Qed.
End Steps.
