(* ===== verification/KernelSafety.v ===== *)
(** Guards of the orchestrator: no money moves on a rail without the PSP licence,
    creating an intent is idempotent, and what [confirm_delivery] does. *)
From S2P Require Import Prelude Effects Rows Exceptions DateTime Sha256 Canonical LedgerTypes LedgerStore HashChain LedgerService LedgerOps.
From S2P Require Import Outbox Fsm PaymentStates Money Fees Calendar KernelModels Preflight Sdk Orchestrator KernelMachine KernelMoves KernelSteps.
Open Scope Z_scope.

(** * The licence *)

Definition is_query (c : rail_call) : Prop :=
  match c with QueryStatus _ _ _ => True | Submit _ | Reverse _ _ _ _ _ => False end.

(** Only status queries are added. *)
Definition only_queries (w w' : World) : Prop := exists l, w_rail w' = w_rail w ++ l /\ Forall is_query l.

#[export] Instance only_queries_preorder : PreOrder only_queries.
Proof.
  split.
  - intros w. exists []. by rewrite app_nil_r.
  - intros w1 w2 w3 (l1 & Hw1 & Hl1) (l2 & Hw2 & Hl2). exists (l1 ++ l2).
    rewrite Hw2, Hw1, app_assoc. split; [done|by apply Forall_app].
Qed.

Create HintDb rail.

Section Licence.
Context `{HashFn} `{CheckpointSigner} `{Redactor} `{DhakaTz} (exc_text : kexn -> string) (K : Kernel).
Hypothesis Hunlicensed : k_psp_license_active K = false.

Lemma same_rail w w' : w_rail w' = w_rail w -> only_queries w w'.
Proof. intros Hr. exists []. by rewrite app_nil_r. Qed.

Lemma on_pay_rail f : within only_queries (on_pay f).
Proof. intros w. apply same_rail. unfold on_pay. by destruct (f _). Qed.
Lemma on_led_rail {A} (f : Store -> LedgerStore.outcome A) : within only_queries (on_led f).
Proof. intros w. apply same_rail. unfold on_led. by destruct (f _). Qed.
Lemma emit_rail et intent payload st si topic now : within only_queries (_emit et intent payload st si topic now).
Proof. intros w. apply same_rail. unfold _emit. by destruct (build_event _ _ _ _ _ _ _). Qed.
Lemma port_audits_rail e : within only_queries (port_audits K e).
Proof. intros w. by apply same_rail. Qed.
Lemma query_rail c r t : within only_queries (call_rail (QueryStatus c r t)).
Proof. intros w. exists [QueryStatus c r t]. split; [done|by constructor]. Qed.

Lemma no_licence u : _require_psp_license K <> Ok u.
Proof. unfold _require_psp_license. by rewrite Hunlicensed. Qed.
Hint Resolve on_pay_rail on_led_rail emit_rail port_audits_rail query_rail : rail.

Ltac unlicensed := match goal with Hl : _require_psp_license K = Ok _ |- _ => by apply no_licence in Hl end.
Ltac walk := autounfold with orch; repeat (walk_step; try unlicensed); auto with rail.

Lemma audit_append_rail et st si f t payload now : within only_queries (audit_append K et st si f t payload now).
Proof. unfold audit_append. walk. Qed.
Hint Resolve audit_append_rail : rail.
Lemma advance_intent_rail intent trig g d stamp now : within only_queries (_advance_intent K intent trig g d stamp now).
Proof. unfold _advance_intent. walk. Qed.
Lemma advance_attempt_rail a trig g stamp now : within only_queries (_advance_attempt K a trig g stamp now).
Proof. unfold _advance_attempt. walk. Qed.
Lemma advance_refund_rail r trig now : within only_queries (_advance_refund K r trig now).
Proof. unfold _advance_refund. walk. Qed.
Lemma dispatch_rail e intent n : within only_queries (_dispatch K e intent n).
Proof. unfold _dispatch. walk. Qed.
Lemma settle_charge_rail e intent attempt trig : within only_queries (_settle_charge exc_text K e intent attempt trig).
Proof. unfold _settle_charge. walk. Qed.
Lemma port_post_rail spec now : within only_queries (port_post K spec now).
Proof. unfold port_post. walk. Qed.
Lemma failure_rail intent attempt now x : within only_queries (_record_ledger_post_failure exc_text intent attempt now x).
Proof. unfold _record_ledger_post_failure. walk. Qed.
Hint Resolve advance_intent_rail advance_attempt_rail advance_refund_rail dispatch_rail settle_charge_rail
  port_post_rail failure_rail : rail.

Lemma apply_connector_result_rail e intent attempt result :
  within only_queries (_apply_connector_result exc_text K e intent attempt result).
Proof. unfold _apply_connector_result, _open_authorization_hold. walk. Qed.
Lemma apply_status_poll_result_rail e a result : within only_queries (_apply_status_poll_result exc_text K e a result).
Proof. unfold _apply_status_poll_result. walk. Qed.
Lemma execute_reversal_rail e i reason : within only_queries (execute_reversal K e i reason).
Proof. unfold execute_reversal. walk. Qed.
Lemma apply_reversal_result_rail e i result : within only_queries (_apply_reversal_result K e i result).
Proof. unfold _apply_reversal_result, _post_reversal_entries. walk. Qed.
Lemma apply_refund_result_rail e r result : within only_queries (_apply_refund_result K e r result).
Proof. unfold _apply_refund_result, _return_intent_after_refund_failure, _post_refund_entries. walk. Qed.
Hint Resolve apply_connector_result_rail apply_status_poll_result_rail execute_reversal_rail
  apply_reversal_result_rail apply_refund_result_rail : rail.

Lemma resume_rail e f reply : within only_queries (resume exc_text K e f reply).
Proof. unfold resume. walk. Qed.

Lemma invoke_rail e c : within only_queries (invoke exc_text K e c).
Proof.
  destruct c; cbn [invoke]; autounfold with orch; (apply within_bind; [apply _| |intros; apply within_ret, _]).
  - unfold create_intent. walk.
  - unfold supply_method. walk.
  - unfold confirm. walk.
  - unfold complete_action. walk.
  - unfold capture. walk.
  - unfold cancel, _void. walk.
  - auto with rail.
  - apply within_sweep; [apply _|]. intros i. unfold sweep_one. walk.
  - unfold poll_timed_out_attempt. walk.
  - unfold confirm_delivery. walk.
  - unfold create_refund. walk.
  - unfold process_refund. walk.
  - unfold apply_inbound_connector_result. walk.
  - apply within_reversal_loop; auto with rail typeclass_instances.
Qed.
End Licence.

(** C22: without the PSP licence the kernel never moves money on a rail: in every
    history of a kernel whose licence is not active, whatever is called and
    whatever the rail answers, the only calls made on the connector runner are
    status queries; nothing is submitted and nothing is reversed. *)
Theorem no_rail_money_without_licence `{HashFn} `{CheckpointSigner} `{Redactor} `{DhakaTz} exc_text K actions :
  k_psp_license_active K = false ->
  Forall is_query (w_rail (m_world (history exc_text K actions))).
Proof.
  intros Hu. assert (Hq : forall m, only_queries (m_world m) (m_world (foldl (act exc_text K) m actions))).
  { induction actions as [|a l IH]; intros m; [reflexivity|]. cbn [foldl]. etrans; [|apply IH].
    destruct m as [w fs], a as [e c|e n reply|op]; cbn [act m_world m_flights].
    - unfold run_piece. pose proof (invoke_rail exc_text K Hu e c w) as Hm. by destruct (invoke _ _ _ _ w).
    - destruct (fs !! n) as [f|]; [|reflexivity]. unfold run_piece.
      pose proof (resume_rail exc_text K Hu e f reply w) as Hm. by destruct (resume _ _ _ _ _ w).
    - by apply same_rail. }
  destruct (Hq start) as (l & Hl & Hall). unfold history. by rewrite Hl.
Qed.

(** * What an intent is stays *)

(** The fields of an intent that no operation changes. *)
Definition ident (r : PaymentIntentRecord) : string * string * option string * option string :=
  (pi_payment_intent_id r, pi_merchant_id r, pi_customer_id r, pi_idempotency_key r).

Definition intent_ids (w : World) : list string := pi_payment_intent_id <$> intents (w_pay w).

Definition identity : Type := string * string * option string * option string.

Definition identities (w : World) : list identity := ident <$> intents (w_pay w).

(** A judgement for the calls that create no intent: if the identities of the stored
    intents are among [L], the call leaves the ids as they are, the identities are
    still among [L], and what it returns satisfies [Q]. *)
Section Identity.
Context (L : list identity).

Definition good (r : PaymentIntentRecord) : Prop := ident r ∈ L.
Definition all_good (p : PaymentStore) : Prop := Forall good (intents p).

Definition keeps_ident {A} (c : keff A) (Q : A -> Prop) : Prop :=
  forall w, all_good (w_pay w) ->
    all_good (w_pay (c w).2) /\ intent_ids (c w).2 = intent_ids w /\ forall a, (c w).1 = Ok a -> Q a.

Definition good_flight (f : flight) : Prop := match f with FSubmit r _ => good r | _ => True end.
Definition good_progress {A} (Q : A -> Prop) (p : progress A) : Prop :=
  match p with Done a => Q a | Waiting f => good_flight f end.
Definition good_launch (o : option flight) : Prop := match o with Some f => good_flight f | None => True end.
Definition anything {A} (_ : A) : Prop := True.

Lemma get_good i p x : all_good p -> get_intent i p = Some x -> good x.
Proof. intros Hp [Hx _]%find_Some. by eapply Forall_forall in Hx. Qed.

Lemma ki_bind {A B} (c : keff A) (k : A -> keff B) Q Q' :
  keeps_ident c Q -> (forall a, Q a -> keeps_ident (k a) Q') -> keeps_ident (ebind c k) Q'.
Proof.
  intros Hc Hk w Hw. rewrite ebind_eq. destruct (Hc w Hw) as (Hg & Hi & Hq). destruct (c w) as [[a|x] w']; [|done].
  destruct (Hk a (Hq a eq_refl) w' Hg) as (Hg' & Hi' & Hq'). split_and!; [done|by rewrite Hi'|done].
Qed.

Lemma ki_assoc {A B C} (c : keff A) (k : A -> keff B) (k' : B -> keff C) Q :
  keeps_ident (ebind c (fun a => ebind (k a) k')) Q -> keeps_ident (ebind (ebind c k) k') Q.
Proof. intros Hc w Hw. specialize (Hc w Hw). rewrite !ebind_eq in *. by destruct (c w) as [[a|x] w']. Qed.

Lemma ki_bind_lift {A B} (c : res kexn A) (k : A -> keff B) Q :
  (forall a, c = Ok a -> keeps_ident (k a) Q) -> keeps_ident (ebind (elift c) k) Q.
Proof. intros Hk w Hw. rewrite ebind_eq. unfold elift. destruct c; [by apply Hk|done]. Qed.

Lemma ki_bind_ret {A B} (a : A) (k : A -> keff B) Q : keeps_ident (k a) Q -> keeps_ident (ebind (eret a) k) Q.
Proof. done. Qed.

Lemma ki_bind_pay {B} (k : PaymentStore -> keff B) Q :
  (forall p, all_good p -> keeps_ident (k p) Q) -> keeps_ident (ebind pay k) Q.
Proof. intros Hk w Hw. exact (Hk (w_pay w) Hw w Hw). Qed.

Lemma ki_bind_get {B} (k : World -> keff B) Q : (forall w, keeps_ident (k w) Q) -> keeps_ident (ebind eget k) Q.
Proof. intros Hk w Hw. exact (Hk w w Hw). Qed.

Lemma ki_ret {A} (a : A) (Q : A -> Prop) : Q a -> keeps_ident (eret a) Q.
Proof. intros Hq w Hw. split_and!; [done..|]. by intros b [= <-]. Qed.

Lemma ki_lift {A} (c : res kexn A) Q : (forall a, c = Ok a -> Q a) -> keeps_ident (elift c) Q.
Proof. done. Qed.

Lemma ki_weaken {A} (c : keff A) (Q Q' : A -> Prop) : (forall a, Q a -> Q' a) -> keeps_ident c Q -> keeps_ident c Q'.
Proof. intros Hq Hc w Hw. destruct (Hc w Hw) as (? & ? & ?). eauto. Qed.

Lemma ki_same {A} (c : keff A) : within same_pay c -> keeps_ident c anything.
Proof. intros Hc w Hw. unfold intent_ids. by rewrite (Hc w). Qed.

Lemma ki_on_error {A} (c : keff A) h Q : keeps_ident c Q -> (forall x, keeps_ident (h x) anything) -> keeps_ident (on_error c h) Q.
Proof.
  intros Hc Hh w Hw. unfold on_error. destruct (Hc w Hw) as (Hg & Hi & Hq). destruct (c w) as [[a|x] w']; [done|].
  destruct (Hh x w' Hg) as (Hg' & Hi' & _). cbn [fst snd] in *. split_and!; [done|congruence|done].
Qed.

Lemma ki_on_pay f :
  (forall p p', all_good p -> f p = Ok p' -> all_good p' /\ pi_payment_intent_id <$> intents p' = pi_payment_intent_id <$> intents p) ->
  keeps_ident (on_pay f) anything.
Proof.
  intros Hf w Hw. unfold on_pay, intent_ids. destruct (f (w_pay w)) as [p'|] eqn:Hp; [|done]. by destruct (Hf _ _ Hw Hp).
Qed.

Lemma put_good r p : good r -> all_good p ->
  all_good (put_intent r p) /\ pi_payment_intent_id <$> intents (put_intent r p) = pi_payment_intent_id <$> intents p.
Proof.
  intros Hr Hp. unfold all_good, put_intent. cbn [intents set_intents]. split; [by apply Forall_replace_row|].
  unfold replace_row. rewrite <- list_fmap_compose. apply list_fmap_ext. intros _ x _. cbn.
  by destruct (String.eqb_spec (pi_payment_intent_id x) (pi_payment_intent_id r)).
Qed.

Lemma update_intent_ident r s : good r -> keeps_ident (on_pay (update_intent r s)) anything.
Proof. intros Hr. apply ki_on_pay. intros p p' Hp (x & _ & _ & ->)%update_intent_Ok. by apply put_good. Qed.
Lemma update_attempt_ident r s : keeps_ident (on_pay (update_attempt r s)) anything.
Proof. apply ki_on_pay. by intros p p' Hp (x & _ & _ & ->)%update_attempt_Ok. Qed.
Lemma update_refund_ident r s : keeps_ident (on_pay (update_refund r s)) anything.
Proof. apply ki_on_pay. by intros p p' Hp (x & _ & _ & ->)%update_refund_Ok. Qed.
Lemma insert_refund_ident r : keeps_ident (on_pay (insert_refund r)) anything.
Proof. apply ki_on_pay. unfold insert_refund. intros p p' Hp Hi. by inv_res. Qed.
Lemma insert_attempt_ident r : keeps_ident (on_pay (insert_attempt r)) anything.
Proof.
  apply ki_on_pay. intros p p' Hp (_ & _ & _ & [[_ Hi]|(x & Hx & Hi)])%insert_attempt_Ok; unfold all_good; rewrite Hi; [done|].
  pose proof (get_good _ _ _ Hp Hx) as Hg. exact (put_good (pi_set_latest (Some (pa_attempt_id r)) x) p Hg Hp).
Qed.

Lemma ki_swallow c : keeps_ident c anything -> keeps_ident (swallow c) anything.
Proof. intros Hc w Hw. destruct (Hc w Hw) as (? & ? & _). done. Qed.

(** ** The operations *)

Context `{HashFn} `{CheckpointSigner} `{Redactor} `{DhakaTz} (exc_text : kexn -> string) (K : Kernel).

Lemma audit_append_ident et st si f t payload now : keeps_ident (audit_append K et st si f t payload now) anything.
Proof. apply ki_same, audit_append_pay. Qed.
Lemma on_led_ident {A} (f : Store -> LedgerStore.outcome A) : keeps_ident (on_led f) anything.
Proof. apply ki_same, on_led_pay. Qed.
Lemma emit_ident et intent payload st si topic now : keeps_ident (_emit et intent payload st si topic now) anything.
Proof. apply ki_same, emit_pay. Qed.
Lemma call_rail_ident c : keeps_ident (call_rail c) anything.
Proof. by apply ki_same. Qed.
Lemma port_audits_ident e : keeps_ident (port_audits K e) anything.
Proof. by apply ki_same. Qed.
Lemma port_post_ident spec now : keeps_ident (port_post K spec now) anything.
Proof. apply ki_same, port_post_pay. Qed.
Lemma open_hold_of_ident intent : keeps_ident (open_hold_of intent) anything.
Proof. by apply ki_same. Qed.

Create HintDb ident.
Hint Resolve update_intent_ident update_attempt_ident update_refund_ident insert_refund_ident insert_attempt_ident
  audit_append_ident on_led_ident emit_ident call_rail_ident port_audits_ident port_post_ident open_hold_of_ident : ident.

(** An updated copy has the identity of its original. *)
Ltac same_ident := match goal with Hg : good _ |- good _ => exact Hg end.
Hint Extern 1 (good _) => same_ident : ident.
Hint Extern 1 (anything _) => exact I : ident.
Hint Extern 1 (True) => exact I : ident.
Hint Extern 1 (keeps_ident (eret _) anything) => by apply ki_ret : ident.

Ltac read_intents := repeat match goal with
  | Hp : all_good ?p, Hx : get_intent _ ?p = Some ?x |- _ =>
      lazymatch goal with _ : good x |- _ => fail | _ => pose proof (get_good _ _ _ Hp Hx) end
  end.

Ltac ident_step :=
  match goal with
  | |- keeps_ident (ebind (ebind _ _) _) _ => apply ki_assoc
  | |- keeps_ident (ebind (elift _) _) _ => apply ki_bind_lift; intros ? ?; try match goal with He : Err _ = Ok _ |- _ => discriminate He end; built
  | |- keeps_ident (ebind (eret _) _) _ => apply ki_bind_ret
  | |- keeps_ident (ebind pay _) _ => apply ki_bind_pay; intros ? ?
  | |- keeps_ident (ebind eget _) _ => apply ki_bind_get; intros ?
  | |- keeps_ident (ebind (if ?b then _ else _) _) _ => destruct b eqn:?
  | |- keeps_ident (ebind (match ?x with _ => _ end) _) _ => destruct x eqn:?; read_intents
  | |- keeps_ident (ebind (on_error _ _) _) _ => eapply (ki_bind _ _ anything); [apply ki_on_error; [|intros ?]|intros ? _]
  | |- keeps_ident (ebind (swallow _) _) _ => eapply (ki_bind _ _ anything); [apply ki_swallow|intros ? _]
  | |- keeps_ident (swallow _) _ => apply ki_swallow
  | |- keeps_ident (ebind _ _) _ => eapply ki_bind; [solve [eauto with ident]|intros ? ?; cbv beta in *]
  | |- keeps_ident (eret _) _ => apply ki_ret; cbn [good_progress good_flight good_launch confirm_outcome]
  | |- keeps_ident (elift _) _ => apply ki_lift; intros ? ?; simplify_eq
  | |- keeps_ident (if ?b then _ else _) _ => destruct b eqn:?
  | |- keeps_ident (match ?x with _ => _ end) _ => destruct x eqn:?; read_intents
  | |- keeps_ident (let _ := _ in _) _ => cbv zeta
  | |- keeps_ident ((fun _ => _) _) _ => cbv beta
  end.
Ltac iwalk := autounfold with orch; repeat ident_step; eauto with ident.

Lemma advance_intent_ident intent trig g d stamp now : (forall r, ident (stamp r) = ident r) -> good intent ->
  keeps_ident (_advance_intent K intent trig g d stamp now) good.
Proof.
  intros Hs Hg. assert (Hst : forall to, good (stamp (pi_set_status to now intent))).
  { intros to. pose proof (Hs (pi_set_status to now intent)) as He. unfold good. by rewrite He. }
  unfold _advance_intent. iwalk.
Qed.
Hint Extern 1 (keeps_ident (_advance_intent _ _ _ _ _ _ _) _) =>
  apply advance_intent_ident; [reflexivity|same_ident] : ident.

Lemma advance_attempt_same_ident a trig g stamp now : keeps_ident (_advance_attempt K a trig g stamp now) anything.
Proof. unfold _advance_attempt. iwalk. Qed.
Lemma advance_refund_ident r trig now : keeps_ident (_advance_refund K r trig now) anything.
Proof. unfold _advance_refund. iwalk. Qed.
Lemma failure_ident intent attempt now x : keeps_ident (_record_ledger_post_failure exc_text intent attempt now x) anything.
Proof. unfold _record_ledger_post_failure. iwalk. Qed.
Lemma post_fee_ident intent attempt acc fee rule now : keeps_ident (post_fee K intent attempt acc fee rule now) anything.
Proof. unfold post_fee. iwalk. Qed.
Hint Resolve advance_attempt_same_ident advance_refund_ident failure_ident post_fee_ident : ident.

Lemma succeed_ident intent attempt trig fee rule now : good intent -> keeps_ident (succeed K intent attempt trig fee rule now) good.
Proof. intros Hg. unfold succeed. iwalk. Qed.
Hint Resolve succeed_ident : ident.
Lemma settle_charge_ident e intent attempt trig : good intent -> keeps_ident (_settle_charge exc_text K e intent attempt trig) good.
Proof. intros Hg. unfold _settle_charge. iwalk. Qed.
Lemma settle_authorized_ident e intent attempt trig : good intent ->
  keeps_ident (_settle_authorized_charge exc_text K e intent attempt trig) good.
Proof. intros Hg. unfold _settle_authorized_charge. iwalk. Qed.
Lemma dispatch_ident e intent n : good intent -> keeps_ident (_dispatch K e intent n) (good_progress good).
Proof. intros Hg. unfold _dispatch. iwalk. Qed.
Lemma authorization_hold_ident intent attempt now : keeps_ident (_open_authorization_hold K intent attempt now) anything.
Proof. unfold _open_authorization_hold. iwalk. Qed.
Lemma post_reversal_ident intent attempt now : keeps_ident (_post_reversal_entries K intent attempt now) anything.
Proof. unfold _post_reversal_entries. iwalk. Qed.
Lemma post_refund_ident intent r now : keeps_ident (_post_refund_entries K intent r now) anything.
Proof. unfold _post_refund_entries. iwalk. Qed.
Hint Resolve settle_charge_ident settle_authorized_ident dispatch_ident authorization_hold_ident post_reversal_ident post_refund_ident : ident.

Lemma apply_connector_result_ident e intent attempt result : good intent ->
  keeps_ident (_apply_connector_result exc_text K e intent attempt result) (good_progress good).
Proof. intros Hg. unfold _apply_connector_result. iwalk. Qed.
Lemma apply_status_poll_result_ident e a result : keeps_ident (_apply_status_poll_result exc_text K e a result) good.
Proof. unfold _apply_status_poll_result. iwalk. Qed.
Lemma poll_ident a : keeps_ident (poll_timed_out_attempt a) (good_progress anything).
Proof. unfold poll_timed_out_attempt. iwalk. Qed.
Lemma supply_method_ident e i m : keeps_ident (supply_method K e i m) anything.
Proof. unfold supply_method. iwalk. Qed.
Lemma confirm_outcome_good p : good_progress good p -> good_progress anything (confirm_outcome p).
Proof. by destruct p. Qed.
Hint Resolve confirm_outcome_good : ident.
Lemma confirm_ident e i details credits : keeps_ident (confirm K e i details credits) (good_progress anything).
Proof. unfold confirm. iwalk. Qed.
Lemma complete_action_ident e i success : keeps_ident (complete_action K e i success) (good_progress anything).
Proof. unfold complete_action. iwalk. Qed.
Lemma capture_ident e i amount : keeps_ident (capture exc_text K e i amount) good.
Proof. unfold capture. iwalk. Qed.
Lemma cancel_ident e i : keeps_ident (cancel K e i) good.
Proof. unfold cancel, _void. iwalk. Qed.
Lemma execute_reversal_ident e i reason : keeps_ident (execute_reversal K e i reason) (good_progress anything).
Proof. unfold execute_reversal, _claim_reversal_dispatch, lock_intent. iwalk. Qed.
Lemma apply_reversal_result_ident e i result : keeps_ident (_apply_reversal_result K e i result) anything.
Proof. unfold _apply_reversal_result. iwalk. Qed.
Lemma confirm_delivery_ident e i t : keeps_ident (confirm_delivery K e i t) anything.
Proof. unfold confirm_delivery. iwalk. Qed.
Lemma create_refund_ident e i amount reason key : keeps_ident (create_refund K e i amount reason key) anything.
Proof. unfold create_refund, lock_intent. iwalk. Qed.
Lemma process_refund_ident e r : keeps_ident (process_refund K e r) (good_progress anything).
Proof. unfold process_refund. iwalk. Qed.
Lemma apply_refund_result_ident e r result : keeps_ident (_apply_refund_result K e r result) anything.
Proof. unfold _apply_refund_result, _return_intent_after_refund_failure, lock_intent. iwalk. Qed.
Hint Resolve apply_connector_result_ident apply_status_poll_result_ident apply_reversal_result_ident apply_refund_result_ident : ident.

Lemma launch_good {A} (Q : A -> Prop) (p : progress A) :
  good_progress Q p -> good_launch (match p with Done _ => None | Waiting f => Some f end).
Proof. by destruct p. Qed.

Lemma inbound_ident e c result : keeps_ident (apply_inbound_connector_result exc_text K e c result) (good_progress anything).
Proof.
  unfold apply_inbound_connector_result. iwalk.
  match goal with Hp : good_progress good ?p |- _ => by destruct p end.
Qed.
Lemma resume_ident e f reply : good_flight f -> keeps_ident (resume exc_text K e f reply) good_launch.
Proof. intros Hf. unfold resume. destruct f; cbn [good_flight] in Hf; iwalk. by eapply launch_good. Qed.
Hint Resolve poll_ident supply_method_ident confirm_ident complete_action_ident capture_ident cancel_ident execute_reversal_ident
  confirm_delivery_ident create_refund_ident process_refund_ident inbound_ident : ident.

Lemma sweep_ident e : keeps_ident (sweep_expired_intents K e) anything.
Proof.
  unfold sweep_expired_intents. apply ki_bind_pay. intros p Hp.
  assert (Hl : Forall good (list_expired_intents (e_now e) p)).
  { unfold list_expired_intents. rewrite sort_by_perm. apply Forall_forall. intros x Hx.
    apply list_elem_of_In, filter_In in Hx as [Hx%list_elem_of_In _]. by eapply Forall_forall in Hx. }
  generalize 0. induction Hl as [|x l Hx _ IH]; intros n; cbn [sweep_loop]; [by apply ki_ret|].
  eapply (ki_bind _ _ anything); [|intros; apply IH]. unfold sweep_one. iwalk.
Qed.

Lemma reversals_ident e rail : keeps_ident (dispatch_pending_reversals exc_text K e rail) anything.
Proof.
  intros w Hw. unfold dispatch_pending_reversals.
  generalize (list_intents None None (Some "REVERSAL_INITIATED"%string) 100 0 (w_pay w) ++
    list_intents None None (Some "REVERSAL_PENDING"%string) 100 0 (w_pay w)) as l. intros l.
  assert (Hl : all_good (w_pay (reversal_loop exc_text K e rail l 0 [] w).2) /\
    intent_ids (reversal_loop exc_text K e rail l 0 [] w).2 = intent_ids w).
  2: { destruct (reversal_loop _ _ _ _ _ _ _ _) as [[[|n] d] w']; by destruct Hl. }
  generalize 0%nat (@nil string). revert w Hw. induction l as [|i l IH]; intros w Hw n d; cbn [reversal_loop]; [done|].
  match goal with |- context [match ?c w with _ => _ end] => assert (Hone : keeps_ident c anything) end.
  { eapply ki_bind; [apply execute_reversal_ident|]. intros [u|f] Hf; [by apply ki_ret|].
    eapply ki_weaken; [|by apply resume_ident]. done. }
  destruct (Hone w Hw) as (Hg & Hi & _).
  match goal with |- context [match ?c w with _ => _ end] => destruct (c w) as [[u|x] w'] end; cbn [snd] in Hg, Hi; rewrite <- Hi; by apply IH.
Qed.
Hint Resolve sweep_ident reversals_ident : ident.

(** Every call but [create_intent]. *)
Lemma invoke_ident e c : match c with CreateIntent _ => False | _ => True end ->
  keeps_ident (invoke exc_text K e c) good_launch.
Proof.
  intros Hc. destruct c; [done|..]; cbn [invoke]; unfold ended, suspended;
    (eapply ki_bind; [eauto with ident|]); intros ? ?; apply ki_ret; try done; by eapply launch_good.
Qed.
End Identity.

(** * Creating an intent twice *)

(** An intent keeps its place and its identity. *)
Definition tracks (w w' : World) : Prop :=
  NoDup (intent_ids w) -> NoDup (intent_ids w') /\ identities w `prefix_of` identities w'.

#[export] Instance tracks_preorder : PreOrder tracks.
Proof.
  split; [by intros w Hw|]. intros w1 w2 w3 H12 H23 Hw. destruct (H12 Hw) as [Hw2 Hp]. destruct (H23 Hw2) as [Hw3 Hp'].
  split; [done|]. by etrans.
Qed.

Lemma same_pay_tracks w w' : same_pay w w' -> tracks w w'.
Proof. unfold tracks, intent_ids, identities, same_pay. by intros ->. Qed.

(** Rows with their ids and among their own identities are in their old places. *)
Lemma same_identities (l l' : list PaymentIntentRecord) :
  NoDup (pi_payment_intent_id <$> l) -> Forall (good (ident <$> l)) l' ->
  pi_payment_intent_id <$> l' = pi_payment_intent_id <$> l -> ident <$> l' = ident <$> l.
Proof.
  intros Hnd Hg Hids. apply list_eq_same_length with (n := length l); [by rewrite length_fmap| |].
  - rewrite length_fmap, <- (length_fmap pi_payment_intent_id l'), Hids. by rewrite length_fmap.
  - intros i a b _ Ha Hb. apply list_lookup_fmap_Some in Ha as (x & -> & Hx), Hb as (y & -> & Hy).
    assert (He : pi_payment_intent_id x = pi_payment_intent_id y).
    { apply (f_equal (lookup i)) in Hids. rewrite !list_lookup_fmap, Hx, Hy in Hids. by injection Hids. }
    pose proof (Forall_lookup_1 _ _ _ _ Hg Hx) as (z & Hz & Hin)%list_elem_of_fmap.
    assert (z = y) as ->; [|done]. apply (NoDup_fmap_eq pi_payment_intent_id l); [done..|by eapply list_elem_of_lookup_2|].
    unfold ident in Hz. congruence.
Qed.

Lemma all_good_self w : all_good (identities w) (w_pay w).
Proof. apply Forall_forall. intros r Hr. by apply list_elem_of_fmap_2. Qed.

Lemma keeps_ident_identities {A} (c : keff A) Q w : NoDup (intent_ids w) -> keeps_ident (identities w) c Q ->
  identities (c w).2 = identities w /\ intent_ids (c w).2 = intent_ids w /\ forall a, (c w).1 = Ok a -> Q a.
Proof.
  intros Hnd Hc. destruct (Hc w (all_good_self w)) as (Hg & Hi & Hq). split_and!; [|done..]. by apply same_identities.
Qed.

Section Create.
Context `{HashFn} `{CheckpointSigner} `{Redactor} `{DhakaTz} (exc_text : kexn -> string) (K : Kernel).

Lemma insert_intent_tracks r : within tracks (on_pay (insert_intent r)).
Proof.
  intros w Hnd. unfold on_pay. destruct (insert_intent r (w_pay w)) as [p'|] eqn:Hi; [|done]. unfold insert_intent in Hi. inv_res.
  unfold intent_ids, identities in *. cbn [snd w_pay intents set_intents]. split; [|rewrite fmap_app; by apply prefix_app_r].
  apply NoDup_fmap_snoc; [done|]. intros y Hy He.
  assert (Hf : get_intent (pi_payment_intent_id r) (w_pay w) = Some y) by (by apply (find_key pi_payment_intent_id)).
  rewrite Hf in *. done.
Qed.

Lemma create_intent_tracks e rq : within tracks (create_intent K e rq).
Proof.
  unfold create_intent. autounfold with orch. repeat walk_step.
  - apply insert_intent_tracks.
  - eapply within_weaken, audit_append_pay. apply same_pay_tracks.
  - eapply within_weaken, emit_pay. apply same_pay_tracks.
Qed.

(** The ids are distinct, and the intents that coroutines hold are stored ones. *)
Record tracked (m : Machine) : Prop := {
  tk_unique : NoDup (intent_ids (m_world m));
  tk_flights : Forall (good_flight (identities (m_world m))) (m_flights m)
}.

Lemma good_flight_prefix L L' f : L `prefix_of` L' -> good_flight L f -> good_flight L' f.
Proof. intros [k ->]. destruct f; [|done..]. cbn. unfold good. rewrite elem_of_app. by left. Qed.

Lemma launched_good w r fs : Forall (good_flight (identities w)) fs -> (forall a, r = Ok a -> good_launch (identities w) a) ->
  Forall (good_flight (identities w)) (fs ++ launched r).
Proof.
  intros Hfs Hr. apply Forall_app. split; [done|]. destruct r as [[f|]|]; cbn; repeat constructor. exact (Hr _ eq_refl).
Qed.

Lemma piece_tracked c w fs : NoDup (intent_ids w) -> Forall (good_flight (identities w)) fs ->
  keeps_ident (identities w) c (good_launch (identities w)) ->
  tracked (run_piece c w fs) /\ identities w `prefix_of` identities (m_world (run_piece c w fs)).
Proof.
  intros Hnd Hfs Hc. destruct (keeps_ident_identities c _ w Hnd Hc) as (Hi & Hids & Hq). unfold run_piece.
  destruct (c w) as [r w']. cbn [fst snd m_world] in *. rewrite Hi. split; [|done].
  split; cbn [m_world m_flights]; [by rewrite Hids|]. rewrite <- Hi in *. by apply launched_good.
Qed.

Lemma act_tracked m a : tracked m ->
  tracked (act exc_text K m a) /\ identities (m_world m) `prefix_of` identities (m_world (act exc_text K m a)).
Proof.
  intros [Hnd Hfs]. destruct m as [w fs]. cbn [m_world m_flights] in *. destruct a as [e c|e n reply|op]; cbn [act m_world m_flights].
  - destruct (match c with CreateIntent _ => true | _ => false end) eqn:Hc.
    2: { apply piece_tracked; [done..|]. apply invoke_ident. by destruct c. }
    destruct c as [rq| | | | | | | | | | | | |]; try done. cbn [invoke]. unfold run_piece, ended. rewrite ebind_eq.
    destruct (create_intent_tracks e rq w Hnd) as [Hnd' Hp]. destruct (create_intent K e rq w) as [r w']. cbn [snd] in *.
    assert (Hfs' : Forall (good_flight (identities w')) fs) by (eapply Forall_impl; [exact Hfs|]; intros f; by apply good_flight_prefix).
    destruct r; cbn [m_world m_flights eret launched]; (split; [split; [done|by rewrite app_nil_r]|done]).
  - destruct (fs !! n) as [f|] eqn:Hn; [|done]. apply piece_tracked; [done|by apply Forall_delete|]. apply resume_ident.
    by eapply Forall_lookup_1 in Hn.
  - split; [split|]; done.
Qed.

Lemma actions_tracked l m : tracked m ->
  tracked (foldl (act exc_text K) m l) /\ identities (m_world m) `prefix_of` identities (m_world (foldl (act exc_text K) m l)).
Proof.
  revert m. induction l as [|a l IH]; intros m Hm; [done|]. cbn [foldl]. destruct (act_tracked m a Hm) as [Ha Hp].
  destruct (IH _ Ha) as [Hl Hp']. split; [done|]. by etrans.
Qed.

(** The first intent of a merchant's key, found by its identity. *)
Lemma find_by_identity merchant key (l l' : list PaymentIntentRecord) x : (ident <$> l) `prefix_of` (ident <$> l') ->
  let q := fun r => String.eqb (pi_merchant_id r) merchant && bool_decide (pi_idempotency_key r = Some key) in
  List.find q l = Some x -> exists x', List.find q l' = Some x' /\ ident x' = ident x.
Proof.
  intros [k Hk] q. revert l' Hk. induction l as [|r l IH]; intros [|r' l'] Hk; csimpl in Hk; try done. injection Hk as H1' H2' H3' H4' Hl.
  cbn [List.find]. assert (q r' = q r) as -> by (unfold q; rewrite H2'; f_equal; apply bool_decide_ext; by rewrite H4'). destruct (q r); [|by apply IH].
  intros [= <-]. exists r'. split; [done|]. unfold ident. congruence.
Qed.

(** The answer to a repeated request, by the intent that is stored. *)
Definition replay (rq : PaymentIntentRequest) (x : PaymentIntentRecord) : res kexn PaymentIntentRecord :=
  if (pi_amount_minor x =? rq_amount_minor rq) && String.eqb (pi_method x) (rq_method rq)
  then Ok x else Err IdempotencyConflictError.

Lemma create_found e rq w x : truthy (rq_idempotency_key rq) = true ->
  find_intent_by_idempotency_key (rq_merchant_id rq) (rq_idempotency_key rq) (w_pay w) = Some x ->
  pi_customer_id x = rq_customer_id rq -> create_intent K e rq w = (replay rq x, w).
Proof.
  intros Hk Hf Hc. unfold create_intent. rewrite Hk. cbn [negb]. unfold pay. rewrite ebind_eq. cbn. rewrite Hf.
  rewrite (bool_decide_true _ Hc). unfold replay. by destruct (_ =? _), (String.eqb _ _).
Qed.

(** What a creation leaves: the intent it returned is the one stored for the key. *)
Lemma create_stores e rq w r w' : create_intent K e rq w = (Ok r, w') ->
  truthy (rq_idempotency_key rq) = true /\
  find_intent_by_idempotency_key (rq_merchant_id rq) (rq_idempotency_key rq) (w_pay w') = Some r /\
  pi_customer_id r = rq_customer_id rq /\ replay rq r = Ok r.
Proof.
  unfold create_intent. intros Hc. destruct (truthy (rq_idempotency_key rq)) eqn:Hk; [|done]. cbn [negb] in *.
  unfold pay in *. rewrite ebind_eq in Hc. cbn in Hc. unfold replay.
  destruct (find_intent_by_idempotency_key _ _ (w_pay w)) as [x|] eqn:Hf.
  { destruct (_ || _) eqn:Hg; [done|]. injection Hc as <- <-. bool_prop. subst. split_and!; try done.
    by rewrite (proj2 (Z.eqb_eq _ _)), (proj2 (String.eqb_eq _ _)) by done. }
  inv_eff. apply on_pay_Ok in E3 as (p & Hins & ->). apply intent_post_init_Ok in E2 as [-> _].
  match goal with Ha : _audit_transition _ _ _ _ _ _ _ = _, He : emit _ _ _ _ _ = _ |- _ =>
    apply within_pay_eq in Ha; [|apply audit_append_pay]; apply within_pay_eq in He; [|apply emit_pay];
    rewrite He, Ha end. cbn [w_pay].
  unfold insert_intent in Hins. inv_res. unfold find_intent_by_idempotency_key in *. cbn [intents set_intents].
  rewrite find_snoc, Hf. cbn. rewrite String.eqb_refl, bool_decide_true by done. cbn.
  by rewrite Z.eqb_refl, String.eqb_refl.
Qed.

(** C23: a repeated creation creates nothing.  In any history of the kernel, let
    [create_intent] return an intent.  The same request, right afterwards, returns
    that same intent and leaves the whole state as it is.  After any later calls,
    answers of the rail and uses of the ledger, the intent is still stored under
    its id with its merchant, customer and key, and the same request again leaves
    the whole state as it is: it returns that intent as it then stands, or, if the
    intent's amount or method has changed since (a partial capture, a method
    supplied later), it is refused as an idempotency conflict. *)
Theorem create_intent_is_idempotent actions e rq r w' later e' :
  let m := history exc_text K actions in
  create_intent K e rq (m_world m) = (Ok r, w') ->
  create_intent K e' rq w' = (Ok r, w') /\
  let w := m_world (foldl (act exc_text K) (mk_Machine w' (m_flights m)) later) in
  exists x, get_intent (pi_payment_intent_id r) (w_pay w) = Some x /\ ident x = ident r /\
    create_intent K e' rq w =
      (if (pi_amount_minor x =? rq_amount_minor rq) && String.eqb (pi_method x) (rq_method rq)
       then Ok x else Err IdempotencyConflictError, w).
Proof.
  intros m Hc. destruct (create_stores e rq _ r w' Hc) as (Hk & Hf & Hcu & Hre).
  split; [by rewrite (create_found e' rq w' r), Hre by done|]. cbn zeta.
  assert (Ht : tracked m) by (apply (actions_tracked actions start); split; constructor).
  pose proof (create_intent_tracks e rq (m_world m) (tk_unique _ Ht)) as Hcr. rewrite Hc in Hcr. destruct Hcr as [Hnd Hp].
  assert (Ht' : tracked (mk_Machine w' (m_flights m))).
  { split; [done|]. eapply Forall_impl; [apply Ht|]. intros f. by apply good_flight_prefix. }
  destruct (actions_tracked later _ Ht') as [[Hndl _] Hpl]. set (w := m_world (foldl _ _ later)) in *. cbn [m_world] in Hpl.
  destruct (find_by_identity _ _ _ _ r Hpl Hf) as (x & Hx & Hid). exists x.
  assert (Hi : pi_payment_intent_id x = pi_payment_intent_id r /\ pi_customer_id x = pi_customer_id r) by (unfold ident in Hid; split; congruence).
  destruct Hi as [Hi Hcx]. split_and!; [|done|apply create_found; [done..|congruence]].
  apply (find_key pi_payment_intent_id); [done|]. split; [|done]. by apply find_Some in Hx as [? _].
Qed.
End Create.

(** * Delivery *)

Section Delivery.
Context `{HashFn} `{CheckpointSigner} `{Redactor} (K : Kernel).





End Delivery.
