(* ===== verification/KernelRefunds.v ===== *)
(** Refunds never exceed the payment: in every history the refunds of an intent
    that have not failed add up to at most its amount. *)
From S2P Require Import Prelude Effects Rows Exceptions DateTime Sha256 Canonical LedgerTypes LedgerStore HashChain LedgerService LedgerOps.
From S2P Require Import Outbox Fsm PaymentStates Money Fees Calendar KernelModels Preflight Sdk Orchestrator KernelMachine KernelMoves KernelSteps.
Open Scope Z_scope.

Create HintDb refunds.

(** What a refund reserves of the intent [i]. *)
Definition reserves (i : string) (r : RefundRecord) : Z :=
  if has_key rf_payment_intent_id i r && negb (String.eqb (rf_status r) "REFUND_FAILED") then rf_amount_minor r else 0.

Lemma reserved_total i p : _reserved_refund_total i p = sumZ (reserves i) (refunds p).
Proof.
  unfold _reserved_refund_total, list_refunds. rewrite sort_by_perm. unfold reserves.
  induction (refunds p) as [|r l IH]; [done|]. cbn [List.filter]. unfold sumZ in *. cbn [foldr fmap list_fmap].
  destruct (has_key rf_payment_intent_id i r); cbn [foldr andb]; [|lia]. destruct (String.eqb _ _); cbn; lia.
Qed.

Record refunds_ok (p : PaymentStore) : Prop := {
  ro_nodup : NoDup (rf_refund_id <$> refunds p);
  ro_positive : Forall (fun r => 0 < rf_amount_minor r) (refunds p);
  ro_owner : Forall (fun r => exists x, get_intent (rf_payment_intent_id r) p = Some x /\ pi_status x ∈ captured_states) (refunds p);
  ro_bound : forall i x, get_intent i p = Some x -> sumZ (reserves i) (refunds p) <= pi_amount_minor x
}.

Lemma refunds_ok_empty : refunds_ok empty_payments.
Proof. split; cbn; [constructor..|done]. Qed.

(** An intent outside the captured states has no refund. *)
Lemma nothing_reserved p i :
  refunds_ok p -> (forall x, get_intent i p = Some x -> pi_status x ∉ captured_states) -> sumZ (reserves i) (refunds p) = 0.
Proof.
  intros Hok Hi. apply sumZ_zero. intros r Hr. unfold reserves, has_key.
  destruct (String.eqb_spec (rf_payment_intent_id r) i) as [<-|]; [|done]. exfalso.
  destruct (proj1 (Forall_forall _ _) (ro_owner _ Hok) r Hr) as (x & Hx & Hs). by apply (Hi x).
Qed.

(** Which changes of the intents keep the bound. *)
Definition intent_fits (x x' : PaymentIntentRecord) : Prop :=
  ((pi_amount_minor x' = pi_amount_minor x) \/ ((pi_status x ∉ captured_states) /\ 0 < pi_amount_minor x')) /\
  (pi_status x ∈ captured_states -> pi_status x' ∈ captured_states).

Lemma refunds_ok_intents p p' :
  refunds p' = refunds p ->
  (forall i x, get_intent i p = Some x -> exists x', get_intent i p' = Some x' /\ intent_fits x x') ->
  (forall i x', get_intent i p = None -> get_intent i p' = Some x' -> 0 < pi_amount_minor x') ->
  refunds_ok p -> refunds_ok p'.
Proof.
  intros Hr Hold Hnew Hok. split; rewrite Hr; [apply Hok..| |].
  - eapply Forall_impl; [apply (ro_owner _ Hok)|]. intros r (x & Hx & Hs). destruct (Hold _ _ Hx) as (x' & Hx' & _ & Hc). eauto.
  - intros i x' Hx'. destruct (get_intent i p) as [x|] eqn:Hx.
    + destruct (Hold _ _ Hx) as (x'' & Hx'' & [Ha|[Hn Hp]] & _); simplify_eq.
      * rewrite Ha. by apply Hok.
      * rewrite nothing_reserved; [lia|done|]. intros y Hy. by simplify_eq.
    + specialize (Hnew _ _ Hx Hx'). rewrite nothing_reserved; [lia|done|]. intros y Hy. by simplify_eq.
Qed.

Lemma refunds_ok_same p p' : refunds p' = refunds p -> intents p' = intents p -> refunds_ok p -> refunds_ok p'.
Proof.
  intros Hr Hi. assert (Hg : forall i, get_intent i p' = get_intent i p) by (intros i; unfold get_intent; by rewrite Hi).
  apply refunds_ok_intents; [done|..]; setoid_rewrite Hg; [|congruence].
  intros i x Hx. exists x. split; [done|split; [by left|done]].
Qed.

Definition refunds_held (w : World) : Prop := refunds_ok (w_pay w).

Lemma same_pay_refunds {A} (c : keff A) : within same_pay c -> within (keeps refunds_held) c.
Proof. unfold within, keeps, refunds_held. intros Hc w HJ. by rewrite (Hc w). Qed.

Lemma put_intent_refunds r x p :
  get_intent (pi_payment_intent_id r) p = Some x -> intent_fits x r -> refunds_ok p -> refunds_ok (put_intent r p).
Proof.
  intros Hx Hf. apply refunds_ok_intents; [done|..].
  - intros i y Hy. rewrite get_put_intent. destruct (String.eqb_spec (pi_payment_intent_id r) i) as [<-|?].
    + simplify_eq. rewrite Hx. cbn. eauto.
    + rewrite Hy. cbn. exists y. split; [done|]. split; [by left|done].
  - intros i y Hn. rewrite get_put_intent, Hn. by destruct (String.eqb _ _).
Qed.

(** An update from outside the captured states. *)
Lemma early_update r s :
  s ∉ captured_states -> 0 < pi_amount_minor r -> within (keeps refunds_held) (on_pay (update_intent r s)).
Proof.
  intros Hs Ha w. apply (on_pay_from _ refunds_ok). intros p' (x & Hx & Hst & ->)%update_intent_Ok.
  apply (put_intent_refunds _ _ _ Hx). split; [right; by rewrite Hst|by rewrite Hst].
Qed.

(** An update of the record that is stored. *)
Lemma fresh_update w x r :
  get_intent (pi_payment_intent_id r) (w_pay w) = Some x -> pi_amount_minor r = pi_amount_minor x ->
  (pi_status x ∈ captured_states -> pi_status r ∈ captured_states) ->
  from w (keeps refunds_held) (on_pay (update_intent r (pi_status x))).
Proof.
  intros Hx Ha Hc. apply (on_pay_from _ refunds_ok). intros p' (y & Hy & Hst & ->)%update_intent_Ok. simplify_eq.
  apply (put_intent_refunds _ _ _ Hx). split; [by left|done].
Qed.

(** The triggers that start in a captured state. *)
Definition refund_triggers : list string :=
  ["refund_initiated"; "refund_partial_succeeded"; "refund_full_succeeded"; "refund_failed"].

Lemma trigger_is_early s trig g s' :
  resolve_in INTENT_TABLE s trig g = Ok s' -> trig ∉ refund_triggers -> s ∉ captured_states.
Proof.
  assert (Hall : Forall (fun r => trigger r ∉ refund_triggers -> from_state r ∉ captured_states) INTENT_RULES) by check_rows.
  rewrite Forall_forall in Hall. by intros (r & Hr & <- & <- & _ & _)%resolve_in_row ?; apply Hall.
Qed.

Lemma captured_is_closed s trig g s' :
  resolve_in INTENT_TABLE s trig g = Ok s' -> s ∈ captured_states -> s' ∈ captured_states.
Proof.
  assert (Hall : Forall (fun r => from_state r ∈ captured_states -> to_state r ∈ captured_states) INTENT_RULES) by check_rows.
  rewrite Forall_forall in Hall. by intros (r & Hr & <- & _ & _ & <-)%resolve_in_row ?; apply Hall.
Qed.

Section Refunds.
Context `{HashFn} `{CheckpointSigner} `{Redactor} `{DhakaTz} (exc_text : kexn -> string) (K : Kernel).

Lemma audit_append_refunds et st si f t payload now : within (keeps refunds_held) (audit_append K et st si f t payload now).
Proof. apply same_pay_refunds, audit_append_pay. Qed.
Lemma on_led_refunds {A} (f : Store -> LedgerStore.outcome A) : within (keeps refunds_held) (on_led f).
Proof. apply same_pay_refunds, on_led_pay. Qed.
Lemma emit_refunds et intent payload st si topic now : within (keeps refunds_held) (_emit et intent payload st si topic now).
Proof. apply same_pay_refunds, emit_pay. Qed.
Lemma call_rail_refunds c : within (keeps refunds_held) (call_rail c).
Proof. by intros w HJ. Qed.
Lemma port_audits_refunds e : within (keeps refunds_held) (port_audits K e).
Proof. by intros w HJ. Qed.
Lemma port_post_refunds spec now : within (keeps refunds_held) (port_post K spec now).
Proof. unfold port_post. repeat walk_step. apply on_led_refunds. Qed.

Lemma update_attempt_refunds r s : within (keeps refunds_held) (on_pay (update_attempt r s)).
Proof.
  intros w. apply (on_pay_from _ refunds_ok). unfold update_attempt. intros p' Hu. destruct (get_attempt _ _); [|done]. inv_res.
  by apply refunds_ok_same.
Qed.

Lemma insert_attempt_refunds r : within (keeps refunds_held) (on_pay (insert_attempt r)).
Proof.
  intros w. apply (on_pay_from _ refunds_ok). intros p' (_ & _ & Hr & Hi)%insert_attempt_Ok.
  destruct Hi as [[_ Hi]|(x & Hx & Hi)]; [by apply refunds_ok_same|].
  assert (Hid : pi_payment_intent_id x = pa_payment_intent_id r) by (by apply find_Some in Hx as [_ ?%has_key_iff]).
  intros Hok. apply (put_intent_refunds (pi_set_latest (Some (pa_attempt_id r)) x) x) in Hok;
    [|cbn; by rewrite Hid|by split; [left|]].
  by eapply refunds_ok_same; [..|exact Hok].
Qed.

Lemma insert_intent_refunds r : 0 < pi_amount_minor r -> within (keeps refunds_held) (on_pay (insert_intent r)).
Proof.
  intros Ha w. apply (on_pay_from _ refunds_ok). unfold insert_intent. intros p' Hu. inv_res.
  apply refunds_ok_intents; [done|..]; intros i x; unfold get_intent; cbn [intents set_intents]; rewrite find_snoc.
  - intros ->. exists x. split; [done|split; [by left|done]].
  - intros ->. destruct (has_key _ _ r); intros Hs; by simplify_eq.
Qed.

Lemma advance_intent_refunds intent trig g d stamp now :
  trig ∉ refund_triggers -> within (keeps refunds_held) (_advance_intent K intent trig g d stamp now).
Proof.
  intros Ht. unfold _advance_intent. repeat walk_step; [|apply audit_append_refunds].
  match goal with Hp : intent_post_init _ = Ok _ |- _ => apply intent_post_init_Ok in Hp as [-> Ha] end.
  apply early_update; [by eapply trigger_is_early|done].
Qed.

Lemma advance_attempt_refunds attempt trig g stamp now : within (keeps refunds_held) (_advance_attempt K attempt trig g stamp now).
Proof.
  unfold _advance_attempt. repeat walk_step; [apply update_attempt_refunds|apply audit_append_refunds].
Qed.

Hint Resolve audit_append_refunds on_led_refunds emit_refunds call_rail_refunds port_audits_refunds port_post_refunds
  update_attempt_refunds insert_attempt_refunds advance_attempt_refunds : refunds.
Hint Extern 1 (within (keeps refunds_held) (_advance_intent _ _ _ _ _ _ _)) =>
  apply advance_intent_refunds; by_compute : refunds.

Ltac walk := autounfold with orch; repeat walk_step; auto with refunds.

(** ** Updates of refunds *)

(** A record that follows the stored one. *)
Definition follows (r r' : RefundRecord) : Prop :=
  rf_refund_id r' = rf_refund_id r /\ rf_payment_intent_id r' = rf_payment_intent_id r /\
  rf_amount_minor r' = rf_amount_minor r /\ rf_status r' = rf_status r.

Lemma refund_failed_is_final s trig g s' : resolve_in REFUND_TABLE s trig g = Ok s' -> s <> "REFUND_FAILED"%string.
Proof.
  assert (Hall : Forall (fun r => from_state r <> "REFUND_FAILED"%string) REFUND_RULES) by check_rows.
  rewrite Forall_forall in Hall. by intros (r & Hr & <- & _)%resolve_in_row; apply Hall.
Qed.

Lemma sumZ_le_replace f l (g : RefundRecord -> RefundRecord) :
  (forall r, r ∈ l -> f (g r) <= f r) -> sumZ f (g <$> l) <= sumZ f l.
Proof.
  intros Hg. rewrite sumZ_fmap. induction l as [|r l IH]; [done|]. unfold sumZ in *. cbn [foldr fmap list_fmap].
  specialize (IH ltac:(intros; apply Hg; by right)). specialize (Hg r ltac:(by left)). lia.
Qed.

Lemma put_refund_ok p r r' :
  get_refund (rf_refund_id r') p = Some r -> rf_payment_intent_id r' = rf_payment_intent_id r ->
  rf_amount_minor r' = rf_amount_minor r -> rf_status r <> "REFUND_FAILED"%string ->
  refunds_ok p -> refunds_ok (put_refund r' p).
Proof.
  intros Hr Hi Ha Hs Hok. apply find_key in Hr as [Hin Hid]; [|apply Hok].
  assert (Huniq : forall y, y ∈ refunds p -> rf_refund_id y = rf_refund_id r' -> y = r).
  { intros y Hy Hyid. eapply (NoDup_fmap_eq rf_refund_id); [apply (ro_nodup _ Hok)|done..|congruence]. }
  pose proof (proj1 (Forall_forall _ _) (ro_positive _ Hok) r Hin) as Hpos. cbn in Hpos.
  pose proof (proj1 (Forall_forall _ _) (ro_owner _ Hok) r Hin) as Hown.
  split; cbn [refunds put_refund set_refunds].
  - rewrite put_keys. apply Hok.
  - apply Forall_put; [apply (ro_positive _ Hok)|]. by rewrite Ha.
  - apply Forall_put; [apply (ro_owner _ Hok)|]. by rewrite Hi.
  - intros i x Hx. etrans; [|by apply (ro_bound _ Hok i)]. apply sumZ_le_replace. intros y Hy.
    destruct (String.eqb_spec (rf_refund_id y) (rf_refund_id r')) as [He|]; [|done].
    rewrite (Huniq y Hy He). unfold reserves, has_key. rewrite Hi, Ha. destruct (String.eqb _ i); [|done]. cbn [andb].
    apply String.eqb_neq in Hs. rewrite Hs. cbn [negb]. destruct (negb _); lia.
Qed.

Lemma advance_refund_from w r r' trig now :
  get_refund (rf_refund_id r) (w_pay w) = Some r -> follows r r' ->
  from w (keeps refunds_held) (_advance_refund K r' trig now).
Proof.
  intros Hr (Hid & Hi & Ha & Hs). unfold _advance_refund. repeat from_step. built.
  apply from_bind; [apply _| |intros; apply from_within; walk].
  apply (on_pay_from _ refunds_ok). intros p' (x & Hx & Hst & ->)%update_refund_Ok.
  cbn [rf_set_status rf_refund_id] in Hx. rewrite Hid, Hr in Hx. injection Hx as <-.
  apply (put_refund_ok _ r); cbn; [by rewrite Hid|done..|]. rewrite Hst. by eapply refund_failed_is_final.
Qed.

Lemma advance_fresh_from w x trig g stamp now :
  get_intent (pi_payment_intent_id x) (w_pay w) = Some x ->
  (forall r, pi_payment_intent_id (stamp r) = pi_payment_intent_id r /\ pi_amount_minor (stamp r) = pi_amount_minor r /\
     pi_status (stamp r) = pi_status r) ->
  from w (keeps refunds_held) (_advance_intent K x trig g false stamp now).
Proof.
  intros Hx Hs. unfold _advance_intent. repeat from_step. built. destruct (Hs (pi_set_status a now x)) as (Hi & Ha & Hst).
  apply from_bind; [apply _| |intros; apply from_within; walk].
  apply fresh_update; rewrite ?Hi, ?Ha, ?Hst; cbn; [done|done|]. by eapply captured_is_closed.
Qed.

(** ** The operations *)

Lemma post_fee_refunds intent attempt acc fee rule now : within (keeps refunds_held) (post_fee K intent attempt acc fee rule now).
Proof. unfold post_fee. walk. Qed.
Lemma failure_refunds intent attempt now x :
  within (keeps refunds_held) (_record_ledger_post_failure exc_text intent attempt now x).
Proof. unfold _record_ledger_post_failure. walk. Qed.
Lemma succeed_refunds intent attempt trig fee rule now :
  trig ∉ refund_triggers -> within (keeps refunds_held) (succeed K intent attempt trig fee rule now).
Proof. intros Ht. unfold succeed. walk. by apply advance_intent_refunds. Qed.
Hint Resolve post_fee_refunds failure_refunds : refunds.

Lemma settle_charge_refunds e intent attempt trig :
  trig ∉ refund_triggers -> within (keeps refunds_held) (_settle_charge exc_text K e intent attempt trig).
Proof. intros Ht. unfold _settle_charge. walk. by apply succeed_refunds. Qed.
Lemma settle_authorized_refunds e intent attempt trig :
  trig ∉ refund_triggers -> within (keeps refunds_held) (_settle_authorized_charge exc_text K e intent attempt trig).
Proof. intros Ht. unfold _settle_authorized_charge. walk. by apply succeed_refunds. Qed.
Hint Extern 1 (within (keeps refunds_held) (_settle_charge _ _ _ _ _ _)) =>
  apply settle_charge_refunds; by_compute : refunds.
Hint Extern 1 (within (keeps refunds_held) (_settle_authorized_charge _ _ _ _ _ _)) =>
  apply settle_authorized_refunds; by_compute : refunds.

Lemma same_early r : pi_status r ∉ captured_states -> 0 < pi_amount_minor r ->
  within (keeps refunds_held) (on_pay (update_intent r (pi_status r))).
Proof. apply early_update. Qed.

Lemma dispatch_refunds e intent n :
  pi_status intent = "PROCESSING"%string -> within (keeps refunds_held) (_dispatch K e intent n).
Proof.
  intros Hs. unfold _dispatch. walk;
    match goal with Hp : intent_post_init _ = Ok _ |- _ => apply intent_post_init_Ok in Hp as [-> Ha] end;
    (apply same_early; [cbn; rewrite Hs; by_compute|done]).
Qed.

Lemma advance_then_dispatch intent trig now {B} (k : PaymentIntentRecord -> keff B) :
  trig ∈ dispatch_triggers -> trig ∉ refund_triggers ->
  (forall x, pi_status x = "PROCESSING"%string -> within (keeps refunds_held) (k x)) ->
  within (keeps refunds_held) (ebind (_advance_intent K intent trig None false id now) k).
Proof.
  intros Hd Hr Hk. eapply within_bind_yields; [apply _|by apply advance_intent_refunds|
    by apply advance_intent_processing|exact Hk].
Qed.
Hint Resolve dispatch_refunds : refunds.

Ltac walk ::= autounfold with orch;
  repeat first [
    match goal with |- within _ (ebind (_advance_intent _ _ _ None false id _) _) =>
      apply advance_then_dispatch; [by_compute|by_compute|intros ? ?] end
  | walk_step]; auto with refunds.

Lemma apply_connector_result_refunds e intent attempt result :
  within (keeps refunds_held) (_apply_connector_result exc_text K e intent attempt result).
Proof. unfold _apply_connector_result, _open_authorization_hold. walk. Qed.

Lemma apply_status_poll_result_refunds e a result :
  within (keeps refunds_held) (_apply_status_poll_result exc_text K e a result).
Proof. unfold _apply_status_poll_result. walk. Qed.

Lemma execute_reversal_refunds e i reason : within (keeps refunds_held) (execute_reversal K e i reason).
Proof. unfold execute_reversal, _claim_reversal_dispatch. walk. Qed.

Lemma apply_reversal_result_refunds e i result : within (keeps refunds_held) (_apply_reversal_result K e i result).
Proof. unfold _apply_reversal_result, _post_reversal_entries. walk. Qed.

Lemma confirm_delivery_refunds e i t : within (keeps refunds_held) (confirm_delivery K e i t).
Proof.
  intros w. change (from w (keeps refunds_held) (confirm_delivery K e i t)). unfold confirm_delivery. repeat from_step.
  match goal with Hg : get_intent _ _ = Some ?x |- _ => pose proof (get_intent_id _ _ _ Hg) as Hid; rewrite <- Hid in Hg end.
  built. apply from_bind; [apply _|by apply fresh_update|]. intros; apply from_within. walk.
Qed.

Lemma process_refund_refunds e r : within (keeps refunds_held) (process_refund K e r).
Proof.
  intros w. change (from w (keeps refunds_held) (process_refund K e r)). unfold process_refund. repeat from_step.
  match goal with Hg : get_refund _ _ = Some ?x |- _ => pose proof (get_refund_id _ _ _ Hg) as Hid; rewrite <- Hid in Hg end.
  apply from_bind; [apply _| |intros; apply from_within; walk].
  case_match; [by eapply advance_refund_from|apply from_within; walk].
Qed.

(** A new refund within what is left. *)
Lemma insert_refund_from w r x :
  get_intent (rf_payment_intent_id r) (w_pay w) = Some x -> pi_status x ∈ captured_states -> 0 < rf_amount_minor r ->
  rf_amount_minor r <= pi_amount_minor x - sumZ (reserves (rf_payment_intent_id r)) (refunds (w_pay w)) ->
  from w (keeps refunds_held) (on_pay (insert_refund r)).
Proof.
  intros Hx Hs Hpos Ha. apply (on_pay_from _ refunds_ok). unfold insert_refund. intros p' Hu Hok.
  destruct (get_refund (rf_refund_id r) (w_pay w)) eqn:Hn; [done|]. cbn [is_some] in Hu. res_step. simplify_eq.
  split; cbn [refunds set_refunds].
  - apply NoDup_fmap_snoc; [apply Hok|]. intros y Hy He. eapply find_None in Hn; [|exact Hy].
    apply not_true_iff_false in Hn. by rewrite has_key_iff in Hn.
  - apply Forall_app. split; [apply (ro_positive _ Hok)|by constructor].
  - apply Forall_app. split; [apply (ro_owner _ Hok)|]. constructor; [|done]. by exists x.
  - intros i y Hy. change (get_intent i (w_pay w) = Some y) in Hy. pose proof (ro_bound _ Hok _ _ Hy) as Hb.
    rewrite sumZ_app. unfold reserves at 2. unfold has_key, sumZ at 2. cbn [foldr].
    destruct (String.eqb_spec (rf_payment_intent_id r) i) as [<-|]; cbn [andb]; [|lia].
    simplify_eq. destruct (negb _); lia.
Qed.

Lemma create_refund_refunds e i amount reason key : within (keeps refunds_held) (create_refund K e i amount reason key).
Proof.
  apply within_from. intros w. unfold create_refund, lock_intent. repeat from_step.
  match goal with Hg : get_intent _ _ = Some ?x |- _ => rename Hg into Hx; rename x into intent end.
  pose proof (get_intent_id _ _ _ Hx) as Hid. rewrite <- Hid in Hx. bool_prop.
  match goal with Hp : refund_post_init _ = Ok _ |- _ => apply refund_post_init_Ok in Hp as [-> Hpos] end.
  match goal with Hr : _ <= _ - _reserved_refund_total _ _ |- _ => rewrite reserved_total in Hr end.
  match goal with Hs : str_in _ _ = true |- _ => apply bool_decide_eq_true in Hs; rename Hs into Hst end.
  apply from_bind; [apply _| |].
  - eapply insert_refund_from; [exact Hx| |done|done].
    rewrite !elem_of_cons, elem_of_nil in Hst. by destruct Hst as [->|[->|[]]]; by_compute.
  - intros u w' Hi. apply on_pay_Ok in Hi as (p' & Hp' & ->). apply from_bind; [apply _| |intros; apply from_within; walk].
    apply advance_fresh_from; [|done]. unfold insert_refund in Hp'. inv_res. done.
Qed.

Lemma advance_refund_intents refund trig now w r w' i :
  _advance_refund K refund trig now w = (Ok r, w') -> get_intent i (w_pay w') = get_intent i (w_pay w).
Proof. by intros (to & x & _ & _ & _ & _ & ->)%advance_refund_Ok. Qed.

Lemma return_intent_from w e x r :
  get_intent (pi_payment_intent_id x) (w_pay w) = Some x ->
  from w (keeps refunds_held) (_return_intent_after_refund_failure K e x r).
Proof.
  intros Hx. unfold _return_intent_after_refund_failure. repeat from_step.
  apply from_bind; [apply _|by apply advance_fresh_from|intros; apply from_within; walk].
Qed.

Lemma apply_refund_result_refunds e r result : within (keeps refunds_held) (_apply_refund_result K e r result).
Proof.
  apply within_from. intros w. unfold _apply_refund_result, lock_intent. repeat from_step; built.
  all: match goal with Hg : get_intent _ _ = Some ?x |- _ => rename Hg into Hx; rename x into intent end.
  all: match goal with Hg : get_refund _ _ = Some ?x |- _ => rename Hg into Hr; rename x into refund end.
  all: pose proof (get_intent_id _ _ _ Hx) as Hid; rewrite <- Hid in Hx.
  all: pose proof (get_refund_id _ _ _ Hr) as Hrid; rewrite <- Hrid in Hr.
  4: by eapply advance_refund_from.
  all: apply from_bind; [apply _|by eapply advance_refund_from|]; intros r' w1 Hadv.
  all: rewrite <- (advance_refund_intents _ _ _ _ _ _ _ Hadv) in Hx.
  2,3: apply from_bind; [apply _|by apply return_intent_from|intros; apply from_within; walk].
  assert (Hp : within same_pay (_post_refund_entries K intent r' (e_now e))).
  { unfold _post_refund_entries. repeat walk_step. apply port_post_pay. }
  apply from_bind; [apply _|by apply same_pay_refunds|]. intros u w2 Hw2. apply (within_pay_eq _ _ _ _ Hp) in Hw2.
  rewrite <- Hw2 in Hx. from_step. apply from_bind; [apply _| |intros; apply from_within; walk].
  clear Hadv. from_step; (apply advance_fresh_from; [exact Hx|done]).
Qed.

Hint Resolve apply_connector_result_refunds apply_status_poll_result_refunds execute_reversal_refunds
  apply_reversal_result_refunds apply_refund_result_refunds : refunds.

Lemma resume_refunds e f reply : within (keeps refunds_held) (resume exc_text K e f reply).
Proof. unfold resume. walk. Qed.

(** Updates before the capture. *)
Ltac early := match goal with Hp : intent_post_init _ = Ok _ |- _ => apply intent_post_init_Ok in Hp as [-> Ha] end.

Lemma invoke_refunds e c : within (keeps refunds_held) (invoke exc_text K e c).
Proof.
  destruct c; cbn [invoke]; autounfold with orch; (apply within_bind; [apply _| |intros; apply within_ret, _]).
  - unfold create_intent. walk. early. by apply insert_intent_refunds.
  - unfold supply_method. walk. early. apply early_update; [eapply trigger_is_early; [eassumption|by_compute]|done].
  - unfold confirm. walk. apply advance_intent_refunds.
    match goal with Hs : preflight_trigger ?x = Some _ |- _ => destruct x; simplify_eq/=; by_compute end.
  - unfold complete_action. walk.
  - unfold capture. walk. early. bool_prop. apply same_early; [|done]. cbn.
    match goal with Hs : pi_status _ = _ |- _ => rewrite Hs end. by_compute.
  - unfold cancel, _void. walk.
  - auto with refunds.
  - apply within_sweep; [apply _|]. intros i. unfold sweep_one. walk.
  - unfold poll_timed_out_attempt. walk.
  - apply confirm_delivery_refunds.
  - apply create_refund_refunds.
  - apply process_refund_refunds.
  - unfold apply_inbound_connector_result. walk.
  - apply within_reversal_loop; auto with refunds typeclass_instances.
Qed.

Lemma history_refunds actions : refunds_held (m_world (history exc_text K actions)).
Proof.
  apply (history_inv exc_text K refunds_held (fun _ _ => True)); try done.
  - apply refunds_ok_empty.
  - intros e c w r w' HJ Hi. pose proof (invoke_refunds e c w HJ) as HJ'. rewrite Hi in HJ'.
    split; [exact HJ'|by apply Forall_true].
  - intros e f reply w r w' HJ _ Hi. pose proof (resume_refunds e f reply w HJ) as HJ'. rewrite Hi in HJ'.
    split; [exact HJ'|by apply Forall_true].
Qed.

Lemma refunded_le_reserved i p : refunds_ok p -> _refunded_total i p <= _reserved_refund_total i p.
Proof.
  intros Hok. unfold _refunded_total, _reserved_refund_total, list_refunds. rewrite !sort_by_perm.
  pose proof (ro_positive _ Hok) as Hp. induction Hp as [|r l Hr Hl IH]; [done|]. cbn [List.filter].
  destruct (has_key _ _ _); [|exact IH]. unfold sumZ in *. cbn [foldr fmap list_fmap].
  destruct (String.eqb_spec (rf_status r) "REFUND_SUCCEEDED") as [->|]; [cbn in *; lia|].
  destruct (String.eqb _ "REFUND_FAILED"); lia.
Qed.

(** C4: no payment is refunded beyond its amount.  In every history, with rail answers
    and callbacks in any order: for every stored intent the refunds that have
    succeeded, and even all refunds that have not failed, add up to at most its
    amount (after a partial capture: the captured amount), and every refund
    belongs to an intent whose payment was captured. *)
Theorem refunds_never_exceed_the_payment actions i x :
  let p := w_pay (m_world (history exc_text K actions)) in
  get_intent i p = Some x ->
  _refunded_total i p <= _reserved_refund_total i p <= pi_amount_minor x /\
  forall r, get_refund r p <> None -> exists rf y, get_refund r p = Some rf /\
    get_intent (rf_payment_intent_id rf) p = Some y /\ pi_status y ∈ captured_states.
Proof.
  intros p Hx. pose proof (history_refunds actions) as Hok. split.
  - split; [by apply refunded_le_reserved|]. rewrite reserved_total. by apply Hok.
  - intros r Hr. destruct (get_refund r p) as [rf|] eqn:Hg; [|done]. apply find_Some in Hg as [Hin _].
    destruct (proj1 (Forall_forall _ _) (ro_owner _ Hok) rf Hin) as (y & Hy & Hs). by exists rf, y.
Qed.
End Refunds.
