(* ===== verification/KernelAttempts.v ===== *)
(** One live attempt at a time: in every history the attempts of an intent are
    numbered 1, 2, 3 at most, and all but the last have failed, so at most one of
    them was or can still be charged. *)
From S2P Require Import Prelude Effects Rows Exceptions DateTime Sha256 Canonical LedgerTypes LedgerStore HashChain LedgerService LedgerOps.
From S2P Require Import Outbox Fsm PaymentStates Money Fees Calendar KernelModels Preflight Sdk Orchestrator KernelMachine KernelMoves KernelSteps.
Open Scope Z_scope.

Create HintDb attempts.

(** The intent states before the first attempt. *)
Definition early_states : list string :=
  ["CREATED"; "REQUIRES_PAYMENT_METHOD"; "REQUIRES_CONFIRMATION"; "PRE_FLIGHT"; "REQUIRES_ACTION"].

Definition AUTHORIZATION_FAILED : string := "AUTHORIZATION_FAILED".
Definition dead (a : PaymentAttemptRecord) : Prop := pa_status a = AUTHORIZATION_FAILED.

(** The attempts of an intent, oldest first. *)
Definition attempts_of (i : string) (p : PaymentStore) : list PaymentAttemptRecord :=
  List.filter (has_key pa_payment_intent_id i) (attempts p).

Definition started (i : string) (p : PaymentStore) : Prop :=
  exists x, get_intent i p = Some x /\ pi_status x ∉ early_states.

(** What never changes in an attempt. *)
Definition ident_of (a : PaymentAttemptRecord) : string * string * Z :=
  (pa_attempt_id a, pa_payment_intent_id a, pa_attempt_number a).

Record attempts_ok (p : PaymentStore) : Prop := {
  ao_nodup : NoDup (pa_attempt_id <$> attempts p);
  ao_owner : Forall (fun a => started (pa_payment_intent_id a) p) (attempts p);
  ao_numbers : forall i k a, attempts_of i p !! k = Some a -> pa_attempt_number a = Z.of_nat k + 1;
  ao_three : forall i, (length (attempts_of i p) <= 3)%nat;
  ao_dead : forall i k a, attempts_of i p !! k = Some a -> (S k < length (attempts_of i p))%nat -> dead a
}.

Lemma attempts_ok_empty : attempts_ok empty_payments.
Proof. split; cbn; [constructor..|done|lia|done]. Qed.

Definition tracked (p : PaymentStore) (t : string * string * Z) : Prop :=
  exists a, get_attempt t.1.1 p = Some a /\ ident_of a = t.

(** The invariant, with the attempts an operation holds in its hands. *)
Definition steady_pay (T : list (string * string * Z)) (p : PaymentStore) : Prop := attempts_ok p /\ Forall (tracked p) T.
Definition steady (T : list (string * string * Z)) (w : World) : Prop := steady_pay T (w_pay w).

Lemma elem_of_attempts_of i p a : a ∈ attempts_of i p <-> a ∈ attempts p /\ pa_payment_intent_id a = i.
Proof.
  unfold attempts_of. rewrite !list_elem_of_In, List.filter_In, has_key_iff. done.
Qed.

Lemma started_owner p a : attempts_ok p -> a ∈ attempts p -> started (pa_payment_intent_id a) p.
Proof. intros Hok. apply (proj1 (Forall_forall _ _) (ao_owner _ Hok)). Qed.

(** An intent in an early state has no attempt. *)
Lemma early_no_attempts p i x :
  attempts_ok p -> get_intent i p = Some x -> pi_status x ∈ early_states -> attempts_of i p = [].
Proof.
  intros Hok Hx Hs. destruct (attempts_of i p) as [|a l] eqn:Hl; [done|exfalso].
  assert (Ha : a ∈ attempts_of i p) by (rewrite Hl; by left). apply elem_of_attempts_of in Ha as [Ha <-].
  destruct (started_owner _ _ Hok Ha) as (y & Hy & Hn). by simplify_eq.
Qed.

(** ** Changes of the store *)

Lemma attempts_ok_intents p p' :
  attempts p' = attempts p -> (forall i, started i p -> started i p') -> attempts_ok p -> attempts_ok p'.
Proof.
  intros Ha Hs Hok. assert (Hof : forall i, attempts_of i p' = attempts_of i p) by (intros i; unfold attempts_of; by rewrite Ha).
  split; [rewrite Ha; apply Hok|rewrite Ha|setoid_rewrite Hof; apply Hok..].
  eapply Forall_impl; [apply (ao_owner _ Hok)|]. auto.
Qed.

Lemma steady_intents T p p' :
  attempts p' = attempts p -> (forall i, started i p -> started i p') -> steady_pay T p -> steady_pay T p'.
Proof.
  intros Ha Hs [Hok HT]. split; [by eapply attempts_ok_intents|]. eapply Forall_impl; [exact HT|].
  intros t (a & Hg & Ht). exists a. split; [|done]. unfold get_attempt in *. by rewrite Ha.
Qed.

(** The attempts of an intent when one attempt is overwritten. *)
Lemma attempts_of_put i r p :
  (forall a, a ∈ attempts p -> pa_attempt_id a = pa_attempt_id r -> pa_payment_intent_id a = pa_payment_intent_id r) ->
  attempts_of i (put_attempt r p) = replace_row pa_attempt_id (pa_attempt_id r) (fun _ => r) (attempts_of i p).
Proof.
  unfold attempts_of, put_attempt, replace_row, has_key. cbn [attempts set_attempts].
  induction (attempts p) as [|a l IH]; [done|]. intros Ho. csimpl.
  specialize (IH ltac:(intros; apply Ho; [by right|done])).
  destruct (String.eqb_spec (pa_attempt_id a) (pa_attempt_id r)) as [He|He].
  - rewrite (Ho a ltac:(by left) He). destruct (String.eqb (pa_payment_intent_id r) i); [|exact IH]. csimpl.
    rewrite (proj2 (String.eqb_eq _ _) He). by f_equal.
  - destruct (String.eqb (pa_payment_intent_id a) i); [|exact IH]. csimpl. rewrite (proj2 (String.eqb_neq _ _) He). by f_equal.
Qed.

Lemma put_attempt_ok p r s :
  get_attempt (pa_attempt_id r) p = Some s -> ident_of r = ident_of s -> (dead s -> dead r) ->
  attempts_ok p -> attempts_ok (put_attempt r p).
Proof.
  intros Hs [= _ Ho Hn] Hd Hok. apply find_key in Hs as [Hin Hid]; [|apply Hok].
  assert (Huniq : forall a, a ∈ attempts p -> pa_attempt_id a = pa_attempt_id r -> a = s).
  { intros a Ha He. eapply (NoDup_fmap_eq pa_attempt_id); [apply (ao_nodup _ Hok)|done..|congruence]. }
  assert (Hof := fun i => attempts_of_put i r p ltac:(intros a Ha He; rewrite (Huniq a Ha He); congruence)).
  assert (Hrow : forall i k a, attempts_of i (put_attempt r p) !! k = Some a ->
    exists a0, attempts_of i p !! k = Some a0 /\ pa_attempt_number a = pa_attempt_number a0 /\ (dead a0 -> dead a)).
  { intros i k a. rewrite Hof. unfold replace_row. rewrite list_lookup_fmap.
    destruct (attempts_of i p !! k) as [a0|] eqn:Hk; [|done]. cbn. intros [= <-]. exists a0. split; [done|].
    destruct (String.eqb_spec (pa_attempt_id a0) (pa_attempt_id r)) as [He|]; [|done].
    apply list_elem_of_lookup_2, elem_of_attempts_of in Hk as [Hk _]. by rewrite (Huniq _ Hk He). }
  assert (Hlen : forall i, length (attempts_of i (put_attempt r p)) = length (attempts_of i p)).
  { intros i. rewrite Hof. unfold replace_row. by rewrite length_fmap. }
  split.
  - cbn [attempts put_attempt set_attempts]. rewrite put_keys. apply Hok.
  - apply Forall_put; [apply (ao_owner _ Hok)|]. rewrite Ho. exact (started_owner _ _ Hok Hin).
  - intros i k a (a0 & Ha0 & -> & _)%Hrow. by eapply (ao_numbers _ Hok).
  - intros i. rewrite Hlen. apply Hok.
  - intros i k a (a0 & Ha0 & _ & Himp)%Hrow. rewrite Hlen. intros Hk. by eapply Himp, (ao_dead _ Hok).
Qed.

(** A new attempt may be made: every earlier one is dead. *)
Definition ready (p : PaymentStore) (i : string) (n : Z) : Prop :=
  Forall dead (attempts_of i p) /\ n = Z.of_nat (length (attempts_of i p)) + 1 /\ n <= 3 /\ started i p.

Lemma attempts_of_snoc i r p p' :
  attempts p' = attempts p ++ [r] ->
  attempts_of i p' = attempts_of i p ++ (if String.eqb (pa_payment_intent_id r) i then [r] else []).
Proof. intros Ha. unfold attempts_of. rewrite Ha, List.filter_app. cbn. unfold has_key. by destruct (String.eqb _ i). Qed.

Lemma started_put i r x p :
  get_intent (pi_payment_intent_id r) p = Some x -> (pi_status x ∉ early_states -> pi_status r ∉ early_states) ->
  started i p -> started i (put_intent r p).
Proof.
  intros Hx Hs (y & Hy & Hn). unfold started. rewrite get_put_intent.
  destruct (String.eqb_spec (pi_payment_intent_id r) i) as [<-|]; rewrite Hy; cbn; [|by exists y].
  simplify_eq. exists r. auto.
Qed.

Lemma insert_attempt_started i r p p' : insert_attempt r p = Ok p' -> started i p -> started i p'.
Proof.
  intros (_ & _ & _ & Hi)%insert_attempt_Ok. destruct Hi as [[_ Hi]|(x & Hx & Hi)].
  - unfold started, get_intent. by rewrite Hi.
  - assert (Hid := get_intent_id _ _ _ Hx).
    intros Hs. apply (started_put _ (pi_set_latest (Some (pa_attempt_id r)) x) x) in Hs; [|cbn; by rewrite Hid|done].
    unfold started, get_intent, put_intent in *. cbn [intents set_intents] in Hs. by rewrite Hi.
Qed.

Lemma insert_attempt_ok r p p' :
  insert_attempt r p = Ok p' -> ready p (pa_payment_intent_id r) (pa_attempt_number r) -> attempts_ok p -> attempts_ok p'.
Proof.
  intros Hins (Hdead & Hn & Hmax & Hst) Hok. pose proof (fun i => insert_attempt_started i _ _ _ Hins) as Hkeep.
  apply insert_attempt_Ok in Hins as (Hnew & Ha & _ & _).
  pose proof (fun i => attempts_of_snoc i r p p' Ha) as Hof. split.
  - rewrite Ha. apply NoDup_fmap_snoc; [apply Hok|]. intros y Hy He. eapply find_None in Hnew; [|exact Hy].
    apply not_true_iff_false in Hnew. by rewrite has_key_iff in Hnew.
  - rewrite Ha. apply Forall_app. split; [|constructor; [by apply Hkeep|done]].
    eapply Forall_impl; [apply (ao_owner _ Hok)|]. auto.
  - intros i k a. rewrite Hof. destruct (String.eqb_spec (pa_payment_intent_id r) i) as [<-|];
      [|rewrite app_nil_r; apply (ao_numbers _ Hok)].
    intros [Hk|[Hk Hr]]%lookup_app_Some; [by eapply (ao_numbers _ Hok)|].
    apply list_lookup_singleton_Some in Hr as [He <-]. rewrite Hn. lia.
  - intros i. rewrite Hof, length_app. pose proof (ao_three _ Hok i). destruct (String.eqb_spec (pa_payment_intent_id r) i);
      subst; cbn; lia.
  - intros i k a. rewrite Hof. destruct (String.eqb_spec (pa_payment_intent_id r) i) as [<-|];
      [|rewrite app_nil_r; apply (ao_dead _ Hok)].
    rewrite length_app. cbn. intros [Hk|[Hk _]]%lookup_app_Some Hlt; [|lia].
    eapply (proj1 (Forall_forall _ _) Hdead), list_elem_of_lookup_2, Hk.
Qed.

Lemma insert_attempt_tracked r p p' t : insert_attempt r p = Ok p' -> tracked p t -> tracked p' t.
Proof.
  intros (_ & Ha & _)%insert_attempt_Ok (a & Hg & Ht). exists a. split; [|done]. unfold get_attempt in *.
  by rewrite Ha, find_snoc, Hg.
Qed.

Lemma put_attempt_tracked r s p t :
  get_attempt (pa_attempt_id r) p = Some s -> ident_of r = ident_of s -> tracked p t -> tracked (put_attempt r p) t.
Proof.
  intros Hs Hi (a & Hg & Ht). unfold tracked. rewrite get_put_attempt, Hg.
  destruct (String.eqb_spec (pa_attempt_id r) t.1.1) as [He|]; cbn; [|by exists a].
  exists r. split; [done|]. rewrite He in Hs. congruence.
Qed.

(** ** Steps *)

Lemma on_pay_steady w T f :
  (forall p', f (w_pay w) = Ok p' -> steady_pay T (w_pay w) -> steady_pay T p') -> from w (keeps (steady T)) (on_pay f).
Proof. apply (on_pay_from w (steady_pay T)). Qed.

Lemma same_pay_steady {A} T (c : keff A) : within same_pay c -> within (keeps (steady T)) c.
Proof. unfold within, keeps, steady. intros Hc w HJ. by rewrite (Hc w). Qed.

Lemma update_intent_steady T r s :
  (s ∉ early_states -> pi_status r ∉ early_states) -> within (keeps (steady T)) (on_pay (update_intent r s)).
Proof.
  intros Hs w. apply on_pay_steady. intros p' (x & Hx & <- & ->)%update_intent_Ok.
  apply steady_intents; [done|]. intros i. by eapply started_put.
Qed.

Lemma insert_intent_steady T r : within (keeps (steady T)) (on_pay (insert_intent r)).
Proof.
  intros w. apply on_pay_steady. unfold insert_intent. intros p' Hu. inv_res. apply steady_intents; [done|].
  intros i (x & Hx & Hn). exists x. split; [|done]. unfold get_intent in *. cbn. by rewrite find_snoc, Hx.
Qed.

Lemma insert_refund_steady T r : within (keeps (steady T)) (on_pay (insert_refund r)).
Proof. intros w. apply on_pay_steady. unfold insert_refund. intros p' Hu. inv_res. by apply steady_intents. Qed.

Lemma update_refund_steady T r s : within (keeps (steady T)) (on_pay (update_refund r s)).
Proof. intros w. apply on_pay_steady. intros p' (x & Hx & _ & ->)%update_refund_Ok. by apply steady_intents. Qed.

(** An attempt in hand is overwritten with the same identity. *)
Lemma update_attempt_steady T r s :
  ident_of r ∈ T -> (s = AUTHORIZATION_FAILED -> dead r) -> within (keeps (steady T)) (on_pay (update_attempt r s)).
Proof.
  intros Hin Hd w. apply on_pay_steady. intros p' (x & Hx & <- & ->)%update_attempt_Ok [Hok HT].
  assert (Hi : ident_of r = ident_of x).
  { destruct (proj1 (Forall_forall _ _) HT _ Hin) as (a & Ha & Hia). cbn in Ha. congruence. }
  split; [by eapply put_attempt_ok|]. eapply Forall_impl; [exact HT|]. intros t. by eapply put_attempt_tracked.
Qed.

(** Taking a stored attempt in hand. *)
Lemma take_attempt {A} w T a (c : keff A) :
  a ∈ attempts (w_pay w) -> from w (keeps (steady (ident_of a :: T))) c -> from w (keeps (steady T)) c.
Proof.
  unfold from, keeps. intros Ha Hc [Hok HT]. destruct Hc as [Hok' HT'].
  - split; [done|]. constructor; [|done]. exists a. split; [|done]. apply find_key; [apply Hok|done].
  - split; [done|]. by apply Forall_cons in HT' as [_ ?].
Qed.

Lemma last_attempt_in i p a : last_attempt i p = Some a -> a ∈ attempts p.
Proof.
  unfold last_attempt, list_attempts. intros Hl%last_Some_elem_of. rewrite sort_by_perm in Hl.
  by apply elem_of_attempts_of in Hl as [? _].
Qed.

(** ** The tables *)

Lemma early_is_left s trig g s' : resolve_in INTENT_TABLE s trig g = Ok s' -> s ∉ early_states -> s' ∉ early_states.
Proof.
  assert (Hall : Forall (fun r => from_state r ∉ early_states -> to_state r ∉ early_states) INTENT_RULES) by check_rows.
  rewrite Forall_forall in Hall. by intros (r & Hr & <- & _ & _ & <-)%resolve_in_row ?; apply Hall.
Qed.

Lemma dead_is_final s trig g s' : resolve_in ATTEMPT_TABLE s trig g = Ok s' -> s <> AUTHORIZATION_FAILED.
Proof.
  assert (Hall : Forall (fun r => from_state r <> AUTHORIZATION_FAILED) ATTEMPT_RULES) by check_rows.
  rewrite Forall_forall in Hall. by intros (r & Hr & <- & _)%resolve_in_row; apply Hall.
Qed.

Lemma failed_is_dead s g s' : resolve_in ATTEMPT_TABLE s "connector_failed" g = Ok s' -> s' = AUTHORIZATION_FAILED.
Proof.
  assert (Hall : Forall (fun r => trigger r = "connector_failed"%string -> to_state r = AUTHORIZATION_FAILED) ATTEMPT_RULES)
    by check_rows.
  rewrite Forall_forall in Hall. intros (r & Hr & _ & Ht & _ & <-)%resolve_in_row. by apply Hall.
Qed.

(** The triggers of a first dispatch. *)
Definition first_triggers : list string := ["preflight_passed"; "action_completed"].

Lemma first_trigger_rows s trig g s' :
  resolve_in INTENT_TABLE s trig g = Ok s' -> trig ∈ first_triggers -> s ∈ early_states /\ s' ∉ early_states.
Proof.
  assert (Hall : Forall (fun r => trigger r ∈ first_triggers -> from_state r ∈ early_states /\ to_state r ∉ early_states)
    INTENT_RULES) by check_rows.
  rewrite Forall_forall in Hall. intros (r & Hr & <- & <- & _ & <-)%resolve_in_row Ht. by apply Hall.
Qed.

Section Attempts.
Context `{HashFn} `{CheckpointSigner} `{Redactor} `{DhakaTz} (exc_text : kexn -> string) (K : Kernel).
Implicit Types (T : list (string * string * Z)).

Lemma audit_append_steady T et st si f t payload now : within (keeps (steady T)) (audit_append K et st si f t payload now).
Proof. apply same_pay_steady, audit_append_pay. Qed.
Lemma on_led_steady T {A} (f : Store -> LedgerStore.outcome A) : within (keeps (steady T)) (on_led f).
Proof. apply same_pay_steady, on_led_pay. Qed.
Lemma emit_steady T et intent payload st si topic now : within (keeps (steady T)) (_emit et intent payload st si topic now).
Proof. apply same_pay_steady, emit_pay. Qed.
Lemma call_rail_steady T c : within (keeps (steady T)) (call_rail c).
Proof. by intros w HJ. Qed.
Lemma port_audits_steady T e : within (keeps (steady T)) (port_audits K e).
Proof. by intros w HJ. Qed.
Lemma port_post_steady T spec now : within (keeps (steady T)) (port_post K spec now).
Proof. apply same_pay_steady, port_post_pay. Qed.

Lemma advance_intent_steady T intent trig g d stamp now :
  (forall r, pi_status (stamp r) = pi_status r) -> within (keeps (steady T)) (_advance_intent K intent trig g d stamp now).
Proof.
  intros Hs. unfold _advance_intent. repeat walk_step; [|apply audit_append_steady]. built.
  apply update_intent_steady. rewrite Hs. by eapply early_is_left.
Qed.

Lemma advance_refund_steady T refund trig now : within (keeps (steady T)) (_advance_refund K refund trig now).
Proof.
  unfold _advance_refund. repeat walk_step; [apply update_refund_steady|apply audit_append_steady].
Qed.

Lemma advance_attempt_steady T a trig g stamp now :
  ident_of a ∈ T -> (forall r, ident_of (stamp r) = ident_of r) ->
  within (keeps (steady T)) (_advance_attempt K a trig g stamp now).
Proof.
  intros Ha Hs. unfold _advance_attempt. repeat walk_step; [|apply audit_append_steady]. built.
  apply update_attempt_steady; [by rewrite Hs|]. intros Hd. exfalso. by eapply dead_is_final.
Qed.

Lemma advance_attempt_ident a trig g stamp now :
  (forall r, ident_of (stamp r) = ident_of r) ->
  yields (_advance_attempt K a trig g stamp now) (fun r => ident_of r = ident_of a).
Proof. intros Hs w r w' (to & x & _ & -> & _)%advance_attempt_Ok. by rewrite Hs. Qed.

Lemma same_intent_steady T r s : pi_status r = s -> within (keeps (steady T)) (on_pay (update_intent r s)).
Proof. intros <-. by apply update_intent_steady. Qed.
Lemma same_attempt_steady T r s :
  ident_of r ∈ T -> pa_status r = s -> within (keeps (steady T)) (on_pay (update_attempt r s)).
Proof. intros Hr <-. by apply update_attempt_steady. Qed.

Hint Resolve audit_append_steady on_led_steady emit_steady call_rail_steady port_audits_steady port_post_steady
  advance_intent_steady advance_refund_steady same_intent_steady insert_intent_steady insert_refund_steady : attempts.
Ltac same_ident := repeat match goal with E : ident_of ?r = _ |- ident_of ?s ∈ _ =>
  change (ident_of s) with (ident_of r); rewrite E; clear E end; by left.
Hint Extern 1 (_ ∈ _) => same_ident : attempts.
Hint Resolve advance_attempt_steady same_attempt_steady : attempts.

(** Walk; after an attempt has advanced, the record in hand has the same identity. *)
Ltac walk := autounfold with orch;
  repeat first [
    match goal with |- within _ (ebind (_advance_attempt _ _ _ _ _ _) _) =>
      eapply within_bind_yields; [apply _| |by apply advance_attempt_ident|intros ?; let E := fresh in intros E; cbv beta in E] end
  | walk_step; built]; auto with attempts.

Lemma post_fee_steady T intent attempt acc fee rule now : within (keeps (steady T)) (post_fee K intent attempt acc fee rule now).
Proof. unfold post_fee. walk. Qed.
Lemma failure_steady T intent attempt now x :
  within (keeps (steady T)) (_record_ledger_post_failure exc_text intent attempt now x).
Proof. unfold _record_ledger_post_failure. walk. Qed.
Lemma succeed_steady T intent attempt trig fee rule now :
  within (keeps (steady T)) (succeed K intent attempt trig fee rule now).
Proof. unfold succeed. walk. Qed.
Hint Resolve post_fee_steady failure_steady succeed_steady : attempts.
Lemma settle_charge_steady T e intent attempt trig : within (keeps (steady T)) (_settle_charge exc_text K e intent attempt trig).
Proof. unfold _settle_charge. walk. Qed.
Lemma settle_authorized_steady T e intent attempt trig :
  within (keeps (steady T)) (_settle_authorized_charge exc_text K e intent attempt trig).
Proof. unfold _settle_authorized_charge. walk. Qed.
Hint Resolve settle_charge_steady settle_authorized_steady : attempts.

(** ** Dispatch *)

(** The attempts are untouched and what has started stays started. *)
Definition calm (w w' : World) : Prop :=
  attempts (w_pay w') = attempts (w_pay w) /\ forall i, started i (w_pay w) -> started i (w_pay w').

#[export] Instance calm_preorder : PreOrder calm.
Proof. split; [by split|]. intros w1 w2 w3 [H12 S12] [H23 S23]. split; [congruence|auto]. Qed.

Lemma ready_calm w w' i n : calm w w' -> ready (w_pay w) i n -> ready (w_pay w') i n.
Proof. intros [Ha Hs] (Hd & Hn & Hm & Hst). unfold ready, attempts_of in *. rewrite Ha. auto. Qed.

Lemma same_pay_calm w w' : w_pay w' = w_pay w -> calm w w'.
Proof. intros He. split; by rewrite He. Qed.

Lemma update_intent_calm r s :
  (s ∉ early_states -> pi_status r ∉ early_states) -> within calm (on_pay (update_intent r s)).
Proof.
  intros Hs w. unfold on_pay. destruct (update_intent r s (w_pay w)) as [p'|] eqn:Hu; [|reflexivity].
  apply update_intent_Ok in Hu as (x & Hx & <- & ->). split; [done|]. intros i. by eapply started_put.
Qed.

Lemma audit_append_calm et st si f t payload now : within calm (audit_append K et st si f t payload now).
Proof. intros w. apply same_pay_calm, audit_append_pay. Qed.

Lemma advance_intent_calm intent trig now : within calm (_advance_intent K intent trig None false id now).
Proof.
  unfold _advance_intent. repeat walk_step; [|apply audit_append_calm]. built.
  apply update_intent_calm. cbn. by eapply early_is_left.
Qed.

Lemma insert_attempt_from w T r :
  ready (w_pay w) (pa_payment_intent_id r) (pa_attempt_number r) -> from w (keeps (steady T)) (on_pay (insert_attempt r)).
Proof.
  intros Hr. apply on_pay_steady. intros p' Hi [Hok HT]. split; [by eapply insert_attempt_ok|].
  eapply Forall_impl; [exact HT|]. intros t. by eapply insert_attempt_tracked.
Qed.

Lemma insert_attempt_in r w u w' : on_pay (insert_attempt r) w = (Ok u, w') -> r ∈ attempts (w_pay w').
Proof.
  intros (p' & (_ & Ha & _)%insert_attempt_Ok & ->)%on_pay_Ok. cbn. rewrite Ha. apply elem_of_app. right. by left.
Qed.

Lemma dispatch_from w T e intent n :
  ready (w_pay w) (pi_payment_intent_id intent) n -> from w (keeps (steady T)) (_dispatch K e intent n).
Proof.
  intros Hready. unfold _dispatch. do 3 from_step; [apply from_within; walk|].
  match goal with |- from _ _ (ebind ?c _) =>
    assert (Hc : within calm c /\ within (keeps (steady T)) c /\
      yields c (fun r => pi_payment_intent_id r = pi_payment_intent_id intent)) end.
  { destruct (pi_deferred_until intent); split_and!; repeat walk_step; built; auto with attempts.
    - by apply update_intent_calm.
    - intros w0 r w' Hr. inv_eff. by apply intent_post_init_Ok in E as [-> _].
    - intros w0 r w' Hr. by inv_eff. }
  destruct Hc as (Hcalm & Hst & Hid). apply from_bind; [apply _|by apply from_within|]. intros r w1 Hr.
  assert (Hready1 : ready (w_pay w1) (pi_payment_intent_id r) n).
  { rewrite (Hid _ _ _ Hr). eapply ready_calm; [|exact Hready]. specialize (Hcalm w). by rewrite Hr in Hcalm. }
  clear Hr Hready Hcalm Hst Hid. repeat from_step. built.
  apply from_bind; [apply _|by apply insert_attempt_from|]. intros u w2 Hi%insert_attempt_in.
  eapply take_attempt; [exact Hi|]. apply from_within. walk.
Qed.

(** ** Coroutines in flight *)

Definition in_flight (f : flight) (w : World) : Prop :=
  match f with
  | FSubmit i a => tracked (w_pay w) (ident_of a) /\ pi_payment_intent_id i = pa_payment_intent_id a
  | FQuery _ | FReverse _ | FRefund _ => True
  end.

(** The coroutine a call leaves behind holds an attempt that is stored. *)
Definition lands {A} (waiting : A -> option flight) (c : keff A) : Prop :=
  forall w a w' f, c w = (Ok a, w') -> waiting a = Some f -> in_flight f w'.

Definition waits {A} (p : progress A) : option flight := match p with Done _ => None | Waiting f => Some f end.

Lemma lands_bind {A B} (waiting : B -> option flight) (c : keff A) (k : A -> keff B) :
  (forall a, lands waiting (k a)) -> lands waiting (ebind c k).
Proof. intros Hk w b w' f Hc Hf. inv_eff. by eapply Hk. Qed.

Lemma lands_map {A B} (waiting : A -> option flight) (waiting' : B -> option flight) (c : keff A) (g : A -> B) :
  lands waiting c -> (forall a, waiting' (g a) = waiting a) -> lands waiting' (do* a := c in eret (g a)).
Proof. intros Hc Hg w b w' f Hr Hf. inv_eff. rewrite Hg in Hf. by eapply Hc. Qed.

Lemma lands_ret {A} (waiting : A -> option flight) (a : A) : (forall f, waiting a = Some f -> forall w, in_flight f w) ->
  lands waiting (eret a).
Proof. intros Ha w b w' f Hr Hf. inv_eff. by apply Ha. Qed.

Lemma lands_lift {A} (waiting : A -> option flight) x : lands waiting (elift (Err x)).
Proof. intros w b w' f Hr. by inv_eff. Qed.

Lemma dispatch_lands e intent n : lands waits (_dispatch K e intent n).
Proof.
  unfold _dispatch. do 2 (apply lands_bind; intros ?). destruct (String.eqb _ _).
  { repeat (apply lands_bind; intros ?). by apply lands_ret. }
  apply lands_bind. intros i0. do 3 (apply lands_bind; intros ?). intros w p w' f Hr Hf. inv_eff.
  injection Hf as <-. apply attempt_post_init_Ok in E as ->. apply intent_post_init_Ok in E1 as [-> _].
  apply advance_attempt_Ok in E2 as (to & x & _ & -> & Hx & _ & Hp).
  injection E3 as _ <-. cbn [in_flight w_pay]. split; [|done]. rewrite Hp. unfold tracked.
  rewrite get_put_attempt. cbn [ident_of fst pa_attempt_id id pa_set_status] in *. rewrite String.eqb_refl, Hx. eauto.
Qed.

(** ** The two ways to a dispatch *)

(** Leaving the early states: there is no attempt yet. *)
Lemma first_dispatch {B} T intent trig now (k : PaymentIntentRecord -> keff B) :
  trig ∈ first_triggers ->
  (forall w x, ready (w_pay w) (pi_payment_intent_id x) 1 -> from w (keeps (steady T)) (k x)) ->
  within (keeps (steady T)) (ebind (_advance_intent K intent trig None false id now) k).
Proof.
  intros Ht Hk w HJ. rewrite ebind_eq.
  pose proof (advance_intent_steady T intent trig None false id now ltac:(done) w HJ) as HJ'.
  destruct (_advance_intent K intent trig None false id now w) as [[x|e] w'] eqn:Ha; [|exact HJ'].
  apply (Hk w' x); [|exact HJ']. clear HJ' Hk.
  apply advance_intent_Ok in Ha as (to & y & Hr & -> & _ & Hy & Hs & Hp). cbn [id pi_set_status pi_payment_intent_id] in *.
  destruct (first_trigger_rows _ _ _ _ Hr Ht) as [Hearly Hto]. rewrite <- Hs in Hearly.
  pose proof (early_no_attempts _ _ _ (proj1 HJ) Hy Hearly) as Hnone.
  rewrite Hp. unfold ready. change (attempts_of ?i (put_intent ?r ?p)) with (attempts_of i p). rewrite Hnone.
  split_and!; [constructor|done|lia|]. unfold started. rewrite get_put_intent. cbn. rewrite String.eqb_refl, Hy. cbn. eauto.
Qed.

(** The live attempt is the last one. *)
Lemma live_is_last p i k a : attempts_ok p -> attempts_of i p !! k = Some a -> ~ dead a ->
  length (attempts_of i p) = S k /\ pa_attempt_number a = Z.of_nat (length (attempts_of i p)).
Proof.
  intros Hok Hk Hd. assert (length (attempts_of i p) = S k) as ->.
  { pose proof (lookup_lt_Some _ _ _ Hk). destruct (decide (S k < length (attempts_of i p))%nat) as [Hlt|]; [|lia].
    exfalso. by apply Hd, (ao_dead _ Hok _ _ _ Hk). }
  split; [done|]. rewrite (ao_numbers _ Hok _ _ _ Hk). lia.
Qed.

Lemma failed_ready T a g stamp now w r w1 :
  steady T w -> ident_of a ∈ T ->
  (forall x, ident_of (stamp x) = ident_of x /\ pa_status (stamp x) = pa_status x) ->
  _advance_attempt K a "connector_failed" g stamp now w = (Ok r, w1) -> pa_attempt_number a < 3 ->
  ready (w_pay w1) (pa_payment_intent_id a) (pa_attempt_number a + 1).
Proof.
  intros [Hok HT] Hin Hst Ha Hlt. apply advance_attempt_Ok in Ha as (to & x & Hr & Heq & Hx & Hsx & ->).
  pose proof (proj1 (Forall_forall _ _) HT _ Hin) as (x' & Hx' & Hix). cbn [ident_of fst] in Hx'.
  destruct (Hst (pa_set_status to now a)) as [Hir Hsr]. rewrite <- Heq in Hir, Hsr.
  assert (Hdr : dead r) by (unfold dead; rewrite Hsr; exact (failed_is_dead _ _ _ Hr)).
  pose proof (f_equal (fun t => t.1.1) Hir) as Hidr. cbn in Hidr. rewrite Hidr in Hx. replace x' with x in * by congruence.
  pose proof (dead_is_final _ _ _ _ Hr) as Hlive. rewrite <- Hsx in Hlive. clear Hr Hst HT Hin Heq Hx'.
  apply find_key in Hx as [Hxin Hxid]; [|apply Hok].
  pose proof (f_equal (fun t => t.1.2) Hix) as Hox. pose proof (f_equal snd Hix) as Hnx. cbn in Hox, Hnx.
  assert (Hxi : x ∈ attempts_of (pa_payment_intent_id a) (w_pay w)) by (by apply elem_of_attempts_of).
  apply list_elem_of_lookup in Hxi as [k Hk].
  destruct (live_is_last _ _ _ _ Hok Hk Hlive) as [Hlen Hnum].
  assert (Hof : attempts_of (pa_payment_intent_id a) (put_attempt r (w_pay w)) =
    replace_row pa_attempt_id (pa_attempt_id r) (fun _ => r) (attempts_of (pa_payment_intent_id a) (w_pay w))).
  { apply attempts_of_put. intros y Hy Hye. replace y with x; [pose proof (f_equal (fun t => t.1.2) Hir); cbn in *; congruence|].
    eapply (NoDup_fmap_eq pa_attempt_id); [apply (ao_nodup _ Hok)|done..|congruence]. }
  unfold ready. rewrite Hof. unfold replace_row. rewrite length_fmap, <- Hnum, Hnx. split_and!; [|done|lia|].
  - apply Forall_fmap, Forall_lookup. intros j y Hj. cbn. destruct (String.eqb_spec (pa_attempt_id y) (pa_attempt_id r)); [done|].
    apply (ao_dead _ Hok _ _ _ Hj). pose proof (lookup_lt_Some _ _ _ Hj). destruct (decide (j = k)) as [->|]; [congruence|lia].
  - rewrite <- Hox. exact (started_owner _ _ Hok Hxin).
Qed.

Lemma failed_dispatch {B} T a stamp now (k : PaymentAttemptRecord -> keff B) :
  ident_of a ∈ T -> (forall x, ident_of (stamp x) = ident_of x /\ pa_status (stamp x) = pa_status x) ->
  (forall w r, ident_of r = ident_of a ->
     (pa_attempt_number a < 3 -> ready (w_pay w) (pa_payment_intent_id a) (pa_attempt_number a + 1)) ->
     from w (keeps (steady T)) (k r)) ->
  within (keeps (steady T)) (ebind (_advance_attempt K a "connector_failed" None stamp now) k).
Proof.
  intros Ha Hs Hk w HJ. rewrite ebind_eq.
  assert (Hi : forall r, ident_of (stamp r) = ident_of r) by (intros r; apply Hs).
  pose proof (advance_attempt_steady T a "connector_failed" None stamp now Ha Hi w HJ) as HJ'.
  destruct (_advance_attempt K a _ None stamp now w) as [[r|x] w'] eqn:Hr; [|exact HJ'].
  apply (Hk w' r); [eapply advance_attempt_ident; [exact Hi|exact Hr]| |exact HJ'].
  eapply failed_ready; [exact HJ|exact Ha|exact Hs|exact Hr].
Qed.

(** ** The operations *)

Lemma apply_connector_result_steady T e intent attempt result :
  ident_of attempt ∈ T -> pi_payment_intent_id intent = pa_payment_intent_id attempt ->
  within (keeps (steady T)) (_apply_connector_result exc_text K e intent attempt result).
Proof.
  intros Ht Hid. unfold _apply_connector_result, _open_authorization_hold.
  apply within_bind_lift; [apply _|]. intros a Ha. apply attempt_post_init_Ok in Ha as ->.
  match goal with |- context [pa_set_reply ?x ?y ?z ?n attempt] => set (a := pa_set_reply x y z n attempt) end.
  assert (Hia : ident_of a ∈ T) by done. destruct (cr_status result) eqn:Hcr.
  3: { apply failed_dispatch; [done|done|]. intros w r Hr Hready.
    injection Hr as _ Ho Hn. rewrite Hn. from_step; [|apply from_within; walk].
    apply from_bind; [apply _|apply from_within; unfold advance_intent; auto with attempts|]. intros x w' Hx. unfold advance_intent in Hx.
    apply dispatch_from. eapply ready_calm.
    - pose proof (advance_intent_calm intent "attempt_failed_retryable" (e_now e) w) as Hc.
      by rewrite Hx in Hc.
    - apply advance_intent_Ok in Hx as (to & y & _ & -> & _). cbn. rewrite Hid. apply Hready.
      unfold MAX_ATTEMPTS_PER_INTENT in *. by bool_prop. }
  all: walk.
Qed.

Lemma apply_status_poll_result_steady T e a result : within (keeps (steady T)) (_apply_status_poll_result exc_text K e a result).
Proof.
  apply within_from. intros w. unfold _apply_status_poll_result. do 2 from_step; [|by apply from_within, within_lift, _].
  match goal with Hg : get_attempt _ _ = Some _ |- _ => apply find_Some in Hg as [Hin _] end.
  eapply take_attempt; [exact Hin|]. apply from_within. walk.
Qed.

Lemma execute_reversal_steady T e i reason : within (keeps (steady T)) (execute_reversal K e i reason).
Proof. unfold execute_reversal, _claim_reversal_dispatch. walk. Qed.

Lemma apply_reversal_result_steady T e i result : within (keeps (steady T)) (_apply_reversal_result K e i result).
Proof.
  apply within_from. intros w. unfold _apply_reversal_result. do 4 from_step; [|by apply from_within, within_lift, _].
  match goal with Hg : last_attempt _ _ = Some _ |- _ => apply last_attempt_in in Hg as Hin end.
  eapply take_attempt; [exact Hin|]. apply from_within. unfold _post_reversal_entries. walk.
Qed.

Lemma apply_refund_result_steady T e r result : within (keeps (steady T)) (_apply_refund_result K e r result).
Proof. unfold _apply_refund_result, _return_intent_after_refund_failure, _post_refund_entries. walk. Qed.

Lemma capture_steady T e i amount : within (keeps (steady T)) (capture exc_text K e i amount).
Proof.
  apply within_from. intros w. unfold capture. do 4 from_step; [|by apply from_within, within_lift, _].
  match goal with Hg : last_attempt _ _ = Some _ |- _ => apply last_attempt_in in Hg as Hin end.
  eapply take_attempt; [exact Hin|]. apply from_within. walk.
Qed.

Lemma void_steady T e intent : within (keeps (steady T)) (_void K e intent).
Proof.
  apply within_from. intros w. unfold _void. from_step. apply from_bind; [apply _| |intros; apply from_within; walk].
  from_step; [|by apply from_within, within_ret, _].
  match goal with Hg : last_attempt _ _ = Some _ |- _ => apply last_attempt_in in Hg as Hin end.
  eapply take_attempt; [exact Hin|]. apply from_within. walk.
Qed.

Ltac first := match goal with |- within _ (ebind (_advance_intent _ _ _ None false id _) _) =>
  apply first_dispatch; [by_compute|intros ? ? ?] end.

(** The end of a first dispatch. *)
Lemma emit_then_dispatch_from {A} w T e x (payload : list (string * pyobj)) (k : progress PaymentIntentRecord -> keff A) :
  ready (w_pay w) (pi_payment_intent_id x) 1 -> (forall p, within (keeps (steady T)) (k p)) ->
  from w (keeps (steady T)) (do* _ := emit "payment_intent.processing" x payload (e_now e) in
                             do* p := _dispatch K e x 1 in k p).
Proof.
  intros Hr Hk. apply from_bind; [apply _|by apply from_within, emit_steady|]. intros u w' Hu.
  apply from_bind; [apply _| |intros; apply from_within, Hk]. apply dispatch_from. eapply ready_calm; [|exact Hr].
  apply same_pay_calm. eapply within_pay_eq; [|exact Hu]. apply emit_pay.
Qed.

Lemma confirm_steady T e i details credits : within (keeps (steady T)) (confirm K e i details credits).
Proof.
  unfold confirm, advance_intent. repeat first [first; apply emit_then_dispatch_from; [done|] | walk_step]; autounfold with orch; walk.
Qed.

Lemma complete_action_steady T e i success : within (keeps (steady T)) (complete_action K e i success).
Proof.
  unfold complete_action, advance_intent. repeat first [first; apply emit_then_dispatch_from; [done|] | walk_step]; autounfold with orch; walk.
Qed.

Lemma inbound_steady T e c result : within (keeps (steady T)) (apply_inbound_connector_result exc_text K e c result).
Proof.
  apply within_from. intros w. unfold apply_inbound_connector_result. do 2 from_step.
  - match goal with Hg : find_attempt_by_connector_ref _ _ _ = Some ?x |- _ => apply find_Some in Hg as [Hin _]; rename x into a end.
    eapply take_attempt; [exact Hin|]. repeat from_step; try (apply from_within; walk; fail).
    + match goal with Hg : get_intent _ _ = Some _ |- _ => apply get_intent_id in Hg as Hid end.
      apply from_within, within_bind; [apply _|apply apply_connector_result_steady; [by left|done]|intros; by apply within_ret, _].
    + apply from_within, within_bind; [apply _|apply apply_status_poll_result_steady|intros; by apply within_ret, _].
  - apply from_within. walk. apply apply_refund_result_steady.
Qed.

Hint Resolve apply_status_poll_result_steady execute_reversal_steady apply_reversal_result_steady
  apply_refund_result_steady capture_steady void_steady confirm_steady complete_action_steady inbound_steady : attempts.

Lemma invoke_steady T e c : within (keeps (steady T)) (invoke exc_text K e c).
Proof.
  destruct c; cbn [invoke]; unfold ended, suspended; (apply within_bind; [apply _| |intros; by apply within_ret, _]);
    auto with attempts.
  - unfold create_intent. walk.
  - unfold supply_method. walk. apply update_intent_steady. by eapply early_is_left.
  - unfold cancel. walk.
  - apply within_sweep; [apply _|]. intros i. unfold sweep_one. walk.
  - unfold poll_timed_out_attempt. walk.
  - unfold confirm_delivery. walk.
  - unfold create_refund. walk.
  - unfold process_refund. walk.
  - apply within_reversal_loop; auto with attempts typeclass_instances.
Qed.

(** ** What the calls leave in flight *)

Ltac land_step :=
  match goal with
  | |- lands _ (_dispatch _ _ _ _) => apply dispatch_lands
  | |- lands _ (do* p := _dispatch _ _ _ _ in eret _) => eapply lands_map; [apply dispatch_lands|by intros []]
  | |- lands _ (ebind _ _) => apply lands_bind; intros ?
  | |- lands _ (elift (Err _)) => apply lands_lift
  | |- lands _ (eret _) => apply lands_ret; intros ? Hw ?; first [discriminate Hw|injection Hw as <-; exact I]
  | |- lands _ (if ?b then _ else _) => destruct b
  | |- lands _ (match ?x with _ => _ end) => destruct x
  | |- lands _ (let _ := _ in _) => cbv zeta
  end.

Lemma apply_connector_result_lands e intent attempt result :
  lands waits (_apply_connector_result exc_text K e intent attempt result).
Proof. unfold _apply_connector_result. repeat land_step. Qed.

Lemma ended_lands {A} (c : keff A) : lands id (ended c).
Proof. unfold ended. repeat land_step. Qed.

Lemma suspended_lands {A} (c : keff (progress A)) : lands waits c -> lands id (suspended c).
Proof. intros Hc. unfold suspended. eapply lands_map; [exact Hc|by intros []]. Qed.

Lemma invoke_lands e c : lands id (invoke exc_text K e c).
Proof.
  destruct c; cbn [invoke]; first [apply ended_lands|apply suspended_lands].
  - unfold confirm. repeat land_step.
  - unfold complete_action. repeat land_step.
  - unfold execute_reversal. repeat land_step.
  - unfold poll_timed_out_attempt. repeat land_step.
  - unfold process_refund. repeat land_step.
  - unfold apply_inbound_connector_result, skipped. repeat first [
      match goal with |- lands _ (do* r := _apply_connector_result _ _ _ _ _ _ in _) =>
        eapply lands_map; [apply apply_connector_result_lands|by intros []] end | land_step].
Qed.

Lemma resume_lands e f reply : lands id (resume exc_text K e f reply).
Proof.
  unfold resume. destruct reply; [|apply lands_lift]. destruct f; [|repeat land_step..].
  eapply lands_map; [apply apply_connector_result_lands|by intros []].
Qed.

(** A flight stays valid while every tracked attempt stays. *)
Lemma in_flight_kept f w w' : (forall T, keeps (steady T) w w') -> steady [] w -> in_flight f w -> in_flight f w'.
Proof.
  destruct f as [i a| | |]; [|done..]. intros Hk [Hok _] [Ht Hid]. split; [|done].
  destruct (Hk [ident_of a]) as [_ HT]; [by split; [|constructor]|]. by apply Forall_cons in HT as [? _].
Qed.

Lemma launched_in_flight (c : keff (option flight)) w r w' :
  lands id c -> c w = (r, w') -> Forall (fun f => in_flight f w') (launched r).
Proof.
  intros Hl Hc. destruct r as [[f|]|x]; cbn; [|constructor..]. constructor; [|constructor].
  by apply (Hl w (Some f) w' f).
Qed.

Lemma resume_steady T e f reply w :
  in_flight f w -> from w (keeps (steady T)) (resume exc_text K e f reply).
Proof.
  intros Hf. unfold resume. destruct reply as [result|]; [|apply from_within, within_lift, _].
  destruct f as [i a| | |]; [|apply from_within; walk..].
  destruct Hf as [Ht Hid]. intros [Hok HT].
  destruct (within_bind (keeps (steady (ident_of a :: T))) (_apply_connector_result exc_text K e i a result)
    (fun p => eret (match p with Done _ => None | Waiting f' => Some f' end))
    (apply_connector_result_steady _ e i a result ltac:(by left) Hid) ltac:(intros; by apply within_ret, _) w) as [Hok' HT'].
  - split; [done|by constructor].
  - split; [done|]. by apply Forall_cons in HT' as [_ ?].
Qed.

Lemma history_attempts actions : attempts_ok (w_pay (m_world (history exc_text K actions))).
Proof.
  refine (proj1 (proj1 (history_inv exc_text K (steady []) in_flight _ _ _ _ _ _ _ actions))).
  - split; [apply attempts_ok_empty|constructor].
  - intros e c w r w' HJ Hi. split; [|by eapply launched_in_flight; [apply invoke_lands|exact Hi]].
    pose proof (invoke_steady [] e c w HJ) as HJ'. by rewrite Hi in HJ'.
  - intros e f reply w r w' HJ Hf Hi. split; [|by eapply launched_in_flight; [apply resume_lands|exact Hi]].
    pose proof (resume_steady [] e f reply w Hf HJ) as HJ'. by rewrite Hi in HJ'.
  - done.
  - intros f e c w HJ. apply in_flight_kept; [|done]. intros T. apply invoke_steady.
  - intros f e g reply w HJ Hf Hg. revert Hf. apply in_flight_kept; [|done]. intros T. by apply resume_steady.
  - done.
Qed.

Lemma numbered_sorted (l : list PaymentAttemptRecord) c :
  (forall k a, l !! k = Some a -> pa_attempt_number a = Z.of_nat k + c) ->
  StronglySorted (fun a b => pa_attempt_number a <= pa_attempt_number b) l.
Proof.
  revert c. induction l as [|x l IH]; intros c Hn; constructor.
  - apply (IH (c + 1)). intros k a Hk. rewrite (Hn (S k) a Hk). lia.
  - apply Forall_lookup. intros k a Hk. rewrite (Hn O x eq_refl), (Hn (S k) a Hk). lia.
Qed.

Lemma attempts_in_order p i : attempts_ok p -> list_attempts i p = attempts_of i p.
Proof.
  intros Hok. unfold list_attempts. fold (attempts_of i p). apply sort_by_id.
  exact (numbered_sorted _ 1 (ao_numbers _ Hok i)).
Qed.

(** C6: one charge per payment.  In every history, with results, late callbacks and
    polls interleaved in any order: an intent has at most three attempts, they
    are numbered from 1 in the order of [list_attempts], every one but the last
    has ended in [AUTHORIZATION_FAILED], and so at most one attempt is
    [CHARGED] (or can ever be). *)
Theorem one_live_attempt_per_intent actions i :
  let l := list_attempts i (w_pay (m_world (history exc_text K actions))) in
  (length l <= 3)%nat /\
  (forall k a, l !! k = Some a -> pa_attempt_number a = Z.of_nat k + 1) /\
  (forall a, a ∈ l -> pa_status a = "AUTHORIZATION_FAILED"%string \/ last l = Some a) /\
  (forall a b, a ∈ l -> b ∈ l -> pa_status a = "CHARGED"%string -> pa_status b = "CHARGED"%string -> a = b).
Proof.
  pose proof (history_attempts actions) as Hok. cbv zeta. rewrite attempts_in_order by done.
  set (l := attempts_of i _).
  assert (Hdead : forall a, a ∈ l -> pa_status a = "AUTHORIZATION_FAILED"%string \/ last l = Some a).
  { intros a [k Hk]%list_elem_of_lookup. destruct (decide (S k < length l)%nat) as [Hlt|Hge].
    - left. by apply (ao_dead _ Hok _ _ _ Hk).
    - right. rewrite last_lookup. pose proof (lookup_lt_Some _ _ _ Hk). by replace (pred (length l)) with k by lia. }
  split_and!; [apply Hok|apply (ao_numbers _ Hok)|exact Hdead|]. intros a b Ha Hb Hca Hcb.
  destruct (Hdead a Ha), (Hdead b Hb); congruence.
Qed.
End Attempts.
