(* ===== verification/KernelBooks.v ===== *)
(** A payment that succeeded is in the books: in every history the ledger holds a
    capture entry for each intent in a captured state. *)
From S2P Require Import Prelude Effects Rows Exceptions DateTime Sha256 Canonical LedgerTypes LedgerStore HashChain LedgerService LedgerCommit ChainInvariant JournalCommit LedgerInvariant LedgerOps LedgerHistory LedgerHolds.
From S2P Require Import Outbox Fsm PaymentStates Money Fees Calendar KernelModels Preflight Sdk Orchestrator KernelMachine KernelMoves KernelSteps.
Open Scope Z_scope.

Create HintDb books.

(** The capture entry of an intent: posted at the charge, or closing its hold. *)
Definition booked (s : Store) (i : string) : Prop :=
  exists je row, s_journal s !! je = Some row /\ je_reference_id row = i /\
    (je_entry_type row = "payment_captured"%string \/ je_entry_type row = "hold_captured"%string).

Lemma booked_extends s s' i : extends s s' -> booked s i -> booked s' i.
Proof. intros He (je & row & Hj & Hr). exists je, row. split; [|done]. eapply lookup_weaken; [exact Hj|apply He]. Qed.

(** The triggers that enter the captured states. *)
Definition capture_triggers : list string := ["attempt_charged"; "capture_requested"].

Lemma not_captured_yet s trig g s' :
  resolve_in INTENT_TABLE s trig g = Ok s' -> trig ∉ capture_triggers -> s' ∈ captured_states -> s ∈ captured_states.
Proof.
  assert (Hall : Forall (fun r => trigger r ∉ capture_triggers -> to_state r ∈ captured_states -> from_state r ∈ captured_states)
    INTENT_RULES) by check_rows.
  rewrite Forall_forall in Hall. intros (r & Hr & <- & <- & _ & <-)%resolve_in_row. by apply Hall.
Qed.

Section Books.
Context `{HashFn} `{CheckpointSigner} `{Redactor} `{DhakaTz} (exc_text : kexn -> string) (K : Kernel).
Hypothesis Hint : 0 < cfg_interval (k_cfg K).

Record books_held (w : World) : Prop := {
  bk_ledger : ledger_inv (k_cfg K) (w_led w);
  bk_booked : forall i x, get_intent i (w_pay w) = Some x -> pi_status x ∈ captured_states -> booked (w_led w) i
}.

(** ** Ledger steps *)

Lemma on_led_books {A} (f : Store -> LedgerStore.outcome A) :
  (forall s, exists op, (f s).2 = run (k_cfg K) s op) -> within (keeps books_held) (on_led f).
Proof.
  intros Hf w [Hl Hb]. unfold on_led. destruct (Hf (w_led w)) as [op Hop]. destruct (f (w_led w)) as [r s']. cbn in Hop. subst s'.
  split; cbn; [by apply run_inv|]. intros i x Hx Hs. eapply booked_extends; [apply run_extends|by eapply Hb].
Qed.

Lemma audit_append_books et st si f t payload now : within (keeps books_held) (audit_append K et st si f t payload now).
Proof.
  unfold audit_append. repeat walk_step. apply on_led_books. intros s. by eexists (OpWriteAuditEvent _ None now).
Qed.
Lemma port_post_books spec now : within (keeps books_held) (port_post K spec now).
Proof. unfold port_post. repeat walk_step. apply on_led_books. intros s. by eexists (OpPostJournalEntry _ _). Qed.
Lemma open_hold_books a m reason ref src rsv exp now :
  within (keeps books_held) (on_led (fun s => open_hold (k_cfg K) s a m reason ref src rsv exp now)).
Proof. apply on_led_books. intros s. by eexists (OpOpenHold _ _ _ _ _ _ _ _). Qed.
Lemma release_hold_books h outcome m now :
  within (keeps books_held) (on_led (fun s => release_hold (k_cfg K) s h outcome m now)).
Proof. apply on_led_books. intros s. by eexists (OpReleaseHold _ _ _ _). Qed.

Lemma port_audits_books e : within (keeps books_held) (port_audits K e).
Proof.
  intros [p led box rail] HJ. unfold port_audits. cbn [w_pay w_led w_box w_rail]. revert led HJ.
  induction (e_port_audits e) as [|spec l IH]; intros s HJ; [done|]. cbn [foldl]. apply IH. destruct HJ as [Hl Hb].
  split; [by apply (run_inv _ Hint _ (OpWriteAuditEvent spec None (e_now e)))|]. cbn. intros i x Hx Hs.
  eapply booked_extends; [apply (run_extends _ _ (OpWriteAuditEvent spec None (e_now e)))|by eapply Hb].
Qed.

(** Steps that touch neither the ledger nor the intents. *)
Lemma same_intents_books {A} (c : keff A) :
  (forall w, w_led (c w).2 = w_led w /\ intents (w_pay (c w).2) = intents (w_pay w)) -> within (keeps books_held) c.
Proof.
  intros Hc w [Hl Hb]. destruct (Hc w) as [Hled Hin]. split; rewrite Hled; [done|].
  intros i x. unfold get_intent. rewrite Hin. apply Hb.
Qed.

Lemma emit_books et intent payload st si topic now : within (keeps books_held) (_emit et intent payload st si topic now).
Proof. apply same_intents_books. intros w. unfold _emit. by destruct (build_event _ _ _ _ _ _ _). Qed.
Lemma call_rail_books c : within (keeps books_held) (call_rail c).
Proof. by apply same_intents_books. Qed.

Lemma on_pay_books f :
  (forall p p', f p = Ok p' -> intents p' = intents p) -> within (keeps books_held) (on_pay f).
Proof.
  intros Hf. apply same_intents_books. intros w. unfold on_pay. destruct (f (w_pay w)) eqn:Hp; [|done]. split; [done|by eapply Hf].
Qed.

Lemma update_attempt_books r s : within (keeps books_held) (on_pay (update_attempt r s)).
Proof. apply on_pay_books. by intros p p' (x & _ & _ & ->)%update_attempt_Ok. Qed.
Lemma update_refund_books r s : within (keeps books_held) (on_pay (update_refund r s)).
Proof. apply on_pay_books. by intros p p' (x & _ & _ & ->)%update_refund_Ok. Qed.
Lemma insert_refund_books r : within (keeps books_held) (on_pay (insert_refund r)).
Proof. apply on_pay_books. unfold insert_refund. intros p p' Hi. by inv_res. Qed.

(** ** Intents *)

(** An intent is written: its books must be in order when it is captured. *)
Lemma put_intent_books w r :
  (pi_status r ∈ captured_states -> booked (w_led w) (pi_payment_intent_id r)) ->
  books_held w -> books_held (mk_World (put_intent r (w_pay w)) (w_led w) (w_box w) (w_rail w)).
Proof.
  intros Hr [Hl Hb]. split; [done|]. cbn [w_pay w_led]. intros i x. rewrite get_put_intent.
  destruct (String.eqb_spec (pi_payment_intent_id r) i) as [<-|?].
  - destruct (get_intent _ (w_pay w)); cbn; [|done]. by intros [= <-].
  - rewrite option_fmap_id. apply Hb.
Qed.

Lemma update_intent_from w r s :
  (pi_status r ∈ captured_states -> s ∈ captured_states \/ booked (w_led w) (pi_payment_intent_id r)) ->
  from w (keeps books_held) (on_pay (update_intent r s)).
Proof.
  intros Hs. unfold from, on_pay, keeps. destruct (update_intent r s (w_pay w)) as [p'|] eqn:Hu; [|done]. intros HJ.
  apply update_intent_Ok in Hu as (x & Hx & <- & ->). apply put_intent_books; [|done]. intros Hc.
  destruct (Hs Hc) as [Hcx|Hbk]; [|done]. by eapply (bk_booked _ HJ).
Qed.

Lemma insert_attempt_books r : within (keeps books_held) (on_pay (insert_attempt r)).
Proof.
  intros w. unfold on_pay. destruct (insert_attempt r (w_pay w)) as [p'|] eqn:Hi; [|done]. cbn. intros HJ.
  apply insert_attempt_Ok in Hi as (_ & _ & _ & [[_ Hi]|(x & Hx & Hi)]).
  - split; [apply HJ|]. cbn. unfold get_intent. rewrite Hi. apply (bk_booked _ HJ).
  - assert (Hid := get_intent_id _ _ _ Hx).
    destruct (put_intent_books w (pi_set_latest (Some (pa_attempt_id r)) x)) as [Hl Hb]; [|done|].
    + cbn. rewrite Hid. by apply (bk_booked _ HJ).
    + split; [done|]. cbn in *. intros i y. unfold get_intent. rewrite Hi. apply Hb.
Qed.

Lemma insert_intent_books r : pi_status r ∉ captured_states -> within (keeps books_held) (on_pay (insert_intent r)).
Proof.
  intros Hn w. unfold on_pay, insert_intent. 
  destruct (is_some _); [by intros HJ|]. destruct (match pi_idempotency_key r with Some _ => _ | None => _ end); [by intros HJ|].
  intros [Hl Hb].
  split; [done|]. cbn [snd w_pay w_led]. intros i x. unfold get_intent in *. cbn [intents set_intents]. rewrite find_snoc.
  destruct (List.find (has_key pi_payment_intent_id i) (intents (w_pay w))) eqn:Hf.
  - intros [= <-]. by apply Hb.
  - destruct (has_key pi_payment_intent_id i r); [|done]. by intros [= <-].
Qed.

Lemma advance_intent_books intent trig g d stamp now :
  trig ∉ capture_triggers -> (forall r, pi_status (stamp r) = pi_status r) ->
  within (keeps books_held) (_advance_intent K intent trig g d stamp now).
Proof.
  intros Ht Hs. unfold _advance_intent. repeat walk_step; [|apply audit_append_books]. built.
  intros w. apply update_intent_from. rewrite Hs. intros Hc. left. by eapply not_captured_yet.
Qed.

Lemma same_intent_books r s : pi_status r = s -> within (keeps books_held) (on_pay (update_intent r s)).
Proof. intros <- w. apply update_intent_from. by left. Qed.

Hint Resolve audit_append_books port_post_books open_hold_books release_hold_books port_audits_books emit_books
  call_rail_books update_attempt_books update_refund_books insert_refund_books insert_attempt_books same_intent_books : books.
Hint Extern 1 (within (keeps books_held) (_advance_intent _ _ _ _ _ _ _)) =>
  apply advance_intent_books; [by_compute|done] : books.

Ltac walk := autounfold with orch; repeat (walk_step; built); auto with books.

Lemma advance_attempt_books a trig g stamp now : within (keeps books_held) (_advance_attempt K a trig g stamp now).
Proof. unfold _advance_attempt. walk. Qed.
Lemma advance_refund_books r trig now : within (keeps books_held) (_advance_refund K r trig now).
Proof. unfold _advance_refund. walk. Qed.
Lemma post_fee_books intent attempt acc fee rule now : within (keeps books_held) (post_fee K intent attempt acc fee rule now).
Proof. unfold post_fee. walk. Qed.
Lemma failure_books intent attempt now x : within (keeps books_held) (_record_ledger_post_failure exc_text intent attempt now x).
Proof. unfold _record_ledger_post_failure. walk. Qed.
Hint Resolve advance_attempt_books advance_refund_books post_fee_books failure_books : books.

(** ** Settlement: first the books, then the status *)

Lemma succeed_from w intent attempt trig fee rule now :
  booked (w_led w) (pi_payment_intent_id intent) ->
  from w (keeps books_held) (succeed K intent attempt trig fee rule now).
Proof.
  intros Hb. unfold succeed. apply from_bind; [apply _| |intros; apply from_within; walk].
  unfold _advance_intent. repeat from_step. built. apply from_bind; [apply _| |intros; apply from_within; walk].
  apply update_intent_from. by right.
Qed.

Lemma port_post_booked spec now w je w' :
  port_post K spec now w = (Ok je, w') -> js_entry_type spec = "payment_captured"%string ->
  booked (w_led w') (js_reference_id spec).
Proof.
  unfold port_post. destruct (negb _); [done|]. unfold on_led. intros Hp Ht.
  destruct (post_journal_entry _ _ _ _) as [[id|x] s'] eqn:Hj; cbn in Hp; [|done]. injection Hp as <- <-. cbn.
  apply post_journal_entry_Ok in Hj as (rows & tx & Hst & Hcm). exists id. eexists.
  split; [by rewrite (ce_journal _ _ _ _ _ _ _ _ _ Hst Hcm), lookup_insert_eq|]. split; [done|by left].
Qed.

Lemma post_fee_keeps_booked intent attempt acc fee rule now w u w' i :
  post_fee K intent attempt acc fee rule now w = (u, w') -> booked (w_led w) i -> booked (w_led w') i.
Proof.
  intros Hp. pose proof (mv_ledger _ _ _ (post_fee_moves K intent attempt acc fee rule now w)) as Hm. rewrite Hp in Hm.
  apply booked_extends. by eapply steps_extend.
Qed.

Lemma on_error_Ok {A} (c : keff A) h w a w' : on_error c h w = (Ok a, w') -> c w = (Ok a, w').
Proof. unfold on_error. by destruct (c w) as [[?|?] ?]. Qed.

Lemma settle_charge_books e intent attempt trig : within (keeps books_held) (_settle_charge exc_text K e intent attempt trig).
Proof.
  apply within_from. intros w. unfold _settle_charge. repeat from_step.
  apply from_bind; [apply _|apply from_within; walk|]. intros u w' Hc%on_error_Ok. apply succeed_from. inv_eff.
  eapply post_fee_keeps_booked; [eassumption|]. eapply (port_post_booked (kernel_entry _ _ _ _ _ _ _ _)); [eassumption|done].
Qed.

(** Closing the open hold of a reference posts its capture entry. *)
Lemma release_booked s i h m now u s' :
  ledger_inv (k_cfg K) s -> get_open_hold_id s i = Some h ->
  release_hold (k_cfg K) s h "CAPTURED" m now = (Ok u, s') -> booked s' i.
Proof.
  intros Hinv Hh Hr. unfold get_open_hold_id, store_get_open_hold in Hh.
  destruct (min_hold _) as [row|] eqn:Hm; [|done]. injection Hh as <-.
  apply min_hold_Some, list_elem_of_filter in Hm as [[Href Hopen] Hin].
  apply list_elem_of_fmap in Hin as ([k row'] & -> & Hk%elem_of_map_to_list). cbn in *.
  pose proof (ho_key _ _ _ (li_holds _ _ Hinv _ _ Hk)) as <-.
  apply release_hold_cases in Hr as [(x & ? & _)|[(h & Hh & _ & Hn & _)|Hc]]; [done|by simplify_eq|].
  destruct Hc as (h & je & rows & tx & ps & key & _ & _ & Hh & _ & _ & _ & _ & Hst & Hcm).
  rewrite Hk in Hh. injection Hh as <-. exists je. eexists.
  split; [by rewrite (ce_journal _ _ _ _ _ _ _ _ _ Hst Hcm), lookup_insert_eq|]. split; [done|by right].
Qed.

Lemma from_assume {A} w (J : World -> Prop) (c : keff A) : (J w -> from w (keeps J) c) -> from w (keeps J) c.
Proof. intros Hc HJ. by apply Hc. Qed.

Lemma from_bind_hold {B} w intent (k : option string -> keff B) R :
  from w R (k (get_open_hold_id (w_led w) (pi_payment_intent_id intent))) -> from w R (ebind (open_hold_of intent) k).
Proof. intros Hk. exact Hk. Qed.

Lemma settle_authorized_books e intent attempt trig :
  within (keeps books_held) (_settle_authorized_charge exc_text K e intent attempt trig).
Proof.
  apply within_from. intros w. apply from_assume. intros [Hl _]. unfold _settle_authorized_charge. repeat from_step.
  apply from_bind_hold. from_step; [|apply from_within, within_lift, _].
  apply from_bind; [apply _|apply from_within; walk|]. intros u w' Hc%on_error_Ok. apply succeed_from. inv_eff.
  eapply post_fee_keeps_booked; [eassumption|].
  match goal with Hr : on_led _ w = (Ok _, _) |- _ => unfold on_led in Hr; rename Hr into Hrel end.
  destruct (release_hold _ _ _ _ _ _) as [[?|?] s'] eqn:Hr; cbn in Hrel; [|done]. injection Hrel as <- <-. cbn.
  by eapply release_booked.
Qed.
Hint Resolve settle_charge_books settle_authorized_books : books.

(** ** The operations *)

Lemma apply_connector_result_books e intent attempt result :
  within (keeps books_held) (_apply_connector_result exc_text K e intent attempt result).
Proof. unfold _apply_connector_result, _open_authorization_hold, _dispatch. walk. Qed.
Lemma apply_status_poll_result_books e a result : within (keeps books_held) (_apply_status_poll_result exc_text K e a result).
Proof. unfold _apply_status_poll_result. walk. Qed.
Lemma execute_reversal_books e i reason : within (keeps books_held) (execute_reversal K e i reason).
Proof. unfold execute_reversal, _claim_reversal_dispatch. walk. Qed.
Lemma apply_reversal_result_books e i result : within (keeps books_held) (_apply_reversal_result K e i result).
Proof. unfold _apply_reversal_result, _post_reversal_entries. walk. Qed.
Lemma apply_refund_result_books e r result : within (keeps books_held) (_apply_refund_result K e r result).
Proof. unfold _apply_refund_result, _return_intent_after_refund_failure, _post_refund_entries. walk. Qed.
Hint Resolve apply_connector_result_books apply_status_poll_result_books execute_reversal_books
  apply_reversal_result_books apply_refund_result_books : books.

Lemma resume_books e f reply : within (keeps books_held) (resume exc_text K e f reply).
Proof. unfold resume. walk. Qed.

Lemma invoke_books e c : within (keeps books_held) (invoke exc_text K e c).
Proof.
  destruct c; cbn [invoke]; unfold ended, suspended; (apply within_bind; [apply _| |intros; by apply within_ret, _]);
    auto with books.
  - unfold create_intent. walk. apply insert_intent_books. cbn. by_compute.
  - unfold supply_method. walk. intros w. apply update_intent_from. intros Hc. left.
    eapply not_captured_yet; [eassumption|by_compute|exact Hc].
  - unfold confirm, _dispatch. walk. apply advance_intent_books; [|done].
    match goal with Hs : preflight_trigger ?x = Some _ |- _ => destruct x; simplify_eq/=; by_compute end.
  - unfold complete_action, _dispatch. walk.
  - unfold capture. walk.
  - unfold cancel, _void. walk.
  - apply within_sweep; [apply _|]. intros i. unfold sweep_one. walk.
  - unfold poll_timed_out_attempt. walk.
  - unfold confirm_delivery. walk.
  - unfold create_refund. walk.
  - unfold process_refund. walk.
  - unfold apply_inbound_connector_result. walk.
  - apply within_reversal_loop; auto with books typeclass_instances.
Qed.

Lemma history_books actions : books_held (m_world (history exc_text K actions)).
Proof.
  apply (history_inv exc_text K books_held (fun _ _ => True)); try done.
  - split; [apply ledger_inv_empty|done].
  - intros e c w r w' HJ Hi. pose proof (invoke_books e c w HJ) as HJ'. rewrite Hi in HJ'.
    split; [exact HJ'|by apply Forall_true].
  - intros e f reply w r w' HJ _ Hi. pose proof (resume_books e f reply w HJ) as HJ'. rewrite Hi in HJ'.
    split; [exact HJ'|by apply Forall_true].
  - intros w op [Hl Hb]. split; cbn; [by apply run_inv|]. intros i x Hx Hs.
    eapply booked_extends; [apply run_extends|by eapply Hb].
Qed.
End Books.

(** C2: A payment that succeeded is in the books.  In every history, with rail answers,
    late callbacks, raised errors and other ledger users interleaved in any
    order: each intent that is SUCCEEDED, in refund or refunded has a capture
    entry in the ledger (posted at the charge, or closing its authorization
    hold), so no success is ever reported before the money was booked. *)
Theorem succeeded_payments_are_booked `{HashFn} `{CheckpointSigner} `{Redactor} `{DhakaTz} exc_text K actions i x :
  0 < cfg_interval (k_cfg K) ->
  let w := m_world (history exc_text K actions) in
  get_intent i (w_pay w) = Some x -> pi_status x ∈ captured_states -> booked (w_led w) i.
Proof. intros Hi w. apply (bk_booked _ _ (history_books exc_text K Hi actions)). Qed.
