(* ===== verification/KernelDemo.v ===== *)
(** A small kernel for the witnesses: one merchant, one fee rule, ports that let
    everything pass, and a payment that is captured and partly refunded. *)
From S2P Require Import Prelude Rows Exceptions DateTime Sha256 Canonical LedgerTypes LedgerStore HashChain LedgerService LedgerOps Demo.
From S2P Require Import Outbox Fsm PaymentStates Money Fees Calendar KernelModels Preflight Sdk Orchestrator KernelMachine KernelMoves.
From S2P Require Import KernelSteps KernelSafety KernelRefunds KernelAttempts KernelBooks.
Open Scope Z_scope.

#[local] Existing Instance quick_hash.

Definition demo_rule : FeeRule :=
  mk_FeeRule "fee_demo" "NPSB flat" None "NPSB_IBFT" None "FLAT_PAISA" None (Some 100) false (mk_datetime true 0) None
    "ops" (Some "risk"%string) (mk_datetime true 0) 1 None None.

Definition demo_kernel (licensed : bool) : Kernel :=
  mk_Kernel demo_cfg licensed [demo_rule] (mk_EkycLimits 1000000 1000000 1000000) default_engine (mk_Calendar [] 0 0 0).

Definition demo_ports : Ports :=
  mk_Ports (fun _ => Some (mk_MerchantGates true false true true)) None (fun _ => Some (mk_KycTierInfo "REGULAR" false))
    (fun _ => 0) (fun _ _ => 0) (fun _ _ _ => 0) (fun _ _ _ => 0) (fun _ _ => Some false)
    (fun _ _ _ _ _ _ => mk_AmlVerdict true None false).

(** The environment some seconds after the start. *)
Definition demo_env (seconds : Z) : Env :=
  mk_Env (mk_datetime true (micros demo_clock + seconds * 1000000)) demo_ports [] (fun _ => true) (fun _ => None) (fun _ => None).

Definition owned_account (type subtype owner tag : string) : AccountSpec :=
  mk_AccountSpec type subtype (Some owner) (Some "MERCHANT"%string) None (Some tag) false "BDT".

(** The accounts the kernel posts to. *)
Definition demo_books : list action :=
  ALedger <$> [OpInitializeChain "MONEY" demo_clock; OpInitializeChain "AUDIT" demo_clock;
    OpCreateAccount (demo_account "ASSET" "IN_TRANSIT" "npsb_transit") demo_clock;
    OpCreateAccount (demo_account "INCOME" "MDR_INCOME" "mdr_earned") demo_clock;
    OpCreateAccount (owned_account "LIABILITY" "MERCHANT_SETTLEMENT" "mer_1" "settlement_main") demo_clock;
    OpCreateAccount (owned_account "LIABILITY" "MERCHANT_HOLD_RESERVE" "mer_1" "hold_reserve") demo_clock].

Definition demo_request : PaymentIntentRequest :=
  mk_PaymentIntentRequest "mer_1" 5000 "NPSB_IBFT" "key-1" (Some "cus_1"%string) "BDT" "automatic" None None [].

Definition reply (st : ConnectorStatus) : res string ConnectorResult :=
  Ok (mk_ConnectorResult "ins" "cref" st (Some "rail-1"%string) None None "hash").

(** The first intent and the first refund of a state. *)
Definition first_intent (m : Machine) : string :=
  match intents (w_pay (m_world m)) with x :: _ => pi_payment_intent_id x | [] => "" end.
Definition first_refund (m : Machine) : string :=
  match refunds (w_pay (m_world m)) with r :: _ => rf_refund_id r | [] => "" end.

Definition no_text (e : kexn) : string := "error".
Definition at_kernel (licensed : bool) (actions : list action) : Machine := history no_text (demo_kernel licensed) actions.

Definition demo_create : list action := demo_books ++ [ACall (demo_env 1) (CreateIntent demo_request)].
Definition demo_intent : string := Eval vm_compute in first_intent (at_kernel true demo_create).
Definition demo_capture : list action :=
  demo_create ++ [ACall (demo_env 2) (Confirm demo_intent [] false); AReply (demo_env 3) 0 (reply SUCCESS)].

Definition demo_refunding : list action :=
  demo_capture ++ [ACall (demo_env 4) (CreateRefund demo_intent 2000 "customer_request" None)].
Definition demo_refund : string := Eval vm_compute in first_refund (at_kernel true demo_refunding).
Definition demo_refunded : list action :=
  demo_refunding ++ [ACall (demo_env 5) (ProcessRefund demo_refund); AReply (demo_env 6) 0 (reply SUCCESS)].

(** Two declines, then a charge. *)
Definition demo_retries : list action :=
  demo_create ++ [ACall (demo_env 2) (Confirm demo_intent [] false); AReply (demo_env 3) 0 (reply FAILED);
                  AReply (demo_env 4) 0 (reply FAILED); AReply (demo_env 5) 0 (reply SUCCESS)].

Definition statuses (m : Machine) : list string * list string * list string :=
  (pi_status <$> intents (w_pay (m_world m)), pa_status <$> attempts (w_pay (m_world m)), rf_status <$> refunds (w_pay (m_world m))).

Example demo_statuses :
  (statuses (at_kernel true demo_capture), statuses (at_kernel true demo_refunded), statuses (at_kernel true demo_retries)) =
  ((["SUCCEEDED"], ["CHARGED"], []), (["PARTIALLY_REFUNDED"], ["CHARGED"], ["REFUND_SUCCEEDED"]),
   (["SUCCEEDED"], ["AUTHORIZATION_FAILED"; "AUTHORIZATION_FAILED"; "CHARGED"], []))%string.
Proof. vm_compute. reflexivity. Qed.

(** The capture, its fee and the refund settlement. *)
Example demo_entries :
  merge_sort String.le ((fun e => je_entry_type e.2) <$> map_to_list (s_journal (w_led (m_world (at_kernel true demo_refunded))))) =
  ["fee_collected"; "payment_captured"; "refund_settled"]%string.
Proof. vm_compute. reflexivity. Qed.

(** Processing a refund that has succeeded asks the rail to reverse it again. *)
Example refund_is_reversed_again :
  let again := at_kernel true (demo_refunded ++ [ACall (demo_env 7) (ProcessRefund demo_refund)]) in
  length (w_rail (m_world (at_kernel true demo_refunded))) = 2%nat /\ length (w_rail (m_world again)) = 3%nat.
Proof. vm_compute. split; reflexivity. Qed.

(** Three refusals of an open circuit fail the payment, although no rail saw it. *)
Example open_circuit_fails_the_payment :
  let circuit_open := Ok (mk_ConnectorResult "ins" "cref" FAILED None None (Some "circuit_open"%string) "hash") in
  statuses (at_kernel true (demo_create ++ [ACall (demo_env 2) (Confirm demo_intent [] false); AReply (demo_env 3) 0 circuit_open;
    AReply (demo_env 4) 0 circuit_open; AReply (demo_env 5) 0 circuit_open])) =
  (["FAILED"], ["AUTHORIZATION_FAILED"; "AUTHORIZATION_FAILED"; "AUTHORIZATION_FAILED"], [])%string.
Proof. vm_compute. reflexivity. Qed.

(** * Witnesses *)

Lemma found {A B} (f : A -> B) (o : option A) x v : o = Some x -> f <$> o = Some v -> f x = v.
Proof. intros -> Hv. by injection Hv. Qed.

Lemma no_rail_money_without_licence_witness :
  k_psp_license_active (demo_kernel false) = false /\
  Forall is_query (w_rail (m_world (history no_text (demo_kernel false) demo_capture))).
Proof. split; [reflexivity|]. apply (no_rail_money_without_licence no_text (demo_kernel false) demo_capture). reflexivity. Defined.

(** Repeated right away, and after the payment went through. *)
Lemma create_intent_is_idempotent_witness : exists r w',
  create_intent (demo_kernel true) (demo_env 9) demo_request w' = (Ok r, w') /\ pi_amount_minor r = 5000 /\
  exists w x, get_intent (pi_payment_intent_id r) (w_pay w) = Some x /\ ident x = ident r /\
    is_ok (create_intent (demo_kernel true) (demo_env 9) demo_request w).1 =
    (pi_amount_minor x =? 5000) && String.eqb (pi_method x) (rq_method demo_request).
Proof.
  destruct (create_intent (demo_kernel true) (demo_env 1) demo_request (m_world (history no_text (demo_kernel true) demo_books)))
    as [[r|x] w'] eqn:Hc.
  - destruct (create_intent_is_idempotent no_text (demo_kernel true) demo_books (demo_env 1) demo_request r w'
      [ACall (demo_env 2) (Confirm demo_intent [] false); AReply (demo_env 3) 0 (reply SUCCESS)] (demo_env 9) Hc)
      as (Hnow & x & Hx & Hid & Hlater).
    exists r, w'. split; [exact Hnow|]. split.
    + apply (f_equal (fun o => match o.1 with Ok r => pi_amount_minor r | Err _ => 0 end)) in Hc. vm_compute in Hc. cbn in Hc.
      symmetry. exact Hc.
    + eexists _, x. split; [exact Hx|]. split; [exact Hid|]. rewrite Hlater.
      change (rq_amount_minor demo_request) with 5000. by destruct (_ && _).
  - apply (f_equal (fun o => is_ok o.1)) in Hc. vm_compute in Hc. discriminate Hc.
Defined.



Lemma refunds_never_exceed_the_payment_witness :
  exists x, get_intent demo_intent (w_pay (m_world (history no_text (demo_kernel true) demo_refunded))) = Some x /\
  _refunded_total demo_intent (w_pay (m_world (history no_text (demo_kernel true) demo_refunded))) <= pi_amount_minor x.
Proof.
  destruct (get_intent demo_intent (w_pay (m_world (history no_text (demo_kernel true) demo_refunded)))) as [x|] eqn:Hx;
    [|vm_compute in Hx; discriminate Hx].
  exists x. split; [reflexivity|].
  destruct (proj1 (refunds_never_exceed_the_payment no_text (demo_kernel true) demo_refunded demo_intent x Hx)) as [Hle Hmax].
  exact (Z.le_trans _ _ _ Hle Hmax).
Defined.

Lemma succeeded_payments_are_booked_witness : booked (w_led (m_world (history no_text (demo_kernel true) demo_capture))) demo_intent.
Proof.
  destruct (get_intent demo_intent (w_pay (m_world (history no_text (demo_kernel true) demo_capture)))) as [x|] eqn:Hx;
    [|vm_compute in Hx; discriminate Hx].
  apply (succeeded_payments_are_booked no_text (demo_kernel true) demo_capture demo_intent x); [reflexivity|exact Hx|].
  rewrite (found pi_status _ _ "SUCCEEDED"%string Hx ltac:(vm_compute; reflexivity)). left.
Defined.
