(* ===== verification/Position.v ===== *)
(** Settlement windows, net debit caps and participant positions
    (ledger/position.py), with the in-memory store, and the database trigger
    that the service mirrors, as db/migrations/0102_netting.sql leaves it.  Operations
    are stateful calls: what they wrote before raising stays in the store. *)
From S2P Require Import Prelude Rows Exceptions DateTime Sha256 Canonical.
Open Scope Z_scope.

(** The exceptions of the module; [PRaised] carries those of the platform. *)
Inductive perr : Type :=
| NdcError
| NdcBreachError (participant_id : string) (attempted_debit_minor headroom_minor : Z)
| NdcNotConfiguredError (participant_id : string)
| NoOpenWindowError (participant_id : string)
| PsoModeError
| WindowInvalidTransitionError (status trigger to_state : string)
| PRaised (e : exn).

(** * Settlement windows *)

Definition WINDOW_STATES : list string :=
  ["WINDOW_OPEN"; "ACCUMULATING_POSITIONS"; "CUTOFF_REACHED"; "NETTING_CALCULATED"; "WINDOW_BLOCKED";
   "SETTLEMENT_INSTRUCTED"; "SETTLEMENT_CONFIRMED"; "RECONCILIATION_RUNNING";
   "RECONCILIATION_EXCEPTION"; "WINDOW_CLOSED"; "SETTLEMENT_FAILED"].
Definition WINDOW_TERMINAL_STATES : list string := ["WINDOW_CLOSED"].

(** The keys and values of the table; every value is a one-element tuple. *)
Definition WINDOW_TRANSITIONS : list (string * string * list string) :=
  [("WINDOW_OPEN", "window_open_tick", ["ACCUMULATING_POSITIONS"]);
   ("ACCUMULATING_POSITIONS", "cutoff_reached", ["CUTOFF_REACHED"]);
   ("ACCUMULATING_POSITIONS", "force_close", ["CUTOFF_REACHED"]);
   ("CUTOFF_REACHED", "netting_computed", ["NETTING_CALCULATED"]);
   ("NETTING_CALCULATED", "tcsa_shortfall_detected", ["WINDOW_BLOCKED"]);
   ("NETTING_CALCULATED", "tcsa_ok", ["SETTLEMENT_INSTRUCTED"]);
   ("WINDOW_BLOCKED", "tcsa_shortfall_resolved", ["SETTLEMENT_INSTRUCTED"]);
   ("WINDOW_BLOCKED", "admin_override_shortfall", ["SETTLEMENT_INSTRUCTED"]);
   ("SETTLEMENT_INSTRUCTED", "settlement_confirmed", ["SETTLEMENT_CONFIRMED"]);
   ("SETTLEMENT_INSTRUCTED", "settlement_rejected", ["SETTLEMENT_FAILED"]);
   ("SETTLEMENT_INSTRUCTED", "settlement_timeout", ["SETTLEMENT_FAILED"]);
   ("SETTLEMENT_CONFIRMED", "reconciliation_started", ["RECONCILIATION_RUNNING"]);
   ("RECONCILIATION_RUNNING", "recon_matched", ["WINDOW_CLOSED"]);
   ("RECONCILIATION_RUNNING", "recon_exception", ["RECONCILIATION_EXCEPTION"]);
   ("RECONCILIATION_EXCEPTION", "exception_resolved", ["WINDOW_CLOSED"]);
   ("SETTLEMENT_FAILED", "settlement_retry", ["SETTLEMENT_INSTRUCTED"]);
   ("ACCUMULATING_POSITIONS", "participant_suspended", ["ACCUMULATING_POSITIONS"]);
   ("SETTLEMENT_FAILED", "unwind_and_recompute", ["CUTOFF_REACHED"])]%string.

(** [WINDOW_TRANSITIONS.get((status, trigger))] *)
Fixpoint window_targets (table : list (string * string * list string)) (status trigger : string) :
    option (list string) :=
  match table with
  | [] => None
  | (s, t, targets) :: rest =>
      if String.eqb s status && String.eqb t trigger then Some targets
      else window_targets rest status trigger
  end.

Record SettlementWindowRow : Type := mk_SettlementWindowRow {
  window_id : string;
  dns_session : string;
  window_date : string;  (* the date's ISO text *)
  w_status : string;
  opened_at : datetime;
  cutoff_at : option datetime;
  netting_completed_at : option datetime;
  instructed_at : option datetime;
  confirmed_at : option datetime;
  closed_at : option datetime;
  net_settlement_amount_minor : option Z;
  w_currency : string;
  block_reason : option string;
  blocked_at : option datetime;
  unblocked_at : option datetime;
  shortfall_override : bool;
  shortfall_override_approval_id : option string;
  settlement_attempt_number : Z;
  settlement_batch_id : option string;
}.

Record PositionAccountRow : Type := mk_PositionAccountRow {
  position_account_id : string;
  participant_id : string;
  settlement_window_id : string;
  net_position_minor : Z;
  p_currency : string;
  net_debit_cap_minor : Z;
  debit_count : Z;
  credit_count : Z;
  last_movement_at : option datetime;
  window_state : string;
  p_created_at : datetime;
}.

Definition headroom_minor (r : PositionAccountRow) : Z :=
  net_debit_cap_minor r - Z.max 0 (- net_position_minor r).

Record NetDebitCapRow : Type := mk_NetDebitCapRow {
  ndc_id : string;
  cap_participant_id : string;
  cap_amount_minor : Z;
  cap_currency : string;
  effective_from : datetime;
  superseded_at : option datetime;
  approved_by : string;
  approval_request_id : string;
  rationale : string;
  cap_created_at : datetime;
}.

Record NdcBreachLogRow : Type := mk_NdcBreachLogRow {
  breach_id : string;
  b_participant_id : string;
  b_window_id : string;
  b_position_account_id : string;
  attempted_debit_minor : Z;
  net_position_before_minor : Z;
  b_net_debit_cap_minor : Z;
  headroom_before_minor : Z;
  b_blocked_at : datetime;
  blocked_posting_entry_id : option string;
  source_payment_id : option string;
}.

(** * The in-memory store: dictionaries in insertion order *)

Record PositionStore : Type := mk_PositionStore {
  windows : list SettlementWindowRow;
  positions : list PositionAccountRow;
  caps : list NetDebitCapRow;
  breaches : list NdcBreachLogRow;
}.

Definition empty_positions : PositionStore := mk_PositionStore [] [] [] [].

Definition set_windows l s := mk_PositionStore l (positions s) (caps s) (breaches s).
Definition set_positions l s := mk_PositionStore (windows s) l (caps s) (breaches s).
Definition set_caps l s := mk_PositionStore (windows s) (positions s) l (breaches s).
Definition set_breaches l s := mk_PositionStore (windows s) (positions s) (caps s) l.

Definition peff := eff PositionStore perr.

Definition modify (f : PositionStore -> PositionStore) : peff unit :=
  do* s := eget in eput (f s).

Definition insert_window (row : SettlementWindowRow) : peff unit :=
  do* s := eget in
  refuse NdcError when (List.existsb (fun r => String.eqb (window_id r) (window_id row)) (windows s)) else
  refuse NdcError
    when (List.existsb (fun r => String.eqb (window_date r) (window_date row) &&
                                 String.eqb (dns_session r) (dns_session row)) (windows s)) else
  modify (set_windows (windows s ++ [row])).

Definition get_window (k : string) (s : PositionStore) : option SettlementWindowRow :=
  List.find (fun r => String.eqb (window_id r) k) (windows s).

(** [update_window]: the columns a caller may set are in [_WINDOW_MUTABLE], which
    is what [window_change] ranges over. *)
Definition update_window (k : string) (f : SettlementWindowRow -> SettlementWindowRow) :
    peff SettlementWindowRow :=
  do* s := eget in
  match get_window k s with
  | None => elift (Err NdcError)
  | Some row => do* _ := modify (set_windows (replace_row window_id k f (windows s))) in eret (f row)
  end.

(** The first accumulating row of [sorted(..., key=opened_at, reverse=True)], a
    stable sort: the latest opened, the earliest inserted of these. *)
Definition later_window (best : option SettlementWindowRow) (r : SettlementWindowRow) :
    option SettlementWindowRow :=
  if negb (String.eqb (w_status r) "ACCUMULATING_POSITIONS") then best
  else match best with
       | None => Some r
       | Some b => if micros (opened_at b) <? micros (opened_at r) then Some r else best
       end.
Definition find_accumulating_window (s : PositionStore) : option SettlementWindowRow :=
  foldl later_window None (windows s).

Definition is_position (p w : string) (r : PositionAccountRow) : bool :=
  String.eqb (participant_id r) p && String.eqb (settlement_window_id r) w.

Definition insert_position_account (row : PositionAccountRow) : peff unit :=
  do* s := eget in
  refuse NdcError
    when (List.existsb (fun r => String.eqb (position_account_id r) (position_account_id row)) (positions s)) else
  refuse NdcError
    when (List.existsb (is_position (participant_id row) (settlement_window_id row)) (positions s)) else
  modify (set_positions (positions s ++ [row])).

Definition get_position_account (p w : string) (s : PositionStore) : option PositionAccountRow :=
  List.find (is_position p w) (positions s).

Definition update_position_account (k : string) (f : PositionAccountRow -> PositionAccountRow) :
    peff PositionAccountRow :=
  do* s := eget in
  match List.find (fun r => String.eqb (position_account_id r) k) (positions s) with
  | None => elift (Err NdcError)
  | Some row =>
      do* _ := modify (set_positions (replace_row position_account_id k f (positions s))) in eret (f row)
  end.

Definition is_active_cap (p : string) (r : NetDebitCapRow) : bool :=
  String.eqb (cap_participant_id r) p && negb (bool_decide (is_Some (superseded_at r))).

Definition insert_cap (row : NetDebitCapRow) : peff unit :=
  do* s := eget in
  refuse NdcError when (List.existsb (fun r => String.eqb (ndc_id r) (ndc_id row)) (caps s)) else
  refuse NdcError when (List.existsb (is_active_cap (cap_participant_id row)) (caps s)) else
  modify (set_caps (caps s ++ [row])).

Definition active_cap (p : string) (s : PositionStore) : option NetDebitCapRow :=
  List.find (is_active_cap p) (caps s).

Definition supersede (at_ : datetime) (r : NetDebitCapRow) : NetDebitCapRow :=
  mk_NetDebitCapRow (ndc_id r) (cap_participant_id r) (cap_amount_minor r) (cap_currency r)
    (effective_from r) (Some at_) (approved_by r) (approval_request_id r) (rationale r) (cap_created_at r).

Definition supersede_cap (k : string) (at_ : datetime) : peff unit :=
  do* s := eget in
  match List.find (fun r => String.eqb (ndc_id r) k) (caps s) with
  | None => elift (Err NdcError)
  | Some _ => modify (set_caps (replace_row ndc_id k (supersede at_) (caps s)))
  end.

Definition insert_breach (row : NdcBreachLogRow) : peff unit :=
  do* s := eget in modify (set_breaches (breaches s ++ [row])).

Definition list_breaches (p : option string) (s : PositionStore) : list NdcBreachLogRow :=
  List.filter (fun r => match p with None => true | Some p => String.eqb (b_participant_id r) p end)
    (breaches s).

(** * The service *)

(** A keyword argument of [transition_window]: a mutable column, another column,
    or [status], which the call passes itself. *)
Inductive window_change : Type :=
| SetCutoffAt (x : option datetime)
| SetNettingCompletedAt (x : option datetime)
| SetInstructedAt (x : option datetime)
| SetConfirmedAt (x : option datetime)
| SetClosedAt (x : option datetime)
| SetNetSettlementAmount (x : option Z)
| SetBlockReason (x : option string)
| SetBlockedAt (x : option datetime)
| SetUnblockedAt (x : option datetime)
| SetShortfallOverride (x : bool)
| SetShortfallOverrideApproval (x : option string)
| SetSettlementAttemptNumber (x : Z)
| SetSettlementBatchId (x : option string)
| SetStatusTwice
| SetOtherColumn.

Definition apply_change (r : SettlementWindowRow) (c : window_change) : SettlementWindowRow :=
  let 'mk_SettlementWindowRow i d wd st o cu ne ins co cl am cur br ba ub so sa an bi := r in
  match c with
  | SetCutoffAt x => mk_SettlementWindowRow i d wd st o x ne ins co cl am cur br ba ub so sa an bi
  | SetNettingCompletedAt x => mk_SettlementWindowRow i d wd st o cu x ins co cl am cur br ba ub so sa an bi
  | SetInstructedAt x => mk_SettlementWindowRow i d wd st o cu ne x co cl am cur br ba ub so sa an bi
  | SetConfirmedAt x => mk_SettlementWindowRow i d wd st o cu ne ins x cl am cur br ba ub so sa an bi
  | SetClosedAt x => mk_SettlementWindowRow i d wd st o cu ne ins co x am cur br ba ub so sa an bi
  | SetNetSettlementAmount x => mk_SettlementWindowRow i d wd st o cu ne ins co cl x cur br ba ub so sa an bi
  | SetBlockReason x => mk_SettlementWindowRow i d wd st o cu ne ins co cl am cur x ba ub so sa an bi
  | SetBlockedAt x => mk_SettlementWindowRow i d wd st o cu ne ins co cl am cur br x ub so sa an bi
  | SetUnblockedAt x => mk_SettlementWindowRow i d wd st o cu ne ins co cl am cur br ba x so sa an bi
  | SetShortfallOverride x => mk_SettlementWindowRow i d wd st o cu ne ins co cl am cur br ba ub x sa an bi
  | SetShortfallOverrideApproval x => mk_SettlementWindowRow i d wd st o cu ne ins co cl am cur br ba ub so x an bi
  | SetSettlementAttemptNumber x => mk_SettlementWindowRow i d wd st o cu ne ins co cl am cur br ba ub so sa x bi
  | SetSettlementBatchId x => mk_SettlementWindowRow i d wd st o cu ne ins co cl am cur br ba ub so sa an x
  | SetStatusTwice | SetOtherColumn => r
  end.

Definition set_status (st : string) (r : SettlementWindowRow) : SettlementWindowRow :=
  let 'mk_SettlementWindowRow i d wd _ o cu ne ins co cl am cur br ba ub so sa an bi := r in
  mk_SettlementWindowRow i d wd st o cu ne ins co cl am cur br ba ub so sa an bi.

Definition is_status_twice (c : window_change) : bool := match c with SetStatusTwice => true | _ => false end.
Definition is_other_column (c : window_change) : bool := match c with SetOtherColumn => true | _ => false end.

Section Service.
Context `{HashFn} (platform_mode : string).

Definition require_pso : res perr unit :=
  raise PsoModeError when (negb (String.eqb platform_mode "PSO")) else Ok tt.

Definition p_now (clock : datetime) : res perr datetime :=
  raise NdcError when (negb (tz_aware clock)) else Ok clock.

Definition p_make_id (prefix : string) (items : list (string * pyobj)) : res perr string :=
  match make_id prefix (dict items) with Ok i => Ok i | Err e => Err (PRaised e) end.

Definition _require_window (k : string) : peff SettlementWindowRow :=
  do* s := eget in
  match get_window k s with None => elift (Err NdcError) | Some r => eret r end.

Definition _window_transition (row : SettlementWindowRow) (trigger to_state : string) : res perr unit :=
  match window_targets WINDOW_TRANSITIONS (w_status row) trigger with
  | None => Err (WindowInvalidTransitionError (w_status row) trigger to_state)
  | Some allowed =>
      raise (WindowInvalidTransitionError (w_status row) trigger to_state)
        when (negb (str_in to_state allowed)) else Ok tt
  end.

Definition open_window (window_date dns_session : string) (clock : datetime) : peff SettlementWindowRow :=
  do* _ := elift require_pso in
  do* now := elift (p_now clock) in
  do* wid := elift (p_make_id "swin" [("window_date", PStr window_date); ("dns_session", PStr dns_session)]) in
  let row := mk_SettlementWindowRow wid dns_session window_date "WINDOW_OPEN" now
               None None None None None None "BDT" None None None false None 1 None in
  do* _ := insert_window row in
  eret row.

Definition window_tick (k : string) : peff SettlementWindowRow :=
  do* _ := elift require_pso in
  do* row := _require_window k in
  do* _ := elift (_window_transition row "window_open_tick" "ACCUMULATING_POSITIONS") in
  update_window k (set_status "ACCUMULATING_POSITIONS").

Definition transition_window (k trigger to_state : string) (changes : list window_change) :
    peff SettlementWindowRow :=
  do* _ := elift require_pso in
  do* row := _require_window k in
  do* _ := elift (_window_transition row trigger to_state) in
  refuse (PRaised TypeError) when (List.existsb is_status_twice changes) else
  refuse NdcError when (List.existsb is_other_column changes) else
  update_window k (fun r => foldl apply_change (set_status to_state r) changes).

Definition set_net_debit_cap (p : string) (amount : Z) (approver approval why : string)
    (from : option datetime) (clock : datetime) : peff NetDebitCapRow :=
  do* _ := elift require_pso in
  refuse NdcError when (amount <=? 0) else
  refuse NdcError when (negb (truthy why) || (1000 <? py_len why)%nat) else
  do* now := elift (p_now clock) in
  let effective := default now from in
  refuse (PRaised TypeError) when (negb (tz_aware effective)) else
  refuse NdcError when (micros effective <? micros now) else
  do* s := eget in
  do* _ := (match active_cap p s with
            | Some existing => supersede_cap (ndc_id existing) now
            | None => eret tt
            end) in
  do* nid := elift (p_make_id "ndc"
    [("participant_id", PStr p); ("cap_amount_minor", PInt amount); ("effective_from", PDatetime effective)]) in
  let row := mk_NetDebitCapRow nid p amount "BDT" effective None approver approval why now in
  do* _ := insert_cap row in
  eret row.

Definition _open_position_account (p : string) (window : SettlementWindowRow) (cap_minor : Z)
    (clock : datetime) : peff PositionAccountRow :=
  do* s := eget in
  match get_position_account p (window_id window) s with
  | Some existing => eret existing
  | None =>
      do* now := elift (p_now clock) in
      do* pid := elift (p_make_id "posn"
        [("participant_id", PStr p); ("window_id", PStr (window_id window))]) in
      let row := mk_PositionAccountRow pid p (window_id window) 0 "BDT" cap_minor 0 0 None
                   (w_status window) now in
      do* _ := insert_position_account row in
      eret row
  end.

Definition apply_debit (new_net : Z) (now : datetime) (r : PositionAccountRow) : PositionAccountRow :=
  mk_PositionAccountRow (position_account_id r) (participant_id r) (settlement_window_id r) new_net
    (p_currency r) (net_debit_cap_minor r) (debit_count r + 1) (credit_count r) (Some now)
    (window_state r) (p_created_at r).

Definition apply_credit (new_net : Z) (now : datetime) (r : PositionAccountRow) : PositionAccountRow :=
  mk_PositionAccountRow (position_account_id r) (participant_id r) (settlement_window_id r) new_net
    (p_currency r) (net_debit_cap_minor r) (debit_count r) (credit_count r + 1) (Some now)
    (window_state r) (p_created_at r).

(** The breach row of a debit with no open window. *)
Definition log_no_window (p : string) (amount : Z) (entry payment : option string) (now : datetime) : peff unit :=
  do* bid := elift (p_make_id "ndc"
    [("participant_id", PStr p); ("reason", PStr "NO_OPEN_WINDOW"); ("blocked_at", PDatetime now)]) in
  insert_breach (mk_NdcBreachLogRow bid p "NONE" "NONE" amount 0 0 0 now entry payment).

(** The breach row of a debit over the cap. *)
Definition log_breach (p : string) (amount : Z) (entry payment : option string) (now : datetime)
    (window : SettlementWindowRow) (cap : NetDebitCapRow) (position : PositionAccountRow) : peff unit :=
  do* bid := elift (p_make_id "ndc"
    [("participant_id", PStr p); ("position_account_id", PStr (position_account_id position));
     ("attempted", PInt amount); ("blocked_at", PDatetime now)]) in
  insert_breach (mk_NdcBreachLogRow bid p (window_id window) (position_account_id position) amount
    (net_position_minor position) (cap_amount_minor cap) (headroom_minor position) now entry payment).

Definition post_debit (p : string) (amount : Z) (entry payment : option string) (clock : datetime) :
    peff PositionAccountRow :=
  do* _ := elift require_pso in
  refuse NdcError when (amount <=? 0) else
  do* now := elift (p_now clock) in
  do* s := eget in
  match find_accumulating_window s with
  | None =>
      do* _ := log_no_window p amount entry payment now in
      elift (Err (NoOpenWindowError p))
  | Some window =>
      match active_cap p s with
      | None => elift (Err (NdcNotConfiguredError p))
      | Some cap =>
          do* position := _open_position_account p window (cap_amount_minor cap) clock in
          let new_net := net_position_minor position - amount in
          let headroom := cap_amount_minor cap - Z.max 0 (- new_net) in
          if headroom <? 0 then
            do* _ := log_breach p amount entry payment now window cap position in
            elift (Err (NdcBreachError p amount headroom))
          else update_position_account (position_account_id position) (apply_debit new_net now)
      end
  end.

Definition post_credit (p : string) (amount : Z) (clock : datetime) : peff PositionAccountRow :=
  do* _ := elift require_pso in
  refuse NdcError when (amount <=? 0) else
  do* now := elift (p_now clock) in
  do* s := eget in
  match find_accumulating_window s with
  | None => elift (Err (NoOpenWindowError p))
  | Some window =>
      match active_cap p s with
      | None => elift (Err (NdcNotConfiguredError p))
      | Some cap =>
          do* position := _open_position_account p window (cap_amount_minor cap) clock in
          update_position_account (position_account_id position)
            (apply_credit (net_position_minor position + amount) now)
      end
  end.
End Service.

(** * The trigger (0102_netting.sql, which replaces the function of 0012) *)

(** The exceptions the trigger raises. *)
Inductive ndc_refusal : Type :=
| NDC_UNWIND_NO_POSITION_ROW (participant_id : option string) (window_id : string)
| NDC_PARTICIPANT_NOT_ACTIVE (participant_id : string)
| NDC_NO_OPEN_WINDOW (participant_id : option string)
| NDC_NOT_CONFIGURED (participant_id : string)
| NDC_BREACH (participant_id : string) (net_debit cap headroom : Z).

(** The inserted row of ledger.postings, with what the first two SELECTs find
    for it: the subtype and owner of its account, and the type, reference type
    and reference of its journal entry. *)
Record new_posting : Type := mk_new_posting {
  np_side : string;
  np_amount_minor : Z;
  np_account : option (string * option string);
  np_entry : option (string * string * string);
}.

(** [SELECT pa.* ... JOIN ... ORDER BY pa.created_at DESC LIMIT 1] *)
Definition window_accumulating (s : PositionStore) (k : string) : bool :=
  match get_window k s with
  | Some w => String.eqb (w_status w) "ACCUMULATING_POSITIONS"
  | None => false
  end.
Definition newer_account (p : string) (s : PositionStore) (best : option PositionAccountRow)
    (r : PositionAccountRow) : option PositionAccountRow :=
  if negb (String.eqb (participant_id r) p && window_accumulating s (settlement_window_id r)) then best
  else match best with
       | None => Some r
       | Some b => if micros (p_created_at b) <? micros (p_created_at r) then Some r else best
       end.

(** The window an unwind reversal offsets: the entry is a payment_reversed of a
    settlement window that has passed its cutoff or failed. *)
Definition unwound_window (entry : option (string * string * string)) (s : PositionStore) : option string :=
  match entry with
  | Some (entry_type, ref_type, ref_id) =>
      match get_window ref_id s with
      | Some sw =>
          if String.eqb entry_type "payment_reversed" && String.eqb ref_type "SETTLEMENT" &&
             str_in (w_status sw) ["CUTOFF_REACHED"; "SETTLEMENT_FAILED"]
          then Some ref_id else None
      | None => None
      end
  | None => None
  end.

(** The unwind path: [UPDATE ledger.position_accounts] of the participant's row
    in the window, without a cap check. *)
Definition unwind_position (p k : string) (amount : Z) (now : datetime) (s : PositionStore) :
    res ndc_refusal unit * PositionStore :=
  match get_position_account p k s with
  | None => (Err (NDC_UNWIND_NO_POSITION_ROW (Some p) k), s)
  | Some r =>
      (Ok tt, set_positions (replace_row position_account_id (position_account_id r)
                              (apply_debit (net_position_minor r - amount) now) (positions s)) s)
  end.

(** The decision on a forward debit, as in 0012. *)
Definition forward_debit (p : string) (amount : Z) (now : datetime) (s : PositionStore) :
    res ndc_refusal unit * PositionStore :=
  match foldl (newer_account p s) None (positions s) with
  | None => (Err (NDC_NO_OPEN_WINDOW (Some p)), s)
  | Some posn =>
      match active_cap p s with
      | None => (Err (NDC_NOT_CONFIGURED p), s)
      | Some cap =>
          let new_net := net_position_minor posn - amount in
          let headroom := cap_amount_minor cap - Z.max 0 (- new_net) in
          if headroom <? 0 then (Err (NDC_BREACH p (- new_net) (cap_amount_minor cap) headroom), s)
          else (Ok tt, set_positions (replace_row position_account_id (position_account_id posn)
                                       (apply_debit new_net now) (positions s)) s)
      end
  end.

(** [enforce_net_debit_cap()] on the insertion of a posting.  [kyb_status] is the
    column of public.participants, [None] without a row.  [RAISE EXCEPTION] undoes
    the statement, the breach log row included, so a refusal changes nothing.  No
    row of any table matches an account owner that is NULL.  Amounts are Z: a
    BIGINT overflow is an exception too, and needs an exposure above any cap. *)
Definition enforce_net_debit_cap (kyb_status : string -> option string) (new : new_posting)
    (now : datetime) (s : PositionStore) : res ndc_refusal unit * PositionStore :=
  if negb (String.eqb (np_side new) "DEBIT") then (Ok tt, s)
  else match np_account new with
  | None => (Ok tt, s)
  | Some (account_subtype, owner) =>
      if negb (String.eqb account_subtype "PARTICIPANT_POSITION") then (Ok tt, s)
      else match unwound_window (np_entry new) s, owner with
      | Some k, None => (Err (NDC_UNWIND_NO_POSITION_ROW None k), s)
      | None, None => (Err (NDC_NO_OPEN_WINDOW None), s)
      | Some k, Some p => unwind_position p k (np_amount_minor new) now s
      | None, Some p =>
          match kyb_status p with
          | Some st =>
              if negb (String.eqb st "ACTIVE") then (Err (NDC_PARTICIPANT_NOT_ACTIVE p), s)
              else forward_debit p (np_amount_minor new) now s
          | None => forward_debit p (np_amount_minor new) now s
          end
      end
  end.
