(* ===== verification/PositionFacts.v ===== *)
(** The net debit cap holds: facts about ledger/position.py. *)
From S2P Require Import Prelude Rows Exceptions DateTime Sha256 Canonical Position.
Open Scope Z_scope.

(** * The store invariant *)

Definition pos_key (r : PositionAccountRow) : string * string := (participant_id r, settlement_window_id r).

Record store_ok (s : PositionStore) : Prop := {
  ok_window_ids : NoDup (window_id <$> windows s);
  ok_position_ids : NoDup (position_account_id <$> positions s);
  ok_position_keys : NoDup (pos_key <$> positions s);
  ok_cap_ids : NoDup (ndc_id <$> caps s);
  ok_cap_amounts : Forall (fun c => 0 < cap_amount_minor c) (caps s);
  (** one active cap per participant *)
  ok_active : forall c1 c2, c1 ∈ caps s -> c2 ∈ caps s -> superseded_at c1 = None ->
    superseded_at c2 = None -> cap_participant_id c1 = cap_participant_id c2 -> c1 = c2;
  (** no position is below the largest cap its participant ever had *)
  ok_within : Forall (fun r => 0 <= net_position_minor r \/
    exists c, c ∈ caps s /\ cap_participant_id c = participant_id r /\
      - net_position_minor r <= cap_amount_minor c) (positions s);
}.

Lemma empty_ok : store_ok empty_positions.
Proof. split; try constructor. by intros c1 c2 ?%not_elem_of_nil. Qed.

(** The abstract view: a participant's net position in a window. *)
Definition net (s : PositionStore) (p w : string) : Z :=
  from_option net_position_minor 0 (get_position_account p w s).

Lemma is_position_key p w r : is_position p w r = true <-> pos_key r = (p, w).
Proof.
  unfold is_position, pos_key. rewrite andb_true_iff, !String.eqb_eq. split; [by intros [-> ->]|by intros [= -> ->]].
Qed.

Lemma get_position_iff s p w r :
  store_ok s -> get_position_account p w s = Some r <-> r ∈ positions s /\ pos_key r = (p, w).
Proof.
  intros Hok. split.
  - intros [Hin Hk%is_position_key]%find_Some. done.
  - intros [Hin Hk]. destruct (get_position_account p w s) as [r'|] eqn:Hf.
    + apply find_Some in Hf as [Hin' Hk'%is_position_key]. f_equal.
      eapply (NoDup_fmap_eq pos_key); [apply Hok|done..|congruence].
    + eapply find_None in Hf; [|exact Hin]. apply is_position_key in Hk. congruence.
Qed.

(** * Effects of the operations *)

Lemma modify_eq f s : modify f s = (Ok tt, f s).
Proof. done. Qed.

(** Everything but the positions. *)
Definition same_frame (s s' : PositionStore) : Prop :=
  windows s' = windows s /\ caps s' = caps s /\ breaches s' = breaches s.

Section Effects.
Context `{HashFn} (platform_mode : string).

Lemma insert_position_effect row s r s' :
  store_ok s -> net_position_minor row = 0 -> insert_position_account row s = (r, s') ->
  match r with
  | Ok _ => store_ok s' /\ same_frame s s' /\ row ∈ positions s' /\
      forall p w, net s' p w = net s p w
  | Err _ => s' = s
  end.
Proof.
  intros Hok Hz. unfold insert_position_account. cbn. unfold elift.
  destruct (List.existsb _ _) eqn:Hid; [by intros [= <- <-]|].
  destruct (List.existsb (is_position _ _) _) eqn:Hkey; [by intros [= <- <-]|]. intros [= <- <-].
  pose proof (not_existsb _ _ Hid) as Hid'. pose proof (not_existsb _ _ Hkey) as Hkey'. destruct Hok.
  split_and!.
  - split; cbn; try done.
    + apply NoDup_fmap_snoc; [done|]. intros y Hy He. apply Hid' in Hy. rewrite He, String.eqb_refl in Hy. done.
    + apply NoDup_fmap_snoc; [done|]. intros y Hy He. apply Hkey' in Hy.
      apply not_true_iff_false in Hy. apply Hy, is_position_key. by rewrite He.
    + apply Forall_app. split; [done|]. apply Forall_singleton. left. by rewrite Hz.
  - done.
  - cbn. apply elem_of_app. right. by left.
  - intros p w. unfold net, get_position_account. cbn. rewrite find_snoc.
    destruct (List.find (is_position p w) (positions s)); [done|]. destruct (is_position p w row); [|done].
    by cbn.
Qed.

Lemma open_position_effect p w c clock s r s' :
  store_ok s -> _open_position_account p w c clock s = (r, s') ->
  match r with
  | Ok row => store_ok s' /\ same_frame s s' /\ row ∈ positions s' /\ pos_key row = (p, window_id w) /\
      forall p' w', net s' p' w' = net s p' w'
  | Err _ => s' = s
  end.
Proof.
  intros Hok. unfold _open_position_account. intros Ho. eff_step; [|done]. eff_step.
  destruct (get_position_account p (window_id w) s) as [row|] eqn:Hg.
  - injection Ho as <- <-. apply get_position_iff in Hg as [Hin Hk]; [|done]. done.
  - inv_eff; try done.
    + by apply insert_position_effect in E1 as (? & ? & ? & ?).
    + by apply insert_position_effect in E1.
Qed.

(** Rewriting one account, its key kept, moves that position alone. *)
Lemma replace_account_net s row f p w :
  store_ok s -> row ∈ positions s -> (forall r, pos_key (f r) = pos_key r) ->
  net (set_positions (replace_row position_account_id (position_account_id row) f (positions s)) s) p w =
  if bool_decide (pos_key row = (p, w)) then net_position_minor (f row) else net s p w.
Proof.
  intros Hok Hin Hf. unfold net, get_position_account. cbn. unfold replace_row. rewrite find_fmap.
  2:{ intros r. destruct (String.eqb _ _); [|done]. apply eq_true_iff_eq. by rewrite !is_position_key, Hf. }
  case_bool_decide as Hk.
  - assert (Hg : get_position_account p w s = Some row) by (by apply get_position_iff).
    unfold get_position_account in Hg. rewrite Hg. cbn. by rewrite String.eqb_refl.
  - destruct (List.find (is_position p w) (positions s)) as [r|] eqn:Hr; [|done]. cbn.
    destruct (String.eqb_spec (position_account_id r) (position_account_id row)) as [He|He]; [|done].
    exfalso. apply Hk. apply find_Some in Hr as [Hr Hkr%is_position_key].
    rewrite <- Hkr. f_equal. by eapply (NoDup_fmap_eq position_account_id); [apply Hok| | |].
Qed.

Lemma update_position_effect s row f :
  store_ok s -> row ∈ positions s ->
  (forall r, position_account_id (f r) = position_account_id r /\ pos_key (f r) = pos_key r) ->
  (0 <= net_position_minor (f row) \/
   exists c, c ∈ caps s /\ cap_participant_id c = participant_id row /\
     - net_position_minor (f row) <= cap_amount_minor c) ->
  exists s', update_position_account (position_account_id row) f s = (Ok (f row), s') /\
    store_ok s' /\ same_frame s s' /\
    forall p w, net s' p w = if bool_decide (pos_key row = (p, w)) then net_position_minor (f row) else net s p w.
Proof.
  intros Hok Hin Hf Hcap. pose proof Hok as [Hw Hpi Hpk Hci Hca Hact Hwi].
  assert (Huniq : forall r, r ∈ positions s -> position_account_id r = position_account_id row -> r = row).
  { intros r Hr He. by eapply (NoDup_fmap_eq position_account_id). }
  unfold update_position_account. cbn.
  assert (List.find (fun r => String.eqb (position_account_id r) (position_account_id row)) (positions s) = Some row) as ->.
  { destruct (List.find _ _) as [r|] eqn:He.
    - apply find_Some in He as [Hr He%String.eqb_eq]. f_equal. auto.
    - eapply find_None in He; [|exact Hin]. by rewrite String.eqb_refl in He. }
  eexists. split; [reflexivity|]. split_and!; [|done..|].
  - split; cbn; rewrite ?(fmap_replace_row position_account_id), ?(fmap_replace_row pos_key) by apply Hf; try done.
    apply Forall_forall. intros r' Hr'. unfold replace_row in Hr'. apply list_elem_of_fmap in Hr' as (r & -> & Hr).
    destruct (String.eqb_spec (position_account_id r) (position_account_id row)) as [He|He].
    + rewrite (Huniq r Hr He). destruct Hcap as [?|(c & Hc & Hp & Hle)]; [by left|]. right. exists c.
      split_and!; [done| |done]. destruct (Hf row) as [_ Hk]. unfold pos_key in Hk. congruence.
    + by apply (proj1 (Forall_forall _ _) Hwi).
  - intros p w. apply replace_account_net; [done..|apply Hf].
Qed.

(** A movement of [delta] on the position of [p] in [w]. *)
Definition moved (s s' : PositionStore) (p w : string) (delta : Z) : Prop :=
  forall p' w', net s' p' w' = net s p' w' + (if bool_decide (p' = p /\ w' = w) then delta else 0).

Definition unmoved (s s' : PositionStore) : Prop := forall p w, net s' p w = net s p w.

Lemma active_cap_elem p s c : active_cap p s = Some c -> c ∈ caps s /\ cap_participant_id c = p.
Proof. intros [Hc [Hp%String.eqb_eq _]%andb_true_iff]%find_Some. done. Qed.

Lemma net_row s row p w : store_ok s -> row ∈ positions s -> pos_key row = (p, w) -> net s p w = net_position_minor row.
Proof. intros Hok Hin Hk. unfold net. by rewrite (proj2 (get_position_iff s p w row Hok)). Qed.

(** The update of a row that was looked up. *)
Lemma movement_effect s row p w delta f r s' :
  store_ok s -> row ∈ positions s -> pos_key row = (p, w) ->
  (forall r, position_account_id (f r) = position_account_id r /\ pos_key (f r) = pos_key r) ->
  net_position_minor (f row) = net_position_minor row + delta ->
  (0 <= delta \/ exists c, c ∈ caps s /\ cap_participant_id c = p /\
     - net_position_minor (f row) <= cap_amount_minor c) ->
  update_position_account (position_account_id row) f s = (r, s') ->
  r = Ok (f row) /\ store_ok s' /\ same_frame s s' /\ moved s s' p w delta.
Proof.
  intros Hok Hin Hk Hf Hd Hcap Hu.
  destruct (update_position_effect s row f Hok Hin Hf) as (s1 & Hu' & Hok' & Hfr & Hn).
  { injection Hk as Hp Hw. destruct Hcap as [Hpos|Hc]; [|right; by rewrite Hp].
    destruct (proj1 (Forall_forall _ _) (ok_within s Hok) row Hin) as [Hz|(c & Hc & Hcp & Hle)]; [left; lia|].
    right. exists c. split_and!; [done..|lia]. }
  rewrite Hu in Hu'. injection Hu' as -> ->. split_and!; [done..|]. intros p' w'. rewrite Hn, Hk.
  case_bool_decide as H1; case_bool_decide as H2;
    [|exfalso; apply H2; by injection H1 as -> ->|exfalso; apply H1; by destruct H2 as [-> ->]|lia].
  destruct H2 as [-> ->]. rewrite (net_row s row p w) by done. lia.
Qed.

(** Nothing moved, and the invariant still holds. *)
Definition quiet (s s' : PositionStore) : Prop :=
  store_ok s' /\ windows s' = windows s /\ caps s' = caps s /\ unmoved s s'.

Lemma quiet_refl s : store_ok s -> quiet s s.
Proof. intros. unfold quiet. by split_and!. Qed.

Lemma quiet_trans s1 s2 s3 : quiet s1 s2 -> quiet s2 s3 -> quiet s1 s3.
Proof.
  intros (H1 & H2 & H3 & H4) (J1 & J2 & J3 & J4). unfold quiet. split_and!; [done|congruence..|].
  intros p w. by rewrite J4, H4.
Qed.

Lemma open_quiet p w c clock s r s' :
  store_ok s -> _open_position_account p w c clock s = (r, s') ->
  quiet s s' /\ forall row, r = Ok row -> row ∈ positions s' /\ pos_key row = (p, window_id w).
Proof.
  intros Hok Ho. apply open_position_effect in Ho; [|done]. destruct r as [row|e].
  - destruct Ho as (Hok' & (Hw & Hc & _) & Hin & Hk & Hn). split; [done|]. by intros ? [= <-].
  - subst. split; [by apply quiet_refl|done].
Qed.

Lemma breach_quiet row s : store_ok s -> quiet s (set_breaches (breaches s ++ [row]) s).
Proof. intros []. unfold quiet. by split_and!. Qed.

Lemma log_no_window_quiet p a entry pay now s r s' :
  store_ok s -> log_no_window p a entry pay now s = (r, s') -> quiet s s'.
Proof.
  intros Hok Hl. unfold log_no_window in Hl. inv_eff; [|by apply quiet_refl].
  injection Hl as <- <-. by apply breach_quiet.
Qed.

Lemma log_breach_quiet p a entry pay now w c row s r s' :
  store_ok s -> log_breach p a entry pay now w c row s = (r, s') -> quiet s s'.
Proof.
  intros Hok Hl. unfold log_breach in Hl. inv_eff; [|by apply quiet_refl].
  injection Hl as <- <-. by apply breach_quiet.
Qed.

(** A debit that goes through found a window and a cap and stays within the cap;
    a refused one moves nothing. *)
Lemma post_debit_effect p a entry pay clock s r s' :
  store_ok s -> post_debit platform_mode p a entry pay clock s = (r, s') ->
  match r with
  | Ok row => exists w c, find_accumulating_window s = Some w /\ active_cap p s = Some c /\ 0 < a /\
      pos_key row = (p, window_id w) /\ net_position_minor row = net s p (window_id w) - a /\
      - net_position_minor row <= cap_amount_minor c /\
      store_ok s' /\ windows s' = windows s /\ caps s' = caps s /\ moved s s' p (window_id w) (- a)
  | Err _ => quiet s s'
  end.
Proof.
  intros Hok Hd. unfold post_debit in Hd. inv_eff; try by apply quiet_refl.
  destruct (find_accumulating_window s) as [w|] eqn:Hw.
  2:{ eff_step; [injection Hd as <- <-|injection Hd as <- <-]; by apply log_no_window_quiet in E1. }
  destruct (active_cap p s) as [c|] eqn:Hc; [|injection Hd as <- <-; by apply quiet_refl].
  eff_step; [|injection Hd as <- <-; by apply open_quiet in E1 as [? _]].
  apply open_quiet in E1 as [Hq Hrow]; [|done]. destruct (Hrow _ eq_refl) as [Hin Hk].
  destruct (_ <? 0) eqn:Hh in Hd.
  - eff_step; injection Hd as <- <-; (apply log_breach_quiet in E1; [by eapply quiet_trans|apply Hq]).
  - pose proof Hq as (Hok' & Hw' & Hc' & Hn'). pose proof (active_cap_elem _ _ _ Hc) as [Hcin Hcp].
    apply (movement_effect _ _ p (window_id w) (- a)) in Hd as (-> & Hok2 & (Hw2 & Hc2 & _) & Hm);
      [|done..|right; exists c; rewrite Hc'; split_and!; [done..|cbn; lia]].
    exists w, c. pose proof (net_row p0 a2 p (window_id w) Hok' Hin Hk) as Hnr. rewrite Hn' in Hnr. cbn.
    split_and!; try done; try congruence; try lia. intros p' w'. by rewrite Hm, Hn'.
Qed.

Lemma post_credit_effect p a clock s r s' :
  store_ok s -> post_credit platform_mode p a clock s = (r, s') ->
  match r with
  | Ok row => exists w, find_accumulating_window s = Some w /\ 0 < a /\
      pos_key row = (p, window_id w) /\ net_position_minor row = net s p (window_id w) + a /\
      store_ok s' /\ windows s' = windows s /\ caps s' = caps s /\ moved s s' p (window_id w) a
  | Err _ => quiet s s'
  end.
Proof.
  intros Hok Hd. unfold post_credit in Hd. inv_eff; try by apply quiet_refl.
  destruct (find_accumulating_window s) as [w|] eqn:Hw; [|injection Hd as <- <-; by apply quiet_refl].
  destruct (active_cap p s) as [c|] eqn:Hc; [|injection Hd as <- <-; by apply quiet_refl].
  eff_step; [|injection Hd as <- <-; by apply open_quiet in E1 as [? _]].
  apply open_quiet in E1 as [Hq Hrow]; [|done]. destruct (Hrow _ eq_refl) as [Hin Hk].
  pose proof Hq as (Hok' & Hw' & Hc' & Hn').
  apply (movement_effect _ _ p (window_id w) a) in Hd as (-> & Hok2 & (Hw2 & Hc2 & _) & Hm); [|done..|left; lia].
  exists w. pose proof (net_row p0 a2 p (window_id w) Hok' Hin Hk) as Hnr. rewrite Hn' in Hnr. cbn.
  split_and!; try done; try congruence; try lia. intros p' w'. by rewrite Hm, Hn'.
Qed.

(** * Caps *)

Lemma active_replaced k at_ l c :
  c ∈ replace_row ndc_id k (supersede at_) l -> superseded_at c = None -> c ∈ l /\ ndc_id c <> k.
Proof.
  unfold replace_row. intros (c' & -> & Hc')%list_elem_of_fmap. by destruct (String.eqb_spec (ndc_id c') k).
Qed.

Lemma supersede_effect k at_ s r s' :
  store_ok s -> supersede_cap k at_ s = (r, s') ->
  store_ok s' /\ windows s' = windows s /\ positions s' = positions s /\
  (fun c => (cap_participant_id c, cap_amount_minor c)) <$> caps s' =
  (fun c => (cap_participant_id c, cap_amount_minor c)) <$> caps s.
Proof.
  intros [] Hs. unfold supersede_cap in Hs. cbn in Hs. destruct (List.find _ _); injection Hs as <- <-; [|done].
  assert (Hsame : (fun c => (cap_participant_id c, cap_amount_minor c)) <$> replace_row ndc_id k (supersede at_) (caps s) =
    (fun c => (cap_participant_id c, cap_amount_minor c)) <$> caps s) by (by apply fmap_replace_row).
  split_and!; try done. split; cbn; try done.
  - by rewrite fmap_replace_row.
  - apply Forall_replace_row; [done|]. by intros c Hc _.
  - intros c1 c2 H1 H2 Hs1 Hs2. apply active_replaced in H1 as [H1 _]; [|done].
    apply active_replaced in H2 as [H2 _]; [|done]. auto.
  - eapply Forall_impl; [done|]. intros row [Hz|(c & Hc & Hp & Hle)]; [by left|]. right.
    apply (list_elem_of_fmap_2 (fun c => (cap_participant_id c, cap_amount_minor c))) in Hc.
    rewrite <- Hsame in Hc. apply list_elem_of_fmap in Hc as (c' & [= Hp' Ha'] & Hc').
    exists c'. split_and!; [done|congruence|lia].
Qed.

Lemma active_cap_None p s : active_cap p s = None <->
  forall c, c ∈ caps s -> cap_participant_id c = p -> superseded_at c <> None.
Proof.
  unfold active_cap. split.
  - intros Hf c Hc Hp Hs. eapply find_None in Hf; [|exact Hc]. unfold is_active_cap in Hf.
    by rewrite Hp, String.eqb_refl, Hs in Hf.
  - intros Hn. destruct (List.find _ _) as [c|] eqn:Hf; [|done]. apply find_Some in Hf as [Hc Ha].
    unfold is_active_cap in Ha. bool_prop. exfalso. apply (Hn c Hc); [done|].
    destruct (superseded_at c); [|done]. exfalso. eauto.
Qed.

Lemma insert_cap_effect row s r s' :
  store_ok s -> 0 < cap_amount_minor row -> superseded_at row = None -> insert_cap row s = (r, s') ->
  (r = Err NdcError /\ s' = s) \/
  (r = Ok tt /\ s' = set_caps (caps s ++ [row]) s /\ store_ok s' /\ active_cap (cap_participant_id row) s' = Some row).
Proof.
  intros Hok Ha Hs. unfold insert_cap. cbn. unfold elift.
  destruct (List.existsb _ _) eqn:Hid; [by intros [= <- <-]; left|].
  destruct (List.existsb (is_active_cap _) _) eqn:Hact; [by intros [= <- <-]; left|]. intros [= <- <-]. right.
  pose proof (not_existsb _ _ Hid) as Hid'. pose proof (not_existsb _ _ Hact) as Hact'.
  assert (Hinact : forall c, c ∈ caps s -> cap_participant_id c = cap_participant_id row -> superseded_at c <> None).
  { intros c Hc Hp Hn. apply Hact' in Hc. unfold is_active_cap in Hc. by rewrite Hp, String.eqb_refl, Hn in Hc. }
  split_and!; [done..| |].
  - destruct Hok. split; cbn; try done.
    + apply NoDup_fmap_snoc; [done|]. intros c Hc He. apply Hid' in Hc. by rewrite He, String.eqb_refl in Hc.
    + apply Forall_app. split; [done|]. by apply Forall_singleton.
    + intros c1 c2 [H1|H1%list_elem_of_singleton]%elem_of_app [H2|H2%list_elem_of_singleton]%elem_of_app Hs1 Hs2 Hp;
        subst; try done; [by auto|by destruct (Hinact c1)|by destruct (Hinact c2)].
    + eapply Forall_impl; [done|]. intros x [?|(c & ? & ?)]; [by left|]. right. exists c.
      split; [|done]. apply elem_of_app. by left.
  - unfold active_cap. cbn. rewrite find_snoc.
    assert (List.find (is_active_cap (cap_participant_id row)) (caps s) = None) as -> by (by apply active_cap_None).
    unfold is_active_cap. by rewrite String.eqb_refl, Hs.
Qed.

Lemma unmoved_same_positions s s' : positions s' = positions s -> unmoved s s'.
Proof. intros He p w. unfold net, get_position_account. by rewrite He. Qed.

Lemma drop_active_effect p now s r s' :
  store_ok s ->
  match active_cap p s with Some existing => supersede_cap (ndc_id existing) now | None => eret tt end s = (r, s') ->
  store_ok s' /\ windows s' = windows s /\ positions s' = positions s.
Proof.
  intros Hok Hd. destruct (active_cap p s); [by apply supersede_effect in Hd as (? & ? & ? & _)|].
  by injection Hd as <- <-.
Qed.

(** Setting a cap: the caps that were set stay in the store, superseded. *)
Lemma set_cap_effect p a who app why from clock s r s' :
  store_ok s -> set_net_debit_cap platform_mode p a who app why from clock s = (r, s') ->
  store_ok s' /\ windows s' = windows s /\ positions s' = positions s /\
  match r with
  | Ok row => active_cap p s' = Some row /\ cap_amount_minor row = a /\ 0 < a
  | Err _ => True
  end.
Proof.
  intros Hok Hs. unfold set_net_debit_cap in Hs. inv_eff; try done;
    apply drop_active_effect in E2 as (Hok1 & Hw1 & Hp1); try done.
  - apply insert_cap_effect in E4 as [[? _]|(_ & -> & Hok' & Hact)]; [done| |done|cbn; lia|done].
    cbn. split_and!; try done. lia.
  - apply insert_cap_effect in E4 as [[_ ->]|[? _]]; [done..|cbn; lia|done].
Qed.

(** * Windows *)

Definition win_status (s : PositionStore) (k : string) : option string := w_status <$> get_window k s.

Lemma get_window_iff s k w : NoDup (window_id <$> windows s) ->
  get_window k s = Some w <-> w ∈ windows s /\ window_id w = k.
Proof.
  intros Hn. unfold get_window. split.
  - intros [Hin He%String.eqb_eq]%find_Some. done.
  - intros [Hin <-]. destruct (List.find _ _) as [w'|] eqn:Hf.
    + apply find_Some in Hf as [Hin' He%String.eqb_eq]. f_equal. by eapply (NoDup_fmap_eq window_id).
    + eapply find_None in Hf; [|exact Hin]. by rewrite String.eqb_refl in Hf.
Qed.

Lemma find_accumulating_spec s w :
  find_accumulating_window s = Some w -> w ∈ windows s /\ w_status w = "ACCUMULATING_POSITIONS"%string.
Proof.
  unfold find_accumulating_window. intros Hf.
  assert (Hg : forall l best, (forall b, best = Some b -> b ∈ windows s /\ w_status b = "ACCUMULATING_POSITIONS"%string) ->
    (forall x, x ∈ l -> x ∈ windows s) -> foldl later_window best l = Some w ->
    w ∈ windows s /\ w_status w = "ACCUMULATING_POSITIONS"%string).
  { induction l as [|x l IH]; intros best Hb Hl; [apply Hb|]. cbn. apply IH; [|intros y Hy; apply Hl; by right].
    intros b. unfold later_window. destruct (negb _) eqn:Hx; [apply Hb|]. bool_prop.
    assert (x ∈ windows s) by (apply Hl; by left).
    destruct best as [b'|]; [destruct (_ <? _)|]; intros [= <-]; auto. }
  by apply (Hg (windows s) None).
Qed.

Lemma window_targets_elem table st trig targets :
  window_targets table st trig = Some targets -> (st, trig, targets) ∈ table.
Proof.
  induction table as [|[[a b] c] table IH]; cbn; [done|]. destruct (_ && _) eqn:He.
  - bool_prop. intros [= ->]. subst. by left.
  - intros Hw. right. auto.
Qed.

(** A status from which no path leads back to accumulation. *)
Definition passed (st : string) : bool := negb (str_in st ["WINDOW_OPEN"; "ACCUMULATING_POSITIONS"]).

Lemma passed_closed row trig to u :
  _window_transition row trig to = Ok u -> passed (w_status row) = true -> passed to = true.
Proof.
  unfold _window_transition. destruct (window_targets _ _ _) as [l|] eqn:Ht; [|done]. intros Ho. inv_res.
  bool_prop. apply window_targets_elem in Ht. intros Hp.
  assert (Hall : Forall (fun '(st, _, l) => passed st = true -> Forall (fun to => passed to = true) l) WINDOW_TRANSITIONS).
  { unfold WINDOW_TRANSITIONS. repeat constructor; vm_compute; try discriminate; repeat constructor. }
  rewrite Forall_forall in Hall. specialize (Hall _ Ht Hp). rewrite Forall_forall in Hall. apply Hall.
  unfold str_in in G. by apply bool_decide_eq_true in G.
Qed.

(** A call on the windows: nothing else changes, and a window past its cutoff
    stays past it. *)
Definition windows_step (s s' : PositionStore) : Prop :=
  store_ok s' /\ positions s' = positions s /\ caps s' = caps s /\
  forall k st, win_status s k = Some st -> passed st = true ->
    exists st', win_status s' k = Some st' /\ passed st' = true.

Lemma windows_step_refl s : store_ok s -> windows_step s s.
Proof. intros. split_and!; [done..|]. intros k st Hk Hp. by exists st. Qed.

Lemma insert_window_step row s r s' : store_ok s -> insert_window row s = (r, s') -> windows_step s s'.
Proof.
  intros Hok. unfold insert_window. cbn. unfold elift.
  destruct (List.existsb _ _) eqn:Hid; [by intros [= <- <-]; apply windows_step_refl|].
  destruct (List.existsb _ _) in |- *; [by intros [= <- <-]; apply windows_step_refl|]. intros [= <- <-].
  pose proof (not_existsb _ _ Hid) as Hid'. split_and!; [|done..|].
  - destruct Hok. split; cbn; try done. apply NoDup_fmap_snoc; [done|]. intros w Hw He.
    apply Hid' in Hw. by rewrite He, String.eqb_refl in Hw.
  - intros k st Hk Hp. exists st. split; [|done]. unfold win_status, get_window in *. cbn.
    rewrite find_snoc. by destruct (List.find _ _).
Qed.

Lemma update_window_step k f row trig to u s r s' :
  store_ok s -> get_window k s = Some row -> _window_transition row trig to = Ok u ->
  (forall x, window_id (f x) = window_id x /\ w_status (f x) = to) ->
  update_window k f s = (r, s') -> windows_step s s'.
Proof.
  intros Hok Hg Ht Hf Hu. unfold update_window in Hu. cbn in Hu. rewrite Hg in Hu. cbn in Hu.
  injection Hu as <- <-. split_and!; [|done..|].
  - destruct Hok. split; cbn; try done. rewrite fmap_replace_row; [done|]. intros x. apply Hf.
  - intros k' st Hk Hp. unfold win_status, get_window in *. cbn. unfold replace_row. rewrite find_fmap.
    2:{ intros x. destruct (String.eqb (window_id x) k); [|done]. by rewrite (proj1 (Hf x)). }
    destruct (List.find (fun r => String.eqb (window_id r) k') (windows s)) as [w|] eqn:Hw; [|discriminate Hk].
    cbn in *. injection Hk as Hk. destruct (String.eqb_spec (window_id w) k) as [He|He].
    + exists to. rewrite (proj2 (Hf w)). split; [done|]. eapply passed_closed; [exact Ht|].
      apply find_Some in Hw as [Hin _].
      assert (Hrow : get_window k s = Some w) by (by apply get_window_iff; [apply Hok|]).
      unfold get_window in Hrow. rewrite Hg in Hrow. injection Hrow as ->. by rewrite Hk.
    + exists st. by rewrite Hk.
Qed.

Lemma open_window_step d ses clock s r s' :
  store_ok s -> open_window platform_mode d ses clock s = (r, s') -> windows_step s s'.
Proof.
  intros Hok Ho. unfold open_window in Ho. inv_eff; try by apply windows_step_refl.
  all: by apply insert_window_step in E2.
Qed.

Lemma require_window_inv k s r s' :
  _require_window k s = (r, s') -> s' = s /\ match r with Ok row => get_window k s = Some row | Err _ => True end.
Proof.
  unfold _require_window. intros Hr. eff_step; [|done]. eff_step.
  destruct (get_window k s); by injection Hr as <- <-.
Qed.

Lemma window_tick_step k s r s' :
  store_ok s -> window_tick platform_mode k s = (r, s') -> windows_step s s'.
Proof.
  intros Hok Ho. unfold window_tick in Ho. inv_eff; try by apply windows_step_refl.
  all: apply require_window_inv in E0 as [-> Hg]; try by apply windows_step_refl.
  eapply update_window_step; [done|exact Hg|done| |exact Ho]. by intros [].
Qed.

Lemma apply_changes_frame changes : forall x,
  window_id (foldl apply_change x changes) = window_id x /\ w_status (foldl apply_change x changes) = w_status x.
Proof.
  induction changes as [|c changes IH]; intros x; [done|]. cbn. destruct (IH (apply_change x c)) as [-> ->].
  by destruct x, c.
Qed.

Lemma transition_window_step k trig to changes s r s' :
  store_ok s -> transition_window platform_mode k trig to changes s = (r, s') -> windows_step s s'.
Proof.
  intros Hok Ho. unfold transition_window in Ho. inv_eff; try by apply windows_step_refl.
  all: apply require_window_inv in E0 as [-> Hg]; try by apply windows_step_refl.
  eapply update_window_step; [done|exact Hg|done| |exact Ho]. intros x.
  destruct (apply_changes_frame changes (set_status to x)) as [-> ->]. by destruct x.
Qed.
End Effects.
