(* ===== verification/PositionRuns.v ===== *)
(** Runs of the position service (ledger/position.py) and the properties of its
    net debit caps, positions and windows. *)
From S2P Require Import Prelude Rows Exceptions DateTime Sha256 Canonical Position PositionFacts.
Open Scope Z_scope.

(** A call of the service, with the reading of the clock it makes. *)
Inductive pos_op : Type :=
| OpOpenWindow (window_date dns_session : string) (clock : datetime)
| OpTick (window_id : string)
| OpTransition (window_id trigger to_state : string) (changes : list window_change)
| OpSetCap (participant : string) (amount : Z) (approver approval why : string)
    (from : option datetime) (clock : datetime)
| OpDebit (participant : string) (amount : Z) (entry payment : option string) (clock : datetime)
| OpCredit (participant : string) (amount : Z) (clock : datetime).

(** A movement that was accepted: participant, window, signed amount. *)
Definition movement : Type := (string * string * Z)%type.

(** What an accepted call for participant [p] in the store [s] reports: it moves
    the participant it names, in the window that is open when it is made. *)
Definition movement_of (p : string) (s : PositionStore) (delta : Z) (r : res perr PositionAccountRow) :
    list movement :=
  match r, find_accumulating_window s with
  | Ok _, Some w => [(p, window_id w, delta)]
  | _, _ => []
  end.

Section Runs.
Context `{HashFn} (platform_mode : string).

Definition perform (op : pos_op) (s : PositionStore) : list movement * PositionStore :=
  match op with
  | OpOpenWindow d ses clock => ([], (open_window platform_mode d ses clock s).2)
  | OpTick k => ([], (window_tick platform_mode k s).2)
  | OpTransition k trig to changes => ([], (transition_window platform_mode k trig to changes s).2)
  | OpSetCap p a who app why from clock =>
      ([], (set_net_debit_cap platform_mode p a who app why from clock s).2)
  | OpDebit p a entry pay clock =>
      let '(r, s') := post_debit platform_mode p a entry pay clock s in (movement_of p s (- a) r, s')
  | OpCredit p a clock =>
      let '(r, s') := post_credit platform_mode p a clock s in (movement_of p s a r, s')
  end.

Fixpoint run_ops (ops : list pos_op) (s : PositionStore) : list movement * PositionStore :=
  match ops with
  | [] => ([], s)
  | op :: rest =>
      let '(m, s1) := perform op s in
      let '(ms, s2) := run_ops rest s1 in (m ++ ms, s2)
  end.

(** The signed sum of the movements of [p] in [w]. *)
Definition net_of (ms : list movement) (p w : string) : Z :=
  sumZ (fun '(p', w', d) => if bool_decide (p' = p /\ w' = w) then d else 0) ms.

(** * One call *)

(** What one call guarantees: the invariant; the positions move by what it
    reports; it moves only in a window that accumulates; no window reopens. *)
Record call_ok (s : PositionStore) (ms : list movement) (s' : PositionStore) : Prop := {
  call_store : store_ok s';
  call_net : forall p w, net s' p w = net s p w + net_of ms p w;
  call_window : forall p w d, (p, w, d) ∈ ms -> win_status s w = Some "ACCUMULATING_POSITIONS"%string;
  call_passed : forall k st, win_status s k = Some st -> passed st = true ->
    exists st', win_status s' k = Some st' /\ passed st' = true;
}.

Lemma same_windows_passed s s' k st :
  windows s' = windows s -> win_status s k = Some st -> passed st = true ->
  exists st', win_status s' k = Some st' /\ passed st' = true.
Proof. intros Hw Hk Hst. exists st. unfold win_status, get_window in *. by rewrite Hw. Qed.

Lemma quiet_call s s' : quiet s s' -> call_ok s [] s'.
Proof.
  intros (Hok & Hw & _ & Hm). split; [done| | |].
  - intros p w. rewrite Hm. cbn. lia.
  - by intros ? ? ? ?%not_elem_of_nil.
  - intros k st. by apply same_windows_passed.
Qed.

Lemma windows_call s s' : windows_step s s' -> call_ok s [] s'.
Proof.
  intros (Hok & Hp & _ & Hw). split; [done| | |done].
  - intros p w. rewrite (unmoved_same_positions s s') by done. cbn. lia.
  - by intros ? ? ? ?%not_elem_of_nil.
Qed.

Lemma moved_call s s' row p w d :
  store_ok s -> store_ok s' -> find_accumulating_window s = Some w ->
  windows s' = windows s -> moved s s' p (window_id w) d -> call_ok s (movement_of p s d (Ok row)) s'.
Proof.
  intros Hok Hok' Hf Hw Hm. unfold movement_of. rewrite Hf. split; [done| | |].
  - intros p' w'. rewrite Hm. cbn. rewrite Z.add_0_r. f_equal.
    rewrite (bool_decide_ext _ (p = p' /\ window_id w = w')); [done|]. split; by intros [-> ->].
  - intros p' w' d'. cbn. rewrite list_elem_of_singleton. intros [= -> -> ->].
    apply find_accumulating_spec in Hf as [Hin Hst]. unfold win_status.
    rewrite (proj2 (get_window_iff s (window_id w) w (ok_window_ids s Hok))) by done. cbn. by rewrite Hst.
  - intros k st. by apply same_windows_passed.
Qed.

Lemma refused_call s s' p d e : quiet s s' -> call_ok s (movement_of p s d (Err e)) s'.
Proof. intros Hq. unfold movement_of. by apply quiet_call. Qed.

Lemma perform_ok op s ms s' : store_ok s -> perform op s = (ms, s') -> call_ok s ms s'.
Proof.
  intros Hok. destruct op as [d ses clock|k|k trig to ch|p a who app why from clock|p a en pay clock|p a clock]; cbn [perform].
  - destruct (open_window _ _ _ _ _) as [r s1] eqn:Ho. intros [= <- <-].
    by eapply windows_call, open_window_step.
  - destruct (window_tick _ _ _) as [r s1] eqn:Ho. intros [= <- <-]. by eapply windows_call, window_tick_step.
  - destruct (transition_window _ _ _ _ _ _) as [r s1] eqn:Ho. intros [= <- <-].
    by eapply windows_call, transition_window_step.
  - destruct (set_net_debit_cap _ _ _ _ _ _ _ _ _) as [r s1] eqn:Ho. intros [= <- <-].
    apply set_cap_effect in Ho as (Hok' & Hw & Hp & _); [|done]. split; [done| | |].
    + intros p' w. rewrite (unmoved_same_positions s s1) by done. cbn. lia.
    + by intros ? ? ? ?%not_elem_of_nil.
    + intros k st. by apply same_windows_passed.
  - destruct (post_debit _ _ _ _ _ _ _) as [r s1] eqn:Ho. intros [= <- <-].
    apply post_debit_effect in Ho; [|done]. destruct r as [row|e]; [|by apply refused_call].
    destruct Ho as (w & c & Hf & _ & _ & Hk & _ & _ & Hok' & Hw & _ & Hm). by eapply moved_call.
  - destruct (post_credit _ _ _ _ _) as [r s1] eqn:Ho. intros [= <- <-].
    apply post_credit_effect in Ho; [|done]. destruct r as [row|e]; [|by apply refused_call].
    destruct Ho as (w & Hf & _ & Hk & _ & Hok' & Hw & _ & Hm). by eapply moved_call.
Qed.

Lemma net_of_app ms1 ms2 p w : net_of (ms1 ++ ms2) p w = net_of ms1 p w + net_of ms2 p w.
Proof. apply sumZ_app. Qed.

Lemma run_ops_spec ops : forall s ms s',
  store_ok s -> run_ops ops s = (ms, s') ->
  store_ok s' /\ (forall p w, net s' p w = net s p w + net_of ms p w) /\
  (forall k st, win_status s k = Some st -> passed st = true ->
     (exists st', win_status s' k = Some st' /\ passed st' = true) /\
     forall p, net_of ms p k = 0).
Proof.
  induction ops as [|op ops IH]; intros s ms s' Hok; cbn [run_ops].
  { intros [= <- <-]. split_and!; [done|intros; cbn; lia|]. intros k st Hk Hst. split; [by exists st|done]. }
  destruct (perform op s) as [m s1] eqn:Hp. destruct (run_ops ops s1) as [ms2 s2] eqn:Hr. intros [= <- <-].
  apply perform_ok in Hp as [Hok1 Hn1 Hw1 Hp1]; [|done].
  destruct (IH _ _ _ Hok1 Hr) as (Hok2 & Hn2 & Hp2). split_and!; [done| |].
  - intros p w. rewrite Hn2, Hn1, net_of_app. lia.
  - intros k st Hk Hst. destruct (Hp1 k st Hk Hst) as (st1 & Hk1 & Hst1).
    destruct (Hp2 k st1 Hk1 Hst1) as [He Hz]. split; [done|]. intros p. rewrite net_of_app, Hz, Z.add_0_r.
    apply sumZ_zero. intros [[p' w'] d] Hin. case_bool_decide as Hb; [|done]. destruct Hb as [-> ->].
    apply Hw1 in Hin. rewrite Hk in Hin. injection Hin as ->. discriminate Hst.
Qed.

(** * Properties *)

(** The store after a run from the empty one. *)
Definition after (ops : list pos_op) : PositionStore := (run_ops ops empty_positions).2.

Lemma after_ok ops : store_ok (after ops).
Proof.
  unfold after. destruct (run_ops ops _) as [ms s] eqn:Hr. apply run_ops_spec in Hr as [? _]; [done|].
  apply empty_ok.
Qed.

(** C35: the net debit cap holds.  After any sequence of calls, however they were
    refused or interleaved, a participant's position in a window is not below
    minus a cap that was set for that participant; caps are positive, one at most
    is active per participant, and there is one account per participant and
    window. *)
Theorem positions_within_caps ops p w :
  let s := after ops in
  (0 <= net s p w \/
   exists c, c ∈ caps s /\ cap_participant_id c = p /\ - net s p w <= cap_amount_minor c) /\
  Forall (fun c => 0 < cap_amount_minor c) (caps s) /\
  (forall c1 c2, c1 ∈ caps s -> c2 ∈ caps s -> superseded_at c1 = None -> superseded_at c2 = None ->
     cap_participant_id c1 = cap_participant_id c2 -> c1 = c2) /\
  NoDup ((fun r => (participant_id r, settlement_window_id r)) <$> positions s).
Proof.
  pose proof (after_ok ops) as Hok. cbv zeta. split_and!; try apply Hok. unfold net.
  destruct (get_position_account p w (after ops)) as [r|] eqn:Hg; [|by left]. cbn.
  apply get_position_iff in Hg as [Hin [= <- _]]; [|done].
  by apply (proj1 (Forall_forall _ _) (ok_within _ Hok)).
Qed.

(** C36: the positions are the sums of the accepted movements.  After any sequence
    of calls, the position of participant p in window w is the sum of the credits
    less the debits accepted in the calls made for p while w was the open window;
    a call for another participant, one made while another window was open, and a
    refused call move nothing of it. *)
Theorem position_is_net_of_movements ops p w :
  let '(ms, s) := run_ops ops empty_positions in net s p w = net_of ms p w.
Proof.
  destruct (run_ops ops empty_positions) as [ms s] eqn:Hr.
  apply run_ops_spec in Hr as (_ & Hn & _); [|apply empty_ok]. by rewrite Hn.
Qed.

(** A cutoff is final.  Once a window has left accumulation, no sequence of
    calls changes a position in it or lets it accumulate again. *)
Theorem cutoff_freezes_positions ops ops' k st p :
  win_status (after ops) k = Some st -> str_in st ["WINDOW_OPEN"; "ACCUMULATING_POSITIONS"] = false ->
  let s' := (run_ops ops' (after ops)).2 in
  net s' p k = net (after ops) p k /\
  exists st', win_status s' k = Some st' /\ str_in st' ["WINDOW_OPEN"; "ACCUMULATING_POSITIONS"] = false.
Proof.
  intros Hk Hst. destruct (run_ops ops' (after ops)) as [ms s'] eqn:Hr. cbn.
  apply run_ops_spec in Hr as (_ & Hn & Hp); [|apply after_ok].
  destruct (Hp k st Hk) as [(st' & Hk' & Hst') Hz]; [unfold passed; by rewrite Hst|].
  split; [rewrite Hn, Hz; lia|]. exists st'. split; [done|]. unfold passed in Hst'. by apply negb_true_iff in Hst'.
Qed.

(** The account the trigger selects, when the participant has one. *)
Lemma newest_account p s r :
  store_ok s -> r ∈ positions s -> participant_id r = p -> window_accumulating s (settlement_window_id r) = true ->
  (forall r', r' ∈ positions s -> participant_id r' = p ->
     window_accumulating s (settlement_window_id r') = true -> r' = r) ->
  foldl (newer_account p s) None (positions s) = Some r.
Proof.
  intros Hok Hin Hp Hw Hu.
  assert (Hg : forall l best, (forall x, x ∈ l -> x ∈ positions s) ->
    (best = Some r \/ best = None /\ r ∈ l) -> foldl (newer_account p s) best l = Some r);
    [|apply Hg; [done|by right]].
  induction l as [|x l IH]; intros best Hl Hb; cbn [foldl].
  - by destruct Hb as [->|[_ ?%not_elem_of_nil]].
  - assert (Hx : x ∈ positions s) by (apply Hl; by left).
    assert (Hl' : forall y, y ∈ l -> y ∈ positions s) by (intros y Hy; apply Hl; by right).
    unfold newer_account at 2. destruct (negb _) eqn:Hn.
    + apply IH; [done|]. destruct Hb as [?|[? [<-|?]%elem_of_cons]]; [by left| |by right].
      by rewrite Hp, String.eqb_refl, Hw in Hn.
    + bool_prop. assert (x = r) as -> by auto. apply IH; [done|].
      destruct Hb as [->|[-> _]]; left; [|done]. by rewrite Z.ltb_irrefl.
Qed.

#[local] Arguments find_accumulating_window : simpl never.
#[local] Arguments active_cap : simpl never.
#[local] Arguments get_position_account : simpl never.
#[local] Arguments update_position_account : simpl never.
#[local] Arguments Z.leb : simpl never.

(** A debit on an open account, step by step. *)
Lemma post_debit_open p a entry pay clock s w c r :
  platform_mode = "PSO"%string -> tz_aware clock = true -> 0 < a ->
  find_accumulating_window s = Some w -> active_cap p s = Some c ->
  get_position_account p (window_id w) s = Some r ->
  let new_net := net_position_minor r - a in
  let headroom := cap_amount_minor c - Z.max 0 (- new_net) in
  post_debit platform_mode p a entry pay clock s =
  if headroom <? 0
  then (do* _ := log_breach p a entry pay clock w c r in elift (Err (NdcBreachError p a headroom))) s
  else update_position_account (position_account_id r) (apply_debit new_net clock) s.
Proof.
  intros Hm Hc Ha Hw Hcap Hr new_net headroom.
  unfold post_debit, require_pso, p_now, _open_position_account. rewrite Hm, Hc.
  unfold ebind at 1 2 3 4. simpl. rewrite (proj2 (Z.leb_gt a 0)) by done. simpl. rewrite Hw, Hcap.
  unfold ebind at 1 2. simpl. rewrite Hr. simpl. fold new_net. fold headroom. by destruct (headroom <? 0).
Qed.

(** On the participant's only accumulating account, the forward decision of the
    trigger is the service's. *)
Lemma forward_agrees p a entry pay clock s w r :
  platform_mode = "PSO"%string -> tz_aware clock = true -> 0 < a -> store_ok s ->
  find_accumulating_window s = Some w -> get_position_account p (window_id w) s = Some r ->
  (forall r', r' ∈ positions s -> participant_id r' = p ->
     window_accumulating s (settlement_window_id r') = true -> r' = r) ->
  let mirror := post_debit platform_mode p a entry pay clock s in
  let trigger := forward_debit p a clock s in
  is_ok mirror.1 = is_ok trigger.1 /\
  (is_ok trigger.1 = true -> mirror.2 = trigger.2) /\
  (is_ok trigger.1 = false -> trigger.2 = s /\ forall p' w', net mirror.2 p' w' = net s p' w').
Proof.
  cbv zeta. intros Hm Hc Ha Hok Hw Hr Hu.
  pose proof (proj1 (get_position_iff s p (window_id w) r Hok) Hr) as [Hin [= Hp Hwk]].
  assert (Hacc : window_accumulating s (settlement_window_id r) = true).
  { apply find_accumulating_spec in Hw as [Hwin Hst]. unfold window_accumulating.
    rewrite Hwk, (proj2 (get_window_iff s _ w (ok_window_ids s Hok))) by done. by rewrite Hst. }
  unfold forward_debit. rewrite (newest_account p s r) by done.
  destruct (post_debit platform_mode p a entry pay clock s) as [res s1] eqn:Hd.
  pose proof (post_debit_effect _ _ _ _ _ _ _ _ _ Hok Hd) as Heff.
  destruct (active_cap p s) as [c|] eqn:Hcap.
  2:{ destruct res; [by destruct Heff as (? & ? & _ & ? & _)|]. cbn. split_and!; [done..|]. intros _. split; [done|apply Heff]. }
  rewrite (post_debit_open p a entry pay clock s w c r) in Hd by done. cbv zeta in Hd.
  destruct (_ <? 0) eqn:Hh in Hd |- *; cbn.
  - rewrite ebind_eq in Hd. destruct (log_breach _ _ _ _ _ _ _ _ _) as [[] ?]; injection Hd as <- <-; cbn;
      (split_and!; [done..|]; intros _; split; [done|apply Heff]).
  - destruct (update_position_effect s r (apply_debit (net_position_minor r - a) clock) Hok Hin) as (s2 & Hu' & _).
    { done. }
    { right. exists c. apply active_cap_elem in Hcap as [? ?]. split_and!; [done|congruence|cbn; lia]. }
    rewrite Hu' in Hd. injection Hd as <- <-. cbn. split_and!; [done| |done]. intros _.
    unfold update_position_account in Hu'. cbn in Hu'. destruct (List.find _ _); [|discriminate Hu'].
    exact (eq_sym (f_equal snd Hu')).
Qed.

(** The unwind path moves the participant's position in the window by the debit. *)
Lemma unwind_moves p k a clock s :
  store_ok s ->
  match get_position_account p k s with
  | Some _ => exists s', unwind_position p k a clock s = (Ok tt, s') /\ same_frame s s' /\ moved s s' p k (- a)
  | None => unwind_position p k a clock s = (Err (NDC_UNWIND_NO_POSITION_ROW (Some p) k), s)
  end.
Proof.
  intros Hok. unfold unwind_position. destruct (get_position_account p k s) as [r|] eqn:Hr; [|done].
  eexists. split_and!; [done..|]. intros p' w'. pose proof Hr as Hn.
  apply get_position_iff in Hr as [Hin Hk]; [|done]. rewrite replace_account_net by done. rewrite Hk.
  case_bool_decide as H1; case_bool_decide as H2; try lia.
  - injection H1 as <- <-. unfold net. rewrite Hn. cbn. lia.
  - exfalso. apply H2. by injection H1 as -> ->.
  - exfalso. apply H1. by destruct H2 as [-> ->].
Qed.

(** A debit posting of [a] on [p]'s position account, of the given entry. *)
Definition position_debit (p : string) (a : Z) (entry : option (string * string * string)) : new_posting :=
  mk_new_posting "DEBIT" a (Some ("PARTICIPANT_POSITION", Some p)) entry.

(** C37: where the service mirrors the database trigger, and where it does not.
    Take a debit of a participant whose account in the open window exists and is
    its only accumulating one, in any store the service can reach.  When the
    posting is not an unwind reversal and the participant has no participants row
    or an ACTIVE one, the service and the trigger take the same decision, an
    accepted debit leaves the same store, and a refused one moves no position in
    either.  When the row is not ACTIVE the trigger refuses every such debit and
    changes nothing (the service does not read the row).  When the posting is the
    unwind reversal of a window past its cutoff or failed, the trigger applies it
    whatever the cap and the status: it moves the participant's position in that
    window by the debit and nothing else, or refuses for want of an account
    there. *)
Theorem mirror_agrees_with_trigger ops p a entry pay clock w r kyb_status je :
  let s := after ops in
  platform_mode = "PSO"%string -> tz_aware clock = true -> 0 < a ->
  find_accumulating_window s = Some w -> get_position_account p (window_id w) s = Some r ->
  (forall r', r' ∈ positions s -> participant_id r' = p ->
     window_accumulating s (settlement_window_id r') = true -> r' = r) ->
  let mirror := post_debit platform_mode p a entry pay clock s in
  let trigger := enforce_net_debit_cap kyb_status (position_debit p a je) clock s in
  match unwound_window je s with
  | None =>
      if bool_decide (kyb_status p = None \/ kyb_status p = Some "ACTIVE"%string) then
        is_ok mirror.1 = is_ok trigger.1 /\
        (is_ok trigger.1 = true -> mirror.2 = trigger.2) /\
        (is_ok trigger.1 = false -> trigger.2 = s /\ forall p' w', net mirror.2 p' w' = net s p' w')
      else trigger = (Err (NDC_PARTICIPANT_NOT_ACTIVE p), s)
  | Some k =>
      match get_position_account p k s with
      | Some _ => exists s', trigger = (Ok tt, s') /\ same_frame s s' /\ moved s s' p k (- a)
      | None => trigger = (Err (NDC_UNWIND_NO_POSITION_ROW (Some p) k), s)
      end
  end.
Proof.
  cbv zeta. intros Hm Hc Ha Hw Hr Hu. unfold enforce_net_debit_cap. cbn [position_debit np_side np_account np_entry np_amount_minor].
  rewrite !String.eqb_refl. cbn [negb]. destruct (unwound_window je (after ops)) as [k|].
  { apply unwind_moves, after_ok. }
  case_bool_decide as Hk.
  - assert (match kyb_status p with
      | Some st => if negb (String.eqb st "ACTIVE") then (Err (NDC_PARTICIPANT_NOT_ACTIVE p), after ops)
                   else forward_debit p a clock (after ops)
      | None => forward_debit p a clock (after ops) end = forward_debit p a clock (after ops)) as ->.
    { by destruct Hk as [-> | ->]. }
    by apply (forward_agrees p a entry pay clock (after ops) w r); [..|apply after_ok| | |].
  - destruct (kyb_status p) as [st|]; [|exfalso; tauto].
    destruct (String.eqb_spec st "ACTIVE") as [->|]; [exfalso; tauto|done].
Qed.

Lemma insert_cap_duplicate row s : ndc_id row ∈ ndc_id <$> caps s -> insert_cap row s = (Err NdcError, s).
Proof.
  intros (c & He & Hc)%list_elem_of_fmap. unfold insert_cap. cbn.
  assert (List.existsb (fun r => String.eqb (ndc_id r) (ndc_id row)) (caps s) = true) as ->; [|done].
  apply List.existsb_exists. exists c. split; [by apply list_elem_of_In|]. by rewrite He, String.eqb_refl.
Qed.

(** Superseding the active cap: none is active, the row keeps its identifier. *)
Lemma supersede_active p s row now r s' :
  store_ok s -> active_cap p s = Some row -> supersede_cap (ndc_id row) now s = (r, s') ->
  r = Ok tt /\ active_cap p s' = None /\ ndc_id row ∈ ndc_id <$> caps s'.
Proof.
  intros Hok Hact Hs. pose proof (find_Some _ _ _ Hact) as [Hin Ha].
  unfold is_active_cap in Ha. bool_prop.
  unfold supersede_cap in Hs. cbn in Hs.
  destruct (List.find _ (caps s)) eqn:Hf.
  2:{ eapply find_None in Hf; [|exact Hin]. by rewrite String.eqb_refl in Hf. }
  injection Hs as <- <-. split_and!; [done| |].
  - apply active_cap_None. intros c Hc Hp Hn. apply active_replaced in Hc as [Hc Hne]; [|done].
    apply Hne. f_equal. apply (ok_active s Hok); try done; [|congruence].
    destruct (superseded_at row); [|done]. exfalso. eauto.
  - cbn. rewrite fmap_replace_row by done. by apply list_elem_of_fmap_2.
Qed.

(** Setting a cap is not atomic.  When a request to set a cap with an
    effective date is sent a second time, the service supersedes the cap it set,
    then fails on the duplicate identifier: the call raises and the participant
    is left without any active cap. *)
Theorem retried_cap_leaves_no_cap ops p a who app why from clock row s1 clock' :
  set_net_debit_cap platform_mode p a who app why (Some from) clock (after ops) = (Ok row, s1) ->
  tz_aware clock' = true -> micros clock' <= micros from ->
  let '(r, s2) := set_net_debit_cap platform_mode p a who app why (Some from) clock' s1 in
  r = Err NdcError /\ active_cap p s2 = None.
Proof.
  intros H1 Hc Hle. pose proof (set_cap_effect _ _ _ _ _ _ _ _ _ _ _ (after_ok ops) H1) as (Hok & _ & _ & Hact & _ & Ha).
  destruct (active_cap_elem _ _ _ Hact) as [Hin Hp].
  unfold set_net_debit_cap in H1. inv_eff. cbn [default id] in *.
  destruct (set_net_debit_cap platform_mode p a who app why (Some from) clock' p3) as [r s2] eqn:H2.
  unfold set_net_debit_cap, p_now in H2. rewrite Hc in H2. inv_eff; cbn [default id negb] in *; try congruence.
  { injection E5 as <-. lia. }
  all: match goal with Hs : context [supersede_cap] |- _ =>
    rewrite Hact in Hs; apply (supersede_active _ _ _ _ _ _ Hok Hact) in Hs as (Hr & Hno & Hid) end; try done.
  all: assert (a9 = a4) as -> by congruence; rewrite insert_cap_duplicate in E9 by exact Hid; inversion E9; subst; done.
Qed.
End Runs.

(** * A concrete run *)

#[local] Existing Instance Sha256.sha256_fn.

Definition day : datetime := mk_datetime true 63918000300007000.
Definition demo_window : string :=
  match p_make_id "swin" [("window_date", PStr "2026-06-01"); ("dns_session", PStr "AM")] with
  | Ok i => i | Err _ => "" end.

(** An open window and a cap of 1000 for the participant. *)
Definition demo_setup : list pos_op :=
  [OpOpenWindow "2026-06-01" "AM" day; OpTick demo_window;
   OpSetCap "part_a" 1000 "ops" "appr_1" "initial cap" None day].

(** A debit of 400, one of 700 that is refused, and a credit of 100. *)
Definition demo_ops : list pos_op :=
  demo_setup ++ [OpDebit "part_a" 400 None None day; OpDebit "part_a" 700 None None day;
                 OpCredit "part_a" 100 day].

Example demo_positions :
  net (after "PSO" demo_ops) "part_a" demo_window = -300 /\ length (breaches (after "PSO" demo_ops)) = 1%nat.
Proof. vm_compute. auto. Qed.

(** The trigger does not open accounts: it refuses the first debit of a
    participant in a window, which the service accepts. *)
Example trigger_refuses_the_first_debit :
  is_ok (post_debit "PSO" "part_a" 400 None None day (after "PSO" demo_setup)).1 = true /\
  (enforce_net_debit_cap (fun _ => None) (position_debit "part_a" 400 None) day (after "PSO" demo_setup)).1 =
    Err (NDC_NO_OPEN_WINDOW (Some "part_a")).
Proof. vm_compute. auto. Qed.

Definition demo_cutoff : list pos_op :=
  demo_ops ++ [OpTransition demo_window "cutoff_reached" "CUTOFF_REACHED" [SetCutoffAt (Some day)]].

Lemma cutoff_freezes_positions_witness :
  net (run_ops "PSO" [OpDebit "part_a" 10 None None day] (after "PSO" demo_cutoff)).2 "part_a" demo_window = -300.
Proof.
  pose proof (cutoff_freezes_positions "PSO" demo_cutoff [OpDebit "part_a" 10 None None day] demo_window
    "CUTOFF_REACHED" "part_a") as Hc.
  destruct Hc as [Hn _]; [vm_compute; reflexivity..|]. rewrite Hn. vm_compute. reflexivity.
Defined.

Definition demo_account_row : PositionAccountRow :=
  match positions (after "PSO" demo_ops) with
  | r :: _ => r
  | [] => mk_PositionAccountRow "" "" "" 0 "" 0 0 0 None "" day
  end.
Definition demo_window_row : SettlementWindowRow :=
  match windows (after "PSO" demo_ops) with
  | w :: _ => w
  | [] => mk_SettlementWindowRow "" "" "" "" day None None None None None None "" None None None false None 0 None
  end.

(** An unwind of an entry of window [k]. *)
Definition demo_unwind (k : string) : option (string * string * string) :=
  Some ("payment_reversed", "SETTLEMENT", k).

(** The first window past its cutoff, a second one open, an account in each. *)
Definition demo_window2 : string :=
  match p_make_id "swin" [("window_date", PStr "2026-06-01"); ("dns_session", PStr "PM")] with
  | Ok i => i | Err _ => "" end.
Definition demo_two_windows : list pos_op :=
  demo_cutoff ++ [OpOpenWindow "2026-06-01" "PM" day; OpTick demo_window2; OpDebit "part_a" 900 None None day].
Definition second_account : PositionAccountRow :=
  match positions (after "PSO" demo_two_windows) with
  | [_; r] => r
  | _ => demo_account_row
  end.
Definition second_window : SettlementWindowRow :=
  default demo_window_row (get_window demo_window2 (after "PSO" demo_two_windows)).

Lemma mirror_agrees_with_trigger_witness :
  is_ok (post_debit "PSO" "part_a" 800 None None day (after "PSO" demo_ops)).1 = false /\
  is_ok (post_debit "PSO" "part_a" 700 None None day (after "PSO" demo_ops)).1 =
  is_ok (enforce_net_debit_cap (fun _ => Some "ACTIVE") (position_debit "part_a" 700 None) day (after "PSO" demo_ops)).1 /\
  enforce_net_debit_cap (fun _ => Some "SUSPENDED") (position_debit "part_a" 700 None) day (after "PSO" demo_ops) =
    (Err (NDC_PARTICIPANT_NOT_ACTIVE "part_a"), after "PSO" demo_ops) /\
  exists s', enforce_net_debit_cap (fun _ => Some "SUSPENDED") (position_debit "part_a" 5000 (demo_unwind demo_window))
      day (after "PSO" demo_two_windows) = (Ok tt, s') /\ net s' "part_a" demo_window = -5300.
Proof.
  assert (Hu : forall r', r' ∈ positions (after "PSO" demo_ops) -> participant_id r' = "part_a" ->
    window_accumulating (after "PSO" demo_ops) (settlement_window_id r') = true -> r' = demo_account_row).
  { intros r' Hr _ _. assert (He : positions (after "PSO" demo_ops) = [demo_account_row]) by (vm_compute; reflexivity).
    rewrite He in Hr. apply list_elem_of_singleton in Hr. exact Hr. }
  split; [vm_compute; reflexivity|]. split; [|split].
  - apply (mirror_agrees_with_trigger "PSO" demo_ops "part_a" 700 None None day demo_window_row demo_account_row
      (fun _ => Some "ACTIVE") None); [vm_compute; reflexivity..|exact Hu].
  - apply (mirror_agrees_with_trigger "PSO" demo_ops "part_a" 700 None None day demo_window_row demo_account_row
      (fun _ => Some "SUSPENDED") None); [vm_compute; reflexivity..|exact Hu].
  - pose proof (mirror_agrees_with_trigger "PSO" demo_two_windows "part_a" 5000 None None day second_window second_account
      (fun _ => Some "SUSPENDED") (demo_unwind demo_window)) as Hm. cbv zeta in Hm.
    assert (Hw : unwound_window (demo_unwind demo_window) (after "PSO" demo_two_windows) = Some demo_window)
      by (vm_compute; reflexivity).
    rewrite Hw in Hm.
    destruct (get_position_account "part_a" demo_window (after "PSO" demo_two_windows)) as [r0|] eqn:Hg;
      [|vm_compute in Hg; discriminate Hg].
    destruct Hm as (s' & Ht & _ & Hmv); [vm_compute; reflexivity..| |].
    + intros r' Hr _ Hacc.
      assert (He : exists r1, positions (after "PSO" demo_two_windows) = [r1; second_account] /\
        window_accumulating (after "PSO" demo_two_windows) (settlement_window_id r1) = false)
        by (eexists; split; vm_compute; reflexivity).
      destruct He as (r1 & He & Hr1). rewrite He in Hr. apply elem_of_cons in Hr as [-> | Hr]; [congruence|].
      apply list_elem_of_singleton in Hr. exact Hr.
    + exists s'. split; [exact Ht|]. rewrite (Hmv "part_a" demo_window). vm_compute. reflexivity.
Defined.

Lemma retried_cap_leaves_no_cap_witness :
  exists row s1 s2,
    set_net_debit_cap "PSO" "part_a" 2000 "ops" "appr_2" "raise" (Some day) day (after "PSO" demo_ops) = (Ok row, s1) /\
    set_net_debit_cap "PSO" "part_a" 2000 "ops" "appr_2" "raise" (Some day) day s1 = (Err NdcError, s2) /\
    active_cap "part_a" s2 = None.
Proof.
  destruct (set_net_debit_cap "PSO" "part_a" 2000 "ops" "appr_2" "raise" (Some day) day (after "PSO" demo_ops))
    as [[row|e] s1] eqn:He; [|vm_compute in He; discriminate He].
  destruct (set_net_debit_cap "PSO" "part_a" 2000 "ops" "appr_2" "raise" (Some day) day s1) as [r s2] eqn:H2.
  pose proof (retried_cap_leaves_no_cap "PSO" demo_ops "part_a" 2000 "ops" "appr_2" "raise" day day row s1 day He
    eq_refl (Z.le_refl _)) as Hr.
  rewrite H2 in Hr. destruct Hr as [-> Hn]. exists row, s1, s2. split; [reflexivity|]. split; [exact H2|exact Hn].
Defined.
