(* ===== verification/Breaker.v ===== *)
(** The per-connector circuit breaker (connectors/breaker.py) over the in-memory
    record store.  Each call makes one reading of the clock, [now]; a store whose
    [load] raises is a call with [readable = false].  Durations are exact in
    microseconds.  Then what it guarantees: no submission on a suspect rail. *)
From S2P Require Import Prelude Exceptions DateTime Sha256 Canonical.
Open Scope Z_scope.

Inductive bstate : Type := CLOSED | OPEN | HALF_OPEN.
#[export] Instance bstate_eq_dec : EqDecision bstate.
Proof. solve_decision. Defined.

Record BreakerConfig : Type := mk_BreakerConfig {
  cfg_failure_threshold : Z;
  cfg_window_s : Z;
  cfg_cooldown_s : Z;
  cfg_probe_quota : Z;
  informational : bool;
}.

(** [BreakerConfig()] *)
Definition default_breaker_config : BreakerConfig := mk_BreakerConfig 5 60 30 3 false.

Record BreakerRecord : Type := mk_BreakerRecord {
  breaker_id : string;
  connector_id : string;
  b_state : bstate;
  consecutive_failures : Z;
  window_started_at : option datetime;
  b_opened_at : option datetime;
  half_open_successes : Z;
  half_open_probes : Z;
  failure_threshold : Z;
  window_s : Z;
  cooldown_s : Z;
  probe_quota : Z;
  updated_at : option datetime;
}.

(** A row of the audit trail and an emitted event. *)
Record AuditRow : Type := mk_AuditRow {
  audit_type : string;
  audit_actor : string;
  audit_at : datetime;
  audit_connector : string;
  audit_reason : option string;
}.
Record EventRow : Type := mk_EventRow {
  event_name : string;
  event_connector : string;
  event_failures : option (Z * Z);  (* consecutive_failures, window_s *)
}.

Record Breaker : Type := mk_Breaker {
  records : gmap string BreakerRecord;
  audit_log : list AuditRow;
  event_log : list EventRow;
}.

(** [BreakerResetDeniedError], a store that cannot be read, and the exceptions of
    the platform. *)
Inductive berr : Type := BreakerResetDeniedError | StoreError | BRaised (e : exn).

Definition beff := eff Breaker berr.

Definition _FAILURE_STATUSES : list string := ["failed"; "timed_out"].
Definition _PROBE_KINDS : list string := ["HEALTH"; "QUERY_STATUS"].
Definition _SYSTEM_ACTOR : string := "system:circuit-breaker".

(** * Records *)

Definition set_open (now : datetime) (r : BreakerRecord) : BreakerRecord :=
  mk_BreakerRecord (breaker_id r) (connector_id r) OPEN (consecutive_failures r) (window_started_at r)
    (Some now) 0 0 (failure_threshold r) (window_s r) (cooldown_s r) (probe_quota r) (updated_at r).
Definition set_half_open (r : BreakerRecord) : BreakerRecord :=
  mk_BreakerRecord (breaker_id r) (connector_id r) HALF_OPEN (consecutive_failures r) (window_started_at r)
    (b_opened_at r) 0 0 (failure_threshold r) (window_s r) (cooldown_s r) (probe_quota r) (updated_at r).
Definition set_closed (r : BreakerRecord) : BreakerRecord :=
  mk_BreakerRecord (breaker_id r) (connector_id r) CLOSED 0 None None 0 0
    (failure_threshold r) (window_s r) (cooldown_s r) (probe_quota r) (updated_at r).
Definition set_failures (n : Z) (start : option datetime) (r : BreakerRecord) : BreakerRecord :=
  mk_BreakerRecord (breaker_id r) (connector_id r) (b_state r) n start (b_opened_at r)
    (half_open_successes r) (half_open_probes r) (failure_threshold r) (window_s r) (cooldown_s r)
    (probe_quota r) (updated_at r).
Definition add_success (r : BreakerRecord) : BreakerRecord :=
  mk_BreakerRecord (breaker_id r) (connector_id r) (b_state r) (consecutive_failures r) (window_started_at r)
    (b_opened_at r) (half_open_successes r + 1) (half_open_probes r) (failure_threshold r) (window_s r)
    (cooldown_s r) (probe_quota r) (updated_at r).
Definition add_probe (r : BreakerRecord) : BreakerRecord :=
  mk_BreakerRecord (breaker_id r) (connector_id r) (b_state r) (consecutive_failures r) (window_started_at r)
    (b_opened_at r) (half_open_successes r) (half_open_probes r + 1) (failure_threshold r) (window_s r)
    (cooldown_s r) (probe_quota r) (updated_at r).
Definition touch (now : datetime) (r : BreakerRecord) : BreakerRecord :=
  mk_BreakerRecord (breaker_id r) (connector_id r) (b_state r) (consecutive_failures r) (window_started_at r)
    (b_opened_at r) (half_open_successes r) (half_open_probes r) (failure_threshold r) (window_s r)
    (cooldown_s r) (probe_quota r) (Some now).

Definition CONNECTOR_PREFIXES : list string :=
  ["creg"; "cmode"; "chlth"; "cbrk"; "winb"; "simsc"; "certr"; "iso"; "stan"; "rsess"; "saf"; "bfile";
   "bent"; "bret"; "rtgsm"; "cauth"; "rdict"].

Section Breaker.
Context `{HashFn} (configs : gmap string BreakerConfig).

Definition make_connector_id (prefix : string) (payload : pyobj) : res exn string :=
  if str_in prefix PREFIXES then make_id prefix payload
  else
    raise IdPrefixError when (negb (str_in prefix CONNECTOR_PREFIXES)) else
    raise TypeError when (negb (is_dict payload)) else
    let* h := sha256_canonical payload in
    Ok (prefix +:+ "_" +:+ str_take HASH_LENGTH h).

Definition _config (cid : string) : BreakerConfig := default default_breaker_config (configs !! cid).

(** [make_breaker_record] with the thresholds of [cfg]. *)
Definition make_breaker_record (cid : string) (cfg : BreakerConfig) : res berr BreakerRecord :=
  match make_connector_id "cbrk" (dict [("connector_id", PStr cid)]) with
  | Err e => Err (BRaised e)
  | Ok i => Ok (mk_BreakerRecord i cid CLOSED 0 None None 0 0 (cfg_failure_threshold cfg) (cfg_window_s cfg)
                  (cfg_cooldown_s cfg) (cfg_probe_quota cfg) None)
  end.

Definition _default_record (cid : string) (now : datetime) : res berr BreakerRecord :=
  let* record := make_breaker_record cid (_config cid) in Ok (touch now record).

Definition load (readable : bool) (cid : string) : beff (option BreakerRecord) :=
  refuse StoreError when (negb readable) else
  do* s := eget in eret (records s !! cid).

Definition save (r : BreakerRecord) : beff unit :=
  do* s := eget in
  eput (mk_Breaker (<[connector_id r := r]> (records s)) (audit_log s) (event_log s)).

Definition _load_or_default (readable : bool) (cid : string) (now : datetime) : beff BreakerRecord :=
  do* record := load readable cid in
  match record with Some r => eret r | None => elift (_default_record cid now) end.

Definition _load_or_create (readable : bool) (cid : string) (now : datetime) : beff BreakerRecord :=
  do* record := load readable cid in
  match record with
  | Some r => eret r
  | None => do* r := elift (_default_record cid now) in do* _ := save r in eret r
  end.

Definition _save (r : BreakerRecord) (now : datetime) : beff BreakerRecord :=
  do* _ := save (touch now r) in eret (touch now r).

(** [self._audit.record(...)] and [self._events.emit(...)] *)
Definition publish (a : AuditRow) (e : EventRow) : beff unit :=
  do* s := eget in eput (mk_Breaker (records s) (audit_log s ++ [a]) (event_log s ++ [e])).

Definition _to_open (r : BreakerRecord) (reason : string) (now : datetime) : beff BreakerRecord :=
  do* r := _save (set_open now r) now in
  do* _ := publish (mk_AuditRow "CONNECTOR_CIRCUIT_OPENED" _SYSTEM_ACTOR now (connector_id r) (Some reason))
             (mk_EventRow "connector_registration.circuit_opened" (connector_id r)
                (Some (consecutive_failures r, window_s r))) in
  eret r.

Definition _to_half_open (r : BreakerRecord) (actor : string) (now : datetime) : beff BreakerRecord :=
  do* r := _save (set_half_open r) now in
  do* _ := publish (mk_AuditRow "CONNECTOR_CIRCUIT_HALF_OPENED" actor now (connector_id r) None)
             (mk_EventRow "connector_registration.circuit_half_opened" (connector_id r) None) in
  eret r.

Definition _to_closed (r : BreakerRecord) (now : datetime) : beff BreakerRecord :=
  do* r := _save (set_closed r) now in
  do* _ := publish (mk_AuditRow "CONNECTOR_CIRCUIT_CLOSED" _SYSTEM_ACTOR now (connector_id r) None)
             (mk_EventRow "connector_registration.circuit_closed" (connector_id r) None) in
  eret r.

(** Seconds, as microseconds. *)
Definition seconds (n : Z) : Z := n * 1000000.

Definition _maybe_cooldown (r : BreakerRecord) (now : datetime) : beff BreakerRecord :=
  match b_state r, b_opened_at r with
  | OPEN, Some t =>
      if seconds (cooldown_s r) <=? micros now - micros t then _to_half_open r _SYSTEM_ACTOR now else eret r
  | _, _ => eret r
  end.

Definition admit_call (readable : bool) (cid kind : string) (now : datetime) : beff bool := fun s =>
  match _load_or_default readable cid now s with
  | (Err _, s) => (Ok false, s)
  | (Ok record, s) =>
      (if informational (_config cid) then eret true
       else
         do* record := _maybe_cooldown record now in
         match b_state record with
         | CLOSED => eret true
         | OPEN => eret false
         | HALF_OPEN =>
             if String.eqb kind "HEALTH" then eret true
             else if str_in kind _PROBE_KINDS then
               if probe_quota record <=? half_open_probes record then eret false
               else do* _ := _save (add_probe record) now in eret true
             else eret false
         end) s
  end.

Definition is_failure (status : string) (transport_error : bool) : bool :=
  transport_error || str_in status _FAILURE_STATUSES.

(** A failure observed while CLOSED. *)
Definition count_failure (r : BreakerRecord) (now : datetime) : BreakerRecord :=
  let window_expired :=
    match window_started_at r with
    | None => true
    | Some t => seconds (window_s r) <? micros now - micros t
    end in
  if window_expired then set_failures 1 (Some now) r
  else set_failures (consecutive_failures r + 1) (window_started_at r) r.

Definition observe (readable : bool) (cid status : string) (transport_error : bool) (now : datetime) :
    beff unit := fun s =>
  match _load_or_create readable cid now s with
  | (Err _, s) => (Ok tt, s)
  | (Ok record, s) =>
      let failure := is_failure status transport_error in
      (match b_state record with
       | OPEN => eret tt
       | HALF_OPEN =>
           if failure then do* _ := _to_open record "probe_failed" now in eret tt
           else
             let record := add_success record in
             if probe_quota record <=? half_open_successes record
             then do* _ := _to_closed record now in eret tt
             else do* _ := _save record now in eret tt
       | CLOSED =>
           if negb failure then do* _ := _save (set_failures 0 None record) now in eret tt
           else
             let record := count_failure record now in
             if failure_threshold record <=? consecutive_failures record
             then do* _ := _to_open record "failure_threshold" now in eret tt
             else do* _ := _save record now in eret tt
       end) s
  end.

Definition reset_breaker (readable : bool) (cid actor : string) (now : datetime) : beff unit :=
  do* record := _load_or_default readable cid now in
  refuse BreakerResetDeniedError when (negb (bool_decide (b_state record = OPEN))) else
  do* _ := _to_half_open record actor now in eret tt.

Definition breaker_state (readable : bool) (cid : string) (now : datetime) : beff bstate := fun s =>
  match _load_or_default readable cid now s with
  | (Err _, s) => (Ok OPEN, s)
  | (Ok record, s) => (do* record := _maybe_cooldown record now in eret (b_state record)) s
  end.
End Breaker.

(** A call of the breaker. *)
Inductive brk_op : Type :=
| BAdmit (readable : bool) (cid kind : string) (now : datetime)
| BObserve (readable : bool) (cid status : string) (transport_error : bool) (now : datetime)
| BReset (readable : bool) (cid actor : string) (now : datetime)
| BState (readable : bool) (cid : string) (now : datetime).

Definition op_connector (op : brk_op) : string :=
  match op with
  | BAdmit _ c _ _ | BObserve _ c _ _ _ | BReset _ c _ _ | BState _ c _ => c
  end.
Definition op_time (op : brk_op) : Z :=
  match op with
  | BAdmit _ _ _ t | BObserve _ _ _ _ t | BReset _ _ _ t | BState _ _ t => micros t
  end.
Definition is_reset (op : brk_op) : bool := match op with BReset _ _ _ _ => true | _ => false end.

(** An observation of connector [cid] that is not a failure. *)
Definition healthy (cid : string) (op : brk_op) : bool :=
  match op with
  | BObserve _ c status terr _ => String.eqb c cid && negb (is_failure status terr)
  | _ => false
  end.

Section Facts.
Context `{HashFn} (configs : gmap string BreakerConfig).

Definition brk_perform (op : brk_op) (s : Breaker) : Breaker :=
  match op with
  | BAdmit rd c kind now => (admit_call configs rd c kind now s).2
  | BObserve rd c status terr now => (observe configs rd c status terr now s).2
  | BReset rd c actor now => (reset_breaker configs rd c actor now s).2
  | BState rd c now => (breaker_state configs rd c now s).2
  end.

Definition brk_run (ops : list brk_op) (s : Breaker) : Breaker := foldl (fun s op => brk_perform op s) s ops.

(** * The automaton of one record *)

Definition OPENED : string := "CONNECTOR_CIRCUIT_OPENED".
Definition HALF_OPENED : string := "CONNECTOR_CIRCUIT_HALF_OPENED".
Definition RECLOSED : string := "CONNECTOR_CIRCUIT_CLOSED".

(** The cooldown of an open record. *)
Definition cool (now : datetime) (r : BreakerRecord) : BreakerRecord * list string :=
  match b_state r, b_opened_at r with
  | OPEN, Some t =>
      if seconds (cooldown_s r) <=? micros now - micros t then (touch now (set_half_open r), [HALF_OPENED])
      else (r, [])
  | _, _ => (r, [])
  end.

(** What a call makes of the record of its connector, and the changes of state it
    records. *)
Definition next (op : brk_op) (r : BreakerRecord) : BreakerRecord * list string :=
  match op with
  | BAdmit _ c kind now =>
      if informational (_config configs c) then (r, [])
      else
        let '(r1, es) := cool now r in
        if bool_decide (b_state r1 = HALF_OPEN) && negb (String.eqb kind "HEALTH") && str_in kind _PROBE_KINDS &&
           negb (probe_quota r1 <=? half_open_probes r1)
        then (touch now (add_probe r1), es) else (r1, es)
  | BObserve _ _ status terr now =>
      match b_state r with
      | OPEN => (r, [])
      | HALF_OPEN =>
          if is_failure status terr then (touch now (set_open now r), [OPENED])
          else if probe_quota r <=? half_open_successes r + 1 then (touch now (set_closed r), [RECLOSED])
          else (touch now (add_success r), [])
      | CLOSED =>
          if negb (is_failure status terr) then (touch now (set_failures 0 None r), [])
          else
            let r1 := count_failure r now in
            if failure_threshold r1 <=? consecutive_failures r1 then (touch now (set_open now r1), [OPENED])
            else (touch now r1, [])
      end
  | BReset _ _ _ now =>
      if bool_decide (b_state r = OPEN) then (touch now (set_half_open r), [HALF_OPENED]) else (r, [])
  | BState _ _ now => cool now r
  end.

Definition op_readable (op : brk_op) : bool :=
  match op with BAdmit rd _ _ _ | BObserve rd _ _ _ _ | BReset rd _ _ _ | BState rd _ _ => rd end.
Definition is_observe (op : brk_op) : bool := match op with BObserve _ _ _ _ _ => true | _ => false end.
Definition op_now (op : brk_op) : datetime :=
  match op with BAdmit _ _ _ t | BObserve _ _ _ _ t | BReset _ _ _ t | BState _ _ t => t end.

(** The record a call works on: the stored one, or a fresh closed one. *)
Definition current (s : Breaker) (cid : string) (now : datetime) : res berr BreakerRecord :=
  match records s !! cid with Some r => Ok r | None => _default_record configs cid now end.

(** The state changes that were recorded for connector [cid]. *)
Definition trail (cid : string) (s : Breaker) : list string :=
  audit_type <$> filter (fun a => audit_connector a = cid) (audit_log s).

Definition keyed_ok (s : Breaker) : Prop := forall c r, records s !! c = Some r -> connector_id r = c.

(** What a call leaves behind: the record of its connector and the trail. *)
Definition effect (op : brk_op) (r : BreakerRecord) (s : Breaker) (out : BreakerRecord * list string) (s' : Breaker) : Prop :=
  let c := op_connector op in
  (records s' = <[c := out.1]> (records s) \/ records s' = records s /\ out.1 = r /\ is_observe op = false) /\
  exists rows, audit_log s' = audit_log s ++ rows /\ Forall (fun a => audit_connector a = c) rows /\
    audit_type <$> rows = out.2.

Definition refines (op : brk_op) (s s' : Breaker) : Prop :=
  match current s (op_connector op) (op_now op) with
  | Ok r => if op_readable op then effect op r s (next op r) s' else s' = s
  | Err _ => s' = s
  end.

Lemma default_record_spec c now r :
  _default_record configs c now = Ok r ->
  connector_id r = c /\ b_state r = CLOSED /\ half_open_successes r = 0 /\ consecutive_failures r = 0 /\
  window_started_at r = None.
Proof.
  unfold _default_record, make_breaker_record. destruct (make_connector_id _ _); cbn; [|done]. by intros [= <-].
Qed.

Lemma load_or_default_eq rd c now s :
  _load_or_default configs rd c now s = if rd then (current s c now, s) else (Err StoreError, s).
Proof. unfold _load_or_default, load, current. destruct rd; [|done]. cbn. by destruct (records s !! c). Qed.

(** One audit row for the connector. *)
Definition logged (c e : string) (s s' : Breaker) : Prop :=
  exists a, audit_log s' = audit_log s ++ [a] /\ audit_connector a = c /\ audit_type a = e.

Lemma to_half_open_eq r actor now s c :
  connector_id r = c ->
  exists s', _to_half_open r actor now s = (Ok (touch now (set_half_open r)), s') /\
    records s' = <[c := touch now (set_half_open r)]> (records s) /\ logged c HALF_OPENED s s'.
Proof. intros <-. eexists. split; [reflexivity|]. split; [done|]. by eexists. Qed.

Lemma to_open_eq r reason now s c :
  connector_id r = c ->
  exists s', _to_open r reason now s = (Ok (touch now (set_open now r)), s') /\
    records s' = <[c := touch now (set_open now r)]> (records s) /\ logged c OPENED s s'.
Proof. intros <-. eexists. split; [reflexivity|]. split; [done|]. by eexists. Qed.

Lemma to_closed_eq r now s c :
  connector_id r = c ->
  exists s', _to_closed r now s = (Ok (touch now (set_closed r)), s') /\
    records s' = <[c := touch now (set_closed r)]> (records s) /\ logged c RECLOSED s s'.
Proof. intros <-. eexists. split; [reflexivity|]. split; [done|]. by eexists. Qed.

Lemma cooldown_eq r now s c :
  connector_id r = c ->
  exists s', _maybe_cooldown r now s = (Ok (cool now r).1, s') /\
    ((cool now r).2 = [] /\ (cool now r).1 = r /\ s' = s \/
     (cool now r).2 = [HALF_OPENED] /\ records s' = <[c := (cool now r).1]> (records s) /\ logged c HALF_OPENED s s').
Proof.
  intros Hc. unfold _maybe_cooldown, cool.
  destruct (b_state r); [by eexists; split; [|left]| |by eexists; split; [|left]].
  destruct (b_opened_at r); [|by eexists; split; [|left]].
  destruct (_ <=? _); [|by eexists; split; [|left]].
  destruct (to_half_open_eq r _SYSTEM_ACTOR now s c Hc) as (s' & He & Hr & Hl). exists s'.
  split; [done|]. by right.
Qed.

Lemma effect_none op r s : is_observe op = false -> effect op r s (r, []) s.
Proof. intros Ho. split; [by right|]. exists []. by rewrite app_nil_r. Qed.

Lemma effect_logged op r s s' e r' :
  records s' = <[op_connector op := r']> (records s) -> logged (op_connector op) e s s' -> effect op r s (r', [e]) s'.
Proof.
  intros Hr (a & Ha & Hc & Ht). split; [by left|]. exists [a]. split_and!; [done|by apply Forall_singleton|].
  cbn. by rewrite Ht.
Qed.

Lemma effect_saved op r s r' :
  connector_id r' = op_connector op ->
  effect op r s (touch (op_now op) r', []) (_save r' (op_now op) s).2.
Proof. intros Hc. split; [left; cbn; by rewrite Hc|]. exists []. by rewrite app_nil_r. Qed.

(** A second write to the same record. *)
Lemma effect_again op r r1 r2 s s1 s2 es :
  effect op r s (r1, es) s1 -> records s2 = <[op_connector op := r2]> (records s1) -> audit_log s2 = audit_log s1 ->
  effect op r s (r2, es) s2.
Proof.
  intros [Hr Hrows] H2 Ha. unfold effect in *. cbn in *. rewrite Ha. split; [|done]. left. rewrite H2.
  destruct Hr as [->|[-> _]]; [by rewrite insert_insert_eq|done].
Qed.

Lemma effect_cool op r now s s' :
  is_observe op = false -> connector_id r = op_connector op ->
  _maybe_cooldown r now s = (Ok (cool now r).1, s') -> effect op r s (cool now r) s'.
Proof.
  intros Ho Hc Hm. destruct (cooldown_eq r now s _ Hc) as (s1 & Hm' & Hcase). rewrite Hm in Hm'.
  injection Hm' as ->. destruct (cool now r) as [r1 es]. cbn in *.
  destruct Hcase as [(-> & -> & ->)|(-> & Hr & Hl)]; [by apply effect_none|by apply effect_logged].
Qed.

Lemma cool_connector now r : connector_id (cool now r).1 = connector_id r.
Proof. unfold cool. by repeat case_match. Qed.

Lemma admit_refines rd c kind now s r :
  connector_id r = c -> current s c now = Ok r -> rd = true ->
  effect (BAdmit rd c kind now) r s (next (BAdmit rd c kind now) r) (admit_call configs rd c kind now s).2.
Proof.
  intros Hc Hcur ->. unfold admit_call. rewrite load_or_default_eq, Hcur. cbn [next].
  destruct (informational _); [by apply effect_none|].
  destruct (cooldown_eq r now s c Hc) as (s1 & Hm & _). rewrite ebind_eq, Hm.
  apply (effect_cool (BAdmit true c kind now)) in Hm; [|done..].
  pose proof (cool_connector now r) as Hc1. destruct (cool now r) as [r1 es]. cbn [fst snd] in *.
  destruct (b_state r1) eqn:Hst; [done|done|]. rewrite bool_decide_true by done. cbn [andb].
  destruct (String.eqb kind "HEALTH"); [done|]. destruct (str_in kind _PROBE_KINDS); [|done]. cbn [andb negb].
  destruct (_ <=? _); [done|]. eapply effect_again; [exact Hm| |done]. cbn. by rewrite Hc1, Hc.
Qed.

(** The record an observation works on is in the store. *)
Lemma load_or_create_eq c now s r :
  connector_id r = c -> current s c now = Ok r ->
  exists s1, _load_or_create configs true c now s = (Ok r, s1) /\
    records s1 = <[c := r]> (records s) /\ audit_log s1 = audit_log s.
Proof.
  unfold current, _load_or_create, load. intros Hc Hcur. cbn. destruct (records s !! c) as [r'|] eqn:Hr.
  - injection Hcur as ->. exists s. split; [done|]. split; [|done]. symmetry. by apply insert_id.
  - unfold elift. rewrite Hcur. cbn. eexists. split; [done|]. cbn. by rewrite Hc.
Qed.

Lemma observe_refines rd c status terr now s r :
  connector_id r = c -> current s c now = Ok r -> rd = true ->
  effect (BObserve rd c status terr now) r s (next (BObserve rd c status terr now) r)
    (observe configs rd c status terr now s).2.
Proof.
  intros Hc Hcur ->. destruct (load_or_create_eq c now s r Hc Hcur) as (s1 & Hl & Hr1 & Ha1).
  set (op := BObserve true c status terr now).
  assert (He : effect op r s (r, []) s1).
  { split; [by left|]. exists []. by rewrite app_nil_r, Ha1. }
  assert (Hto : forall r' e s2, records s2 = <[c := r']> (records s1) -> logged c e s1 s2 -> effect op r s (r', [e]) s2).
  { intros r' e s2 Hr2 (a & Ha & Hac & Hat). split; [left; cbn; by rewrite Hr2, Hr1, insert_insert_eq|].
    exists [a]. rewrite Ha, Ha1. split_and!; [done|by apply Forall_singleton|]. cbn. by rewrite Hat. }
  assert (Hsave : forall r', connector_id r' = c -> effect op r s (touch now r', []) (_save r' now s1).2).
  { intros r' Hc'. eapply effect_again; [exact He| |done]. cbn. by rewrite Hc'. }
  unfold observe. rewrite Hl. unfold op at 2. cbn [next]. destruct (b_state r).
  - destruct (is_failure status terr) eqn:Hf; cbn [negb].
    2:{ by apply (Hsave (set_failures 0 None r)). }
    assert (Hcc : connector_id (count_failure r now) = c) by (unfold count_failure; by repeat case_match).
    destruct (_ <=? _); [|by apply (Hsave (count_failure r now))].
    destruct (to_open_eq (count_failure r now) "failure_threshold" now s1 c Hcc) as (s2 & Ho & Hr2 & Hl2).
    rewrite ebind_eq, Ho. by apply Hto.
  - done.
  - destruct (is_failure status terr).
    + destruct (to_open_eq r "probe_failed" now s1 c Hc) as (s2 & Ho & Hr2 & Hl2). rewrite ebind_eq, Ho. by apply Hto.
    + change (probe_quota (add_success r)) with (probe_quota r).
      change (half_open_successes (add_success r)) with (half_open_successes r + 1).
      destruct (_ <=? _); [|by apply (Hsave (add_success r))].
      destruct (to_closed_eq (add_success r) now s1 c Hc) as (s2 & Ho & Hr2 & Hl2). rewrite ebind_eq, Ho. by apply Hto.
Qed.

Lemma reset_refines rd c actor now s r :
  connector_id r = c -> current s c now = Ok r -> rd = true ->
  effect (BReset rd c actor now) r s (next (BReset rd c actor now) r) (reset_breaker configs rd c actor now s).2.
Proof.
  intros Hc Hcur ->. unfold reset_breaker. rewrite ebind_eq, load_or_default_eq, Hcur. cbn [next].
  case_bool_decide; cbn [negb]; [|by apply effect_none].
  destruct (to_half_open_eq r actor now s c Hc) as (s2 & Ho & Hr2 & Hl2). rewrite ebind_eq, Ho.
  exact (effect_logged (BReset true c actor now) r s s2 _ _ Hr2 Hl2).
Qed.

Lemma state_refines rd c now s r :
  connector_id r = c -> current s c now = Ok r -> rd = true ->
  effect (BState rd c now) r s (next (BState rd c now) r) (breaker_state configs rd c now s).2.
Proof.
  intros Hc Hcur ->. unfold breaker_state. rewrite load_or_default_eq, Hcur, ebind_eq.
  destruct (cooldown_eq r now s c Hc) as (s1 & Hm & _). rewrite Hm. by apply effect_cool.
Qed.

Lemma current_connector s c now r : keyed_ok s -> current s c now = Ok r -> connector_id r = c.
Proof.
  intros Hk. unfold current. destruct (records s !! c) eqn:Hr; [intros [= <-]; by apply Hk|].
  by intros [? _]%default_record_spec.
Qed.

(** The calls of the breaker do what the automaton says. *)
Lemma perform_refines op s : keyed_ok s -> refines op s (brk_perform op s).
Proof.
  intros Hk. unfold refines. destruct (current s (op_connector op) (op_now op)) as [r|e] eqn:Hcur.
  - pose proof (current_connector _ _ _ _ Hk Hcur) as Hc. destruct (op_readable op) eqn:Hrd.
    + destruct op; cbn in Hrd; subst; [by apply admit_refines|by apply observe_refines|by apply reset_refines|by apply state_refines].
    + destruct op; cbn in Hrd; subst; cbn [brk_perform];
        unfold admit_call, observe, reset_breaker, breaker_state; by rewrite ?ebind_eq, ?load_or_default_eq.
  - destruct op; cbn in Hcur; cbn [brk_perform];
      unfold admit_call, observe, reset_breaker, breaker_state, _load_or_create, load;
      rewrite ?ebind_eq, ?load_or_default_eq; destruct readable; try done; try (by rewrite Hcur).
    cbn. unfold current in Hcur. destruct (records s !! cid); [done|]. unfold elift. by rewrite ebind_eq, Hcur.
Qed.

(** * Runs *)

Lemma next_frame op r :
  let r' := (next op r).1 in
  connector_id r' = connector_id r /\ probe_quota r' = probe_quota r /\ cooldown_s r' = cooldown_s r /\
  failure_threshold r' = failure_threshold r /\ window_s r' = window_s r.
Proof.
  destruct op; cbn [next]; unfold cool, count_failure; repeat (case_match; simplify_eq; try done).
Qed.

Definition state_of (s : Breaker) (c : string) : bstate :=
  match records s !! c with Some r => b_state r | None => CLOSED end.

(** What a call does to every connector. *)
Lemma perform_effect op s :
  keyed_ok s ->
  let s' := brk_perform op s in
  let c := op_connector op in
  keyed_ok s' /\ (forall c', c' <> c -> records s' !! c' = records s !! c' /\ trail c' s' = trail c' s) /\
  (s' = s \/
   exists r, current s c (op_now op) = Ok r /\ op_readable op = true /\ trail c s' = trail c s ++ (next op r).2 /\
     (records s' !! c = Some (next op r).1 \/
      records s' = records s /\ (next op r).1 = r /\ is_observe op = false)).
Proof.
  intros Hk s' c. pose proof (perform_refines op s Hk) as Hr. unfold refines in Hr. fold c s' in Hr.
  destruct (current s c (op_now op)) as [r|] eqn:Hcur; [|rewrite Hr; split_and!; auto].
  destruct (op_readable op) eqn:Hrd; [|rewrite Hr; split_and!; auto].
  destruct Hr as [Hrec (rows & Ha & Hrows & Ht)]. fold c in Hrec, Hrows.
  pose proof (current_connector _ _ _ _ Hk Hcur) as Hc. destruct (next_frame op r) as [Hcn _]. cbv zeta in Hcn.
  assert (Htrail : forall c', trail c' s' = trail c' s ++ (if decide (c' = c) then audit_type <$> rows else [])).
  { intros c'. unfold trail. rewrite Ha, filter_app, fmap_app. f_equal. destruct (decide (c' = c)) as [->|Hne].
    - f_equal. clear -Hrows. induction Hrows; [done|]. rewrite filter_cons_True by done. by f_equal.
    - clear -Hrows Hne. induction Hrows as [|a rows Hac _ IH]; [done|].
      rewrite filter_cons_False by congruence. exact IH. }
  split_and!.
  - intros c' r'. destruct Hrec as [->|[-> _]]; [|apply Hk]. rewrite lookup_insert.
    case_decide; [intros [= <-]; congruence|apply Hk].
  - intros c' Hne. split.
    + destruct Hrec as [->|[-> _]]; [by rewrite lookup_insert_ne|done].
    + rewrite Htrail, decide_False, app_nil_r by done. done.
  - right. exists r. split_and!; [done..| |].
    + by rewrite Htrail, decide_True, Ht.
    + destruct Hrec as [->|?]; [left; by rewrite lookup_insert_eq|by right].
Qed.

(** The automaton: CLOSED to OPEN, OPEN to HALF_OPEN, HALF_OPEN to either. *)
Definition edge (from : bstate) (event : string) : option bstate :=
  match from with
  | CLOSED => if String.eqb event OPENED then Some OPEN else None
  | OPEN => if String.eqb event HALF_OPENED then Some HALF_OPEN else None
  | HALF_OPEN =>
      if String.eqb event OPENED then Some OPEN
      else if String.eqb event RECLOSED then Some CLOSED else None
  end.

Fixpoint replay (from : bstate) (events : list string) : option bstate :=
  match events with
  | [] => Some from
  | e :: rest => st ← edge from e; replay st rest
  end.

Lemma replay_app from es1 es2 : replay from (es1 ++ es2) = replay from es1 ≫= fun st => replay st es2.
Proof. revert from. induction es1 as [|e es1 IH]; intros from; cbn; [done|]. destruct (edge from e); cbn; auto. Qed.

Lemma next_replay op r : replay (b_state r) (next op r).2 = Some (b_state (next op r).1).
Proof.
  destruct op; cbn [next]; unfold cool, count_failure; repeat (case_match; simplify_eq; cbn; try congruence).
  all: try (by repeat match goal with He : b_state _ = _ |- _ => rewrite He end).
  apply bool_decide_eq_true in H0. by rewrite H0.
Qed.

(** What holds of every run: the audit trail of a connector replays to its state. *)
Definition trail_ok (s : Breaker) : Prop :=
  keyed_ok s /\ forall c, replay CLOSED (trail c s) = Some (state_of s c).

Lemma perform_trail op s : trail_ok s -> trail_ok (brk_perform op s).
Proof.
  intros [Hk Ht]. pose proof (perform_effect op s Hk) as (Hk' & Hother & Hown). split; [done|]. intros c.
  destruct (decide (c = op_connector op)) as [->|Hne].
  2:{ destruct (Hother c Hne) as [Hr Htr]. unfold state_of. rewrite Hr, Htr. apply Ht. }
  destruct Hown as [->|(r & Hcur & _ & Htr & Hrec)]; [apply Ht|]. rewrite Htr, replay_app, Ht. cbn.
  assert (Hst : state_of s (op_connector op) = b_state r).
  { unfold state_of, current in *. destruct (records s !! _); [by injection Hcur as ->|].
    by apply default_record_spec in Hcur as (_ & -> & _). }
  rewrite Hst, next_replay. f_equal.
  destruct Hrec as [Hrec|(Hrec & Hsame & _)]; unfold state_of in *; [by rewrite Hrec|]. by rewrite Hrec, Hst, Hsame.
Qed.

Lemma run_trail ops s : trail_ok s -> trail_ok (brk_run ops s).
Proof. revert s. induction ops as [|op ops IH]; intros s Hs; cbn; [done|]. by apply IH, perform_trail. Qed.

Definition empty_breaker : Breaker := mk_Breaker ∅ [] [].

Lemma empty_trail : trail_ok empty_breaker.
Proof. split; [|done]. intros c r Hr. cbn in Hr. by rewrite lookup_empty in Hr. Qed.

(** The audit trail is the history of the breaker.  After any sequence of
    calls, for any number of connectors and with any pattern of unreadable
    stores, the rows recorded for a connector form a path of the automaton
    CLOSED, OPEN, HALF_OPEN, and the path ends in the state the store holds. *)
Theorem breaker_trail_is_its_history ops c :
  replay CLOSED (trail c (brk_run ops empty_breaker)) = Some (state_of (brk_run ops empty_breaker) c).
Proof. apply (run_trail ops empty_breaker empty_trail). Qed.

(** * A tripped breaker *)

(** The rail had time to recover, or an operator reset the breaker. *)
Definition released (cid : string) (until : Z) (op : brk_op) : bool :=
  String.eqb (op_connector op) cid && ((until <=? op_time op) || is_reset op).

Definition count_ops (f : brk_op -> bool) (ops : list brk_op) : Z := sumZ (fun op => if f op then 1 else 0) ops.

Lemma count_ops_snoc f ops op : count_ops f (ops ++ [op]) = count_ops f ops + (if f op then 1 else 0).
Proof. unfold count_ops. rewrite sumZ_app. cbn. lia. Qed.

(** From the moment the record [r0] opened at [t]: while nothing released it, it is
    OPEN since [t]; in HALF_OPEN the successes are among the healthy
    observations; it is CLOSED only after as many of these as the quota. *)
Definition suspect (cid : string) (r0 : BreakerRecord) (t : datetime) (h : Z) (rel : bool) (r : BreakerRecord) : Prop :=
  probe_quota r = probe_quota r0 /\ cooldown_s r = cooldown_s r0 /\
  (b_state r = OPEN /\ (rel = false -> b_opened_at r = Some t) \/
   b_state r = HALF_OPEN /\ rel = true /\ half_open_successes r <= h \/
   rel = true /\ probe_quota r0 <= h).

Lemma cool_cases now r :
  (cool now r = (r, []) \/
   b_state r = OPEN /\ (exists t, b_opened_at r = Some t /\ seconds (cooldown_s r) <= micros now - micros t) /\
   cool now r = (touch now (set_half_open r), [HALF_OPENED])).
Proof.
  unfold cool. destruct (b_state r); [by left| |by left]. destruct (b_opened_at r) as [t|]; [|by left].
  destruct (_ <=? _) eqn:Hle; [|by left]. right. split_and!; [done| |done]. exists t. split; [done|lia].
Qed.

(** An open record: a call leaves it or makes it HALF_OPEN, once it is released. *)
Lemma next_open op r :
  b_state r = OPEN ->
  (next op r).1 = r \/
  b_state (next op r).1 = HALF_OPEN /\ half_open_successes (next op r).1 = 0 /\
  (is_reset op = true \/
   exists t, b_opened_at r = Some t /\ micros t + seconds (cooldown_s r) <= op_time op).
Proof.
  intros Hst. destruct op as [rd c kind now|rd c st te now|rd c a now|rd c now]; cbn [next].
  - destruct (informational _); [by left|].
    destruct (cool_cases now r) as [->|(_ & (t & Ht & Hle) & ->)].
    + left. rewrite Hst. done.
    + right. split_and!; [by case_match..|]. right. exists t. cbn. split; [done|lia].
  - rewrite Hst. by left.
  - rewrite Hst. cbn. right. auto.
  - destruct (cool_cases now r) as [->|(_ & (t & Ht & Hle) & ->)]; [by left|].
    right. split_and!; [done..|]. right. exists t. cbn. split; [done|lia].
Qed.

(** A half-open record: its successes grow only on healthy observations. *)
Lemma next_half_open op r :
  b_state r = HALF_OPEN ->
  b_state (next op r).1 = OPEN \/
  b_state (next op r).1 = HALF_OPEN /\
    half_open_successes (next op r).1 <= half_open_successes r + (if healthy (op_connector op) op then 1 else 0) \/
  probe_quota r <= half_open_successes r + 1 /\ healthy (op_connector op) op = true.
Proof.
  intros Hst. destruct op as [rd c kind now|rd c st te now|rd c a now|rd c now]; cbn [next op_connector healthy].
  - right. left. destruct (informational _); [cbn; split; [done|lia]|].
    destruct (cool_cases now r) as [->|(? & _)]; [|congruence]. destruct (_ && _); cbn; (split; [done|lia]).
  - rewrite Hst, String.eqb_refl. destruct (is_failure st te); [by left|]. cbn [andb negb].
    destruct (_ <=? _) eqn:Hle; [right; right; split; [lia|done]|]. right. left. cbn. split; [done|lia].
  - rewrite bool_decide_false by congruence. right. left. cbn. split; [done|lia].
  - destruct (cool_cases now r) as [->|(? & _)]; [|congruence]. right. left. cbn. split; [done|lia].
Qed.

Lemma suspect_next cid r0 t h rel r op :
  op_connector op = cid -> 0 <= h -> suspect cid r0 t h rel r ->
  suspect cid r0 t (h + (if healthy cid op then 1 else 0))
    (rel || released cid (micros t + seconds (cooldown_s r0)) op) (next op r).1.
Proof.
  intros <- Hh (Hq & Hcd & Hcase). destruct (next_frame op r) as (_ & Hq' & Hcd' & _). cbv zeta in *.
  assert (Hge : 0 <= (if healthy (op_connector op) op then 1 else 0)) by (destruct (healthy _ op); lia).
  split_and!; [congruence..|]. unfold released. rewrite String.eqb_refl.
  destruct Hcase as [[Hst Ht]|[(Hst & -> & Hs)|[-> Hle]]].
  - destruct (next_open op r Hst) as [->|(Hst' & Hs' & Hwhy)].
    + left. split; [done|]. intros [Hrel _]%orb_false_iff. auto.
    + right. left. split_and!; [done| |lia]. destruct rel; [done|]. cbn.
      destruct Hwhy as [->|(t' & Ht' & Hle)]; [by rewrite orb_true_r|].
      rewrite Ht in Ht' by done. injection Ht' as <-. rewrite Hcd in Hle. by rewrite (proj2 (Z.leb_le _ _)).
  - destruct (next_half_open op r Hst) as [Ho|[[Hst' Hs']|[Hle Hhl]]].
    + left. done.
    + right. left. split_and!; [done..|lia].
    + right. right. rewrite Hhl. split; [done|lia].
  - right. right. split; [done|lia].
Qed.

Lemma brk_run_snoc ops op s : brk_run (ops ++ [op]) s = brk_perform op (brk_run ops s).
Proof. unfold brk_run. by rewrite foldl_app. Qed.

Lemma run_keyed ops s : keyed_ok s -> keyed_ok (brk_run ops s).
Proof.
  intros Hk. induction ops as [|op ops IH] using rev_ind; [done|]. rewrite brk_run_snoc.
  by apply (perform_effect op _ IH).
Qed.

Lemma count_nonneg f ops : 0 <= count_ops f ops.
Proof. apply sumZ_nonneg. intros op _. destruct (f op); lia. Qed.

Lemma suspect_weaken cid r0 t h rel r d x :
  0 <= d -> suspect cid r0 t h rel r -> suspect cid r0 t (h + d) (rel || x) r.
Proof.
  intros Hd (Hq & Hc & Hcase). split_and!; [done..|].
  destruct Hcase as [[? Ho]|[(? & -> & ?)|[-> ?]]].
  - left. split; [done|]. by intros [? _]%orb_false_iff; auto.
  - right. left. split_and!; [done..|lia].
  - right. right. split; [done|lia].
Qed.

Lemma suspect_run cid r0 t s ops :
  keyed_ok s -> records s !! cid = Some r0 -> b_state r0 = OPEN -> b_opened_at r0 = Some t ->
  exists r, records (brk_run ops s) !! cid = Some r /\
    suspect cid r0 t (count_ops (healthy cid) ops)
      (List.existsb (released cid (micros t + seconds (cooldown_s r0))) ops) r.
Proof.
  intros Hk Hr Hst Hopen. induction ops as [|op ops (r & Hrun & Hs)] using rev_ind.
  { exists r0. split; [done|]. split_and!; [done..|]. by left. }
  rewrite brk_run_snoc, count_ops_snoc, List.existsb_app. cbn [List.existsb]. rewrite orb_false_r.
  pose proof (perform_effect op _ (run_keyed ops s Hk)) as (_ & Hother & Hown).
  destruct (decide (op_connector op = cid)) as [Hc|Hne].
  - pose proof (suspect_next cid r0 t _ _ r op Hc (count_nonneg _ ops) Hs) as Hnext.
    destruct Hown as [->|(r' & Hcur & _ & _ & Hrec)].
    + exists r. split; [done|]. apply suspect_weaken; [by destruct (healthy cid op)|done].
    + rewrite Hc in *. assert (r' = r) as ->.
      { unfold current in Hcur. rewrite Hrun in Hcur. by injection Hcur. }
      exists (next op r).1. split; [|done].
      destruct Hrec as [?|(-> & -> & _)]; done.
  - destruct (Hother cid) as [Hsame _]; [congruence|]. exists r. rewrite Hsame. split; [done|].
    assert (healthy cid op = false) as ->.
    { destruct op; cbn; try done. by rewrite (proj2 (String.eqb_neq _ _)). }
    assert (released cid (micros t + seconds (cooldown_s r0)) op = false) as ->.
    { unfold released. by rewrite (proj2 (String.eqb_neq _ _)). }
    by rewrite Z.add_0_r, orb_false_r.
Qed.

(** A submission is admitted only by a closed breaker. *)
Lemma submit_admitted rd cid now s r :
  keyed_ok s -> records s !! cid = Some r -> informational (_config configs cid) = false ->
  (admit_call configs rd cid "SUBMIT" now s).1 = Ok true -> b_state r = CLOSED.
Proof.
  intros Hk Hr Hinf. unfold admit_call. rewrite load_or_default_eq. unfold current. rewrite Hr, Hinf.
  destruct rd; [|done]. destruct (cooldown_eq r now s cid (Hk _ _ Hr)) as (s1 & Hm & _). rewrite ebind_eq, Hm.
  destruct (cool_cases now r) as [->|(_ & _ & ->)]; cbn [fst]; [|done]. by destruct (b_state r).
Qed.

(** A connector whose breaker is informational is admitted unless the store fails. *)
Lemma informational_admitted rd cid kind now s r :
  records s !! cid = Some r -> informational (_config configs cid) = true -> (admit_call configs rd cid kind now s).1 = Ok rd.
Proof.
  intros Hr Hinf. unfold admit_call. rewrite load_or_default_eq. unfold current. rewrite Hr, Hinf. by destruct rd.
Qed.

(** C39: no money on a suspect rail.  Let the breaker of a connector have opened.  If
    the connector's breaker is configured to block (it is not informational), a
    submission is admitted only after the cooldown has passed or an operator has
    reset the breaker, and only after as many healthy outcomes of that connector
    as the probe quota asks for; whatever calls are made in between, in any order,
    for any connector, at any times and with any store failures.  A connector with
    an informational breaker (the regulatory filings) is not protected: its calls
    are admitted whenever the store can be read, and never when it cannot. *)
Theorem no_submission_on_a_suspect_rail before cid r0 t ops rd now :
  let s0 := brk_run before empty_breaker in
  records s0 !! cid = Some r0 -> b_state r0 = OPEN -> b_opened_at r0 = Some t ->
  let answer := (admit_call configs rd cid "SUBMIT" now (brk_run ops s0)).1 in
  if informational (_config configs cid) then answer = Ok rd
  else answer = Ok true ->
    probe_quota r0 <= count_ops (healthy cid) ops /\
    List.existsb (released cid (micros t + seconds (cooldown_s r0))) ops = true.
Proof.
  intros s0 Hr Hst Hopen answer. assert (Hk : keyed_ok s0) by (apply run_keyed, empty_trail).
  destruct (suspect_run cid r0 t s0 ops Hk Hr Hst Hopen) as (r & Hrun & _ & _ & Hcase).
  destruct (informational (_config configs cid)) eqn:Hinf; [by eapply informational_admitted|]. intros Hadm.
  pose proof (submit_admitted rd cid now _ r (run_keyed ops s0 Hk) Hrun Hinf Hadm) as Hcl.
  destruct Hcase as [[? _]|[(? & _)|[Hrel Hle]]]; [congruence..|done].
Qed.

(** * Tripping *)

Definition failures (cid : string) (ts : list datetime) : list brk_op :=
  (fun t => BObserve true cid "failed" false t) <$> ts.

Lemma observe_stored cid status terr now s r :
  keyed_ok s -> records s !! cid = Some r ->
  records (brk_perform (BObserve true cid status terr now) s) !! cid =
  Some (next (BObserve true cid status terr now) r).1.
Proof.
  intros Hk Hr. pose proof (perform_refines (BObserve true cid status terr now) s Hk) as Href.
  unfold refines, current in Href. cbn [op_connector op_now op_readable] in Href. rewrite Hr in Href.
  destruct Href as [[->|(_ & _ & ?)] _]; [by rewrite lookup_insert_eq|done].
Qed.

Lemma next_failure cid now r :
  b_state r = CLOSED ->
  let r1 := count_failure r now in
  (next (BObserve true cid "failed" false now) r).1 =
  touch now (if failure_threshold r1 <=? consecutive_failures r1 then set_open now r1 else r1).
Proof.
  intros Hst. cbn [next]. rewrite Hst. change (is_failure "failed" false) with true. cbn. by destruct (_ <=? _).
Qed.

(** The record after the failure at [t] and those at [ts]. *)
Lemma failing_record cid r t s ts :
  keyed_ok s -> records s !! cid = Some r -> b_state r = CLOSED -> window_started_at r = None ->
  1 <= failure_threshold r -> Forall (fun u => micros u - micros t <= seconds (window_s r)) ts ->
  exists r', records (brk_run (failures cid (t :: ts)) s) !! cid = Some r' /\
    failure_threshold r' = failure_threshold r /\ window_s r' = window_s r /\
    if Z.of_nat (length (t :: ts)) <? failure_threshold r
    then b_state r' = CLOSED /\ window_started_at r' = Some t /\ consecutive_failures r' = Z.of_nat (length (t :: ts))
    else b_state r' = OPEN.
Proof.
  intros Hk Hr Hst Hw Hth. induction ts as [|u ts IH] using rev_ind; intros Hts.
  - eexists. split; [by apply observe_stored|]. rewrite next_failure by done. unfold count_failure. rewrite Hw.
    cbn [failure_threshold consecutive_failures set_failures length].
    destruct (_ <=? _) eqn:Hle; cbn; split_and!; try done.
    + by rewrite (proj2 (Z.ltb_ge _ _)) by lia.
    + by rewrite (proj2 (Z.ltb_lt _ _)) by lia.
  - apply Forall_app in Hts as [Hts Hu]. apply Forall_cons in Hu as [Hu _]. destruct (IH Hts) as (r' & Hr' & Hthr & Hws & Hcase).
    assert (Hsnoc : failures cid (t :: ts ++ [u]) = failures cid (t :: ts) ++ [BObserve true cid "failed" false u])
      by (unfold failures; by rewrite app_comm_cons, fmap_app).
    rewrite Hsnoc, brk_run_snoc. eexists. split; [by apply observe_stored; [apply run_keyed|]|].
    replace (Z.of_nat (length (t :: ts ++ [u]))) with (Z.of_nat (length (t :: ts)) + 1)
      by (cbn; rewrite length_app; cbn; lia).
    set (n := Z.of_nat (length (t :: ts))) in *. destruct (n <? failure_threshold r) eqn:Hn.
    + destruct Hcase as (Hst' & Hw' & Hcons). rewrite next_failure by done. unfold count_failure.
      rewrite Hw', Hws, (proj2 (Z.ltb_ge (seconds _) _)) by exact Hu. cbn [failure_threshold consecutive_failures set_failures].
      rewrite Hthr, Hcons. destruct (_ <=? _) eqn:Hle; cbn; split_and!; try done.
      * by rewrite (proj2 (Z.ltb_ge _ _)) by lia.
      * rewrite (proj2 (Z.ltb_lt _ _)) by lia. done.
    + cbn [next]. rewrite Hcase. cbn. split_and!; [done..|]. by rewrite (proj2 (Z.ltb_ge _ _)) by lia.
Qed.

(** A connector that fails trips its breaker at the threshold and not before:
    of failures in a row within the window of the first one, with the counter at
    rest before it, the breaker is closed while they are fewer than the threshold
    and open from then on. *)
Theorem failures_trip_at_the_threshold before cid r t ts :
  let s := brk_run before empty_breaker in
  records s !! cid = Some r -> b_state r = CLOSED -> window_started_at r = None ->
  1 <= failure_threshold r ->
  Forall (fun u => micros u - micros t <= seconds (window_s r)) ts ->
  state_of (brk_run (failures cid (t :: ts)) s) cid =
  if Z.of_nat (length (t :: ts)) <? failure_threshold r then CLOSED else OPEN.
Proof.
  intros s Hr Hst Hw Hth Hts. assert (Hk : keyed_ok s) by (apply run_keyed, empty_trail).
  destruct (failing_record cid r t s ts) as (r' & Hr' & _ & _ & Hcase); [done..|].
  unfold state_of. rewrite Hr'. destruct (_ <? _); [by destruct Hcase|done].
Qed.
End Facts.

(** * Concrete runs *)

#[local] Existing Instance Sha256.sha256_fn.

Definition at_s (n : Z) : datetime := mk_datetime true (63918000300000000 + n * 1000000).

(** A healthy call, then failures at the given seconds. *)
Definition warm_up : list brk_op := [BObserve true "npsb" "success" false (at_s 0)].
Definition fails (ns : list Z) : list brk_op := failures "npsb" (at_s <$> ns).

Definition npsb_record (s : Breaker) : BreakerRecord :=
  match records s !! "npsb"%string with
  | Some r => r
  | None => mk_BreakerRecord "" "" CLOSED 0 None None 0 0 0 0 0 0 None
  end.

Definition tripped : list brk_op := warm_up ++ fails [1; 2; 3; 4; 5].

Definition probes : list brk_op :=
  [BAdmit true "npsb" "HEALTH" (at_s 40); BObserve true "npsb" "success" false (at_s 41);
   BObserve true "npsb" "success" false (at_s 42); BObserve true "npsb" "success" false (at_s 43)].

Lemma no_submission_on_a_suspect_rail_witness :
  probe_quota (npsb_record (brk_run ∅ tripped empty_breaker)) <= count_ops (healthy "npsb") probes.
Proof.
  pose proof (no_submission_on_a_suspect_rail ∅ tripped "npsb" (npsb_record (brk_run ∅ tripped empty_breaker)) (at_s 5)
    probes true (at_s 44)) as Hs. cbv zeta in Hs.
  match type of Hs with ?A -> ?B -> ?C -> _ =>
    assert (HA : A) by (vm_compute; reflexivity); assert (HB : B) by (vm_compute; reflexivity);
    assert (HC : C) by (vm_compute; reflexivity) end.
  specialize (Hs HA HB HC). change (informational (_config ∅ "npsb")) with false in Hs. cbv iota in Hs.
  match type of Hs with ?A -> _ => assert (HD : A) by (vm_compute; reflexivity) end.
  exact (proj1 (Hs HD)).
Defined.

Lemma failures_trip_at_the_threshold_witness :
  state_of (brk_run ∅ (fails [10; 11; 12; 13]) (brk_run ∅ warm_up empty_breaker)) "npsb" = CLOSED /\
  state_of (brk_run ∅ (fails [10; 11; 12; 13; 70]) (brk_run ∅ warm_up empty_breaker)) "npsb" = OPEN.
Proof.
  split.
  - exact (failures_trip_at_the_threshold ∅ warm_up "npsb" (npsb_record (brk_run ∅ warm_up empty_breaker)) (at_s 10)
      (at_s <$> [11; 12; 13]) ltac:(vm_compute; reflexivity) eq_refl eq_refl ltac:(vm_compute; discriminate)
      ltac:(repeat constructor; vm_compute; discriminate)).
  - exact (failures_trip_at_the_threshold ∅ warm_up "npsb" (npsb_record (brk_run ∅ warm_up empty_breaker)) (at_s 10)
      (at_s <$> [11; 12; 13; 70]) ltac:(vm_compute; reflexivity) eq_refl eq_refl ltac:(vm_compute; discriminate)
      ltac:(repeat constructor; vm_compute; discriminate)).
Defined.

(** The window does not roll: it starts at the first failure and starts anew when
    it ends.  Six failures in a row, five of them within 13 seconds, do not trip
    a breaker whose threshold is five failures in sixty seconds. *)
Example window_is_not_rolling :
  failure_threshold (npsb_record (brk_run ∅ warm_up empty_breaker)) = 5 /\
  window_s (npsb_record (brk_run ∅ warm_up empty_breaker)) = 60 /\
  state_of (brk_run ∅ (fails [1; 50; 51; 52; 62; 63]) (brk_run ∅ warm_up empty_breaker)) "npsb" = CLOSED.
Proof. vm_compute. auto. Qed.

(** Reading the state is not a pure read: past the cooldown it writes the record
    and the audit trail. *)
Example reading_the_state_writes :
  let s := brk_run ∅ tripped empty_breaker in
  (breaker_state ∅ true "npsb" (at_s 40) s).1 = Ok HALF_OPEN /\
  trail "npsb" (breaker_state ∅ true "npsb" (at_s 40) s).2 = [OPENED; HALF_OPENED].
Proof. vm_compute. auto. Qed.
