(* ===== verification/Registry.v ===== *)
(** The connector registry (connectors/registry.py): the catalogue of connectors
    with its refusal-first mode machine, over the in-memory logs of mode changes,
    health samples, audit rows and events (connectors/stores.py, ports.py).

    Whether a credential reference resolves is asked of an external secret store:
    an operation that resolves takes the answers of the moment, [resolves].  Of the
    free-form [config] only the credential references are read; the constants
    [sdk_version] and [schema_version] and the unread [config_schema] are left out. *)
From S2P Require Import Prelude Exceptions DateTime Sha256 Canonical Breaker.
Open Scope Z_scope.

Inductive ConnectorMode : Type := MANUAL_LOCAL | SIMULATOR | SANDBOX | PRODUCTION | DISABLED.

#[export] Instance ConnectorMode_eq_dec : EqDecision ConnectorMode.
Proof. solve_decision. Defined.

(** [ConnectorMode.value] *)
Definition mode_value (m : ConnectorMode) : string :=
  match m with
  | MANUAL_LOCAL => "MANUAL_LOCAL" | SIMULATOR => "SIMULATOR" | SANDBOX => "SANDBOX"
  | PRODUCTION => "PRODUCTION" | DISABLED => "DISABLED"
  end.

(** The exceptions of the package; [GRaised] carries those of the platform. *)
Inductive gerr : Type :=
| UnknownConnectorError
| TransitionDeniedError
| SimulatorForbiddenError (offenders : list string)
| GConflictError
| GInvalidRequestError (code : string)
| GValueError
| GRaised (e : exn).

Definition g_res {A} (c : res exn A) : res gerr A := match c with Ok a => Ok a | Err e => Err (GRaised e) end.

(** * Modes and budgets *)

Definition _PROMOTION_TARGET (m : ConnectorMode) : option ConnectorMode :=
  match m with
  | MANUAL_LOCAL => Some SIMULATOR | SIMULATOR => Some SANDBOX | SANDBOX => Some PRODUCTION
  | PRODUCTION | DISABLED => None
  end.

Definition _DEMOTION_TARGETS : list ConnectorMode := [SANDBOX; SIMULATOR; MANUAL_LOCAL].
Definition _CREDENTIALED_MODES : list ConnectorMode := [SANDBOX; PRODUCTION].

(** [retry_budget]: the numbers the runner reads, and the other keys, which are
    notes for operators. *)
Record RetryBudget : Type := mk_RetryBudget {
  submit_retries : option Z;
  poll_attempts : option Z;
  poll_interval_ms : option Z;
  backoff_initial_ms : option Z;
  backoff_cap_ms : option Z;
  budget_notes : list (string * string)
}.

Record BudgetDefaults : Type := mk_BudgetDefaults {
  bd_timeout_ms : Z;
  bd_retry_budget : RetryBudget;
  bd_breaker : BreakerConfig
}.

Definition polled (retries attempts interval : Z) (notes : list (string * string)) : RetryBudget :=
  mk_RetryBudget (Some retries) (Some attempts) (Some interval) None None notes.
Definition unpolled (retries : Z) (notes : list (string * string)) : RetryBudget :=
  mk_RetryBudget (Some retries) None None None None notes.

(** [BreakerConfig(failure_threshold=f, window_s=w, informational=i)] *)
Definition breaker (f w : Z) (i : bool) : BreakerConfig := mk_BreakerConfig f w 30 3 i.

Definition GENERIC_BUDGET : BudgetDefaults := mk_BudgetDefaults 30000 (polled 0 3 10000 []) (breaker 5 60 false).

Definition DEFAULT_BUDGETS : list (string * BudgetDefaults) :=
  [("npsb_iso8583_v28", mk_BudgetDefaults 30000
     (polled 0 3 10000 [("reversal_policy", "auto_reverse_after_poll_exhaustion")]) (breaker 5 60 false));
   ("beftn_batch_v2", mk_BudgetDefaults 120000
     (polled 2 1 0 [("retry_scope", "transport_only_same_file_same_batch_id")]) (breaker 3 300 false));
   ("rtgs_iso20022_v1", mk_BudgetDefaults 60000
     (polled 0 3 30000 [("reversal_policy", "manual_ops_queue")]) (breaker 3 120 false));
   ("card_acquirer_v1", mk_BudgetDefaults 30000
     (polled 0 3 10000 [("reversal_policy", "auto_reverse_per_scheme_rules")]) (breaker 5 60 false));
   ("bkash_pgw_v2", mk_BudgetDefaults 15000 (polled 0 3 5000 []) (breaker 5 60 false));
   ("nagad_pgw_v33", mk_BudgetDefaults 15000 (polled 0 3 5000 []) (breaker 5 60 false));
   ("rocket_aggregator_v1", mk_BudgetDefaults 20000 (polled 0 3 10000 []) (breaker 5 60 false));
   ("upay_rest_v1", mk_BudgetDefaults 15000 (polled 0 3 5000 []) (breaker 5 60 false));
   ("porichoy_ekyc_v1", mk_BudgetDefaults 10000 (unpolled 2 [("retry_scope", "idempotent_read")]) (breaker 5 60 false));
   ("goaml_reporter_v1", mk_BudgetDefaults 60000
     (mk_RetryBudget (Some 0) None None (Some 60000) (Some 3600000)
        [("queue_retry", "unbounded_exp_backoff"); ("never_drop", "True")]) (breaker 5 60 true));
   ("sanctions_feed_v1", mk_BudgetDefaults 300000 (unpolled 3 [("staleness_alarm_h", "24")]) (breaker 5 60 false));
   ("hsm_thales_v1", mk_BudgetDefaults 5000 (unpolled 0 []) (breaker 2 30 false));
   ("sms_otp_v1", mk_BudgetDefaults 10000
     (unpolled 3 [("retry_scope", "idempotent_per_event_recipient")]) (breaker 10 60 false));
   ("veridyn_p2_compliance_v1", mk_BudgetDefaults 20000
     (unpolled 0 [("reask_policy", "caller_reasks")]) (breaker 5 60 true));
   ("email_smtp_v1", mk_BudgetDefaults 30000 (unpolled 3 []) (breaker 10 60 false))]%string.

(** [d.get(key)] on a dictionary written as a list. *)
Definition dict_get {V} (key : string) (d : list (string * V)) : option V :=
  snd <$> List.find (fun kv => String.eqb kv.1 key) d.

Definition budget_for (connector_id : string) : BudgetDefaults := default GENERIC_BUDGET (dict_get connector_id DEFAULT_BUDGETS).
Definition breaker_config_for (connector_id : string) : BreakerConfig := bd_breaker (budget_for connector_id).

Definition _PROTOCOLS : list string :=
  ["PAYMENT"; "IDENTITY"; "SANCTIONS"; "AML_FILING"; "SETTLEMENT_FILE"; "HSM"; "NOTIFICATION"; "COMPLIANCE_SIDECAR"]%string.

(** * Rows *)

Record ConnectorRegistration : Type := mk_ConnectorRegistration {
  rg_registration_id : string;
  rg_connector_id : string;
  rg_display_name : string;
  rg_protocol : string;
  rg_capabilities : list string;
  rg_supported_methods : list string;
  rg_active_mode : ConnectorMode;
  rg_previous_mode : option ConnectorMode;
  rg_enabled : bool;
  rg_adapter_version : string;
  rg_health_status : string;
  rg_last_health_at : option datetime;
  rg_certification_status : string;
  rg_last_certified_at : option datetime;
  rg_credential_refs_by_mode : list (string * list string);   (* config *)
  rg_timeout_ms : Z;
  rg_retry_budget : RetryBudget;
  rg_created_at : datetime;
  rg_updated_at : datetime
}.

Record ModeChangeRecord : Type := mk_ModeChangeRecord {
  mc_mode_change_id : string;
  mc_connector_id : string;
  mc_from_mode : ConnectorMode;
  mc_to_mode : ConnectorMode;
  mc_reason : string;
  mc_actor_id : string;
  mc_approval_request_id : option string;
  mc_occurred_at : datetime
}.

Record HealthSampleRecord : Type := mk_HealthSampleRecord {
  hs_sample_id : string;
  hs_connector_id : string;
  hs_healthy : bool;
  hs_latency_ms : option Z;
  hs_detail_code : option string;
  hs_sampled_at : datetime
}.

(** A row of [InMemoryAuditSink] and of [InMemoryEventSink]. *)
Record SinkAudit : Type := mk_SinkAudit { sa_action : string; sa_actor_id : string; sa_occurred_at : datetime; sa_detail : pyobj }.
Record SinkEvent : Type := mk_SinkEvent { se_type : string; se_payload : pyobj }.

Record Registry : Type := mk_Registry {
  registrations : gmap string ConnectorRegistration;
  mode_changes : list ModeChangeRecord;
  health_samples : list HealthSampleRecord;
  reg_audit : list SinkAudit;
  reg_events : list SinkEvent
}.

Definition empty_registry : Registry := mk_Registry ∅ [] [] [] [].

Definition geff := eff Registry gerr.

Definition set_registration (r : ConnectorRegistration) : geff unit :=
  do* s := eget in
  eput (mk_Registry (<[rg_connector_id r := r]> (registrations s)) (mode_changes s) (health_samples s) (reg_audit s) (reg_events s)).
Definition append_mode_change (m : ModeChangeRecord) : geff unit :=
  do* s := eget in
  eput (mk_Registry (registrations s) (mode_changes s ++ [m]) (health_samples s) (reg_audit s) (reg_events s)).
Definition append_health (h : HealthSampleRecord) : geff unit :=
  do* s := eget in
  eput (mk_Registry (registrations s) (mode_changes s) (health_samples s ++ [h]) (reg_audit s) (reg_events s)).
Definition reg_record (a : SinkAudit) : geff unit :=
  do* s := eget in
  eput (mk_Registry (registrations s) (mode_changes s) (health_samples s) (reg_audit s ++ [a]) (reg_events s)).
Definition reg_emit (e : SinkEvent) : geff unit :=
  do* s := eget in
  eput (mk_Registry (registrations s) (mode_changes s) (health_samples s) (reg_audit s) (reg_events s ++ [e])).

(** [replace(registration, ...)], one per call site. *)
Definition rg_set_certification (st : string) (at_ : option datetime) (now : datetime) (r : ConnectorRegistration) :=
  mk_ConnectorRegistration (rg_registration_id r) (rg_connector_id r) (rg_display_name r) (rg_protocol r) (rg_capabilities r)
    (rg_supported_methods r) (rg_active_mode r) (rg_previous_mode r) (rg_enabled r) (rg_adapter_version r)
    (rg_health_status r) (rg_last_health_at r) st at_ (rg_credential_refs_by_mode r) (rg_timeout_ms r)
    (rg_retry_budget r) (rg_created_at r) now.
Definition rg_set_version (v : string) (now : datetime) (r : ConnectorRegistration) :=
  mk_ConnectorRegistration (rg_registration_id r) (rg_connector_id r) (rg_display_name r) (rg_protocol r) (rg_capabilities r)
    (rg_supported_methods r) (rg_active_mode r) (rg_previous_mode r) (rg_enabled r) v
    (rg_health_status r) (rg_last_health_at r) "STALE" (rg_last_certified_at r) (rg_credential_refs_by_mode r) (rg_timeout_ms r)
    (rg_retry_budget r) (rg_created_at r) now.
Definition rg_set_health (st : string) (now : datetime) (r : ConnectorRegistration) :=
  mk_ConnectorRegistration (rg_registration_id r) (rg_connector_id r) (rg_display_name r) (rg_protocol r) (rg_capabilities r)
    (rg_supported_methods r) (rg_active_mode r) (rg_previous_mode r) (rg_enabled r) (rg_adapter_version r)
    st (Some now) (rg_certification_status r) (rg_last_certified_at r) (rg_credential_refs_by_mode r) (rg_timeout_ms r)
    (rg_retry_budget r) (rg_created_at r) now.
Definition rg_set_mode (m : ConnectorMode) (previous : ConnectorMode) (enabled : bool) (now : datetime) (r : ConnectorRegistration) :=
  mk_ConnectorRegistration (rg_registration_id r) (rg_connector_id r) (rg_display_name r) (rg_protocol r) (rg_capabilities r)
    (rg_supported_methods r) m (Some previous) enabled (rg_adapter_version r)
    (rg_health_status r) (rg_last_health_at r) (rg_certification_status r) (rg_last_certified_at r) (rg_credential_refs_by_mode r)
    (rg_timeout_ms r) (rg_retry_budget r) (rg_created_at r) now.

(** * Operations *)

Section Registry.
Context `{HashFn}.

Implicit Types (now : datetime).

Definition register (connector_id display_name protocol : string) (capabilities supported_methods : list string)
    (adapter_version : string) (active_mode : ConnectorMode) (credential_refs : list (string * list string))
    (timeout_ms : option Z) (retry_budget : option RetryBudget) (certification_status : string) now :
    geff ConnectorRegistration :=
  refuse GValueError when (negb (str_in protocol _PROTOCOLS)) else
  do* s := eget in
  match registrations s !! connector_id with
  | Some _ => elift (Err GConflictError)
  | None =>
      let budget := budget_for connector_id in
      do* registration_id := elift (g_res (make_connector_id "creg" (dict [("connector_id", PStr connector_id)]))) in
      let registration := mk_ConnectorRegistration registration_id connector_id display_name protocol capabilities
        supported_methods active_mode None (negb (bool_decide (active_mode = DISABLED))) adapter_version "UNKNOWN" None
        certification_status None credential_refs (default (bd_timeout_ms budget) timeout_ms)
        (default (bd_retry_budget budget) retry_budget) now now in
      do* _ := set_registration registration in
      eret registration
  end.

Definition get_registration (connector_id : string) : geff ConnectorRegistration :=
  do* s := eget in
  match registrations s !! connector_id with
  | None => elift (Err UnknownConnectorError)
  | Some registration => eret registration
  end.

(** [sorted(self._registrations)] *)
Definition sorted_ids (s : Registry) : list string := sort_by String.le id (map_to_list (registrations s)).*1.

Definition list_all (s : Registry) : list ConnectorRegistration := omap (fun k => registrations s !! k) (sorted_ids s).

Definition set_certification (connector_id status : string) (certified_at : option datetime) now : geff ConnectorRegistration :=
  refuse GValueError when (negb (str_in status ["NEVER_RUN"; "PASSED"; "FAILED"; "STALE"]%string)) else
  do* registration := get_registration connector_id in
  let updated := rg_set_certification status certified_at now registration in
  do* _ := set_registration updated in
  eret updated.

Definition bump_adapter_version (connector_id version actor_id : string) now : geff ConnectorRegistration :=
  do* registration := get_registration connector_id in
  if String.eqb version (rg_adapter_version registration) then eret registration
  else
    let updated := rg_set_version version now registration in
    do* _ := set_registration updated in
    do* _ := reg_record (mk_SinkAudit "CONNECTOR_ADAPTER_VERSION_CHANGED" actor_id now
      (dict [("connector_id", PStr connector_id); ("from_version", PStr (rg_adapter_version registration));
             ("to_version", PStr version); ("certification_status", PStr "STALE")])) in
    eret updated.

Definition POptZ (o : option Z) : pyobj := match o with Some z => PInt z | None => PNone end.

Definition record_health (connector_id : string) (healthy : bool) (latency_ms : option Z) (detail_code : option string)
    (degraded : bool) now : geff ConnectorRegistration :=
  do* registration := get_registration connector_id in
  refuse (GInvalidRequestError "invalid_health_sample") when (degraded && negb healthy) else
  let status := if healthy && degraded then "DEGRADED"%string else if healthy then "HEALTHY"%string else "UNHEALTHY"%string in
  do* sample_id := elift (g_res (make_connector_id "chlth"
    (dict [("connector_id", PStr connector_id); ("sampled_at", PDatetime now)]))) in
  do* _ := append_health (mk_HealthSampleRecord sample_id connector_id healthy latency_ms detail_code now) in
  do* _ := (if String.eqb status (rg_health_status registration) then eret tt
            else reg_emit (mk_SinkEvent "connector_registration.health_changed"
                   (dict [("connector_id", PStr connector_id); ("from", PStr (rg_health_status registration));
                          ("to", PStr status); ("latency_ms", POptZ latency_ms)]))) in
  let updated := rg_set_health status now registration in
  do* _ := set_registration updated in
  eret updated.

Definition health_log (connector_id : string) (s : Registry) : list HealthSampleRecord :=
  List.filter (fun h => String.eqb (hs_connector_id h) connector_id) (health_samples s).

Definition serves_simulator (r : ConnectorRegistration) : bool :=
  bool_decide (rg_active_mode r = SIMULATOR) && rg_enabled r.

Definition assert_simulator_allowed (allow_simulator : bool) : geff unit :=
  if allow_simulator then eret tt
  else
    do* s := eget in
    let offenders := List.filter (fun k => match registrations s !! k with Some r => serves_simulator r | None => false end)
                       (sorted_ids s) in
    refuse (SimulatorForbiddenError offenders) when (match offenders with [] => false | _ => true end) else
    eret tt.

Definition _credential_refs (registration : ConnectorRegistration) (mode : ConnectorMode) : list string :=
  default [] (dict_get (mode_value mode) (rg_credential_refs_by_mode registration)).

Definition _credentials_resolve (resolves : string -> bool) (registration : ConnectorRegistration) (mode : ConnectorMode) : bool :=
  forallb resolves (_credential_refs registration mode).

Definition _apply_mode (registration : ConnectorRegistration) (to_mode : ConnectorMode) (trigger actor_id reason : string)
    (approval_request_id : option string) (audit_action : string) (enabled : option bool)
    (previous_mode : option ConnectorMode) now : geff ConnectorRegistration :=
  let from_mode := rg_active_mode registration in
  let updated := rg_set_mode to_mode (default from_mode previous_mode) (default (rg_enabled registration) enabled) now registration in
  do* _ := set_registration updated in
  do* mode_change_id := elift (g_res (make_connector_id "cmode"
    (dict [("connector_id", PStr (rg_connector_id registration)); ("from_mode", PStr (mode_value from_mode));
           ("to_mode", PStr (mode_value to_mode)); ("occurred_at", PDatetime now)]))) in
  do* _ := append_mode_change (mk_ModeChangeRecord mode_change_id (rg_connector_id registration) from_mode to_mode reason
             actor_id approval_request_id now) in
  do* _ := reg_record (mk_SinkAudit audit_action actor_id now
    (dict [("connector_id", PStr (rg_connector_id registration)); ("trigger", PStr trigger);
           ("from_mode", PStr (mode_value from_mode)); ("to_mode", PStr (mode_value to_mode)); ("reason", PStr reason)])) in
  do* _ := reg_emit (mk_SinkEvent "connector_registration.mode_changed"
    (dict [("connector_id", PStr (rg_connector_id registration)); ("from_mode", PStr (mode_value from_mode));
           ("to_mode", PStr (mode_value to_mode)); ("actor_id", PStr actor_id);
           ("approval_request_id", POpt approval_request_id)])) in
  eret updated.

Definition MODE_CHANGED : string := "CONNECTOR_MODE_CHANGED".

(** [if not value] on an optional string. *)
Definition blank (o : option string) : bool := match o with Some x => negb (truthy x) | None => true end.

Definition promote (resolves : string -> bool) (connector_id actor_id reason : string) (approval_request_id : option string)
    now : geff ConnectorRegistration :=
  do* registration := get_registration connector_id in
  match _PROMOTION_TARGET (rg_active_mode registration) with
  | None => elift (Err TransitionDeniedError)
  | Some target =>
      refuse TransitionDeniedError when (negb (String.eqb (rg_certification_status registration) "PASSED")) else
      refuse TransitionDeniedError
        when (bool_decide (target ∈ _CREDENTIALED_MODES) && negb (_credentials_resolve resolves registration target)) else
      refuse TransitionDeniedError when (bool_decide (target = PRODUCTION) && blank approval_request_id) else
      _apply_mode registration target "promote" actor_id reason approval_request_id MODE_CHANGED None None now
  end.

Definition demote (connector_id : string) (to_mode : ConnectorMode) (actor_id reason : string) now : geff ConnectorRegistration :=
  do* registration := get_registration connector_id in
  refuse TransitionDeniedError when (negb (bool_decide (rg_active_mode registration = PRODUCTION))) else
  refuse TransitionDeniedError when (negb (bool_decide (to_mode ∈ _DEMOTION_TARGETS))) else
  _apply_mode registration to_mode "demote" actor_id reason None MODE_CHANGED None None now.

Definition disable (connector_id actor_id reason : string) now : geff ConnectorRegistration :=
  do* registration := get_registration connector_id in
  refuse TransitionDeniedError when (bool_decide (rg_active_mode registration = DISABLED)) else
  _apply_mode registration DISABLED "operator_disable" actor_id reason None MODE_CHANGED (Some false) None now.

Definition re_enable (resolves : string -> bool) (connector_id actor_id reason : string) now : geff ConnectorRegistration :=
  do* registration := get_registration connector_id in
  refuse TransitionDeniedError when (negb (bool_decide (rg_active_mode registration = DISABLED))) else
  match rg_previous_mode registration with
  | None | Some DISABLED => elift (Err TransitionDeniedError)
  | Some previous =>
      refuse TransitionDeniedError
        when (bool_decide (previous ∈ _CREDENTIALED_MODES) && negb (_credentials_resolve resolves registration previous)) else
      _apply_mode registration previous "re_enable" actor_id reason None MODE_CHANGED (Some true) (Some DISABLED) now
  end.

Definition _SWEEP_ACTOR : string := "system:fail-closed-sweep".

(** One turn of the sweep: whether the connector was disabled. *)
Definition sweep_connector (resolves : string -> bool) (connector_id : string) now : geff bool :=
  do* registration := get_registration connector_id in
  if negb (bool_decide (rg_active_mode registration ∈ _CREDENTIALED_MODES)) then eret false
  else if _credentials_resolve resolves registration (rg_active_mode registration) then eret false
  else
    do* _ := _apply_mode registration DISABLED "credentials_missing_at_load" _SWEEP_ACTOR
      "credential ref unresolvable at sweep (fail-closed)" None "CONNECTOR_FAIL_CLOSED" (Some false) None now in
    do* _ := reg_emit (mk_SinkEvent "connector_registration.disabled"
      (dict [("connector_id", PStr connector_id); ("reason", PStr "credentials_missing_at_load")])) in
    eret true.

Fixpoint sweep_ids (resolves : string -> bool) (ids : list string) now : geff (list string) :=
  match ids with
  | [] => eret []
  | k :: ids =>
      do* disabled := sweep_connector resolves k now in
      do* more := sweep_ids resolves ids now in
      eret (if disabled then k :: more else more)
  end.

Definition sweep_credentials (resolves : string -> bool) now : geff (list string) :=
  do* s := eget in sweep_ids resolves (sorted_ids s) now.

Definition mode_change_log (connector_id : string) (s : Registry) : list ModeChangeRecord :=
  List.filter (fun m => String.eqb (mc_connector_id m) connector_id) (mode_changes s).
End Registry.
