(* ===== verification/RegistryFacts.v ===== *)
(** The mode machine of the connector registry: every stored registration is well
    formed, the log of mode changes is a walk in the declared table, production
    is reached only by an approved promotion, and the credential sweep fails
    closed. *)
From S2P Require Import Prelude Exceptions DateTime Sha256 Canonical Breaker Registry.
Open Scope Z_scope.

(** A call of the registry that writes, with the reading of the clock it makes. *)
Inductive reg_op : Type :=
| GRegister (connector_id display_name protocol : string) (capabilities methods : list string) (version : string)
    (mode : ConnectorMode) (refs : list (string * list string)) (timeout_ms : option Z) (budget : option RetryBudget)
    (certification : string) (now : datetime)
| GCertify (connector_id status : string) (certified_at : option datetime) (now : datetime)
| GBump (connector_id version actor : string) (now : datetime)
| GHealth (connector_id : string) (healthy : bool) (latency_ms : option Z) (detail : option string) (degraded : bool) (now : datetime)
| GPromote (resolves : string -> bool) (connector_id actor reason : string) (approval : option string) (now : datetime)
| GDemote (connector_id : string) (to_mode : ConnectorMode) (actor reason : string) (now : datetime)
| GDisable (connector_id actor reason : string) (now : datetime)
| GReenable (resolves : string -> bool) (connector_id actor reason : string) (now : datetime)
| GSweep (resolves : string -> bool) (now : datetime).

Definition reg_clock (op : reg_op) : datetime :=
  match op with
  | GRegister _ _ _ _ _ _ _ _ _ _ _ now | GCertify _ _ _ now | GBump _ _ _ now | GHealth _ _ _ _ _ now
  | GPromote _ _ _ _ _ now | GDemote _ _ _ _ now | GDisable _ _ _ now | GReenable _ _ _ _ now | GSweep _ now => now
  end.

(** * The mode machine, as a specification *)

(** The active mode and the mode before it, moved by a recorded change. *)
Inductive mode_step : ConnectorMode * option ConnectorMode -> ModeChangeRecord -> ConnectorMode * option ConnectorMode -> Prop :=
| step_promote m p m' c :
    _PROMOTION_TARGET m = Some m' -> (m' = PRODUCTION -> blank (mc_approval_request_id c) = false) ->
    mc_from_mode c = m -> mc_to_mode c = m' -> mode_step (m, p) c (m', Some m)
| step_demote p m' c :
    m' ∈ _DEMOTION_TARGETS -> mc_from_mode c = PRODUCTION -> mc_to_mode c = m' ->
    mode_step (PRODUCTION, p) c (m', Some PRODUCTION)
| step_disable m p c :
    m <> DISABLED -> mc_from_mode c = m -> mc_to_mode c = DISABLED -> mode_step (m, p) c (DISABLED, Some m)
| step_restore m c :
    m <> DISABLED -> mc_from_mode c = DISABLED -> mc_to_mode c = m -> mode_step (DISABLED, Some m) c (m, Some DISABLED).

Inductive mode_walk (from : ConnectorMode * option ConnectorMode) :
    list ModeChangeRecord -> ConnectorMode * option ConnectorMode -> Prop :=
| walk_start : mode_walk from [] from
| walk_more l s c s' : mode_walk from l s -> mode_step s c s' -> mode_walk from (l ++ [c]) s'.

(** A step leaves a mode other than the new one behind. *)
Lemma mode_step_moves s c s' : mode_step s c s' -> s'.2 <> Some s'.1.
Proof.
  destruct 1 as [m p m' c Ht|p m' c Ht|m p c Hd|m c Hd]; cbn; intros [= He]; try congruence.
  - rewrite He in Ht. by destruct m'.
  - rewrite <- He in Ht. unfold _DEMOTION_TARGETS in Ht. set_solver.
Qed.

(** A walk into production took the approved step, unless it began there. *)
Lemma walk_production m0 l m p :
  mode_walk (m0, None) l (m, p) ->
  (m = PRODUCTION \/ p = Some PRODUCTION) ->
  m0 = PRODUCTION \/
  exists c, c ∈ l /\ mc_from_mode c = SANDBOX /\ mc_to_mode c = PRODUCTION /\ blank (mc_approval_request_id c) = false.
Proof.
  intros Hw. remember (m, p) as s eqn:Hs. revert m p Hs.
  induction Hw as [|l s c s' Hw IH Hst]; intros m p Hs Hp; [simplify_eq; by destruct Hp; left|]. subst s'.
  assert (Hprev : forall m1 p1, s = (m1, p1) -> m1 = PRODUCTION \/ p1 = Some PRODUCTION ->
    m0 = PRODUCTION \/ exists c', c' ∈ l ++ [c] /\ mc_from_mode c' = SANDBOX /\ mc_to_mode c' = PRODUCTION /\
      blank (mc_approval_request_id c') = false).
  { intros m1 p1 -> H1. destruct (IH _ _ eq_refl H1) as [?|(c' & Hc' & ?)]; [by left|].
    right. exists c'. split; [apply elem_of_app; by left|done]. }
  inversion Hst as [m1 p1 m2 c1 Ht Ha Hf Hto|p1 m2 c1 Ht Hf Hto|m1 p1 c1 Hd Hf Hto|m1 c1 Hd Hf Hto]; subst.
  - destruct Hp as [Hp|Hp]; [|destruct (mc_from_mode c); simplify_eq/=; by apply (Hprev _ _ eq_refl); left].
    right. exists c. split; [apply elem_of_app; right; by apply list_elem_of_singleton|].
    rewrite Hp in *. split_and!; [by destruct (mc_from_mode c)|done|by apply Ha].
  - apply (Hprev _ _ eq_refl). by left.
  - apply (Hprev _ _ eq_refl). left. destruct Hp; congruence.
  - apply (Hprev _ _ eq_refl). right. destruct Hp; congruence.
Qed.

Section Facts.
Context `{HashFn}.
Implicit Types (s : Registry) (now : datetime).

Definition reg_perform (op : reg_op) (s : Registry) : Registry :=
  match op with
  | GRegister c n p caps ms v m refs t b cert now => (register c n p caps ms v m refs t b cert now s).2
  | GCertify c st at_ now => (set_certification c st at_ now s).2
  | GBump c v a now => (bump_adapter_version c v a now s).2
  | GHealth c h l d dg now => (record_health c h l d dg now s).2
  | GPromote rs c a r ap now => (promote rs c a r ap now s).2
  | GDemote c m a r now => (demote c m a r now s).2
  | GDisable c a r now => (disable c a r now s).2
  | GReenable rs c a r now => (re_enable rs c a r now s).2
  | GSweep rs now => (sweep_credentials rs now s).2
  end.

Definition reg_run (ops : list reg_op) : Registry := foldl (fun s op => reg_perform op s) empty_registry ops.

(** The connector was registered in mode [m] by one of the calls. *)
Definition registered_in (ops : list reg_op) (k : string) (m : ConnectorMode) : Prop :=
  exists n p caps ms v refs t b cert now, GRegister k n p caps ms v m refs t b cert now ∈ ops.

(** * Well-formed registrations *)

Definition HEALTH_STATES : list string := ["UNKNOWN"; "HEALTHY"; "DEGRADED"; "UNHEALTHY"]%string.

Record reg_typed (r : ConnectorRegistration) : Prop := {
  rt_enabled : rg_enabled r = negb (bool_decide (rg_active_mode r = DISABLED));
  rt_previous : rg_previous_mode r <> Some (rg_active_mode r);
  rt_protocol : rg_protocol r ∈ _PROTOCOLS;
  rt_health : rg_health_status r ∈ HEALTH_STATES
}.

(** * Elementary changes *)

(** The parts of a registration that only a change of mode may touch. *)
Definition mode_part (r : ConnectorRegistration) :=
  (rg_connector_id r, rg_active_mode r, rg_previous_mode r, rg_enabled r, rg_protocol r).

Definition mode_state (r : ConnectorRegistration) : ConnectorMode * option ConnectorMode :=
  (rg_active_mode r, rg_previous_mode r).

(** What one write of the registry does to the rows and to the log of mode
    changes; with a naive clock the log entry of a change of mode is lost. *)
Inductive change (aware : bool) (ops : list reg_op) (s s' : Registry) : Prop :=
| ch_same : registrations s' = registrations s -> mode_changes s' = mode_changes s -> change aware ops s s'
| ch_new r : registrations s !! rg_connector_id r = None ->
    registrations s' = <[rg_connector_id r := r]> (registrations s) -> mode_changes s' = mode_changes s ->
    reg_typed r -> rg_previous_mode r = None -> registered_in ops (rg_connector_id r) (rg_active_mode r) ->
    change aware ops s s'
| ch_quiet r r' : registrations s !! rg_connector_id r = Some r -> mode_part r' = mode_part r ->
    registrations s' = <[rg_connector_id r' := r']> (registrations s) -> mode_changes s' = mode_changes s ->
    (rg_health_status r' = rg_health_status r \/ rg_health_status r' ∈ HEALTH_STATES) -> change aware ops s s'
| ch_mode r r' c : registrations s !! rg_connector_id r = Some r ->
    rg_connector_id r' = rg_connector_id r -> rg_protocol r' = rg_protocol r -> rg_health_status r' = rg_health_status r ->
    (rg_enabled r = negb (bool_decide (rg_active_mode r = DISABLED)) ->
     rg_enabled r' = negb (bool_decide (rg_active_mode r' = DISABLED))) ->
    mode_step (mode_state r) c (mode_state r') -> mc_connector_id c = rg_connector_id r ->
    registrations s' = <[rg_connector_id r' := r']> (registrations s) ->
    (mode_changes s' = mode_changes s ++ [c] \/ aware = false /\ mode_changes s' = mode_changes s) -> change aware ops s s'.

Definition changes aware ops := rtc (change aware ops).

(** Every registration is stored under its own id. *)
Definition own_ids s : Prop := forall k r, registrations s !! k = Some r -> rg_connector_id r = k.

Lemma change_own_ids aware ops s s' : change aware ops s s' -> own_ids s -> own_ids s'.
Proof.
  intros Hc Hs k r Hk. destruct Hc as [He _|r0 _ He|r0 r1 _ _ He|r0 r1 c _ _ _ _ _ _ _ He]; rewrite He in Hk;
    [by apply Hs|apply lookup_insert_Some in Hk as [[<- <-]|[_ Hk]]; [done|by apply Hs]..].
Qed.

Lemma get_registration_Ok k s r s' :
  get_registration k s = (Ok r, s') -> s' = s /\ registrations s !! k = Some r.
Proof. unfold get_registration. intros Hg. inv_eff. destruct (registrations s !! k) eqn:Hr; [|done]. inv_eff. done. Qed.

(** Reading a registration first: nothing happens without it. *)
Lemma changes_get {A} aware ops k (f : ConnectorRegistration -> geff A) s :
  own_ids s ->
  (forall r, registrations s !! k = Some r -> rg_connector_id r = k -> changes aware ops s (f r s).2) ->
  changes aware ops s ((do* r := get_registration k in f r) s).2.
Proof.
  intros Ho Hf. rewrite ebind_eq. unfold get_registration. rewrite ebind_eq. cbn.
  destruct (registrations s !! k) as [r|] eqn:Hk; cbn; [by apply Hf, Ho|apply rtc_refl].
Qed.

Lemma changes_refuse {A} aware ops e (b : bool) (c : geff A) s :
  (b = false -> changes aware ops s (c s).2) -> changes aware ops s ((refuse e when b else c) s).2.
Proof. destruct b; intros Hc; [apply rtc_refl|by apply Hc]. Qed.

Lemma make_connector_id_total prefix items :
  str_in prefix CONNECTOR_PREFIXES = true -> writable (dict items) = true ->
  exists i, make_connector_id prefix (dict items) = Ok i.
Proof.
  intros Hp Hw. unfold make_connector_id. destruct (str_in prefix PREFIXES) eqn:Hin; [by apply make_id_total|].
  rewrite Hp. cbn [negb is_dict dict]. destruct (sha256_canonical_total _ Hw) as [h Hh]. unfold dict in *. rewrite Hh. cbn. eauto.
Qed.

(** A change of mode is one elementary change. *)
Lemma changes_mode ops r to_mode trigger actor reason approval audit enabled previous now s :
  registrations s !! rg_connector_id r = Some r ->
  let prev := default (rg_active_mode r) previous in
  let en := default (rg_enabled r) enabled in
  (rg_enabled r = negb (bool_decide (rg_active_mode r = DISABLED)) -> en = negb (bool_decide (to_mode = DISABLED))) ->
  (forall c, mc_from_mode c = rg_active_mode r -> mc_to_mode c = to_mode -> mc_approval_request_id c = approval ->
     mode_step (mode_state r) c (to_mode, Some prev)) ->
  change (tz_aware now) ops s (_apply_mode r to_mode trigger actor reason approval audit enabled previous now s).2.
Proof.
  intros Hr prev en Hen Hst. unfold _apply_mode, ebind, elift. cbn -[make_connector_id].
  destruct (make_connector_id "cmode" _) as [i|e] eqn:Hi; cbn -[make_connector_id].
  - eapply (ch_mode _ _ _ _ r (rg_set_mode to_mode prev en now r)
      (mk_ModeChangeRecord i (rg_connector_id r) (rg_active_mode r) to_mode reason actor approval now)); try done; [|by left].
    by apply Hst.
  - eapply (ch_mode _ _ _ _ r (rg_set_mode to_mode prev en now r)
      (mk_ModeChangeRecord "" (rg_connector_id r) (rg_active_mode r) to_mode reason actor approval now)); try done.
    + by apply Hst.
    + right. split; [|done]. destruct (tz_aware now) eqn:Ha; [|done].
      destruct (make_connector_id_total "cmode" [("connector_id", PStr (rg_connector_id r));
        ("from_mode", PStr (mode_value (rg_active_mode r))); ("to_mode", PStr (mode_value to_mode));
        ("occurred_at", PDatetime now)]%string) as [i Hi']; [done|by cbn; rewrite Ha|]. congruence.
Qed.

(** An update that leaves the mode alone. *)
Lemma changes_quiet {A} aware ops r r' (x : A) s :
  registrations s !! rg_connector_id r = Some r -> mode_part r' = mode_part r ->
  (rg_health_status r' = rg_health_status r \/ rg_health_status r' ∈ HEALTH_STATES) ->
  changes aware ops s ((do* _ := set_registration r' in eret x) s).2.
Proof. intros Hr Hm Hh. apply rtc_once. by eapply (ch_quiet _ _ _ _ r r'). Qed.

Lemma changes_same {A} aware ops s (c : geff A) :
  registrations (c s).2 = registrations s -> mode_changes (c s).2 = mode_changes s -> changes aware ops s (c s).2.
Proof. intros. apply rtc_once. by apply ch_same. Qed.

Lemma record_health_changes aware ops k h l d dg now s :
  own_ids s -> changes aware ops s (record_health k h l d dg now s).2.
Proof.
  intros Ho. apply changes_get; [done|]. intros r Hr Hk. apply changes_refuse. intros _. cbv zeta.
  unfold ebind at 1, elift. destruct (g_res _) as [i|e]; [|apply rtc_refl].
  set (st := if h && dg then "DEGRADED"%string else if h then "HEALTHY"%string else "UNHEALTHY"%string).
  assert (Hst : st ∈ HEALTH_STATES) by (unfold st; destruct h, dg; cbn; set_solver).
  apply rtc_once. eapply (ch_quiet _ _ _ _ r (rg_set_health st now r)); [by rewrite Hk|done|..|by right];
    destruct (String.eqb st _); done.
Qed.

Lemma sweep_connector_changes ops rs k now s :
  own_ids s -> changes (tz_aware now) ops s (sweep_connector rs k now s).2.
Proof.
  intros Ho. apply changes_get; [done|]. intros r Hr Hk.
  destruct (bool_decide _) eqn:Hm; cbn [negb]; [|apply rtc_refl].
  destruct (_credentials_resolve _ _ _); [apply rtc_refl|].
  apply bool_decide_eq_true in Hm. rewrite ebind_eq.
  pose proof (changes_mode ops r DISABLED "credentials_missing_at_load" _SWEEP_ACTOR
    "credential ref unresolvable at sweep (fail-closed)" None "CONNECTOR_FAIL_CLOSED" (Some false) None now s) as Hc.
  rewrite Hk in Hc. specialize (Hc Hr).
  destruct (_apply_mode _ _ _ _ _ _ _ _ _ _ s) as [[r'|e] s'] eqn:Ha; cbn [snd] in *.
  - apply rtc_l with s'; [|by apply rtc_once, ch_same]. apply Hc; [done|].
    intros c Hf Ht _. apply step_disable; [|done..]. intros Hd. cbn in Hd. rewrite Hd in Hm. unfold _CREDENTIALED_MODES in Hm. set_solver.
  - apply rtc_once, Hc; [done|].
    intros c Hf Ht _. apply step_disable; [|done..]. intros Hd. cbn in Hd. rewrite Hd in Hm. unfold _CREDENTIALED_MODES in Hm. set_solver.
Qed.

Lemma changes_own_ids aware ops s s' : changes aware ops s s' -> own_ids s -> own_ids s'.
Proof. induction 1; eauto using change_own_ids. Qed.

Lemma sweep_ids_changes ops rs now ids : forall s,
  own_ids s -> changes (tz_aware now) ops s (sweep_ids rs ids now s).2.
Proof.
  induction ids as [|k ids IH]; intros s Ho; cbn [sweep_ids]; [apply rtc_refl|].
  pose proof (sweep_connector_changes ops rs k now s Ho) as Hk. rewrite ebind_eq.
  destruct (sweep_connector rs k now s) as [[b|e] s'] eqn:Hs; cbn [snd] in Hk; [|done].
  etrans; [exact Hk|]. rewrite ebind_eq. specialize (IH s' (changes_own_ids _ _ _ _ Hk Ho)).
  by destruct (sweep_ids rs ids now s') as [[l|e] s''].
Qed.

(** Every call of the registry is a sequence of elementary changes. *)
Lemma perform_changes ops op s :
  op ∈ ops -> own_ids s -> changes (tz_aware (reg_clock op)) ops s (reg_perform op s).
Proof.
  intros Hop Ho. destruct op as [k n p caps ms v m refs t b cert now|k st at_ now|k v a now|k h l d dg now|
    rs k a r ap now|k m a r now|k a r now|rs k a r now|rs now]; cbn [reg_perform reg_clock].
  - unfold register. generalize (budget_for k). intros bd. apply changes_refuse. intros Hp. unfold ebind, elift. cbn [eget].
    destruct (registrations s !! k) eqn:Hk; [apply rtc_refl|].
    destruct (g_res _) as [i|e]; [|apply rtc_refl]. apply rtc_once. eapply ch_new; [|done|done| |done|]; cbn [rg_connector_id].
    + done.
    + bool_prop. unfold str_in in Hp. bool_prop. split; cbn; [done|by destruct m|done|set_solver].
    + cbn. by exists n, p, caps, ms, v, refs, t, b, cert, now.
  - unfold set_certification. apply changes_refuse. intros _. apply changes_get; [done|]. intros r Hr Hk. cbv zeta.
    apply (changes_quiet _ _ r); [by rewrite Hk|done|by left].
  - unfold bump_adapter_version. apply changes_get; [done|]. intros r Hr Hk. destruct (String.eqb _ _); [apply rtc_refl|].
    cbv zeta. apply rtc_once. by eapply (ch_quiet _ _ _ _ r (rg_set_version v now r)); [rewrite Hk|..|left].
  - by apply record_health_changes.
  - unfold promote. apply changes_get; [done|]. intros q Hr Hk.
    destruct (_PROMOTION_TARGET _) as [m'|] eqn:Ht; [|apply rtc_refl].
    apply changes_refuse; intros _. apply changes_refuse; intros _. apply changes_refuse; intros Hap.
    apply rtc_once, changes_mode; [by rewrite Hk|..]; cbn.
    + intros ->. destruct (rg_active_mode q); by simplify_eq/=.
    + intros c Hf Hto Hc. apply step_promote; try done. intros ->. rewrite Hc. by destruct (blank ap).
  - unfold demote. apply changes_get; [done|]. intros q Hr Hk. apply changes_refuse; intros Hm. apply changes_refuse; intros Ht.
    bool_prop. apply rtc_once, changes_mode; [by rewrite Hk|..]; cbn.
    + intros ->. rewrite Hm, (bool_decide_false (m = DISABLED)); [done|]. intros ->. unfold _DEMOTION_TARGETS in Ht. set_solver.
    + intros c Hf Hto Hc. unfold mode_state. rewrite Hm in *. by apply step_demote.
  - unfold disable. apply changes_get; [done|]. intros q Hr Hk. apply changes_refuse; intros Hm. bool_prop.
    apply rtc_once, changes_mode; [by rewrite Hk|done|]. intros c Hf Hto Hc. by apply step_disable.
  - unfold re_enable. apply changes_get; [done|]. intros q Hr Hk. apply changes_refuse; intros Hm. bool_prop.
    destruct (rg_previous_mode q) as [[| | | |]|] eqn:Hp; try apply rtc_refl; apply changes_refuse; intros _;
      (apply rtc_once, changes_mode; [by rewrite Hk|done|]); intros c Hf Hto Hc; unfold mode_state; rewrite Hm, Hp in *;
      by apply step_restore.
  - unfold sweep_credentials. rewrite ebind_eq. cbn. by apply sweep_ids_changes.
Qed.

(** * Runs *)

Lemma change_weaken aware ops s s' : change aware ops s s' -> change false ops s s'.
Proof.
  intros [| | |r r' c]; [by apply ch_same|by eapply ch_new|by eapply ch_quiet|].
  eapply (ch_mode _ _ _ _ r r' c); try done. naive_solver.
Qed.

(** An invariant of the elementary changes holds in every reachable registry. *)
Lemma reg_run_inv (I : Registry -> Prop) aware ops :
  (aware = true -> Forall (fun op => tz_aware (reg_clock op) = true) ops) ->
  I empty_registry -> (forall s s', change aware ops s s' -> own_ids s -> I s -> I s') ->
  own_ids (reg_run ops) /\ I (reg_run ops).
Proof.
  intros Ha H0 HI. unfold reg_run.
  assert (Hgo : forall l s, l ⊆ ops -> own_ids s -> I s ->
    own_ids (foldl (fun s op => reg_perform op s) s l) /\ I (foldl (fun s op => reg_perform op s) s l)).
  { induction l as [|op l IH]; intros s Hl Ho Hs; [done|]. cbn [foldl].
    assert (Hop : op ∈ ops) by (apply Hl; by left).
    assert (Hc : changes aware ops s (reg_perform op s)).
    { pose proof (perform_changes ops op s Hop Ho) as Hc. destruct aware.
      - rewrite Forall_forall in Ha. by rewrite (Ha eq_refl op Hop) in Hc.
      - eapply (rtc_subrel _ _ _ _ (change_weaken _ _) Hc). }
    apply IH; [set_solver|by eapply changes_own_ids|].
    clear -Hc Hs HI Ho. induction Hc as [|s s1 s2 H1 _ IH]; [done|]. apply IH; eauto using change_own_ids. }
  by apply Hgo.
Qed.

(** C30: every stored registration is well formed: it is stored under its own id, it
    is enabled exactly when its mode is not DISABLED, the mode to restore differs
    from the active one, and protocol and health are of the declared vocabularies. *)
Theorem registrations_well_typed ops k r :
  registrations (reg_run ops) !! k = Some r -> rg_connector_id r = k /\ reg_typed r.
Proof.
  intros Hk. destruct (reg_run_inv (fun s => forall k r, registrations s !! k = Some r -> reg_typed r) false ops)
    as [Ho Ht]; [done|intros k0 r0; cbn [empty_registry registrations]; by rewrite lookup_empty| |by eauto].
  clear. intros s s' Hc Ho Hs k r Hk. destruct Hc as [He _|r0 _ He _ Ht|r0 r1 H0 Hm He _ Hh|r0 r1 c H0 Hi Hp Hh Hen Hst _ He _];
    rewrite He in Hk; [by eauto|apply lookup_insert_Some in Hk as [[_ <-]|[_ Hk]]; [|by eauto]..].
  - done.
  - destruct (Hs _ _ H0). unfold mode_part in Hm. injection Hm as _ Hm1 Hm2 Hm3 Hm4. split; rewrite ?Hm1, ?Hm2, ?Hm3, ?Hm4; [done..|].
    by destruct Hh as [->|?].
  - destruct (Hs _ _ H0) as [He0 Hp0 ? ?]. split; [by apply Hen| |by rewrite Hp|by rewrite Hh].
    by apply mode_step_moves in Hst.
Qed.

(** * The log *)

Lemma mode_change_log_snoc k s s' c :
  mode_changes s' = mode_changes s ++ [c] ->
  mode_change_log k s' = mode_change_log k s ++ (if String.eqb (mc_connector_id c) k then [c] else []).
Proof. intros Hm. unfold mode_change_log. rewrite Hm, List.filter_app. cbn. by destruct (String.eqb _ k). Qed.

Lemma mode_change_log_same k s s' : mode_changes s' = mode_changes s -> mode_change_log k s' = mode_change_log k s.
Proof. unfold mode_change_log. by intros ->. Qed.

(** The log of a registered connector is a walk; there is no log of another. *)
Definition logged ops s : Prop := forall k,
  match registrations s !! k with
  | None => mode_change_log k s = []
  | Some r => exists m0, registered_in ops k m0 /\ mode_walk (m0, None) (mode_change_log k s) (mode_state r)
  end.

Lemma change_logged ops s s' : change true ops s s' -> own_ids s -> logged ops s -> logged ops s'.
Proof.
  intros Hc Ho Hs k. specialize (Hs k). destruct Hc as [He Hl|r Hn He Hl _ Hp Hb|r r' Hr Hm He Hl _|r r' c Hr Hi _ _ _ Hst Hc He Hl].
  - rewrite He, (mode_change_log_same k s s' Hl). done.
  - rewrite He, (mode_change_log_same k s s' Hl). destruct (decide (rg_connector_id r = k)) as [<-|Hne].
    + rewrite lookup_insert_eq. rewrite Hn in Hs. rewrite Hs. exists (rg_active_mode r). split; [done|].
      unfold mode_state. rewrite Hp. constructor.
    + by rewrite lookup_insert_ne.
  - rewrite He, (mode_change_log_same k s s' Hl). unfold mode_part in Hm. injection Hm as H1 H2 H3 _ _.
    destruct (decide (rg_connector_id r' = k)) as [<-|Hne]; [|by rewrite lookup_insert_ne].
    rewrite lookup_insert_eq. rewrite H1 in *. rewrite Hr in Hs. unfold mode_state in *. by rewrite H2, H3.
  - destruct Hl as [Hl|[? _]]; [|done]. rewrite He, (mode_change_log_snoc k s s' c Hl), Hi, Hc.
    destruct (String.eqb_spec (rg_connector_id r) k) as [<-|Hne].
    + rewrite lookup_insert_eq. rewrite Hr in Hs. destruct Hs as (m0 & Hb & Hw). exists m0. split; [done|].
      by eapply walk_more.
    + rewrite app_nil_r, lookup_insert_ne by done. done.
Qed.

Lemma run_logged ops : Forall (fun op => tz_aware (reg_clock op) = true) ops -> logged ops (reg_run ops).
Proof.
  intros Ha. apply (reg_run_inv (logged ops) true ops); [done| |by apply change_logged].
  intros k. cbn. by rewrite lookup_empty.
Qed.

(** The log refines the mode machine: whatever calls were made, in any order and
    refused or not, the recorded mode changes of a connector are a walk of the
    declared steps (promotion one rung up, approved when it is to production;
    demotion from production; disabling; restoring the previous mode) from the
    mode it was registered in to its active and previous mode. *)
Theorem mode_log_is_a_walk ops k r :
  Forall (fun op => tz_aware (reg_clock op) = true) ops -> registrations (reg_run ops) !! k = Some r ->
  exists m0, registered_in ops k m0 /\
    mode_walk (m0, None) (mode_change_log k (reg_run ops)) (rg_active_mode r, rg_previous_mode r).
Proof. intros Ha Hk. pose proof (run_logged ops Ha k) as Hl. by rewrite Hk in Hl. Qed.

(** C29: production needs two pairs of eyes: a connector that serves production was
    registered there, or its log holds a promotion from SANDBOX to PRODUCTION with
    an approval request, however often it was demoted, disabled and restored. *)
Theorem production_is_approved ops k r :
  Forall (fun op => tz_aware (reg_clock op) = true) ops -> registrations (reg_run ops) !! k = Some r ->
  rg_active_mode r = PRODUCTION ->
  registered_in ops k PRODUCTION \/
  exists c a, c ∈ mode_change_log k (reg_run ops) /\ mc_from_mode c = SANDBOX /\ mc_to_mode c = PRODUCTION /\
    mc_approval_request_id c = Some a /\ truthy a = true.
Proof.
  intros Ha Hk Hp. pose proof (run_logged ops Ha k) as Hl. rewrite Hk in Hl. destruct Hl as (m0 & Hb & Hw).
  destruct (walk_production _ _ _ _ Hw) as [->|(c & Hc & Hf & Ht & Hap)]; [by left|by left|].
  right. unfold blank in Hap. destruct (mc_approval_request_id c) as [a|] eqn:Hca; [|done].
  exists c, a. bool_prop. done.
Qed.

(** * The sweep *)

(** A connector the sweep must disable. *)
Definition unresolved (resolves : string -> bool) (r : ConnectorRegistration) : bool :=
  bool_decide (rg_active_mode r ∈ _CREDENTIALED_MODES) && negb (_credentials_resolve resolves r (rg_active_mode r)).

Definition swept (resolves : string -> bool) now (r : ConnectorRegistration) : ConnectorRegistration :=
  if unresolved resolves r then rg_set_mode DISABLED (rg_active_mode r) false now r else r.

Lemma swept_id rs now r : rg_connector_id (swept rs now r) = rg_connector_id r.
Proof. unfold swept. by destruct (unresolved rs r). Qed.

Lemma sweep_connector_Ok rs k now s r :
  tz_aware now = true -> registrations s !! k = Some r -> rg_connector_id r = k ->
  exists s', sweep_connector rs k now s = (Ok (unresolved rs r), s') /\
    registrations s' = <[k := swept rs now r]> (registrations s).
Proof.
  intros Hn Hr Hk. unfold sweep_connector, get_registration, unresolved, swept, unresolved.
  unfold ebind at 1 2. cbn [eget]. rewrite Hr. cbn [eret].
  destruct (bool_decide (rg_active_mode r ∈ _CREDENTIALED_MODES)); cbn [negb andb];
    [|exists s; by rewrite insert_id].
  destruct (_credentials_resolve rs r (rg_active_mode r)); cbn [negb]; [exists s; by rewrite insert_id|].
  destruct (make_connector_id_total "cmode" [("connector_id", PStr (rg_connector_id r));
    ("from_mode", PStr (mode_value (rg_active_mode r))); ("to_mode", PStr (mode_value DISABLED));
    ("occurred_at", PDatetime now)]%string) as [i Hi]; [done|by cbn; rewrite Hn|].
  unfold _apply_mode, ebind, elift. rewrite Hi. cbn. eexists. split; [done|]. cbn. by rewrite Hk.
Qed.

Lemma sweep_ids_Ok rs now ids : forall s,
  tz_aware now = true -> NoDup ids -> own_ids s -> (forall k, k ∈ ids -> is_Some (registrations s !! k)) ->
  exists l s', sweep_ids rs ids now s = (Ok l, s') /\
    forall k r, registrations s !! k = Some r ->
      (k ∈ l <-> k ∈ ids /\ unresolved rs r = true) /\
      registrations s' !! k = Some (if bool_decide (k ∈ ids) then swept rs now r else r).
Proof.
  induction ids as [|i ids IH]; intros s Hn Hnd Ho Hall; cbn [sweep_ids].
  { exists [], s. split; [done|]. intros k r Hk. split; [set_solver|done]. }
  apply NoDup_cons in Hnd as [Hi Hnd]. destruct (Hall i) as [ri Hri]; [by left|].
  destruct (sweep_connector_Ok rs i now s ri Hn Hri (Ho _ _ Hri)) as (s1 & Hs1 & Hr1).
  destruct (IH s1 Hn Hnd) as (l & s2 & Hs2 & Hl).
  { intros k r Hk. rewrite Hr1 in Hk. apply lookup_insert_Some in Hk as [[<- <-]|[_ Hk]]; [|by apply Ho].
    rewrite swept_id. by apply Ho. }
  { intros k Hk. rewrite Hr1. destruct (decide (i = k)) as [->|Hne]; [by rewrite lookup_insert_eq|].
    rewrite lookup_insert_ne by done. apply Hall. by right. }
  exists (if unresolved rs ri then i :: l else l), s2. unfold ebind, eret. rewrite Hs1, Hs2. split; [done|].
  intros k r Hk. destruct (decide (i = k)) as [<-|Hne].
  - assert (r = ri) as -> by congruence. destruct (Hl i (swept rs now ri)) as [Hin Hlook]; [by rewrite Hr1, lookup_insert_eq|].
    rewrite Hlook, (bool_decide_false (i ∈ ids)), (bool_decide_true (i ∈ i :: ids)) by set_solver. split; [|done].
    destruct (unresolved rs ri); set_solver.
  - destruct (Hl k r) as [Hin Hlook]; [by rewrite Hr1, lookup_insert_ne|]. rewrite Hlook. split.
    + destruct (unresolved rs ri); set_solver.
    + f_equal. by rewrite (bool_decide_ext (k ∈ i :: ids) (k ∈ ids)) by set_solver.
Qed.

Lemma sorted_ids_spec s : NoDup (sorted_ids s) /\ forall k, k ∈ sorted_ids s <-> is_Some (registrations s !! k).
Proof.
  unfold sorted_ids. rewrite sort_by_perm. split; [apply NoDup_fst_map_to_list|].
  intros k. rewrite sort_by_perm, list_elem_of_fmap. split.
  - intros ([k' r] & -> & Hin%elem_of_map_to_list). by exists r.
  - intros [r Hr]. exists (k, r). split; [done|]. by apply elem_of_map_to_list.
Qed.

(** The credential sweep fails closed: it always completes, it disables exactly the
    connectors in SANDBOX or PRODUCTION with a reference that does not resolve,
    keeping their mode as the one to restore and never downgrading them, and it
    leaves every other registration as it was. *)
Theorem sweep_fails_closed ops resolves now :
  tz_aware now = true ->
  exists disabled s', sweep_credentials resolves now (reg_run ops) = (Ok disabled, s') /\
    forall k r, registrations (reg_run ops) !! k = Some r ->
      if bool_decide (rg_active_mode r ∈ _CREDENTIALED_MODES) && negb (_credentials_resolve resolves r (rg_active_mode r))
      then k ∈ disabled /\ exists r', registrations s' !! k = Some r' /\ rg_active_mode r' = DISABLED /\
             rg_enabled r' = false /\ rg_previous_mode r' = Some (rg_active_mode r)
      else ~ k ∈ disabled /\ registrations s' !! k = Some r.
Proof.
  intros Hn. destruct (reg_run_inv (fun _ => True) false ops) as [Ho _]; [done..|].
  destruct (sorted_ids_spec (reg_run ops)) as [Hnd Hin].
  destruct (sweep_ids_Ok resolves now _ _ Hn Hnd Ho) as (l & s' & Hs & Hl); [intros k Hk; by apply Hin|].
  exists l, s'. split; [done|]. intros k r Hk. destruct (Hl k r Hk) as [Hd Hlook]. fold (unresolved resolves r).
  rewrite bool_decide_true in Hlook by (apply Hin; by exists r). unfold swept in Hlook.
  assert (Hk' : k ∈ sorted_ids (reg_run ops)) by (apply Hin; by exists r).
  destruct (unresolved resolves r); [|split; [intros [_ ?]%Hd; done|done]].
  split; [by apply Hd|]. eauto.
Qed.
End Facts.
