(* ===== verification/Runner.v ===== *)
(** The connector runner (connectors/runner.py): the only way from the kernel to a
    rail.  It resolves the connector in the registry, asks the circuit breaker,
    writes the dispatch intent ahead (connectors/idempotency.py), calls the
    adapter under a timeout, records the result (connectors/stores.py) and reports
    it to the breaker.

    A coroutine runs without interruption up to the next await that yields: the
    adapter call or a sleep.  There it stops as a [job], which says what it waits
    for and what it does with each answer; other coroutines run in between.  An
    uninterrupted piece reads the clock once. *)
From S2P Require Import Prelude Exceptions DateTime Sha256 Canonical Breaker Registry Sdk.
Open Scope Z_scope.

Definition TRANSPORT_ERROR_CODE : string := "transport_error".
Definition NOT_RECEIVED_CODE : string := "not_received".
Definition SANDBOX_ISOLATION_CODE : string := "sandbox_isolation_violation".
Definition MAX_TIMEOUT_SETTLE_POLLS : Z := 3.
Definition DEFAULT_BACKOFF_INITIAL_MS : Z := 200.
Definition DEFAULT_BACKOFF_CAP_MS : Z := 5000.

Definition _DEFINITIVE_STATUSES : list ConnectorStatus := [SUCCESS; REJECTED; REVERSED; FAILED].
Definition _REPLAY_SAFE_STATUSES : list ConnectorStatus := [SUCCESS; PENDING; REJECTED; REVERSED].

Definition CALL_KINDS : list string :=
  ["SUBMIT"; "QUERY_STATUS"; "REVERSE"; "WEBHOOK"; "MANUAL"; "HEALTH"; "BATCH_SUBMIT"; "BATCH_STATUS"]%string.

Inductive runerr : Type :=
| RetryForbiddenError
| SimulatorOnlyViolationError
| RegistryError (e : gerr)
| BreakerError (e : berr)
| RValueError
| CancelledError
| RRaised (e : exn).

Definition r_res {A} (c : res exn A) : res runerr A := match c with Ok a => Ok a | Err e => Err (RRaised e) end.

(** * State *)

Record DispatchIntent : Type := mk_DispatchIntent {
  di_connector_id : string;
  di_connector_ref : string;
  di_call_kind : string;
  di_instruction_id : string;
  di_recorded_at : datetime
}.

Record ConnectorResultRow : Type := mk_ConnectorResultRow {
  row_result_id : string;
  row_instruction_id : string;
  row_connector_ref : string;
  row_connector_id : string;
  row_attempt_no : Z;
  row_call_kind : string;
  row_status : string;
  row_rail_transaction_id : option string;
  row_responded_at : option string;
  row_error_code : option string;
  row_raw_response_hash : string;
  row_raw_response_pointer : string;
  row_mode_at_call : string;
  row_webhook_inbound_id : option string;
  row_produced_at : datetime
}.

(** A call on the adapter registered for a connector in a mode. *)
Inductive adapter_call : Type :=
| CSubmit (i : PaymentInstruction)
| CQuery (connector_ref : string) (rail_transaction_id : option string)
| CReverse (connector_ref : string) (rail_transaction_id : option string) (amount_minor : Z) (reason : string)
| CHealth.

Record touch_row : Type := mk_touch { t_connector : string; t_mode : ConnectorMode; t_call : adapter_call }.

(** The stores behind the runner.  [rn_touches] lists the calls made on adapters,
    oldest first; the code keeps no such list. *)
Record Runner : Type := mk_Runner {
  rn_registry : Registry;
  rn_breaker : Breaker;
  rn_rows : list ConnectorResultRow;
  rn_unique : gmap (string * string * string * Z) ConnectorResultRow;
  rn_recorded : gmap (string * string * string) ConnectorResult;
  rn_intents : gmap (string * string * string) DispatchIntent;
  rn_objects : gmap string string;
  rn_events : list SinkEvent;
  rn_adapters : gset (string * string);
  rn_touches : list touch_row
}.

Definition set_rn_registry (x : Registry) (w : Runner) : Runner :=
  mk_Runner x (rn_breaker w) (rn_rows w) (rn_unique w) (rn_recorded w) (rn_intents w) (rn_objects w) (rn_events w)
    (rn_adapters w) (rn_touches w).
Definition set_rn_breaker (x : Breaker) (w : Runner) : Runner :=
  mk_Runner (rn_registry w) x (rn_rows w) (rn_unique w) (rn_recorded w) (rn_intents w) (rn_objects w) (rn_events w)
    (rn_adapters w) (rn_touches w).
Definition add_row (k : string * string * string * Z) (x : ConnectorResultRow) (w : Runner) : Runner :=
  mk_Runner (rn_registry w) (rn_breaker w) (rn_rows w ++ [x]) (<[k := x]> (rn_unique w)) (rn_recorded w) (rn_intents w)
    (rn_objects w) (rn_events w) (rn_adapters w) (rn_touches w).
Definition set_recorded (k : string * string * string) (x : ConnectorResult) (w : Runner) : Runner :=
  mk_Runner (rn_registry w) (rn_breaker w) (rn_rows w) (rn_unique w) (<[k := x]> (rn_recorded w)) (rn_intents w)
    (rn_objects w) (rn_events w) (rn_adapters w) (rn_touches w).
Definition set_intent (k : string * string * string) (x : DispatchIntent) (w : Runner) : Runner :=
  mk_Runner (rn_registry w) (rn_breaker w) (rn_rows w) (rn_unique w) (rn_recorded w) (<[k := x]> (rn_intents w))
    (rn_objects w) (rn_events w) (rn_adapters w) (rn_touches w).
Definition put_object (k x : string) (w : Runner) : Runner :=
  mk_Runner (rn_registry w) (rn_breaker w) (rn_rows w) (rn_unique w) (rn_recorded w) (rn_intents w)
    (<[k := x]> (rn_objects w)) (rn_events w) (rn_adapters w) (rn_touches w).
Definition add_event (x : SinkEvent) (w : Runner) : Runner :=
  mk_Runner (rn_registry w) (rn_breaker w) (rn_rows w) (rn_unique w) (rn_recorded w) (rn_intents w) (rn_objects w)
    (rn_events w ++ [x]) (rn_adapters w) (rn_touches w).
Definition add_adapter (k : string * string) (w : Runner) : Runner :=
  mk_Runner (rn_registry w) (rn_breaker w) (rn_rows w) (rn_unique w) (rn_recorded w) (rn_intents w) (rn_objects w)
    (rn_events w) ({[ k ]} ∪ rn_adapters w) (rn_touches w).
Definition add_touch (x : touch_row) (w : Runner) : Runner :=
  mk_Runner (rn_registry w) (rn_breaker w) (rn_rows w) (rn_unique w) (rn_recorded w) (rn_intents w) (rn_objects w)
    (rn_events w) (rn_adapters w) (rn_touches w ++ [x]).

Definition reff := eff Runner runerr.

Definition modify (f : Runner -> Runner) : reff unit := fun w => (Ok tt, f w).

(** Run a call of the registry, or of the breaker, in its part of the state. *)
Definition on_registry {A} (c : geff A) : reff A := fun w =>
  let '(r, g) := c (rn_registry w) in
  (match r with Ok a => Ok a | Err e => Err (RegistryError e) end, set_rn_registry g w).
Definition on_breaker {A} (c : beff A) : reff A := fun w =>
  let '(r, b) := c (rn_breaker w) in
  (match r with Ok a => Ok a | Err e => Err (BreakerError e) end, set_rn_breaker b w).

(** * Coroutines *)

(** How an awaited call ends. *)
Inductive outcome (T : Type) : Type :=
| Returned (t : T)
| TimedOut
| Raised
| Cancelled.
Arguments Returned {T} _.
Arguments TimedOut {T}.
Arguments Raised {T}.
Arguments Cancelled {T}.

(** The surroundings of a piece: the clock, and whether the breaker's store can be read. *)
Record REnv : Type := mk_REnv { re_now : datetime; re_readable : bool }.

Inductive job (A : Type) : Type :=
| Finished (r : res runerr A)
| Calling (t : touch_row) (k : outcome ConnectorResult -> REnv -> Runner -> job A * Runner)
| Probing (t : touch_row) (k : outcome bool -> REnv -> Runner -> job A * Runner)
| Sleeping (ms : Z) (k : outcome unit -> REnv -> Runner -> job A * Runner).
Arguments Finished {A} _.
Arguments Calling {A} _ _.
Arguments Probing {A} _ _.
Arguments Sleeping {A} _ _.

(** A coroutine, started or resumed. *)
Definition coro (A : Type) : Type := REnv -> Runner -> job A * Runner.

Fixpoint jbind {A B} (j : job A) (f : A -> coro B) {struct j} : coro B := fun e w =>
  match j with
  | Finished (Ok a) => f a e w
  | Finished (Err x) => (Finished (Err x), w)
  | Calling t k => (Calling t (fun o e' w' => let (j', w'') := k o e' w' in jbind j' f e' w''), w)
  | Probing t k => (Probing t (fun o e' w' => let (j', w'') := k o e' w' in jbind j' f e' w''), w)
  | Sleeping ms k => (Sleeping ms (fun o e' w' => let (j', w'') := k o e' w' in jbind j' f e' w''), w)
  end.

Definition cbind {A B} (c : coro A) (f : A -> coro B) : coro B := fun e w =>
  let (j, w') := c e w in jbind j f e w'.
Definition cret {A} (a : A) : coro A := fun _ w => (Finished (Ok a), w).
(** A piece that does not await. *)
Definition piece {A} (c : REnv -> reff A) : coro A := fun e w => let (r, w') := c e w in (Finished r, w').
Definition sync {A} (c : reff A) : coro A := piece (fun _ => c).

Notation "'await' x ':=' c 'in' k" := (cbind c (fun x => k))
  (at level 10, x pattern, c at level 100, k at level 200) : bdpay_scope.

(** [await self._wait_for(adapter.call(...), timeout=...)]: the rail is touched. *)
Definition wait_for (t : touch_row) : coro (outcome ConnectorResult) := fun _ w =>
  (Calling t (fun o _ w' => (Finished (match o with Cancelled => Err CancelledError | o => Ok o end), w')), add_touch t w).
Definition wait_probe (t : touch_row) : coro (outcome bool) := fun _ w =>
  (Probing t (fun o _ w' => (Finished (match o with Cancelled => Err CancelledError | o => Ok o end), w')), add_touch t w).
(** [await self._sleep(ms / 1000)] *)
Definition sleep (ms : Z) : coro unit := fun _ w =>
  (Sleeping ms (fun o _ w' => (Finished (match o with Cancelled => Err CancelledError | _ => Ok tt end), w')), w).

(** * Elapsed time *)

(** The double nearest to [n / d] for positive [n] and [d], ties to even, as
    mantissa and exponent of two (the values here are far from the ends of the
    exponent range). *)
Definition round_double (n d : Z) : Z * Z :=
  let e0 := Z.log2 n - Z.log2 d - 53 in
  let scaled e := (n * 2 ^ Z.max 0 (- e), d * 2 ^ Z.max 0 e) in
  let e := (let '(n, d) := scaled e0 in if n / d <? 2 ^ 53 then e0 else e0 + 1) in
  let '(n, d) := scaled e in
  let q := n / d in
  let twice := 2 * (n mod d) in
  ((if (d <? twice) || ((twice =? d) && Z.odd q) then q + 1 else q), e).

(** [int((ended - started).total_seconds() * 1000)]: two roundings, then towards zero. *)
Definition elapsed_ms (started ended : datetime) : Z :=
  let us := micros ended - micros started in
  if us =? 0 then 0
  else
    let '(m, e) := round_double (Z.abs us) 1000000 in
    let '(m, e) := round_double (m * 1000 * 2 ^ Z.max 0 e) (2 ^ Z.max 0 (- e)) in
    Z.sgn us * (m * 2 ^ Z.max 0 e / 2 ^ Z.max 0 (- e)).

Example elapsed_ms_rounds :
  elapsed_ms (mk_datetime true 0) (mk_datetime true 1001000) = 1000 /\
  elapsed_ms (mk_datetime true 0) (mk_datetime true 29000) = 29 /\
  elapsed_ms (mk_datetime true 2500) (mk_datetime true 0) = -2.
Proof. by vm_compute. Qed.

Section Runner.
Context `{HashFn} (configs : gmap string BreakerConfig) (simulator_only : bool).

(** * Stores *)

Definition raw_object_key (connector_id raw_response_hash : string) : string :=
  "raw/" +:+ connector_id +:+ "/" +:+ raw_response_hash.

Definition idem_get (connector_id connector_ref call_kind : string) (w : Runner) : option ConnectorResult :=
  rn_recorded w !! (connector_id, connector_ref, call_kind).

Definition idem_put (connector_id connector_ref call_kind : string) (result : ConnectorResult) : reff ConnectorResult :=
  do* w := eget in
  let key := (connector_id, connector_ref, call_kind) in
  match rn_recorded w !! key with
  | Some existing => eret existing
  | None => do* _ := modify (set_recorded key result) in eret result
  end.

Definition idem_begin (connector_id connector_ref call_kind instruction_id : string) (recorded_at : datetime) :
    reff DispatchIntent :=
  do* w := eget in
  let key := (connector_id, connector_ref, call_kind) in
  match rn_intents w !! key with
  | Some existing => eret existing
  | None =>
      let intent := mk_DispatchIntent connector_id connector_ref call_kind instruction_id recorded_at in
      do* _ := modify (set_intent key intent) in eret intent
  end.

Definition idem_intent (connector_id connector_ref call_kind : string) (w : Runner) : option DispatchIntent :=
  rn_intents w !! (connector_id, connector_ref, call_kind).

Definition same_call (connector_id connector_ref call_kind : string) (r : ConnectorResultRow) : bool :=
  String.eqb (row_connector_id r) connector_id && String.eqb (row_connector_ref r) connector_ref &&
  String.eqb (row_call_kind r) call_kind.

(** [max(attempts) + 1 if attempts else 1] *)
Definition next_attempt_no (connector_id connector_ref call_kind : string) (w : Runner) : Z :=
  match row_attempt_no <$> List.filter (same_call connector_id connector_ref call_kind) (rn_rows w) with
  | [] => 1
  | a :: l => foldl Z.max a l + 1
  end.

Definition last_for (connector_id connector_ref call_kind : string) (w : Runner) : option ConnectorResultRow :=
  List.find (same_call connector_id connector_ref call_kind) (rev (rn_rows w)).

Definition list_by_ref (connector_ref : string) (w : Runner) : list ConnectorResultRow :=
  List.filter (fun r => String.eqb (row_connector_ref r) connector_ref) (rn_rows w).

(** [InMemoryConnectorResultStore.record] *)
Definition record_result (result : ConnectorResult) (connector_id call_kind : string) (attempt_no : Z)
    (mode_at_call raw_response_pointer : string) (produced_at : datetime) (webhook_inbound_id : option string) :
    reff ConnectorResultRow :=
  refuse RValueError when (negb (str_in call_kind CALL_KINDS)) else
  do* w := eget in
  let key := (connector_id, cr_connector_ref result, call_kind, attempt_no) in
  match rn_unique w !! key with
  | Some existing => eret existing
  | None =>
      do* result_id := elift (r_res (make_id "cres"
        (dict [("connector_id", PStr connector_id); ("connector_ref", PStr (cr_connector_ref result));
               ("attempt_no", PInt attempt_no); ("raw_response_hash", PStr (cr_raw_response_hash result))]))) in
      let row := mk_ConnectorResultRow result_id (cr_instruction_id result) (cr_connector_ref result) connector_id attempt_no
        call_kind (status_value (cr_status result)) (cr_rail_transaction_id result) (cr_responded_at result)
        (cr_error_code result) (cr_raw_response_hash result) raw_response_pointer mode_at_call webhook_inbound_id produced_at in
      do* _ := modify (add_row key row) in
      eret row
  end.

(** * Shared steps *)

Definition register_adapter (connector_id : string) (mode : ConnectorMode) : reff unit :=
  refuse SimulatorOnlyViolationError when (simulator_only && negb (bool_decide (mode = SIMULATOR))) else
  modify (add_adapter (connector_id, mode_value mode)).

(** [strftime("%Y-%m-%dT%H:%M:%SZ")], for years of four digits. *)
Definition _now_iso (now : datetime) : string :=
  let secs := micros now mod micros_per_day / 1000000 in
  iso_date (ord2ymd (micros now / micros_per_day)) +:+ "T" +:+ zpad 2 (secs / 3600) +:+ ":" +:+
  zpad 2 (secs mod 3600 / 60) +:+ ":" +:+ zpad 2 (secs mod 60) +:+ "Z".

Definition _synthetic (connector_id instruction_id connector_ref : string) (status : ConnectorStatus) (error_code : string)
    (now : datetime) : reff ConnectorResult :=
  let raw := dict [("synthetic", PBool true); ("connector_id", PStr connector_id); ("connector_ref", PStr connector_ref);
                   ("status", PStr (status_value status)); ("error_code", PStr error_code)] in
  do* raw_hash := elift (r_res (sha256_canonical raw)) in
  do* text := elift (r_res (canonical_json raw)) in
  do* _ := modify (put_object (raw_object_key connector_id raw_hash) text) in
  eret (mk_ConnectorResult instruction_id connector_ref status None (Some (_now_iso now)) (Some error_code) raw_hash).

Definition synthetic (connector_id instruction_id connector_ref : string) (status : ConnectorStatus) (error_code : string) :
    coro ConnectorResult :=
  piece (fun e => _synthetic connector_id instruction_id connector_ref status error_code (re_now e)).

Definition _simulator_only_refusal (reg : ConnectorRegistration) : bool :=
  simulator_only && negb (bool_decide (rg_active_mode reg = SIMULATOR)).

Definition disabled (reg : ConnectorRegistration) : bool :=
  bool_decide (rg_active_mode reg = DISABLED) || negb (rg_enabled reg).

Definition _adapter (reg : ConnectorRegistration) : reff unit :=
  do* w := eget in
  refuse (RegistryError UnknownConnectorError)
    when (negb (bool_decide ((rg_connector_id reg, mode_value (rg_active_mode reg)) ∈ rn_adapters w))) else
  eret tt.

Definition _record (reg : ConnectorRegistration) (result : ConnectorResult) (call_kind : string) (now : datetime) :
    reff ConnectorResultRow :=
  do* w := eget in
  do* row := record_result result (rg_connector_id reg) call_kind
    (next_attempt_no (rg_connector_id reg) (cr_connector_ref result) call_kind w) (mode_value (rg_active_mode reg))
    (raw_object_key (rg_connector_id reg) (cr_raw_response_hash result)) now None in
  do* _ := modify (add_event (mk_SinkEvent "connector_result.recorded"
    (dict [("result_id", PStr (row_result_id row)); ("connector_id", PStr (row_connector_id row));
           ("connector_ref", PStr (row_connector_ref row)); ("call_kind", PStr (row_call_kind row));
           ("status", PStr (row_status row)); ("error_code", POpt (row_error_code row));
           ("mode_at_call", PStr (row_mode_at_call row))]))) in
  eret row.

Definition get_reg (connector_id : string) : coro ConnectorRegistration := sync (on_registry (get_registration connector_id)).

Definition breaker_admits (connector_id kind : string) : coro bool :=
  piece (fun e => on_breaker (admit_call configs (re_readable e) connector_id kind (re_now e))).

Definition observed (connector_id : string) (status : ConnectorStatus) (transport_error : bool) : coro unit :=
  piece (fun e => on_breaker (observe configs (re_readable e) connector_id (status_value status) transport_error (re_now e))).

(** What the runner makes of an awaited adapter call, and whether it was an error
    of the transport. *)
Definition as_result (reg : ConnectorRegistration) (instruction_id connector_ref : string) (o : outcome ConnectorResult) :
    coro (ConnectorResult * bool) :=
  match o with
  | Returned result => cret (result, false)
  | TimedOut =>
      await r := synthetic (rg_connector_id reg) instruction_id connector_ref TIMED_OUT "hard_timeout" in cret (r, false)
  | Raised | Cancelled =>
      await r := synthetic (rg_connector_id reg) instruction_id connector_ref FAILED TRANSPORT_ERROR_CODE in cret (r, true)
  end.

(** * Dispatch *)

Definition isTransport (result : ConnectorResult) : bool :=
  bool_decide (cr_status result = FAILED) && bool_decide (cr_error_code result = Some TRANSPORT_ERROR_CODE).

Definition notReceived (result : ConnectorResult) : bool :=
  bool_decide (cr_status result = FAILED) && bool_decide (cr_error_code result = Some NOT_RECEIVED_CODE).

(** [dispatch] past the replay check. *)
Definition dispatch_to_rail (reg : ConnectorRegistration) (i : PaymentInstruction) : coro ConnectorResult :=
  let cid := rg_connector_id reg in
  let ref := in_connector_ref i in
  if disabled reg then synthetic cid (in_instruction_id i) ref FAILED "connector_disabled"
  else if _simulator_only_refusal reg then synthetic cid (in_instruction_id i) ref FAILED SANDBOX_ISOLATION_CODE
  else
    await admitted := breaker_admits cid "SUBMIT" in
    if negb admitted then synthetic cid (in_instruction_id i) ref FAILED "circuit_open"
    else
      await _ := sync (_adapter reg) in
      await _ := piece (fun e => idem_begin cid ref "SUBMIT" (in_instruction_id i) (re_now e)) in
      await o := wait_for (mk_touch cid (rg_active_mode reg) (CSubmit i)) in
      await (result, transport_error) := as_result reg (in_instruction_id i) ref o in
      await _ := piece (fun e => _record reg result "SUBMIT" (re_now e)) in
      await _ := (if bool_decide (cr_status result ∈ _REPLAY_SAFE_STATUSES)
                  then sync (idem_put cid ref "SUBMIT" result) else cret result) in
      await _ := observed cid (cr_status result) transport_error in
      cret result.

Definition dispatch (i : PaymentInstruction) : coro ConnectorResult :=
  await reg := get_reg (in_rail i) in
  await w := sync eget in
  match idem_get (rg_connector_id reg) (in_connector_ref i) "SUBMIT" w with
  | Some recorded =>
      if bool_decide (cr_status recorded ∈ _REPLAY_SAFE_STATUSES) then cret recorded else dispatch_to_rail reg i
  | None => dispatch_to_rail reg i
  end.

(** The [while] loop of [submit], with the retries that are left. *)
Fixpoint retry_loop (retries : nat) (backoff_ms backoff_cap_ms : Z) (i : PaymentInstruction) (result : ConnectorResult) :
    coro ConnectorResult :=
  match retries with
  | O => cret result
  | S retries =>
      if isTransport result then
        await _ := sleep backoff_ms in
        await result := dispatch i in
        retry_loop retries (Z.min (backoff_ms * 2) backoff_cap_ms) backoff_cap_ms i result
      else cret result
  end.

Definition timed_out (last : option ConnectorResultRow) : bool :=
  match last with Some row => String.eqb (row_status row) (status_value TIMED_OUT) | None => false end.

Definition submit (i : PaymentInstruction) : coro ConnectorResult :=
  await reg := get_reg (in_rail i) in
  await w := sync eget in
  if timed_out (last_for (rg_connector_id reg) (in_connector_ref i) "SUBMIT" w) then sync (elift (Err RetryForbiddenError))
  else
    let budget := rg_retry_budget reg in
    await result := dispatch i in
    retry_loop (Z.to_nat (default 0 (submit_retries budget)))
      (default DEFAULT_BACKOFF_INITIAL_MS (backoff_initial_ms budget)) (default DEFAULT_BACKOFF_CAP_MS (backoff_cap_ms budget))
      i result.

(** * Queries and reversals *)

Definition _call (connector_id connector_ref call_kind breaker_kind : string) (invoke : adapter_call) : coro ConnectorResult :=
  await reg := get_reg connector_id in
  let cid := rg_connector_id reg in
  if disabled reg then synthetic cid "" connector_ref FAILED "connector_disabled"
  else if _simulator_only_refusal reg then synthetic cid "" connector_ref FAILED SANDBOX_ISOLATION_CODE
  else
    await admitted := breaker_admits cid breaker_kind in
    if negb admitted then synthetic cid "" connector_ref FAILED "circuit_open"
    else
      await _ := sync (_adapter reg) in
      await o := wait_for (mk_touch cid (rg_active_mode reg) invoke) in
      await (result, transport_error) := as_result reg "" connector_ref o in
      await _ := piece (fun e => _record reg result call_kind (re_now e)) in
      await _ := observed cid (cr_status result) transport_error in
      cret result.

Definition query_status (connector_id connector_ref : string) (rail_transaction_id : option string) : coro ConnectorResult :=
  _call connector_id connector_ref "QUERY_STATUS" "QUERY_STATUS" (CQuery connector_ref rail_transaction_id).

Definition reverse (connector_id connector_ref : string) (rail_transaction_id : option string) (reverse_amount : Z)
    (reason : string) : coro ConnectorResult :=
  _call connector_id connector_ref "REVERSE" "REVERSE" (CReverse connector_ref rail_transaction_id reverse_amount reason).

Definition definitive (result : ConnectorResult) : bool :=
  bool_decide (cr_status result ∈ _DEFINITIVE_STATUSES) && negb (bool_decide (cr_error_code result = Some TRANSPORT_ERROR_CODE)).

Fixpoint poll_loop (attempts : nat) (interval_ms : Z) (connector_id connector_ref : string) (rail_transaction_id : option string)
    (last : option ConnectorResult) : coro (option ConnectorResult) :=
  match attempts with
  | O => cret last
  | S attempts =>
      await _ := sleep interval_ms in
      await last := query_status connector_id connector_ref rail_transaction_id in
      if definitive last then cret (Some last)
      else poll_loop attempts interval_ms connector_id connector_ref rail_transaction_id (Some last)
  end.

Definition poll_status (connector_id connector_ref : string) (rail_transaction_id : option string) :
    coro (option ConnectorResult) :=
  await reg := get_reg connector_id in
  let budget := rg_retry_budget reg in
  poll_loop (Z.to_nat (default 3 (poll_attempts budget))) (default 10000 (poll_interval_ms budget))
    connector_id connector_ref rail_transaction_id None.

Definition resubmit_after_timeout (i : PaymentInstruction) : coro ConnectorResult :=
  await reg := get_reg (in_rail i) in
  await w := sync eget in
  if negb (timed_out (last_for (rg_connector_id reg) (in_connector_ref i) "SUBMIT" w))
  then sync (elift (Err RetryForbiddenError))
  else
    await polled := poll_status (rg_connector_id reg) (in_connector_ref i) None in
    match polled with
    | None => synthetic (rg_connector_id reg) (in_instruction_id i) (in_connector_ref i) TIMED_OUT "status_unresolved"
    | Some polled => if notReceived polled then dispatch i else cret polled
    end.

Fixpoint settle_loop (attempts : nat) (interval_ms : Z) (cid : string) (i : PaymentInstruction)
    (rail_transaction_id : option string) (reason : string) : coro ConnectorResult :=
  match attempts with
  | O => reverse cid (in_connector_ref i) rail_transaction_id (in_amount_minor i) reason
  | S attempts =>
      await _ := sleep interval_ms in
      await polled := query_status cid (in_connector_ref i) rail_transaction_id in
      if bool_decide (cr_status polled ∈ [SUCCESS; REJECTED; REVERSED]) || notReceived polled then cret polled
      else settle_loop attempts interval_ms cid i rail_transaction_id reason
  end.

Definition settle_after_timeout (i : PaymentInstruction) (reason : string) : coro ConnectorResult :=
  await reg := get_reg (in_rail i) in
  await w := sync eget in
  match last_for (rg_connector_id reg) (in_connector_ref i) "SUBMIT" w with
  | Some last =>
      if timed_out (Some last) then
        let budget := rg_retry_budget reg in
        settle_loop (Z.to_nat (Z.min (default 3 (poll_attempts budget)) MAX_TIMEOUT_SETTLE_POLLS))
          (default 10000 (poll_interval_ms budget)) (rg_connector_id reg) i (row_rail_transaction_id last) reason
      else sync (elift (Err RetryForbiddenError))
  | None => sync (elift (Err RetryForbiddenError))
  end.

(** * Health *)

Definition sample (connector_id : string) (healthy : bool) (latency_ms : option Z) (detail_code : option string) : coro unit :=
  piece (fun e => do* _ := on_registry (record_health connector_id healthy latency_ms detail_code false (re_now e)) in eret tt).

Definition health_check (connector_id : string) : coro bool :=
  await reg := get_reg connector_id in
  if disabled reg then await _ := sample connector_id false None (Some "connector_disabled"%string) in cret false
  else if _simulator_only_refusal reg then
    await _ := sample connector_id false None (Some SANDBOX_ISOLATION_CODE) in cret false
  else
    await admitted := breaker_admits (rg_connector_id reg) "HEALTH" in
    if negb admitted then await _ := sample connector_id false None (Some "circuit_open"%string) in cret false
    else
      await _ := sync (_adapter reg) in
      await started := piece (fun e => eret (re_now e)) in
      await o := wait_probe (mk_touch (rg_connector_id reg) (rg_active_mode reg) CHealth) in
      let '(healthy, detail_code, transport_error) :=
        match o with
        | Returned true => (true, None, false)
        | Returned false => (false, Some "unhealthy_response"%string, false)
        | TimedOut => (false, Some "health_timeout"%string, false)
        | Raised | Cancelled => (false, Some TRANSPORT_ERROR_CODE, true)
        end in
      await ended := piece (fun e => eret (re_now e)) in
      await _ := sample connector_id healthy (Some (elapsed_ms started ended)) detail_code in
      await _ := observed (rg_connector_id reg) (if healthy then SUCCESS else FAILED) transport_error in
      cret healthy.
End Runner.
