(* ===== verification/RunnerFacts.v ===== *)
(** What the connector runner guarantees however its coroutines are interleaved:
    no adapter is called that the registry, the sandbox isolation or the write-ahead
    rule forbids, a recorded outcome is final, results are numbered without gaps,
    every call ends, and a timed-out payment is asked about before it is sent again. *)
From S2P Require Import Prelude Rows Exceptions DateTime Sha256 Canonical Breaker Registry RegistryFacts Sdk Runner.
Open Scope Z_scope.

(** * The machine *)

Inductive run_op : Type :=
| RSubmit (i : PaymentInstruction)
| RDispatch (i : PaymentInstruction)
| RResubmit (i : PaymentInstruction)
| RSettle (i : PaymentInstruction) (reason : string)
| RQuery (connector_id connector_ref : string) (rail_transaction_id : option string)
| RReverse (connector_id connector_ref : string) (rail_transaction_id : option string) (amount : Z) (reason : string)
| RPoll (connector_id connector_ref : string) (rail_transaction_id : option string)
| RHealth (connector_id : string).

Inductive reply : Type := Replied (r : ConnectorResult) | PolledTo (r : option ConnectorResult) | HealthIs (b : bool).

Inductive answer : Type :=
| AnsCall (o : outcome ConnectorResult)
| AnsProbe (o : outcome bool)
| AnsSleep (o : outcome unit).

(** The answer given to a waiting job; a job does not take an answer of another kind. *)
Definition answer_job {A} (j : job A) (a : answer) (e : REnv) (w : Runner) : job A * Runner :=
  match j, a with
  | Calling _ k, AnsCall o => k o e w
  | Probing _ k, AnsProbe o => k o e w
  | Sleeping _ k, AnsSleep o => k o e w
  | _, _ => (j, w)
  end.

(** The runner and its coroutines, moved by new calls, by answers in any order, by
    operators of the registry and the breaker, and by the registration of adapters. *)
Inductive run_act : Type :=
| AStart (e : REnv) (op : run_op)
| AAnswer (e : REnv) (n : nat) (a : answer)
| ARegistry (op : reg_op)
| AReset (readable : bool) (connector_id actor : string) (now : datetime)
| AAdapter (connector_id : string) (mode : ConnectorMode).

Record RMachine : Type := mk_RMachine { rm_world : Runner; rm_jobs : list (job reply) }.

Definition empty_runner : Runner := mk_Runner empty_registry (mk_Breaker ∅ [] []) [] ∅ ∅ ∅ ∅ [] ∅ [].

Section Facts.
Context `{HashFn} (configs : gmap string BreakerConfig) (simulator_only : bool).
Implicit Types (w : Runner) (e : REnv) (t : touch_row) (i : PaymentInstruction).

Definition start_op (op : run_op) : coro reply :=
  match op with
  | RSubmit i => await r := submit configs simulator_only i in cret (Replied r)
  | RDispatch i => await r := dispatch configs simulator_only i in cret (Replied r)
  | RResubmit i => await r := resubmit_after_timeout configs simulator_only i in cret (Replied r)
  | RSettle i reason => await r := settle_after_timeout configs simulator_only i reason in cret (Replied r)
  | RQuery c ref tx => await r := query_status configs simulator_only c ref tx in cret (Replied r)
  | RReverse c ref tx a reason => await r := reverse configs simulator_only c ref tx a reason in cret (Replied r)
  | RPoll c ref tx => await r := poll_status configs simulator_only c ref tx in cret (PolledTo r)
  | RHealth c => await b := health_check configs simulator_only c in cret (HealthIs b)
  end.

Definition run_step (m : RMachine) (a : run_act) : RMachine :=
  let w := rm_world m in
  match a with
  | AStart e op => let (j, w') := start_op op e w in mk_RMachine w' (rm_jobs m ++ [j])
  | AAnswer e n a =>
      match rm_jobs m !! n with
      | None => m
      | Some j => let (j', w') := answer_job j a e w in mk_RMachine w' (<[n := j']> (rm_jobs m))
      end
  | ARegistry op => mk_RMachine (set_rn_registry (reg_perform op (rn_registry w)) w) (rm_jobs m)
  | AReset rd c actor now => mk_RMachine (on_breaker (reset_breaker configs rd c actor now) w).2 (rm_jobs m)
  | AAdapter c mode => mk_RMachine (register_adapter simulator_only c mode w).2 (rm_jobs m)
  end.

Definition run_acts (m : RMachine) (acts : list run_act) : RMachine := foldl run_step m acts.
Definition run_history (acts : list run_act) : RMachine := run_acts (mk_RMachine empty_runner []) acts.

(** * What a piece may do *)

Definition submit_key (t : touch_row) : option (string * string * string) :=
  match t_call t with CSubmit i => Some (t_connector t, in_connector_ref i, "SUBMIT"%string) | _ => None end.

(** A touch of the rail that was allowed, between the states [w] and [w']. *)
Record justified w w' t : Prop := {
  j_mode : t_mode t <> DISABLED;
  j_isolated : simulator_only = true -> t_mode t = SIMULATOR;
  j_adapter : (t_connector t, mode_value (t_mode t)) ∈ rn_adapters w';
  j_fresh : forall k, submit_key t = Some k -> rn_recorded w !! k = None;
  j_intent : forall k, submit_key t = Some k -> is_Some (rn_intents w' !! k)
}.

Record extends w w' : Prop := {
  x_recorded : rn_recorded w ⊆ rn_recorded w';
  x_intents : rn_intents w ⊆ rn_intents w';
  x_adapters : rn_adapters w ⊆ rn_adapters w';
  x_rows : rn_rows w `prefix_of` rn_rows w';
  x_touches : exists l, rn_touches w' = rn_touches w ++ l /\ Forall (justified w w') l
}.

(** The results of one call, in order, carry the numbers 1, 2, 3, ... *)
Definition attempts_of w c ref kind : list Z := row_attempt_no <$> List.filter (same_call c ref kind) (rn_rows w).

Record rn_ok w : Prop := {
  ok_recorded : forall k r, rn_recorded w !! k = Some r -> cr_status r ∈ _REPLAY_SAFE_STATUSES;
  ok_rows : forall c ref kind, attempts_of w c ref kind = Z.of_nat <$> seq 1 (length (attempts_of w c ref kind));
  ok_unique : forall c ref kind n row, rn_unique w !! (c, ref, kind, n) = Some row -> n ∈ attempts_of w c ref kind
}.

Definition goes w w' : Prop := rn_ok w' /\ extends w w'.

Lemma extends_refl w : extends w w.
Proof. split; try done. exists []. by rewrite app_nil_r. Qed.

Lemma justified_later w w1 w2 t : extends w1 w2 -> justified w w1 t -> justified w w2 t.
Proof.
  intros [] []. split; [done..|by eapply elem_of_subseteq|done|].
  intros k [x Hx]%j_intent0. exists x. by eapply lookup_weaken.
Qed.

Lemma justified_earlier w w1 w2 t : extends w w1 -> justified w1 w2 t -> justified w w2 t.
Proof. intros [] []. split; try done. intros k Hk%j_fresh0. by eapply lookup_weaken_None. Qed.

Lemma extends_trans w w1 w2 : extends w w1 -> extends w1 w2 -> extends w w2.
Proof.
  intros E1 E2. destruct (E1) as [A1 B1 C1 D1 (l1 & L1 & J1)], (E2) as [A2 B2 C2 D2 (l2 & L2 & J2)].
  split; [by etrans..|]. exists (l1 ++ l2). rewrite L2, L1, (assoc (++)). split; [done|]. apply Forall_app. split.
  - eapply Forall_impl; [exact J1|]. intros t. by apply justified_later.
  - eapply Forall_impl; [exact J2|]. intros t. by apply justified_earlier.
Qed.

Lemma goes_trans w w1 w2 : goes w w1 -> goes w1 w2 -> goes w w2.
Proof. intros [_ E1] [H2 E2]. split; [done|by eapply extends_trans]. Qed.

Section Ind.
Context {A : Type} (P : job A -> Prop).
Hypothesis finished : forall r, P (Finished r).
Hypothesis calling : forall t k, (forall o e w, P (k o e w).1) -> P (Calling t k).
Hypothesis probing : forall t k, (forall o e w, P (k o e w).1) -> P (Probing t k).
Hypothesis sleeping : forall ms k, (forall o e w, P (k o e w).1) -> P (Sleeping ms k).

(** Induction on jobs, through the answers. *)
Fixpoint job_ind' (j : job A) : P j :=
  match j with
  | Finished r => finished r
  | Calling t k => calling t k (fun o e w => match k o e w as p return P p.1 with (j', _) => job_ind' j' end)
  | Probing t k => probing t k (fun o e w => match k o e w as p return P p.1 with (j', _) => job_ind' j' end)
  | Sleeping ms k => sleeping ms k (fun o e w => match k o e w as p return P p.1 with (j', _) => job_ind' j' end)
  end.
End Ind.

(** * A logic for coroutines

    [jpost j Q w]: resumed in any well-formed state, with any answer, every piece of [j] is a
    [goes]-move, and where [j] returns [a] the state satisfies [Q a]. *)
Fixpoint jpost {A} (j : job A) (Q : A -> Runner -> Prop) w {struct j} : Prop :=
  match j with
  | Finished (Ok a) => Q a w
  | Finished (Err _) => True
  | Calling _ k => forall o e w', rn_ok w' -> let (j', w'') := k o e w' in goes w' w'' /\ jpost j' Q w''
  | Probing _ k => forall o e w', rn_ok w' -> let (j', w'') := k o e w' in goes w' w'' /\ jpost j' Q w''
  | Sleeping _ k => forall o e w', rn_ok w' -> let (j', w'') := k o e w' in goes w' w'' /\ jpost j' Q w''
  end.

Definition triple {A} (P : Runner -> Prop) (c : coro A) (Q : A -> Runner -> Prop) : Prop := forall e w,
  rn_ok w -> P w -> goes w (c e w).2 /\ jpost (c e w).1 Q (c e w).2.

Lemma jpost_bind {A B} (j : job A) (f : A -> coro B) Q S :
  (forall a, triple (Q a) (f a) S) -> forall e w, rn_ok w -> jpost j Q w ->
  goes w (jbind j f e w).2 /\ jpost (jbind j f e w).1 S (jbind j f e w).2.
Proof.
  intros Hf. induction j as [[a|x]|t k IH|t k IH|ms k IH] using job_ind'; intros e w Hw Hj; cbn [jbind fst snd];
    [by apply Hf|by split; [split; [|apply extends_refl]|]|..]; (split; [split; [done|apply extends_refl]|]); cbn [jpost] in *;
    intros o e' w' Hw'; specialize (Hj o e' w' Hw'); specialize (IH o e' w'); destruct (k o e' w') as [j' w''];
    cbn [fst] in IH; destruct Hj as [H1 H2]; destruct (IH e' w'' (proj1 H1) H2) as [H3 H4];
    destruct (jbind j' f e' w'') as [j'' w3]; (split; [by apply (goes_trans w' w'')|exact H4]).
Qed.

Lemma triple_bind {A B} P Q S (c : coro A) (f : A -> coro B) :
  triple P c Q -> (forall a, triple (Q a) (f a) S) -> triple P (cbind c f) S.
Proof.
  intros Hc Hf e w Hw HP. destruct (Hc e w Hw HP) as [H1 H2]. unfold cbind. destruct (c e w) as [j w'].
  destruct (jpost_bind j f Q S Hf e w' (proj1 H1) H2) as [H3 H4]. split; [by apply (goes_trans w w')|done].
Qed.

Lemma triple_ret {A} P (a : A) (Q : A -> Runner -> Prop) : (forall w, rn_ok w -> P w -> Q a w) -> triple P (cret a) Q.
Proof. intros HQ e w Hw HP. split; [split; [done|apply extends_refl]|by apply HQ]. Qed.

Lemma triple_pre {A} (P P' : Runner -> Prop) (c : coro A) (Q : A -> Runner -> Prop) :
  (forall w, rn_ok w -> P' w -> P w) -> triple P c Q -> triple P' c Q.
Proof. intros HP Hc e w Hw Hp. apply Hc; auto. Qed.

Lemma triple_piece {A} (P : Runner -> Prop) (c : REnv -> reff A) (Q : A -> Runner -> Prop) :
  (forall e w, rn_ok w -> P w -> goes w (c e w).2 /\ forall a, (c e w).1 = Ok a -> Q a (c e w).2) -> triple P (piece c) Q.
Proof.
  intros Hc e w Hw HP. specialize (Hc e w Hw HP). unfold piece. destruct (c e w) as [[a|x] w']; cbn; [|by destruct Hc].
  destruct Hc as [? Hq]. split; [done|]. by apply Hq.
Qed.

(** * The steps *)

(** The parts of the state that guards read. *)
Definition core w := (rn_recorded w, rn_intents w, rn_adapters w).

(** A change of the other parts: registry, breaker, archive, events. *)
Definition quiet w w' : Prop :=
  core w' = core w /\ rn_rows w' = rn_rows w /\ rn_unique w' = rn_unique w /\ rn_touches w' = rn_touches w.

Lemma quiet_goes w w' : rn_ok w -> quiet w w' -> goes w w'.
Proof.
  intros [Hr Hn Hu] (Hc & Hrows & Huniq & Ht). unfold core in Hc. injection Hc as H1 H2 H3. split.
  - split; unfold attempts_of; rewrite ?H1, ?Hrows, ?Huniq; done.
  - split; rewrite ?H1, ?H2, ?H3, ?Hrows; [done..|]. exists []. by rewrite Ht, app_nil_r.
Qed.

Lemma triple_quiet {A} P (c : REnv -> reff A) :
  (forall e w, quiet w (c e w).2) -> triple (fun w => P (core w)) (piece c) (fun _ w => P (core w)).
Proof.
  intros Hc. apply triple_piece. intros e w Hw HP. split; [by apply quiet_goes|]. intros a _.
  destruct (Hc e w) as (-> & _). done.
Qed.

Lemma on_registry_quiet {A} (c : geff A) w : quiet w (on_registry c w).2.
Proof. unfold on_registry. by destruct (c (rn_registry w)). Qed.
Lemma on_breaker_quiet {A} (c : beff A) w : quiet w (on_breaker c w).2.
Proof. unfold on_breaker. by destruct (c (rn_breaker w)). Qed.
Lemma _synthetic_quiet c ins ref st code now w : quiet w (_synthetic c ins ref st code now w).2.
Proof.
  unfold _synthetic, ebind, elift. destruct (r_res (sha256_canonical _)); [|done]. by destruct (r_res (canonical_json _)).
Qed.

Lemma get_reg_triple P c : triple (fun w => P (core w)) (get_reg c) (fun _ w => P (core w)).
Proof. apply triple_quiet. intros. apply on_registry_quiet. Qed.
Lemma admit_triple P c kind : triple (fun w => P (core w)) (breaker_admits configs c kind) (fun _ w => P (core w)).
Proof. apply triple_quiet. intros. apply on_breaker_quiet. Qed.
Lemma observed_triple P c st te : triple (fun w => P (core w)) (observed configs c st te) (fun _ w => P (core w)).
Proof. apply triple_quiet. intros. apply on_breaker_quiet. Qed.
Lemma synthetic_triple P c ins ref st code :
  triple (fun w => P (core w)) (synthetic c ins ref st code) (fun _ w => P (core w)).
Proof. apply triple_quiet. intros. apply _synthetic_quiet. Qed.

(** ** Results *)

Lemma foldl_max_seq k : forall m, foldl Z.max (Z.of_nat m) (Z.of_nat <$> seq (S m) k) = Z.of_nat (m + k).
Proof.
  induction k as [|k IH]; intros m; cbn [seq fmap list_fmap foldl]; [by rewrite Nat.add_0_r|].
  rewrite Z.max_r by lia. rewrite IH. f_equal. lia.
Qed.

Lemma next_attempt_no_ok w c ref kind :
  rn_ok w -> next_attempt_no c ref kind w = Z.of_nat (length (attempts_of w c ref kind)) + 1.
Proof.
  intros Hw. unfold next_attempt_no. fold (attempts_of w c ref kind). rewrite (ok_rows w Hw c ref kind).
  set (n := length (attempts_of w c ref kind)). rewrite length_fmap, length_seq. destruct n as [|n]; [done|].
  cbn [seq fmap list_fmap]. rewrite foldl_max_seq. lia.
Qed.

Lemma next_attempt_no_free w c ref kind : rn_ok w -> rn_unique w !! (c, ref, kind, next_attempt_no c ref kind w) = None.
Proof.
  intros Hw. destruct (rn_unique w !! _) as [row|] eqn:Hu; [|done]. apply (ok_unique w Hw) in Hu.
  rewrite (next_attempt_no_ok w c ref kind Hw), (ok_rows w Hw c ref kind) in Hu.
  apply list_elem_of_fmap in Hu as (x & Hx & Hin%elem_of_seq). rewrite length_fmap, length_seq in Hx. lia.
Qed.

Lemma attempts_of_add_row w k row c ref kind :
  attempts_of (add_row k row w) c ref kind =
  attempts_of w c ref kind ++ (if same_call c ref kind row then [row_attempt_no row] else []).
Proof. unfold attempts_of. cbn. rewrite List.filter_app, fmap_app. cbn. by destruct (same_call c ref kind row). Qed.

Lemma add_row_ok w row :
  rn_ok w -> row_attempt_no row = next_attempt_no (row_connector_id row) (row_connector_ref row) (row_call_kind row) w ->
  rn_ok (add_row (row_connector_id row, row_connector_ref row, row_call_kind row, row_attempt_no row) row w).
Proof.
  intros Hw Hn. split; [apply (ok_recorded w Hw)|..].
  - intros c ref kind. rewrite attempts_of_add_row. destruct (same_call c ref kind row) eqn:Hs; [|rewrite app_nil_r; apply (ok_rows w Hw)].
    unfold same_call in Hs. bool_prop. subst. rewrite length_app, Nat.add_1_r, seq_S, fmap_app. f_equal; [apply (ok_rows w Hw)|].
    cbn. f_equal. rewrite Hn, (next_attempt_no_ok w _ _ _ Hw). lia.
  - intros c ref kind n r. rewrite attempts_of_add_row. cbn [add_row rn_unique]. rewrite lookup_insert_Some, elem_of_app.
    intros [[[= <- <- <- <-] _]|[_ Hu]]; [right|left; by eapply (ok_unique w Hw)].
    unfold same_call. rewrite !String.eqb_refl. cbn. by left.
Qed.

Lemma _record_triple P reg result kind :
  triple (fun w => P (core w)) (piece (fun e => _record reg result kind (re_now e))) (fun _ w => P (core w)).
Proof.
  apply triple_piece. intros e w Hw HP. unfold _record, record_result. unfold ebind at 1. cbn [eget].
  destruct (str_in kind CALL_KINDS); cbn [negb]; [|split; [split; [done|apply extends_refl]|done]].
  unfold ebind, elift, eget. rewrite next_attempt_no_free by done. destruct (r_res (make_id _ _)) as [rid|x]; cbn [modify eret fst snd];
    [|split; [split; [done|apply extends_refl]|done]].
  split; [|done]. split.
  - destruct (add_row_ok w (mk_ConnectorResultRow rid (cr_instruction_id result) (cr_connector_ref result) (rg_connector_id reg)
      (next_attempt_no (rg_connector_id reg) (cr_connector_ref result) kind w) kind (status_value (cr_status result))
      (cr_rail_transaction_id result) (cr_responded_at result) (cr_error_code result) (cr_raw_response_hash result)
      (raw_object_key (rg_connector_id reg) (cr_raw_response_hash result)) (mode_value (rg_active_mode reg)) None (re_now e)) Hw eq_refl).
    by split.
  - split; cbn; [done..|by eexists|]. exists []. by rewrite app_nil_r.
Qed.

(** ** Idempotency *)

Lemma idem_put_triple P c ref kind result :
  cr_status result ∈ _REPLAY_SAFE_STATUSES ->
  triple P (sync (idem_put c ref kind result)) (fun _ _ => True).
Proof.
  intros Hs. apply triple_piece. intros e w Hw _. split; [|done]. unfold idem_put, ebind. cbn.
  destruct (rn_recorded w !! _) eqn:Hr; cbn; [split; [done|apply extends_refl]|]. split.
  - split; [|apply (ok_rows w Hw)|apply (ok_unique w Hw)]. intros k r. cbn. rewrite lookup_insert_Some.
    intros [[_ <-]|[_ Hk]]; [done|by eapply (ok_recorded w Hw)].
  - split; cbn; [by apply insert_subseteq|done..|]. exists []. by rewrite app_nil_r.
Qed.

(** What holds when an instruction is about to be sent. *)
Definition ready (cid ref : string) (mode : ConnectorMode) w : Prop :=
  (rn_recorded w !! (cid, ref, "SUBMIT"%string) = None /\ (cid, mode_value mode) ∈ rn_adapters w) /\
  is_Some (rn_intents w !! (cid, ref, "SUBMIT"%string)).

Lemma idem_begin_triple cid ref mode ins :
  triple (fun w => rn_recorded w !! (cid, ref, "SUBMIT"%string) = None /\ (cid, mode_value mode) ∈ rn_adapters w)
    (piece (fun e => idem_begin cid ref "SUBMIT" ins (re_now e))) (fun _ w => ready cid ref mode w).
Proof.
  apply triple_piece. intros e w Hw HP. unfold idem_begin, ebind. cbn.
  destruct (rn_intents w !! _) eqn:Hr; cbn.
  { split; [split; [done|apply extends_refl]|]. intros a _. split; [done|by eexists]. }
  split; [split|].
  - split; [apply (ok_recorded w Hw)|apply (ok_rows w Hw)|apply (ok_unique w Hw)].
  - split; cbn; [done|by apply insert_subseteq|done..|]. exists []. by rewrite app_nil_r.
  - intros a _. split; [exact HP|]. cbn. rewrite lookup_insert_eq. by eexists.
Qed.

Lemma _adapter_triple P reg :
  triple (fun w => P (core w)) (sync (_adapter reg))
    (fun _ w => P (core w) /\ (rg_connector_id reg, mode_value (rg_active_mode reg)) ∈ rn_adapters w).
Proof.
  apply triple_piece. intros e w Hw HP. unfold _adapter, ebind. cbn.
  destruct (bool_decide _) eqn:Hb; cbn; (split; [split; [done|apply extends_refl]|]); [|done].
  intros _ _. by apply bool_decide_eq_true in Hb.
Qed.

(** ** Awaiting *)

Lemma add_touch_goes w t : rn_ok w -> justified w w t -> goes w (add_touch t w).
Proof.
  intros Hw Ht. split; [split; [apply (ok_recorded w Hw)|apply (ok_rows w Hw)|apply (ok_unique w Hw)]|].
  split; cbn; [done..|]. exists [t]. split; [done|]. apply list.Forall_singleton. destruct Ht. by split.
Qed.

Lemma wait_for_triple t : triple (fun w => justified w w t) (wait_for t) (fun _ _ => True).
Proof.
  intros e w Hw Ht. cbn. split; [by apply add_touch_goes|]. intros o e' w' Hw'.
  split; [split; [done|apply extends_refl]|by destruct o].
Qed.

Lemma wait_probe_triple t : triple (fun w => justified w w t) (wait_probe t) (fun _ _ => True).
Proof.
  intros e w Hw Ht. cbn. split; [by apply add_touch_goes|]. intros o e' w' Hw'.
  split; [split; [done|apply extends_refl]|by destruct o].
Qed.

Lemma sleep_triple P ms : triple P (sleep ms) (fun _ _ => True).
Proof.
  intros e w Hw _. cbn. split; [split; [done|apply extends_refl]|]. intros o e' w' Hw'.
  split; [split; [done|apply extends_refl]|by destruct o].
Qed.

(** * The operations *)

Definition safe {A} (c : coro A) : Prop := triple (fun _ => True) c (fun _ _ => True).

Lemma safe_ret {A} (a : A) : safe (cret a).
Proof. by apply triple_ret. Qed.

Lemma safe_bind {A B} (c : coro A) (f : A -> coro B) : safe c -> (forall a, safe (f a)) -> safe (cbind c f).
Proof. intros Hc Hf. by eapply triple_bind. Qed.

Lemma safe_any {A} P (c : coro A) : safe c -> triple P c (fun _ _ => True).
Proof. by apply triple_pre. Qed.

Lemma as_result_safe reg ins ref o : safe (as_result reg ins ref o).
Proof.
  destruct o; cbn [as_result]; [apply safe_ret|..]; (apply safe_bind; [apply (synthetic_triple (fun _ => True))|intros; apply safe_ret]).
Qed.

Lemma sync_eget_triple P : triple P (sync eget) (fun a w => a = w /\ P w).
Proof. apply triple_piece. intros e w Hw HP. split; [split; [done|apply extends_refl]|]. by intros a [= <-]. Qed.

Lemma sync_err_safe {A} x : safe (sync (elift (Err x) : reff A)).
Proof. apply triple_piece. intros e w Hw _. by split; [split; [|apply extends_refl]|]. Qed.

Lemma dispatch_to_rail_triple reg i :
  triple (fun w => rn_recorded w !! (rg_connector_id reg, in_connector_ref i, "SUBMIT"%string) = None)
    (dispatch_to_rail configs simulator_only reg i) (fun _ _ => True).
Proof.
  set (P := fun c : gmap (string * string * string) ConnectorResult * gmap (string * string * string) DispatchIntent *
    gset (string * string) => c.1.1 !! (rg_connector_id reg, in_connector_ref i, "SUBMIT"%string) = None).
  change (triple (fun w => P (core w)) (dispatch_to_rail configs simulator_only reg i) (fun _ _ => True)).
  unfold dispatch_to_rail. destruct (disabled reg) eqn:Hd.
  { apply safe_any, (synthetic_triple (fun _ => True)). }
  destruct (_simulator_only_refusal simulator_only reg) eqn:Hs.
  { apply safe_any, (synthetic_triple (fun _ => True)). }
  eapply triple_bind; [apply admit_triple|]. intros [|]; cbn [negb]; [|apply safe_any, (synthetic_triple (fun _ => True))].
  eapply triple_bind; [apply _adapter_triple|]. intros ?. cbn beta. eapply triple_bind; [apply idem_begin_triple|]. intros ?. cbn beta.
  eapply triple_bind; [eapply triple_pre; [|apply wait_for_triple]|].
  { intros w _ [[Hr Ha] Hi]. unfold disabled, _simulator_only_refusal in *. split; cbn; [..|by intros k [= <-]|by intros k [= <-]].
    - by destruct (rg_active_mode reg).
    - intros ->. by destruct (rg_active_mode reg).
    - done. }
  intros o. eapply triple_bind; [apply as_result_safe|]. intros [result te].
  eapply triple_bind; [apply (_record_triple (fun _ => True))|]. intros ?. cbn beta. eapply triple_bind with (Q := fun _ _ => True).
  { destruct (bool_decide _) eqn:Hb; [|apply safe_ret]. apply bool_decide_eq_true in Hb. by apply idem_put_triple. }
  intros _. apply safe_bind; [apply (observed_triple (fun _ => True))|]. intros _. apply safe_ret.
Qed.

Lemma dispatch_safe i : safe (dispatch configs simulator_only i).
Proof.
  apply safe_bind; [apply (get_reg_triple (fun _ => True))|]. intros reg. eapply triple_bind; [apply sync_eget_triple|].
  intros a. unfold idem_get. destruct (rn_recorded a !! _) as [r|] eqn:Hr.
  - destruct (bool_decide _) eqn:Hb; [apply safe_any, safe_ret|]. eapply triple_pre; [|apply dispatch_to_rail_triple].
    intros w Hw [-> _]. apply (ok_recorded w Hw) in Hr. by apply bool_decide_eq_false in Hb.
  - eapply triple_pre; [|apply dispatch_to_rail_triple]. by intros w Hw [-> _].
Qed.

Lemma retry_loop_safe n : forall b cap i r, safe (retry_loop configs simulator_only n b cap i r).
Proof.
  induction n as [|n IH]; intros b cap i r; cbn [retry_loop]; [apply safe_ret|]. destruct (isTransport r); [|apply safe_ret].
  apply safe_bind; [apply sleep_triple|]. intros _. apply safe_bind; [apply dispatch_safe|]. intros r'. apply IH.
Qed.

Lemma submit_safe i : safe (submit configs simulator_only i).
Proof.
  apply safe_bind; [apply (get_reg_triple (fun _ => True))|]. intros reg. eapply triple_bind; [apply sync_eget_triple|].
  intros a. apply safe_any. destruct (timed_out _); [apply sync_err_safe|]. cbv zeta.
  apply safe_bind; [apply dispatch_safe|]. intros r. apply retry_loop_safe.
Qed.

Lemma _call_safe c ref kind bk call :
  (forall i, call <> CSubmit i) -> safe (_call configs simulator_only c ref kind bk call).
Proof.
  intros Hcall. apply safe_bind; [apply (get_reg_triple (fun _ => True))|]. intros reg. cbv zeta.
  destruct (disabled reg) eqn:Hd; [apply (synthetic_triple (fun _ => True))|].
  destruct (_simulator_only_refusal simulator_only reg) eqn:Hs; [apply (synthetic_triple (fun _ => True))|].
  apply safe_bind; [apply (admit_triple (fun _ => True))|]. intros [|]; cbn [negb]; [|apply (synthetic_triple (fun _ => True))].
  eapply triple_bind; [apply (_adapter_triple (fun _ => True))|]. intros ?. cbn beta.
  eapply triple_bind; [eapply triple_pre; [|apply wait_for_triple]|].
  { intros w _ [_ Ha]. unfold disabled, _simulator_only_refusal in *. split; cbn.
    - by destruct (rg_active_mode reg).
    - intros ->. by destruct (rg_active_mode reg).
    - done.
    - intros k. unfold submit_key. cbn. by destruct call; try done; destruct (Hcall i).
    - intros k. unfold submit_key. cbn. by destruct call; try done; destruct (Hcall i). }
  intros o. eapply triple_bind; [apply as_result_safe|]. intros [result te].
  eapply triple_bind; [apply (_record_triple (fun _ => True))|]. intros ?. cbn beta.
  apply safe_bind; [apply (observed_triple (fun _ => True))|]. intros _. apply safe_ret.
Qed.

Lemma query_status_safe c ref tx : safe (query_status configs simulator_only c ref tx).
Proof. by apply _call_safe. Qed.
Lemma reverse_safe c ref tx a reason : safe (reverse configs simulator_only c ref tx a reason).
Proof. by apply _call_safe. Qed.

Lemma poll_loop_safe n : forall ms c ref tx last, safe (poll_loop configs simulator_only n ms c ref tx last).
Proof.
  induction n as [|n IH]; intros ms c ref tx last; cbn [poll_loop]; [apply safe_ret|].
  apply safe_bind; [apply sleep_triple|]. intros _. apply safe_bind; [apply query_status_safe|]. intros r.
  destruct (definitive r); [apply safe_ret|apply IH].
Qed.

Lemma poll_status_safe c ref tx : safe (poll_status configs simulator_only c ref tx).
Proof. apply safe_bind; [apply (get_reg_triple (fun _ => True))|]. intros reg. apply poll_loop_safe. Qed.

Lemma resubmit_safe i : safe (resubmit_after_timeout configs simulator_only i).
Proof.
  apply safe_bind; [apply (get_reg_triple (fun _ => True))|]. intros reg. eapply triple_bind; [apply sync_eget_triple|].
  intros a. apply safe_any. destruct (negb _); [apply sync_err_safe|]. apply safe_bind; [apply poll_status_safe|].
  intros [r|]; [|apply (synthetic_triple (fun _ => True))]. destruct (notReceived r); [apply dispatch_safe|apply safe_ret].
Qed.

Lemma settle_loop_safe n : forall ms c i tx reason, safe (settle_loop configs simulator_only n ms c i tx reason).
Proof.
  induction n as [|n IH]; intros ms c i tx reason; cbn [settle_loop]; [apply reverse_safe|].
  apply safe_bind; [apply sleep_triple|]. intros _. apply safe_bind; [apply query_status_safe|]. intros r.
  destruct (_ || _); [apply safe_ret|apply IH].
Qed.

Lemma settle_safe i reason : safe (settle_after_timeout configs simulator_only i reason).
Proof.
  apply safe_bind; [apply (get_reg_triple (fun _ => True))|]. intros reg. eapply triple_bind; [apply sync_eget_triple|].
  intros a. apply safe_any. destruct (last_for _ _ _ _); [|apply sync_err_safe].
  destruct (timed_out _); [apply settle_loop_safe|apply sync_err_safe].
Qed.

Lemma sample_safe c h l d : safe (sample c h l d).
Proof.
  apply (triple_quiet (fun _ => True)). intros e w. unfold ebind.
  pose proof (on_registry_quiet (record_health c h l d false (re_now e)) w) as Hq.
  by destruct (on_registry _ w) as [[?|?] w'].
Qed.

Lemma health_check_safe c : safe (health_check configs simulator_only c).
Proof.
  apply safe_bind; [apply (get_reg_triple (fun _ => True))|]. intros reg.
  destruct (disabled reg) eqn:Hd; [apply safe_bind; [apply sample_safe|intros; apply safe_ret]|].
  destruct (_simulator_only_refusal simulator_only reg) eqn:Hs; [apply safe_bind; [apply sample_safe|intros; apply safe_ret]|].
  apply safe_bind; [apply (admit_triple (fun _ => True))|]. intros [|]; cbn [negb]; [|apply safe_bind; [apply sample_safe|intros; apply safe_ret]].
  eapply triple_bind; [apply (_adapter_triple (fun _ => True))|]. intros ?. cbn beta.
  eapply triple_bind with (Q := fun _ w => True /\ (rg_connector_id reg, mode_value (rg_active_mode reg)) ∈ rn_adapters w).
  { apply (triple_quiet (fun c => True /\ (rg_connector_id reg, mode_value (rg_active_mode reg)) ∈ c.2)). done. }
  intros started. eapply triple_bind; [eapply triple_pre; [|apply wait_probe_triple]|].
  { intros w _ [_ Ha]. unfold disabled, _simulator_only_refusal in *. split; cbn; [..|done|done].
    - by destruct (rg_active_mode reg).
    - intros ->. by destruct (rg_active_mode reg).
    - done. }
  intros o. destruct (match o with Returned _ => _ | _ => _ end) as [[healthy detail] te].
  apply safe_bind; [apply (triple_quiet (fun _ => True)); done|]. intros ended.
  apply safe_bind; [apply sample_safe|]. intros _. apply safe_bind; [apply (observed_triple (fun _ => True))|]. intros _. apply safe_ret.
Qed.

Lemma start_op_safe op : safe (start_op op).
Proof.
  destruct op; (apply safe_bind; [|intros; apply safe_ret]).
  - apply submit_safe.
  - apply dispatch_safe.
  - apply resubmit_safe.
  - apply settle_safe.
  - apply query_status_safe.
  - apply reverse_safe.
  - apply poll_status_safe.
  - apply health_check_safe.
Qed.

(** * Histories *)

Definition jobs_ok (l : list (job reply)) : Prop := Forall (fun j => forall w, jpost j (fun _ _ => True) w) l.

Lemma jpost_any {A} (j : job A) w w' : jpost j (fun _ _ => True) w -> jpost j (fun _ _ => True) w'.
Proof. by destruct j as [[]| | |]. Qed.

Lemma answer_job_ok j a e w :
  rn_ok w -> jpost j (fun _ _ => True) w ->
  goes w (answer_job j a e w).2 /\ jpost (answer_job (A:=reply) j a e w).1 (fun _ _ => True) (answer_job j a e w).2.
Proof.
  intros Hw Hj. assert (Hr : goes w w) by (split; [done|apply extends_refl]).
  destruct j as [r|t k|t k|ms k], a as [o|o|o]; cbn [answer_job fst snd]; try done;
    cbn [jpost] in Hj; specialize (Hj o e w Hw); by destruct (k o e w).
Qed.

Lemma run_step_ok m a :
  rn_ok (rm_world m) -> jobs_ok (rm_jobs m) ->
  goes (rm_world m) (rm_world (run_step m a)) /\ jobs_ok (rm_jobs (run_step m a)).
Proof.
  intros Hw Hj. destruct m as [w js]. cbn [rm_world rm_jobs] in *.
  destruct a as [e op|e n a|op|rd c actor now|c mode]; cbn [run_step rm_world rm_jobs].
  - destruct (start_op_safe op e w Hw I) as [H1 H2]. destruct (start_op op e w) as [j w']. cbn in *.
    split; [done|]. apply Forall_app. split; [done|]. apply list.Forall_singleton. intros w0. by eapply jpost_any.
  - destruct (js !! n) as [j|] eqn:Hn; [|by split; [split; [|apply extends_refl]|]].
    assert (Hjn : jpost j (fun _ _ => True) w) by (by apply (Forall_lookup_1 _ _ _ _ Hj Hn)).
    destruct (answer_job_ok j a e w Hw Hjn) as [H1 H2]. destruct (answer_job j a e w) as [j' w']. cbn in *.
    split; [done|]. apply Forall_insert; [done|]. intros w0. by eapply jpost_any.
  - split; [by apply quiet_goes|done].
  - split; [apply quiet_goes; [done|apply on_breaker_quiet]|done].
  - split; [|done]. unfold register_adapter. destruct (_ && _); cbn; [by split; [|apply extends_refl]|].
    split; [split; [apply (ok_recorded w Hw)|apply (ok_rows w Hw)|apply (ok_unique w Hw)]|].
    split; cbn; [done..|set_solver|done|]. exists []. by rewrite app_nil_r.
Qed.

Lemma run_acts_ok acts : forall m,
  rn_ok (rm_world m) -> jobs_ok (rm_jobs m) ->
  goes (rm_world m) (rm_world (run_acts m acts)) /\ jobs_ok (rm_jobs (run_acts m acts)).
Proof.
  induction acts as [|a acts IH]; intros m Hw Hj; [by split; [split; [|apply extends_refl]|]|].
  destruct (run_step_ok m a Hw Hj) as [H1 H2]. destruct (IH (run_step m a) (proj1 H1) H2) as [H3 H4].
  split; [by eapply goes_trans|done].
Qed.

Lemma empty_runner_ok : rn_ok empty_runner.
Proof. split; [intros k r; cbn; by rewrite lookup_empty|done|]. intros c ref kind n row. cbn. by rewrite lookup_empty. Qed.

Lemma history_ok acts :
  rn_ok (rm_world (run_history acts)) /\ extends empty_runner (rm_world (run_history acts)) /\ jobs_ok (rm_jobs (run_history acts)).
Proof. destruct (run_acts_ok acts (mk_RMachine empty_runner []) empty_runner_ok) as [[? ?] ?]; [by apply Forall_nil|done]. Qed.

(** No adapter is called that must not be.  Whatever is submitted, queried,
    reversed, retried, cancelled, disabled or promoted, in any interleaving: every
    call on an adapter went to a connector in a mode other than DISABLED, to a
    simulator when the deployment allows only simulators, to an adapter registered
    for exactly that connector and mode, and, if it submitted an instruction, its
    dispatch intent is on record. *)
Theorem rail_touches_are_justified acts :
  let w := rm_world (run_history acts) in
  Forall (fun t =>
    t_mode t <> DISABLED /\ (simulator_only = true -> t_mode t = SIMULATOR) /\
    (t_connector t, mode_value (t_mode t)) ∈ rn_adapters w /\
    forall i, t_call t = CSubmit i -> is_Some (idem_intent (t_connector t) (in_connector_ref i) "SUBMIT" w)) (rn_touches w).
Proof.
  intros w. destruct (history_ok acts) as (_ & [_ _ _ _ (l & Hl & Hj)] & _). fold w in Hl, Hj. rewrite Hl.
  eapply Forall_impl; [exact Hj|]. intros t [H1 H2 H3 _ H5]. split_and!; [done..|].
  intros i Hi. apply H5. unfold submit_key. by rewrite Hi.
Qed.

(** The submissions of a reference to a connector's adapter, in order. *)
Definition submissions (cid ref : string) w : list touch_row :=
  List.filter (fun t => bool_decide (submit_key t = Some (cid, ref, "SUBMIT"%string))) (rn_touches w).

Lemma submissions_none cid ref w w' l r :
  rn_recorded w !! (cid, ref, "SUBMIT"%string) = Some r -> Forall (justified w w') l ->
  List.filter (fun t => bool_decide (submit_key t = Some (cid, ref, "SUBMIT"%string))) l = [].
Proof.
  intros Hr Hl. induction Hl as [|t l Ht _ IH]; [done|]. cbn. destruct (bool_decide _) eqn:Hb; [|done].
  apply bool_decide_eq_true in Hb. apply (j_fresh _ _ _ Ht) in Hb. congruence.
Qed.

(** C26: A recorded outcome is final.  Once success, pending, rejection or reversal of a
    submission is recorded, then whatever else happens, coroutines that are in
    flight included: the record stays, the instruction is never sent to the rail
    again, and a dispatch of it answers the recorded result at once and changes
    nothing. *)
Theorem recorded_outcome_is_final acts more cid ref r :
  let w := rm_world (run_history acts) in
  let w' := rm_world (run_acts (run_history acts) more) in
  idem_get cid ref "SUBMIT" w = Some r ->
  idem_get cid ref "SUBMIT" w' = Some r /\
  submissions cid ref w' = submissions cid ref w /\
  forall e i reg, registrations (rn_registry w') !! in_rail i = Some reg -> rg_connector_id reg = cid -> in_connector_ref i = ref ->
    dispatch configs simulator_only i e w' = (Finished (Ok r), w').
Proof.
  intros w w' Hr. destruct (history_ok acts) as (Hw & _ & Hj). destruct (run_acts_ok more _ Hw Hj) as [[Hw' Hx] _].
  fold w in Hw, Hx. fold w' in Hw', Hx. unfold idem_get in *.
  assert (Hr' : rn_recorded w' !! (cid, ref, "SUBMIT"%string) = Some r) by (eapply lookup_weaken; [exact Hr|apply Hx]).
  split_and!; [done|..].
  - destruct Hx as [_ _ _ _ (l & Hl & Hall)]. unfold submissions. rewrite Hl, List.filter_app.
    by rewrite (submissions_none cid ref w w' l r Hr Hall), app_nil_r.
  - intros e i reg Hreg <- <-. unfold dispatch, get_reg, sync, piece, on_registry, cbind, get_registration, ebind, idem_get.
    cbn. rewrite Hreg. cbn. replace (set_rn_registry (rn_registry w') w') with w' by (by destruct w').
    rewrite Hr'. rewrite bool_decide_true by (by eapply (ok_recorded w' Hw')). done.
Qed.

(** The audit spine has no gaps: the recorded results of a call are never altered or
    removed, and in every history those of one connector, reference and kind of
    call carry the attempt numbers 1, 2, 3, ... in the order they were recorded. *)
Theorem results_are_numbered acts more c ref kind :
  let w := rm_world (run_history acts) in
  let w' := rm_world (run_acts (run_history acts) more) in
  rn_rows w `prefix_of` rn_rows w' /\
  row_attempt_no <$> List.filter (same_call c ref kind) (rn_rows w) =
    Z.of_nat <$> seq 1 (length (List.filter (same_call c ref kind) (rn_rows w))).
Proof.
  intros w w'. destruct (history_ok acts) as (Hw & _ & Hj). destruct (run_acts_ok more _ Hw Hj) as [[_ Hx] _]. fold w in Hw.
  split; [apply Hx|]. pose proof (ok_rows w Hw c ref kind) as Hr. unfold attempts_of in Hr. by rewrite length_fmap in Hr.
Qed.
End Facts.
