(* ===== verification/RunnerRetries.v ===== *)
(** The runner's calls end, within a number of awaits that the retry budget fixes,
    and a payment that may have reached the rail is not sent again blindly. *)
From S2P Require Import Prelude Exceptions DateTime Sha256 Canonical Breaker Registry RegistryFacts Sdk Runner RunnerFacts.
Open Scope Z_scope.

Section Retries.
Context `{HashFn} (configs : gmap string BreakerConfig) (simulator_only : bool).
Implicit Types (w : Runner) (e : REnv) (t : touch_row) (i : PaymentInstruction).

(** * Termination *)

(** [j] finishes after at most [n] answers, whatever they are and whatever happens
    in between. *)
Fixpoint settles {A} (n : nat) (j : job A) {struct n} : Prop :=
  match j with
  | Finished _ => True
  | Calling _ k => match n with O => False | S n => forall o e w, settles n (k o e w).1 end
  | Probing _ k => match n with O => False | S n => forall o e w, settles n (k o e w).1 end
  | Sleeping _ k => match n with O => False | S n => forall o e w, settles n (k o e w).1 end
  end.

Definition ends {A} (n : nat) (c : coro A) : Prop := forall e w, settles n (c e w).1.

Lemma settles_mono {A} (j : job A) n m : settles n j -> (n <= m)%nat -> settles m j.
Proof.
  revert j m. induction n as [|n IH]; intros j m Hs Hm; [by destruct j, m|]. destruct m as [|m]; [lia|].
  destruct j; cbn [settles] in *; [done|..]; intros o e w; apply (IH _ m (Hs o e w)); lia.
Qed.

Lemma settles_bind {A B} (f : A -> coro B) m : (forall a, ends m (f a)) -> forall n (j : job A) e w,
  settles n j -> settles (n + m) (jbind j f e w).1.
Proof.
  intros Hf. induction n as [|n IH]; intros j e w Hj.
  { destruct j as [[a|x]|t k|t k|ms k]; [apply Hf|by destruct m|done..]. }
  destruct j as [[a|x]|t k|t k|ms k]; [apply (settles_mono _ m); [apply Hf|lia]|done|..];
    cbn [jbind Nat.add settles fst] in *; intros o e' w'; specialize (Hj o e' w');
    destruct (k o e' w') as [j' w'']; by apply IH.
Qed.

Lemma ends_bind {A B} n m (c : coro A) (f : A -> coro B) :
  ends n c -> (forall a, ends m (f a)) -> ends (n + m) (cbind c f).
Proof.
  intros Hc Hf e w. specialize (Hc e w). unfold cbind. destruct (c e w) as [j w']. by apply settles_bind.
Qed.

Lemma ends_mono {A} n m (c : coro A) : ends n c -> (n <= m)%nat -> ends m c.
Proof. intros Hc Hm e w. by eapply settles_mono. Qed.
Lemma ends_ret {A} n (a : A) : ends n (cret a).
Proof. intros e w. by destruct n. Qed.
Lemma ends_piece {A} n (c : REnv -> reff A) : ends n (piece c).
Proof. intros e w. unfold piece. destruct (c e w). by destruct n. Qed.
Lemma ends_then {A B} n (c : REnv -> reff A) (f : A -> coro B) : (forall a, ends n (f a)) -> ends n (cbind (piece c) f).
Proof. intros Hf. apply (ends_bind 0); [apply ends_piece|done]. Qed.
Lemma ends_wait t : ends 1 (wait_for t).
Proof. by intros e w. Qed.
Lemma ends_probe t : ends 1 (wait_probe t).
Proof. by intros e w. Qed.
Lemma ends_sleep ms : ends 1 (sleep ms).
Proof. by intros e w. Qed.

Lemma ends_as_result {B} n reg ins ref o (f : ConnectorResult * bool -> coro B) :
  (forall a, ends n (f a)) -> ends n (cbind (as_result reg ins ref o) f).
Proof.
  intros Hf. apply (ends_bind 0); [|done]. destruct o; cbn [as_result]; [apply ends_ret|..];
    apply ends_then; intros; apply ends_ret.
Qed.

Lemma dispatch_to_rail_ends reg i : ends 1 (dispatch_to_rail configs simulator_only reg i).
Proof.
  unfold dispatch_to_rail. destruct (disabled reg); [apply ends_piece|]. destruct (_simulator_only_refusal _ _); [apply ends_piece|].
  apply ends_then. intros [|]; cbn [negb]; [|apply ends_piece]. apply ends_then. intros _. apply ends_then. intros _.
  apply (ends_bind 1 0); [apply ends_wait|]. intros o. apply ends_as_result. intros [r te]. apply ends_then. intros _.
  apply (ends_bind 0 0); [destruct (bool_decide _); [apply ends_piece|apply ends_ret]|]. intros _. apply ends_then. intros _. apply ends_ret.
Qed.

Lemma dispatch_ends i : ends 1 (dispatch configs simulator_only i).
Proof.
  apply ends_then. intros reg. apply ends_then. intros w. destruct (idem_get _ _ _ _) as [r|]; [|apply dispatch_to_rail_ends].
  destruct (bool_decide _); [apply ends_ret|apply dispatch_to_rail_ends].
Qed.

Lemma retry_loop_ends n : forall b cap i r, ends (2 * n) (retry_loop configs simulator_only n b cap i r).
Proof.
  induction n as [|n IH]; intros b cap i r; cbn [retry_loop]; [apply ends_ret|]. destruct (isTransport r); [|apply ends_ret].
  apply (ends_mono (1 + (1 + 2 * n))); [|lia]. apply ends_bind; [apply ends_sleep|]. intros _.
  apply ends_bind; [apply dispatch_ends|]. intros r'. apply IH.
Qed.

Lemma _call_ends c ref kind bk call : ends 1 (_call configs simulator_only c ref kind bk call).
Proof.
  apply ends_then. intros reg. cbv zeta. destruct (disabled reg); [apply ends_piece|].
  destruct (_simulator_only_refusal _ _); [apply ends_piece|]. apply ends_then. intros [|]; cbn [negb]; [|apply ends_piece].
  apply ends_then. intros _. apply (ends_bind 1 0); [apply ends_wait|]. intros o. apply ends_as_result. intros [r te].
  apply ends_then. intros _. apply ends_then. intros _. apply ends_ret.
Qed.

Lemma poll_loop_ends n : forall ms c ref tx last, ends (2 * n) (poll_loop configs simulator_only n ms c ref tx last).
Proof.
  induction n as [|n IH]; intros ms c ref tx last; cbn [poll_loop]; [apply ends_ret|].
  apply (ends_mono (1 + (1 + 2 * n))); [|lia]. apply ends_bind; [apply ends_sleep|]. intros _.
  apply ends_bind; [apply _call_ends|]. intros r. destruct (definitive r); [apply ends_ret|apply IH].
Qed.

Lemma settle_loop_ends n : forall ms c i tx reason, ends (2 * n + 1) (settle_loop configs simulator_only n ms c i tx reason).
Proof.
  induction n as [|n IH]; intros ms c i tx reason; cbn [settle_loop]; [apply _call_ends|].
  apply (ends_mono (1 + (1 + (2 * n + 1)))); [|lia]. apply ends_bind; [apply ends_sleep|]. intros _.
  apply ends_bind; [apply _call_ends|]. intros r. destruct (_ || _); [apply ends_ret|apply IH].
Qed.

(** The budget of the connector, as the call reads it. *)
Definition budget_of (c : string) w : option RetryBudget := rg_retry_budget <$> registrations (rn_registry w) !! c.

Lemma cbind_get_reg {B} c (f : ConnectorRegistration -> coro B) e w :
  cbind (get_reg c) f e w =
  match registrations (rn_registry w) !! c with
  | Some reg => f reg e w
  | None => (Finished (Err (RegistryError UnknownConnectorError)), w)
  end.
Proof.
  unfold cbind, get_reg, sync, piece, on_registry, get_registration, ebind. cbn.
  destruct (registrations (rn_registry w) !! c); cbn; by destruct w.
Qed.

Lemma cbind_eget {B} (f : Runner -> coro B) e w : cbind (sync eget) f e w = f w e w.
Proof. reflexivity. Qed.

Definition poll_budget (o : option RetryBudget) : nat :=
  match o with Some b => 2 * Z.to_nat (default 3 (poll_attempts b)) | None => 0 end.

(** The answers a call takes at most. *)
Definition patience (op : run_op) w : nat :=
  match op with
  | RSubmit i => match budget_of (in_rail i) w with Some b => 1 + 2 * Z.to_nat (default 0 (submit_retries b)) | None => 0 end
  | RDispatch _ | RQuery _ _ _ | RReverse _ _ _ _ _ | RHealth _ => 1
  | RResubmit i =>
      match registrations (rn_registry w) !! in_rail i with
      | Some reg => poll_budget (budget_of (rg_connector_id reg) w) + 1
      | None => 0
      end
  | RSettle _ _ => 7
  | RPoll c _ _ => poll_budget (budget_of c w)
  end.

Lemma poll_status_settles c ref tx e w : settles (poll_budget (budget_of c w)) (poll_status configs simulator_only c ref tx e w).1.
Proof.
  unfold poll_status. rewrite cbind_get_reg. unfold budget_of, poll_budget.
  destruct (registrations (rn_registry w) !! c) as [reg|]; cbn [fmap option_fmap option_map]; [|done].
  apply poll_loop_ends.
Qed.

Lemma health_check_ends c : ends 1 (health_check configs simulator_only c).
Proof.
  apply ends_then. intros reg. destruct (disabled reg); [apply ends_then; intros; apply ends_ret|].
  destruct (_simulator_only_refusal _ _); [apply ends_then; intros; apply ends_ret|].
  apply ends_then. intros [|]; cbn [negb]; [|apply ends_then; intros; apply ends_ret].
  apply ends_then. intros _. apply ends_then. intros started. apply (ends_bind 1 0); [apply ends_probe|]. intros o.
  destruct (match o with Returned _ => _ | _ => _ end) as [[healthy detail] te].
  repeat (apply ends_then; intros ?). apply ends_ret.
Qed.

Lemma settles_reply {A} n (c : coro A) (f : A -> reply) e w :
  settles n (c e w).1 -> settles n (cbind c (fun a => cret (f a)) e w).1.
Proof.
  intros Hj. unfold cbind. destruct (c e w) as [j w']. rewrite <- (Nat.add_0_r n). apply settles_bind; [|done].
  intros a. apply ends_ret.
Qed.

(** C28: every call of the runner ends: whatever the rail answers, however long it takes
    and whatever else runs, a call needs at most the answers of its retry budget
    (a submission and two awaits per retry; two awaits per poll; three polls and
    one reversal to settle a timeout). *)
Theorem runner_calls_end op e w : settles (patience op w) (start_op configs simulator_only op e w).1.
Proof.
  destruct op as [i|i|i|i reason|c ref tx|c ref tx a reason|c ref tx|c]; cbn [start_op patience]; apply settles_reply.
  - unfold submit. rewrite cbind_get_reg. unfold budget_of. destruct (registrations _ !! _) as [reg|]; [|done].
    cbn [fmap option_fmap option_map]. rewrite cbind_eget. destruct (timed_out _); [done|]. cbv zeta.
    apply ends_bind; [apply dispatch_ends|]. intros r. apply retry_loop_ends.
  - apply dispatch_ends.
  - unfold resubmit_after_timeout. rewrite cbind_get_reg. destruct (registrations _ !! _) as [reg|]; [|done].
    rewrite cbind_eget. destruct (negb _); [by destruct (poll_budget _)|].
    unfold cbind at 1. pose proof (poll_status_settles (rg_connector_id reg) (in_connector_ref i) None e w) as Hp.
    destruct (poll_status _ _ _ _ _ e w) as [j w1]. apply settles_bind; [|done].
    intros [r|]; [|apply ends_piece]. destruct (notReceived r); [apply dispatch_ends|apply ends_ret].
  - unfold settle_after_timeout. rewrite cbind_get_reg. destruct (registrations _ !! _) as [reg|]; [|done].
    rewrite cbind_eget. destruct (last_for _ _ _ _) as [row|]; [|done]. destruct (timed_out _); [|done]. cbv zeta.
    eapply settles_mono; [apply settle_loop_ends|]. unfold MAX_TIMEOUT_SETTLE_POLLS. lia.
  - apply _call_ends.
  - apply _call_ends.
  - apply poll_status_settles.
  - apply health_check_ends.
Qed.

(** * Resubmission *)

Definition is_submit t : bool := match t_call t with CSubmit _ => true | _ => false end.
Definition is_query t : bool := match t_call t with CQuery _ _ => true | _ => false end.

Section Sends.
Variable permit : touch_row -> outcome ConnectorResult -> bool.

(** Along every course of [j] an instruction is submitted only while submitting is
    [allowed]; the answer to a call on the rail decides, by [permit], whether it is
    allowed after it.  [Q] holds of a returned value and the final permission. *)
Fixpoint sends {A} (allowed : bool) (j : job A) (Q : A -> bool -> Prop) {struct j} : Prop :=
  match j with
  | Finished (Ok a) => Q a allowed
  | Finished (Err _) => True
  | Calling t k =>
      (is_submit t = true -> allowed = true) /\
      forall o e w, let (j', _) := k o e w in sends (permit t o) j' Q
  | Probing _ k => forall o e w, let (j', _) := k o e w in sends allowed j' Q
  | Sleeping _ k => forall o e w, let (j', _) := k o e w in sends allowed j' Q
  end.

Definition csends {A} (allowed : bool) (c : coro A) (Q : A -> bool -> Prop) : Prop := forall e w, sends allowed (c e w).1 Q.

Lemma sends_bind {A B} (j : job A) (f : A -> coro B) Q S :
  (forall a al, Q a al -> csends al (f a) S) -> forall al e w, sends al j Q -> sends al (jbind j f e w).1 S.
Proof.
  intros Hf. induction j as [[a|x]|t k IH|t k IH|ms k IH] using job_ind'; intros al e w Hj; cbn [jbind fst sends] in *.
  - by apply Hf.
  - done.
  - destruct Hj as [Ht Hj]. split; [done|]. intros o e' w'. specialize (Hj o e' w'). specialize (IH o e' w').
    destruct (k o e' w') as [j' w'']. cbn [fst] in IH. specialize (IH _ e' w'' Hj). by destruct (jbind j' f e' w'').
  - intros o e' w'. specialize (Hj o e' w'). specialize (IH o e' w').
    destruct (k o e' w') as [j' w'']. cbn [fst] in IH. specialize (IH _ e' w'' Hj). by destruct (jbind j' f e' w'').
  - intros o e' w'. specialize (Hj o e' w'). specialize (IH o e' w').
    destruct (k o e' w') as [j' w'']. cbn [fst] in IH. specialize (IH _ e' w'' Hj). by destruct (jbind j' f e' w'').
Qed.

Lemma csends_bind {A B} al (c : coro A) (f : A -> coro B) Q S :
  csends al c Q -> (forall a al, Q a al -> csends al (f a) S) -> csends al (cbind c f) S.
Proof. intros Hc Hf e w. specialize (Hc e w). unfold cbind. destruct (c e w) as [j w']. by apply (sends_bind j f Q S). Qed.

Lemma csends_ret {A} al (a : A) (Q : A -> bool -> Prop) : Q a al -> csends al (cret a) Q.
Proof. by intros HQ e w. Qed.
Lemma csends_piece {A} al (c : REnv -> reff A) (Q : A -> bool -> Prop) :
  (forall e w a, (c e w).1 = Ok a -> Q a al) -> csends al (piece c) Q.
Proof. intros Hc e w. specialize (Hc e w). unfold piece. destruct (c e w) as [[a|x] w']; cbn; [|done]. by apply Hc. Qed.
Lemma csends_then {A B} al (c : REnv -> reff A) (f : A -> coro B) Q :
  (forall a, csends al (f a) Q) -> csends al (cbind (piece c) f) Q.
Proof.
  intros Hf. apply (csends_bind _ _ _ (fun _ al' => al' = al)); [by apply csends_piece|]. by intros a al' ->.
Qed.
Lemma csends_wait al t :
  (is_submit t = true -> al = true) -> csends al (wait_for t) (fun o al' => al' = permit t o /\ o <> Cancelled).
Proof. intros Ht e w. cbn. split; [done|]. intros o e' w'. by destruct o. Qed.
Lemma csends_sleep {B} al ms (f : unit -> coro B) Q : csends al (f tt) Q -> csends al (cbind (sleep ms) f) Q.
Proof.
  intros Hf. apply (csends_bind _ _ _ (fun _ al' => al' = al)); [intros e w; cbn; intros o e' w'; by destruct o|].
  by intros [] al' ->.
Qed.
Lemma csends_weaken {A} al (c : coro A) (Q Q' : A -> bool -> Prop) :
  csends al c Q -> (forall a al, Q a al -> Q' a al) -> csends al c Q'.
Proof.
  intros Hc HQ e w. specialize (Hc e w). revert Hc. generalize (c e w).1. clear -HQ. intros j. revert al.
  induction j as [[a|x]|t k IH|t k IH|ms k IH] using job_ind'; intros al; cbn [sends]; [apply HQ|done|..].
  - intros [Ht Hj]. split; [done|]. intros o e w. specialize (Hj o e w). specialize (IH o e w).
    destruct (k o e w) as [j' w']. by apply IH.
  - intros Hj o e w. specialize (Hj o e w). specialize (IH o e w). destruct (k o e w) as [j' w']. by apply IH.
  - intros Hj o e w. specialize (Hj o e w). specialize (IH o e w). destruct (k o e w) as [j' w']. by apply IH.
Qed.

Lemma synthetic_sends al c ins ref st code :
  csends al (synthetic c ins ref st code) (fun r al' => cr_status r = st /\ cr_error_code r = Some code /\ al' = al).
Proof.
  apply csends_piece. intros e w r. unfold _synthetic, ebind, elift. destruct (r_res (sha256_canonical _)); [|done].
  destruct (r_res (canonical_json _)); [|done]. cbn. by intros [= <-].
Qed.

(** What the runner makes of an answer. *)
Definition made_of (o : outcome ConnectorResult) (r : ConnectorResult) : Prop :=
  match o with
  | Returned r' => r = r'
  | TimedOut => cr_status r = TIMED_OUT
  | Raised | Cancelled => cr_status r = FAILED /\ cr_error_code r = Some TRANSPORT_ERROR_CODE
  end.

Lemma as_result_sends al reg ins ref o :
  csends al (as_result reg ins ref o) (fun p al' => made_of o p.1 /\ al' = al).
Proof.
  destruct o; cbn [as_result]; [by apply csends_ret|..];
    (eapply csends_bind; [apply synthetic_sends|]; intros r al' (Hs & Hc & ->); by apply csends_ret).
Qed.

(** An answer the runner gives without touching the rail. *)
Definition refused (r : ConnectorResult) : Prop :=
  cr_status r = FAILED /\
  exists code, cr_error_code r = Some code /\ code ∈ ["connector_disabled"; SANDBOX_ISOLATION_CODE; "circuit_open"]%string.

Lemma refused_sends al c ins ref code (Q : ConnectorResult -> bool -> Prop) :
  code ∈ ["connector_disabled"; SANDBOX_ISOLATION_CODE; "circuit_open"]%string ->
  (forall r, refused r -> Q r al) -> csends al (synthetic c ins ref FAILED code) Q.
Proof.
  intros Hcode HQ. eapply csends_weaken; [apply synthetic_sends|]. intros r al' (Hs & He & ->). apply HQ.
  split; [done|]. by exists code.
Qed.

Lemma dispatch_sends i :
  csends true (dispatch configs simulator_only i) (fun r al =>
    al = true \/ exists t o, o <> Cancelled /\ made_of o r /\ al = permit t o).
Proof.
  assert (Hrail : forall reg, csends true (dispatch_to_rail configs simulator_only reg i) (fun r al =>
    al = true \/ exists t o, o <> Cancelled /\ made_of o r /\ al = permit t o)).
  { intros reg. unfold dispatch_to_rail. destruct (disabled reg); [apply refused_sends; [set_solver|by left]|].
    destruct (_simulator_only_refusal _ _); [apply refused_sends; [set_solver|by left]|].
    apply csends_then. intros [|]; cbn [negb]; [|apply refused_sends; [set_solver|by left]].
    apply csends_then. intros _. apply csends_then. intros _.
    eapply csends_bind; [by apply csends_wait|]. intros o al [-> Ho].
    eapply csends_bind; [apply as_result_sends|]. intros [r te] al [Hm ->]. cbn [fst] in Hm.
    apply csends_then. intros _. apply (csends_bind _ _ _ (fun _ al' => al' = permit (mk_touch (rg_connector_id reg) (rg_active_mode reg) (CSubmit i)) o)).
    { destruct (bool_decide _); [by apply csends_piece|by apply csends_ret]. }
    intros _ al ->. apply csends_then. intros _. apply csends_ret. right. eauto. }
  apply csends_then. intros reg. apply csends_then. intros w. destruct (idem_get _ _ _ _) as [r|]; [|apply Hrail].
  destruct (bool_decide _); [apply csends_ret; by left|apply Hrail].
Qed.

Lemma query_sends al c ref tx :
  csends al (query_status configs simulator_only c ref tx) (fun r al' =>
    refused r \/ exists t o, is_query t = true /\ o <> Cancelled /\ made_of o r /\ al' = permit t o).
Proof.
  apply csends_then. intros reg. cbv zeta. destruct (disabled reg); [apply refused_sends; [set_solver|by left]|].
  destruct (_simulator_only_refusal _ _); [apply refused_sends; [set_solver|by left]|].
  apply csends_then. intros [|]; cbn [negb]; [|apply refused_sends; [set_solver|by left]].
  apply csends_then. intros _. eapply csends_bind; [by apply csends_wait; intros [=]|]. intros o al' [-> Ho].
  eapply csends_bind; [apply as_result_sends|]. intros [r te] al' [Hm ->]. cbn [fst] in Hm.
  apply csends_then. intros _. apply csends_then. intros _. apply csends_ret. right.
  by exists (mk_touch (rg_connector_id reg) (rg_active_mode reg) (CQuery ref tx)), o.
Qed.
End Sends.

(** ** Within [submit] *)

(** The last answer was an error of the transport. *)
Definition transport_failed (t : touch_row) (o : outcome ConnectorResult) : bool :=
  match o with Raised => true | Returned r => isTransport r | TimedOut | Cancelled => false end.

Lemma dispatch_transport i :
  csends transport_failed true (dispatch configs simulator_only i) (fun r al => isTransport r = true -> al = true).
Proof.
  eapply csends_weaken; [apply dispatch_sends|]. intros r al [->|(t & o & Ho & Hm & ->)]; [done|]. intros Hr.
  unfold isTransport in Hr. destruct o; cbn in *; [by subst|rewrite Hm in Hr|done|done]. by bool_prop.
Qed.

Lemma retry_loop_sends n : forall b cap i r al, (isTransport r = true -> al = true) ->
  csends transport_failed al (retry_loop configs simulator_only n b cap i r) (fun _ _ => True).
Proof.
  induction n as [|n IH]; intros b cap i r al Hal; cbn [retry_loop]; [by apply csends_ret|].
  destruct (isTransport r) eqn:Hr; [|by apply csends_ret]. rewrite (Hal eq_refl). apply csends_sleep.
  eapply csends_bind; [apply dispatch_transport|]. intros r' al' H'. by apply IH.
Qed.

(** ** Within [resubmit_after_timeout] *)

(** The last answer of the rail was that it never received the payment. *)
Definition told_not_received (t : touch_row) (o : outcome ConnectorResult) : bool :=
  is_query t && match o with Returned r => notReceived r | _ => false end.

Lemma notReceived_definitive r : notReceived r = true -> definitive r = true.
Proof.
  unfold notReceived, definitive. intros Hr. bool_prop. apply andb_true_iff. split; [apply bool_decide_eq_true|].
  - rewrite H0. unfold _DEFINITIVE_STATUSES. set_solver.
  - apply negb_true_iff, bool_decide_eq_false. by rewrite H1.
Qed.

Lemma query_not_received al c ref tx :
  csends told_not_received al (query_status configs simulator_only c ref tx) (fun r al' => notReceived r = true -> al' = true).
Proof.
  eapply csends_weaken; [apply query_sends|]. unfold notReceived. intros r al' [(Hs & code & Hc & Hin)|(t & o & Hq & Ho & Hm & ->)] Hr; bool_prop.
  - rewrite H1 in Hc. injection Hc as <-. unfold NOT_RECEIVED_CODE, SANDBOX_ISOLATION_CODE in Hin. set_solver.
  - unfold told_not_received, notReceived. rewrite Hq. destruct o; cbn in *; [subst; rewrite H0, H1; by eval_decisions|congruence|..];
      destruct Hm as [_ Hm]; rewrite Hm in H1; discriminate.
Qed.

Lemma poll_loop_sends n : forall ms c ref tx last al, match last with Some r => definitive r = false | None => True end ->
  csends told_not_received al (poll_loop configs simulator_only n ms c ref tx last)
    (fun last al' => match last with Some r => notReceived r = true -> al' = true | None => True end).
Proof.
  induction n as [|n IH]; intros ms c ref tx last al Hlast; cbn [poll_loop].
  { apply csends_ret. destruct last as [r|]; [|done]. intros Hr%notReceived_definitive. congruence. }
  apply csends_sleep. eapply csends_bind; [apply query_not_received|]. intros r al' Hr.
  destruct (definitive r) eqn:Hd; [by apply csends_ret|by apply IH].
Qed.

(** C27: no blind resubmission.  After a submission timed out, [submit] refuses without
    touching the rail; [resubmit_after_timeout] sends the payment only while the
    last answer of the rail is the definitive one that it was never received; and
    [submit] itself sends a second time only after an error of the transport, in
    whatever order answers arrive and whatever else runs. *)
Theorem no_blind_resubmission i e w :
  (forall reg, registrations (rn_registry w) !! in_rail i = Some reg ->
     timed_out (last_for (rg_connector_id reg) (in_connector_ref i) "SUBMIT" w) = true ->
     submit configs simulator_only i e w = (Finished (Err RetryForbiddenError), w)) /\
  sends told_not_received false (resubmit_after_timeout configs simulator_only i e w).1 (fun _ _ => True) /\
  sends transport_failed true (submit configs simulator_only i e w).1 (fun _ _ => True).
Proof.
  split_and!.
  - intros reg Hreg Ht. unfold submit. by rewrite cbind_get_reg, Hreg, cbind_eget, Ht.
  - unfold resubmit_after_timeout. rewrite cbind_get_reg. destruct (registrations _ !! _) as [reg|]; [|done].
    rewrite cbind_eget. destruct (negb _); [done|]. revert e w.
    change (csends told_not_received false (cbind (poll_status configs simulator_only (rg_connector_id reg) (in_connector_ref i) None)
      (fun polled => match polled with
        | None => synthetic (rg_connector_id reg) (in_instruction_id i) (in_connector_ref i) TIMED_OUT "status_unresolved"
        | Some polled => if notReceived polled then dispatch configs simulator_only i else cret polled end)) (fun _ _ => True)).
    eapply csends_bind; [apply csends_then; intros r; by apply poll_loop_sends|].
    intros [r|] al Hal; [|eapply csends_weaken; [apply synthetic_sends|done]].
    destruct (notReceived r); [|by apply csends_ret]. rewrite (Hal eq_refl). eapply csends_weaken; [apply dispatch_sends|done].
  - revert e w. change (csends transport_failed true (submit configs simulator_only i) (fun _ _ => True)).
    apply csends_then. intros reg. apply csends_then. intros w. destruct (timed_out _); [by apply csends_piece|]. cbv zeta.
    eapply csends_bind; [apply dispatch_transport|]. intros r al Hal. by apply retry_loop_sends.
Qed.
End Retries.
