(* ===== verification/RunnerDemo.v ===== *)
(** A small runner for the witnesses: one connector on a simulator, a submission
    that succeeds, one that times out, and an open circuit. *)
From S2P Require Import Prelude Exceptions DateTime Sha256 Canonical Breaker Registry RegistryFacts Sdk Runner RunnerFacts RunnerRetries.
Open Scope Z_scope.

#[local] Existing Instance Sha256.sha256_fn.

Definition rd_time (s : Z) : datetime := mk_datetime true (63918000300000000 + s * 1000000).
Definition rd_env (s : Z) : REnv := mk_REnv (rd_time s) true.

(** ** The registry *)

Definition rd_register : reg_op :=
  GRegister "bkash_pgw_v2" "bKash" "PAYMENT" ["submit"] ["BKASH"] "1.0.0" SIMULATOR
    [("SANDBOX", ["env:BKASH_SB"]); ("PRODUCTION", ["env:BKASH"])] None None "PASSED" (rd_time 0).

(** Promoted twice, disabled, restored. *)
Definition rd_life : list reg_op :=
  [rd_register;
   GPromote (fun _ => true) "bkash_pgw_v2" "ops" "sandbox" None (rd_time 1);
   GPromote (fun _ => true) "bkash_pgw_v2" "ops" "go live" None (rd_time 2);
   GPromote (fun _ => true) "bkash_pgw_v2" "ops" "go live" (Some "appr_1"%string) (rd_time 3);
   GDisable "bkash_pgw_v2" "ops" "incident" (rd_time 4);
   GReenable (fun _ => true) "bkash_pgw_v2" "ops" "fixed" (rd_time 5)].

Definition rd_mode (s : Registry) : option (ConnectorMode * bool) :=
  (fun r => (rg_active_mode r, rg_enabled r)) <$> registrations s !! "bkash_pgw_v2"%string.

Example rd_life_ends_in_production :
  rd_mode (reg_run rd_life) = Some (PRODUCTION, true) /\ length (mode_changes (reg_run rd_life)) = 4%nat.
Proof. by vm_compute. Qed.

(** A registration of a run, without naming it. *)
Lemma rd_registered ops k : bool_decide (is_Some (registrations (reg_run ops) !! k)) = true ->
  exists r, registrations (reg_run ops) !! k = Some r.
Proof. by intros [r Hr]%bool_decide_eq_true; exists r. Qed.

Lemma registrations_well_typed_witness :
  exists r, registrations (reg_run rd_life) !! "bkash_pgw_v2"%string = Some r /\ rg_connector_id r = "bkash_pgw_v2"%string /\ reg_typed r.
Proof.
  destruct (rd_registered rd_life "bkash_pgw_v2") as [r Hr]; [by vm_compute|]. exists r. split; [done|].
  by apply (registrations_well_typed rd_life).
Defined.

Lemma mode_log_is_a_walk_witness :
  exists r m0, registered_in rd_life "bkash_pgw_v2" m0 /\
    mode_walk (m0, None) (mode_change_log "bkash_pgw_v2" (reg_run rd_life)) (rg_active_mode r, rg_previous_mode r).
Proof.
  destruct (rd_registered rd_life "bkash_pgw_v2") as [r Hr]; [by vm_compute|]. exists r.
  apply (mode_log_is_a_walk rd_life); [by repeat constructor|done].
Defined.

Lemma production_is_approved_witness :
  registered_in rd_life "bkash_pgw_v2" PRODUCTION \/
  exists c a, c ∈ mode_change_log "bkash_pgw_v2" (reg_run rd_life) /\ mc_from_mode c = SANDBOX /\ mc_to_mode c = PRODUCTION /\
    mc_approval_request_id c = Some a /\ truthy a = true.
Proof.
  destruct (rd_registered rd_life "bkash_pgw_v2") as [r Hr]; [by vm_compute|].
  apply (production_is_approved rd_life "bkash_pgw_v2" r); [by repeat constructor|done|].
  assert (Hm : rd_mode (reg_run rd_life) = Some (PRODUCTION, true)) by (by vm_compute).
  unfold rd_mode in Hm. rewrite Hr in Hm. by injection Hm.
Defined.

Lemma sweep_fails_closed_witness :
  exists disabled s', sweep_credentials (fun _ => false) (rd_time 6) (reg_run rd_life) = (Ok disabled, s') /\
    forall k r, registrations (reg_run rd_life) !! k = Some r ->
      if bool_decide (rg_active_mode r ∈ _CREDENTIALED_MODES) && negb (_credentials_resolve (fun _ => false) r (rg_active_mode r))
      then k ∈ disabled /\ exists r', registrations s' !! k = Some r' /\ rg_active_mode r' = DISABLED /\
             rg_enabled r' = false /\ rg_previous_mode r' = Some (rg_active_mode r)
      else ~ k ∈ disabled /\ registrations s' !! k = Some r.
Proof. by apply (sweep_fails_closed rd_life (fun _ => false) (rd_time 6)). Defined.

Example rd_sweep_disables : (sweep_credentials (fun _ => false) (rd_time 6) (reg_run rd_life)).1 = Ok ["bkash_pgw_v2"%string].
Proof. by vm_compute. Qed.

(** ** The runner *)

Definition rd_ins (ref : string) : PaymentInstruction :=
  mk_PaymentInstruction "ins_1" ref 5000 "BKASH" "cust" "merch" "bkash_pgw_v2" "2026-06-25T16:05:00Z" [].
Definition rd_result (ref : string) (st : ConnectorStatus) : ConnectorResult :=
  mk_ConnectorResult "ins_1" ref st (Some "trx-9"%string) None None "hash".

Definition rd_setup : list run_act := [ARegistry rd_register; AAdapter "bkash_pgw_v2" SIMULATOR].

(** A submission answered with success. *)
Definition rd_paid : list run_act :=
  rd_setup ++ [AStart (rd_env 1) (RSubmit (rd_ins "cref_a")); AAnswer (rd_env 2) 0 (AnsCall (Returned (rd_result "cref_a" SUCCESS)))].

(** The same instruction dispatched again, and another one. *)
Definition rd_again : list run_act :=
  [AStart (rd_env 3) (RDispatch (rd_ins "cref_a")); AStart (rd_env 4) (RSubmit (rd_ins "cref_b"))].

Definition rd_run := run_history ∅ true.

Example rd_one_submission_each :
  let w := rm_world (rd_run (rd_paid ++ rd_again)) in
  (length (rn_touches w), length (submissions "bkash_pgw_v2" "cref_a" w), length (rn_rows w)) = (2, 1, 1)%nat.
Proof. by vm_compute. Qed.

Lemma recorded_outcome_is_final_witness :
  idem_get "bkash_pgw_v2" "cref_a" "SUBMIT" (rm_world (rd_run rd_paid)) = Some (rd_result "cref_a" SUCCESS) /\
  idem_get "bkash_pgw_v2" "cref_a" "SUBMIT" (rm_world (run_acts ∅ true (rd_run rd_paid) rd_again)) = Some (rd_result "cref_a" SUCCESS) /\
  submissions "bkash_pgw_v2" "cref_a" (rm_world (run_acts ∅ true (rd_run rd_paid) rd_again)) =
    submissions "bkash_pgw_v2" "cref_a" (rm_world (rd_run rd_paid)) /\
  forall e i reg, registrations (rn_registry (rm_world (run_acts ∅ true (rd_run rd_paid) rd_again))) !! in_rail i = Some reg ->
    rg_connector_id reg = "bkash_pgw_v2"%string -> in_connector_ref i = "cref_a"%string ->
    dispatch ∅ true i e (rm_world (run_acts ∅ true (rd_run rd_paid) rd_again)) =
      (Finished (Ok (rd_result "cref_a" SUCCESS)), rm_world (run_acts ∅ true (rd_run rd_paid) rd_again)).
Proof.
  assert (Hr : idem_get "bkash_pgw_v2" "cref_a" "SUBMIT" (rm_world (rd_run rd_paid)) = Some (rd_result "cref_a" SUCCESS))
    by (by vm_compute).
  split; [exact Hr|]. exact (recorded_outcome_is_final ∅ true rd_paid rd_again "bkash_pgw_v2" "cref_a" _ Hr).
Defined.

(** A simulator-only runner refuses a connector that was promoted, without
    touching it. *)
Example rd_isolation :
  let m := rd_run (rd_setup ++ [ARegistry (GPromote (fun _ => true) "bkash_pgw_v2" "ops" "sandbox" None (rd_time 1));
                                AStart (rd_env 2) (RSubmit (rd_ins "cref_a"))]) in
  length (rn_touches (rm_world m)) = 0%nat /\
  (match rm_jobs m with [Finished (Ok (Replied r))] => cr_error_code r | _ => None end) = Some SANDBOX_ISOLATION_CODE.
Proof. by vm_compute. Qed.

(** A payment timed out, then five health checks fail and open the circuit, then
    [resubmit_after_timeout] polls: the runner refuses its own query, takes the
    refusal for a definitive answer of the rail and reports the payment FAILED. *)
Definition rd_unresolved : list run_act :=
  rd_setup ++ [AStart (rd_env 1) (RSubmit (rd_ins "cref_a")); AAnswer (rd_env 2) 0 (AnsCall TimedOut)] ++
  mjoin ((fun n : nat => [AStart (rd_env (Z.of_nat n + 2)) (RHealth "bkash_pgw_v2"); AAnswer (rd_env (Z.of_nat n + 2)) n (AnsProbe Raised)]) <$> seq 1 5) ++
  [AStart (rd_env 10) (RResubmit (rd_ins "cref_a")); AAnswer (rd_env 11) 6 (AnsSleep (Returned tt))].

Example open_circuit_passes_for_an_answer :
  (match rm_jobs (rd_run rd_unresolved) !! 6%nat with
   | Some (Finished (Ok (Replied r))) => Some (cr_status r, cr_error_code r) | _ => None end) = Some (FAILED, Some "circuit_open"%string) /\
  List.filter is_query (rn_touches (rm_world (rd_run rd_unresolved))) = [].
Proof. by vm_compute. Qed.

(** The state after the timeout, where [submit] must refuse. *)
Definition rd_timed_out : Runner :=
  rm_world (rd_run (rd_setup ++ [AStart (rd_env 1) (RSubmit (rd_ins "cref_a")); AAnswer (rd_env 2) 0 (AnsCall TimedOut)])).

Lemma no_blind_resubmission_witness :
  submit ∅ true (rd_ins "cref_a") (rd_env 3) rd_timed_out = (Finished (Err RetryForbiddenError), rd_timed_out) /\
  sends told_not_received false (resubmit_after_timeout ∅ true (rd_ins "cref_a") (rd_env 3) rd_timed_out).1 (fun _ _ => True).
Proof.
  pose proof (no_blind_resubmission ∅ true (rd_ins "cref_a") (rd_env 3) rd_timed_out) as (Hsub & Hre & _). split; [|exact Hre].
  assert (Ht : (fun r => timed_out (last_for (rg_connector_id r) "cref_a" "SUBMIT" rd_timed_out)) <$>
    registrations (rn_registry rd_timed_out) !! "bkash_pgw_v2"%string = Some true) by (by vm_compute).
  destruct (registrations (rn_registry rd_timed_out) !! "bkash_pgw_v2"%string) as [reg|] eqn:Hreg; [|discriminate Ht].
  injection Ht as Ht. exact (Hsub reg Hreg Ht).
Defined.
