(* ===== verification/QrTlv.v ===== *)
(** EMVCo TLV objects of a QR payload (qr/tlv.py).  Payloads are byte strings;
    a Python [str] is its UTF-8 encoding.  The walk and the assembly are inverse
    to each other: a payload has one reading and a list of objects one wire
    form. *)
From S2P Require Import Prelude Exceptions.
Open Scope Z_scope.

(** [QrEncodeError], [QrValidationError(code, ...)] (qr/errors.py), the marker
    [QrDiverged] for a walk that would not end, which never occurs, and any
    exception of the platform modules. *)
Inductive qr_error : Type :=
| QrEncodeError
| QrValidationError (code : string)
| QrDiverged
| QrRaised (e : exn).

Definition _MAX_VALUE_BYTES : nat := 99.

(** * UTF-8, as the strict decoder of Python accepts it *)

(** The second byte a three- or four-byte lead admits. *)
Definition second_ok (lead c : Ascii.ascii) : bool :=
  if byte_in 224 224 lead then byte_in 160 191 c
  else if byte_in 237 237 lead then byte_in 128 159 c
  else if byte_in 240 240 lead then byte_in 144 191 c
  else if byte_in 244 244 lead then byte_in 128 143 c
  else cont c.

Fixpoint valid_utf8 (s : string) : bool :=
  match s with
  | EmptyString => true
  | String a r =>
      if byte_in 0 127 a then valid_utf8 r
      else if byte_in 194 223 a then
        match r with String b r2 => cont b && valid_utf8 r2 | _ => false end
      else if byte_in 224 239 a then
        match r with
        | String b (String c r3) => second_ok a b && cont c && valid_utf8 r3
        | _ => false
        end
      else if byte_in 240 244 a then
        match r with
        | String b (String c (String d r4)) => second_ok a b && cont c && cont d && valid_utf8 r4
        | _ => false
        end
      else false
  end.

(** * The codec *)

Record TlvObject : Type := mk_TlvObject { object_id : Z; tlv_value : string; tlv_raw : string }.

Definition encode_object (object_id : Z) (value : string) : res qr_error string :=
  raise QrEncodeError when (negb ((0 <=? object_id) && (object_id <=? 99))) else
  let length := String.length value in
  raise QrEncodeError when (length =? 0)%nat else
  raise QrEncodeError when (_MAX_VALUE_BYTES <? length)%nat else
  Ok (zpad 2 object_id +:+ zpad 2 (Z.of_nat length) +:+ value).

Fixpoint assemble (objects : list (Z * string)) : res qr_error string :=
  match objects with
  | [] => Ok ""%string
  | (object_id, value) :: rest =>
      let* first := encode_object object_id value in
      let* more := assemble rest in
      Ok (first +:+ more)
  end.

Definition _is_ascii_digits (chunk : string) : bool :=
  (String.length chunk =? 2)%nat && all_chars is_digit chunk.

(** One turn of the loop of [walk]: the object at the front and the rest. *)
Definition read_object (data : string) : res qr_error (TlvObject * string) :=
  let id_chunk := str_take 2 data in
  let len_chunk := str_take 2 (str_drop 2 data) in
  raise (QrValidationError "qr_malformed_tlv")
    when (negb (_is_ascii_digits id_chunk) || negb (_is_ascii_digits len_chunk)) else
  let object_id := int_of_digits id_chunk in
  let length := Z.to_nat (int_of_digits len_chunk) in
  let value_bytes := str_take length (str_drop 4 data) in
  raise (QrValidationError "qr_malformed_tlv")
    when (negb (String.length value_bytes =? length)%nat || (length =? 0)%nat) else
  raise (QrValidationError "qr_malformed_tlv") when (negb (valid_utf8 value_bytes)) else
  Ok (mk_TlvObject object_id value_bytes (str_take (4 + length) data), str_drop (4 + length) data).

Fixpoint walk_loop (fuel : nat) (reject_duplicates : bool) (seen : list Z) (data : string) :
    res qr_error (list TlvObject) :=
  match data with
  | EmptyString => Ok []
  | _ =>
      match fuel with
      | O => Err QrDiverged
      | S fuel =>
          let* (obj, rest) := read_object data in
          raise (QrValidationError "qr_duplicate_id")
            when (reject_duplicates && bool_decide (object_id obj ∈ seen)) else
          let* objects := walk_loop fuel reject_duplicates (object_id obj :: seen) rest in
          Ok (obj :: objects)
      end
  end.

(** Each turn consumes bytes, so the length of the data is fuel enough. *)
Definition walk (data : string) (reject_duplicates : bool) : res qr_error (list TlvObject) :=
  walk_loop (String.length data) reject_duplicates [] data.

(** The dict of a template's sub-objects, in order. *)
Definition walk_template (value : string) : res qr_error (list (Z * string)) :=
  let* objects := walk value true in
  Ok ((fun o => (object_id o, tlv_value o)) <$> objects).

(** * Reading and writing one object *)

Lemma encode_object_inv id value s :
  encode_object id value = Ok s ->
  0 <= id <= 99 /\ (0 < String.length value <= 99)%nat /\
  s = zpad 2 id +:+ zpad 2 (Z.of_nat (String.length value)) +:+ value.
Proof.
  unfold encode_object, _MAX_VALUE_BYTES. intros He. inv_res. bool_prop.
  apply Nat.eqb_neq in G0. apply Nat.ltb_ge in G1. split_and!; try done; lia.
Qed.

Lemma zpad2 z : 0 <= z <= 99 ->
  String.length (zpad 2 z) = 2%nat /\ all_chars is_digit (zpad 2 z) = true /\
  int_of_digits (zpad 2 z) = z.
Proof.
  intros Hz. split_and!; [apply zpad_length; simpl; lia|apply zpad_digits; lia|].
  apply int_of_digits_zpad. lia.
Qed.

Lemma read_encoded id value s rest :
  encode_object id value = Ok s -> valid_utf8 value = true ->
  read_object (s +:+ rest) = Ok (mk_TlvObject id value s, rest).
Proof.
  intros (Hid & Hlen & ->)%encode_object_inv Hu.
  destruct (zpad2 id Hid) as (Hl1 & Hd1 & Hi1).
  destruct (zpad2 (Z.of_nat (String.length value)) ltac:(lia)) as (Hl2 & Hd2 & Hi2).
  set (a := zpad 2 id) in *. set (b := zpad 2 (Z.of_nat (String.length value))) in *. clearbody a b.
  unfold read_object.
  assert (str_take 2 ((a +:+ b +:+ value) +:+ rest) = a) as ->.
  { rewrite str_app_assoc, <- Hl1. apply str_take_app. }
  assert (str_drop 2 ((a +:+ b +:+ value) +:+ rest) = b +:+ value +:+ rest) as ->.
  { rewrite !str_app_assoc, <- Hl1. apply str_drop_app. }
  assert (str_take 2 (b +:+ value +:+ rest) = b) as -> by (rewrite <- Hl2; apply str_take_app).
  rewrite Hi1, Hi2, Nat2Z.id. unfold _is_ascii_digits. rewrite Hl1, Hl2, Hd1, Hd2. cbn [Nat.eqb andb negb orb].
  assert (H4 : (4 + String.length value)%nat = String.length (a +:+ b +:+ value))
    by (rewrite !str_length_app; lia).
  assert (str_drop 4 ((a +:+ b +:+ value) +:+ rest) = value +:+ rest) as ->.
  { replace 4%nat with (String.length (a +:+ b)) by (rewrite str_length_app; lia).
    rewrite <- (str_app_assoc a b value), str_app_assoc. apply str_drop_app. }
  rewrite str_take_app, Nat.eqb_refl, Hu, H4, str_take_app, str_drop_app.
  destruct (String.length value =? 0)%nat eqn:E0; [apply Nat.eqb_eq in E0; lia|]. done.
Qed.

Definition digit_chars : list Ascii.ascii :=
  ["0"; "1"; "2"; "3"; "4"; "5"; "6"; "7"; "8"; "9"]%char.

Lemma is_digit_char c : is_digit c = true -> c ∈ digit_chars.
Proof.
  intros Hc. apply (bool_decide_eq_true_1 (c ∈ digit_chars)).
  destruct c as [[] [] [] [] [] [] [] []]; vm_compute in Hc |- *; try discriminate Hc; reflexivity.
Qed.

Lemma two_digits chunk :
  _is_ascii_digits chunk = true ->
  zpad 2 (int_of_digits chunk) = chunk /\ 0 <= int_of_digits chunk <= 99 /\ String.length chunk = 2%nat.
Proof.
  unfold _is_ascii_digits. intros [Hl%Nat.eqb_eq Hd]%andb_true_iff.
  destruct chunk as [|a [|b [|]]]; try discriminate Hl. cbn [all_chars] in Hd. bool_prop.
  assert (Hall : forallb (fun a => forallb (fun b => let s := String a (String b "") in
    String.eqb (zpad 2 (int_of_digits s)) s && (0 <=? int_of_digits s) && (int_of_digits s <=? 99))
    digit_chars) digit_chars = true) by (vm_compute; reflexivity).
  rewrite List.forallb_forall in Hall.
  assert (Ha : In a digit_chars) by (by apply list_elem_of_In, is_digit_char).
  specialize (Hall a Ha). rewrite List.forallb_forall in Hall.
  assert (Hb : In b digit_chars) by (by apply list_elem_of_In, is_digit_char).
  specialize (Hall b Hb). simpl in Hall. bool_prop. done.
Qed.

#[local] Arguments str_take : simpl never.
#[local] Arguments str_drop : simpl never.

Lemma read_object_inv data o rest :
  read_object data = Ok (o, rest) ->
  encode_object (object_id o) (tlv_value o) = Ok (tlv_raw o) /\ data = tlv_raw o +:+ rest /\
  valid_utf8 (tlv_value o) = true /\ (String.length rest < String.length data)%nat.
Proof.
  unfold read_object. intros Hr. inv_res. cbn [object_id tlv_value tlv_raw]. bool_prop.
  match goal with Hi : _is_ascii_digits (str_take 2 data) = true |- _ =>
    destruct (two_digits _ Hi) as (Hz1 & Hb1 & Hl1) end.
  match goal with Hi : _is_ascii_digits (str_take 2 (str_drop 2 data)) = true |- _ =>
    destruct (two_digits _ Hi) as (Hz2 & Hb2 & Hl2) end.
  match goal with Hi : (_ =? _)%nat = true |- _ => apply Nat.eqb_eq in Hi as Hlen end.
  match goal with Hi : (_ =? _)%nat = false |- _ => apply Nat.eqb_neq in Hi as Hpos end.
  set (n := Z.to_nat (int_of_digits (str_take 2 (str_drop 2 data)))) in *.
  assert (Hn : Z.of_nat n = int_of_digits (str_take 2 (str_drop 2 data))) by (subst n; lia).
  split_and!.
  - unfold encode_object, _MAX_VALUE_BYTES. rewrite Hlen.
    rewrite (proj2 (Z.leb_le _ _) (proj1 Hb1)), (proj2 (Z.leb_le _ _) (proj2 Hb1)). cbn [andb negb].
    rewrite (proj2 (Nat.eqb_neq _ _)), (proj2 (Nat.ltb_ge _ _)) by lia.
    rewrite Hn, Hz1, Hz2. f_equal. change (S (S (S (S n)))) with (2 + (2 + n))%nat.
    by rewrite !str_take_add, str_drop_drop.
  - by rewrite str_take_drop.
  - done.
  - rewrite str_drop_length. pose proof (str_take_drop 2 data) as Hd.
    apply (f_equal String.length) in Hd. rewrite str_length_app, Hl1 in Hd. lia.
Qed.

(** * The walk *)

Lemma walk_sound fuel rej : forall seen data objs,
  walk_loop fuel rej seen data = Ok objs ->
  assemble ((fun o => (object_id o, tlv_value o)) <$> objs) = Ok data /\
  String.concat "" (tlv_raw <$> objs) = data /\
  Forall (fun o => valid_utf8 (tlv_value o) = true) objs /\
  (rej = true -> NoDup (object_id <$> objs) /\ forall x, x ∈ object_id <$> objs -> x ∉ seen).
Proof.
  induction fuel as [|fuel IH]; intros seen [|c data] objs Hw; cbn [walk_loop] in Hw;
    try (simplify_eq; split_and!; [done..|split; [constructor|by intros ? ?%not_elem_of_nil]]).
  - done.
  - inv_res. apply read_object_inv in E as (He & Hd & Hu & _).
    apply IH in E0 as (Ha & Hc & Hv & Hnd). csimpl.
    rewrite He. cbn [rbind]. rewrite Ha. cbn [rbind]. split_and!.
    + by rewrite Hd.
    + rewrite Hd, <- Hc. destruct (tlv_raw <$> a); [by rewrite str_app_nil|done].
    + by constructor.
    + intros ->. cbn [andb] in G. bool_prop. destruct (Hnd eq_refl) as [Hnd' Hseen]. split.
      * constructor; [|done]. intros Hin. apply (Hseen _ Hin). by left.
      * intros x [->|Hx]%elem_of_cons; [done|]. intros Hs. apply (Hseen x Hx). by right.
Qed.

Lemma walk_complete rej : forall l seen data fuel,
  assemble l = Ok data -> Forall (fun x => valid_utf8 x.2 = true) l ->
  (rej = true -> NoDup l.*1 /\ forall x, x ∈ l.*1 -> x ∉ seen) ->
  (String.length data <= fuel)%nat ->
  exists objs, walk_loop fuel rej seen data = Ok objs /\
    (fun o => (object_id o, tlv_value o)) <$> objs = l.
Proof.
  induction l as [|[id v] l IH]; intros seen data fuel Ha Hu Hnd Hf; cbn [assemble] in Ha.
  { simplify_eq. exists []. by destruct fuel. }
  inv_res. apply Forall_cons in Hu as [Hv Hu]. pose proof (encode_object_inv _ _ _ E) as (_ & Hlen & He).
  assert (Hl : String.length a = (4 + String.length v)%nat).
  { rewrite He, !str_length_app. destruct (encode_object_inv _ _ _ E) as (Hid & _ & _).
    rewrite (proj1 (zpad2 _ Hid)), (proj1 (zpad2 (Z.of_nat (String.length v)) ltac:(lia))). lia. }
  rewrite str_length_app in Hf. destruct fuel as [|fuel]; [lia|].
  destruct (IH (id :: seen) a0 fuel eq_refl Hu) as (objs & Hw & Hm); [|lia|].
  { intros Hr. destruct (Hnd Hr) as [Hnd' Hseen]. apply NoDup_cons in Hnd' as [Hnin Hnd'].
    split; [done|]. intros x Hx [->|Hs]%elem_of_cons; [done|]. apply (Hseen x); [by right|done]. }
  pose proof (read_encoded _ _ _ a0 E Hv) as Hr.
  destruct (a +:+ a0) as [|c r] eqn:Hd.
  { apply (f_equal String.length) in Hd. rewrite str_length_app, Hl in Hd. discriminate Hd. }
  cbn [walk_loop]. rewrite Hr. cbn [rbind object_id].
  assert (rej && bool_decide (id ∈ seen) = false) as ->.
  { destruct rej; [|done]. destruct (Hnd eq_refl) as [_ Hseen]. apply bool_decide_eq_false.
    apply Hseen. by left. }
  rewrite Hw. cbn [rbind]. eexists. split; [done|]. by rewrite <- Hm.
Qed.

Lemma walk_total fuel rej : forall seen data,
  (String.length data <= fuel)%nat -> walk_loop fuel rej seen data <> Err QrDiverged.
Proof.
  induction fuel as [|fuel IH]; intros seen [|c data] Hf; cbn [walk_loop]; try done; [simpl in Hf; lia|].
  destruct (read_object (String c data)) as [[o rest]|e] eqn:Hr; cbn [rbind].
  - apply read_object_inv in Hr as (_ & _ & _ & Hlt). case_match; [done|].
    specialize (IH (object_id o :: seen) rest ltac:(lia)). by destruct (walk_loop _ _ _ rest).
  - unfold read_object in Hr. intros [= ->]. repeat case_match; simplify_eq.
Qed.

(** The walk inverts the assembly.  A payload is read as the objects [l]
    exactly when assembling [l] gives that payload, every value is UTF-8 and,
    where duplicates are rejected, the ids are distinct; the raw pieces put
    together are the payload; and the walk always ends. *)
Theorem walk_inverts_assemble data rej :
  walk data rej <> Err QrDiverged /\
  (forall l, (exists objs, walk data rej = Ok objs /\
                (fun o => (object_id o, tlv_value o)) <$> objs = l) <->
     assemble l = Ok data /\ Forall (fun x => valid_utf8 x.2 = true) l /\
     (rej = true -> NoDup l.*1)) /\
  (forall objs, walk data rej = Ok objs -> String.concat "" (tlv_raw <$> objs) = data).
Proof.
  split; [by apply walk_total|]. split.
  - intros l. split.
    + intros (objs & Hw & <-). apply walk_sound in Hw as (Ha & _ & Hu & Hnd). split_and!; [done| |].
      * by rewrite Forall_fmap.
      * intros Hr. rewrite <- list_fmap_compose. by apply Hnd.
    + intros (Ha & Hu & Hnd). apply walk_complete; [done..| |done].
      intros Hr. split; [by apply Hnd|]. intros x _. by apply not_elem_of_nil.
  - intros objs Hw. by apply walk_sound in Hw as (_ & Hc & _).
Qed.

Example walk_example :
  walk "000201010211" true =
  Ok [mk_TlvObject 0 "01" "000201"; mk_TlvObject 1 "11" "010211"].
Proof. vm_compute. reflexivity. Qed.

Example walk_rejects :
  walk "00020100" true = Err (QrValidationError "qr_malformed_tlv") /\
  walk "000201000201" true = Err (QrValidationError "qr_duplicate_id") /\
  is_ok (walk "000201000201" false) = true.
Proof. vm_compute. auto. Qed.
