(* ===== verification/QrCrc.v ===== *)
(** CRC-16/CCITT-FALSE of a QR payload (qr/crc.py), over the UTF-8 bytes: a
    payload verifies exactly when it was produced by [append_crc], and no change
    of a single byte goes unnoticed. *)
From S2P Require Import Prelude.
Open Scope Z_scope.

Definition CRC_PREFIX : string := "6304".
Definition _POLY : Z := 0x1021.
Definition _INIT : Z := 0xFFFF.

(** [crc = ((crc << 1) ^ _POLY if crc & 0x8000 else crc << 1) & 0xFFFF] *)
Definition crc_bit (crc : Z) : Z :=
  Z.land (if negb (Z.land crc 0x8000 =? 0) then Z.lxor (Z.shiftl crc 1) _POLY else Z.shiftl crc 1)
    0xFFFF.

Definition byte_val (c : Ascii.ascii) : Z := Z.of_N (Ascii.N_of_ascii c).

(** The body of the loop over the bytes. *)
Definition crc_byte (crc : Z) (c : Ascii.ascii) : Z :=
  Nat.iter 8 crc_bit (Z.lxor crc (Z.shiftl (byte_val c) 8)).

Fixpoint crc_from (crc : Z) (data : string) : Z :=
  match data with
  | EmptyString => crc
  | String c rest => crc_from (crc_byte crc c) rest
  end.

Definition crc16_ccitt_false (data : string) : Z := crc_from _INIT data.

(** One uppercase hexadecimal digit, and [f"{n:04X}"] for a 16-bit [n]. *)
Definition hex_digit (n : Z) : Ascii.ascii :=
  Ascii.ascii_of_N (Z.to_N (if n <? 10 then n + 48 else n + 55)).
Definition hex4 (n : Z) : string :=
  String (hex_digit (n / 4096)) (String (hex_digit (n / 256 mod 16))
    (String (hex_digit (n / 16 mod 16)) (String (hex_digit (n mod 16)) ""))).

Definition append_crc (payload_without_crc : string) : string :=
  let base := payload_without_crc +:+ CRC_PREFIX in
  base +:+ hex4 (crc16_ccitt_false base).

(** Python slices code points; the two readings agree because the last eight
    must be ASCII for either to succeed. *)
Definition verify_crc (payload : string) : bool :=
  let n := String.length payload in
  if (n <? 8)%nat || negb (String.eqb (str_take 4 (str_drop (n - 8) payload)) CRC_PREFIX) then false
  else String.eqb (str_drop (n - 4) payload) (hex4 (crc16_ccitt_false (str_take (n - 4) payload))).

Example crc_check_value : crc16_ccitt_false "123456789" = 0x29B1.
Proof. vm_compute. reflexivity. Qed.

(** * Bits *)

Definition u16 (x : Z) : Prop := 0 <= x < 2 ^ 16.

Lemma u16_high x i : u16 x -> 16 <= i -> Z.testbit x i = false.
Proof.
  intros Hx Hi. rewrite <- (Z.mod_small x (2 ^ 16)) by done. by apply Z.mod_pow2_bits_high.
Qed.

Lemma u16_bits x : 0 <= x -> (forall i, 16 <= i -> Z.testbit x i = false) -> u16 x.
Proof.
  intros Hx Hhigh. split; [done|]. assert (x = x mod 2 ^ 16) as ->; [|apply Z.mod_pos_bound; lia].
  apply Z.bits_inj'. intros i Hi. destruct (Z.lt_ge_cases i 16).
  - by rewrite Z.mod_pow2_bits_low.
  - by rewrite Hhigh, Z.mod_pow2_bits_high by lia.
Qed.

Lemma u16_ext x y :
  u16 x -> u16 y -> (forall i, 0 <= i < 16 -> Z.testbit x i = Z.testbit y i) -> x = y.
Proof.
  intros Hx Hy Hi. apply Z.bits_inj'. intros i Hpos. destruct (Z.lt_ge_cases i 16); [by apply Hi|].
  by rewrite !u16_high.
Qed.

Lemma lxor_u16 x y : u16 x -> u16 y -> u16 (Z.lxor x y).
Proof.
  intros Hx Hy. apply u16_bits.
  - apply Z.lxor_nonneg. destruct Hx, Hy. split; lia.
  - intros i Hi. by rewrite Z.lxor_spec, !u16_high.
Qed.

Lemma land_top x : negb (Z.land x 0x8000 =? 0) = Z.testbit x 15.
Proof.
  assert (Hb : Z.testbit (Z.land x 0x8000) 15 = Z.testbit x 15)
    by (rewrite Z.land_spec; by rewrite andb_true_r).
  destruct (Z.eqb_spec (Z.land x 0x8000) 0) as [He|Hne]; cbn [negb].
  - rewrite He in Hb. by rewrite <- Hb, Z.testbit_0_l.
  - destruct (Z.testbit x 15) eqn:Ht; [done|exfalso]. apply Hne, Z.bits_inj'. intros i Hi.
    rewrite Z.land_spec, Z.testbit_0_l. change 0x8000 with (2 ^ 15).
    rewrite Z.pow2_bits_eqb by lia. destruct (Z.eqb_spec 15 i) as [<-|]; [by rewrite Ht|].
    by rewrite andb_false_r.
Qed.

Lemma crc_bit_spec x i : 0 <= i ->
  Z.testbit (crc_bit x) i =
  (i <? 16) && xorb (Z.testbit x (i - 1)) (Z.testbit x 15 && Z.testbit _POLY i).
Proof.
  intros Hi. unfold crc_bit. rewrite land_top, Z.land_spec, andb_comm.
  change 0xFFFF with (Z.ones 16). rewrite Z.testbit_ones_nonneg by lia. f_equal.
  destruct (Z.testbit x 15); [rewrite Z.lxor_spec|]; rewrite Z.shiftl_spec by done.
  - done.
  - by rewrite xorb_false_r.
Qed.

Lemma crc_bit_u16 x : u16 (crc_bit x).
Proof.
  unfold crc_bit. change 0xFFFF with (Z.ones 16). rewrite Z.land_ones by lia.
  apply Z.mod_pos_bound. lia.
Qed.

Lemma crc_bit_inj x y : u16 x -> u16 y -> crc_bit x = crc_bit y -> x = y.
Proof.
  intros Hx Hy He.
  assert (Hb : forall i, 0 <= i -> Z.testbit (crc_bit x) i = Z.testbit (crc_bit y) i)
    by (intros; by rewrite He).
  assert (H15 : Z.testbit x 15 = Z.testbit y 15).
  { specialize (Hb 0 ltac:(lia)). rewrite !crc_bit_spec in Hb by lia.
    change (Z.testbit _POLY 0) with true in Hb. change (0 <? 16) with true in Hb.
    by rewrite !(Z.testbit_neg_r _ (0 - 1)), !andb_true_r in Hb by lia. }
  apply u16_ext; [done..|]. intros i Hi. destruct (Z.eq_dec i 15) as [->|]; [done|].
  specialize (Hb (i + 1) ltac:(lia)). rewrite !crc_bit_spec in Hb by lia.
  rewrite (proj2 (Z.ltb_lt (i + 1) 16)), H15, Z.add_simpl_r in Hb by lia. cbn [andb] in Hb.
  by apply (f_equal (fun b => xorb b (Z.testbit y 15 && Z.testbit _POLY (i + 1)))) in Hb;
    rewrite !xorb_assoc, xorb_nilpotent, !xorb_false_r in Hb.
Qed.

Lemma byte_shift_u16 c : u16 (Z.shiftl (byte_val c) 8).
Proof.
  unfold byte_val. pose proof (Ascii.N_ascii_bounded c). rewrite Z.shiftl_mul_pow2 by lia.
  unfold u16. lia.
Qed.

Lemma iter_crc_bit_inj n x y :
  u16 x -> u16 y -> Nat.iter n crc_bit x = Nat.iter n crc_bit y -> x = y.
Proof.
  intros Hx Hy. induction n as [|n IH]; simpl; [done|]. intros He. apply IH.
  apply crc_bit_inj; [..|done]; destruct n; simpl; auto using crc_bit_u16.
Qed.

Lemma lxor_cancel_r x y z : Z.lxor x z = Z.lxor y z -> x = y.
Proof.
  intros He. apply (f_equal (fun w => Z.lxor w z)) in He.
  by rewrite !Z.lxor_assoc, Z.lxor_nilpotent, !Z.lxor_0_r in He.
Qed.

Lemma crc_byte_u16 crc c : u16 crc -> u16 (crc_byte crc c).
Proof. intros _. apply crc_bit_u16. Qed.

(** The register step loses nothing: neither the state nor the byte. *)
Lemma crc_byte_inj_state x y c : u16 x -> u16 y -> crc_byte x c = crc_byte y c -> x = y.
Proof.
  intros Hx Hy He. pose proof (byte_shift_u16 c) as Hc.
  apply iter_crc_bit_inj in He; [by eapply lxor_cancel_r|by apply lxor_u16..].
Qed.

Lemma crc_byte_inj_byte x c c' : u16 x -> crc_byte x c = crc_byte x c' -> c = c'.
Proof.
  intros Hx He. pose proof (byte_shift_u16 c) as Hc. pose proof (byte_shift_u16 c') as Hc'.
  apply iter_crc_bit_inj in He; [|by apply lxor_u16..].
  rewrite !(Z.lxor_comm x) in He. apply lxor_cancel_r in He.
  rewrite !Z.shiftl_mul_pow2 in He by lia. unfold byte_val in He.
  assert (Ascii.N_of_ascii c = Ascii.N_of_ascii c') as Hn by lia.
  by rewrite <- (Ascii.ascii_N_embedding c), Hn, Ascii.ascii_N_embedding.
Qed.

Lemma crc_from_u16 data : forall crc, u16 crc -> u16 (crc_from crc data).
Proof. induction data; intros crc Hc; simpl; auto using crc_byte_u16. Qed.

Lemma crc_from_inj data : forall x y, u16 x -> u16 y -> crc_from x data = crc_from y data -> x = y.
Proof.
  induction data as [|c data IH]; intros x y Hx Hy He; simpl in He; [done|].
  apply IH in He; auto using crc_byte_u16. by eapply crc_byte_inj_state.
Qed.

Lemma crc_from_app a b : forall crc, crc_from crc (a +:+ b) = crc_from (crc_from crc a) b.
Proof. induction a; intros crc; simpl; auto. Qed.

Lemma init_u16 : u16 _INIT.
Proof. unfold u16, _INIT. lia. Qed.

(** Two texts that differ in one byte have different checksums. *)
Lemma crc_one_byte a c c' b :
  crc16_ccitt_false (a +:+ String c b) = crc16_ccitt_false (a +:+ String c' b) -> c = c'.
Proof.
  unfold crc16_ccitt_false. rewrite !crc_from_app. simpl.
  pose proof (crc_from_u16 a _ init_u16) as Hu. intros He.
  apply crc_from_inj in He; [|by apply crc_byte_u16..]. by eapply crc_byte_inj_byte.
Qed.

(** * Verification *)

Lemma hex_digit_inj x y : 0 <= x < 16 -> 0 <= y < 16 -> hex_digit x = hex_digit y -> x = y.
Proof.
  intros Hx Hy He. unfold hex_digit in He. apply (f_equal Ascii.N_of_ascii) in He.
  rewrite !Ascii.N_ascii_embedding in He; [|destruct (y <? 10); lia|destruct (x <? 10); lia].
  destruct (Z.ltb_spec x 10), (Z.ltb_spec y 10); lia.
Qed.

Lemma hex4_inj x y : u16 x -> u16 y -> hex4 x = hex4 y -> x = y.
Proof.
  unfold u16. intros Hx Hy He. unfold hex4 in He. injection He as H1 H2 H3 H4.
  apply hex_digit_inj in H1, H2, H3, H4; try lia.
Qed.

Lemma append_crc_length body : String.length (append_crc body) = (String.length body + 8)%nat.
Proof. unfold append_crc. rewrite !str_length_app. simpl. lia. Qed.

Lemma verify_crc_split p :
  verify_crc p = true ->
  (8 <= String.length p)%nat /\
  str_take 4 (str_drop (String.length p - 8) p) = CRC_PREFIX /\
  str_drop (String.length p - 4) p = hex4 (crc16_ccitt_false (str_take (String.length p - 4) p)).
Proof.
  unfold verify_crc. intros Hv. destruct (_ || _) eqn:Hg; [done|]. bool_prop.
  apply Nat.ltb_ge in H. done.
Qed.

Lemma verify_append body : verify_crc (append_crc body) = true.
Proof.
  unfold verify_crc. rewrite append_crc_length. unfold append_crc.
  set (h := hex4 (crc16_ccitt_false (body +:+ CRC_PREFIX))).
  replace (String.length body + 8 - 8)%nat with (String.length body) by lia.
  replace (String.length body + 8 - 4)%nat with (String.length (body +:+ CRC_PREFIX))
    by (rewrite str_length_app; simpl; lia).
  assert (str_take 4 (str_drop (String.length body) ((body +:+ CRC_PREFIX) +:+ h)) = CRC_PREFIX) as ->.
  { rewrite str_app_assoc, str_drop_app. apply (str_take_app CRC_PREFIX). }
  rewrite str_take_app, str_drop_app, !String.eqb_refl.
  rewrite (proj2 (Nat.ltb_ge _ _)) by lia. done.
Qed.

(** A payload verifies exactly when it is a body followed by the checksum
    object [append_crc] writes. *)
Theorem verify_crc_iff_appended p :
  verify_crc p = true <-> exists body, p = append_crc body.
Proof.
  split.
  - intros (Hn & Hpre & Hhex)%verify_crc_split. exists (str_take (String.length p - 8) p).
    unfold append_crc. rewrite <- Hpre, <- str_take_add.
    replace (String.length p - 8 + 4)%nat with (String.length p - 4)%nat by lia.
    by rewrite <- Hhex, str_take_drop.
  - intros [body ->]. apply verify_append.
Qed.

(** No change of one byte goes unnoticed: if a payload verifies, the payload
    with any one byte replaced by another does not, wherever the byte is (the
    body, the object header or the checksum itself). *)
Lemma verify_crc_change x c c' y :
  verify_crc (x +:+ String c y) = true -> c <> c' -> verify_crc (x +:+ String c' y) = false.
Proof.
  intros Hv Hne. apply not_true_iff_false. intros Hv'. apply Hne. clear Hne.
  apply verify_crc_split in Hv as (Hn & _ & Hh), Hv' as (_ & _ & Hh').
  rewrite !str_length_app in *. cbn [String.length] in *.
  set (k := (String.length x + S (String.length y) - 4)%nat) in *.
  destruct (Nat.le_gt_cases k (String.length x)) as [Hk|Hk].
  - rewrite (str_take_app_le k x (String c y)) in Hh by done.
    rewrite (str_take_app_le k x (String c' y)) in Hh' by done.
    assert (Heq : x +:+ String c y = x +:+ String c' y).
    { rewrite <- (str_take_drop k (x +:+ String c y)), <- (str_take_drop k (x +:+ String c' y)).
      by rewrite Hh, Hh', !str_take_app_le by done. }
    apply str_app_inj_len in Heq as [_ Heq]; [|done]. by injection Heq.
  - rewrite str_drop_app_ge, str_take_app_ge in Hh, Hh' by lia.
    destruct (k - String.length x)%nat as [|m] eqn:Hm; [lia|].
    cbn [str_drop str_take] in Hh, Hh'. rewrite Hh in Hh'.
    apply hex4_inj, crc_one_byte in Hh'; [done|apply crc_from_u16, init_u16..].
Qed.
