(* ===== verification/QrText.v ===== *)
(** Text of a QR payload: code points, [str.strip] and the grapheme-boundary
    truncation of qr/text.py.  A [str] is its UTF-8 bytes; [chars] splits it into
    code points, each kept as the bytes that encode it. *)
From S2P Require Import Prelude QrTlv.
Open Scope Z_scope.

(** The Unicode character database that the interpreter carries: [combining] is
    [unicodedata.category(c) in {"Mn", "Mc", "Me"}] and [upper] is [str.upper]. *)
Class UnicodeData : Type := {
  combining : string -> bool;
  upper : string -> string;
}.

Definition bytes (l : list N) : string :=
  foldr (fun n s => String (Ascii.ascii_of_N n) s) EmptyString l.

(** [str.isspace] of one code point. *)
Definition is_space (c : string) : bool :=
  match c with
  | String a EmptyString => byte_in 9 13 a || byte_in 28 32 a
  | String a (String b EmptyString) =>
      byte_in 194 194 a && (byte_in 133 133 b || byte_in 160 160 b)
  | String a (String b (String d EmptyString)) =>
      (byte_in 225 225 a && byte_in 154 154 b && byte_in 128 128 d) ||
      (byte_in 226 226 a && byte_in 128 128 b &&
         (byte_in 128 138 d || byte_in 168 169 d || byte_in 175 175 d)) ||
      (byte_in 226 226 a && byte_in 129 129 b && byte_in 159 159 d) ||
      (byte_in 227 227 a && byte_in 128 128 b && byte_in 128 128 d)
  | _ => false
  end.

Fixpoint lstrip (l : list string) : list string :=
  match l with [] => [] | c :: r => if is_space c then lstrip r else l end.

Definition rstrip (l : list string) : list string := reverse (lstrip (reverse l)).

(** [s.strip()] *)
Definition strip (s : string) : string := unchars (rstrip (lstrip (chars s))).

Definition _VIRAMA : string := bytes [224; 167; 141]%N.
Definition _JOINERS : list string := [bytes [226; 128; 140]; bytes [226; 128; 141]]%N.

Section Text.
Context `{UnicodeData}.

Definition _starts_new_cluster (text : list string) (index : nat) : bool :=
  let char := nth index text ""%string in
  let previous := nth (index - 1) text ""%string in
  if combining char then false
  else if str_in char _JOINERS then false
  else if String.eqb previous _VIRAMA || str_in previous _JOINERS then false
  else true.

Definition measure (byte_budget : bool) (candidate : list string) : Z :=
  if byte_budget then Z.of_nat (String.length (unchars candidate))
  else Z.of_nat (length candidate).

(** The loop that moves the cut to the left. *)
Fixpoint cut_loop (text : list string) (max_units : Z) (byte_budget : bool) (cut : nat) : string :=
  match cut with
  | O => ""
  | S cut' =>
      if ((cut =? length text)%nat || _starts_new_cluster text cut) &&
         (measure byte_budget (take cut text) <=? max_units)
      then unchars (rstrip (take cut text))
      else cut_loop text max_units byte_budget cut'
  end.

Definition truncate_graphemes (text : string) (max_units : Z) (byte_budget : bool) : string :=
  if max_units <=? 0 then ""
  else if measure byte_budget (chars text) <=? max_units then text
  else cut_loop (chars text) max_units byte_budget (length (chars text)).
End Text.

(** * Code points *)

Lemma unchars_chars s : unchars (chars s) = s.
Proof.
  induction s as [|c s IH]; [done|]. cbn [chars].
  destruct (chars s) as [|[|d t] rest] eqn:He; [| |destruct (cont d)];
    cbn [unchars String.append] in *; by rewrite <- IH.
Qed.

Lemma unchars_app l r : unchars (l ++ r) = unchars l +:+ unchars r.
Proof. induction l as [|c l IH]; [done|]. cbn [app unchars]. by rewrite IH, str_app_assoc. Qed.

Definition ascii_char (c : Ascii.ascii) : bool := byte_in 0 127 c.

Lemma ascii_char_not_cont c : ascii_char c = true -> cont c = false.
Proof. by destruct c as [[] [] [] [] [] [] [] []]; vm_compute. Qed.

Lemma chars_cons c s :
  chars (String c s) =
  match s, chars s with
  | String d _, h :: rest => if cont d then String c h :: rest else String c "" :: chars s
  | _, _ => [String c ""]
  end.
Proof.
  destruct s as [|d s]; [done|]. cbn [chars].
  destruct (chars s) as [|[|e t] rest]; [| |destruct (cont e)]; by destruct (cont d).
Qed.

(** An ASCII text has one code point per byte. *)
Lemma chars_ascii s : all_chars ascii_char s = true -> py_len s = String.length s.
Proof.
  unfold py_len. induction s as [|c s IH]; intros Hs; [done|]. cbn [all_chars] in Hs. bool_prop.
  specialize (IH H0). rewrite chars_cons. destruct s as [|d s]; [done|].
  cbn [all_chars] in H0. bool_prop. rewrite (ascii_char_not_cont d) by done.
  destruct (chars (String d s)) as [|h rest]; cbn [length String.length] in *; lia.
Qed.

(** One code point: a lead byte and the bytes that continue it, which decode
    whatever follows. *)
Definition code_point (a : Ascii.ascii) (t : string) : Prop :=
  cont a = false /\ all_chars cont t = true /\
  forall r, valid_utf8 (String a t +:+ r) = valid_utf8 r.

Lemma second_ok_cont a b : second_ok a b = true -> cont b = true.
Proof.
  unfold second_ok, cont, byte_in. intros Hs.
  repeat case_match; bool_prop; apply andb_true_iff; rewrite !N.leb_le in *; lia.
Qed.

Lemma lead_not_cont lo hi a : byte_in lo hi a = true -> (192 <= lo \/ hi <= 127)%N -> cont a = false.
Proof.
  unfold cont, byte_in. intros Hb Hl. bool_prop. rewrite !N.leb_le in *.
  apply andb_false_iff. rewrite !N.leb_gt. lia.
Qed.

(** A valid text is a sequence of code points. *)
Lemma utf8_ind (P : string -> Prop) :
  P ""%string ->
  (forall a t r, code_point a t -> valid_utf8 r = true -> P r -> P (String a t +:+ r)) ->
  forall s, valid_utf8 s = true -> P s.
Proof.
  intros H0 Hs s. remember (String.length s) as n eqn:Hn.
  revert s Hn. induction (lt_wf n) as [n _ IH]. intros [|a r] -> Hv; [done|].
  assert (Hgo : forall t r', String a r = String a t +:+ r' -> code_point a t ->
            valid_utf8 r' = true -> P (String a r)).
  { intros t r' He Hc Hr. rewrite He. apply Hs; [done..|]. apply (IH (String.length r')); [|done..].
    rewrite He, str_length_app. simpl. lia. }
  cbn [valid_utf8] in Hv. destruct (byte_in 0 127 a) eqn:H1.
  { apply (Hgo ""%string r); [done| |done]. split_and!; [by eapply lead_not_cont; [|right]|done|].
    intros r'. cbn. by rewrite H1. }
  destruct (byte_in 194 223 a) eqn:H2.
  { destruct r as [|b r]; [done|]. apply andb_true_iff in Hv as [Hb Hr].
    apply (Hgo (String b "") r); [done| |done]. split_and!.
    - by eapply lead_not_cont; [|left].
    - cbn. by rewrite Hb.
    - intros r'. cbn. by rewrite H1, H2, Hb. }
  destruct (byte_in 224 239 a) eqn:H3.
  { destruct r as [|b [|c r]]; [done..|]. apply andb_true_iff in Hv as [[Hb Hc]%andb_true_iff Hr].
    apply (Hgo (String b (String c "")) r); [done| |done]. split_and!.
    - by eapply lead_not_cont; [|left].
    - cbn. by rewrite (second_ok_cont _ _ Hb), Hc.
    - intros r'. cbn. by rewrite H1, H2, H3, Hb, Hc. }
  destruct (byte_in 240 244 a) eqn:H4; [|done]. destruct r as [|b [|c [|d r]]]; [done..|].
  apply andb_true_iff in Hv as [[[Hb Hc]%andb_true_iff Hd]%andb_true_iff Hr].
  apply (Hgo (String b (String c (String d ""))) r); [done| |done]. split_and!.
  - by eapply lead_not_cont; [|left].
  - cbn. by rewrite (second_ok_cont _ _ Hb), Hc, Hd.
  - intros r'. cbn. by rewrite H1, H2, H3, H4, Hb, Hc, Hd.
Qed.

Lemma valid_utf8_app a b : valid_utf8 a = true -> valid_utf8 b = true -> valid_utf8 (a +:+ b) = true.
Proof.
  intros Ha Hb. revert a Ha. apply utf8_ind; [done|]. intros a t r (_ & _ & Hc) _ IH.
  by rewrite str_app_assoc, Hc.
Qed.

Lemma utf8_head c s : valid_utf8 (String c s) = true -> cont c = false.
Proof.
  intros Hv.
  assert (Hg : forall s', valid_utf8 s' = true ->
    match s' with String c' _ => cont c' = false | _ => True end); [|by apply (Hg _ Hv)].
  apply utf8_ind; [done|]. by intros a t r (Ha & _) _ _.
Qed.

Lemma chars_code_point a t r :
  all_chars cont t = true -> valid_utf8 r = true -> chars (String a t +:+ r) = String a t :: chars r.
Proof.
  intros Ht Hr. revert a. induction t as [|b t IH]; intros a.
  - change (String a "" +:+ r) with (String a r). rewrite chars_cons. destruct r as [|c r]; [done|].
    rewrite (utf8_head c r Hr). by destruct (chars (String c r)) eqn:He; [destruct (chars_cons c r)|].
  - cbn [all_chars] in Ht. bool_prop.
    change (String a (String b t) +:+ r) with (String a (String b t +:+ r)).
    specialize (IH H0 b). rewrite chars_cons. change (String b t +:+ r) with (String b (t +:+ r)) in *.
    cbn beta iota. by rewrite IH, H.
Qed.

(** The code points of a valid text are valid, and so is every text made of them. *)
Lemma chars_valid s : valid_utf8 s = true -> Forall (fun c => valid_utf8 c = true) (chars s).
Proof.
  revert s. apply utf8_ind; [constructor|]. intros a t r (_ & Ht & Hc) Hr IH.
  rewrite chars_code_point by done. constructor; [|done].
  specialize (Hc ""%string). by rewrite str_app_nil in Hc.
Qed.

Lemma unchars_valid l : Forall (fun c => valid_utf8 c = true) l -> valid_utf8 (unchars l) = true.
Proof. induction 1; [done|]. by apply valid_utf8_app. Qed.

Lemma lstrip_prefix l : exists pre, l = pre ++ lstrip l.
Proof.
  induction l as [|c l [pre IH]]; [by exists []|]. cbn [lstrip]. destruct (is_space c); [|by exists []].
  exists (c :: pre). cbn. by rewrite <- IH.
Qed.

Lemma rstrip_suffix l : exists post, l = rstrip l ++ post.
Proof.
  unfold rstrip. destruct (lstrip_prefix (reverse l)) as [pre Hp]. exists (reverse pre).
  by rewrite <- reverse_app, <- Hp, reverse_involutive.
Qed.

Lemma strip_valid s : valid_utf8 s = true -> valid_utf8 (strip s) = true.
Proof.
  intros Hv%chars_valid. apply unchars_valid.
  destruct (lstrip_prefix (chars s)) as [pre Hp], (rstrip_suffix (lstrip (chars s))) as [post Hq].
  rewrite Hp, Hq in Hv. by apply Forall_app in Hv as [_ [? _]%Forall_app].
Qed.

Section TextFacts.
Context `{UnicodeData}.

(** The loop stops at a legal cut, the largest that fits. *)
Lemma cut_loop_spec text max byte cut :
  cut_loop text max byte cut = ""%string \/
  exists k, (0 < k <= cut)%nat /\ (k = length text \/ _starts_new_cluster text k = true) /\
    measure byte (take k text) <= max /\
    cut_loop text max byte cut = unchars (rstrip (take k text)).
Proof.
  induction cut as [|cut IH]; [by left|]. cbn [cut_loop]. destruct (_ && _) eqn:Hc.
  - right. exists (S cut). apply andb_true_iff in Hc as [Hs Hm%Z.leb_le]. split_and!; [lia..| |done|done].
    apply orb_true_iff in Hs as [Hs%Nat.eqb_eq|Hs]; auto.
  - destruct IH as [IH|(k & Hk & ?)]; [by left|]. right. exists k. split; [lia|done].
Qed.

Lemma measure_app byte a b : measure byte a <= measure byte (a ++ b).
Proof. unfold measure. destruct byte; rewrite ?unchars_app, ?str_length_app, ?length_app; lia. Qed.

(** What truncation returns: at most the budget, and a prefix of the text that
    ends at a cluster boundary (less trailing white space). *)
Lemma truncate_spec text max byte :
  exists kept cut,
    truncate_graphemes text max byte = unchars kept /\
    measure byte kept <= Z.max 0 max /\
    (exists spaces, take cut (chars text) = kept ++ spaces) /\
    (cut = 0%nat \/ (length (chars text) <= cut)%nat \/ _starts_new_cluster (chars text) cut = true).
Proof.
  unfold truncate_graphemes. case_match eqn:Hm.
  { exists [], 0%nat. split_and!; [done|destruct byte; simpl; lia|by exists []|auto]. }
  case_match eqn:Hfit.
  { exists (chars text), (length (chars text)). apply Z.leb_le in Hfit.
    split_and!; [by rewrite unchars_chars|lia|exists []; by rewrite app_nil_r, firstn_all|auto]. }
  destruct (cut_loop_spec (chars text) max byte (length (chars text))) as [->|(k & Hk & Hb & Hf & ->)].
  { exists [], 0%nat. split_and!; [done|destruct byte; simpl; lia|by exists []|auto]. }
  destruct (rstrip_suffix (take k (chars text))) as [post Hp]. exists (rstrip (take k (chars text))), k.
  split_and!; [done| |by exists post|].
  - pose proof (measure_app byte (rstrip (take k (chars text))) post) as Hle. rewrite <- Hp in Hle. lia.
  - destruct Hb as [->|Hb]; auto.
Qed.

Lemma truncate_valid text max byte :
  valid_utf8 text = true -> valid_utf8 (truncate_graphemes text max byte) = true.
Proof.
  intros Hv%chars_valid. destruct (truncate_spec text max byte) as (kept & cut & -> & _ & [sp Hs] & _).
  apply unchars_valid. rewrite <- (take_drop cut (chars text)), Hs in Hv.
  by apply Forall_app in Hv as [[? _]%Forall_app _].
Qed.
End TextFacts.
