(* ===== verification/RateLimit.v ===== *)
(** The gateway's fixed-window rate limiter (gateway/ratelimit.py).  The counter
    store is an interface; [InMemoryRateLimitStore] is its instance here. *)
From S2P Require Import Prelude QrText.
Open Scope Z_scope.

(** [RateLimitConfigError] *)
Inductive rl_error : Type := RateLimitConfigError.

(** [RateLimitStore]: one operation, which may fail. *)
Class RateLimitStore (S : Type) : Type := {
  increment : string -> Z -> S -> res unit Z * S;
}.

(** The tier table: route group, then principal class. *)
Definition RATE_LIMIT_TIERS : list (string * list (string * Z)) :=
  [("payment_write", [("merchant_live", 300); ("merchant_test", 60); ("customer", 60); ("operator", 600)]);
   ("payment_read", [("merchant_live", 600); ("merchant_test", 120); ("customer", 120); ("operator", 1200)]);
   ("refund_write", [("merchant_live", 60); ("merchant_test", 20); ("customer", 10); ("operator", 120)]);
   ("webhook_write", [("merchant_live", 30); ("merchant_test", 10); ("operator", 60)]);
   ("auth", [("customer", 10); ("operator", 60)]);
   ("admin", [("operator", 120)])]%string.

Definition _DEFAULT_PRINCIPAL_LIMIT : Z := 60.
Definition _WINDOW_SECONDS : Z := 60.

(** * The in-memory store *)

Abbreviation Buckets := (gmap (string * Z) Z).

(** Deletes the windows of [key] before [start]. *)
Definition prune (key : string) (start : Z) (b : gmap (string * Z) Z) : gmap (string * Z) Z :=
  filter (fun kv => ~ (kv.1.1 = key /\ kv.1.2 < start)) b.

Definition increment_bucket (key : string) (start : Z) (b : Buckets) : res unit Z * Buckets :=
  let count := default 0 (b !! (key, start)) + 1 in
  let b := <[(key, start) := count]> b in
  (Ok count, prune key start b).

#[export] Instance InMemoryRateLimitStore : RateLimitStore Buckets := {| increment := increment_bucket |}.

(** * The check *)

Record RateLimitResult : Type := mk_RateLimitResult {
  allowed : bool;
  would_block : bool;
  remaining : Z;
  reset_at_ms : Z;
  rl_count : Z;
  degraded : bool;
}.

Definition window_start_ms (now_ms window_ms : Z) : Z := now_ms / window_ms * window_ms.

Section Check.
Context {S : Type} `{RateLimitStore S}.

Definition check (key : string) (max_requests window_seconds now_ms : Z) (fail_closed shadow : bool) (s : S) :
    res rl_error RateLimitResult * S :=
  if max_requests <=? 0 then (Err RateLimitConfigError, s)
  else if window_seconds <=? 0 then (Err RateLimitConfigError, s)
  else
    let window_ms := window_seconds * 1000 in
    let start := window_start_ms now_ms window_ms in
    let reset_at := start + window_ms in
    match increment key start s with
    | (Err _, s) =>
        if shadow || negb fail_closed
        then (Ok (mk_RateLimitResult true false (Z.max 0 (max_requests - 1)) reset_at 1 true), s)
        else (Ok (mk_RateLimitResult false true 0 reset_at (max_requests + 1) true), s)
    | (Ok count, s) =>
        let would_block := max_requests <? count in
        (Ok (mk_RateLimitResult (if shadow then true else negb would_block) would_block
               (Z.max 0 (max_requests - count)) reset_at count false), s)
    end.

(** * The limiter *)

Fixpoint sget {A} (key : string) (l : list (string * A)) : option A :=
  match l with
  | [] => None
  | (k, v) :: r => if String.eqb k key then Some v else sget key r
  end.

Definition client_ip_from_headers (headers : list (string * string)) : option string :=
  match sget "x-real-ip" headers with
  | None => None
  | Some raw => let trimmed := strip raw in if truthy trimmed then Some trimmed else None
  end.

Record RateLimiter : Type := mk_RateLimiter {
  rl_shadow : bool;
  rl_fail_open : bool;
  public_ip_limit : Z;
  rl_tiers : list (string * list (string * Z));
}.

Definition rate_limiter (mode : string) (fail_open : bool) (ip_limit : Z)
    (tiers : list (string * list (string * Z))) : res rl_error RateLimiter :=
  raise RateLimitConfigError when (negb (str_in mode ["enforce"; "shadow"])) else
  Ok (mk_RateLimiter (String.eqb mode "shadow") fail_open ip_limit tiers).

Definition principal_class (kind : string) (key_env : option string) : string :=
  if String.eqb kind "merchant_key"
  then if bool_decide (key_env = Some "test"%string) then "merchant_test" else "merchant_live"
  else kind.

Definition limit_for (l : RateLimiter) (route_group principal : string) : Z :=
  default _DEFAULT_PRINCIPAL_LIMIT (sget principal (default [] (sget route_group (rl_tiers l)))).

Definition check_principal (l : RateLimiter) (rate_key route_group principal : string) (now_ms : Z) (s : S) :
    res rl_error (RateLimitResult * Z) * S :=
  let limit := limit_for l route_group principal in
  match check ("p:" +:+ rate_key +:+ ":" +:+ route_group) limit _WINDOW_SECONDS now_ms
          (negb (rl_fail_open l)) (rl_shadow l) s with
  | (Ok r, s) => (Ok (r, limit), s)
  | (Err e, s) => (Err e, s)
  end.

Definition check_ip (l : RateLimiter) (ip_hash route_group : string) (limit : option Z) (now_ms : Z) (s : S) :
    res rl_error (RateLimitResult * Z) * S :=
  let effective := default (public_ip_limit l) limit in
  match check ("ip:" +:+ ip_hash +:+ ":" +:+ route_group) effective _WINDOW_SECONDS now_ms
          (negb (rl_fail_open l)) (rl_shadow l) s with
  | (Ok r, s) => (Ok (r, effective), s)
  | (Err e, s) => (Err e, s)
  end.
End Check.

(** * Runs of checks *)

(** A request: its key and the time of the check. *)
Abbreviation request := (string * Z)%type.

Section Runs.
Context (max_requests window_seconds : Z).

Definition window_of (now : Z) : Z := window_start_ms now (window_seconds * 1000).

(** The checks of the requests, in enforce mode, and the results. *)
Fixpoint run_checks (reqs : list request) (b : Buckets) : list (request * bool) * Buckets :=
  match reqs with
  | [] => ([], b)
  | (k, now) :: rest =>
      let '(r, b) := check k max_requests window_seconds now true false b in
      let ok := match r with Ok r => allowed r | Err _ => false end in
      let '(out, b) := run_checks rest b in
      (((k, now), ok) :: out, b)
  end.

Definition in_window (k : string) (w : Z) (r : request) : bool := String.eqb r.1 k && (window_of r.2 =? w).

Definition requests_in (k : string) (w : Z) (reqs : list request) : Z :=
  sumZ (fun r => if in_window k w r then 1 else 0) reqs.
Definition allowed_in (k : string) (w : Z) (out : list (request * bool)) : Z :=
  sumZ (fun x => if in_window k w x.1 && x.2 then 1 else 0) out.

(** The clock does not run backwards between two requests of the same key. *)
Fixpoint monotone (reqs : list request) : bool :=
  match reqs with
  | [] => true
  | r :: rest => List.forallb (fun r' => negb (String.eqb r.1 r'.1) || (r.2 <=? r'.2)) rest && monotone rest
  end.

Context (Hmax : 0 < max_requests) (Hwin : 0 < window_seconds).

Lemma window_of_mono a b : a <= b -> window_of a <= window_of b.
Proof. intros Hab. unfold window_of, window_start_ms. apply Z.mul_le_mono_nonneg_r; [lia|]. apply Z.div_le_mono; lia. Qed.

Lemma requests_in_app k w p q : requests_in k w (p ++ q) = requests_in k w p + requests_in k w q.
Proof. apply sumZ_app. Qed.

Lemma requests_in_one k w r : requests_in k w [r] = if in_window k w r then 1 else 0.
Proof. unfold requests_in. cbn. lia. Qed.

Lemma in_window_iff k w r : in_window k w r = true <-> r.1 = k /\ window_of r.2 = w.
Proof. unfold in_window. by rewrite andb_true_iff, String.eqb_eq, Z.eqb_eq. Qed.

(** After the requests [p], the buckets of the current windows hold their counts. *)
Definition counted (p : list request) (b : Buckets) : Prop :=
  forall k w, (forall r, r ∈ p -> r.1 = k -> window_of r.2 <= w) ->
    default 0 (b !! (k, w)) = requests_in k w p.

Lemma counted_empty : counted [] ∅.
Proof. done. Qed.

Lemma prune_lookup key start b k w : (k = key -> start <= w) -> prune key start b !! (k, w) = b !! (k, w).
Proof.
  intros Hk. unfold prune. apply option_eq. intros n. rewrite map_lookup_filter_Some. cbn. split; [by intros [? _]|].
  intros Hb. split; [done|]. intros [He Hlt]. specialize (Hk He). lia.
Qed.

Lemma counted_step p b k now :
  counted p b -> (forall r, r ∈ p -> r.1 = k -> window_of r.2 <= window_of now) ->
  exists b', increment_bucket k (window_of now) b = (Ok (requests_in k (window_of now) p + 1), b') /\
    counted (p ++ [(k, now)]) b'.
Proof.
  intros Hc Hle. unfold increment_bucket. rewrite (Hc k (window_of now)) by done. eexists. split; [reflexivity|].
  intros k' w Hw. assert (Hp : forall r, r ∈ p -> r.1 = k' -> window_of r.2 <= w).
  { intros r Hr. apply Hw. apply elem_of_app. by left. }
  specialize (Hc k' w Hp). rewrite requests_in_app, requests_in_one.
  assert (Hkw : k' = k -> window_of now <= w).
  { intros ->. apply (Hw (k, now)); [|done]. apply elem_of_app. right. by left. }
  rewrite prune_lookup by (intros ->; auto). destruct (decide ((k', w) = (k, window_of now))) as [[= -> ->]|Hne].
  - rewrite lookup_insert_eq. cbn. rewrite (proj2 (in_window_iff k (window_of now) (k, now))) by done. lia.
  - rewrite lookup_insert_ne by done.
    assert (in_window k' w (k, now) = false) as ->.
    { apply not_true_iff_false. rewrite in_window_iff. cbn. intros [He1 He2]. apply Hne. congruence. }
    rewrite Hc. lia.
Qed.

Lemma check_counted p b k now :
  counted p b -> (forall r, r ∈ p -> r.1 = k -> window_of r.2 <= window_of now) ->
  exists r b', check k max_requests window_seconds now true false b = (Ok r, b') /\
    allowed r = (requests_in k (window_of now) p + 1 <=? max_requests) /\ counted (p ++ [(k, now)]) b'.
Proof.
  intros Hc Hle. destruct (counted_step p b k now Hc Hle) as (b' & Hi & Hc').
  unfold check. rewrite (proj2 (Z.leb_gt max_requests 0)), (proj2 (Z.leb_gt window_seconds 0)) by done.
  change (window_start_ms now (window_seconds * 1000)) with (window_of now).
  change (increment k (window_of now) b) with (increment_bucket k (window_of now) b). rewrite Hi.
  eexists _, _. split; [reflexivity|]. cbn. split; [|done]. by rewrite <- Z.leb_antisym.
Qed.

Lemma run_checks_count k w reqs : forall p b,
  counted p b -> monotone reqs = true ->
  (forall r r', r ∈ p -> r' ∈ reqs -> r.1 = r'.1 -> window_of r.2 <= window_of r'.2) ->
  allowed_in k w (run_checks reqs b).1 =
  Z.min max_requests (requests_in k w (p ++ reqs)) - Z.min max_requests (requests_in k w p).
Proof.
  induction reqs as [|[k0 now] reqs IH]; intros p b Hc Hm Hle; cbn [run_checks].
  { rewrite app_nil_r. cbn. lia. }
  cbn [monotone] in Hm. apply andb_true_iff in Hm as [Hnow Hm].
  destruct (check_counted p b k0 now Hc) as (r & b' & Hch & Hal & Hc').
  { intros r Hr He. apply (Hle r (k0, now)); [done|by left|done]. }
  rewrite Hch. specialize (IH (p ++ [(k0, now)]) b' Hc' Hm).
  destruct (run_checks reqs b') as [out b2]. cbn [fst] in *.
  assert (Hassoc : (p ++ [(k0, now)]) ++ reqs = p ++ (k0, now) :: reqs) by (by rewrite <- (assoc_L app)).
  rewrite Hassoc in IH.
  unfold allowed_in in *. cbn [sumZ foldr fst snd]. unfold sumZ in IH. rewrite IH.
  - rewrite Hal, (requests_in_app k w p [_]), requests_in_one.
    destruct (in_window k w (k0, now)) eqn:Hin; cbn [andb]; [|lia].
    apply in_window_iff in Hin as [<- <-]. cbn [fst snd]. destruct (_ <=? _) eqn:Hcase; lia.
  - intros r1 r2 [Hr|Hr%list_elem_of_singleton]%elem_of_app Hr2 He; [apply Hle; [done|by right|done]|].
    subst r1. apply window_of_mono. rewrite List.forallb_forall in Hnow.
    specialize (Hnow r2 (proj1 (list_elem_of_In _ _) Hr2)). cbn in He, Hnow |- *. rewrite He, String.eqb_refl in Hnow.
    cbn in Hnow. lia.
Qed.
End Runs.

(** The limiter admits exactly the first requests of a window.  Over any
    sequence of requests of any keys whose clock does not run backwards per key,
    the number of requests of a key admitted in a window is the smaller of the
    limit and the number of its requests in that window. *)
Theorem window_admits_the_first_requests max_requests window_seconds reqs k w :
  0 < max_requests -> 0 < window_seconds -> monotone reqs = true ->
  allowed_in window_seconds k w (run_checks max_requests window_seconds reqs ∅).1 =
  Z.min max_requests (requests_in window_seconds k w reqs).
Proof.
  intros Hmax Hwin Hm. rewrite (run_checks_count max_requests window_seconds Hmax Hwin k w reqs [] ∅); try done.
  - change ([] ++ reqs) with reqs. change (requests_in window_seconds k w []) with 0. lia.
  - by intros r r' ?%not_elem_of_nil.
Qed.

(** Two clients of one key and another key, with a limit of two a minute. *)
Definition demo_requests : list request :=
  [("a", 1000); ("b", 1500); ("a", 2000); ("a", 3000); ("a", 60000); ("b", 61000)]%string.

Lemma window_admits_the_first_requests_witness :
  allowed_in 60 "a" 0 (run_checks 2 60 demo_requests ∅).1 = 2 /\ requests_in 60 "a" 0 demo_requests = 3.
Proof.
  split; [|vm_compute; reflexivity].
  rewrite (window_admits_the_first_requests 2 60 demo_requests "a" 0); [vm_compute; reflexivity|lia|lia|vm_compute; reflexivity].
Defined.

(** With a clock that runs backwards the pruning forgets a window: three requests
    are admitted in the first one. *)
Example backward_clock_forgets :
  allowed_in 60 "a" 0 (run_checks 2 60 [("a", 1000); ("a", 2000); ("a", 60000); ("a", 3000)]%string ∅).1 = 3.
Proof. vm_compute. reflexivity. Qed.
