(* ===== verification/QrAmount.v ===== *)
(** The amount field of a QR payload (qr/amount54.py): integer paisa to the tag
    54 text and back.  The text is a byte string; lengths count code points. *)
From S2P Require Import Prelude QrTlv QrText.
Open Scope Z_scope.

Definition _MAX_AMOUNT_CHARS : nat := 13.

(** [_BENGALI_DIGIT_RE.search]: U+09E6 to U+09EF is [E0 A7 A6] to [E0 A7 AF]. *)
Fixpoint has_bengali_digit (s : string) : bool :=
  match s with
  | EmptyString => false
  | String a r =>
      match r with
      | String b (String c _) => byte_in 224 224 a && byte_in 167 167 b && byte_in 166 175 c
      | _ => false
      end || has_bengali_digit r
  end.

(** The longest prefix of ASCII digits, and the rest. *)
Fixpoint span_digits (s : string) : string * string :=
  match s with
  | EmptyString => (EmptyString, EmptyString)
  | String c r =>
      if is_digit c then let (d, rest) := span_digits r in (String c d, rest) else (EmptyString, s)
  end.

Definition newline : string := String (Ascii.ascii_of_N 10) EmptyString.

(** [$] of a regular expression: the end, or just before a final newline. *)
Definition at_end (s : string) : bool := String.eqb s "" || String.eqb s newline.

(** [_AMOUNT_RE.match]: the two groups. *)
Definition match_amount (text : string) : option (string * option string) :=
  let (whole, rest) := span_digits text in
  if negb (truthy whole) then None
  else if at_end rest then Some (whole, None)
  else
    match rest with
    | String "." r =>
        let (frac, tail) := span_digits r in
        if ((1 <=? String.length frac) && (String.length frac <=? 2))%nat && at_end tail
        then Some (whole, Some frac) else None
    | _ => None
    end.

Definition render_amount_54 (amount_minor : Z) : res qr_error string :=
  raise QrEncodeError when (amount_minor <=? 0) else
  let whole := amount_minor / 100 in
  let frac := amount_minor mod 100 in
  let rendered := if frac =? 0 then str_Z whole else str_Z whole +:+ "." +:+ zpad 2 frac in
  raise QrEncodeError when (_MAX_AMOUNT_CHARS <? String.length rendered)%nat else
  Ok rendered.

(** [int(frac.ljust(2, "0")) if frac else 0] *)
Definition frac_value (frac : option string) : Z :=
  match frac with
  | None => 0
  | Some f => int_of_digits (f +:+ zeros (2 - String.length f))
  end.

Definition parse_amount_54 (text : string) : res qr_error Z :=
  raise (QrValidationError "qr_bengali_digits_in_amount") when (has_bengali_digit text) else
  raise (QrValidationError "qr_validation_failed") when (_MAX_AMOUNT_CHARS <? py_len text)%nat else
  match match_amount text with
  | None => Err (QrValidationError "qr_validation_failed")
  | Some (whole, frac) =>
      let amount_minor := int_of_digits whole * 100 + frac_value frac in
      raise (QrValidationError "qr_validation_failed") when (amount_minor <=? 0) else
      Ok amount_minor
  end.

Example parse_examples :
  parse_amount_54 "1250" = Ok 125000 /\ parse_amount_54 "1250.5" = Ok 125050 /\
  parse_amount_54 "0.07" = Ok 7 /\
  parse_amount_54 "1.234" = Err (QrValidationError "qr_validation_failed") /\
  parse_amount_54 "0" = Err (QrValidationError "qr_validation_failed").
Proof. vm_compute. auto. Qed.

(** * Texts of digits *)

Definition amount_char (c : Ascii.ascii) : bool :=
  is_digit c || byte_in 46 46 c || byte_in 10 10 c.

Lemma amount_char_ascii c : amount_char c = true -> ascii_char c = true /\ byte_in 224 224 c = false.
Proof.
  intros Hc. destruct c as [[] [] [] [] [] [] [] []]; vm_compute in Hc |- *; try discriminate Hc; done.
Qed.

Lemma amount_chars_len s : all_chars amount_char s = true -> py_len s = String.length s.
Proof. intros Hs. apply chars_ascii. revert Hs. apply all_chars_impl. apply amount_char_ascii. Qed.

Lemma amount_chars_plain s : all_chars amount_char s = true -> has_bengali_digit s = false.
Proof.
  induction s as [|c s IH]; intros Hs; cbn [all_chars has_bengali_digit] in *; [done|]. bool_prop.
  destruct (amount_char_ascii c) as [_ ->]; [done|]. rewrite IH by done.
  by destruct s as [|? [|? ?]].
Qed.

Lemma digits_amount s : all_chars is_digit s = true -> all_chars amount_char s = true.
Proof. apply all_chars_impl. intros c Hc. unfold amount_char. by rewrite Hc. Qed.

Lemma span_app d s :
  all_chars is_digit d = true -> match s with String c _ => is_digit c = false | _ => True end ->
  span_digits (d +:+ s) = (d, s).
Proof.
  induction d as [|c d IH]; intros Hd Hs.
  - destruct s as [|c s]; [done|]. cbn. by rewrite Hs.
  - cbn [all_chars] in Hd. bool_prop. change (String c d +:+ s) with (String c (d +:+ s)).
    cbn [span_digits]. rewrite H. by rewrite IH.
Qed.

Lemma span_digits_inv s d r :
  span_digits s = (d, r) -> s = d +:+ r /\ all_chars is_digit d = true.
Proof.
  revert d r. induction s as [|c s IH]; intros d r Hs; simpl in Hs; [by simplify_eq|].
  destruct (is_digit c) eqn:Hc; [|by simplify_eq].
  destruct (span_digits s) as [d' r'] eqn:He. simplify_eq.
  destruct (IH d' r eq_refl) as [-> Hd]. split; [done|]. simpl. by rewrite Hc.
Qed.

(** The value of a text the parser accepts, given its parts and the ending. *)
Lemma parse_parts whole frac tail :
  all_chars is_digit whole = true -> truthy whole = true ->
  all_chars is_digit frac = true -> (String.length frac <= 2)%nat -> at_end tail = true ->
  let text := whole +:+ (if truthy frac then "." +:+ frac else "") +:+ tail in
  (String.length text <= 13)%nat ->
  let v := int_of_digits whole * 100 + frac_value (if truthy frac then Some frac else None) in
  parse_amount_54 text =
  if v <=? 0 then Err (QrValidationError "qr_validation_failed") else Ok v.
Proof.
  intros Hw Hne Hf Hlen Ht text Hl v.
  assert (Htail : tail = ""%string \/ tail = newline).
  { unfold at_end in Ht. apply orb_true_iff in Ht as [?%String.eqb_eq|?%String.eqb_eq]; auto. }
  assert (Hchars : all_chars amount_char text = true).
  { subst text. rewrite !all_chars_app, (digits_amount whole Hw).
    assert (all_chars amount_char tail = true) as -> by (by destruct Htail as [-> | ->]).
    destruct (truthy frac); [|done]. rewrite all_chars_app. by rewrite (digits_amount frac Hf). }
  unfold parse_amount_54. rewrite (amount_chars_plain _ Hchars), (amount_chars_len _ Hchars).
  unfold _MAX_AMOUNT_CHARS. rewrite (proj2 (Nat.ltb_ge _ _)) by done.
  assert (match_amount text = Some (whole, if truthy frac then Some frac else None)) as ->; [|done].
  unfold match_amount, text. clear text Hl v Hchars.
  destruct (truthy frac) eqn:Htf.
  - rewrite span_app by done. rewrite Hne. cbn [negb].
    change (("." +:+ frac) +:+ tail) with (String "." (frac +:+ tail)).
    change (at_end (String "." (frac +:+ tail))) with false. cbv iota beta.
    rewrite span_app; [|done|by destruct Htail as [-> | ->]].
    rewrite Ht. destruct frac as [|a [|b [|]]]; simpl in *; try done; lia.
  - change (("" : string) +:+ tail) with tail. rewrite (span_app whole tail) by (done || by destruct Htail as [-> | ->]). by rewrite Hne, Ht.
Qed.

Lemma truthy_length s : (0 < String.length s)%nat -> truthy s = true.
Proof. by destruct s; simpl; [lia|]. Qed.

(** What was rendered is parsed back, with or without a newline after it. *)
Lemma parse_rendered a s tail :
  render_amount_54 a = Ok s -> at_end tail = true -> (String.length (s +:+ tail) <= 13)%nat ->
  parse_amount_54 (s +:+ tail) = Ok a.
Proof.
  intros Hr Ht Hl. unfold render_amount_54 in Hr. inv_res. bool_prop.
  apply Z.leb_gt in G.
  pose proof (str_Z_digits (a / 100) ltac:(lia)) as Hd.
  pose proof (truthy_length _ (str_Z_nonempty (a / 100))) as Hne.
  destruct (a mod 100 =? 0) eqn:Hf.
  - apply Z.eqb_eq in Hf.
    pose proof (parse_parts (str_Z (a / 100)) "" tail Hd Hne eq_refl ltac:(simpl; lia) Ht Hl) as Hp.
    cbn [truthy frac_value] in Hp. rewrite int_of_digits_str_Z in Hp by lia.
    change (parse_amount_54 (str_Z (a / 100) +:+ tail) = Ok a). 
    etrans; [exact Hp|]. rewrite (proj2 (Z.leb_gt _ _)) by lia. f_equal. lia.
  - apply Z.eqb_neq in Hf. destruct (zpad2 (a mod 100)) as (Hlen & Hz & Hv); [lia|].
    rewrite !str_app_assoc in Hl |- *.
    pose proof (parse_parts (str_Z (a / 100)) (zpad 2 (a mod 100)) tail Hd Hne) as Hp.
    rewrite (truthy_length (zpad 2 (a mod 100))) in Hp by lia.
    etrans; [apply Hp; [by apply zpad_digits; lia|lia|done|exact Hl]|].
    cbn [frac_value]. rewrite Hlen, str_app_nil, Hv, int_of_digits_str_Z by lia.
    rewrite (proj2 (Z.leb_gt _ _)) by lia. f_equal. lia.
Qed.

Lemma parse_render a s : render_amount_54 a = Ok s -> parse_amount_54 s = Ok a.
Proof.
  intros Hr. rewrite <- (str_app_nil s). apply parse_rendered; [done..|]. rewrite str_app_nil.
  unfold render_amount_54 in Hr. inv_res. by apply Nat.ltb_ge in G0.
Qed.

(** An amount survives the QR text exactly: every positive amount the encoder
    can render is parsed back to the same number of paisa, and a rendered text
    never has a redundant fraction. *)
Theorem amount_roundtrip a s :
  render_amount_54 a = Ok s ->
  0 < a /\ (String.length s <= 13)%nat /\ parse_amount_54 s = Ok a /\
  (a mod 100 = 0 -> s = str_Z (a / 100)).
Proof.
  intros Hr. assert (Hs := Hr). unfold render_amount_54 in Hs. inv_res.
  apply Z.leb_gt in G. apply Nat.ltb_ge in G0. unfold _MAX_AMOUNT_CHARS in G0.
  split_and!; [done|done|by apply parse_render|by intros ->].
Qed.

(** The pattern of the amount ends in a dollar sign, which also matches just
    before a final newline: a wire amount followed by a newline is accepted,
    although it is not an ASCII decimal. *)
Theorem trailing_newline_is_accepted a s :
  render_amount_54 a = Ok s -> (String.length s < 13)%nat ->
  parse_amount_54 (s +:+ newline) = Ok a.
Proof. intros Hr Hl. apply parse_rendered; [done..|]. rewrite str_length_app. simpl. lia. Qed.

Lemma amount_roundtrip_witness :
  render_amount_54 125050 = Ok "1250.50" /\ parse_amount_54 "1250.50" = Ok 125050.
Proof.
  assert (render_amount_54 125050 = Ok "1250.50") as Hr by (vm_compute; reflexivity).
  split; [exact Hr|]. exact (proj1 (proj2 (proj2 (amount_roundtrip 125050 "1250.50" Hr)))).
Defined.

Lemma trailing_newline_is_accepted_witness :
  render_amount_54 125050 = Ok "1250.50" /\ parse_amount_54 ("1250.50" +:+ newline) = Ok 125050.
Proof.
  assert (render_amount_54 125050 = Ok "1250.50") as Hr by (vm_compute; reflexivity).
  split; [exact Hr|]. apply (trailing_newline_is_accepted 125050 "1250.50" Hr). simpl. lia.
Defined.
