(* ===== verification/QrCodec.v ===== *)
(** The Bangla QR payload codec (qr/codec.py, qr/config.py): the encoder with its
    length budget, and the decoder's steps 1 to 6. *)
From S2P Require Import Prelude Exceptions Sha256 Canonical QrTlv QrCrc QrText QrAmount.
Open Scope Z_scope.

(** * Configuration (qr/config.py) *)

Definition MAX_PAYLOAD_BYTES : nat := 512.
Definition MAX_MERCHANT_NAME_CHARS : Z := 25.
Definition MAX_MERCHANT_CITY_CHARS : Z := 15.
Definition MAX_POSTAL_CODE_CHARS : nat := 10.

Record BanglaQrConfig : Type := mk_BanglaQrConfig {
  cfg_acquirer_id : string;
  cfg_psp_sub_id : string;
  template_root_id : Z;
  scheme_guid : string;
}.

(** [BanglaQrConfig.__post_init__] *)
Definition bangla_qr_config (acquirer_id psp_sub_id : string) (template_root_id : Z)
    (scheme_guid : string) : res qr_error BanglaQrConfig :=
  raise QrEncodeError when (negb ((26 <=? template_root_id) && (template_root_id <=? 51))) else
  raise QrEncodeError
    when (negb (truthy scheme_guid) || negb (truthy acquirer_id) || negb (truthy psp_sub_id)) else
  Ok (mk_BanglaQrConfig acquirer_id psp_sub_id template_root_id scheme_guid).

(** * Data *)

Definition _BDT_NUMERIC : string := "050".
Definition _COUNTRY_BD : string := "BD".
Definition _PAYLOAD_FORMAT : string := "01".
Definition _POI_STATIC : string := "11".
Definition _POI_DYNAMIC : string := "12".

Inductive QrType : Type := STATIC | DYNAMIC.
Inductive RouteClass : Type := BANGLA_QR | CARD_SCHEME.
#[export] Instance QrType_eq_dec : EqDecision QrType.
Proof. solve_decision. Defined.

Record MerchantAccountInfo : Type := mk_MerchantAccountInfo {
  root_id : Z;
  guid : string;
  acquirer_id : string;
  mai_merchant_id : string;
  psp_sub_id : option string;
}.

Record AdditionalData : Type := mk_AdditionalData {
  bill_number : option string;
  mobile : option string;
  store_label : option string;
  reference_label : option string;
  terminal_label : option string;
  consumer_data_request : option string;
}.

Record LanguageTemplate : Type := mk_LanguageTemplate {
  language_preference : string;
  lang_merchant_name : option string;
  lang_merchant_city : option string;
}.

Record QrEncodeRequest : Type := mk_QrEncodeRequest {
  rq_qr_type : QrType;
  merchant_account : MerchantAccountInfo;
  rq_mcc : string;
  rq_merchant_name : string;
  rq_merchant_city : string;
  rq_amount_minor : option Z;
  rq_postal_code : option string;
  rq_tip_indicator : option string;
  rq_convenience_fee_fixed_minor : option Z;
  rq_convenience_fee_percentage : option string;
  rq_additional : option AdditionalData;
  rq_language : option LanguageTemplate;
}.

Record ParsedPayload : Type := mk_ParsedPayload {
  payload_string : string;
  payload_hash : string;
  pp_qr_type : QrType;
  route_class : RouteClass;
  pp_mcc : string;
  pp_merchant_name : string;
  pp_merchant_city : string;
  country_code : string;
  pp_currency : string;
  pp_amount_minor : option Z;
  pp_tip_indicator : option string;
  pp_convenience_fee_fixed_minor : option Z;
  pp_convenience_fee_percentage : option string;
  pp_postal_code : option string;
  pp_additional : AdditionalData;
  pp_language : option LanguageTemplate;
  bangla_template : option MerchantAccountInfo;
  card_template_ids : list Z;
}.

(** [_MCC_RE.match] and [_PCT_FEE_RE.match]; the end is as in [at_end]. *)
Definition match_mcc (s : string) : bool :=
  all_chars is_digit (str_take 4 s) && (String.length (str_take 4 s) =? 4)%nat && at_end (str_drop 4 s).

Definition match_pct (s : string) : bool :=
  match s with
  | String a (String b (String p (String c (String d r)))) =>
      is_digit a && is_digit b && byte_in 46 46 p && is_digit c && is_digit d && at_end r
  | _ => false
  end.

(** [range(lo, hi)] *)
Definition py_range (lo hi : Z) : list Z := (fun n => lo + Z.of_nat n) <$> seq 0 (Z.to_nat (hi - lo)).

Definition in_range (lo hi x : Z) : bool := (lo <=? x) && (x <? hi).
Definition in_reserved_range : Z -> bool := in_range 65 80.
Definition in_merchant_template_range : Z -> bool := in_range 26 52.
Definition _CARD_TEMPLATE_RANGE : list Z := py_range 2 26.
Definition _MERCHANT_TEMPLATE_RANGE : list Z := py_range 26 52.

(** [if value] on an optional text. *)
Definition otruthy (o : option string) : bool :=
  match o with Some s => truthy s | None => false end.
Definition given {A} (o : option A) : bool := match o with Some _ => true | None => false end.

Definition opt_is (o : option string) (s : string) : bool := bool_decide (o = Some s).

(** * Encoder *)

(** The object, if there is a value. *)
Definition opt_object (id : Z) (o : option string) : list (Z * string) :=
  match o with Some v => [(id, v)] | None => [] end.

Definition keep_truthy (o : option string) : option string := if otruthy o then o else None.

(** [str.isascii] *)
Definition isascii (s : string) : bool := all_chars ascii_char s.

Definition _require_ascii (value : string) : res qr_error string :=
  raise QrEncodeError when (negb (isascii value)) else Ok value.

Definition _merchant_account_template (info : MerchantAccountInfo) : res qr_error (Z * string) :=
  raise QrEncodeError when (negb (in_merchant_template_range (root_id info))) else
  let subs := [(0, guid info); (1, acquirer_id info); (2, mai_merchant_id info)] ++
              opt_object 3 (keep_truthy (psp_sub_id info)) in
  let* value := assemble subs in Ok (root_id info, value).

Definition additional_subs (data : AdditionalData) : list (Z * string) :=
  opt_object 1 (keep_truthy (bill_number data)) ++ opt_object 2 (keep_truthy (mobile data)) ++
  opt_object 3 (keep_truthy (store_label data)) ++ opt_object 5 (keep_truthy (reference_label data)) ++
  opt_object 7 (keep_truthy (terminal_label data)) ++
  opt_object 9 (keep_truthy (consumer_data_request data)).

Definition _additional_data_template (data : AdditionalData) : res qr_error (option string) :=
  match additional_subs data with
  | [] => Ok None
  | subs => let* value := assemble subs in Ok (Some value)
  end.

Definition _TEMPLATE_VALUE_BUDGET : Z := 99.

Section Codec.
Context `{UnicodeData} `{HashFn}.

(** One optional sub-object of ID 64: its truncated text, and the bytes used. *)
Definition language_sub (text : option string) (used : Z) : option string :=
  if otruthy text then
    keep_truthy (Some (truncate_graphemes (default ""%string text) (_TEMPLATE_VALUE_BUDGET - used - 4) true))
  else None.

Definition _language_template (language : LanguageTemplate) : res qr_error (option string) :=
  let used := 4 + Z.of_nat (String.length (language_preference language)) in
  let name := language_sub (lang_merchant_name language) used in
  let used := match name with Some n => used + 4 + Z.of_nat (String.length n) | None => used end in
  let city := language_sub (lang_merchant_city language) used in
  let subs := [(0, language_preference language)] ++ opt_object 1 name ++ opt_object 2 city in
  if (length subs =? 1)%nat then Ok None
  else let* value := assemble subs in Ok (Some value).

Definition valid_tip (tip : option string) : bool :=
  match tip with None => true | Some t => str_in t ["01"; "02"; "03"]%string end.

Definition pct_in_range (pct : string) : bool :=
  match_pct pct && (String.leb "00.01" pct && String.leb pct "99.99").

Definition _validate_tip_objects (request : QrEncodeRequest) : res qr_error unit :=
  let tip := rq_tip_indicator request in
  raise QrEncodeError when (negb (valid_tip tip)) else
  raise QrEncodeError
    when (xorb (given (rq_convenience_fee_fixed_minor request)) (opt_is tip "02")) else
  raise QrEncodeError
    when (xorb (given (rq_convenience_fee_percentage request)) (opt_is tip "03")) else
  match rq_convenience_fee_percentage request with
  | Some pct => raise QrEncodeError when (negb (pct_in_range pct)) else Ok tt
  | None => Ok tt
  end.

(** [objects.sort(key=lambda pair: pair[0])], a stable sort. *)
Fixpoint insert_object (x : Z * string) (l : list (Z * string)) : list (Z * string) :=
  match l with
  | [] => [x]
  | y :: r => if x.1 <=? y.1 then x :: l else y :: insert_object x r
  end.
Definition sort_objects (l : list (Z * string)) : list (Z * string) := foldr insert_object [] l.

Definition template_of {A} (f : A -> res qr_error (option string)) (x : option A) :
    res qr_error (option string) :=
  match x with Some a => f a | None => Ok None end.

Definition build (base_objects : list (Z * string)) (lang : option LanguageTemplate)
    (extra : option AdditionalData) : res qr_error string :=
  let* v62 := template_of _additional_data_template extra in
  let* v64 := template_of _language_template lang in
  let objects := base_objects ++ opt_object 62 v62 ++ opt_object 64 v64 in
  let* body := assemble (sort_objects objects) in
  Ok (append_crc body).

Definition fits (candidate : string) : bool := (String.length candidate <=? MAX_PAYLOAD_BYTES)%nat.

(** [payload = build(...); if fits(payload): return payload], and what follows. *)
Definition try_build base lang extra (k : string -> res qr_error string) : res qr_error string :=
  let* payload := build base lang extra in
  if fits payload then Ok payload else k payload.

Inductive ad_field : Type :=
| F_consumer_data_request | F_mobile | F_bill_number | F_terminal_label | F_store_label.

Definition getattr (field : ad_field) (d : AdditionalData) : option string :=
  match field with
  | F_consumer_data_request => consumer_data_request d
  | F_mobile => mobile d
  | F_bill_number => bill_number d
  | F_terminal_label => terminal_label d
  | F_store_label => store_label d
  end.

Definition without (field : ad_field) (d : AdditionalData) : AdditionalData :=
  let 'mk_AdditionalData b m s r t c := d in
  match field with
  | F_consumer_data_request => mk_AdditionalData b m s r t None
  | F_mobile => mk_AdditionalData b None s r t c
  | F_bill_number => mk_AdditionalData None m s r t c
  | F_terminal_label => mk_AdditionalData b m s r None c
  | F_store_label => mk_AdditionalData b m None r t c
  end.

Definition trim_order : list ad_field :=
  [F_consumer_data_request; F_mobile; F_bill_number; F_terminal_label; F_store_label].

(** The last loop of [_trim_to_budget]. *)
Fixpoint drop_fields base (fields : list ad_field) (additional : AdditionalData) : res qr_error string :=
  match fields with
  | [] => Err QrEncodeError
  | field :: rest =>
      if given (getattr field additional) then
        let additional := without field additional in
        try_build base None (Some additional) (fun _ => drop_fields base rest additional)
      else drop_fields base rest additional
  end.

Definition drop_language base (language : option LanguageTemplate) (additional : option AdditionalData) :
    res qr_error string :=
  let last _ :=
    match additional with
    | Some a => drop_fields base trim_order a
    | None => Err QrEncodeError
    end in
  match language with
  | Some _ => try_build base None additional last
  | None => last ""%string
  end.

(** The name is cut by the bytes that the payload has too many. *)
Definition trimmed_name (name payload : string) : string :=
  let overflow := Z.of_nat (String.length payload) - Z.of_nat MAX_PAYLOAD_BYTES in
  let target := Z.max (Z.of_nat (String.length name) - overflow) 0 in
  truncate_graphemes name target true.

Definition trim_name base (language : option LanguageTemplate) (additional : option AdditionalData)
    (payload : string) : res qr_error string :=
  match language with
  | Some (mk_LanguageTemplate pref (Some name) _) =>
      if truthy name then
        let trimmed := trimmed_name name payload in
        let language := Some (mk_LanguageTemplate pref (keep_truthy (Some trimmed)) None) in
        try_build base language additional (fun _ => drop_language base language additional)
      else drop_language base language additional
  | _ => drop_language base language additional
  end.

Definition _trim_to_budget base (language : option LanguageTemplate) (additional : option AdditionalData) :
    res qr_error string :=
  try_build base language additional (fun payload =>
  match language with
  | Some (mk_LanguageTemplate pref name city) =>
      if otruthy city then
        let language := Some (mk_LanguageTemplate pref name None) in
        try_build base language additional (fun payload => trim_name base language additional payload)
      else trim_name base language additional payload
  | None => trim_name base language additional payload
  end).

(** [x is None or f(x)] as a call that can raise. *)
Definition opt_call {A B} (f : A -> res qr_error B) (x : option A) : res qr_error (option B) :=
  match x with Some a => let* b := f a in Ok (Some b) | None => Ok None end.

Definition postal_text (postal : string) : res qr_error string :=
  let postal := strip postal in
  raise QrEncodeError when (MAX_POSTAL_CODE_CHARS <? py_len postal)%nat else Ok postal.

Definition encode_payload (request : QrEncodeRequest) : res qr_error string :=
  raise QrEncodeError when (negb (match_mcc (rq_mcc request))) else
  raise QrEncodeError
    when (bool_decide (rq_qr_type request = STATIC) && given (rq_amount_minor request)) else
  raise QrEncodeError
    when (bool_decide (rq_qr_type request = DYNAMIC) && negb (given (rq_amount_minor request))) else
  let* _ := _validate_tip_objects request in
  let* ascii_name := _require_ascii (rq_merchant_name request) in
  let name := truncate_graphemes (strip ascii_name) MAX_MERCHANT_NAME_CHARS false in
  let city := truncate_graphemes (strip (rq_merchant_city request)) MAX_MERCHANT_CITY_CHARS false in
  raise QrEncodeError when (negb (truthy name) || negb (truthy city)) else
  let* account := _merchant_account_template (merchant_account request) in
  let core :=
    [(0, _PAYLOAD_FORMAT);
     (1, if bool_decide (rq_qr_type request = STATIC) then _POI_STATIC else _POI_DYNAMIC);
     account; (52, rq_mcc request); (53, _BDT_NUMERIC); (58, _COUNTRY_BD); (59, name); (60, city)] in
  let* amount := opt_call render_amount_54 (rq_amount_minor request) in
  let* fee := opt_call render_amount_54 (rq_convenience_fee_fixed_minor request) in
  let* postal := opt_call postal_text (keep_truthy (rq_postal_code request)) in
  let objects :=
    core ++ opt_object 54 amount ++ opt_object 55 (rq_tip_indicator request) ++ opt_object 56 fee ++
    opt_object 57 (rq_convenience_fee_percentage request) ++ opt_object 61 postal in
  _trim_to_budget objects (rq_language request) (rq_additional request).

(** * Decoder (steps 1 to 6) *)

(** [fields.get(key)]; the keys are distinct, as duplicates are rejected. *)
Fixpoint dget (key : Z) (fields : list (Z * string)) : option string :=
  match fields with
  | [] => None
  | (k, v) :: r => if key =? k then Some v else dget key r
  end.

Definition payload_hash_of (payload : string) : res qr_error string :=
  match sha256_canonical (PStr payload) with Ok h => Ok h | Err e => Err (QrRaised e) end.

(** [objects[-1]] is the checksum object.  The walk of a non-empty payload gives
    at least one object. *)
Definition _check_crc_object (payload : string) (objects : list TlvObject) : res qr_error unit :=
  match last objects with
  | None => Err (QrRaised KeyError)
  | Some o =>
      raise (QrValidationError "qr_invalid_crc")
        when (negb (object_id o =? 63) || negb (py_len (tlv_value o) =? 4)%nat) else
      raise (QrValidationError "qr_invalid_crc") when (negb (verify_crc payload)) else Ok tt
  end.

Definition qr_failed {A} : res qr_error A := Err (QrValidationError "qr_validation_failed").

Definition _parse_tip (fields : list (Z * string)) :
    res qr_error (option string * option Z * option string) :=
  let tip := dget 55 fields in
  let fee_fixed := dget 56 fields in
  let fee_pct := dget 57 fields in
  if negb (valid_tip tip) then qr_failed else
  if xorb (given fee_fixed) (opt_is tip "02") then qr_failed else
  if xorb (given fee_pct) (opt_is tip "03") then qr_failed else
  let* fee_fixed_minor := opt_call parse_amount_54 fee_fixed in
  if match fee_pct with Some pct => negb (pct_in_range pct) | None => false end then qr_failed else
  Ok (tip, fee_fixed_minor, fee_pct).

(** The loop of [_resolve_templates] over the merchant-account range. *)
Fixpoint find_bangla (fields : list (Z * string)) (config : BanglaQrConfig) (ids : list Z) :
    res qr_error (option MerchantAccountInfo) :=
  match ids with
  | [] => Ok None
  | id :: rest =>
      match dget id fields with
      | None => find_bangla fields config rest
      | Some value =>
          match walk_template value with
          | Err (QrValidationError _) => find_bangla fields config rest
          | Err e => Err e
          | Ok subs =>
              match dget 0 subs with
              | None => find_bangla fields config rest
              | Some g =>
                  if negb (String.eqb (upper g) (upper (scheme_guid config)))
                  then find_bangla fields config rest
                  else
                    match keep_truthy (dget 1 subs), keep_truthy (dget 2 subs) with
                    | Some a, Some mid =>
                        Ok (Some (mk_MerchantAccountInfo id g a mid (dget 3 subs)))
                    | _, _ => qr_failed
                    end
              end
          end
      end
  end.

Definition _resolve_templates (fields : list (Z * string)) (config : BanglaQrConfig) :
    res qr_error (RouteClass * option MerchantAccountInfo * list Z) :=
  let card_ids := List.filter (fun i => given (dget i fields)) _CARD_TEMPLATE_RANGE in
  let* bangla := find_bangla fields config _MERCHANT_TEMPLATE_RANGE in
  match bangla with
  | Some b => Ok (BANGLA_QR, Some b, card_ids)
  | None =>
      match card_ids with
      | [] => Err (QrValidationError "qr_no_routable_template")
      | _ => Ok (CARD_SCHEME, None, card_ids)
      end
  end.

Definition _parse_additional (fields : list (Z * string)) : res qr_error AdditionalData :=
  match dget 62 fields with
  | None => Ok (mk_AdditionalData None None None None None None)
  | Some value =>
      let* subs := walk_template value in
      Ok (mk_AdditionalData (dget 1 subs) (dget 2 subs) (dget 3 subs) (dget 5 subs) (dget 7 subs)
            (dget 9 subs))
  end.

Definition _parse_language (fields : list (Z * string)) : res qr_error (option LanguageTemplate) :=
  match dget 64 fields with
  | None => Ok None
  | Some value =>
      let* subs := walk_template value in
      match dget 0 subs with
      | None => qr_failed
      | Some pref => Ok (Some (mk_LanguageTemplate pref (dget 1 subs) (dget 2 subs)))
      end
  end.

Definition fields_of (objects : list TlvObject) : list (Z * string) :=
  (fun o => (object_id o, tlv_value o)) <$> objects.

(** The amount and the type, from ID 01 and ID 54. *)
Definition parse_poi (poi : string) (fields : list (Z * string)) : res qr_error (option Z * QrType) :=
  if String.eqb poi _POI_STATIC then
    raise (QrValidationError "qr_static_with_amount") when (given (dget 54 fields)) else
    Ok (None, STATIC)
  else
    match dget 54 fields with
    | None => qr_failed
    | Some text => let* a := parse_amount_54 text in Ok (Some a, DYNAMIC)
    end.

(** The checks of the fields, step 4 on. *)
Definition parse_fields (payload : string) (config : BanglaQrConfig) (fields : list (Z * string)) :
    res qr_error ParsedPayload :=
  raise (QrValidationError "qr_unsupported_version")
    when (negb (opt_is (dget 0 fields) _PAYLOAD_FORMAT)) else
  match dget 1 fields with
  | None => qr_failed
  | Some poi =>
  if negb (str_in poi [_POI_STATIC; _POI_DYNAMIC]) then qr_failed else
  match dget 52 fields with
  | None => qr_failed
  | Some mcc =>
  if negb (match_mcc mcc) then qr_failed else
  match dget 53 fields with
  | None => qr_failed
  | Some currency =>
  raise (QrValidationError "qr_wrong_currency") when (negb (String.eqb currency _BDT_NUMERIC)) else
  match dget 58 fields with
  | None => qr_failed
  | Some country =>
  raise (QrValidationError "qr_wrong_country") when (negb (String.eqb country _COUNTRY_BD)) else
  match keep_truthy (dget 59 fields), keep_truthy (dget 60 fields) with
  | Some merchant_name, Some merchant_city =>
      let* (amount_minor, qr_type) := parse_poi poi fields in
      let* (tip, fee_fixed_minor, fee_pct) := _parse_tip fields in
      let* (route_class, bangla, card_ids) := _resolve_templates fields config in
      let* hash := payload_hash_of payload in
      let* additional := _parse_additional fields in
      let* language := _parse_language fields in
      Ok (mk_ParsedPayload payload hash qr_type route_class mcc merchant_name merchant_city country
            currency amount_minor tip fee_fixed_minor fee_pct (dget 61 fields) additional language
            bangla card_ids)
  | _, _ => qr_failed
  end end end end end.

Definition parse_and_validate (payload : string) (config : BanglaQrConfig) : res qr_error ParsedPayload :=
  raise (QrValidationError "qr_malformed_tlv") when (negb (truthy payload)) else
  let* objects := walk payload true in
  raise (QrValidationError "qr_reserved_id")
    when (List.existsb (fun o => in_reserved_range (object_id o)) objects) else
  let* _ := _check_crc_object payload objects in
  parse_fields payload config (fields_of objects).
End Codec.
