(* ===== verification/QrRoundtrip.v ===== *)
(** What the QR encoder writes, the decoder reads back (qr/codec.py). *)
From S2P Require Import Prelude Exceptions Sha256 Canonical QrTlv QrCrc QrText QrAmount QrCodec.
Open Scope Z_scope.

Definition utf8 (s : string) : Prop := valid_utf8 s = true.
Definition utf8_objects (l : list (Z * string)) : Prop := Forall (fun x => utf8 x.2) l.
Definition outf8 (o : option string) : Prop := match o with Some s => utf8 s | None => True end.

(** * Dictionaries of objects *)

Lemma dget_app k a b : dget k (a ++ b) = match dget k a with Some v => Some v | None => dget k b end.
Proof. induction a as [|[i v] a IH]; [done|]. cbn. by destruct (k =? i). Qed.

Lemma dget_opt k id o : dget k (opt_object id o) = if k =? id then o else None.
Proof. destruct o; cbn; by destruct (k =? id). Qed.

Lemma dget_None k l : k ∉ l.*1 -> dget k l = None.
Proof.
  induction l as [|[i v] l IH]; [done|]. cbn. rewrite not_elem_of_cons. intros [Hk Hl].
  rewrite (proj2 (Z.eqb_neq k i)) by done. auto.
Qed.

Lemma dget_Some k v l : NoDup l.*1 -> (k, v) ∈ l -> dget k l = Some v.
Proof.
  induction l as [|[i w] l IH]; [by intros _ ?%not_elem_of_nil|]. cbn. rewrite NoDup_cons, elem_of_cons.
  intros [Hi Hn] [Heq|Hin]; [simplify_eq; by rewrite Z.eqb_refl|].
  rewrite (proj2 (Z.eqb_neq k i)); [by apply IH|]. intros ->. apply Hi.
  apply (list_elem_of_fmap_2 fst) in Hin. done.
Qed.

Lemma dget_perm k l l' : NoDup l.*1 -> l ≡ₚ l' -> dget k l = dget k l'.
Proof.
  intros Hn Hp. assert (Hn' : NoDup l'.*1) by (by rewrite <- Hp).
  destruct (decide (k ∈ l.*1)) as [Hk|Hk].
  - apply list_elem_of_fmap in Hk as ([k' v] & -> & Hk). cbn.
    rewrite (dget_Some k' v l) by done. symmetry. apply dget_Some; [done|]. by rewrite <- Hp.
  - rewrite (dget_None k l) by done. symmetry. apply dget_None. by rewrite <- Hp.
Qed.

Lemma insert_object_perm x l : insert_object x l ≡ₚ x :: l.
Proof.
  induction l as [|y l IH]; [done|]. cbn. destruct (x.1 <=? y.1); [done|]. rewrite IH. constructor.
Qed.

Lemma sort_objects_perm l : sort_objects l ≡ₚ l.
Proof. induction l as [|x l IH]; [done|]. cbn. by rewrite insert_object_perm, IH. Qed.

Lemma keys_opt id o : (opt_object id o).*1 `sublist_of` [id].
Proof. destruct o; cbn; [done|]. apply sublist_nil_l. Qed.

Lemma utf8_opt id o : outf8 o -> utf8_objects (opt_object id o).
Proof. destruct o; intros Ho; repeat constructor. done. Qed.

(** * Assembled payloads *)

Lemma assemble_app l r a b : assemble l = Ok a -> assemble r = Ok b -> assemble (l ++ r) = Ok (a +:+ b).
Proof.
  revert a. induction l as [|[i v] l IH]; intros a Ha Hb; cbn in *; [by simplify_eq|]. inv_res.
  rewrite (IH a1) by done. cbn. by rewrite str_app_assoc.
Qed.

Lemma assemble_truthy l a : assemble l = Ok a -> Forall (fun x => truthy x.2 = true) l.
Proof.
  revert a. induction l as [|[i v] l IH]; intros a Ha; cbn in *; [constructor|]. inv_res.
  apply encode_object_inv in E as (_ & Hl & _). constructor; [apply truthy_length; cbn; lia|]. by eapply IH.
Qed.

Lemma walk_assembled l data :
  assemble l = Ok data -> utf8_objects l -> NoDup l.*1 ->
  exists objs, walk data true = Ok objs /\ fields_of objs = l.
Proof.
  intros Ha Hu Hn. apply walk_complete; [done..| |done]. intros _. split; [done|].
  intros x _. apply not_elem_of_nil.
Qed.

Lemma template_roundtrip l v :
  assemble l = Ok v -> utf8_objects l -> NoDup l.*1 -> walk_template v = Ok l.
Proof.
  intros Ha Hu Hn. destruct (walk_assembled l v) as (objs & Hw & Hf); [done..|].
  unfold walk_template. rewrite Hw. cbn. by rewrite <- Hf.
Qed.

Lemma ascii_utf8 s : all_chars ascii_char s = true -> utf8 s.
Proof.
  unfold utf8. induction s as [|c s IH]; [done|]. cbn [all_chars valid_utf8]. intros Hs. bool_prop.
  unfold ascii_char in H. rewrite H. auto.
Qed.

Lemma hex_digit_ascii n : 0 <= n < 16 -> ascii_char (hex_digit n) = true.
Proof.
  intros Hn. assert (Hin : List.forallb (fun n => ascii_char (hex_digit n)) (py_range 0 16) = true) by done.
  rewrite List.forallb_forall in Hin. apply Hin. apply in_map_iff. exists (Z.to_nat n).
  split; [lia|]. apply in_seq. simpl. lia.
Qed.

Lemma hex4_ascii n : 0 <= n < 2 ^ 16 -> all_chars ascii_char (hex4 n) = true.
Proof. intros Hn. unfold hex4. cbn [all_chars]. rewrite !hex_digit_ascii; [done|lia..]. Qed.

Lemma append_crc_object body :
  assemble [(63, hex4 (crc16_ccitt_false (body +:+ CRC_PREFIX)))] =
  Ok (CRC_PREFIX +:+ hex4 (crc16_ccitt_false (body +:+ CRC_PREFIX))).
Proof. reflexivity. Qed.

(** A payload is read as its objects and the checksum object. *)
Lemma built_walk objects body :
  assemble (sort_objects objects) = Ok body -> utf8_objects objects ->
  NoDup (63 :: objects.*1) ->
  exists objs h,
    walk (append_crc body) true = Ok objs /\
    fields_of objs = sort_objects objects ++ [(63, h)] /\ String.length h = 4%nat /\
    all_chars ascii_char h = true /\
    forall k, dget k (fields_of objs) = dget k (objects ++ [(63, h)]).
Proof.
  intros Ha Hu Hn. set (h := hex4 (crc16_ccitt_false (body +:+ CRC_PREFIX))).
  assert (Hh : all_chars ascii_char h = true) by (apply hex4_ascii, crc_from_u16, init_u16).
  assert (Hnd : NoDup (objects ++ [(63, h)]).*1).
  { rewrite fmap_app, Permutation_app_comm. done. }
  assert (Hp : sort_objects objects ++ [(63, h)] ≡ₚ objects ++ [(63, h)]) by (by rewrite sort_objects_perm).
  destruct (walk_assembled (sort_objects objects ++ [(63, h)]) (append_crc body)) as (objs & Hw & Hf).
  - unfold append_crc. rewrite str_app_assoc. eapply assemble_app; [done|]. apply append_crc_object.
  - unfold utf8_objects. rewrite Hp. apply Forall_app. split; [done|]. repeat constructor. by apply ascii_utf8.
  - by rewrite Hp.
  - exists objs, h. split_and!; [done..|]. intros k. rewrite Hf. symmetry. by apply dget_perm.
Qed.

Section Decode.
Context `{UnicodeData} `{HashFn}.

(** Steps 1 to 3 accept a payload that was built. *)
Lemma parse_built objects body config :
  assemble (sort_objects objects) = Ok body -> utf8_objects objects ->
  NoDup (63 :: objects.*1) -> Forall (fun k => k < 65) objects.*1 ->
  exists fields,
    parse_and_validate (append_crc body) config = parse_fields (append_crc body) config fields /\
    forall k, k <> 63 -> dget k fields = dget k objects.
Proof.
  intros Ha Hu Hn Hlt. destruct (built_walk objects body) as (objs & h & Hw & Hf & Hl & Hh & Hd); [done..|].
  exists (fields_of objs). split.
  - unfold parse_and_validate.
    rewrite (truthy_length (append_crc body)) by (rewrite append_crc_length; lia).
    cbn [negb]. rewrite Hw. cbn [rbind].
    assert (List.existsb (fun o => in_reserved_range (object_id o)) objs = false) as ->.
    { apply not_true_iff_false. intros (o & Ho%list_elem_of_In & Hr)%List.existsb_exists.
      apply (list_elem_of_fmap_2 object_id) in Ho.
      assert (He : object_id <$> objs = (fields_of objs).*1) by (unfold fields_of; by rewrite <- list_fmap_compose).
      rewrite He, Hf, fmap_app, sort_objects_perm in Ho. rewrite Forall_forall in Hlt.
      unfold in_reserved_range, in_range in Hr. bool_prop. apply Z.leb_le in H1; apply Z.ltb_lt in H2.
      apply elem_of_app in Ho as [Ho|Ho%list_elem_of_singleton]; [apply Hlt in Ho|]; cbn in *; lia. }
    apply (f_equal last) in Hf. unfold fields_of in Hf. rewrite fmap_last, last_snoc in Hf.
    unfold _check_crc_object. destruct (last objs) as [o|]; [|done]. cbn in Hf. injection Hf as -> ->.
    rewrite (chars_ascii h), Hl, verify_append by done. done.
  - intros k Hk. rewrite Hd, dget_app. cbn. rewrite (proj2 (Z.eqb_neq k 63)) by done.
    by destruct (dget k objects).
Qed.

(** * The budget *)

(** What trimming may leave of the optional parts. *)
Definition ad_trimmed (d' d : AdditionalData) : Prop :=
  reference_label d' = reference_label d /\ forall f, getattr f d' = None \/ getattr f d' = getattr f d.

Definition lang_trimmed (l' l : LanguageTemplate) : Prop :=
  language_preference l' = language_preference l /\
  (lang_merchant_city l' = None \/ lang_merchant_city l' = lang_merchant_city l) /\
  (lang_merchant_name l' = lang_merchant_name l \/
   exists name n, lang_merchant_name l = Some name /\
     lang_merchant_name l' = keep_truthy (Some (truncate_graphemes name n true))).

(** A trimmed pair of templates, as they are handed to [build]. *)
Definition trimmed_parts (lang : option LanguageTemplate) (extra : option AdditionalData)
    (lang' : option LanguageTemplate) (extra' : option AdditionalData) : Prop :=
  (lang' = None \/ exists l l', lang = Some l /\ lang' = Some l' /\ lang_trimmed l' l) /\
  (match extra, extra' with
   | None, None => True | Some d, Some d' => ad_trimmed d' d | _, _ => False end).

Lemma ad_trimmed_refl d : ad_trimmed d d.
Proof. split; auto. Qed.

Lemma ad_trimmed_without f d d' : ad_trimmed d' d -> ad_trimmed (without f d') d.
Proof.
  intros [Hr Hf]. destruct d'. split; [by destruct f|].
  intros g. specialize (Hf g). destruct f, g; cbn in *; auto.
Qed.

Lemma lang_trimmed_refl l : lang_trimmed l l.
Proof. split_and!; auto. Qed.

(** The payload is built from the parts that satisfy [P], and it fits. *)
Definition built_by base (P : option LanguageTemplate -> option AdditionalData -> Prop) (p : string) : Prop :=
  exists lang extra, P lang extra /\ build base lang extra = Ok p /\ (String.length p <= 512)%nat.

Lemma try_build_inv base lang extra k p (P : option LanguageTemplate -> option AdditionalData -> Prop) :
  try_build base lang extra k = Ok p -> P lang extra ->
  (forall q, k q = Ok p -> built_by base P p) -> built_by base P p.
Proof.
  unfold try_build, fits. intros He HP Hk. inv_res. case_match eqn:Hf; [|by eapply Hk].
  simplify_eq. apply Nat.leb_le in Hf. by exists lang, extra.
Qed.

Lemma drop_fields_inv base lang d p : forall fields d',
  ad_trimmed d' d -> drop_fields base fields d' = Ok p -> built_by base (trimmed_parts lang (Some d)) p.
Proof.
  induction fields as [|f fields IH]; intros d' Hd; cbn; [done|].
  destruct (given (getattr f d')); [|by apply IH]. intros Hp.
  assert (Hd' := ad_trimmed_without f d d' Hd).
  eapply try_build_inv; [exact Hp|by split; [left|]|]. intros ? Hq. by apply (IH (without f d')).
Qed.

Lemma drop_language_inv base lang lang' extra p :
  drop_language base lang' extra = Ok p -> built_by base (trimmed_parts lang extra) p.
Proof.
  assert (Hlast : forall d, extra = Some d ->
    drop_fields base trim_order d = Ok p -> built_by base (trimmed_parts lang extra) p).
  { intros d -> Hp. eapply drop_fields_inv; [apply ad_trimmed_refl|done]. }
  unfold drop_language. destruct lang'; intros Hp.
  - eapply try_build_inv; [exact Hp| |].
    + split; [by left|]. destruct extra; [apply ad_trimmed_refl|done].
    + intros ?. destruct extra; [by apply Hlast|done].
  - destruct extra; [by apply (Hlast a)|done].
Qed.

Lemma trim_name_inv base lang l extra q p :
  (l = None \/ exists l0 l', lang = Some l0 /\ l = Some l' /\
     language_preference l' = language_preference l0 /\ lang_merchant_name l' = lang_merchant_name l0) ->
  trim_name base l extra q = Ok p -> built_by base (trimmed_parts lang extra) p.
Proof.
  intros Hl. unfold trim_name. destruct l as [[pref [name|] city]|]; [|by apply drop_language_inv..].
  destruct (truthy name); [|by apply drop_language_inv]. intros Hp.
  eapply try_build_inv; [exact Hp| |intros ?; apply drop_language_inv].
  split; [right|by destruct extra; [apply ad_trimmed_refl|]].
  destruct Hl as [?|(l0 & l' & -> & Hl' & Hp0 & Hn)]; [done|]. injection Hl' as <-.
  eexists l0, _. split_and!; [done..|]. split_and!; [done|by left|]. right. by eexists _, _.
Qed.

Lemma trim_to_budget_inv base lang extra p :
  _trim_to_budget base lang extra = Ok p -> built_by base (trimmed_parts lang extra) p.
Proof.
  assert (Hself : match extra, extra with
    | None, None => True | Some d, Some d' => ad_trimmed d' d | _, _ => False end).
  { destruct extra; [apply ad_trimmed_refl|done]. }
  unfold _trim_to_budget. intros Hp. eapply try_build_inv; [exact Hp| |].
  { split; [|done]. destruct lang as [l|]; [|by left]. right. exists l, l. split_and!; [done..|]. apply lang_trimmed_refl. }
  intros q. destruct lang as [[pref name city]|]; [|by apply trim_name_inv; left].
  destruct (otruthy city).
  - intros Hq. eapply try_build_inv; [exact Hq| |].
    + split; [|done]. right. eexists _, _. split_and!; [done..|]. split_and!; auto.
    + intros q'. apply trim_name_inv. right. by eexists _, _.
  - apply trim_name_inv. right. by eexists _, _.
Qed.

(** * Templates *)

Lemma keep_truthy_utf8 o : outf8 o -> outf8 (keep_truthy o).
Proof. unfold keep_truthy. by destruct (otruthy o). Qed.

Definition ad_utf8 (d : AdditionalData) : Prop :=
  outf8 (reference_label d) /\ forall f, outf8 (getattr f d).

Definition lang_utf8 (l : LanguageTemplate) : Prop :=
  utf8 (language_preference l) /\ outf8 (lang_merchant_name l) /\ outf8 (lang_merchant_city l).

Lemma ad_trimmed_utf8 d d' : ad_trimmed d' d -> ad_utf8 d -> ad_utf8 d'.
Proof.
  intros [Hr Hf] [Hu Hg]. split; [by rewrite Hr|]. intros f. by destruct (Hf f) as [-> | ->].
Qed.

Lemma lang_trimmed_utf8 l l' : lang_trimmed l' l -> lang_utf8 l -> lang_utf8 l'.
Proof.
  intros (Hp & Hc & Hn) (Hpu & Hnu & Hcu). split_and!; [by rewrite Hp| |by destruct Hc as [-> | ->]].
  destruct Hn as [-> | (name & n & Hn & ->)]; [done|]. apply keep_truthy_utf8. rewrite Hn in Hnu.
  by apply truncate_valid.
Qed.

Lemma account_template info r v :
  _merchant_account_template info = Ok (r, v) ->
  utf8 (guid info) -> utf8 (acquirer_id info) -> utf8 (mai_merchant_id info) -> outf8 (psp_sub_id info) ->
  r = root_id info /\ 26 <= root_id info < 52 /\
  walk_template v = Ok ([(0, guid info); (1, acquirer_id info); (2, mai_merchant_id info)] ++
                        opt_object 3 (keep_truthy (psp_sub_id info))) /\
  truthy (acquirer_id info) = true /\ truthy (mai_merchant_id info) = true.
Proof.
  unfold _merchant_account_template, in_merchant_template_range, in_range. intros Ha Hg Hq Hm Hp.
  inv_res. bool_prop. apply Z.leb_le in H1. apply Z.ltb_lt in H2.
  split_and!; [done|lia|lia| | |].
  - apply template_roundtrip; [done| |].
    + repeat constructor; [done..|]. by apply utf8_opt, keep_truthy_utf8.
    + eapply sublist_NoDup; [|rewrite fmap_app; apply sublist_app; [done|apply keys_opt]].
      by apply (bool_decide_unpack (NoDup [0; 1; 2; 3])); vm_compute.
  - apply assemble_truthy, Forall_app in E as [E _]. by repeat apply Forall_cons in E as [? E].
  - apply assemble_truthy, Forall_app in E as [E _]. by repeat apply Forall_cons in E as [? E].
Qed.

Lemma additional_utf8 d : ad_utf8 d -> utf8_objects (additional_subs d).
Proof.
  intros [Hr Hf]. unfold utf8_objects, additional_subs. rewrite !Forall_app.
  split_and!; apply utf8_opt, keep_truthy_utf8;
    [apply (Hf F_bill_number)|apply (Hf F_mobile)|apply (Hf F_store_label)|done
    |apply (Hf F_terminal_label)|apply (Hf F_consumer_data_request)].
Qed.

Lemma additional_keys d : NoDup (additional_subs d).*1.
Proof.
  eapply (sublist_NoDup _ ([1] ++ [2] ++ [3] ++ [5] ++ [7] ++ [9])).
  - by apply (bool_decide_unpack (NoDup [1; 2; 3; 5; 7; 9])); vm_compute.
  - unfold additional_subs. rewrite !fmap_app. repeat apply sublist_app; apply keys_opt.
Qed.

Definition ad_written (d : AdditionalData) : AdditionalData :=
  mk_AdditionalData (keep_truthy (bill_number d)) (keep_truthy (mobile d)) (keep_truthy (store_label d))
    (keep_truthy (reference_label d)) (keep_truthy (terminal_label d))
    (keep_truthy (consumer_data_request d)).

Lemma dget_additional d :
  mk_AdditionalData (dget 1 (additional_subs d)) (dget 2 (additional_subs d)) (dget 3 (additional_subs d))
    (dget 5 (additional_subs d)) (dget 7 (additional_subs d)) (dget 9 (additional_subs d)) = ad_written d.
Proof.
  unfold additional_subs, ad_written. rewrite !dget_app, !dget_opt. cbn. f_equal; by case_match.
Qed.

Lemma additional_template d v :
  _additional_data_template d = Ok v -> ad_utf8 d ->
  match v with
  | None => ad_written d = mk_AdditionalData None None None None None None
  | Some t => walk_template t = Ok (additional_subs d)
  end.
Proof.
  unfold _additional_data_template. intros Ht Hu. destruct (additional_subs d) as [|x l] eqn:Hs.
  - simplify_eq. rewrite <- dget_additional, Hs. done.
  - inv_res. rewrite <- Hs in *. apply template_roundtrip; [done| |].
    + by apply additional_utf8.
    + apply additional_keys.
Qed.

Lemma language_template l v :
  _language_template l = Ok (Some v) -> lang_utf8 l ->
  exists name city, walk_template v = Ok ([(0, language_preference l)] ++ opt_object 1 name ++ opt_object 2 city).
Proof.
  unfold _language_template. intros Ht (Hp & Hn & Hc).
  match type of Ht with context [opt_object 1 ?n ++ opt_object 2 ?c] => set (name := n) in *; set (city := c) in * end.
  case_match; inv_res. exists name, city. apply template_roundtrip; [done| |].
  - assert (Hs : forall o used, outf8 o -> outf8 (language_sub o used)).
    { intros o used Ho. unfold language_sub. destruct (otruthy o) eqn:Ht; [|done].
      apply keep_truthy_utf8. destruct o; [|done]. by apply truncate_valid. }
    constructor; [done|]. apply Forall_app. split; apply utf8_opt; by apply Hs.
  - rewrite !fmap_app. eapply (sublist_NoDup _ ([0] ++ [1] ++ [2])).
    + by apply (bool_decide_unpack (NoDup [0; 1; 2])); vm_compute.
    + repeat apply sublist_app; [done|apply keys_opt..].
Qed.

(** * The objects of a request *)

Definition base_objects (poi mcc name city : string) (root : Z) (account : string)
    (amount tip fee pct postal v62 v64 : option string) : list (Z * string) :=
  ([(0, _PAYLOAD_FORMAT); (1, poi); (root, account); (52, mcc); (53, _BDT_NUMERIC); (58, _COUNTRY_BD);
    (59, name); (60, city)] ++
   opt_object 54 amount ++ opt_object 55 tip ++ opt_object 56 fee ++ opt_object 57 pct ++
   opt_object 61 postal) ++ opt_object 62 v62 ++ opt_object 64 v64.

Section Base.
Context (poi mcc name city account : string) (root : Z)
  (amount tip fee pct postal v62 v64 : option string) (Hroot : 26 <= root < 52).
#[local] Abbreviation objects := (base_objects poi mcc name city root account amount tip fee pct postal v62 v64).

Lemma base_keys : exists l, objects.*1 = l /\
  l `sublist_of` [0; 1; root; 52; 53; 58; 59; 60; 54; 55; 56; 57; 61; 62; 64].
Proof.
  eexists. split; [reflexivity|]. unfold base_objects. rewrite !fmap_app, <- !(assoc_L app).
  change [0; 1; root; 52; 53; 58; 59; 60; 54; 55; 56; 57; 61; 62; 64]
    with ([0; 1; root; 52; 53; 58; 59; 60] ++ [54] ++ [55] ++ [56] ++ [57] ++ [61] ++ [62] ++ [64]).
  repeat apply sublist_app; [done|apply keys_opt..].
Qed.

Lemma base_key_cases k : k ∈ objects.*1 -> k = root \/ (0 <= k <= 1) \/ (52 <= k <= 62) \/ k = 64.
Proof.
  destruct base_keys as (l & -> & Hs). intros Hk. apply (sublist_subseteq _ _ Hs) in Hk.
  rewrite !elem_of_cons, elem_of_nil in Hk. lia.
Qed.

Lemma base_nodup : NoDup (63 :: objects.*1).
Proof.
  destruct base_keys as (l & -> & Hs). eapply sublist_NoDup; [|by apply sublist_skip].
  repeat (apply NoDup_cons; split; [rewrite ?elem_of_cons, elem_of_nil; lia|]). apply NoDup_nil_2.
Qed.

Lemma base_get k :
  dget k objects =
  if k =? 0 then Some _PAYLOAD_FORMAT else if k =? 1 then Some poi
  else if k =? 52 then Some mcc else if k =? 53 then Some _BDT_NUMERIC else if k =? 58 then Some _COUNTRY_BD
  else if k =? 59 then Some name else if k =? 60 then Some city else if k =? 54 then amount
  else if k =? 55 then tip else if k =? 56 then fee else if k =? 57 then pct else if k =? 61 then postal
  else if k =? 62 then v62 else if k =? 64 then v64 else if k =? root then Some account else None.
Proof.
  unfold base_objects. rewrite !dget_app, !dget_opt. cbn [dget].
  repeat match goal with |- context [k =? ?n] => destruct (Z.eqb_spec k n); [subst k; cbn; try lia|] end; try done;
  repeat case_match; try done; lia.
Qed.

Lemma base_get_template k : 2 <= k < 52 -> dget k objects = if k =? root then Some account else None.
Proof. intros Hk. rewrite base_get. repeat case_match; try done; lia. Qed.
End Base.

(** The loop over the merchant templates finds the one the encoder wrote. *)
Lemma find_bangla_root fields config info account : forall ids,
  root_id info ∈ ids ->
  (forall i, i ∈ ids -> dget i fields = if i =? root_id info then Some account else None) ->
  walk_template account = Ok ([(0, guid info); (1, acquirer_id info); (2, mai_merchant_id info)] ++
                              opt_object 3 (keep_truthy (psp_sub_id info))) ->
  truthy (acquirer_id info) = true -> truthy (mai_merchant_id info) = true ->
  upper (guid info) = upper (scheme_guid config) ->
  find_bangla fields config ids =
  Ok (Some (mk_MerchantAccountInfo (root_id info) (guid info) (acquirer_id info) (mai_merchant_id info)
              (keep_truthy (psp_sub_id info)))).
Proof.
  induction ids as [|i ids IH]; intros Hin Hg Hw Ha Hm Hu; [by apply not_elem_of_nil in Hin|].
  cbn [find_bangla]. rewrite Hg by (by left). destruct (Z.eqb_spec i (root_id info)) as [->|Hne].
  - rewrite Hw. cbn [dget app Z.eqb Pos.eqb]. rewrite Hu, String.eqb_refl. cbn [negb].
    unfold keep_truthy at 1 2, otruthy. rewrite Ha, Hm, dget_opt. done.
  - apply IH; try done; [by apply elem_of_cons in Hin as [?|?]|]. intros j Hj. apply Hg. by right.
Qed.

Lemma elem_of_py_range lo hi i : i ∈ py_range lo hi <-> lo <= i < hi.
Proof.
  unfold py_range. rewrite list_elem_of_fmap. split.
  - intros (n & -> & Hn%elem_of_seq). lia.
  - intros Hi. exists (Z.to_nat (i - lo)). split; [lia|]. apply elem_of_seq. lia.
Qed.

(** * The round trip *)

(** Every text of the request is a Python [str]. *)
Definition request_utf8 (r : QrEncodeRequest) : Prop :=
  utf8 (rq_mcc r) /\ utf8 (rq_merchant_name r) /\ utf8 (rq_merchant_city r) /\
  outf8 (rq_postal_code r) /\ outf8 (rq_tip_indicator r) /\ outf8 (rq_convenience_fee_percentage r) /\
  utf8 (guid (merchant_account r)) /\ utf8 (acquirer_id (merchant_account r)) /\
  utf8 (mai_merchant_id (merchant_account r)) /\ outf8 (psp_sub_id (merchant_account r)) /\
  match rq_additional r with Some d => ad_utf8 d | None => True end /\
  match rq_language r with Some l => lang_utf8 l | None => True end.

Definition poi_of (t : QrType) : string := if bool_decide (t = STATIC) then _POI_STATIC else _POI_DYNAMIC.

Lemma render_opt a t : opt_call render_amount_54 a = Ok t ->
  opt_call parse_amount_54 t = Ok a /\ given t = given a /\ outf8 t.
Proof.
  destruct a as [a|]; cbn; intros Hr; inv_res; [|done]. cbn. rewrite (parse_render a a0) by done.
  split_and!; [done..|]. unfold render_amount_54 in E. inv_res. apply ascii_utf8.
  assert (Hd : forall z, 0 <= z -> all_chars ascii_char (str_Z z) = true).
  { intros z Hz. generalize (str_Z_digits z Hz). apply all_chars_impl.
    by intros [[] [] [] [] [] [] [] []]. }
  case_match; [apply Hd; lia|]. rewrite !all_chars_app, Hd by lia. cbn.
  generalize (zpad_digits 2 (a mod 100) ltac:(lia)). apply all_chars_impl.
  by intros [[] [] [] [] [] [] [] []].
Qed.

Lemma parse_poi_written fields t amount text :
  dget 54 fields = text -> opt_call render_amount_54 amount = Ok text ->
  given amount = bool_decide (t = DYNAMIC) ->
  str_in (poi_of t) [_POI_STATIC; _POI_DYNAMIC] = true /\
  parse_poi (poi_of t) fields = Ok (amount, t).
Proof.
  intros Hg Hr Ha. destruct (render_opt _ _ Hr) as (Hp & Hgt & _). unfold parse_poi. rewrite Hg.
  destruct t; cbn in *; split; try done.
  - rewrite Hgt, Ha. by destruct amount.
  - destruct text as [s|]; cbn in Hp, Hgt; [|rewrite Ha in Hgt; discriminate Hgt]. by inv_res.
Qed.

Lemma parse_tip_written fields tip fee text pct :
  dget 55 fields = tip -> dget 56 fields = text -> dget 57 fields = pct ->
  opt_call render_amount_54 fee = Ok text -> valid_tip tip = true ->
  given fee = opt_is tip "02" -> given pct = opt_is tip "03" ->
  match pct with Some t => pct_in_range t = true | None => True end ->
  _parse_tip fields = Ok (tip, fee, pct).
Proof.
  intros H55 H56 H57 Hr Hv Hf Hp Hpct. destruct (render_opt _ _ Hr) as (Hparse & Hgt & _).
  unfold _parse_tip. rewrite H55, H56, H57, Hv, Hgt, Hf, Hp, !xorb_nilpotent, Hparse. cbn.
  destruct pct; [by rewrite Hpct|done].
Qed.

Lemma bool_filter_none {A} (f : A -> bool) l : (forall x, x ∈ l -> f x = false) -> List.filter f l = [].
Proof.
  induction l as [|x l IH]; intros Hf; [done|]. cbn. rewrite Hf by (by left). apply IH.
  intros y Hy. apply Hf. by right.
Qed.

Lemma resolve_written fields config info account :
  (forall k, 2 <= k < 52 -> dget k fields = if k =? root_id info then Some account else None) ->
  26 <= root_id info < 52 ->
  walk_template account = Ok ([(0, guid info); (1, acquirer_id info); (2, mai_merchant_id info)] ++
                              opt_object 3 (keep_truthy (psp_sub_id info))) ->
  truthy (acquirer_id info) = true -> truthy (mai_merchant_id info) = true ->
  upper (guid info) = upper (scheme_guid config) ->
  _resolve_templates fields config =
  Ok (BANGLA_QR, Some (mk_MerchantAccountInfo (root_id info) (guid info) (acquirer_id info)
        (mai_merchant_id info) (keep_truthy (psp_sub_id info))), []).
Proof.
  intros Hd Hroot Hw Ha Hm Hu. unfold _resolve_templates.
  rewrite (find_bangla_root fields config info account); [|by apply elem_of_py_range| |done..].
  - cbn [rbind]. do 3 f_equal. rewrite (bool_filter_none _ _CARD_TEMPLATE_RANGE); [done|].
    intros i Hi%elem_of_py_range. rewrite Hd by lia. by rewrite (proj2 (Z.eqb_neq _ _)) by lia.
  - intros i Hi%elem_of_py_range. apply Hd. lia.
Qed.

Lemma parse_additional_written fields d v :
  dget 62 fields = v -> template_of _additional_data_template d = Ok v ->
  match d with Some d => ad_utf8 d | None => True end ->
  _parse_additional fields = Ok (ad_written (default (mk_AdditionalData None None None None None None) d)).
Proof.
  intros Hg Ht Hu. unfold _parse_additional. rewrite Hg. destruct d as [d|]; cbn in Ht; [|by injection Ht as <-].
  apply additional_template in Ht; [|done]. destruct v; cbn; [|by rewrite Ht].
  rewrite Ht. cbn [rbind]. by rewrite dget_additional.
Qed.

Lemma parse_language_written fields l v :
  dget 64 fields = v -> template_of _language_template l = Ok v ->
  match l with Some l => lang_utf8 l | None => True end ->
  exists lang, _parse_language fields = Ok lang /\
    match lang with
    | None => True
    | Some lang => exists l0, l = Some l0 /\ language_preference lang = language_preference l0
    end.
Proof.
  intros Hg Ht Hu. unfold _parse_language. rewrite Hg. destruct v as [v|]; [|by exists None].
  destruct l as [l|]; [|done]. apply language_template in Ht as (name & city & ->); [|done].
  eexists. split; [done|]. by exists l.
Qed.

Lemma base_utf8 t mcc name city root account amount tip fee pct postal v62 v64 :
  utf8 mcc -> utf8 name -> utf8 city -> utf8 account -> outf8 amount -> outf8 tip -> outf8 fee ->
  outf8 pct -> outf8 postal -> outf8 v62 -> outf8 v64 ->
  utf8_objects (base_objects (poi_of t) mcc name city root account amount tip fee pct postal v62 v64).
Proof.
  intros. unfold utf8_objects, base_objects. rewrite !Forall_app.
  split_and!; [repeat constructor; try done; by destruct t|by apply utf8_opt..].
Qed.

Lemma assembled_utf8 l v : assemble l = Ok v -> utf8_objects l -> utf8 v.
Proof.
  revert v. induction l as [|[i t] l IH]; intros v Ha Hu; cbn in Ha; [by simplify_eq|]. inv_res.
  apply Forall_cons in Hu as [Ht Hu]. apply encode_object_inv in E as (Hi & Hl & ->).
  assert (Hz : forall z, 0 <= z -> utf8 (zpad 2 z)).
  { intros z Hz. apply ascii_utf8. generalize (zpad_digits 2 z Hz). apply all_chars_impl.
    by intros [[] [] [] [] [] [] [] []]. }
  apply valid_utf8_app; [|by apply IH]. apply valid_utf8_app; [apply Hz; lia|].
  apply valid_utf8_app; [apply Hz; lia|done].
Qed.

Lemma walked_utf8 v l : walk_template v = Ok l -> utf8 v.
Proof.
  unfold walk_template. intros Hw. inv_res. apply walk_sound in E as (Ha & _ & Hu & _).
  eapply assembled_utf8; [exact Ha|]. unfold utf8_objects. by rewrite Forall_fmap.
Qed.

(** What the templates of a request give the root object list. *)
Lemma templates_utf8 lang extra lang' extra' v62 v64 :
  trimmed_parts lang extra lang' extra' ->
  match extra with Some d => ad_utf8 d | None => True end ->
  match lang with Some l => lang_utf8 l | None => True end ->
  template_of _additional_data_template extra' = Ok v62 -> template_of _language_template lang' = Ok v64 ->
  match extra' with Some d => ad_utf8 d | None => True end /\
  match lang' with Some l => lang_utf8 l | None => True end /\ outf8 v62 /\ outf8 v64.
Proof.
  intros [Hl He] Hed Hld H62 H64.
  assert (Hed' : match extra' with Some d => ad_utf8 d | None => True end).
  { destruct extra, extra'; try done. by eapply ad_trimmed_utf8. }
  assert (Hld' : match lang' with Some l => lang_utf8 l | None => True end).
  { destruct Hl as [-> | (l & l' & -> & -> & Ht)]; [done|]. by eapply lang_trimmed_utf8. }
  split_and!; [done..| |].
  - destruct v62 as [v|]; [|done]. destruct extra' as [d|]; [|done]. cbn in H62.
    eapply walked_utf8, (additional_template d (Some v)); done.
  - destruct v64 as [v|]; [|done]. destruct lang' as [l|]; [|done]. cbn in H64.
    destruct (language_template l v H64 Hld') as (name & city & Hw). by eapply walked_utf8.
Qed.

(** The guards of the tip objects. *)
Lemma validate_tip_inv r u :
  _validate_tip_objects r = Ok u ->
  valid_tip (rq_tip_indicator r) = true /\
  given (rq_convenience_fee_fixed_minor r) = opt_is (rq_tip_indicator r) "02" /\
  given (rq_convenience_fee_percentage r) = opt_is (rq_tip_indicator r) "03" /\
  match rq_convenience_fee_percentage r with Some t => pct_in_range t = true | None => True end.
Proof.
  unfold _validate_tip_objects. intros Hv. inv_res. bool_prop.
  split_and!; [done|by apply xorb_eq..|]. case_match; [|done]. inv_res. by bool_prop.
Qed.

(** The name, the city and the postal text that a request is encoded with. *)
Definition name_of (r : QrEncodeRequest) : string := truncate_graphemes (strip (rq_merchant_name r)) 25 false.
Definition city_of (r : QrEncodeRequest) : string := truncate_graphemes (strip (rq_merchant_city r)) 15 false.
Definition postal_of (r : QrEncodeRequest) : option string := strip <$> keep_truthy (rq_postal_code r).

(** An encoded request: the guards it passed, and the objects that were built. *)
Lemma encode_payload_inv r p :
  encode_payload r = Ok p ->
  match_mcc (rq_mcc r) = true /\ given (rq_amount_minor r) = bool_decide (rq_qr_type r = DYNAMIC) /\
  (exists u, _validate_tip_objects r = Ok u) /\
  truthy (name_of r) = true /\ truthy (city_of r) = true /\
  exists root account amount fee,
    _merchant_account_template (merchant_account r) = Ok (root, account) /\
    opt_call render_amount_54 (rq_amount_minor r) = Ok amount /\
    opt_call render_amount_54 (rq_convenience_fee_fixed_minor r) = Ok fee /\
    exists lang extra v62 v64 body,
      trimmed_parts (rq_language r) (rq_additional r) lang extra /\
      template_of _additional_data_template extra = Ok v62 /\
      template_of _language_template lang = Ok v64 /\
      assemble (sort_objects
        (base_objects (poi_of (rq_qr_type r)) (rq_mcc r) (name_of r) (city_of r) root account amount
           (rq_tip_indicator r) fee (rq_convenience_fee_percentage r) (postal_of r) v62 v64)) = Ok body /\
      p = append_crc body /\ (String.length p <= 512)%nat.
Proof.
  unfold encode_payload. intros He. inv_res. unfold _require_ascii in E0. inv_res. bool_prop.
  split_and!; [done| |by eexists|done|done|].
  { destruct (rq_qr_type r), (rq_amount_minor r); done. }
  assert (a4 = postal_of r) as ->.
  { unfold postal_of. destruct (keep_truthy (rq_postal_code r)); cbn in E4; inv_res; [|done].
    unfold postal_text in *. by inv_res. }
  destruct a1 as [root account].
  apply trim_to_budget_inv in He as (lang & extra & Htr & Hb & Hl). unfold build in Hb. inv_res.
  eexists _, _, _, _. split_and!; [done..|]. by eexists _, _, _, _, _.
Qed.

Lemma parse_fields_ok payload config fields poi mcc name city amount t tip fee pct route bangla cards h ad lang :
  dget 0 fields = Some _PAYLOAD_FORMAT -> dget 1 fields = Some poi ->
  str_in poi [_POI_STATIC; _POI_DYNAMIC] = true ->
  dget 52 fields = Some mcc -> match_mcc mcc = true -> dget 53 fields = Some _BDT_NUMERIC ->
  dget 58 fields = Some _COUNTRY_BD -> dget 59 fields = Some name -> truthy name = true ->
  dget 60 fields = Some city -> truthy city = true ->
  parse_poi poi fields = Ok (amount, t) -> _parse_tip fields = Ok (tip, fee, pct) ->
  _resolve_templates fields config = Ok (route, bangla, cards) ->
  payload_hash_of payload = Ok h -> _parse_additional fields = Ok ad -> _parse_language fields = Ok lang ->
  parse_fields payload config fields =
  Ok (mk_ParsedPayload payload h t route mcc name city _COUNTRY_BD _BDT_NUMERIC amount tip fee pct
        (dget 61 fields) ad lang bangla cards).
Proof.
  intros H0' H1' Hpoi H52 Hmcc H53 H58 H59 Hn H60 Hc Ha Ht Hr Hh Had Hl. unfold parse_fields.
  rewrite H0', H1', Hpoi, H52, Hmcc, H53, H58, H59, H60. unfold keep_truthy, otruthy. rewrite Hn, Hc.
  rewrite Ha. cbn [rbind]. rewrite Ht. cbn [rbind]. rewrite Hr. cbn [rbind]. rewrite Hh. cbn [rbind].
  rewrite Had. cbn [rbind]. by rewrite Hl.
Qed.

(** C32: what the encoder writes, the decoder reads back.  For every request the
    encoder accepts, the payload is at most 512 bytes and the decoder of the
    same scheme accepts it, with the type, the amount, the category code, the
    tip, the convenience fees, the postal code and the merchant account of the
    request, the name and the city as truncated, the language of the request or
    none, and the reference label, which trimming never drops. *)
Theorem encode_decode_roundtrip request config p :
  request_utf8 request ->
  upper (guid (merchant_account request)) = upper (scheme_guid config) ->
  encode_payload request = Ok p ->
  (String.length p <= 512)%nat /\
  exists pp, parse_and_validate p config = Ok pp /\
    pp_qr_type pp = rq_qr_type request /\ pp_amount_minor pp = rq_amount_minor request /\
    pp_mcc pp = rq_mcc request /\ pp_tip_indicator pp = rq_tip_indicator request /\
    pp_convenience_fee_fixed_minor pp = rq_convenience_fee_fixed_minor request /\
    pp_convenience_fee_percentage pp = rq_convenience_fee_percentage request /\
    pp_postal_code pp = strip <$> keep_truthy (rq_postal_code request) /\
    pp_merchant_name pp = truncate_graphemes (strip (rq_merchant_name request)) 25 false /\
    pp_merchant_city pp = truncate_graphemes (strip (rq_merchant_city request)) 15 false /\
    route_class pp = BANGLA_QR /\ card_template_ids pp = [] /\
    bangla_template pp =
      (let a := merchant_account request in
       Some (mk_MerchantAccountInfo (root_id a) (guid a) (acquirer_id a) (mai_merchant_id a)
               (keep_truthy (psp_sub_id a)))) /\
    reference_label (pp_additional pp) = keep_truthy (rq_additional request ≫= reference_label) /\
    (forall l, pp_language pp = Some l ->
       language_preference l = default ""%string (language_preference <$> rq_language request)).
Proof.
  intros (Hmcc & Hname & Hcity & Hpostal & Htip & Hpct & Hg & Hacq & Hmid & Hpsp & Had & Hlang) Hup Hen.
  apply encode_payload_inv in Hen as (Hm & Ham & [u Ht] & Hn & Hc & root & account & amount & fee & Hacc &
    Hra & Hrf & lang & extra & v62 & v64 & body & Htr & H62 & H64 & Hb & -> & Hl).
  split; [done|].
  apply validate_tip_inv in Ht as (Ht & Hfee & Hgp & Hpr).
  destruct (account_template _ _ _ Hacc) as (-> & Hroot & Hw & Ha & Hmi); [done..|].
  destruct (templates_utf8 _ _ _ _ _ _ Htr Had Hlang H62 H64) as (Hed & Hld & Hu62 & Hu64).
  destruct (parse_built _ body config Hb) as (fields & -> & Hd).
  { apply base_utf8; try done; try by apply truncate_valid, strip_valid.
    - by eapply walked_utf8.
    - by apply (render_opt _ _ Hra).
    - by apply (render_opt _ _ Hrf).
    - unfold postal_of, keep_truthy. destruct (rq_postal_code request); [|done].
      destruct (otruthy _); [exact (strip_valid _ Hpostal)|exact I]. }
  { by apply base_nodup. }
  { apply Forall_forall. intros k Hk. apply base_key_cases in Hk; lia. }
  assert (Hget := fun k Hk => eq_trans (Hd k Hk) (base_get _ _ _ _ _ _ _ _ _ _ _ _ _ Hroot k)).
  destruct (parse_poi_written fields _ _ _ (Hget 54 ltac:(lia)) Hra Ham) as [Hpoi Hpoi'].
  pose proof (parse_tip_written fields _ _ _ _ (Hget 55 ltac:(lia)) (Hget 56 ltac:(lia)) (Hget 57 ltac:(lia))
    Hrf Ht Hfee Hgp Hpr) as Htip'.
  pose proof (parse_additional_written fields extra v62 (Hget 62 ltac:(lia)) H62 Hed) as Hadd.
  destruct (parse_language_written fields lang v64 (Hget 64 ltac:(lia)) H64 Hld) as (pl & Hpl & Hpref).
  eexists. split.
  { eapply parse_fields_ok;
      try match goal with |- dget ?k _ = _ => exact (Hget k ltac:(done)) end; try done.
    apply (resolve_written fields config (merchant_account request) account); try done. intros k Hk. rewrite Hd by lia.
    by apply base_get_template. }
  destruct Htr as [Htl Hta]. cbn. split_and!; try done; try by apply Hget.
  - destruct (rq_additional request), extra; try done. cbn. by rewrite (proj1 Hta).
  - intros l ->. destruct Hpref as (l0 & -> & ->).
    destruct Htl as [?|(l1 & l2 & -> & ? & Hp & _)]; [done|]. simplify_eq. cbn. done.
Qed.

(** * What the decoder accepts *)

Lemma parse_amount_positive t a : parse_amount_54 t = Ok a -> 0 < a.
Proof. unfold parse_amount_54. intros Hp. inv_res. case_match; [|done]. case_match. inv_res. lia. Qed.

Lemma parse_poi_inv poi fields amount t :
  parse_poi poi fields = Ok (amount, t) ->
  (t = STATIC /\ amount = None /\ poi = _POI_STATIC /\ dget 54 fields = None) \/
  (t = DYNAMIC /\ poi <> _POI_STATIC /\
   exists text a, dget 54 fields = Some text /\ parse_amount_54 text = Ok a /\ amount = Some a /\ 0 < a).
Proof.
  unfold parse_poi, qr_failed. intros Hp. destruct (String.eqb_spec poi _POI_STATIC); [|case_match]; inv_res.
  - left. split_and!; [done..|]. by destruct (dget 54 fields).
  - right. split_and!; [done..|]. eexists _, _. split_and!; [done..|]. by eapply parse_amount_positive.
Qed.

Lemma keep_truthy_Some o x : keep_truthy o = Some x -> o = Some x /\ truthy x = true.
Proof. unfold keep_truthy. destruct o as [y|]; cbn; [|done]. destruct (truthy y) eqn:Hy; [by intros [= <-]|done]. Qed.

(** The merchant account [b] is the template the fields carry under its root id,
    and it is of the configured scheme. *)
Definition carries_template (fields : list (Z * string)) (config : BanglaQrConfig) (b : MerchantAccountInfo) : Prop :=
  exists value subs, dget (root_id b) fields = Some value /\ walk_template value = Ok subs /\
    dget 0 subs = Some (guid b) /\ dget 1 subs = Some (acquirer_id b) /\ dget 2 subs = Some (mai_merchant_id b) /\
    dget 3 subs = psp_sub_id b /\ upper (guid b) = upper (scheme_guid config) /\
    truthy (acquirer_id b) = true /\ truthy (mai_merchant_id b) = true.

Lemma find_bangla_inv fields config ids b :
  find_bangla fields config ids = Ok (Some b) -> root_id b ∈ ids /\ carries_template fields config b.
Proof.
  induction ids as [|i ids IH]; cbn [find_bangla]; [done|]. intros Hf.
  assert (Hrec : find_bangla fields config ids = Ok (Some b) -> root_id b ∈ i :: ids /\ carries_template fields config b).
  { intros (Hr & ?)%IH. split; [by right|done]. }
  destruct (dget i fields) as [value|] eqn:Hi; [|auto].
  destruct (walk_template value) as [subs|e] eqn:Hw; [|by destruct e; [|apply Hrec| |]].
  destruct (dget 0 subs) as [g|] eqn:H0'; [|auto]. destruct (negb _) eqn:Hg; [auto|].
  apply negb_false_iff, String.eqb_eq in Hg.
  destruct (keep_truthy (dget 1 subs)) as [a|] eqn:Ha; [|done].
  destruct (keep_truthy (dget 2 subs)) as [m|] eqn:Hm; [|done]. simplify_eq. cbn.
  apply keep_truthy_Some in Ha as [Ha ?], Hm as [Hm ?]. split; [by left|]. exists value, subs. by split_and!.
Qed.

Lemma resolve_templates_inv fields config route bangla cards :
  _resolve_templates fields config = Ok (route, bangla, cards) ->
  (forall i, i ∈ cards <-> 2 <= i < 26 /\ is_Some (dget i fields)) /\
  match bangla with
  | Some b => route = BANGLA_QR /\ 26 <= root_id b < 52 /\ carries_template fields config b
  | None => route = CARD_SCHEME /\ cards <> []
  end.
Proof.
  unfold _resolve_templates. intros Hr.
  assert (Hcards : forall i, i ∈ List.filter (fun i => given (dget i fields)) _CARD_TEMPLATE_RANGE <->
    2 <= i < 26 /\ is_Some (dget i fields)).
  { intros i. rewrite list_elem_of_In, filter_In, <- list_elem_of_In. unfold _CARD_TEMPLATE_RANGE. rewrite elem_of_py_range.
    destruct (dget i fields); cbn; split; intros [? Hs]; split; try done; by destruct Hs. }
  revert Hr Hcards. generalize (List.filter (fun i => given (dget i fields)) _CARD_TEMPLATE_RANGE) as cs. intros cs Hr Hcards.
  destruct (find_bangla _ _ _) as [[b|]|] eqn:E; cbn [rbind] in Hr; [| |done].
  - injection Hr as <- <- <-. apply find_bangla_inv in E as (Hi%elem_of_py_range & ?). done.
  - destruct cs; [done|]. by injection Hr as <- <- <-.
Qed.

Lemma accepted_crc q config pp :
  parse_and_validate q config = Ok pp ->
  verify_crc q = true /\ exists objects, walk q true = Ok objects /\
    (forall o, o ∈ objects -> ~ 65 <= object_id o < 80) /\ object_id <$> last objects = Some 63 /\
    parse_fields q config (fields_of objects) = Ok pp.
Proof.
  unfold parse_and_validate. intros Hp. inv_res.
  unfold _check_crc_object in E0. destruct (last a) as [o|] eqn:Hl; [|done]. inv_res. bool_prop.
  split; [done|]. exists a. rewrite Hl. split_and!; [done| |by f_equal/=|done].
  intros x Hx Hr. assert (Hex : List.existsb (fun o => in_reserved_range (object_id o)) a = true); [|congruence].
  apply List.existsb_exists. exists x. split; [by apply list_elem_of_In|]. unfold in_reserved_range, in_range. lia.
Qed.

(** The result repeats the fields. *)
Lemma parse_fields_inv payload config fields pp :
  parse_fields payload config fields = Ok pp ->
  payload_string pp = payload /\ dget 0 fields = Some _PAYLOAD_FORMAT /\
  dget 53 fields = Some (pp_currency pp) /\ pp_currency pp = "050"%string /\
  dget 58 fields = Some (country_code pp) /\ country_code pp = "BD"%string /\
  dget 52 fields = Some (pp_mcc pp) /\ match_mcc (pp_mcc pp) = true /\
  dget 59 fields = Some (pp_merchant_name pp) /\ dget 60 fields = Some (pp_merchant_city pp) /\
  dget 61 fields = pp_postal_code pp /\
  (exists poi, dget 1 fields = Some poi /\ (poi = _POI_STATIC \/ poi = _POI_DYNAMIC) /\
     parse_poi poi fields = Ok (pp_amount_minor pp, pp_qr_type pp)) /\
  _resolve_templates fields config = Ok (route_class pp, bangla_template pp, card_template_ids pp).
Proof.
  unfold parse_fields, qr_failed. intros Hp. destruct (negb (opt_is (dget 0 fields) _)) eqn:H00; [done|].
  destruct (dget 1 fields) as [poi|]; [|done]. destruct (negb (str_in poi _)) eqn:Hpoi; [done|].
  destruct (dget 52 fields) as [mcc|]; [|done]. destruct (negb (match_mcc mcc)) eqn:Hm; [done|].
  destruct (dget 53 fields) as [cur|]; [|done]. destruct (negb (String.eqb cur _)) eqn:Hcur; [done|].
  destruct (dget 58 fields) as [cou|]; [|done]. destruct (negb (String.eqb cou _)) eqn:Hcou; [done|].
  destruct (keep_truthy (dget 59 fields)) as [name|] eqn:Hname; [|done].
  destruct (keep_truthy (dget 60 fields)) as [city|] eqn:Hcity; [|done].
  apply keep_truthy_Some in Hname as [-> _], Hcity as [-> _].
  apply negb_false_iff, String.eqb_eq in Hcur, Hcou. apply negb_false_iff in Hm, Hpoi, H00.
  apply bool_decide_eq_true in H00. apply bool_decide_eq_true in Hpoi. subst cur cou.
  assert (Hor : poi = _POI_STATIC \/ poi = _POI_DYNAMIC) by (rewrite !elem_of_cons, elem_of_nil in Hpoi; naive_solver).
  destruct (_resolve_templates fields config) as [[[route bangla] cards]|] eqn:Hr;
    [|by destruct (parse_poi _ _) as [[]|], (_parse_tip _) as [[[]]|]].
  inv_res. split_and!; try done. by eexists.
Qed.

(** C33: what the decoder accepts.  An accepted payload carries a valid checksum and
    is, byte for byte, a sequence of objects with distinct ids, none of them
    reserved, that ends in the checksum object.  What is read from it are its fields: it is static, and
    then its type field is "11" and it has no amount field, or dynamic, and then its
    type field is "12" and the amount is that of its amount field and positive; the
    format is "01", currency and country are the taka and Bangladesh, and category,
    name, city and postal code are the fields 52, 59, 60 and 61.  The card templates
    reported are exactly the fields 02 to 25 it has, and it is routed to the Bangla
    QR scheme with the merchant account it carries in one of the templates 26 to 51
    of that scheme, or else to a card scheme with at least one card template.  No
    accepted payload can be turned into another accepted one by changing one byte. *)
Theorem accepted_payload_sound payload config pp :
  parse_and_validate payload config = Ok pp ->
  payload_string pp = payload /\ verify_crc payload = true /\
  (exists objects, let fields := fields_of objects in
     walk payload true = Ok objects /\ assemble fields = Ok payload /\ NoDup (object_id <$> objects) /\
     (forall o, o ∈ objects -> ~ 65 <= object_id o < 80) /\ object_id <$> last objects = Some 63 /\
     (pp_qr_type pp = STATIC /\ pp_amount_minor pp = None /\ dget 1 fields = Some "11"%string /\ dget 54 fields = None \/
      pp_qr_type pp = DYNAMIC /\ dget 1 fields = Some "12"%string /\
      exists text a, dget 54 fields = Some text /\ parse_amount_54 text = Ok a /\ pp_amount_minor pp = Some a /\ 0 < a) /\
     dget 0 fields = Some "01"%string /\
     dget 53 fields = Some (pp_currency pp) /\ pp_currency pp = "050"%string /\
     dget 58 fields = Some (country_code pp) /\ country_code pp = "BD"%string /\
     dget 52 fields = Some (pp_mcc pp) /\ match_mcc (pp_mcc pp) = true /\
     dget 59 fields = Some (pp_merchant_name pp) /\ dget 60 fields = Some (pp_merchant_city pp) /\
     dget 61 fields = pp_postal_code pp /\
     (forall i, i ∈ card_template_ids pp <-> 2 <= i < 26 /\ is_Some (dget i fields)) /\
     match bangla_template pp with
     | Some b => route_class pp = BANGLA_QR /\ 26 <= root_id b < 52 /\ carries_template fields config b
     | None => route_class pp = CARD_SCHEME /\ card_template_ids pp <> []
     end) /\
  (forall x c c' y, payload = x +:+ String c y -> c <> c' ->
     is_ok (parse_and_validate (x +:+ String c' y) config) = false).
Proof.
  intros Hp. pose proof (accepted_crc _ _ _ Hp) as (Hv & objects & Hw & Hres & Hlast & Hf).
  assert (Hone : forall x c c' y, payload = x +:+ String c y -> c <> c' ->
     is_ok (parse_and_validate (x +:+ String c' y) config) = false).
  { intros x c c' y -> Hne. destruct (parse_and_validate (x +:+ String c' y) config) eqn:Ho; [|done].
    apply accepted_crc in Ho as [Ho _]. by rewrite (verify_crc_change x c c' y) in Ho. }
  destruct (parse_fields_inv _ _ _ _ Hf) as (Hpay & H0' & H53 & Hcur & H58 & Hcou & H52 & Hm & H59 & H60 & H61 & (poi & H1' & Hpo & Hpoi) & Hr).
  apply resolve_templates_inv in Hr as [Hcards Hroute]. split_and!; try done.
  exists objects. cbv zeta. split_and!; try done.
  - by apply (walk_sound _ _ _ _ _ Hw).
  - by apply (walk_sound _ _ _ _ _ Hw).
  - destruct (parse_poi_inv _ _ _ _ Hpoi) as [(? & ? & -> & ?)|(? & Hn & ?)]; [by left|right]. split_and!; [done| |done].
    by destruct Hpo as [->| ->].
Qed.
End Decode.

(** * A concrete payload *)

(** Upper case and combining signs, enough for the texts below. *)
#[local] Instance demo_unicode : UnicodeData := {|
  combining c := str_in c [bytes [224; 166; 190]; bytes [224; 167; 135]]%N;
  upper s := s;
|}.
#[local] Existing Instance Sha256.sha256_fn.

Definition demo_config : BanglaQrConfig := mk_BanglaQrConfig "ACQ001" "PSP01" 26 "BD.BANGLAQR.NPSB".

(** A dynamic code for 1250.50 taka with a fixed fee, a reference label and a
    Bengali name. *)
Definition demo_request : QrEncodeRequest :=
  mk_QrEncodeRequest DYNAMIC (mk_MerchantAccountInfo 26 "BD.BANGLAQR.NPSB" "ACQ001" "M123" None)
    "5411" " Corner Shop " "Dhaka" (Some 125050) None (Some "02"%string) (Some 500) None
    (Some (mk_AdditionalData (Some "INV-7"%string) None None (Some "pi_0123456789"%string) None None))
    (Some (mk_LanguageTemplate "bn" (Some (bytes [224; 166; 166; 224; 167; 139]%N)) None)).

Definition demo_payload : string :=
  match encode_payload demo_request with Ok p => p | Err _ => "" end.

Lemma encode_decode_roundtrip_witness :
  encode_payload demo_request = Ok demo_payload /\
  exists pp, parse_and_validate demo_payload demo_config = Ok pp /\
    pp_amount_minor pp = Some 125050 /\ reference_label (pp_additional pp) = Some "pi_0123456789"%string.
Proof.
  assert (encode_payload demo_request = Ok demo_payload) as He by (vm_compute; reflexivity).
  split; [exact He|].
  destruct (encode_decode_roundtrip demo_request demo_config demo_payload) as [_ (pp & Hp & Hr)].
  - unfold request_utf8. split_and!; try exact I; try (vm_compute; reflexivity).
    + cbn. split; [vm_compute; reflexivity|]. intros []; vm_compute; reflexivity || exact I.
    + cbn. split_and!; [vm_compute; reflexivity..|exact I].
  - reflexivity.
  - exact He.
  - exists pp. split; [exact Hp|]. split; apply Hr.
Defined.

Lemma accepted_payload_sound_witness :
  exists pp, parse_and_validate demo_payload demo_config = Ok pp /\ verify_crc demo_payload = true /\
    pp_currency pp = "050"%string.
Proof.
  destruct (parse_and_validate demo_payload demo_config) as [pp|] eqn:He; [|vm_compute in He; discriminate He].
  exists pp. destruct (accepted_payload_sound demo_payload demo_config pp He) as (_ & Hv & (objects & _ & _ & _ & _ & _ & _ & _ & _ & Hc & _) & _).
  split; [reflexivity|]. split; [exact Hv|exact Hc].
Defined.
